(* ===== verification/_CoqProject ===== *)
-Q . S2P
Prelude.v
Text.v
Maps.v
Bytes.v
Conversation.v
SecretChat.v
Message.v
Payment.v
Wallet.v
MiniAppServiceCall.v
Apps.v
Community.v
EngineTypes.v
EngineCore.v
EngineConversation.v
EngineMessage.v
EngineCommerce.v
EngineCommunity.v
EngineApp.v
EngineApply.v
Engine.v
EngineInvariant.v
EngineMoney.v
EngineDemo.v
EngineOrders.v
EngineMessaging.v
EngineSecrecy.v
EngineGovernance.v
EngineRetention.v
Tl.v
Schema.v
Transport.v
MtSession.v
Crypto.v
Auth.v
Dc.v
Api.v
MediaCache.v
TransferQueue.v
Extension.v
Notification.v
Realtime.v
Access.v
Signaling.v
Settlement.v
StateError.v
Search.v
BlobStore.v
Protocol.v
Store.v
SqliteStore.v
JsonStore.v
ServiceView.v
ServiceJournal.v
ServiceCommand.v
MessagingService.v
ServicePersistence.v
ServiceSync.v
ServiceExpiry.v
ServiceIntegrity.v
ServicePrivacy.v
ServiceDelivery.v
ServiceReplay.v
Server.v
ServiceDemo.v
TgEngine.v
TgInvariant.v
TgStorage.v
TgPersistence.v
TgDemo.v
Numbers.v
Handshake.v
KeyTransport.v
KeyAgreement.v
HandshakeSafety.v
Srp.v
Network.v
NetworkAnswers.v
Runtime.v
GlobalDharma.v
