(* ===== verification/Prelude.v ===== *)
(** * The messaging platform's native core, verified

    The program is the native core of a messaging platform, in Rust.  Its own logic
    is in [src/native/mahayana-messaging], an event-sourced messaging engine with
    the service, the stores and the server around it, and in the crates of a
    Telegram client: [src/native/telegram-protocol], the byte-level client of
    MTProto, [telegram-network], its sessions over a stream, [telegram-core], the
    client's event-sourced state, [telegram-storage], its encrypted database,
    [telegram-media], its queue of transfers, and [telegram-runtime], which ties them
    together behind a C interface.  Beside them stands [src/native/global-dharma], a
    small daemon that sends contents to authorised nodes.

    ** How the program is put together

    A frame arrives on a TCP or a WebSocket connection (server.rs, gateway.rs).
    The server authorises its token for the actor, device, session and scope
    (access.rs) and hands the request to [MessagingService::handle] (service.rs).
    The service checks the request, settles the messages that have expired,
    translates the request into engine commands and executes them.

    [MessagingEngine::execute] (engine.rs) is [decide], which checks a command
    against the current [MessagingState] and answers with events or an error, and
    [apply], which folds the events into the state.  The checks call the
    components: the wallet ledger, communities, retention, stories, bots, mini
    apps.

    The service turns the events into server events, computes the audience of
    each, appends them to the journal under the new cursor and saves the state
    with them (store.rs, in memory or in SQLite).  A client that synchronises from
    a cursor receives the journal's later entries addressed to it, projected for
    it, or a snapshot when the journal no longer reaches the cursor.  Blobs
    (blob_store.rs) and searches (search.rs) are served beside this.

    Beside the engine stand self-contained services: secret chats (end-to-end
    sessions), signed settlements, the media cache and its transfers, the identities
    of extensions and the feed of the keys they are trusted by, devices,
    notifications, calls and their signalling, which has a server of its own: a
    thread per connection reads lines and routes signals through the shared hub,
    another writes what the hub queued for the client.  The MTProto crate turns requests into bytes: the TL
    format, the sealing of messages, message identifiers and sequence numbers,
    then frames; above them the exchange of the authorisation key (the client
    factors the server's number, encrypts its secret nonce under the server's RSA
    key, checks the Diffie-Hellman parameters and waits for the confirmation of
    the key), the authorisation state machine, the directory of data centres, the
    state of updates and the builders of calls.  The Telegram client decides a
    command against its state, applies the events to a copy, commits state and
    events to the database under the revision it has seen, and only then adopts
    the copy.  Its requests to the server take the session out of the client's slot,
    use it without the lock (an encrypted request is written, the messages that
    arrive are opened and searched for the answer, containers included, and a
    request refused for its salt is sent once more) and put it back before they look
    at the outcome.

    ** Conventions

    - A [&mut self] method returns the new state beside its result, so what an
      error leaves behind is part of the model; the methods of the service are
      written in the monad of [StateError].  [Result] is [result], the [?]
      operator its bind, [reject_if c e] is [if c { return Err(e) }].
    - Integers are [Z], with every checked, saturating and wrapping operation of
      the source written out at its width; floats are their bits.
    - [BTreeMap] and [BTreeSet] are [gmap] and [gset]; where the source depends on
      the key order, [btree_values] and [btree_elements] sort.
    - A string is its UTF-8 bytes.  What the source takes from other crates
      (ciphers, hashes, base64, JSON, the Unicode tables behind [to_uppercase],
      the random source) is a class of operations or an argument; laws a theorem needs are a
      second class, and each such theorem has a witness with a concrete instance.
    - The trait [MessagingStateStore] is a class; what the service relies on is
      the class [RefinesMemory] (a store answers as the memory store it stands
      for, unless it refuses what JSON cannot write, and gives back what reads
      back as it was written), which the memory store and the SQLite store
      implement.  Only the settling of expired messages is stated for a store that
      refuses nothing ([TotalStore]).
    - A directory is the map of its files, a database its tables; neither fails.
    - A stream is the list of what its reads will answer, bytes or errors, and which
      of its writes fail; clocks and generators are functions of how often they were
      asked.  Threads that share a state are lists of jobs, and a run is any sequence
      of their sections ([World] in [Runtime], [SignalServer] in [Signaling],
      [DharmaWorld] in [GlobalDharma]); what a section holds of a lock it holds alone.
    - Record update is [r ⟪ field := v ⟫] and [r ⟪ field ::= f ⟫].

    ** The files

    Shared: [Prelude] (errors, integers, record update, tactics), [Text]
    (strings and their order), [Maps] (finite maps; the pages of a sorted list),
    [Bytes] (words, slices, hexadecimal, splitting), [StateError] (the monad of state and
    errors).

    mahayana-messaging: [Conversation] (actor.rs, conversation.rs, retention.rs),
    [Apps] (story.rs, bot.rs, miniapp.rs), [Realtime] (realtime.rs, device.rs),
    [Notification] (notification.rs, privacy.rs), and beside the files of the same
    name [Message], [Payment], [Wallet], [MiniAppServiceCall], [Community],
    [SecretChat], [Access], [Settlement], [Search], [BlobStore], [Protocol];
    [MediaCache] (media_cache.rs, media.rs), [Signaling] (signaling.rs and
    signaling_server.rs), [Extension] (extension.rs, extension_trust.rs).

    engine.rs: [EngineTypes] (commands, events, state, errors), [EngineCore] (the
    checks its arms share), [EngineConversation], [EngineMessage],
    [EngineCommerce], [EngineCommunity], [EngineApp] (the arms of [decide] by
    subject, one definition each), [EngineApply] (the arms of [apply]), [Engine]
    ([decide_command], [execute], and which events an arm answers with).  Theorems
    about whole executions: [EngineInvariant] (the invariant of the state),
    [EngineMoney], [EngineOrders],
    [EngineMessaging], [EngineSecrecy], [EngineGovernance], [EngineRetention];
    [EngineDemo] is the state their witnesses start from.

    store.rs: [Store] (the trait, the memory store, pages of the journal),
    [SqliteStore] (the tables and every statement), [JsonStore] (the legacy file
    and its import).

    service.rs: [ServiceView] (who sees what, projections, snapshots, unread
    counts, searches), [ServiceJournal] (server events, audiences, the journal),
    [ServiceCommand] (authorisation, translation, replays, bot invocations),
    [MessagingService] (the requests themselves).  Theorems: [ServicePersistence]
    (what each step does to the cursor, the store and the journal),
    [ServiceSync], [ServiceExpiry], [ServiceDelivery], [ServiceIntegrity],
    [ServicePrivacy], [ServiceReplay]; [ServiceDemo] is the service their
    witnesses use.

    server.rs and gateway.rs: [Server].

    telegram-protocol: [Tl] (tl.rs), [Schema] (schema.rs), [Transport]
    (transport.rs), [MtSession] (session.rs, request.rs, updates.rs), [Crypto]
    (crypto.rs), [Auth] (auth.rs), [Dc] (dc.rs), [Api] (api.rs), [Srp] (srp.rs: the
    proof of a password, and the server's half of it).  handshake.rs: [Numbers] (factoring and
    primality on 64-bit integers, and what is used of big integers), [Handshake]
    (messages, RSA padding, checks, the state machine).  Its theorems:
    [KeyTransport] (the factors; the holder of the private key), [KeyAgreement]
    (the server's half of the exchange), [HandshakeSafety] (reachability, and a
    whole exchange).

    The Telegram client: [TgEngine] (telegram-core: domain.rs, engine.rs),
    [TgInvariant] (its invariants), [TgStorage] (telegram-storage: cipher.rs,
    sqlite.rs with its message index), [TgPersistence] (opening a client and
    executing core commands, runtime.rs); [TgDemo] holds the instances of their
    witnesses.  [Network] (telegram-network: connecting, framing, the exchange of the
    key, requests and pings), [NetworkAnswers] (what each operation keeps and what an
    answer answers; a message from end to end), [TransferQueue] (telegram-media),
    [Runtime] (the rest of runtime.rs and the entry points of lib.rs).

    global-dharma: [GlobalDharma] (global-dharma-core, global-dharma-daemon).

    ** What the theorems show

    - Engine: every reachable state is coherent; money is neither made nor lost
      outside settlements; a checkout pays once and a refund undoes it; messages
      change and disappear only by the commands meant to do so; a message is
      queued only by one allowed to send it, slow mode spaces messages, secret
      conversations hold only sealed messages (apart from the commands the
      findings name), membership changes only by those who govern it; retention
      updates are fenced by their revision.
    - Service: whatever requests are answered or refused, the service stays in
      order and its store coherent, never later than the service, and equal to it
      if no save was refused ([service_survives_restart]); what a
      request announces reaches exactly those it concerns; following the journal delivers every
      entry once, in order, and ends; synchronising and searching reveal only
      what the actor may see, and the index of a snapshot is complete; expired
      messages are settled before each request; a repeated send is answered from
      the store, whatever was asked in between.
    - Stores: the SQLite store answers exactly as the memory store, over any run
      of saves; one that JSON cannot write is refused and changes nothing.  A resumed upload reads back as the file that was sent.
    - Server: only authorised requests reach the service, whatever arrives, and
      what they make the engine do, they do as the holder of the token.
    - Ledger: balances are the postings, requests are idempotent, a refund
      restores balances, errors leave the state alone except for the one overflow
      that is stated.
    - Secret chat: the 128-bit replay window refines the log of all opened
      counters; no counter opens twice; an established pair delivers its stream;
      backups restore.
    - Communities: following the cursors lists every member once and the whole
      log, and ends; the audit log keeps the newest entries.
    - Signalling server: its lines do not depend on the chunks they arrive in; however
      the threads interleave, a signal delivered carries the actor for whom the hello
      of the connection it came from was accepted.
    - Other services: the cache evicts the least recently used and stays within
      its budget; quiet hours are the window of the clock; device cursors only
      advance; a signal reaches exactly its targets; a token authorises exactly
      when an active grant says so, revocation is final; a signed settlement
      verifies; calls to mini app services stay governed; a completed transfer was
      verified to its last byte; a release key is accepted exactly when the verified
      feed vouches for it.
    - MTProto: TL values and frames of all four transports round trip; an
      envelope opens exactly when it was sealed; a message of the client arrives;
      client identifiers increase whatever the clock does; no server identifier
      is accepted twice; authorisation follows the server; the proof of a password is
      accepted by the server that holds its verifier; the two readers of a schema
      agree.
    - Telegram requests: what [invoke_raw] returns is the answer, opened under the
      session's key, to a request it sealed and wrote; a request of the runtime that
      fails changes nothing but the counters of its session; a client becomes ready
      on the server's word (or its caller's); however requests interleave, sessions
      are not multiplied.  The transfer queue keeps to its slots and its files.
    - Key exchange: the client factors a product of two primes; what it encrypts,
      the holder of the RSA key reads; both ends compute the same key; a key is
      established only by its confirmation, after every check, whatever arrives in
      whatever order.
    - Telegram client: every reachable state is well formed and survives its
      serialisation; an acknowledgement replaces exactly the message it answers;
      clients that share a database share one history and lose no update; a
      search finds only matching messages for a query of at most 64 words, and the
      newest of all of them where no message has more than 512.  History and snapshot
      agree for what JSON gives back exactly, coordinates included.
    - Global Dharma: content goes only to nodes the configuration allows, every
      receipt is of a post the node itself answered, no minute sees more than twice
      the limit of sends, and a request is read whatever the chunks.

    ** Fuel

    The eviction loop of the cache runs on one round per entry and one to stop,
    the window of server identifiers on one round per identifier, a client that
    follows the journal on one page per entry and one more; all are proved
    enough.  The other paging theorems bound the number of pages instead.
    Euclid's algorithm runs on 130 rounds and the powers modulo a 64-bit integer on
    64, which are proved enough; the bounds of Pollard's rho (a million steps for
    each of 128 constants) and of the RSA padding (128 rounds) are the code's, and so
    are the 64 messages and two attempts of a request.  The search of a container for
    an answer runs on the length of the body, and the loop that takes frames off a
    buffer on the length of the buffer: every round leaves less, so they are enough
    ([scan_depth_enough], [ping_depth_enough], [take_frame_step]).

    ** Not modelled

    The accepting of connections, shutting sockets down, time limits and the failures
    of disks (server.rs, gateway.rs, telegram-network); the start-up of processes (the
    programs under bin/); the atomic rewriting of the access file (access.rs); the
    audit of a schema against a pinned digest and the generated table schema_ids.rs;
    the catalogue of features (feature.rs), which is data; the payment provider, an
    interface to an outside service; the WebAssembly bindings, which pass JSON to the
    parts above; the tool server and the command line of global-dharma, which start
    processes and print what they answer; and the vendored projects under
    src/third_party.
*)

From stdpp Require Export base tactics option list numbers strings gmap pretty sorting fin_maps countable.
From Stdlib Require Export Ascii ZArith Lia.

(** ** Errors as values

    [Result<T, E>] of the source.  [mbind] is the [?] operator. *)

Inductive result (E A : Type) : Type :=
| Ok (a : A)
| Err (e : E).
Arguments Ok {E A} _.
Arguments Err {E A} _.

#[export] Instance result_ret (E : Type) : MRet (result E) := fun A a => Ok a.

#[export] Instance result_bind (E : Type) : MBind (result E) :=
  fun A B f r => match r with Ok a => f a | Err e => Err e end.

#[export] Instance result_fmap (E : Type) : FMap (result E) :=
  fun A B f r => match r with Ok a => Ok (f a) | Err e => Err e end.

(** [option.ok_or(e)] *)
Definition ok_or {E A : Type} (o : option A) (e : E) : result E A :=
  match o with Some a => Ok a | None => Err e end.

(** [if bad { return Err(e) }] *)
Definition reject_if {E : Type} (bad : bool) (e : E) : result E unit :=
  if bad then Err e else Ok tt.

(** [result.map_err(f)] *)
Definition map_err {E F A : Type} (f : E -> F) (r : result E A) : result F A :=
  match r with Ok a => Ok a | Err e => Err (f e) end.

Definition is_ok {E A : Type} (r : result E A) : bool :=
  match r with Ok _ => true | Err _ => false end.

(** [Option<Result<T, E>>::transpose] *)
Definition transpose {E A : Type} (o : option (result E A)) : result E (option A) :=
  match o with
  | None => Ok None
  | Some (Ok a) => Ok (Some a)
  | Some (Err e) => Err e
  end.

(** Equality tests of the source, as booleans. *)
Definition eqb {A : Type} `{EqDecision A} (a b : A) : bool := bool_decide (a = b).

Lemma eqb_spec {A : Type} `{EqDecision A} (a b : A) : eqb a b = true <-> a = b.
Proof. apply bool_decide_eq_true. Qed.

Lemma eqb_true {A : Type} `{EqDecision A} (a b : A) : eqb a b = true -> a = b.
Proof. apply bool_decide_eq_true. Qed.

Lemma eqb_false {A : Type} `{EqDecision A} (a b : A) : eqb a b = false <-> a <> b.
Proof. apply bool_decide_eq_false. Qed.

#[export] Instance result_eq_dec {E A : Type} `{EqDecision E, EqDecision A} :
  EqDecision (result E A).
Proof. solve_decision. Defined.

(** ** Functional update of record fields

    [r ⟪ f := v ⟫] is the record [r] with field [f] set to [v]; [⟪ f ::= g ⟫]
    applies [g] to the field.  Each record provides an [Eta] instance, from
    which the update of any of its fields is derived. *)

Class Eta (R : Type) := eta_expand : R -> R.

Class Updatable {R A : Type} (proj : R -> A) := field_update : (A -> A) -> R -> R.
Arguments field_update {R A} proj {_} _ _ : simpl never.

Ltac derive_update proj :=
  match type of proj with
  | ?R -> ?A =>
      exact (fun (upd : A -> A) (r : R) =>
        ltac:(let e := eval hnf in (eta_expand r) in
              match e with
              | context C [proj r] =>
                  let t := context C [upd (proj r)] in exact t
              end))
  end.

#[export] Hint Extern 1 (Updatable ?proj) => derive_update proj : typeclass_instances.

Declare Scope model_scope.
Delimit Scope model_scope with model.
Notation "r ⟪ f ::= g ⟫" := (field_update f g r)
  (at level 1, left associativity, f constr at level 9, g at level 200, format "r ⟪ f  ::=  g ⟫") : model_scope.
Notation "r ⟪ f := v ⟫" := (field_update f (fun _ => v) r)
  (at level 1, left associativity, f constr at level 9, v at level 200, format "r ⟪ f  :=  v ⟫") : model_scope.
Open Scope model_scope.
Open Scope string_scope.
Open Scope Z_scope.

(** ** Machine integers

    A [w]-bit integer is a [Z]; the operations below are the ones of the
    Rust standard library the source calls. *)

Definition i64_min : Z := - 2 ^ 63.
Definition i64_max : Z := 2 ^ 63 - 1.
Definition u32_max : Z := 2 ^ 32 - 1.
Definition u64_max : Z := 2 ^ 64 - 1.

Definition in_i64 (z : Z) : bool := (i64_min <=? z) && (z <=? i64_max).
Definition in_u64 (z : Z) : bool := (0 <=? z) && (z <=? u64_max).
Definition in_u32 (z : Z) : bool := (0 <=? z) && (z <=? u32_max).

Definition checked (ok : Z -> bool) (z : Z) : option Z := if ok z then Some z else None.

Definition checked_add_i64 (a b : Z) : option Z := checked in_i64 (a + b).
Definition checked_sub_i64 (a b : Z) : option Z := checked in_i64 (a - b).
Definition checked_mul_i64 (a b : Z) : option Z := checked in_i64 (a * b).
Definition checked_add_u64 (a b : Z) : option Z := checked in_u64 (a + b).

Definition clamp (lo hi z : Z) : Z := Z.max lo (Z.min z hi).
Definition saturating_add_i64 (a b : Z) : Z := clamp i64_min i64_max (a + b).
Definition saturating_mul_i64 (a b : Z) : Z := clamp i64_min i64_max (a * b).
Definition saturating_add_u64 (a b : Z) : Z := clamp 0 u64_max (a + b).
Definition saturating_mul_u64 (a b : Z) : Z := clamp 0 u64_max (a * b).
Definition saturating_sub_u64 (a b : Z) : Z := Z.max 0 (a - b).

Lemma checked_spec (ok : Z -> bool) (z r : Z) :
  checked ok z = Some r <-> r = z /\ ok z = true.
Proof. unfold checked. destruct (ok z) eqn:?; intuition congruence. Qed.

Lemma checked_none (ok : Z -> bool) (z : Z) : checked ok z = None <-> ok z = false.
Proof. unfold checked. destruct (ok z) eqn:?; intuition congruence. Qed.

Lemma in_i64_spec (z : Z) : in_i64 z = true <-> i64_min <= z <= i64_max.
Proof. unfold in_i64. rewrite andb_true_iff, !Z.leb_le. tauto. Qed.

Lemma in_u64_spec (z : Z) : in_u64 z = true <-> 0 <= z <= u64_max.
Proof. unfold in_u64. rewrite andb_true_iff, !Z.leb_le. tauto. Qed.


(** ** Tactics *)

(** Read the fields of updated records. *)
Ltac read_field :=
  match goal with
  | |- context [?p (@field_update _ _ ?p ?U ?f ?r)] =>
      change (p (@field_update _ _ p U f r)) with (f (p r)); cbv beta
  | |- context [?p (@field_update _ _ ?q ?U ?f ?r)] =>
      change (p (@field_update _ _ q U f r)) with (p r)
  | H : context [?p (@field_update _ _ ?p ?U ?f ?r)] |- _ =>
      change (p (@field_update _ _ p U f r)) with (f (p r)) in H; cbv beta in H
  | H : context [?p (@field_update _ _ ?q ?U ?f ?r)] |- _ =>
      change (p (@field_update _ _ q U f r)) with (p r) in H
  end.
Ltac fields := repeat read_field.

(** Case analysis of a monadic computation known to succeed. *)
Lemma bind_ok {E A B : Type} (r : result E A) (f : A -> result E B) (b : B) :
  r ≫= f = Ok b <-> exists a, r = Ok a /\ f a = Ok b.
Proof. destruct r; simpl; naive_solver. Qed.

Lemma reject_if_ok {E : Type} (bad : bool) (e : E) (u : unit) : reject_if bad e = Ok u <-> bad = false.
Proof. destruct u, bad; simpl; naive_solver. Qed.

Lemma ok_or_ok {E A : Type} (o : option A) (e : E) (a : A) : ok_or o e = Ok a <-> o = Some a.
Proof. destruct o; simpl; naive_solver. Qed.

Lemma map_err_ok {E F A : Type} (f : E -> F) (r : result E A) (a : A) :
  map_err f r = Ok a <-> r = Ok a.
Proof. destruct r; simpl; naive_solver. Qed.

(** Decompose every hypothesis of the form [computation = Ok _]. *)
Ltac ok_step :=
  match goal with
  | H : _ ≫= _ = Ok _ |- _ =>
      let a := fresh "a" in let Ha := fresh "Hok" in
      apply bind_ok in H as (a & Ha & H); cbv beta in H
  | H : reject_if _ _ = Ok _ |- _ => apply reject_if_ok in H
  | H : ok_or _ _ = Ok _ |- _ => apply ok_or_ok in H
  | H : map_err _ _ = Ok _ |- _ => apply map_err_ok in H
  | H : Ok _ = Ok _ |- _ => injection H as H
  | H : Err _ = Ok _ |- _ => discriminate H
  | u : unit |- _ => destruct u
  | H : _ || _ = false |- _ => apply orb_false_iff in H as [? ?]
  | H : negb _ = false |- _ => apply negb_false_iff in H
  end.
Ltac oks := repeat ok_step.

(** The same, splitting pairs on the way. *)
Ltac pair_step :=
  match goal with
  | p : (_ * _)%type |- _ => destruct p
  end.
Ltac okps := repeat first [ok_step | pair_step].
