(* ===== verification/Text.v ===== *)
(** * Strings: the operations of [str] and [String] the source uses, and their laws *)

From S2P Require Import Prelude.

(** ** Bytes and white space

    A [String] is its UTF-8 bytes.  [trim] removes the characters with the
    Unicode property White_Space, whose encodings take one, two or three
    bytes. *)

Definition byte_at (a : ascii) : Z := Z.of_N (N_of_ascii a).

Definition white1 (a : ascii) : bool :=
  let x := byte_at a in ((9 <=? x) && (x <=? 13)) || (x =? 32).

(** U+0085, U+00A0 *)
Definition white2 (a b : ascii) : bool :=
  (byte_at a =? 194) && ((byte_at b =? 133) || (byte_at b =? 160)).

(** U+1680, U+2000 to U+200A, U+2028, U+2029, U+202F, U+205F, U+3000 *)
Definition white3 (a b c : ascii) : bool :=
  let x := byte_at a in let y := byte_at b in let z := byte_at c in
  ((x =? 225) && (y =? 154) && (z =? 128))
  || ((x =? 226) && (y =? 128)
      && (((128 <=? z) && (z <=? 138)) || (z =? 168) || (z =? 169) || (z =? 175)))
  || ((x =? 226) && (y =? 129) && (z =? 159))
  || ((x =? 227) && (y =? 128) && (z =? 128)).

Definition bytes_of (s : string) : list ascii := String.list_ascii_of_string s.
Definition string_of (l : list ascii) : string := String.string_of_list_ascii l.

(** Strip leading white space; [w2] and [w3] recognise the two- and
    three-byte encodings in the order the bytes are met. *)
Fixpoint strip_white (w2 : ascii -> ascii -> bool) (w3 : ascii -> ascii -> ascii -> bool)
    (l : list ascii) : list ascii :=
  match l with
  | [] => []
  | a :: l1 =>
      if white1 a then strip_white w2 w3 l1 else
      match l1 with
      | [] => l
      | b :: l2 =>
          if w2 a b then strip_white w2 w3 l2 else
          match l2 with
          | [] => l
          | c :: l3 => if w3 a b c then strip_white w2 w3 l3 else l
          end
      end
  end.

Definition trim_start_bytes (l : list ascii) : list ascii := strip_white white2 white3 l.
Definition trim_end_bytes (l : list ascii) : list ascii :=
  rev (strip_white (fun b a => white2 a b) (fun c b a => white3 a b c) (rev l)).

Definition trim (s : string) : string := string_of (trim_end_bytes (trim_start_bytes (bytes_of s))).

Definition is_empty (s : string) : bool :=
  match s with EmptyString => true | _ => false end.

(** [s.trim().is_empty()] *)
Definition blank (s : string) : bool := is_empty (trim s).

(** [s.len()] counts bytes. *)
Definition len (s : string) : Z := Z.of_nat (String.length s).

Definition is_ascii_lower (a : ascii) : bool := let x := byte_at a in (97 <=? x) && (x <=? 122).
Definition is_ascii_upper (a : ascii) : bool := let x := byte_at a in (65 <=? x) && (x <=? 90).
Definition is_ascii_digit (a : ascii) : bool := let x := byte_at a in (48 <=? x) && (x <=? 57).
Definition is_ascii_alphanumeric (a : ascii) : bool := is_ascii_digit a || is_ascii_lower a || is_ascii_upper a.

Definition ascii_upper (a : ascii) : ascii :=
  if is_ascii_lower a then ascii_of_N (Z.to_N (byte_at a - 32)) else a.

Definition map_bytes (f : ascii -> ascii) (s : string) : string := string_of (f <$> bytes_of s).
Definition to_ascii_uppercase (s : string) : string := map_bytes ascii_upper s.

Definition all_bytes (f : ascii -> bool) (s : string) : bool := forallb f (bytes_of s).

Fixpoint strip_prefix (p s : string) : option string :=
  match p, s with
  | EmptyString, _ => Some s
  | String a p', String b s' => if decide (a = b) then strip_prefix p' s' else None
  | String _ _, EmptyString => None
  end.

(** [s.trim_start_matches(c)] *)
Fixpoint trim_start_matches (c : ascii) (s : string) : string :=
  match s with
  | EmptyString => EmptyString
  | String a s' => if decide (a = c) then trim_start_matches c s' else s
  end.

(** [Display] of an integer. *)
Definition display (z : Z) : string := pretty z.

(** [str::to_uppercase] is defined by the Unicode tables, which are not part
    of the source: it is a parameter, known to agree with ASCII case mapping
    on ASCII text. *)
Class UnicodeCase := str_to_uppercase : string -> string.

Definition is_ascii (s : string) : bool := all_bytes (fun a => byte_at a <? 128) s.

Class UnicodeCaseLaws (U : UnicodeCase) : Prop :=
  str_to_uppercase_ascii : forall s, is_ascii s = true -> str_to_uppercase s = to_ascii_uppercase s.

(** A model of the parameter: the tables restricted to ASCII. *)
Definition ascii_case : UnicodeCase := to_ascii_uppercase.

#[export] Instance ascii_case_laws : UnicodeCaseLaws ascii_case.
Proof. intros s _. reflexivity. Qed.

(** ** Laws *)

Lemma bytes_of_string_of (l : list ascii) : bytes_of (string_of l) = l.
Proof. apply String.list_ascii_of_string_of_list_ascii. Qed.

Lemma string_of_bytes_of (s : string) : string_of (bytes_of s) = s.
Proof. apply String.string_of_list_ascii_of_string. Qed.

Lemma bytes_of_app (s t : string) : bytes_of (s +:+ t) = (bytes_of s ++ bytes_of t)%list.
Proof. unfold bytes_of. induction s as [|a s IH]; [done|]. simpl. by f_equal. Qed.

Lemma bytes_of_inj (s t : string) : bytes_of s = bytes_of t -> s = t.
Proof. intros H. by rewrite <- (string_of_bytes_of s), H, string_of_bytes_of. Qed.

Section strip_white.
Variable w2 : ascii -> ascii -> bool.
Variable w3 : ascii -> ascii -> ascii -> bool.

(** No white-space character can be stripped from the front of [l]. *)
Definition no_white_prefix (l : list ascii) : Prop :=
  match l with
  | [] => True
  | a :: l1 => white1 a = false /\
      match l1 with
      | [] => True
      | b :: l2 => w2 a b = false /\
          match l2 with [] => True | c :: _ => w3 a b c = false end
      end
  end.

Lemma strip_white_eq (l : list ascii) :
  strip_white w2 w3 l =
  match l with
  | [] => []
  | a :: l1 =>
      if white1 a then strip_white w2 w3 l1 else
      match l1 with
      | [] => l
      | b :: l2 =>
          if w2 a b then strip_white w2 w3 l2 else
          match l2 with
          | [] => l
          | c :: l3 => if w3 a b c then strip_white w2 w3 l3 else l
          end
      end
  end.
Proof. by destruct l. Qed.

(** Split the list as far as one step of [strip_white] looks. *)
Ltac strip_step l IH :=
  induction l as [l IH] using (induction_ltof1 _ (@length ascii)); unfold ltof in IH;
  rewrite strip_white_eq; destruct l as [|?a [|?b [|?c ?l]]];
  repeat match goal with |- context [if ?t then _ else _] => destruct t eqn:? end.

Lemma strip_white_stops (l : list ascii) : no_white_prefix (strip_white w2 w3 l).
Proof. strip_step l IH; try (apply IH; simpl; lia); simpl; tauto. Qed.

Lemma strip_white_fixed (l : list ascii) : no_white_prefix l -> strip_white w2 w3 l = l.
Proof. destruct l as [|a [|b [|c l3]]]; simpl; intuition; repeat case_match; congruence. Qed.

Lemma strip_white_suffix (l : list ascii) : exists p, l = (p ++ strip_white w2 w3 l)%list.
Proof.
  strip_step l IH; try (by exists []);
    match goal with |- context [strip_white w2 w3 ?t] =>
      destruct (IH t ltac:(simpl; lia)) as [p Hp] end;
    first [ by eexists (_ :: p); exact (f_equal (fun z => _ :: z) Hp)
          | by eexists (_ :: _ :: p); exact (f_equal (fun z => _ :: _ :: z) Hp)
          | by eexists (_ :: _ :: _ :: p); exact (f_equal (fun z => _ :: _ :: _ :: z) Hp) ].
Qed.

Lemma no_white_prefix_app (l k : list ascii) : no_white_prefix (l ++ k)%list -> no_white_prefix l.
Proof. destruct l as [|a [|b [|c l3]]]; simpl; tauto. Qed.

Lemma strip_white_map (f : ascii -> ascii) (l : list ascii) :
  (forall a, white1 (f a) = white1 a) ->
  (forall a b, w2 (f a) (f b) = w2 a b) ->
  (forall a b c, w3 (f a) (f b) (f c) = w3 a b c) ->
  strip_white w2 w3 (f <$> l) = f <$> strip_white w2 w3 l.
Proof.
  intros H1 H2 H3.
  induction l as [l IH] using (induction_ltof1 _ (@length ascii)); unfold ltof in IH.
  rewrite !strip_white_eq. destruct l as [|a [|b [|c l]]]; rewrite ?fmap_cons, ?fmap_nil, ?H1, ?H2, ?H3;
    repeat case_match; try done;
    match goal with |- _ = f <$> strip_white w2 w3 ?t => exact (IH t ltac:(simpl; lia)) end.
Qed.
End strip_white.

Definition w2_rev (b a : ascii) : bool := white2 a b.
Definition w3_rev (c b a : ascii) : bool := white3 a b c.

Lemma trim_end_prefix (l : list ascii) : exists k, l = (trim_end_bytes l ++ k)%list.
Proof.
  unfold trim_end_bytes.
  destruct (strip_white_suffix w2_rev w3_rev (rev l)) as [p Hp].
  exists (rev p). rewrite <- rev_app_distr. unfold w2_rev, w3_rev in Hp. rewrite <- Hp.
  by rewrite rev_involutive.
Qed.

Lemma trim_end_idem (l : list ascii) : trim_end_bytes (trim_end_bytes l) = trim_end_bytes l.
Proof.
  unfold trim_end_bytes at 1 2 3. rewrite rev_involutive. f_equal.
  apply strip_white_fixed, strip_white_stops.
Qed.

Lemma trim_idem (s : string) : trim (trim s) = trim s.
Proof.
  unfold trim. rewrite bytes_of_string_of. f_equal.
  set (t := trim_start_bytes (bytes_of s)).
  assert (trim_start_bytes (trim_end_bytes t) = trim_end_bytes t) as ->.
  { apply strip_white_fixed. destruct (trim_end_prefix t) as [k Hk].
    apply (no_white_prefix_app _ _ _ k). rewrite <- Hk. apply strip_white_stops. }
  apply trim_end_idem.
Qed.

(** *** ASCII case mapping *)

Lemma byte_at_ascii (z : Z) : 0 <= z < 256 -> byte_at (ascii_of_N (Z.to_N z)) = z.
Proof. intros H. unfold byte_at. rewrite N_ascii_embedding by lia. lia. Qed.

Lemma byte_at_range (a : ascii) : 0 <= byte_at a < 256.
Proof. unfold byte_at. pose proof (N_ascii_bounded a). lia. Qed.

Lemma byte_at_inj (a b : ascii) : byte_at a = byte_at b -> a = b.
Proof.
  unfold byte_at. intros H. apply N2Z.inj in H.
  by rewrite <- (ascii_N_embedding a), <- (ascii_N_embedding b), H.
Qed.

Lemma byte_at_upper (a : ascii) :
  byte_at (ascii_upper a) = if (97 <=? byte_at a) && (byte_at a <=? 122) then byte_at a - 32 else byte_at a.
Proof.
  unfold ascii_upper, is_ascii_lower. pose proof (byte_at_range a).
  destruct (97 <=? byte_at a) eqn:?, (byte_at a <=? 122) eqn:?; simpl; try done.
  apply byte_at_ascii. lia.
Qed.

Lemma ascii_upper_idem (a : ascii) : ascii_upper (ascii_upper a) = ascii_upper a.
Proof.
  apply byte_at_inj. rewrite byte_at_upper.
  destruct ((97 <=? byte_at (ascii_upper a)) && (byte_at (ascii_upper a) <=? 122)) eqn:E; [|done].
  rewrite byte_at_upper in E |- *. repeat case_match; lia.
Qed.

Ltac by_upper := unfold white1, white2, white3; rewrite ?byte_at_upper;
  repeat match goal with
  | |- context [if (97 <=? ?x) && (?x <=? 122) then _ else _] =>
      destruct (97 <=? x) eqn:?, (x <=? 122) eqn:?; simpl
  end; try done; lia.

Lemma white1_upper (a : ascii) : white1 (ascii_upper a) = white1 a.
Proof. by_upper. Qed.

Lemma white2_upper (a b : ascii) : white2 (ascii_upper a) (ascii_upper b) = white2 a b.
Proof. by_upper. Qed.

Lemma white3_upper (a b c : ascii) :
  white3 (ascii_upper a) (ascii_upper b) (ascii_upper c) = white3 a b c.
Proof. by_upper. Qed.

Lemma trim_upper (s : string) : trim (to_ascii_uppercase s) = to_ascii_uppercase (trim s).
Proof.
  unfold trim, to_ascii_uppercase, map_bytes. rewrite !bytes_of_string_of. f_equal.
  unfold trim_start_bytes.
  rewrite strip_white_map by auto using white1_upper, white2_upper, white3_upper.
  unfold trim_end_bytes. rewrite <- map_rev.
  change (map ascii_upper ?l) with (ascii_upper <$> l).
  rewrite strip_white_map by auto using white1_upper, white2_upper, white3_upper.
  by rewrite <- map_rev.
Qed.

Lemma to_ascii_uppercase_idem (s : string) :
  to_ascii_uppercase (to_ascii_uppercase s) = to_ascii_uppercase s.
Proof.
  unfold to_ascii_uppercase, map_bytes. rewrite bytes_of_string_of. f_equal.
  rewrite <- list_fmap_compose. apply list_fmap_ext. intros i a _. apply ascii_upper_idem.
Qed.

Lemma display_inj (a b : Z) : display a = display b -> a = b.
Proof. apply (inj pretty). Qed.

(** ** [str::parse::<usize>] *)

(** The digits after the optional sign, with the overflow checks. *)
Fixpoint parse_digits (acc : Z) (l : list ascii) : option Z :=
  match l with
  | [] => Some acc
  | a :: rest =>
      if is_ascii_digit a then
        acc' ← checked in_u64 (acc * 10 + (byte_at a - 48)); parse_digits acc' rest
      else None
  end.

Definition parse_usize (s : string) : option Z :=
  match bytes_of s with
  | [] => None
  | a :: rest =>
      if Ascii.eqb a "+" then match rest with [] => None | _ => parse_digits 0 rest end
      else parse_digits 0 (a :: rest)
  end.

Lemma pretty_char_digit (n : N) : (n < 10)%N ->
  is_ascii_digit (pretty_N_char n) = true /\ byte_at (pretty_N_char n) - 48 = Z.of_N n.
Proof.
  intros Hn. destruct n as [|p]; [done|]. do 4 (try destruct p as [p|p|]); (done || lia).
Qed.

Lemma parse_pretty_go (x : N) (s : string) :
  Z.of_N x <= u64_max -> parse_digits 0 (bytes_of (pretty_N_go x s)) = parse_digits (Z.of_N x) (bytes_of s).
Proof.
  revert s. induction (N.lt_wf_0 x) as [x _ IH]; intros s Hx.
  destruct (decide (x = 0)%N) as [->|Hne]; [done|].
  rewrite pretty_N_go_step by lia. rewrite IH; [|by apply N.div_lt; lia|].
  - destruct (pretty_char_digit (x `mod` 10)) as [Hd Hv]; [by apply N.mod_lt|].
    unfold bytes_of. simpl. rewrite Hd, Hv. unfold checked.
    replace (Z.of_N (x `div` 10) * 10 + Z.of_N (x `mod` 10)) with (Z.of_N x).
    + rewrite (proj2 (in_u64_spec _)) by lia. done.
    + rewrite N2Z.inj_div, N2Z.inj_mod. pose proof (Z.div_mod (Z.of_N x) (Z.of_N 10)). lia.
  - rewrite N2Z.inj_div. pose proof (Z.div_le_upper_bound (Z.of_N x) 10 u64_max). lia.
Qed.

(** Parsing what was printed. *)
Lemma parse_display (n : Z) : 0 <= n <= u64_max -> parse_usize (display n) = Some n.
Proof.
  intros Hn. unfold display, pretty, pretty_Z. destruct n as [|p|p]; [done| |lia].
  unfold parse_usize. pose proof (parse_pretty_go (Npos p) "" ltac:(lia)) as Hp. simpl in Hp.
  change (pretty p) with (pretty_N_go (N.pos p) "").
  destruct (bytes_of (pretty_N_go (N.pos p) "")) as [|a rest]; [by simpl in Hp|].
  destruct (Ascii.eqb_spec a "+") as [->|_]; [by simpl in Hp|exact Hp].
Qed.

(** Printable ASCII has no white space to trim. *)
Lemma visible_not_white a : 33 <= byte_at a < 128 ->
  white1 a = false /\ (forall b, white2 a b = false) /\ (forall b, white2 b a = false)
  /\ (forall b c, white3 a b c = false) /\ (forall b c, white3 b c a = false).
Proof.
  intros H. unfold white1, white2, white3.
  split_and!; intros; repeat (case_match || (apply orb_false_iff; split) || (apply andb_false_iff; lia));
    rewrite ?andb_false_iff, ?orb_false_iff; lia.
Qed.

Lemma trim_visible s : all_bytes (fun a => (33 <=? byte_at a) && (byte_at a <? 128)) s = true -> trim s = s.
Proof.
  unfold all_bytes. rewrite forallb_forall. intros H.
  assert (forall a, a ∈ bytes_of s -> 33 <= byte_at a < 128) as Hall.
  { intros a Ha%list_elem_of_In%H. apply andb_true_iff in Ha as [?%Z.leb_le ?%Z.ltb_lt]. lia. }
  unfold trim, trim_end_bytes, trim_start_bytes. rewrite (strip_white_fixed white2 white3).
  2: { destruct (bytes_of s) as [|a [|b [|c l]]]; simpl; try done;
       destruct (visible_not_white a) as (? & ? & ? & ? & ?); try (apply Hall; set_solver); auto. }
  rewrite (strip_white_fixed _ _ (rev (bytes_of s))).
  2: { assert (forall a, a ∈ rev (bytes_of s) -> 33 <= byte_at a < 128) as Hrev
         by (intros a Ha; apply Hall, list_elem_of_In, in_rev, list_elem_of_In, Ha).
       destruct (rev (bytes_of s)) as [|a [|b [|c l]]]; simpl; try done;
       destruct (visible_not_white a) as (? & ? & ? & ? & ?); try (apply Hrev; set_solver); auto. }
  by rewrite rev_involutive, string_of_bytes_of.
Qed.

(** What [display] prints of a natural number is digits. *)
Lemma pretty_go_digits (x : N) (s : string) :
  all_bytes is_ascii_digit s = true -> all_bytes is_ascii_digit (pretty_N_go x s) = true.
Proof.
  revert s. induction (N.lt_wf_0 x) as [x _ IH]; intros s Hs.
  destruct (decide (x = 0)%N) as [->|Hne]; [done|].
  rewrite pretty_N_go_step by lia. apply IH; [by apply N.div_lt; lia|].
  destruct (pretty_char_digit (x `mod` 10)) as [Hd _]; [by apply N.mod_lt|].
  unfold all_bytes in *. simpl. by rewrite Hd.
Qed.

Lemma pretty_go_nonempty (x : N) (s : string) : is_empty s = false -> is_empty (pretty_N_go x s) = false.
Proof.
  revert s. induction (N.lt_wf_0 x) as [x _ IH]; intros s Hs.
  destruct (decide (x = 0)%N) as [->|Hne]; [done|].
  rewrite pretty_N_go_step by lia. by apply IH; [by apply N.div_lt; lia|].
Qed.

Lemma display_digits (n : Z) : 0 <= n -> all_bytes is_ascii_digit (display n) = true /\ is_empty (display n) = false.
Proof.
  intros Hn. unfold display, pretty, pretty_Z. destruct n as [|p|p]; [done| |lia].
  unfold pretty, pretty_positive, pretty, pretty_N. rewrite decide_False by done. split.
  - by apply pretty_go_digits.
  - rewrite pretty_N_go_step by lia. by apply pretty_go_nonempty.
Qed.

Lemma strip_prefix_app (p s : string) : strip_prefix p (p +:+ s) = Some s.
Proof. induction p as [|a p IH]; [done|]. simpl. by rewrite decide_True. Qed.
