(* ===== verification/Maps.v ===== *)
(** * Ordered maps and sets

    A [BTreeMap] is a [gmap]; where the source iterates over one, the model
    iterates in key order.  The keys are strings or new types over strings,
    compared byte by byte. *)

From S2P Require Import Prelude Text.

(** The order of a key is the order of its string. *)
Class BTreeKey (K : Type) := key_string : K -> string.

Class BTreeKeyInj (K : Type) `{BTreeKey K} : Prop := key_string_inj :: Inj (=) (=) (key_string (K := K)).

#[export] Instance string_key : BTreeKey string := fun s => s.
#[export] Instance string_key_inj : BTreeKeyInj string.
Proof. by intros a b. Qed.

Section ordered.
Context {K : Type} `{Countable K, !BTreeKey K}.

Definition key_le (a b : K) : Prop := String.le (key_string a) (key_string b).
#[export] Instance key_le_dec : RelDecision key_le.
Proof. intros a b. unfold key_le. apply _. Defined.
#[export] Instance key_le_total : Total key_le.
Proof. intros a b. unfold key_le. apply (total String.le). Qed.
#[export] Instance key_le_trans : Transitive key_le.
Proof. intros a b c. unfold key_le. apply (transitivity (R := String.le)). Qed.

Definition item_le {V : Type} (p q : K * V) : Prop := key_le p.1 q.1.
#[export] Instance item_le_dec {V : Type} : RelDecision (item_le (V := V)).
Proof. intros p q. unfold item_le. apply _. Defined.
#[export] Instance item_le_total {V : Type} : Total (item_le (V := V)).
Proof. intros p q. unfold item_le. apply (total key_le). Qed.
#[export] Instance item_le_trans {V : Type} : Transitive (item_le (V := V)).
Proof. intros p q r. unfold item_le. apply (transitivity (R := key_le)). Qed.

(** [map.iter()], [map.keys()], [map.values()] *)
Definition btree_items {V : Type} (m : gmap K V) : list (K * V) :=
  merge_sort item_le (map_to_list m).
Definition btree_keys {V : Type} (m : gmap K V) : list K := (btree_items m).*1.
Definition btree_values {V : Type} (m : gmap K V) : list V := (btree_items m).*2.

(** [set.iter()] *)
Definition btree_elements (s : gset K) : list K := merge_sort key_le (elements s).

Lemma btree_items_perm {V : Type} (m : gmap K V) : btree_items m ≡ₚ map_to_list m.
Proof. apply merge_sort_Permutation. Qed.

Lemma elem_of_btree_items {V : Type} (m : gmap K V) (k : K) (v : V) :
  (k, v) ∈ btree_items m <-> m !! k = Some v.
Proof. by rewrite btree_items_perm, elem_of_map_to_list. Qed.

Lemma elem_of_btree_values {V : Type} (m : gmap K V) (v : V) :
  v ∈ btree_values m <-> exists k, m !! k = Some v.
Proof.
  unfold btree_values. rewrite list_elem_of_fmap. split.
  - intros ([k v'] & -> & Hin). exists k. by apply elem_of_btree_items.
  - intros [k Hk]. exists (k, v). by rewrite elem_of_btree_items.
Qed.

Lemma elem_of_btree_elements (s : gset K) (k : K) : k ∈ btree_elements s <-> k ∈ s.
Proof. unfold btree_elements. by rewrite merge_sort_Permutation, elem_of_elements. Qed.

Lemma btree_elements_nodup (s : gset K) : NoDup (btree_elements s).
Proof. unfold btree_elements. rewrite merge_sort_Permutation. apply NoDup_elements. Qed.

Lemma btree_keys_nodup {V : Type} (m : gmap K V) : NoDup (btree_keys m).
Proof. unfold btree_keys. rewrite btree_items_perm. apply NoDup_fst_map_to_list. Qed.

Lemma btree_keys_sorted {V : Type} (m : gmap K V) : StronglySorted key_le (btree_keys m).
Proof.
  unfold btree_keys. apply (StronglySorted_fmap fst item_le key_le); [by intros| ].
  apply (StronglySorted_merge_sort item_le).
Qed.

Lemma btree_values_perm {V : Type} (m : gmap K V) : btree_values m ≡ₚ (map_to_list m).*2.
Proof. unfold btree_values. by rewrite btree_items_perm. Qed.
End ordered.

(** [map.entry(k).or_default()] followed by an update through the reference *)
Definition entry_or {K V : Type} `{Countable K} (d : V) (f : V -> V) (k : K) (m : gmap K V) : gmap K V :=
  <[k := f (default d (m !! k))]> m.

(** [Option::is_some_and], [Option::is_none_or] *)
Definition is_some_and {A : Type} (o : option A) (p : A -> bool) : bool :=
  match o with Some a => p a | None => false end.
Definition is_none_or {A : Type} (o : option A) (p : A -> bool) : bool :=
  match o with Some a => p a | None => true end.

Definition contains_key {K V : Type} `{Countable K} (k : K) (m : gmap K V) : bool :=
  is_some_and (m !! k) (fun _ => true).

Section lookup.
Context {K V : Type} `{Countable K}.

Lemma contains_key_spec (k : K) (m : gmap K V) : contains_key k m = true <-> is_Some (m !! k).
Proof.
  unfold contains_key. destruct (m !! k); simpl; split;
    [by eexists | done | done | by intros []].
Qed.

Lemma contains_key_false (k : K) (m : gmap K V) : contains_key k m = false <-> m !! k = None.
Proof. unfold contains_key. by destruct (m !! k). Qed.

Lemma entry_or_same (d : V) (f : V -> V) (k : K) (m : gmap K V) :
  entry_or d f k m !! k = Some (f (default d (m !! k))).
Proof. apply lookup_insert_eq. Qed.

Lemma entry_or_other (d : V) (f : V -> V) (k j : K) (m : gmap K V) :
  k <> j -> entry_or d f k m !! j = m !! j.
Proof. apply lookup_insert_ne. Qed.

Lemma alter_same (f : V -> V) (k : K) (m : gmap K V) : alter f k m !! k = f <$> m !! k.
Proof. apply lookup_alter_eq. Qed.

Lemma alter_other (f : V -> V) (k j : K) (m : gmap K V) : k <> j -> alter f k m !! j = m !! j.
Proof. apply lookup_alter_ne. Qed.
End lookup.

Lemma map_Forall_alter {K V : Type} `{Countable K} (P : K -> V -> Prop) (f : V -> V) (k : K) (m : gmap K V) :
  (forall v, m !! k = Some v -> P k v -> P k (f v)) -> map_Forall P m -> map_Forall P (alter f k m).
Proof.
  intros Hf Hm j w. rewrite lookup_alter_Some. intros [(<- & v & Hv & ->)|[_ Hw]]; [|by apply Hm].
  apply Hf; [done|]. by apply Hm.
Qed.


Lemma is_some_and_spec {A : Type} (o : option A) (p : A -> bool) :
  is_some_and o p = true <-> exists a, o = Some a /\ p a = true.
Proof. destruct o; naive_solver. Qed.

Create HintDb btree.
#[export] Hint Rewrite -> @contains_key_spec @contains_key_false @is_some_and_spec @eqb_spec @eqb_false : btree.

(** ** Sums over the entries of a map *)

Section map_sum.
Context {K V : Type} `{Countable K}.

Definition map_sum (f : K -> V -> Z) (m : gmap K V) : Z :=
  map_fold (fun k v acc => f k v + acc) 0 m.

Lemma map_sum_empty (f : K -> V -> Z) : map_sum f ∅ = 0.
Proof. apply map_fold_empty. Qed.

Lemma map_sum_insert_new (f : K -> V -> Z) (k : K) (v : V) (m : gmap K V) :
  m !! k = None -> map_sum f (<[k := v]> m) = f k v + map_sum f m.
Proof. intros Hk. unfold map_sum. rewrite map_fold_insert_L; [done | | done]. intros; lia. Qed.

Lemma map_sum_delete (f : K -> V -> Z) (k : K) (v : V) (m : gmap K V) :
  m !! k = Some v -> map_sum f m = f k v + map_sum f (delete k m).
Proof.
  intros Hk. rewrite <- (map_sum_insert_new f k v (delete k m)) by apply lookup_delete_eq.
  by rewrite insert_delete_id.
Qed.

Lemma map_sum_insert (f : K -> V -> Z) (k : K) (v v0 : V) (m : gmap K V) :
  m !! k = Some v0 -> map_sum f (<[k := v]> m) = map_sum f m - f k v0 + f k v.
Proof.
  intros Hk. rewrite (map_sum_delete f k v0 m) by done.
  rewrite (map_sum_delete f k v (<[k := v]> m)) by apply lookup_insert_eq.
  rewrite delete_insert_eq. lia.
Qed.

(** Inserting or replacing, with a missing entry counting as [0]. *)
Lemma map_sum_insert_default (f : K -> V -> Z) (k : K) (v : V) (m : gmap K V) :
  map_sum f (<[k := v]> m) = map_sum f m - default 0 (f k <$> m !! k) + f k v.
Proof.
  destruct (m !! k) as [v0|] eqn:Hk; simpl.
  - by apply map_sum_insert.
  - rewrite map_sum_insert_new by done. lia.
Qed.

Lemma map_sum_ext (f g : K -> V -> Z) (m : gmap K V) :
  (forall k v, m !! k = Some v -> f k v = g k v) -> map_sum f m = map_sum g m.
Proof.
  induction m as [|k v m Hk IH] using map_ind; intros Hfg; [done|].
  rewrite !map_sum_insert_new by done. rewrite (Hfg k v) by apply lookup_insert_eq.
  f_equal. apply IH. intros j w Hj. apply Hfg. rewrite lookup_insert_ne; [done | congruence].
Qed.

Lemma map_sum_zero (f : K -> V -> Z) (m : gmap K V) :
  (forall k v, m !! k = Some v -> f k v = 0) -> map_sum f m = 0.
Proof.
  intros Hf. rewrite (map_sum_ext f (fun _ _ => 0) m Hf).
  clear. induction m as [|k v m Hk IH] using map_ind; [done|].
  by rewrite map_sum_insert_new, IH.
Qed.

Lemma map_sum_nonneg (f : K -> V -> Z) (m : gmap K V) :
  (forall k v, m !! k = Some v -> 0 <= f k v) -> 0 <= map_sum f m.
Proof.
  induction m as [|k v m Hk IH] using map_ind; intros Hf; [done|].
  rewrite map_sum_insert_new by done.
  assert (0 <= f k v) by (apply Hf, lookup_insert_eq).
  assert (0 <= map_sum f m); [|lia]. apply IH. intros j w Hj. apply Hf.
  rewrite lookup_insert_ne; [done | congruence].
Qed.
End map_sum.

(** Two maps with equal summands, a missing entry counting as [0]. *)
Lemma map_sum_default {K V W : Type} `{Countable K} (f : K -> V -> Z) (g : K -> W -> Z)
    (m : gmap K V) (m' : gmap K W) :
  (forall k, default 0 (f k <$> m !! k) = default 0 (g k <$> m' !! k)) ->
  map_sum f m = map_sum g m'.
Proof.
  revert m'. induction m as [|k v m Hk IH] using map_ind; intros m' Hrel.
  - rewrite map_sum_empty, map_sum_zero; [done|]. intros k w Hw.
    specialize (Hrel k). by rewrite lookup_empty, Hw in Hrel.
  - rewrite map_sum_insert_new by done. pose proof (Hrel k) as Hhere.
    rewrite lookup_insert_eq in Hhere. simpl in Hhere.
    assert (map_sum f m = map_sum g (delete k m')) as ->.
    { apply IH. intros j. specialize (Hrel j).
      destruct (decide (k = j)) as [<-|Hne]; [by rewrite Hk, lookup_delete_eq|].
      by rewrite lookup_insert_ne, lookup_delete_ne in * by done. }
    destruct (m' !! k) as [w|] eqn:Ew; simpl in Hhere.
    + by rewrite (map_sum_delete g k w m'), Hhere.
    + rewrite Hhere, delete_id; done.
Qed.

(** Two maps over the same keys with equal summands. *)
Lemma map_sum_rel {K V W : Type} `{Countable K} (f : K -> V -> Z) (g : K -> W -> Z)
    (m : gmap K V) (m' : gmap K W) :
  (forall k, match m !! k, m' !! k with
             | Some v, Some w => f k v = g k w
             | None, None => True
             | _, _ => False
             end) ->
  map_sum f m = map_sum g m'.
Proof.
  intros Hrel. apply map_sum_default. intros k. specialize (Hrel k).
  by destruct (m !! k), (m' !! k).
Qed.

Lemma map_sum_single {K V : Type} `{Countable K} (k : K) (v : V) (x : Z) (m : gmap K V) :
  m !! k = Some v -> map_sum (fun j _ => if eqb k j then x else 0) m = x.
Proof.
  intros Hk. rewrite (map_sum_delete _ k v) by done.
  rewrite (proj2 (eqb_spec k k) eq_refl), map_sum_zero; [lia|].
  intros j w [Hne _]%lookup_delete_Some. by rewrite (proj2 (eqb_false k j)).
Qed.

Lemma map_sum_sub {K V : Type} `{Countable K} (f g : K -> V -> Z) (m : gmap K V) :
  map_sum (fun k v => f k v - g k v) m = map_sum f m - map_sum g m.
Proof.
  induction m as [|k v m Hk IH] using map_ind; [done|].
  rewrite !map_sum_insert_new by done. lia.
Qed.

(** ** Following the cursors of a paged listing *)

Section paging.
Context {A : Type} (page : option string -> list A * option string).

(** All pages from [cursor] on, at most [fuel] of them; [None] when the
    listing has not ended by then. *)
Fixpoint collect_pages (fuel : nat) (cursor : option string) : option (list A) :=
  match fuel with
  | O => None
  | S fuel =>
      let (items, next) := page cursor in
      match next with
      | None => Some items
      | Some next => app items <$> collect_pages fuel (Some next)
      end
  end.

Variable all : list A.
(** [starts c i]: the page at cursor [c] begins with the [i]-th item. *)
Variable starts : option string -> nat -> Prop.
Hypothesis page_step : forall cursor i, starts cursor i -> (i <= length all)%nat ->
  exists j, (i <= j <= length all)%nat
    /\ fst (page cursor) = take (j - i) (drop i all)
    /\ match snd (page cursor) with
       | None => j = length all
       | Some next => (i < j)%nat /\ starts (Some next) j
       end.

Lemma collect_pages_all (fuel : nat) (cursor : option string) (i : nat) :
  starts cursor i -> (i <= length all)%nat -> (length all - i < fuel)%nat ->
  collect_pages fuel cursor = Some (drop i all).
Proof.
  revert cursor i. induction fuel as [|fuel IH]; intros cursor i Hs Hi Hf; [lia|]. simpl.
  destruct (page_step cursor i Hs Hi) as (j & Hj & Hitems & Hnext).
  destruct (page cursor) as [items [next|]]; simpl in *.
  - destruct Hnext as [Hij Hs']. rewrite (IH (Some next) j) by (done || lia). simpl. f_equal.
    rewrite Hitems. rewrite <- (take_drop (j - i) (drop i all)) at 2. f_equal.
    rewrite drop_drop. f_equal. lia.
  - subst. f_equal. rewrite take_ge; [done|]. rewrite length_drop. lia.
Qed.
End paging.

(** ** Positions in a sorted list *)

Lemma sorted_lookup {A : Type} (R : relation A) (l : list A) (i j : nat) (x y : A) :
  StronglySorted R l -> l !! i = Some x -> l !! j = Some y -> (i < j)%nat -> R x y.
Proof.
  intros Hs. revert i j. induction Hs as [|a l _ IH Hall]; intros i j Hi Hj Hij; [done|].
  destruct j as [|j]; [lia|]. destruct i as [|i]; simpl in *.
  - simplify_eq. by eapply (Forall_lookup_1 _ l).
  - eapply IH; eauto with lia.
Qed.
