(* ===== verification/Bytes.v ===== *)
(** * Little-endian integers and slices of bytes, shared by the wire formats *)

From S2P Require Import Prelude Text.

(** The byte of a value below 256. *)
Definition byte_of (z : Z) : ascii := ascii_of_N (Z.to_N z).

(** [str::to_ascii_lowercase] *)
Definition ascii_lower (a : ascii) : ascii := if is_ascii_upper a then byte_of (byte_at a + 32) else a.
Definition to_ascii_lowercase (s : string) : string := map_bytes ascii_lower s.

Lemma byte_of_byte_at a : byte_of (byte_at a) = a.
Proof. unfold byte_of, byte_at. rewrite N2Z.id. apply ascii_N_embedding. Qed.

Lemma byte_at_byte_of z : 0 <= z < 256 -> byte_at (byte_of z) = z.
Proof. apply byte_at_ascii. Qed.

(** [to_le_bytes] of the [n]-byte integer that represents [z] modulo [2 ^ (8 n)]. *)
Fixpoint le_bytes (n : nat) (z : Z) : list ascii :=
  match n with
  | O => []
  | S n => byte_of (z mod 256) :: le_bytes n (z / 256)
  end.

(** [from_le_bytes] of the unsigned types *)
Fixpoint of_le_bytes (l : list ascii) : Z :=
  match l with
  | [] => 0
  | a :: l => byte_at a + 256 * of_le_bytes l
  end.

(** [from_be_bytes] of the unsigned types *)
Definition be_value (l : list ascii) : Z := foldl (fun acc a => acc * 256 + byte_at a) 0 l.

(** The signed integer of [bits] bits with the same representation. *)
Definition to_signed (bits : Z) (z : Z) : Z := if z <? 2 ^ (bits - 1) then z else z - 2 ^ bits.

Lemma le_bytes_length n z : length (le_bytes n z) = n.
Proof. revert z. induction n as [|n IH]; intros z; simpl; [done|]. by rewrite IH. Qed.

Lemma of_le_bytes_mod n z : of_le_bytes (le_bytes n z) = z mod 256 ^ Z.of_nat n.
Proof.
  revert z. induction n as [|n IH]; intros z.
  { by rewrite Z.mod_1_r. }
  cbn [le_bytes of_le_bytes]. rewrite IH. pose proof (Z.mod_pos_bound z 256).
  rewrite byte_at_byte_of by lia. rewrite Nat2Z.inj_succ, Z.pow_succ_r by lia.
  rewrite Z.rem_mul_r by lia. done.
Qed.

Lemma of_le_bytes_range l : 0 <= of_le_bytes l < 256 ^ Z.of_nat (length l).
Proof.
  induction l as [|a l IH]; [done|]. cbn [of_le_bytes length].
  rewrite Nat2Z.inj_succ, Z.pow_succ_r by lia. pose proof (byte_at_range a). lia.
Qed.

Lemma le_bytes_of l : le_bytes (length l) (of_le_bytes l) = l.
Proof.
  induction l as [|a l IH]; [done|]. cbn [of_le_bytes length le_bytes].
  pose proof (byte_at_range a). rewrite (Z.mul_comm 256), Z_mod_plus_full, Z.mod_small by lia.
  rewrite Z.div_add, Z.div_small, Z.add_0_l by lia. by rewrite IH, byte_of_byte_at.
Qed.

Lemma of_le_bytes_unsigned n z : 0 <= z < 256 ^ Z.of_nat n -> of_le_bytes (le_bytes n z) = z.
Proof. intros Hz. rewrite of_le_bytes_mod. by apply Z.mod_small. Qed.

(** A signed integer is what its representation reads back as. *)
Lemma to_signed_le_bytes n z :
  (0 < n)%nat -> - 2 ^ (8 * Z.of_nat n - 1) <= z < 2 ^ (8 * Z.of_nat n - 1) ->
  to_signed (8 * Z.of_nat n) (of_le_bytes (le_bytes n z)) = z.
Proof.
  intros Hn Hz. rewrite of_le_bytes_mod. unfold to_signed.
  assert (256 ^ Z.of_nat n = 2 ^ (8 * Z.of_nat n)) as -> by (rewrite Z.pow_mul_r by lia; done).
  assert (2 ^ (8 * Z.of_nat n) = 2 * 2 ^ (8 * Z.of_nat n - 1)) as Hpow.
  { rewrite <- Z.pow_succ_r by lia. f_equal. lia. }
  destruct (Z.ltb_spec z 0).
  - rewrite <- (Z_mod_plus_full z 1), Z.mod_small by lia.
    destruct (Z.ltb_spec (z + 1 * 2 ^ (8 * Z.of_nat n)) (2 ^ (8 * Z.of_nat n - 1))); lia.
  - rewrite Z.mod_small by lia. by rewrite (proj2 (Z.ltb_lt _ _)) by lia.
Qed.

(** ** Slices *)

(** [input.get(from..to)] *)
Definition slice (input : list ascii) (from to : Z) : option (list ascii) :=
  if (from <=? to) && (to <=? Z.of_nat (length input))
  then Some (take (Z.to_nat (to - from)) (drop (Z.to_nat from) input)) else None.

Lemma slice_app (pre l rest : list ascii) (from to : Z) :
  from = Z.of_nat (length pre) -> to = from + Z.of_nat (length l) ->
  slice (pre ++ l ++ rest) from to = Some l.
Proof.
  intros -> ->. unfold slice. rewrite !length_app.
  rewrite (proj2 (Z.leb_le _ _)), (proj2 (Z.leb_le _ _)) by lia. simpl.
  rewrite Nat2Z.id, drop_app_length, take_app_le by lia. f_equal. rewrite take_ge; [done|lia].
Qed.

Lemma slice_short (input : list ascii) (from to : Z) : Z.of_nat (length input) < to -> slice input from to = None.
Proof. intros H. unfold slice. rewrite (proj2 (Z.leb_gt _ _) H). by rewrite andb_false_r. Qed.

Lemma slice_some (input l : list ascii) (from to : Z) :
  slice input from to = Some l -> 0 <= from ->
  from <= to <= Z.of_nat (length input) /\ Z.of_nat (length l) = to - from
  /\ exists pre rest, input = (pre ++ l ++ rest)%list /\ Z.of_nat (length pre) = from.
Proof.
  unfold slice. destruct (Z.leb_spec from to), (Z.leb_spec to (Z.of_nat (length input))); simpl; try done.
  intros [= <-] Hfrom. split; [done|]. split; [rewrite length_take, length_drop; lia|].
  exists (take (Z.to_nat from) input), (drop (Z.to_nat (to - from)) (drop (Z.to_nat from) input)).
  by rewrite !take_drop, length_take; lia || (split; [|lia]).
Qed.

Lemma slice_app_l (l rest : list ascii) (from to : Z) :
  0 <= from -> to <= Z.of_nat (length l) -> slice (l ++ rest) from to = slice l from to.
Proof.
  intros Hf Ht. unfold slice. rewrite length_app.
  destruct (Z.leb_spec from to); [|done]. rewrite !(proj2 (Z.leb_le to _)) by lia. simpl. f_equal.
  rewrite drop_app_le, take_app_le; [done| |]; rewrite ?length_drop; lia.
Qed.

Lemma slice_take (l : list ascii) (k : nat) (from to : Z) :
  0 <= from -> to <= Z.of_nat k -> (k <= length l)%nat -> slice (take k l) from to = slice l from to.
Proof.
  intros Hf Ht Hk. rewrite <- (take_drop k l) at 2. symmetry. apply slice_app_l; [done|].
  rewrite length_take. lia.
Qed.

Lemma slice_all (l : list ascii) : slice l 0 (Z.of_nat (length l)) = Some l.
Proof. pose proof (slice_app [] l [] 0 (Z.of_nat (length l)) eq_refl eq_refl) as H. by rewrite app_nil_r in H. Qed.

(** ** Bits *)

Lemma land_ff_bit z i : 0 <= i -> Z.testbit (Z.land z 0xff) i = Z.testbit z i && (i <? 8).
Proof. intros Hi. change 0xff with (Z.ones 8). rewrite Z.land_spec, Z.testbit_ones_nonneg by lia. done. Qed.

(** The three length bytes, put together again. *)
Lemma length_bytes z : 0 <= z <= 0x00ffffff ->
  Z.lor (Z.lor (Z.land z 0xff) (Z.shiftl (Z.land (Z.shiftr z 8) 0xff) 8))
    (Z.shiftl (Z.land (Z.shiftr z 16) 0xff) 16) = z.
Proof.
  intros Hz. apply Z.bits_inj'. intros i Hi. rewrite !Z.lor_spec, !Z.shiftl_spec by lia.
  destruct (Z.ltb_spec i 8) as [H8|H8]; [|destruct (Z.ltb_spec i 16) as [H16|H16]].
  - rewrite (Z.testbit_neg_r _ (i - 8)), (Z.testbit_neg_r _ (i - 16)), land_ff_bit by lia.
    rewrite (proj2 (Z.ltb_lt i 8)) by lia. by rewrite andb_true_r, !orb_false_r.
  - rewrite (Z.testbit_neg_r _ (i - 16)), !land_ff_bit, Z.shiftr_spec by lia.
    rewrite (proj2 (Z.ltb_ge i 8)), (proj2 (Z.ltb_lt (i - 8) 8)) by lia.
    replace (i - 8 + 8) with i by lia. by rewrite andb_false_r, andb_true_r, orb_false_r.
  - rewrite !land_ff_bit, !Z.shiftr_spec by lia.
    rewrite (proj2 (Z.ltb_ge i 8)), (proj2 (Z.ltb_ge (i - 8) 8)) by lia.
    replace (i - 16 + 16) with i by lia. rewrite !andb_false_r. simpl.
    destruct (Z.ltb_spec (i - 16) 8) as [H24|H24]; [by rewrite andb_true_r|]. rewrite andb_false_r. symmetry.
    destruct (Z.eq_dec z 0) as [->|Hne]; [apply Z.testbit_0_l|].
    apply Z.bits_above_log2; [lia|]. apply Z.log2_lt_pow2; [lia|].
    apply Z.lt_le_trans with (2 ^ 24); [lia|]. apply Z.pow_le_mono_r; lia.
Qed.

Lemma land_ff z : 0 <= Z.land z 0xff < 256.
Proof. change 0xff with (Z.ones 8). rewrite Z.land_ones by lia. by apply Z.mod_pos_bound. Qed.


Lemma land_pow2_small z n : 0 <= n -> 0 <= z < 2 ^ n -> Z.land z (2 ^ n) = 0.
Proof.
  intros Hn Hz. apply Z.bits_inj'. intros i Hi. rewrite Z.land_spec, Z.testbit_0_l, Z.pow2_bits_eqb by done.
  destruct (Z.eqb_spec n i) as [<-|]; [|apply andb_false_r]. rewrite andb_true_r.
  destruct (Z.eq_dec z 0) as [->|]; [apply Z.testbit_0_l|]. apply Z.bits_above_log2; [lia|].
  apply Z.log2_lt_pow2; lia.
Qed.

(** ** Hexadecimal *)

(** The value of a hexadecimal digit of either case. *)
Definition hex_value (a : ascii) : option Z :=
  let x := byte_at a in
  if (48 <=? x) && (x <=? 57) then Some (x - 48)
  else if (97 <=? x) && (x <=? 102) then Some (x - 87)
  else if (65 <=? x) && (x <=? 70) then Some (x - 55)
  else None.

Definition hex_digit (z : Z) : ascii := byte_of (if z <? 10 then z + 48 else z + 87).

Definition encode_hex (l : list ascii) : string :=
  string_of (flat_map (fun a => [hex_digit (byte_at a / 16); hex_digit (byte_at a mod 16)]) l).

(** ** Byte strings from data, for the concrete instances *)

Fixpoint bits_of_positive (p : positive) : list ascii :=
  match p with
  | xH => []
  | xO p => "0"%char :: bits_of_positive p
  | xI p => "1"%char :: bits_of_positive p
  end.
Fixpoint positive_of_bits (b : list ascii) : positive :=
  match b with
  | [] => xH
  | a :: b => if decide (a = "1"%char) then xI (positive_of_bits b) else xO (positive_of_bits b)
  end.
Lemma positive_bits_roundtrip (p : positive) : positive_of_bits (bits_of_positive p) = p.
Proof. induction p; simpl; by f_equal. Qed.

Definition pad32 (b : list ascii) : list ascii := take 32 (b ++ replicate 32 "0"%char)%list.
Lemma pad32_length (b : list ascii) : length (pad32 b) = 32%nat.
Proof. unfold pad32. rewrite length_take, length_app, length_replicate. lia. Qed.

(** ** Splitting *)

(** [str::split_once] of a byte: what is before it and after it. *)
Fixpoint split_once_at (c : ascii) (l : list ascii) : option (list ascii * list ascii) :=
  match l with
  | [] => None
  | a :: l =>
      if eqb a c then Some ([], l)
      else match split_once_at c l with Some (before, after) => Some (a :: before, after) | None => None end
  end.

Definition trim_bytes (l : list ascii) : list ascii := trim_end_bytes (trim_start_bytes l).

(** White space at the front. *)
Definition white_first (l : list ascii) : bool := negb (length (trim_start_bytes l) =? length l)%nat.

Fixpoint word (l : list ascii) : list ascii :=
  match l with
  | [] => []
  | a :: rest => if white_first l then [] else a :: word rest
  end.

(** [split_whitespace().next()] *)
Definition first_word (l : list ascii) : option (list ascii) :=
  match word (trim_start_bytes l) with [] => None | w => Some w end.

(** [split_whitespace().nth(n)] *)
Fixpoint nth_word (n : nat) (l : list ascii) : option (list ascii) :=
  match n with
  | O => first_word l
  | S n => let l := trim_start_bytes l in nth_word n (drop (length (word l)) l)
  end.
