(* ===== verification/Conversation.v ===== *)
(** * Actors, retention and conversations ([actor.rs], [retention.rs], [conversation.rs]) *)

From S2P Require Import Prelude Text Maps.

(** ** Actors ([actor.rs]): identities, presence and conversation participants *)

Record ActorId := MkActorId { actor_id_0 : string }.
#[export] Instance ActorId_eq_dec : EqDecision ActorId.
Proof. solve_decision. Defined.
#[export] Program Instance ActorId_countable : Countable ActorId :=
  inj_countable' actor_id_0 MkActorId _.
Next Obligation. by intros []. Qed.
#[export] Instance ActorId_key : BTreeKey ActorId := actor_id_0.
#[export] Instance ActorId_key_inj : BTreeKeyInj ActorId.
Proof. intros [a] [b]. unfold key_string, ActorId_key. simpl. congruence. Qed.

Definition actor_id_is_valid (id : ActorId) : bool :=
  let value := trim (actor_id_0 id) in negb (is_empty value) && (len value <=? 160).

Inductive ActorKind := Human | Assistant | Bot | Service.
#[export] Instance ActorKind_eq_dec : EqDecision ActorKind.
Proof. solve_decision. Defined.

Inductive PresenceStatus := Offline | Online | Away | DoNotDisturb.

Record Presence := {
  presence_status : PresenceStatus;
  presence_last_seen_at_ms : option Z;
  presence_status_text : option string;
}.

Definition default_presence : Presence :=
  {| presence_status := Offline; presence_last_seen_at_ms := None; presence_status_text := None |}.

Record Actor := {
  actor_id : ActorId;
  actor_kind : ActorKind;
  actor_display_name : string;
  actor_username : option string;
  actor_avatar_url : option string;
  actor_bio : option string;
  actor_capabilities : list string;
  actor_presence : Presence;
  actor_verified : bool;
}.
#[export] Instance eta_Actor : Eta Actor := fun a =>
  Build_Actor (actor_id a) (actor_kind a) (actor_display_name a) (actor_username a)
    (actor_avatar_url a) (actor_bio a) (actor_capabilities a) (actor_presence a) (actor_verified a).

Definition actor_new (id : string) (kind : ActorKind) (name : string) : Actor := {|
  actor_id := MkActorId id;
  actor_kind := kind;
  actor_display_name := name;
  actor_username := None;
  actor_avatar_url := None;
  actor_bio := None;
  actor_capabilities := [];
  actor_presence := default_presence;
  actor_verified := false;
|}.

Definition actor_human (id name : string) : Actor := actor_new id Human name.
Definition actor_bot (id name : string) : Actor := actor_new id Bot name.
Definition actor_assistant (id name : string) : Actor := actor_new id Assistant name.

Inductive ParticipantRole := RoleOwner | RoleAdmin | RoleMember | RoleRestricted.
#[export] Instance ParticipantRole_eq_dec : EqDecision ParticipantRole.
Proof. solve_decision. Defined.

Record Participant := {
  participant_actor_id : ActorId;
  participant_role : ParticipantRole;
  participant_joined_at_ms : Z;
  participant_muted_until_ms : option Z;
}.
#[export] Instance Participant_eq_dec : EqDecision Participant.
Proof. solve_decision. Defined.

(** ** Conversations ([conversation.rs]) *)

Record ConversationId := MkConversationId { conversation_id_0 : string }.
#[export] Instance ConversationId_eq_dec : EqDecision ConversationId.
Proof. solve_decision. Defined.
#[export] Program Instance ConversationId_countable : Countable ConversationId :=
  inj_countable' conversation_id_0 MkConversationId _.
Next Obligation. by intros []. Qed.
#[export] Instance ConversationId_key : BTreeKey ConversationId := conversation_id_0.
#[export] Instance ConversationId_key_inj : BTreeKeyInj ConversationId.
Proof. intros [a] [b]. unfold key_string, ConversationId_key. simpl. congruence. Qed.

Definition conversation_id_is_valid (id : ConversationId) : bool :=
  let value := trim (conversation_id_0 id) in negb (is_empty value) && (len value <=? 200).

Inductive ConversationKind := Direct | Group | Channel | SavedMessages | Secret.
#[export] Instance ConversationKind_eq_dec : EqDecision ConversationKind.
Proof. solve_decision. Defined.

Inductive HistoryVisibility := NewMembersOnly | AllMembers.

Record NotificationSettings := {
  settings_muted_until_ms : option Z;
  settings_sound : option string;
  settings_show_preview : bool;
  settings_notify_mentions : bool;
}.

Definition default_notification_settings : NotificationSettings := {|
  settings_muted_until_ms := None;
  settings_sound := None;
  settings_show_preview := true;
  settings_notify_mentions := true;
|}.

Record ConversationPermissions := {
  can_send_messages : bool;
  can_send_media : bool;
  can_send_polls : bool;
  can_add_members : bool;
  can_pin_messages : bool;
  can_manage_topics : bool;
  can_manage_calls : bool;
}.

Definition default_conversation_permissions : ConversationPermissions := {|
  can_send_messages := true;
  can_send_media := true;
  can_send_polls := true;
  can_add_members := true;
  can_pin_messages := true;
  can_manage_topics := true;
  can_manage_calls := true;
|}.

Record Topic := {
  topic_id : string;
  topic_title : string;
  topic_icon : option string;
  topic_created_by : ActorId;
  topic_closed : bool;
  topic_hidden : bool;
  topic_unread_count : Z;
}.
#[export] Instance Topic_eq_dec : EqDecision Topic.
Proof. solve_decision. Defined.

Record Conversation := {
  conv_id : ConversationId;
  conv_kind : ConversationKind;
  conv_title : string;
  conv_description : option string;
  conv_avatar_url : option string;
  conv_participants : list Participant;
  conv_owner_id : option ActorId;
  conv_last_message_id : option string;
  conv_last_read_message_id : option string;
  conv_unread_count : Z;
  conv_mention_count : Z;
  conv_pinned_message_ids : list string;
  conv_notification_settings : NotificationSettings;
  conv_message_retention_seconds : option Z;
  conv_retention_revision : Z;
  conv_permissions : ConversationPermissions;
  conv_history_visibility : HistoryVisibility;
  conv_topics : list Topic;
  conv_folder_ids : list string;
  conv_archived : bool;
  conv_pinned : bool;
  conv_marked_unread : bool;
  conv_created_at_ms : Z;
  conv_updated_at_ms : Z;
}.
#[export] Instance eta_Conversation : Eta Conversation := fun c =>
  Build_Conversation (conv_id c) (conv_kind c) (conv_title c) (conv_description c)
    (conv_avatar_url c) (conv_participants c) (conv_owner_id c) (conv_last_message_id c)
    (conv_last_read_message_id c) (conv_unread_count c) (conv_mention_count c)
    (conv_pinned_message_ids c) (conv_notification_settings c) (conv_message_retention_seconds c)
    (conv_retention_revision c) (conv_permissions c) (conv_history_visibility c) (conv_topics c)
    (conv_folder_ids c) (conv_archived c) (conv_pinned c) (conv_marked_unread c)
    (conv_created_at_ms c) (conv_updated_at_ms c).

Definition conversation_direct (id title : string) (participants : list Participant) (now_ms : Z) :
    Conversation := {|
  conv_id := MkConversationId id;
  conv_kind := Direct;
  conv_title := title;
  conv_description := None;
  conv_avatar_url := None;
  conv_participants := participants;
  conv_owner_id := None;
  conv_last_message_id := None;
  conv_last_read_message_id := None;
  conv_unread_count := 0;
  conv_mention_count := 0;
  conv_pinned_message_ids := [];
  conv_notification_settings := default_notification_settings;
  conv_message_retention_seconds := None;
  conv_retention_revision := 0;
  conv_permissions := default_conversation_permissions;
  conv_history_visibility := AllMembers;
  conv_topics := [];
  conv_folder_ids := [];
  conv_archived := false;
  conv_pinned := false;
  conv_marked_unread := false;
  conv_created_at_ms := now_ms;
  conv_updated_at_ms := now_ms;
|}.

Record ConversationDraft := {
  draft_conversation_id : ConversationId;
  draft_actor_id : ActorId;
  draft_text : string;
  draft_reply_to_message_id : option string;
  draft_updated_at_ms : Z;
}.

Record TopicDraft := {
  tdraft_conversation_id : ConversationId;
  tdraft_topic_id : string;
  tdraft_actor_id : ActorId;
  tdraft_text : string;
  tdraft_reply_to_message_id : option string;
  tdraft_updated_at_ms : Z;
}.

Record ConversationFolder := {
  folder_id : string;
  folder_title : string;
  folder_icon : option string;
  folder_conversation_ids : list ConversationId;
  folder_include_contacts : bool;
  folder_include_bots : bool;
  folder_include_groups : bool;
  folder_include_channels : bool;
  folder_exclude_muted : bool;
  folder_exclude_read : bool;
  folder_exclude_archived : bool;
}.

(** ** Message retention ([retention.rs]): policy, expiry and revision fencing *)

Inductive MessageRetentionError :=
| ZeroSeconds
| ExpiryOverflow
| StaleRevision (expected actual : Z)
| RevisionOverflow.
#[export] Instance MessageRetentionError_eq_dec : EqDecision MessageRetentionError.
Proof. solve_decision. Defined.

Record MessageRetentionPolicy := { policy_seconds : Z }.
#[export] Instance MessageRetentionPolicy_eq_dec : EqDecision MessageRetentionPolicy.
Proof. solve_decision. Defined.

(** [MessageRetentionPolicy::new] *)
Definition retention_policy_new (seconds : Z) : result MessageRetentionError MessageRetentionPolicy :=
  if seconds =? 0 then Err ZeroSeconds else Ok {| policy_seconds := seconds |}.

(** [MessageRetentionPolicy::expires_at_ms] *)
Definition policy_expires_at_ms (p : MessageRetentionPolicy) (server_time_ms : Z) :
    result MessageRetentionError Z :=
  ttl_ms ← ok_or (checked_mul_i64 (policy_seconds p) 1000) ExpiryOverflow;
  ok_or (checked_add_i64 server_time_ms ttl_ms) ExpiryOverflow.

Definition next_retention_revision (actual_revision expected_revision : Z) :
    result MessageRetentionError Z :=
  if negb (actual_revision =? expected_revision)
  then Err (StaleRevision expected_revision actual_revision)
  else ok_or (checked_add_u64 actual_revision 1) RevisionOverflow.

Record ConversationMessageRetention := {
  retention_policy : option MessageRetentionPolicy;
  retention_revision : Z;
}.
#[export] Instance ConversationMessageRetention_eq_dec : EqDecision ConversationMessageRetention.
Proof. solve_decision. Defined.

(** [ConversationMessageRetention::change] *)
Definition retention_change (self : ConversationMessageRetention) (seconds : option Z)
    (expected_revision : Z) : result MessageRetentionError ConversationMessageRetention :=
  policy ← transpose (retention_policy_new <$> seconds);
  revision ← next_retention_revision (retention_revision self) expected_revision;
  Ok {| retention_policy := policy; retention_revision := revision |}.

Lemma policy_expires_at_ok (p : MessageRetentionPolicy) (now e : Z) :
  policy_expires_at_ms p now = Ok e ->
  e = now + policy_seconds p * 1000 /\ i64_min <= e <= i64_max.
Proof.
  unfold policy_expires_at_ms, checked_mul_i64, checked_add_i64. intros H. oks.
  apply checked_spec in Hok as [-> _]. apply checked_spec in H as [-> H].
  by apply in_i64_spec in H.
Qed.

Lemma retention_policy_ok (s : Z) (p : MessageRetentionPolicy) :
  retention_policy_new s = Ok p <-> s <> 0 /\ p = {| policy_seconds := s |}.
Proof. unfold retention_policy_new. destruct (Z.eqb_spec s 0); naive_solver. Qed.

Lemma retention_change_ok r seconds expected r' :
  retention_change r seconds expected = Ok r' ->
  retention_revision r = expected /\ retention_revision r' = expected + 1
  /\ (retention_policy r' = None /\ seconds = None
      \/ exists s, seconds = Some s /\ s <> 0 /\ retention_policy r' = Some {| policy_seconds := s |}).
Proof.
  unfold retention_change, next_retention_revision. intros H. oks. subst r'. simpl.
  destruct (Z.eqb_spec (retention_revision r) expected) as [->|]; [|done]. simpl in Hok0. oks.
  apply checked_spec in Hok0 as [-> _]. split_and!; [done..|].
  destruct seconds as [s|]; simpl in Hok; [|by left; oks].
  right. exists s. destruct (retention_policy_new s) as [p|] eqn:E; [|done].
  apply retention_policy_ok in E as [? ->]. by oks.
Qed.
