(* ===== verification/SecretChat.v ===== *)
(** * End-to-end encrypted secret chats ([secret_chat.rs])

    The anti-replay window, the session (establish, rotate, encrypt,
    decrypt) and its encrypted backup.  X25519, HKDF, XChaCha20-Poly1305,
    base64, JSON and the random source are other people's code: they are the
    fields of [SecretCrypto], with what the code relies on in
    [SecretCryptoLaws]. *)

From S2P Require Import Prelude Text Maps Bytes Conversation.

Definition SECRET_CHAT_VERSION : Z := 1.
Definition SECRET_CHAT_ALGORITHM : string := "X25519+HKDF-SHA256+XChaCha20Poly1305".
Definition REPLAY_WINDOW_BITS : Z := 128.

(** ** Errors *)

Inductive SecretChatError :=
| InvalidIdentity
| EmptyPlaintext
| RandomFailed (reason : string)
| InvalidPeerKey
| InvalidKey
| InvalidRecoveryKey
| KdfFailed
| EncryptionFailed
| AuthenticationFailed
| IdentityMismatch
| InvalidCounter
| CounterOverflow
| ReplayDetected
| StaleMessage
| EpochMismatch (expected actual : Z)
| NonMonotonicEpoch (current requested : Z)
| UnsupportedVersion (version : Z)
| UnsupportedAlgorithm (algorithm : string)
| InvalidEncoding (label : string)
| Serialization (reason : string).
#[export] Instance SecretChatError_eq_dec : EqDecision SecretChatError.
Proof. solve_decision. Defined.

(** ** The anti-replay window

    [highest] is the highest counter received; bit [d] of [bitmap] says that
    [highest - d] was received. *)

Record ReplayWindow := { rw_highest : Z; rw_bitmap : Z }.
#[export] Instance ReplayWindow_eq_dec : EqDecision ReplayWindow.
Proof. solve_decision. Defined.

Definition default_window : ReplayWindow := {| rw_highest := 0; rw_bitmap := 0 |}.

Definition mask128 : Z := 2 ^ 128 - 1.

Definition window_check (w : ReplayWindow) (counter : Z) : result SecretChatError unit :=
  if counter =? 0 then Err InvalidCounter
  else if (rw_highest w =? 0) || (rw_highest w <? counter) then Ok tt
  else
    let distance := rw_highest w - counter in
    if REPLAY_WINDOW_BITS <=? distance then Err StaleMessage
    else if negb (Z.land (rw_bitmap w) (Z.shiftl 1 distance) =? 0) then Err ReplayDetected
    else Ok tt.

Definition window_mark (w : ReplayWindow) (counter : Z) : ReplayWindow :=
  if rw_highest w =? 0 then {| rw_highest := counter; rw_bitmap := 1 |}
  else if rw_highest w <? counter then
    let shift := counter - rw_highest w in
    {| rw_highest := counter;
       rw_bitmap := if REPLAY_WINDOW_BITS <=? shift then 1
                    else Z.lor (Z.land (Z.shiftl (rw_bitmap w) shift) mask128) 1 |}
  else
    let distance := rw_highest w - counter in
    if distance <? REPLAY_WINDOW_BITS then
      {| rw_highest := rw_highest w; rw_bitmap := Z.lor (rw_bitmap w) (Z.shiftl 1 distance) |}
    else w.

(** A receiver: the counters of a stream of authenticated messages that the
    window lets through, in order. *)
Fixpoint window_accepts (w : ReplayWindow) (counters : list Z) : list Z :=
  match counters with
  | [] => []
  | c :: rest =>
      match window_check w c with
      | Ok _ => c :: window_accepts (window_mark w c) rest
      | Err _ => window_accepts w rest
      end
  end.

(** *** Specification: a receiver that remembers every counter it accepted. *)

Definition max_counter (seen : list Z) : Z := foldr Z.max 0 seen.

Definition spec_check (seen : list Z) (counter : Z) : result SecretChatError unit :=
  if counter =? 0 then Err InvalidCounter
  else if max_counter seen <? counter then Ok tt
  else if REPLAY_WINDOW_BITS <=? max_counter seen - counter then Err StaleMessage
  else if bool_decide (counter ∈ seen) then Err ReplayDetected
  else Ok tt.

Fixpoint spec_accepts (seen : list Z) (counters : list Z) : list Z :=
  match counters with
  | [] => []
  | c :: rest =>
      match spec_check seen c with
      | Ok _ => c :: spec_accepts (c :: seen) rest
      | Err _ => spec_accepts seen rest
      end
  end.

(** The window represents the remembered counters. *)
Record window_rel (w : ReplayWindow) (seen : list Z) : Prop := {
  wr_positive : Forall (fun c => 0 < c) seen;
  wr_highest : rw_highest w = max_counter seen;
  wr_bitmap_range : 0 <= rw_bitmap w < 2 ^ 128;
  wr_bitmap : forall d, 0 <= d < REPLAY_WINDOW_BITS ->
    Z.testbit (rw_bitmap w) d = bool_decide (rw_highest w - d ∈ seen /\ 0 < rw_highest w - d);
}.

Lemma max_counter_cons (c : Z) (seen : list Z) : max_counter (c :: seen) = Z.max c (max_counter seen).
Proof. done. Qed.

Lemma max_counter_ge (seen : list Z) (c : Z) : c ∈ seen -> c <= max_counter seen.
Proof.
  induction seen as [|x seen IH]; intros Hc; [by apply not_elem_of_nil in Hc|].
  rewrite max_counter_cons. apply elem_of_cons in Hc as [->|Hc]; [lia|].
  specialize (IH Hc). lia.
Qed.

Lemma max_counter_nonneg (seen : list Z) : 0 <= max_counter seen.
Proof. induction seen as [|x seen IH]; [done|]. rewrite max_counter_cons. lia. Qed.

Lemma max_counter_zero (seen : list Z) :
  Forall (fun c => 0 < c) seen -> max_counter seen = 0 -> seen = [].
Proof.
  destruct seen as [|x seen]; [done|]. intros Hx%Forall_inv H.
  rewrite max_counter_cons in H. pose proof (max_counter_nonneg seen). lia.
Qed.

Lemma max_counter_in (seen : list Z) : 0 < max_counter seen -> max_counter seen ∈ seen.
Proof.
  induction seen as [|x seen IH]; [done|]. rewrite max_counter_cons. intros H.
  destruct (Z.max_spec x (max_counter seen)) as [[Hx ->]|[Hx ->]]; [|apply list_elem_of_here].
  apply list_elem_of_further, IH. pose proof (max_counter_nonneg seen). lia.
Qed.

Lemma land_bit_zero (b d : Z) : 0 <= d -> (Z.land b (Z.shiftl 1 d) =? 0) = negb (Z.testbit b d).
Proof.
  intros Hd. rewrite Z.shiftl_1_l. destruct (Z.testbit b d) eqn:E; simpl.
  - apply Z.eqb_neq. intros H. assert (Z.testbit (Z.land b (2 ^ d)) d = true) as Hb.
    { rewrite Z.land_spec, E, Z.pow2_bits_true by lia. done. }
    rewrite H, Z.bits_0 in Hb. done.
  - apply Z.eqb_eq. apply Z.bits_inj'. intros n Hn.
    rewrite Z.land_spec, Z.bits_0, Z.pow2_bits_eqb by lia.
    destruct (Z.eqb_spec d n) as [->|]; [by rewrite E | apply andb_false_r].
Qed.

Lemma window_check_refines (w : ReplayWindow) (seen : list Z) (c : Z) :
  window_rel w seen -> 0 <= c -> window_check w c = spec_check seen c.
Proof.
  intros [Hpos Hhigh Hrange Hbits] Hc. unfold window_check, spec_check. rewrite Hhigh.
  destruct (c =? 0) eqn:Ec; [done|].
  destruct (max_counter seen =? 0) eqn:Em; simpl.
  { apply Z.eqb_eq in Em. rewrite Em. destruct (Z.ltb_spec 0 c); [done|lia]. }
  destruct (Z.ltb_spec (max_counter seen) c) as [|Hle]; [done|].
  destruct (Z.leb_spec REPLAY_WINDOW_BITS (max_counter seen - c)) as [|Hlt]; [done|].
  rewrite land_bit_zero by lia. rewrite Hbits by lia. rewrite negb_involutive, Hhigh.
  replace (max_counter seen - (max_counter seen - c)) with c by lia.
  assert (0 < c) by lia.
  by rewrite (bool_decide_ext (c ∈ seen /\ 0 < c) (c ∈ seen)) by tauto.
Qed.

Lemma max_counter_zero_or (seen : list Z) :
  Forall (fun c => 0 < c) seen -> seen = [] \/ 0 < max_counter seen.
Proof.
  intros H. destruct (Z.eq_dec (max_counter seen) 0) as [E|E].
  - left. by apply max_counter_zero.
  - right. pose proof (max_counter_nonneg seen). lia.
Qed.

Lemma window_rel_empty : window_rel default_window [].
Proof.
  split; [done | done | simpl; lia |]. intros d Hd. cbn [default_window rw_bitmap].
  rewrite Z.bits_0, bool_decide_eq_false_2; [done|]. intros [H _]. by apply not_elem_of_nil in H.
Qed.

Lemma testbit_one (d : Z) : 0 <= d -> Z.testbit 1 d = bool_decide (d = 0).
Proof.
  intros Hd. change 1 with (2 ^ 0). rewrite Z.pow2_bits_eqb by lia.
  destruct (Z.eqb_spec 0 d) as [<-|Hne]; [done|].
  rewrite bool_decide_eq_false_2; [done|lia].
Qed.

Lemma bitmap_range (b : Z) :
  (forall d, 128 <= d -> Z.testbit b d = false) -> 0 <= b -> 0 <= b < 2 ^ 128.
Proof.
  intros Hd Hb. split; [done|].
  destruct (Z.eq_dec b 0) as [->|]; [lia|]. apply Z.log2_lt_pow2; [lia|].
  destruct (Z.lt_ge_cases (Z.log2 b) 128); [done|].
  specialize (Hd (Z.log2 b) ltac:(lia)). rewrite Z.bit_log2 in Hd by lia. done.
Qed.

Lemma bitmap_high_bits (b d : Z) : 0 <= b < 2 ^ 128 -> 128 <= d -> Z.testbit b d = false.
Proof.
  intros Hb Hd. destruct (Z.eq_dec b 0) as [->|]; [apply Z.bits_0|].
  apply Z.bits_above_log2; [lia|]. assert (Z.log2 b < 128); [|lia].
  apply Z.log2_lt_pow2; lia.
Qed.

Lemma window_mark_above (w : ReplayWindow) (seen : list Z) (c : Z) :
  window_rel w seen -> 0 < max_counter seen -> max_counter seen < c ->
  window_rel {| rw_highest := c;
                rw_bitmap := if REPLAY_WINDOW_BITS <=? c - max_counter seen then 1
                             else Z.lor (Z.land (Z.shiftl (rw_bitmap w) (c - max_counter seen)) mask128) 1 |}
             (c :: seen).
Proof.
  intros [Hpos Hhigh Hrange Hbits] Hm Hlt.
  assert (forall d, c - d ∈ seen -> d >= c - max_counter seen) as Hold.
  { intros d Hd%max_counter_ge. lia. }
  split; simpl.
  - constructor; [lia | done].
  - lia.
  - destruct (Z.leb_spec REPLAY_WINDOW_BITS (c - max_counter seen)); [lia|].
    apply bitmap_range.
    + intros d Hd. rewrite Z.lor_spec, Z.land_spec, testbit_one by lia.
      rewrite (bitmap_high_bits mask128) by (unfold mask128; lia).
      rewrite andb_false_r. apply bool_decide_eq_false. lia.
    + apply Z.lor_nonneg. split; [|lia]. apply Z.land_nonneg. left. apply Z.shiftl_nonneg. lia.
  - intros d Hd. destruct (Z.leb_spec REPLAY_WINDOW_BITS (c - max_counter seen)) as [Hs|Hs].
    + rewrite testbit_one by lia. apply bool_decide_ext. rewrite elem_of_cons.
      split; [intros ->; lia|]. intros [[?|Hin%Hold] ?]; lia.
    + rewrite Z.lor_spec, Z.land_spec, testbit_one, Z.shiftl_spec by lia.
      change mask128 with (Z.ones 128).
      rewrite Z.ones_spec_low, andb_true_r by (unfold REPLAY_WINDOW_BITS in Hd; lia).
      destruct (Z.lt_ge_cases d (c - max_counter seen)) as [Hd'|Hd'].
      * rewrite Z.testbit_neg_r by lia. simpl. apply bool_decide_ext. rewrite elem_of_cons.
        split; [intros ->; lia|]. intros [[?|Hin%Hold] ?]; lia.
      * rewrite Hbits by lia. rewrite Hhigh.
        replace (max_counter seen - (d - (c - max_counter seen))) with (c - d) by lia.
        rewrite (bool_decide_eq_false_2 (d = 0)) by lia. rewrite orb_false_r.
        apply bool_decide_ext. rewrite elem_of_cons. split; [tauto|]. intros [[?|?] ?]; [lia|done].
Qed.

Lemma window_mark_below (w : ReplayWindow) (seen : list Z) (c : Z) :
  window_rel w seen -> 0 < c -> c <= max_counter seen ->
  window_rel (if max_counter seen - c <? REPLAY_WINDOW_BITS
              then {| rw_highest := max_counter seen;
                      rw_bitmap := Z.lor (rw_bitmap w) (Z.shiftl 1 (max_counter seen - c)) |}
              else w) (c :: seen).
Proof.
  intros [Hpos Hhigh Hrange Hbits] Hc Hle.
  assert (Forall (fun c => 0 < c) (c :: seen)) by (by constructor).
  destruct (Z.ltb_spec (max_counter seen - c) REPLAY_WINDOW_BITS) as [Hd|Hd];
    split; simpl; try done; try lia.
  - apply bitmap_range.
    + intros d Hd'. rewrite Z.lor_spec, Z.shiftl_1_l, Z.pow2_bits_eqb by lia.
      rewrite bitmap_high_bits by done. unfold REPLAY_WINDOW_BITS in Hd.
      destruct (Z.eqb_spec (max_counter seen - c) d); [lia|done].
    + apply Z.lor_nonneg. split; [lia|]. apply Z.shiftl_nonneg. lia.
  - intros d Hd'. rewrite Z.lor_spec, Z.shiftl_1_l, Z.pow2_bits_eqb by lia.
    rewrite Hbits by done. rewrite Hhigh.
    destruct (Z.eqb_spec (max_counter seen - c) d) as [<-|Hne].
    + rewrite orb_true_r. symmetry. apply bool_decide_eq_true. rewrite elem_of_cons. lia.
    + rewrite orb_false_r. apply bool_decide_ext. rewrite elem_of_cons.
      split; [tauto|]. intros [[?|?] ?]; [lia|done].
  - intros d Hd'. rewrite Hbits by done. apply bool_decide_ext. rewrite elem_of_cons.
    split; [tauto|]. intros [[?|?] ?]; [lia|done].
Qed.

(** Marking a counter keeps the representation, with one more counter. *)
Lemma window_mark_refines (w : ReplayWindow) (seen : list Z) (c : Z) :
  window_rel w seen -> 0 < c -> window_rel (window_mark w c) (c :: seen).
Proof.
  intros Hrel Hc. destruct (max_counter_zero_or _ (wr_positive _ _ Hrel)) as [->|Hm];
    destruct Hrel as [Hpos Hhigh Hrange Hbits]; unfold window_mark; rewrite Hhigh.
  - simpl. split; simpl; [by constructor | lia | lia |].
    intros d Hd. rewrite testbit_one by lia. apply bool_decide_ext.
    rewrite list_elem_of_singleton. lia.
  - destruct (Z.eqb_spec (max_counter seen) 0); [lia|].
    destruct (Z.ltb_spec (max_counter seen) c) as [Hlt|Hle].
    + by apply window_mark_above.
    + by apply window_mark_below.
Qed.

Lemma window_accepts_refines (w : ReplayWindow) (seen counters : list Z) :
  window_rel w seen -> Forall (fun c => 0 <= c) counters ->
  window_accepts w counters = spec_accepts seen counters.
Proof.
  intros Hrel Hcs. revert w seen Hrel. induction Hcs as [|c rest Hc _ IH]; intros w seen Hrel; [done|].
  simpl. rewrite (window_check_refines w seen c) by done.
  destruct (spec_check seen c) eqn:E; [|by apply IH]. f_equal. apply IH.
  apply window_mark_refines; [done|]. unfold spec_check in E.
  destruct (Z.eqb_spec c 0); [done|lia].
Qed.

Lemma spec_accepts_fresh (seen counters : list Z) :
  Forall (fun c => 0 < c) seen -> Forall (fun c => 0 <= c) counters ->
  NoDup (spec_accepts seen counters) /\
  (forall c, c ∈ spec_accepts seen counters -> c ∉ seen /\ c ∈ counters).
Proof.
  intros Hpos Hcs. revert seen Hpos. induction Hcs as [|c rest Hc _ IH]; intros seen Hpos; simpl.
  { split; [constructor|]. intros c Hc. by apply not_elem_of_nil in Hc. }
  destruct (spec_check seen c) eqn:E.
  - unfold spec_check in E. destruct (Z.eqb_spec c 0); [done|].
    assert (c ∉ seen) as Hc'.
    { intros Hin. pose proof (max_counter_ge _ _ Hin).
      destruct (Z.ltb_spec (max_counter seen) c); [lia|].
      destruct (REPLAY_WINDOW_BITS <=? max_counter seen - c); [done|].
      by rewrite bool_decide_eq_true_2 in E. }
    destruct (IH (c :: seen)) as [Hnd Hin]; [constructor; [lia|done]|]. split.
    + constructor; [|done]. intros [Hout _]%Hin. set_solver.
    + intros d [->|Hd]%elem_of_cons; [set_solver|]. apply Hin in Hd. set_solver.
  - destruct (IH seen Hpos) as [Hnd Hin]. split; [done|]. intros d Hd%Hin. set_solver.
Qed.

(** ** The cryptography the session relies on *)

Notation bytes := (list ascii).

(** [u128::to_be_bytes] and [u128::from_be_bytes] *)
Fixpoint be_bytes (n : nat) (z : Z) : bytes :=
  match n with
  | O => []
  | S n' => (be_bytes n' (z / 256) ++ [ascii_of_N (Z.to_N (z mod 256))])%list
  end.
Definition of_be_bytes (b : bytes) : Z := foldl (fun acc a => acc * 256 + byte_at a) 0 b.

Record SecretPublicKey := { pk_algorithm : string; pk_key_base64 : string }.
Record SecretPrivateKey := { sk_bytes : bytes }.

Record EncryptedSecretMessage := {
  esm_version : Z;
  esm_algorithm : string;
  esm_conversation_id : ConversationId;
  esm_epoch : Z;
  esm_sender_id : ActorId;
  esm_recipient_id : ActorId;
  esm_counter : Z;
  esm_nonce_base64 : string;
  esm_ciphertext_base64 : string;
}.

Record EncryptedSecretBackup := {
  esb_version : Z;
  esb_algorithm : string;
  esb_conversation_id : ConversationId;
  esb_nonce_base64 : string;
  esb_ciphertext_base64 : string;
}.

Record SecretBackupPayload := {
  sbp_conversation_id : ConversationId;
  sbp_local_actor_id : ActorId;
  sbp_peer_actor_id : ActorId;
  sbp_epoch : Z;
  sbp_root_key_base64 : string;
  sbp_send_counter : Z;
  sbp_replay_highest : Z;
  sbp_replay_bitmap_base64 : string;
}.

Class SecretCrypto := {
  base64_encode : bytes -> string;
  base64_decode : string -> option bytes;
  x25519_public : bytes -> bytes;
  diffie_hellman : bytes -> bytes -> bytes;
  hkdf_expand : string -> bytes -> string -> option bytes;
  aead_encrypt : bytes -> bytes -> bytes -> string -> option bytes;
  aead_decrypt : bytes -> bytes -> bytes -> string -> option bytes;
  payload_to_json : SecretBackupPayload -> result string bytes;
  payload_of_json : bytes -> result string SecretBackupPayload;
}.

(** Documented behaviour: base64 and JSON round trips, and decryption under
    the key, nonce and associated data of the encryption. *)
Class SecretCryptoLaws `{SecretCrypto} : Prop := {
  base64_roundtrip : forall b, base64_decode (base64_encode b) = Some b;
  aead_roundtrip : forall key nonce msg aad ct,
    aead_encrypt key nonce msg aad = Some ct -> aead_decrypt key nonce ct aad = Some msg;
  json_roundtrip : forall p b, payload_to_json p = Ok b -> payload_of_json b = Ok p;
  dh_agreement : forall a b, diffie_hellman a (x25519_public b) = diffie_hellman b (x25519_public a);
  x25519_public_length : forall a, length (x25519_public a) = 32%nat;
  hkdf_length : forall salt key info okm, hkdf_expand salt key info = Some okm -> length okm = 32%nat;
}.

(** ** Sessions *)

Record SecretChatSession := {
  scs_conversation_id : ConversationId;
  scs_local_actor_id : ActorId;
  scs_peer_actor_id : ActorId;
  scs_epoch : Z;
  scs_root_key : bytes;
  scs_send_counter : Z;
  scs_replay : ReplayWindow;
}.
#[export] Instance eta_SecretChatSession : Eta SecretChatSession := fun s =>
  Build_SecretChatSession (scs_conversation_id s) (scs_local_actor_id s) (scs_peer_actor_id s)
    (scs_epoch s) (scs_root_key s) (scs_send_counter s) (scs_replay s).

Definition validate_identity (conversation_id : ConversationId)
    (local_actor_id peer_actor_id : ActorId) (epoch : Z) : result SecretChatError unit :=
  reject_if
    (negb (conversation_id_is_valid conversation_id) || negb (actor_id_is_valid local_actor_id)
     || negb (actor_id_is_valid peer_actor_id) || eqb local_actor_id peer_actor_id || (epoch =? 0))
    InvalidIdentity.

Definition message_aad (conversation_id : ConversationId) (epoch : Z)
    (sender_id recipient_id : ActorId) (counter : Z) : string :=
  "fabushi-secret-chat-v1|" +:+ conversation_id_0 conversation_id +:+ "|" +:+ display epoch +:+ "|"
  +:+ actor_id_0 sender_id +:+ "|" +:+ actor_id_0 recipient_id +:+ "|" +:+ display counter.

Definition backup_aad (conversation_id : ConversationId) : string :=
  "fabushi-secret-backup-v1|" +:+ conversation_id_0 conversation_id.

Section session.
Context `{SecretCrypto}.

(** Decode exactly [n] bytes. *)
Definition decode_array (n : nat) (value label : string) : result SecretChatError bytes :=
  b ← ok_or (base64_decode value) (InvalidEncoding label);
  if bool_decide (length b = n) then Ok b else Err (InvalidEncoding label).

Definition public_key_from_bytes (b : bytes) : SecretPublicKey :=
  {| pk_algorithm := "X25519"; pk_key_base64 := base64_encode b |}.

Definition public_key_to_bytes (k : SecretPublicKey) : result SecretChatError bytes :=
  reject_if (negb (eqb (pk_algorithm k) "X25519")) (UnsupportedAlgorithm (pk_algorithm k)) ;;
  decode_array 32 (pk_key_base64 k) "public key".

Definition private_key_public_key (k : SecretPrivateKey) : SecretPublicKey :=
  public_key_from_bytes (x25519_public (sk_bytes k)).

Definition derive_root_key (conversation_id : ConversationId) (local_actor_id peer_actor_id : ActorId)
    (local_private_key : SecretPrivateKey) (peer_public_key : SecretPublicKey) (epoch : Z) :
    result SecretChatError bytes :=
  peer_public ← public_key_to_bytes peer_public_key;
  let shared := diffie_hellman (sk_bytes local_private_key) peer_public in
  reject_if (forallb (fun a => byte_at a =? 0) shared) InvalidPeerKey ;;
  let '(first_actor, second_actor) :=
    if bool_decide (String.le (actor_id_0 local_actor_id) (actor_id_0 peer_actor_id))
    then (actor_id_0 local_actor_id, actor_id_0 peer_actor_id)
    else (actor_id_0 peer_actor_id, actor_id_0 local_actor_id) in
  let info := "fabushi-secret-chat-v1|" +:+ conversation_id_0 conversation_id +:+ "|"
    +:+ first_actor +:+ "|" +:+ second_actor +:+ "|" +:+ display epoch in
  ok_or (hkdf_expand (conversation_id_0 conversation_id) shared info) KdfFailed.

Definition establish (conversation_id : ConversationId) (local_actor_id peer_actor_id : ActorId)
    (local_private_key : SecretPrivateKey) (peer_public_key : SecretPublicKey) (epoch : Z) :
    result SecretChatError SecretChatSession :=
  validate_identity conversation_id local_actor_id peer_actor_id epoch ;;
  root_key ← derive_root_key conversation_id local_actor_id peer_actor_id
               local_private_key peer_public_key epoch;
  Ok {| scs_conversation_id := conversation_id;
        scs_local_actor_id := local_actor_id;
        scs_peer_actor_id := peer_actor_id;
        scs_epoch := epoch;
        scs_root_key := root_key;
        scs_send_counter := 0;
        scs_replay := default_window |}.

Definition rotate (s : SecretChatSession) (local_private_key : SecretPrivateKey)
    (peer_public_key : SecretPublicKey) (next_epoch : Z) :
    SecretChatSession * result SecretChatError unit :=
  if next_epoch <=? scs_epoch s then (s, Err (NonMonotonicEpoch (scs_epoch s) next_epoch))
  else
    match derive_root_key (scs_conversation_id s) (scs_local_actor_id s) (scs_peer_actor_id s)
            local_private_key peer_public_key next_epoch with
    | Err e => (s, Err e)
    | Ok next =>
        (s ⟪ scs_root_key := next ⟫ ⟪ scs_epoch := next_epoch ⟫ ⟪ scs_send_counter := 0 ⟫
           ⟪ scs_replay := default_window ⟫, Ok tt)
    end.

(** The random source supplies the nonce or fails.  The send counter
    advances before it is asked. *)
Definition encrypt (s : SecretChatSession) (random : result string bytes) (plaintext : bytes) :
    SecretChatSession * result SecretChatError EncryptedSecretMessage :=
  match plaintext with
  | [] => (s, Err EmptyPlaintext)
  | _ =>
      match checked_add_u64 (scs_send_counter s) 1 with
      | None => (s, Err CounterOverflow)
      | Some counter =>
          let s := s ⟪ scs_send_counter := counter ⟫ in
          (s,
           nonce ← map_err RandomFailed random;
           let aad := message_aad (scs_conversation_id s) (scs_epoch s)
                        (scs_local_actor_id s) (scs_peer_actor_id s) counter in
           reject_if (negb (bool_decide (length (scs_root_key s) = 32%nat))) InvalidKey ;;
           ciphertext ← ok_or (aead_encrypt (scs_root_key s) nonce plaintext aad) EncryptionFailed;
           Ok {| esm_version := SECRET_CHAT_VERSION;
                 esm_algorithm := SECRET_CHAT_ALGORITHM;
                 esm_conversation_id := scs_conversation_id s;
                 esm_epoch := scs_epoch s;
                 esm_sender_id := scs_local_actor_id s;
                 esm_recipient_id := scs_peer_actor_id s;
                 esm_counter := counter;
                 esm_nonce_base64 := base64_encode nonce;
                 esm_ciphertext_base64 := base64_encode ciphertext |})
      end
  end.

Definition decrypt (s : SecretChatSession) (envelope : EncryptedSecretMessage) :
    SecretChatSession * result SecretChatError bytes :=
  match
    (reject_if (negb (esm_version envelope =? SECRET_CHAT_VERSION))
      (UnsupportedVersion (esm_version envelope)) ;;
     reject_if (negb (eqb (esm_algorithm envelope) SECRET_CHAT_ALGORITHM))
      (UnsupportedAlgorithm (esm_algorithm envelope)) ;;
     reject_if (negb (eqb (esm_conversation_id envelope) (scs_conversation_id s))
                || negb (eqb (esm_sender_id envelope) (scs_peer_actor_id s))
                || negb (eqb (esm_recipient_id envelope) (scs_local_actor_id s)))
      IdentityMismatch ;;
     reject_if (negb (esm_epoch envelope =? scs_epoch s))
      (EpochMismatch (scs_epoch s) (esm_epoch envelope)) ;;
     window_check (scs_replay s) (esm_counter envelope) ;;
     nonce ← decode_array 24 (esm_nonce_base64 envelope) "message nonce";
     ciphertext ← ok_or (base64_decode (esm_ciphertext_base64 envelope)) (InvalidEncoding "ciphertext");
     let aad := message_aad (scs_conversation_id s) (scs_epoch s) (esm_sender_id envelope)
                  (esm_recipient_id envelope) (esm_counter envelope) in
     reject_if (negb (bool_decide (length (scs_root_key s) = 32%nat))) InvalidKey ;;
     ok_or (aead_decrypt (scs_root_key s) nonce ciphertext aad) AuthenticationFailed)
  with
  | Err e => (s, Err e)
  | Ok plaintext => (s ⟪ scs_replay ::= fun w => window_mark w (esm_counter envelope) ⟫, Ok plaintext)
  end.

Definition backup (s : SecretChatSession) (recovery_key : bytes) (random : result string bytes) :
    result SecretChatError EncryptedSecretBackup :=
  let payload := {|
    sbp_conversation_id := scs_conversation_id s;
    sbp_local_actor_id := scs_local_actor_id s;
    sbp_peer_actor_id := scs_peer_actor_id s;
    sbp_epoch := scs_epoch s;
    sbp_root_key_base64 := base64_encode (scs_root_key s);
    sbp_send_counter := scs_send_counter s;
    sbp_replay_highest := rw_highest (scs_replay s);
    sbp_replay_bitmap_base64 := base64_encode (be_bytes 16 (rw_bitmap (scs_replay s)));
  |} in
  encoded ← map_err Serialization (payload_to_json payload);
  nonce ← map_err RandomFailed random;
  reject_if (negb (bool_decide (length recovery_key = 32%nat))) InvalidRecoveryKey ;;
  encrypted ← ok_or (aead_encrypt recovery_key nonce encoded (backup_aad (scs_conversation_id s)))
                EncryptionFailed;
  Ok {| esb_version := SECRET_CHAT_VERSION;
        esb_algorithm := "XChaCha20Poly1305";
        esb_conversation_id := scs_conversation_id s;
        esb_nonce_base64 := base64_encode nonce;
        esb_ciphertext_base64 := base64_encode encrypted |}.

Definition restore (b : EncryptedSecretBackup) (recovery_key : bytes) :
    result SecretChatError SecretChatSession :=
  reject_if (negb (esb_version b =? SECRET_CHAT_VERSION)) (UnsupportedVersion (esb_version b)) ;;
  reject_if (negb (eqb (esb_algorithm b) "XChaCha20Poly1305"))
    (UnsupportedAlgorithm (esb_algorithm b)) ;;
  nonce ← decode_array 24 (esb_nonce_base64 b) "backup nonce";
  encrypted ← ok_or (base64_decode (esb_ciphertext_base64 b)) (InvalidEncoding "backup ciphertext");
  reject_if (negb (bool_decide (length recovery_key = 32%nat))) InvalidRecoveryKey ;;
  plaintext ← ok_or (aead_decrypt recovery_key nonce encrypted (backup_aad (esb_conversation_id b)))
                AuthenticationFailed;
  payload ← map_err Serialization (payload_of_json plaintext);
  reject_if (negb (eqb (sbp_conversation_id payload) (esb_conversation_id b))) IdentityMismatch ;;
  validate_identity (sbp_conversation_id payload) (sbp_local_actor_id payload)
    (sbp_peer_actor_id payload) (sbp_epoch payload) ;;
  root_key ← decode_array 32 (sbp_root_key_base64 payload) "root key";
  bitmap ← decode_array 16 (sbp_replay_bitmap_base64 payload) "replay bitmap";
  Ok {| scs_conversation_id := sbp_conversation_id payload;
        scs_local_actor_id := sbp_local_actor_id payload;
        scs_peer_actor_id := sbp_peer_actor_id payload;
        scs_epoch := sbp_epoch payload;
        scs_root_key := root_key;
        scs_send_counter := sbp_send_counter payload;
        scs_replay := {| rw_highest := sbp_replay_highest payload;
                         rw_bitmap := of_be_bytes bitmap |} |}.
End session.

Lemma be_bytes_length (n : nat) (z : Z) : length (be_bytes n z) = n.
Proof. revert z. induction n as [|n IH]; intros z; simpl; [done|]. rewrite length_app, IH. simpl. lia. Qed.

Lemma of_be_bytes_snoc (b : bytes) (a : ascii) :
  of_be_bytes (b ++ [a])%list = of_be_bytes b * 256 + byte_at a.
Proof. unfold of_be_bytes. by rewrite foldl_app. Qed.

Lemma be_bytes_roundtrip (n : nat) (z : Z) :
  0 <= z < 256 ^ Z.of_nat n -> of_be_bytes (be_bytes n z) = z.
Proof.
  revert z. induction n as [|n IH]; intros z Hz; simpl.
  - simpl in Hz. unfold of_be_bytes. simpl. lia.
  - rewrite of_be_bytes_snoc, byte_at_ascii by (apply Z.mod_pos_bound; lia).
    rewrite IH; [pose proof (Z.div_mod z 256); lia|].
    rewrite Nat2Z.inj_succ, Z.pow_succ_r in Hz by lia.
    split; [apply Z.div_pos; lia | apply Z.div_lt_upper_bound; lia].
Qed.

Arguments be_bytes : simpl never.

(** A session receiving any envelopes in any order: the counters of the
    messages it opens. *)
Fixpoint opened `{SecretCrypto} (s : SecretChatSession) (envelopes : list EncryptedSecretMessage) : list Z :=
  match envelopes with
  | [] => []
  | e :: rest =>
      match decrypt s e with
      | (s', Ok _) => esm_counter e :: opened s' rest
      | (s', Err _) => opened s' rest
      end
  end.

(** Representation of a session's window, kept by every [decrypt]. *)
Lemma decrypt_window `{SecretCrypto} s e s' m seen :
  window_rel (scs_replay s) seen -> 0 <= esm_counter e -> decrypt s e = (s', Ok m) ->
  0 < esm_counter e /\ esm_counter e ∉ seen /\ window_rel (scs_replay s') (esm_counter e :: seen).
Proof.
  intros Hrel Hc. unfold decrypt. destruct (_ ≫= _) as [p|] eqn:E; [|done]. intros [= <- <-].
  oks. rewrite (window_check_refines _ seen) in Hok3 by done.
  destruct (spec_accepts_fresh seen [esm_counter e]) as [_ Hf];
    [apply Hrel | by constructor |]. simpl in Hf. rewrite Hok3 in Hf.
  destruct (Hf (esm_counter e)) as [Hnew _]; [set_solver|].
  assert (0 < esm_counter e).
  { unfold spec_check in Hok3. destruct (Z.eqb_spec (esm_counter e) 0); [done|lia]. }
  split_and!; [done..|]. fields. by apply window_mark_refines.
Qed.

Lemma decrypt_error_unchanged `{SecretCrypto} s e s' err : decrypt s e = (s', Err err) -> s' = s.
Proof. unfold decrypt. destruct (_ ≫= _); by intros [= <-]. Qed.

Lemma opened_fresh `{SecretCrypto} s seen envelopes :
  window_rel (scs_replay s) seen -> Forall (fun e => 0 <= esm_counter e) envelopes ->
  NoDup (opened s envelopes) /\ (forall c, c ∈ opened s envelopes -> c ∉ seen).
Proof.
  intros Hrel Hall. revert s seen Hrel. induction Hall as [|e rest He _ IH]; intros s seen Hrel; simpl.
  { split; [constructor|]. intros c Hc. by apply not_elem_of_nil in Hc. }
  destruct (decrypt s e) as [s' [m|err]] eqn:E.
  - destruct (decrypt_window _ _ _ _ _ Hrel He E) as (_ & Hnew & Hrel').
    destruct (IH _ _ Hrel') as [Hnd Hin]. split.
    + constructor; [|done]. intros Hout%Hin. set_solver.
    + intros c [->|Hc]%elem_of_cons; [done|]. apply Hin in Hc. set_solver.
  - rewrite (decrypt_error_unchanged _ _ _ _ E). by apply IH.
Qed.

(** ** Two ends of one chat *)

Section pair.
Context `{SecretCryptoLaws}.

Lemma public_key_roundtrip (k : SecretPrivateKey) :
  public_key_to_bytes (private_key_public_key k) = Ok (x25519_public (sk_bytes k)).
Proof.
  unfold public_key_to_bytes, private_key_public_key, public_key_from_bytes, decode_array. simpl.
  rewrite base64_roundtrip. simpl. rewrite bool_decide_eq_true_2; [done|apply x25519_public_length].
Qed.

(** Both ends derive the same root key. *)
Lemma derive_root_key_agrees (c : ConversationId) (x y : ActorId) (kx ky : SecretPrivateKey) (epoch : Z) :
  derive_root_key c x y kx (private_key_public_key ky) epoch
  = derive_root_key c y x ky (private_key_public_key kx) epoch.
Proof.
  unfold derive_root_key. rewrite !public_key_roundtrip. simpl.
  rewrite (dh_agreement (sk_bytes kx) (sk_bytes ky)).
  case_bool_decide as Hxy; case_bool_decide as Hyx; try done.
  - assert (actor_id_0 x = actor_id_0 y) as -> by by apply (anti_symm String.le). done.
  - destruct (total String.le (actor_id_0 x) (actor_id_0 y)); tauto.
Qed.

Lemma derive_root_key_length c x y k pk epoch root :
  derive_root_key c x y k pk epoch = Ok root -> length root = 32%nat.
Proof.
  unfold derive_root_key. destruct (public_key_to_bytes pk); [|done]. simpl.
  unfold reject_if. destruct (forallb _ _); [done|]. simpl. intros E.
  destruct (bool_decide _); destruct (hkdf_expand _ _ _) eqn:Eh; simplify_eq/=;
  by eapply hkdf_length.
Qed.

(** [a] sends to [b], and [b] has received nothing [a] has not sent. *)
Record paired (a b : SecretChatSession) : Prop := {
  pair_conversation : scs_conversation_id a = scs_conversation_id b;
  pair_local : scs_local_actor_id a = scs_peer_actor_id b;
  pair_peer : scs_peer_actor_id a = scs_local_actor_id b;
  pair_epoch : scs_epoch a = scs_epoch b;
  pair_key : scs_root_key a = scs_root_key b;
  pair_key_length : length (scs_root_key b) = 32%nat;
  pair_counter : 0 <= rw_highest (scs_replay b) <= scs_send_counter a;
}.

Lemma establish_ok c x y k pk epoch s :
  establish c x y k pk epoch = Ok s ->
  exists root, derive_root_key c x y k pk epoch = Ok root /\
    s = {| scs_conversation_id := c; scs_local_actor_id := x; scs_peer_actor_id := y;
           scs_epoch := epoch; scs_root_key := root; scs_send_counter := 0;
           scs_replay := default_window |}.
Proof.
  unfold establish. destruct (validate_identity c x y epoch); [|done]. simpl.
  destruct (derive_root_key c x y k pk epoch) as [root|]; simpl; [|done].
  intros [= <-]. by exists root.
Qed.

Lemma establish_paired c x y kx ky epoch a b :
  establish c x y kx (private_key_public_key ky) epoch = Ok a ->
  establish c y x ky (private_key_public_key kx) epoch = Ok b ->
  paired a b.
Proof.
  intros (rx & Hx & ->)%establish_ok (ry & Hy & ->)%establish_ok.
  rewrite derive_root_key_agrees, Hy in Hx. simplify_eq.
  by split; simpl; [.. | eapply derive_root_key_length |].
Qed.

Lemma window_check_fresh (w : ReplayWindow) (c : Z) :
  0 <= rw_highest w < c -> window_check w c = Ok tt.
Proof.
  intros Hc. unfold window_check. destruct (Z.eqb_spec c 0); [lia|].
  destruct (Z.ltb_spec (rw_highest w) c); [by rewrite orb_true_r | lia].
Qed.

Lemma window_mark_fresh (w : ReplayWindow) (c : Z) :
  0 <= rw_highest w < c -> rw_highest (window_mark w c) = c.
Proof.
  intros Hc. unfold window_mark. destruct (Z.eqb_spec (rw_highest w) 0); [done|].
  destruct (Z.ltb_spec (rw_highest w) c); [done|lia].
Qed.
End pair.

(** Sending a list of messages in order over one direction of the chat. *)
Fixpoint transmit `{SecretCrypto} (a b : SecretChatSession) (msgs : list (bytes * bytes)) :
    result SecretChatError (list bytes) :=
  match msgs with
  | [] => Ok []
  | (nonce, m) :: rest =>
      let '(a', sent) := encrypt a (Ok nonce) m in
      envelope ← sent;
      let '(b', received) := decrypt b envelope in
      plaintext ← received;
      plaintexts ← transmit a' b' rest;
      Ok (plaintext :: plaintexts)
  end.

Section delivery.
Context `{SecretCryptoLaws}.

(** One message: what [encrypt] produces, [decrypt] of the peer opens. *)
Lemma deliver_one a b nonce m ct :
  paired a b -> m <> [] -> length nonce = 24%nat -> scs_send_counter a < u64_max ->
  aead_encrypt (scs_root_key a) nonce m
    (message_aad (scs_conversation_id a) (scs_epoch a) (scs_local_actor_id a)
       (scs_peer_actor_id a) (scs_send_counter a + 1)) = Some ct ->
  exists a' env b', encrypt a (Ok nonce) m = (a', Ok env) /\ decrypt b env = (b', Ok m) /\
    paired a' b' /\ scs_send_counter a' = scs_send_counter a + 1 /\
    scs_root_key a' = scs_root_key a.
Proof.
  intros [Hc Hl Hp He Hk Hlen Hcnt] Hm Hn Hmax Henc.
  unfold encrypt. destruct m as [|m0 m]; [done|].
  unfold checked_add_u64, checked. rewrite (proj2 (in_u64_spec _)) by lia.
  fields. rewrite Hk in *. rewrite bool_decide_eq_true_2 by done. simpl. rewrite Henc. simpl.
  eexists _, _, _. split; [done|]. unfold decrypt. simpl.
  unfold decode_array. rewrite Hc, Hl, Hp, He, !base64_roundtrip.
  rewrite !(proj2 (eqb_spec _ _) eq_refl), Z.eqb_refl. simpl.
  rewrite window_check_fresh by lia. simpl. rewrite !bool_decide_eq_true_2 by done. simpl.
  rewrite <- Hc, <- He, <- Hl, <- Hp, (aead_roundtrip _ _ _ _ _ Henc). simpl.
  split; [done|]. split; [|done].
  split; fields; try done. rewrite window_mark_fresh by lia. lia.
Qed.
End delivery.

(** ** Properties *)

(** C18: The 128-bit sliding window is exactly a receiver that remembers every
    counter it has accepted: on every stream of counters it accepts the same
    ones, and no counter is ever accepted twice. *)
Theorem replay_window_refines_log (counters : list Z) :
  Forall (fun c => 0 <= c) counters ->
  window_accepts default_window counters = spec_accepts [] counters /\
  NoDup (window_accepts default_window counters).
Proof.
  intros Hcs. rewrite (window_accepts_refines default_window []) by (done || apply window_rel_empty).
  split; [done|]. by apply spec_accepts_fresh.
Qed.

Lemma replay_window_refines_log_witness :
  window_accepts default_window [5; 3; 5; 200; 72; 73; 0; 500; 400; 400]
    = spec_accepts [] [5; 3; 5; 200; 72; 73; 0; 500; 400; 400] /\
  NoDup (window_accepts default_window [5; 3; 5; 200; 72; 73; 0; 500; 400; 400]).
Proof. apply replay_window_refines_log. repeat constructor; discriminate. Defined.

Section properties.
Context `{SecretCrypto}.

(** Whatever envelopes are delivered to an established session, in
    whatever order and with whatever contents, no two of the messages it
    opens carry the same counter. *)
Theorem session_opens_no_counter_twice c x y k pk epoch s envelopes :
  establish c x y k pk epoch = Ok s ->
  Forall (fun e => 0 <= esm_counter e) envelopes ->
  NoDup (opened s envelopes).
Proof.
  intros (root & _ & ->)%establish_ok Hall.
  eapply opened_fresh; [apply window_rel_empty | done].
Qed.

Context `{!SecretCryptoLaws}.

(** C19: Two ends that established a chat with each other's public keys
    deliver a whole stream of messages: every plaintext encrypted by one is
    opened by the other, in order and unchanged. *)
Theorem established_chat_delivers_stream c x y kx ky epoch a b (msgs : list (bytes * bytes)) :
  establish c x y kx (private_key_public_key ky) epoch = Ok a ->
  establish c y x ky (private_key_public_key kx) epoch = Ok b ->
  Z.of_nat (length msgs) <= u64_max ->
  Forall (fun '(nonce, m) => length nonce = 24%nat /\ m <> [] /\
            forall key aad, length key = 32%nat -> is_Some (aead_encrypt key nonce m aad)) msgs ->
  transmit a b msgs = Ok msgs.*2.
Proof.
  intros Ha Hb Hlen Hmsgs.
  assert (scs_send_counter a + Z.of_nat (length msgs) <= u64_max) as Hcount.
  { apply establish_ok in Ha as (? & _ & ->). simpl. lia. }
  pose proof (establish_paired _ _ _ _ _ _ _ _ Ha Hb) as Hpair. clear Ha Hb Hlen.
  revert a b Hpair Hcount. induction Hmsgs as [|[nonce m] rest (Hn & Hm & Henc) _ IH];
    intros a b Hpair Hcount; [done|]. cbn [length] in Hcount.
  edestruct (Henc (scs_root_key a)) as [ct Hct].
  { rewrite (pair_key _ _ Hpair). apply Hpair. }
  destruct (deliver_one a b nonce m ct) as (a' & env & b' & E1 & E2 & Hpair' & Hcnt & _);
    [done | done | done | lia | exact Hct |].
  cbn [transmit]. rewrite E1. cbn [mbind result_bind]. rewrite E2. cbn [mbind result_bind].
  by rewrite (IH a' b') by (done || lia).
Qed.

(** Restoring an encrypted backup with the recovery key it was made with
    gives back the session, send counter and replay window included. *)
Theorem backup_restore_roundtrip s recovery_key nonce b :
  validate_identity (scs_conversation_id s) (scs_local_actor_id s) (scs_peer_actor_id s)
    (scs_epoch s) = Ok tt ->
  length (scs_root_key s) = 32%nat ->
  0 <= rw_bitmap (scs_replay s) < 2 ^ 128 ->
  length nonce = 24%nat ->
  backup s recovery_key (Ok nonce) = Ok b ->
  restore b recovery_key = Ok s.
Proof.
  intros Hid Hkey Hbits Hn Hb. unfold backup in Hb. oks. subst.
  unfold restore, decode_array. simpl. rewrite !base64_roundtrip. simpl.
  rewrite Hn. simpl. rewrite Hok1. simpl.
  rewrite (aead_roundtrip _ _ _ _ _ Hok2). simpl. rewrite (json_roundtrip _ _ Hok). simpl.
  rewrite (proj2 (eqb_spec _ _) eq_refl). simpl. rewrite Hid. simpl.
  rewrite !base64_roundtrip. simpl. rewrite Hkey. simpl.
  rewrite be_bytes_roundtrip by done. by destruct s as [? ? ? ? ? ? []].
Qed.
End properties.

(** ** A concrete model of the cryptographic parameters

    Enough to run the session: it satisfies [SecretCryptoLaws] and hides
    nothing. *)

#[export] Instance SecretBackupPayload_eq_dec : EqDecision SecretBackupPayload.
Proof. solve_decision. Defined.
#[export] Program Instance SecretBackupPayload_countable : Countable SecretBackupPayload :=
  inj_countable'
    (fun p => (sbp_conversation_id p, sbp_local_actor_id p, sbp_peer_actor_id p, sbp_epoch p,
               sbp_root_key_base64 p, sbp_send_counter p, sbp_replay_highest p,
               sbp_replay_bitmap_base64 p))
    (fun '(a, b, c, d, e, f, g, h) => Build_SecretBackupPayload a b c d e f g h) _.
Next Obligation. by intros []. Qed.

Definition add_bytes (a b : ascii) : ascii := ascii_of_N (N.add (N_of_ascii a) (N_of_ascii b)).

Lemma zip_add_bytes_comm (l k : bytes) : zip_with add_bytes l k = zip_with add_bytes k l.
Proof.
  revert k. induction l as [|x l IH]; intros [|y k]; simpl; [done..|].
  rewrite IH. unfold add_bytes. by rewrite N.add_comm.
Qed.

#[local] Instance toy_crypto : SecretCrypto := {|
  base64_encode := string_of;
  base64_decode := fun s => Some (bytes_of s);
  x25519_public := pad32;
  diffie_hellman := fun a p => zip_with add_bytes (pad32 a) (pad32 p);
  hkdf_expand := fun salt key info => Some (pad32 (key ++ bytes_of salt ++ bytes_of info)%list);
  aead_encrypt := fun key nonce m aad => Some (rev m);
  aead_decrypt := fun key nonce c aad => Some (rev c);
  payload_to_json := fun p => Ok (bits_of_positive (encode p));
  payload_of_json := fun b => ok_or (decode (positive_of_bits b)) "malformed";
|}.

#[local] Instance toy_crypto_laws : SecretCryptoLaws.
Proof.
  split; simpl.
  - intros b. by rewrite bytes_of_string_of.
  - intros key nonce m aad ct [= <-]. by rewrite rev_involutive.
  - intros p b [= <-]. by rewrite positive_bits_roundtrip, decode_encode.
  - intros a b.
    assert (forall l, pad32 (pad32 l) = pad32 l) as Hpad.
    { intros l. unfold pad32 at 1. rewrite take_app_le by (rewrite pad32_length; lia).
      apply take_ge. by rewrite pad32_length. }
    rewrite !Hpad. apply zip_add_bytes_comm.
  - apply pad32_length.
  - intros salt key info okm [= <-]. apply pad32_length.
Qed.

Definition toy_chat : ConversationId := MkConversationId "chat:1".
Definition toy_alice : ActorId := MkActorId "human:alice".
Definition toy_bob : ActorId := MkActorId "human:bob".
Definition toy_key (c : ascii) : SecretPrivateKey := {| sk_bytes := replicate 32 c |}.
Definition toy_session (x y : ActorId) (kx ky : ascii) : result SecretChatError SecretChatSession :=
  establish toy_chat x y (toy_key kx) (private_key_public_key (toy_key ky)) 1.
Definition toy_nonce : bytes := replicate 24 "n"%char.

Definition toy_alice_session : SecretChatSession :=
  Eval vm_compute in match toy_session toy_alice toy_bob "a" "b" with Ok s => s | Err _ =>
    Build_SecretChatSession toy_chat toy_alice toy_bob 0 [] 0 default_window end.
Definition toy_bob_session : SecretChatSession :=
  Eval vm_compute in match toy_session toy_bob toy_alice "b" "a" with Ok s => s | Err _ =>
    Build_SecretChatSession toy_chat toy_bob toy_alice 0 [] 0 default_window end.
Definition toy_envelope (counter : Z) : EncryptedSecretMessage := {|
  esm_version := 1; esm_algorithm := SECRET_CHAT_ALGORITHM; esm_conversation_id := toy_chat;
  esm_epoch := 1; esm_sender_id := toy_bob; esm_recipient_id := toy_alice; esm_counter := counter;
  esm_nonce_base64 := string_of toy_nonce; esm_ciphertext_base64 := "olleh" |}.

Lemma session_opens_no_counter_twice_witness :
  opened toy_alice_session (toy_envelope <$> [2; 1; 2; 150; 1; 0; 23; 23]) = [2; 1; 150; 23] /\
  NoDup (opened toy_alice_session (toy_envelope <$> [2; 1; 2; 150; 1; 0; 23; 23])).
Proof.
  split; [vm_compute; reflexivity|].
  apply (session_opens_no_counter_twice toy_chat toy_alice toy_bob (toy_key "a")
           (private_key_public_key (toy_key "b")) 1).
  - vm_compute. reflexivity.
  - repeat constructor; discriminate.
Defined.

Lemma established_chat_delivers_stream_witness :
  transmit toy_alice_session toy_bob_session
    [(toy_nonce, bytes_of "hello"); (toy_nonce, bytes_of "again")]
  = Ok [bytes_of "hello"; bytes_of "again"].
Proof.
  apply (established_chat_delivers_stream toy_chat toy_alice toy_bob (toy_key "a") (toy_key "b") 1).
  - vm_compute. reflexivity.
  - vm_compute. reflexivity.
  - vm_compute. discriminate.
  - repeat constructor; try discriminate; intros; by eexists.
Defined.

Definition toy_backup : EncryptedSecretBackup :=
  Eval vm_compute in match backup (toy_alice_session ⟪ scs_replay := {| rw_highest := 9; rw_bitmap := 5 |} ⟫)
    (replicate 32 "r"%char) (Ok toy_nonce) with
  | Ok b => b
  | Err _ => Build_EncryptedSecretBackup 0 "" toy_chat "" ""
  end.

Lemma backup_restore_roundtrip_witness :
  restore toy_backup (replicate 32 "r"%char)
  = Ok (toy_alice_session ⟪ scs_replay := {| rw_highest := 9; rw_bitmap := 5 |} ⟫).
Proof.
  apply (backup_restore_roundtrip _ _ toy_nonce); [vm_compute; reflexivity.. | | |].
  - vm_compute. split; [discriminate | reflexivity].
  - reflexivity.
  - vm_compute. reflexivity.
Defined.
