(* ===== verification/Message.v ===== *)
(** * Messages ([message.rs]): content, delivery state and reactions *)

From S2P Require Import Prelude Text Maps Conversation SecretChat.

Record MessageId := MkMessageId { message_id_0 : string }.
#[export] Instance MessageId_eq_dec : EqDecision MessageId.
Proof. solve_decision. Defined.
#[export] Program Instance MessageId_countable : Countable MessageId :=
  inj_countable' message_id_0 MkMessageId _.
Next Obligation. by intros []. Qed.
#[export] Instance MessageId_key : BTreeKey MessageId := message_id_0.
#[export] Instance MessageId_key_inj : BTreeKeyInj MessageId.
Proof. intros [a] [b]. unfold key_string, MessageId_key. simpl. congruence. Qed.

Record ClientMessageId := MkClientMessageId { client_message_id_0 : string }.

(** An [f64] is kept as its bit pattern: the code stores it and never
    computes with it. *)
Notation f64 := Z (only parsing).

Inductive TextEntityKind :=
| Mention
| MentionActor (id : ActorId)
| Hashtag
| Url
| Email
| PhoneNumber
| BotCommandEntity
| Bold
| Italic
| Underline
| Strikethrough
| Spoiler
| Code
| Pre (language : option string)
| TextUrl (url : string)
| CustomEmoji (id : string).

Record TextEntity := {
  entity_offset_utf16 : Z;
  entity_length_utf16 : Z;
  entity_kind : TextEntityKind;
}.

Record FormattedText := { ft_text : string; ft_entities : list TextEntity }.

Definition plain (text : string) : FormattedText := {| ft_text := text; ft_entities := [] |}.

Record MediaRef := {
  media_id : string;
  media_file_name : option string;
  media_mime_type : option string;
  media_size_bytes : option Z;
  media_width : option Z;
  media_height : option Z;
  media_duration_ms : option Z;
  media_thumbnail_id : option string;
  media_local_path : option string;
  media_remote_url : option string;
  media_content_hash : option string;
}.

Record PollOption := {
  option_id : string;
  option_text : string;
  option_voter_count : Z;
  option_chosen : bool;
  option_correct : option bool;
}.
#[export] Instance eta_PollOption : Eta PollOption := fun o =>
  Build_PollOption (option_id o) (option_text o) (option_voter_count o) (option_chosen o) (option_correct o).

Inductive InlineButtonAction :=
| ButtonCallback (data : string)
| ButtonUrl (url : string)
| ButtonMiniApp (mini_app_id : string) (start_parameter : option string)
| ButtonPay (invoice_id : string)
| ButtonSwitchInline (query : string).

Record InlineButton := { button_text : string; button_action : InlineButtonAction }.

Record ReplyMarkup := { markup_rows : list (list InlineButton) }.

Inductive MessageContent :=
| ContentText (text : FormattedText)
| ContentPhoto (media : MediaRef) (caption : FormattedText) (spoiler : bool)
| ContentVideo (media : MediaRef) (caption : FormattedText) (spoiler streaming : bool)
| ContentAnimation (media : MediaRef) (caption : FormattedText)
| ContentAudio (media : MediaRef) (caption : FormattedText) (title performer : option string)
| ContentVoice (media : MediaRef) (caption : FormattedText) (waveform : list Z)
| ContentVideoNote (media : MediaRef)
| ContentDocument (media : MediaRef) (caption : FormattedText)
| ContentSticker (media : MediaRef) (emoji set_id : option string)
| ContentContact (contact_id : option ActorId) (display_name : string) (phone_number : option string)
| ContentLocation (latitude longitude : f64) (live_until_ms : option Z)
| ContentVenue (latitude longitude : f64) (title address : string)
| ContentPoll (question : FormattedText) (options : list PollOption)
    (anonymous multiple_answers quiz : bool)
| ContentDice (emoji : string) (value : Z)
| ContentStory (story_id : string)
| ContentInvoice (invoice_id : string)
| ContentMiniApp (mini_app_id title : string) (start_parameter : option string)
| ContentSecret (envelope : EncryptedSecretMessage)
| ContentService (action : string) (text : option string).

Inductive DeliveryState :=
| Pending (client_message_id : ClientMessageId)
| Sent
| Delivered
| Read
| DeliveryFailed (code : string) (retryable : bool).

Record ReactionSummary := {
  reaction_reaction : string;
  reaction_count : Z;
  reaction_chosen_by_me : bool;
  reaction_recent_actor_ids : list ActorId;
}.

Record Message := {
  msg_id : MessageId;
  msg_conversation_id : ConversationId;
  msg_sender_id : ActorId;
  msg_content : MessageContent;
  msg_reply_to_message_id : option MessageId;
  msg_thread_root_message_id : option MessageId;
  msg_forward_origin : option string;
  msg_reply_markup : option ReplyMarkup;
  msg_reactions : list ReactionSummary;
  msg_delivery_state : DeliveryState;
  msg_created_at_ms : Z;
  msg_edited_at_ms : option Z;
  msg_scheduled_at_ms : option Z;
  msg_expires_at_ms : option Z;
  msg_silent : bool;
  msg_protected_content : bool;
  msg_pinned : bool;
  msg_deleted : bool;
}.
#[export] Instance eta_Message : Eta Message := fun m =>
  Build_Message (msg_id m) (msg_conversation_id m) (msg_sender_id m) (msg_content m)
    (msg_reply_to_message_id m) (msg_thread_root_message_id m) (msg_forward_origin m)
    (msg_reply_markup m) (msg_reactions m) (msg_delivery_state m) (msg_created_at_ms m)
    (msg_edited_at_ms m) (msg_scheduled_at_ms m) (msg_expires_at_ms m) (msg_silent m)
    (msg_protected_content m) (msg_pinned m) (msg_deleted m).
