(* ===== verification/Payment.v ===== *)
(** * Invoices and orders ([payment.rs]) *)

From S2P Require Import Prelude Text Maps Conversation.

Record Money := { money_currency : string; money_amount_minor : Z }.
#[export] Instance Money_eq_dec : EqDecision Money.
Proof. solve_decision. Defined.

(** [Money::new] *)
Definition money_new `{UnicodeCase} (currency : string) (amount_minor : Z) : Money :=
  {| money_currency := str_to_uppercase currency; money_amount_minor := amount_minor |}.

(** [Money::is_valid] *)
Definition money_is_valid (m : Money) : bool :=
  (len (money_currency m) =? 3) && all_bytes is_ascii_upper (money_currency m)
  && (0 <=? money_amount_minor m).

Record PriceLine := { line_label : string; line_amount : Money }.

Inductive InvoiceKind := OneTime | Subscription | Donation | DigitalGoods.

Record Invoice := {
  inv_id : string;
  inv_conversation_id : ConversationId;
  inv_seller_id : ActorId;
  inv_title : string;
  inv_description : string;
  inv_kind : InvoiceKind;
  inv_currency : string;
  inv_prices : list PriceLine;
  inv_payload : string;
  inv_provider_id : string;
  inv_start_parameter : option string;
  inv_request_name : bool;
  inv_request_email : bool;
  inv_request_phone : bool;
  inv_request_shipping_address : bool;
  inv_flexible_shipping : bool;
  inv_created_at_ms : Z;
  inv_expires_at_ms : option Z;
}.

(** [Invoice::checked_total_minor]: [try_fold] of [checked_add] *)
Fixpoint try_total (total : Z) (prices : list PriceLine) : option Z :=
  match prices with
  | [] => Some total
  | line :: rest =>
      total' ← checked_add_i64 total (money_amount_minor (line_amount line));
      try_total total' rest
  end.
Definition checked_total_minor (i : Invoice) : option Z := try_total 0 (inv_prices i).

(** [Invoice::total_minor] *)
Definition total_minor (i : Invoice) : Z := default i64_max (checked_total_minor i).

(** [Invoice::is_valid] *)
Definition invoice_is_valid (i : Invoice) : bool :=
  negb (blank (inv_id i))
  && negb (blank (inv_title i))
  && (len (inv_currency i) =? 3)
  && negb (bool_decide (inv_prices i = []%list)) 
  && forallb (fun line => eqb (money_currency (line_amount line)) (inv_currency i)
                          && money_is_valid (line_amount line)) (inv_prices i)
  && is_some_and (checked_total_minor i) (fun total => 0 <? total).

Record ShippingAddress := {
  ship_country_code : string;
  ship_state : string;
  ship_city : string;
  ship_street_line1 : string;
  ship_street_line2 : option string;
  ship_postal_code : string;
}.

Record CustomerInfo := {
  customer_name : option string;
  customer_email : option string;
  customer_phone : option string;
  customer_shipping_address : option ShippingAddress;
}.

Inductive PaymentStatus :=
| Draft | PaymentPending | RequiresAction | Authorized | Paid | Refunded | PartiallyRefunded
| Cancelled | PaymentFailed.
#[export] Instance PaymentStatus_eq_dec : EqDecision PaymentStatus.
Proof. solve_decision. Defined.

Record PaymentOrder := {
  order_id : string;
  order_invoice_id : string;
  order_buyer_id : ActorId;
  order_status : PaymentStatus;
  order_amount : Money;
  order_customer : option CustomerInfo;
  order_provider_payment_id : option string;
  order_provider_receipt_url : option string;
  order_created_at_ms : Z;
  order_updated_at_ms : Z;
}.
#[export] Instance eta_PaymentOrder : Eta PaymentOrder := fun o =>
  Build_PaymentOrder (order_id o) (order_invoice_id o) (order_buyer_id o) (order_status o)
    (order_amount o) (order_customer o) (order_provider_payment_id o) (order_provider_receipt_url o)
    (order_created_at_ms o) (order_updated_at_ms o).

(** ** Laws *)

Definition sum_prices (prices : list PriceLine) : Z :=
  foldr (fun line acc => money_amount_minor (line_amount line) + acc) 0 prices.

Lemma try_total_sum (total t : Z) (prices : list PriceLine) :
  try_total total prices = Some t -> t = total + sum_prices prices.
Proof.
  revert total. induction prices as [|line rest IH]; intros total; simpl.
  - intros [= ->]. lia.
  - unfold checked_add_i64. intros (total' & [-> _]%checked_spec & ->%IH)%bind_Some. lia.
Qed.

Lemma try_total_range (total t : Z) (prices : list PriceLine) :
  i64_min <= total <= i64_max -> try_total total prices = Some t -> i64_min <= t <= i64_max.
Proof.
  revert total. induction prices as [|line rest IH]; intros total Ht; simpl.
  - by intros [= ->].
  - unfold checked_add_i64. intros (total' & [-> Hr]%checked_spec & H)%bind_Some.
    apply in_i64_spec in Hr. by apply IH in H.
Qed.

Lemma try_total_complete (total : Z) (prices : list PriceLine) :
  i64_min <= total -> Forall (fun line => 0 <= money_amount_minor (line_amount line)) prices ->
  total + sum_prices prices <= i64_max -> try_total total prices = Some (total + sum_prices prices).
Proof.
  revert total. induction prices as [|line rest IH]; intros total Ht Hall Hle; simpl in *.
  - f_equal. lia.
  - inversion_clear Hall as [|? ? Hline Hrest].
    assert (0 <= sum_prices rest) by (clear -Hrest; induction Hrest; simpl; lia).
    unfold checked_add_i64, checked. rewrite (proj2 (in_i64_spec _)) by lia. simpl.
    rewrite IH by (done || lia). f_equal. lia.
Qed.
