(* ===== verification/Wallet.v ===== *)
(** * The wallet ledger ([wallet.rs])

    Accounts with balances per currency, a journal of entries, and an index
    from request identifiers to entries that makes the operations
    idempotent.  A method taking [&mut self] returns the ledger as the method
    leaves it, on errors too. *)

From S2P Require Import Prelude Text Maps Conversation Payment.

Record WalletAccountId := MkWalletAccountId { wallet_account_id_0 : string }.
#[export] Instance WalletAccountId_eq_dec : EqDecision WalletAccountId.
Proof. solve_decision. Defined.
#[export] Program Instance WalletAccountId_countable : Countable WalletAccountId :=
  inj_countable' wallet_account_id_0 MkWalletAccountId _.
Next Obligation. by intros []. Qed.

Record WalletAccount := {
  wa_id : WalletAccountId;
  wa_owner_id : ActorId;
  wa_balances_minor : gmap string Z;
  wa_frozen : bool;
  wa_created_at_ms : Z;
  wa_updated_at_ms : Z;
}.
#[export] Instance eta_WalletAccount : Eta WalletAccount := fun a =>
  Build_WalletAccount (wa_id a) (wa_owner_id a) (wa_balances_minor a) (wa_frozen a)
    (wa_created_at_ms a) (wa_updated_at_ms a).

Inductive LedgerEntryKind := Credit | Transfer | Refund | Adjustment.
#[export] Instance LedgerEntryKind_eq_dec : EqDecision LedgerEntryKind.
Proof. solve_decision. Defined.

Record LedgerEntry := {
  le_id : string;
  le_request_id : string;
  le_kind : LedgerEntryKind;
  le_from_account_id : option WalletAccountId;
  le_to_account_id : option WalletAccountId;
  le_amount : Money;
  le_reference : option string;
  le_created_at_ms : Z;
}.
#[export] Instance LedgerEntry_eq_dec : EqDecision LedgerEntry.
Proof. solve_decision. Defined.
#[export] Instance eta_LedgerEntry : Eta LedgerEntry := fun e =>
  Build_LedgerEntry (le_id e) (le_request_id e) (le_kind e) (le_from_account_id e)
    (le_to_account_id e) (le_amount e) (le_reference e) (le_created_at_ms e).

Record WalletLedger := {
  wl_accounts : gmap WalletAccountId WalletAccount;
  wl_entries : gmap string LedgerEntry;
  wl_request_entries : gmap string string;
}.
#[export] Instance eta_WalletLedger : Eta WalletLedger := fun w =>
  Build_WalletLedger (wl_accounts w) (wl_entries w) (wl_request_entries w).

Definition empty_ledger : WalletLedger :=
  {| wl_accounts := ∅; wl_entries := ∅; wl_request_entries := ∅ |}.

Inductive WalletError :=
| InvalidAccountId
| DuplicateAccount (id : WalletAccountId)
| AccountNotFound (id : WalletAccountId)
| AccountFrozen (id : WalletAccountId)
| InvalidAmount
| SameAccountTransfer
| BalanceOverflow
| InsufficientFunds (account_id : WalletAccountId) (currency : string)
    (available_minor required_minor : Z)
| EntryNotFound (id : string)
| NotRefundable (id : string).
#[export] Instance WalletError_eq_dec : EqDecision WalletError.
Proof. solve_decision. Defined.

Definition normalize_currency (currency : string) : string := to_ascii_uppercase (trim currency).

Definition validate_amount (amount : Money) : result WalletError unit :=
  reject_if ((len (trim (money_currency amount)) <? 3) || (money_amount_minor amount <=? 0)) InvalidAmount.

(** [WalletAccount::balance] *)
Definition account_balance (a : WalletAccount) (currency : string) : Z :=
  default 0 (wa_balances_minor a !! normalize_currency currency).

Definition entry_for_request (w : WalletLedger) (request_id : string) : option LedgerEntry :=
  entry_id ← wl_request_entries w !! request_id; wl_entries w !! entry_id.

Definition insert_entry (entry : LedgerEntry) (w : WalletLedger) : WalletLedger :=
  w ⟪ wl_request_entries ::= <[le_request_id entry := le_id entry]> ⟫
    ⟪ wl_entries ::= <[le_id entry := entry]> ⟫.

(** [format!("ledger:{}", self.entries.len().saturating_add(1))] *)
Definition next_entry_id (w : WalletLedger) : string :=
  "ledger:" +:+ display (saturating_add_u64 (Z.of_nat (size (wl_entries w))) 1).

Definition create_account (w : WalletLedger) (id : WalletAccountId) (owner_id : ActorId) (now_ms : Z) :
    WalletLedger * result WalletError unit :=
  if blank (wallet_account_id_0 id) then (w, Err InvalidAccountId)
  else if contains_key id (wl_accounts w) then (w, Err (DuplicateAccount id))
  else
    (w ⟪ wl_accounts ::= <[id := {| wa_id := id; wa_owner_id := owner_id; wa_balances_minor := ∅;
                                    wa_frozen := false; wa_created_at_ms := now_ms;
                                    wa_updated_at_ms := now_ms |}]> ⟫, Ok tt).

(** [*balances.entry(currency).or_default() = v] and the time stamp *)
Definition set_balance (currency : string) (v : Z) (a : WalletAccount) : WalletAccount :=
  a ⟪ wa_balances_minor ::= <[currency := v]> ⟫.
Definition touch (now_ms : Z) (a : WalletAccount) : WalletAccount := a ⟪ wa_updated_at_ms := now_ms ⟫.
Definition put_account (id : WalletAccountId) (a : WalletAccount) (w : WalletLedger) : WalletLedger :=
  w ⟪ wl_accounts ::= <[id := a]> ⟫.

Definition credit (w : WalletLedger) (request_id : string) (account_id : WalletAccountId)
    (amount : Money) (reference : option string) (now_ms : Z) :
    WalletLedger * result WalletError LedgerEntry :=
  match entry_for_request w request_id with
  | Some existing => (w, Ok existing)
  | None =>
      match validate_amount amount with
      | Err e => (w, Err e)
      | Ok _ =>
          match wl_accounts w !! account_id with
          | None => (w, Err (AccountNotFound account_id))
          | Some account =>
              if wa_frozen account then (w, Err (AccountFrozen account_id))
              else
                let currency := normalize_currency (money_currency amount) in
                let balance := default 0 (wa_balances_minor account !! currency) in
                match checked_add_i64 balance (money_amount_minor amount) with
                | None => (put_account account_id (set_balance currency balance account) w,
                           Err BalanceOverflow)
                | Some balance' =>
                    let w' := put_account account_id
                                (touch now_ms (set_balance currency balance' account)) w in
                    let entry := {|
                      le_id := next_entry_id w;
                      le_request_id := request_id;
                      le_kind := Credit;
                      le_from_account_id := None;
                      le_to_account_id := Some account_id;
                      le_amount := {| money_currency := currency;
                                      money_amount_minor := money_amount_minor amount |};
                      le_reference := reference;
                      le_created_at_ms := now_ms |} in
                    (insert_entry entry w', Ok entry)
                end
          end
      end
  end.

(** The checks of [transfer] before any balance moves: the currency and the
    source and destination accounts. *)
Definition transfer_checks (w : WalletLedger) (from_account_id to_account_id : WalletAccountId)
    (amount : Money) : result WalletError (string * WalletAccount * WalletAccount) :=
  validate_amount amount ;;
  reject_if (eqb from_account_id to_account_id) SameAccountTransfer ;;
  let currency := normalize_currency (money_currency amount) in
  from ← ok_or (wl_accounts w !! from_account_id) (AccountNotFound from_account_id);
  let debit_balance := account_balance from currency in
  reject_if (wa_frozen from) (AccountFrozen from_account_id) ;;
  to ← ok_or (wl_accounts w !! to_account_id) (AccountNotFound to_account_id);
  reject_if (wa_frozen to) (AccountFrozen to_account_id) ;;
  reject_if (debit_balance <? money_amount_minor amount)
    (InsufficientFunds from_account_id currency debit_balance (money_amount_minor amount)) ;;
  Ok (currency, from, to).

Definition transfer (w : WalletLedger) (request_id : string)
    (from_account_id to_account_id : WalletAccountId) (amount : Money)
    (reference : option string) (now_ms : Z) : WalletLedger * result WalletError LedgerEntry :=
  match entry_for_request w request_id with
  | Some existing => (w, Ok existing)
  | None =>
      match transfer_checks w from_account_id to_account_id amount with
      | Err e => (w, Err e)
      | Ok (currency, from, to) =>
          let from_balance := default 0 (wa_balances_minor from !! currency) in
          match checked_sub_i64 from_balance (money_amount_minor amount) with
          | None => (put_account from_account_id (set_balance currency from_balance from) w,
                     Err BalanceOverflow)
          | Some from_balance' =>
              (* the debit is done before the credit is checked *)
              let w1 := put_account from_account_id
                          (touch now_ms (set_balance currency from_balance' from)) w in
              let to_balance := default 0 (wa_balances_minor to !! currency) in
              match checked_add_i64 to_balance (money_amount_minor amount) with
              | None => (put_account to_account_id (set_balance currency to_balance to) w1,
                         Err BalanceOverflow)
              | Some to_balance' =>
                  let w2 := put_account to_account_id
                              (touch now_ms (set_balance currency to_balance' to)) w1 in
                  let entry := {|
                    le_id := next_entry_id w;
                    le_request_id := request_id;
                    le_kind := Transfer;
                    le_from_account_id := Some from_account_id;
                    le_to_account_id := Some to_account_id;
                    le_amount := {| money_currency := currency;
                                    money_amount_minor := money_amount_minor amount |};
                    le_reference := reference;
                    le_created_at_ms := now_ms |} in
                  (insert_entry entry w2, Ok entry)
              end
          end
      end
  end.

(** The checks of [refund_transfer] on the original entry. *)
Definition refundable_entry (w : WalletLedger) (original_entry_id : string) :
    result WalletError (WalletAccountId * WalletAccountId * Money) :=
  original ← ok_or (wl_entries w !! original_entry_id) (EntryNotFound original_entry_id);
  reject_if (negb (eqb (le_kind original) Transfer)) (NotRefundable original_entry_id) ;;
  original_from ← ok_or (le_from_account_id original) (NotRefundable original_entry_id);
  original_to ← ok_or (le_to_account_id original) (NotRefundable original_entry_id);
  Ok (original_from, original_to, le_amount original).

Definition refund_transfer (w : WalletLedger) (request_id original_entry_id : string) (now_ms : Z) :
    WalletLedger * result WalletError LedgerEntry :=
  match entry_for_request w request_id with
  | Some existing => (w, Ok existing)
  | None =>
      match refundable_entry w original_entry_id with
      | Err e => (w, Err e)
      | Ok (original_from, original_to, amount) =>
          match transfer w request_id original_to original_from amount
                  (Some ("refund:" +:+ original_entry_id)) now_ms with
          | (w', Err e) => (w', Err e)
          | (w', Ok entry) =>
              let entry := entry ⟪ le_kind := Refund ⟫ in
              (w' ⟪ wl_entries ::= <[le_id entry := entry]> ⟫, Ok entry)
          end
      end
  end.

Definition freeze (w : WalletLedger) (account_id : WalletAccountId) (frozen : bool) :
    WalletLedger * result WalletError unit :=
  match wl_accounts w !! account_id with
  | None => (w, Err (AccountNotFound account_id))
  | Some account => (put_account account_id (account ⟪ wa_frozen := frozen ⟫) w, Ok tt)
  end.

(** ** What the ledger means

    [posted] is what the journal says an account holds; [supply] is the
    money of a currency over all accounts. *)

Definition entry_delta (id : WalletAccountId) (currency : string) (e : LedgerEntry) : Z :=
  if eqb (money_currency (le_amount e)) currency then
    (if eqb (le_to_account_id e) (Some id) then money_amount_minor (le_amount e) else 0)
    - (if eqb (le_from_account_id e) (Some id) then money_amount_minor (le_amount e) else 0)
  else 0.

Definition posted (w : WalletLedger) (id : WalletAccountId) (currency : string) : Z :=
  map_sum (fun _ e => entry_delta id currency e) (wl_entries w).

Definition held (a : WalletAccount) (currency : string) : Z := default 0 (wa_balances_minor a !! currency).

Definition supply (w : WalletLedger) (currency : string) : Z :=
  map_sum (fun _ a => held a currency) (wl_accounts w).

(** Well-formed ledgers: double-entry bookkeeping. *)
Record ledger_wf (w : WalletLedger) : Prop := {
  lw_keyed : forall id a, wl_accounts w !! id = Some a -> wa_id a = id;
  lw_balance : forall id a c b, wl_accounts w !! id = Some a -> wa_balances_minor a !! c = Some b ->
    0 <= b <= i64_max /\ normalize_currency c = c;
  lw_posted : forall id a c, wl_accounts w !! id = Some a -> held a c = posted w id c;
  lw_entry : forall k e, wl_entries w !! k = Some e -> le_id e = k;
  lw_numbered : forall k e, wl_entries w !! k = Some e ->
    exists n, k = "ledger:" +:+ display n /\ 1 <= n <= Z.of_nat (size (wl_entries w));
  lw_indexed : forall k e, wl_entries w !! k = Some e -> wl_request_entries w !! le_request_id e = Some k;
  lw_request : forall r k, wl_request_entries w !! r = Some k ->
    exists e, wl_entries w !! k = Some e /\ le_request_id e = r;
  lw_parties : forall k e id, wl_entries w !! k = Some e ->
    le_to_account_id e = Some id \/ le_from_account_id e = Some id -> is_Some (wl_accounts w !! id);
  lw_amount : forall k e, wl_entries w !! k = Some e ->
    0 < money_amount_minor (le_amount e) <= i64_max;
}.

Lemma normalize_currency_idem (c : string) : normalize_currency (normalize_currency c) = normalize_currency c.
Proof. unfold normalize_currency. by rewrite trim_upper, trim_idem, to_ascii_uppercase_idem. Qed.

Lemma string_app_inj (p a b : string) : p +:+ a = p +:+ b -> a = b.
Proof. induction p as [|x p IH]; simpl; [done|]. intros [= H]. by apply IH. Qed.

Lemma entry_for_request_none w r :
  ledger_wf w -> entry_for_request w r = None -> wl_request_entries w !! r = None.
Proof.
  intros Hwf. unfold entry_for_request. destruct (wl_request_entries w !! r) as [k|] eqn:E; [|done].
  destruct (lw_request _ Hwf _ _ E) as (e & He & _). simpl. by rewrite He.
Qed.

(** Journal entries are never overwritten: the next identifier is new. *)
Lemma next_entry_id_eq w :
  Z.of_nat (size (wl_entries w)) < u64_max ->
  next_entry_id w = "ledger:" +:+ display (Z.of_nat (size (wl_entries w)) + 1).
Proof.
  intros H. unfold next_entry_id, saturating_add_u64, clamp.
  do 2 f_equal. unfold u64_max in *. lia.
Qed.

Lemma next_entry_id_fresh w :
  ledger_wf w -> Z.of_nat (size (wl_entries w)) < u64_max -> wl_entries w !! next_entry_id w = None.
Proof.
  intros Hwf Hsize. destruct (wl_entries w !! next_entry_id w) as [e|] eqn:E; [|done].
  destruct (lw_numbered _ Hwf _ _ E) as (n & Hn & Hr).
  rewrite next_entry_id_eq in Hn by done. apply string_app_inj, display_inj in Hn. lia.
Qed.

(** How an operation that posts one entry keeps the ledger well formed: the
    accounts move by exactly what the entry says. *)
Section post.
Variable w : WalletLedger.
Variable accounts : gmap WalletAccountId WalletAccount.
Variable e : LedgerEntry.
Hypothesis Hwf : ledger_wf w.
Hypothesis Hsize : Z.of_nat (size (wl_entries w)) < u64_max.
Hypothesis Hnew : entry_for_request w (le_request_id e) = None.
Hypothesis Hid : le_id e = next_entry_id w.
Hypothesis Hamount : 0 < money_amount_minor (le_amount e) <= i64_max.
Hypothesis Haccounts : forall id a', accounts !! id = Some a' ->
  exists a, wl_accounts w !! id = Some a /\ wa_id a' = id
    /\ (forall c, held a' c = held a c + entry_delta id c e)
    /\ (forall c b, wa_balances_minor a' !! c = Some b -> 0 <= b <= i64_max /\ normalize_currency c = c).
Hypothesis Hkept : forall id, is_Some (wl_accounts w !! id) -> is_Some (accounts !! id).
Hypothesis Hparties : forall id, le_to_account_id e = Some id \/ le_from_account_id e = Some id ->
  is_Some (wl_accounts w !! id).

Definition posted_ledger : WalletLedger := insert_entry e (w ⟪ wl_accounts := accounts ⟫).

Lemma posted_entries : wl_entries posted_ledger = <[le_id e := e]> (wl_entries w).
Proof. reflexivity. Qed.
Lemma posted_requests : wl_request_entries posted_ledger = <[le_request_id e := le_id e]> (wl_request_entries w).
Proof. reflexivity. Qed.
Lemma posted_accounts : wl_accounts posted_ledger = accounts.
Proof. reflexivity. Qed.

Lemma post_fresh : wl_entries w !! le_id e = None.
Proof. rewrite Hid. by apply next_entry_id_fresh. Qed.

Lemma post_size : Z.of_nat (size (wl_entries posted_ledger)) = Z.of_nat (size (wl_entries w)) + 1.
Proof. rewrite posted_entries, map_size_insert_None by apply post_fresh. lia. Qed.

Lemma post_posted id c : posted posted_ledger id c = posted w id c + entry_delta id c e.
Proof. unfold posted. rewrite posted_entries, map_sum_insert_new by apply post_fresh. lia. Qed.

Lemma post_lookup k e' : wl_entries posted_ledger !! k = Some e' ->
  (k = le_id e /\ e' = e) \/ (k <> le_id e /\ wl_entries w !! k = Some e').
Proof. rewrite posted_entries, lookup_insert. case_decide; naive_solver. Qed.

Lemma post_wf : ledger_wf posted_ledger.
Proof.
  split.
  - intros id a Ha. rewrite posted_accounts in Ha. by destruct (Haccounts _ _ Ha) as (? & ? & ? & ?).
  - intros id a c b Ha Hb. rewrite posted_accounts in Ha.
    destruct (Haccounts _ _ Ha) as (? & ? & ? & ? & Hbal). by apply Hbal.
  - intros id a c Ha. rewrite posted_accounts in Ha.
    destruct (Haccounts _ _ Ha) as (a0 & Ha0 & ? & Hheld & _).
    rewrite post_posted, Hheld. f_equal. by apply (lw_posted _ Hwf).
  - intros k e' [[-> ->]|[_ Hk]]%post_lookup; [done|]. by apply (lw_entry _ Hwf).
  - intros k e' Hk. rewrite post_size.
    apply post_lookup in Hk as [[-> ->]|[_ (n & ? & ?)%(lw_numbered _ Hwf)]].
    + exists (Z.of_nat (size (wl_entries w)) + 1). rewrite Hid, next_entry_id_eq by done.
      split; [done|lia].
    + exists n. split; [done|lia].
  - intros k e' Hk. rewrite posted_requests.
    apply post_lookup in Hk as [[-> ->]|[Hne Hk]]; [apply lookup_insert_eq|].
    pose proof (lw_indexed _ Hwf _ _ Hk) as Hi. rewrite lookup_insert_ne; [done|].
    intros Heq. rewrite <- Heq in Hi. by rewrite (entry_for_request_none _ _ Hwf Hnew) in Hi.
  - intros r k Hr. rewrite posted_requests in Hr. rewrite posted_entries.
    apply lookup_insert_Some in Hr as [[<- <-]|[Hne Hr]].
    + exists e. split; [apply lookup_insert_eq | done].
    + destruct (lw_request _ Hwf _ _ Hr) as (e' & He' & <-). exists e'. split; [|done].
      rewrite lookup_insert_ne; [done|]. intros Heq. rewrite <- Heq in He'.
      by rewrite post_fresh in He'.
  - intros k e' id Hk Hp. rewrite posted_accounts. apply Hkept.
    apply post_lookup in Hk as [[-> ->]|[_ Hk]]; [by apply Hparties|].
    by apply (lw_parties _ Hwf _ _ _ Hk).
  - intros k e' [[-> ->]|[_ Hk]]%post_lookup; [done|]. by apply (lw_amount _ Hwf _ _ Hk).
Qed.

Lemma post_supply c :
  supply posted_ledger c = supply w c
    + map_sum (fun id _ => entry_delta id c e) (wl_accounts w).
Proof.
  unfold supply. rewrite posted_accounts.
  assert (map_sum (fun id a => held a c + entry_delta id c e) (wl_accounts w)
    = map_sum (fun _ a => held a c) (wl_accounts w)
      + map_sum (fun id _ => entry_delta id c e) (wl_accounts w)) as <-.
  { generalize (wl_accounts w) as m. intros m. induction m as [|k v m Hk IH] using map_ind; [done|].
    rewrite !map_sum_insert_new by done. lia. }
  apply map_sum_rel. intros id.
  destruct (accounts !! id) as [a'|] eqn:Ea'.
  - destruct (Haccounts _ _ Ea') as (a & -> & _ & Hheld & _). apply Hheld.
  - destruct (wl_accounts w !! id) eqn:Ea; [|done].
    destruct (Hkept id) as [? ?]; [by eexists | congruence].
Qed.
End post.

(** The money an entry creates: a credit its amount, a transfer nothing. *)
Lemma entry_delta_total (accounts : gmap WalletAccountId WalletAccount) (e : LedgerEntry) (c : string) :
  (forall id, le_to_account_id e = Some id \/ le_from_account_id e = Some id -> is_Some (accounts !! id)) ->
  map_sum (fun id _ => entry_delta id c e) accounts =
    if eqb (money_currency (le_amount e)) c then
      (if le_to_account_id e then money_amount_minor (le_amount e) else 0)
      - (if le_from_account_id e then money_amount_minor (le_amount e) else 0)
    else 0.
Proof.
  intros Hex. unfold entry_delta. destruct (eqb (money_currency (le_amount e)) c);
    [|by apply map_sum_zero].
  assert (forall o : option WalletAccountId, (forall id, o = Some id -> is_Some (accounts !! id)) ->
    map_sum (fun id _ => if eqb o (Some id) then money_amount_minor (le_amount e) else 0) accounts
    = if o then money_amount_minor (le_amount e) else 0) as Hone.
  { intros [k|] Ho; [|by apply map_sum_zero].
    destruct (Ho k eq_refl) as [v Hv].
    etransitivity; [|exact (map_sum_single k v (money_amount_minor (le_amount e)) accounts Hv)].
    apply map_sum_ext. intros j w _. unfold eqb.
    by rewrite (bool_decide_ext (Some k = Some j) (k = j)) by naive_solver. }
  rewrite map_sum_sub, !Hone; [done|..]; intros id Hid; apply Hex; auto.
Qed.

(** ** The operations keep the ledger well formed *)

Lemma held_set_balance (currency c : string) (v : Z) (a : WalletAccount) :
  held (set_balance currency v a) c = if decide (currency = c) then v else held a c.
Proof. unfold held, set_balance. fields. rewrite lookup_insert. by case_decide. Qed.

Lemma held_touch now a c : held (touch now a) c = held a c.
Proof. done. Qed.

Lemma held_range w id a c : ledger_wf w -> wl_accounts w !! id = Some a -> 0 <= held a c <= i64_max.
Proof.
  intros Hwf Ha. unfold held. destruct (wa_balances_minor a !! c) as [b|] eqn:E; simpl; [|done].
  by eapply lw_balance.
Qed.

Lemma set_balance_ok w id a currency v c b :
  ledger_wf w -> wl_accounts w !! id = Some a -> 0 <= v <= i64_max ->
  normalize_currency currency = currency ->
  wa_balances_minor (set_balance currency v a) !! c = Some b ->
  0 <= b <= i64_max /\ normalize_currency c = c.
Proof.
  intros Hwf Ha Hv Hn. unfold set_balance. fields.
  intros [[<- <-]|[_ Hb]]%lookup_insert_Some; [done|]. by eapply lw_balance.
Qed.

Lemma account_balance_held (a : WalletAccount) (c : string) :
  account_balance a (normalize_currency c) = held a (normalize_currency c).
Proof. unfold account_balance, held. by rewrite normalize_currency_idem. Qed.

Lemma transfer_checks_ok w x y amount currency a b :
  transfer_checks w x y amount = Ok (currency, a, b) ->
  currency = normalize_currency (money_currency amount) /\ x <> y /\
  wl_accounts w !! x = Some a /\ wl_accounts w !! y = Some b /\
  wa_frozen a = false /\ wa_frozen b = false /\
  0 < money_amount_minor amount <= held a currency.
Proof.
  unfold transfer_checks, validate_amount. intros H. oks. simplify_eq.
  rewrite account_balance_held in *. unfold eqb in *. case_bool_decide; [done|].
  split_and!; try done; lia.
Qed.

(** What a transfer that posts an entry does to the accounts. *)
Lemma transfer_posts w r x y amount reference now w' e :
  entry_for_request w r = None -> transfer w r x y amount reference now = (w', Ok e) ->
  exists currency a b, transfer_checks w x y amount = Ok (currency, a, b) /\
    held b currency + money_amount_minor amount <= i64_max /\
    e = {| le_id := next_entry_id w; le_request_id := r; le_kind := Transfer;
           le_from_account_id := Some x; le_to_account_id := Some y;
           le_amount := {| money_currency := currency; money_amount_minor := money_amount_minor amount |};
           le_reference := reference; le_created_at_ms := now |} /\
    w' = posted_ledger w
      (<[y := touch now (set_balance currency (held b currency + money_amount_minor amount) b)]>
       (<[x := touch now (set_balance currency (held a currency - money_amount_minor amount) a)]>
        (wl_accounts w))) e.
Proof.
  intros Hnew. unfold transfer. rewrite Hnew.
  destruct (transfer_checks w x y amount) as [[[currency a] b]|] eqn:Hc; [|done].
  unfold checked_sub_i64, checked_add_i64.
  destruct (checked in_i64 (_ - _)) as [fb|] eqn:E1; [|done].
  destruct (checked in_i64 (_ + _)) as [tb|] eqn:E2; [|done].
  apply checked_spec in E1 as [-> _]. apply checked_spec in E2 as [-> E2%in_i64_spec].
  intros [= <- <-]. exists currency, a, b. split_and!; try done. apply E2.
Qed.

Lemma credit_posts w r x amount reference now w' e :
  entry_for_request w r = None -> credit w r x amount reference now = (w', Ok e) ->
  exists a, let currency := normalize_currency (money_currency amount) in
    wl_accounts w !! x = Some a /\ wa_frozen a = false /\ 0 < money_amount_minor amount /\
    held a currency + money_amount_minor amount <= i64_max /\
    e = {| le_id := next_entry_id w; le_request_id := r; le_kind := Credit;
           le_from_account_id := None; le_to_account_id := Some x;
           le_amount := {| money_currency := currency; money_amount_minor := money_amount_minor amount |};
           le_reference := reference; le_created_at_ms := now |} /\
    w' = posted_ledger w
      (<[x := touch now (set_balance currency (held a currency + money_amount_minor amount) a)]>
        (wl_accounts w)) e.
Proof.
  intros Hnew. unfold credit. rewrite Hnew. unfold validate_amount, reject_if.
  destruct (_ || _) eqn:Hv; [done|]. apply orb_false_iff in Hv as [_ Hv].
  destruct (wl_accounts w !! x) as [a|] eqn:Ha; [|done].
  destruct (wa_frozen a) eqn:Hf; [done|].
  unfold checked_add_i64. destruct (checked in_i64 _) as [b|] eqn:E; [|done].
  apply checked_spec in E as [-> E%in_i64_spec]. intros [= <- <-].
  exists a. split_and!; try done; [lia | apply E].
Qed.

Lemma entry_delta_fields id c e :
  entry_delta id c e =
    if decide (money_currency (le_amount e) = c) then
      (if decide (le_to_account_id e = Some id) then money_amount_minor (le_amount e) else 0)
      - (if decide (le_from_account_id e = Some id) then money_amount_minor (le_amount e) else 0)
    else 0.
Proof. unfold entry_delta, eqb. by repeat case_decide; repeat case_bool_decide. Qed.

(** ** Operations as postings *)

(** The accounts [accounts] are those of [w] after posting the new entry [e]. *)
Record posting (w : WalletLedger) (accounts : gmap WalletAccountId WalletAccount) (e : LedgerEntry) : Prop := {
  po_new : entry_for_request w (le_request_id e) = None;
  po_id : le_id e = next_entry_id w;
  po_amount : 0 < money_amount_minor (le_amount e) <= i64_max;
  po_accounts : forall id a', accounts !! id = Some a' ->
    exists a, wl_accounts w !! id = Some a /\ wa_id a' = id
      /\ (forall c, held a' c = held a c + entry_delta id c e)
      /\ (forall c b, wa_balances_minor a' !! c = Some b -> 0 <= b <= i64_max /\ normalize_currency c = c);
  po_kept : forall id, is_Some (wl_accounts w !! id) -> is_Some (accounts !! id);
  po_parties : forall id, le_to_account_id e = Some id \/ le_from_account_id e = Some id ->
    is_Some (wl_accounts w !! id);
}.

Definition posts (w w' : WalletLedger) (e : LedgerEntry) : Prop :=
  exists accounts, posting w accounts e /\ w' = posted_ledger w accounts e.

Definition room (w : WalletLedger) : Prop := Z.of_nat (size (wl_entries w)) < u64_max.

(** An account after its balance in one currency moved by what [e] says. *)
Lemma moved_account w id a e currency v now :
  ledger_wf w -> wl_accounts w !! id = Some a -> money_currency (le_amount e) = normalize_currency currency ->
  v = held a (normalize_currency currency) + entry_delta id (normalize_currency currency) e -> 0 <= v <= i64_max ->
  exists a0, wl_accounts w !! id = Some a0
    /\ wa_id (touch now (set_balance (normalize_currency currency) v a)) = id
    /\ (forall c, held (touch now (set_balance (normalize_currency currency) v a)) c = held a0 c + entry_delta id c e)
    /\ (forall c b, wa_balances_minor (touch now (set_balance (normalize_currency currency) v a)) !! c = Some b ->
          0 <= b <= i64_max /\ normalize_currency c = c).
Proof.
  intros Hwf Ha Hc Hv Hr. exists a. split_and!; [done | exact (lw_keyed _ Hwf _ _ Ha) | |].
  - intros c. rewrite held_touch, held_set_balance. case_decide as Hcase; [by subst|].
    rewrite entry_delta_fields, Hc. case_decide; [done|lia].
  - intros c b. apply (set_balance_ok w id); try done. apply normalize_currency_idem.
Qed.

(** An account the entry does not name. *)
Lemma unmoved_account w id a e :
  ledger_wf w -> wl_accounts w !! id = Some a ->
  le_to_account_id e <> Some id -> le_from_account_id e <> Some id ->
  exists a0, wl_accounts w !! id = Some a0 /\ wa_id a = id
    /\ (forall c, held a c = held a0 c + entry_delta id c e)
    /\ (forall c b, wa_balances_minor a !! c = Some b -> 0 <= b <= i64_max /\ normalize_currency c = c).
Proof.
  intros Hwf Ha Ht Hf. exists a. split_and!; [done | by eapply lw_keyed | |].
  - intros c. rewrite entry_delta_fields. repeat case_decide; done || lia.
  - intros c b Hb. by eapply lw_balance.
Qed.

Lemma credit_posting w r x amount reference now w' e :
  ledger_wf w -> entry_for_request w r = None -> credit w r x amount reference now = (w', Ok e) -> posts w w' e.
Proof.
  intros Hwf Hr (a & Ha & Hf & Hpos & Hmax & He & ->)%credit_posts; [|done].
  pose proof (held_range _ _ _ (normalize_currency (money_currency amount)) Hwf Ha).
  eexists; split; [|reflexivity]. split; subst e; simpl; try done; [lia | | |].
  - intros id a'. rewrite lookup_insert. case_decide as Hx.
    + subst x. intros [= <-]. apply moved_account; [done..| |lia].
      rewrite entry_delta_fields; simpl. repeat case_decide; done || lia.
    + intros Ha'. apply unmoved_account; naive_solver.
  - intros id [a' Ha']. rewrite lookup_insert. case_decide; by eexists.
  - intros id [[= <-]|[=]]. by eexists.
Qed.

(** The same for a transfer, whatever kind the entry is given. *)
Lemma transfer_posting w r x y amount reference now w' e k :
  ledger_wf w -> entry_for_request w r = None -> transfer w r x y amount reference now = (w', Ok e) ->
  posts w (w' ⟪ wl_entries ::= <[le_id e := e ⟪ le_kind := k ⟫]> ⟫) (e ⟪ le_kind := k ⟫).
Proof.
  intros Hwf Hr (currency & a & b & Hc & Hmax & He & ->)%transfer_posts; [|done].
  apply transfer_checks_ok in Hc as (-> & Hxy & Ha & Hb & Hfa & Hfb & Hamt).
  pose proof (held_range _ _ _ (normalize_currency (money_currency amount)) Hwf Ha).
  pose proof (held_range _ _ _ (normalize_currency (money_currency amount)) Hwf Hb).
  eexists; split; [|unfold posted_ledger, insert_entry; unfold field_update; simpl; by rewrite insert_insert_eq].
  subst e; split; fields; simpl; try done; [lia | | |].
  - intros id a'. rewrite !lookup_insert. case_decide as Hy; [|case_decide as Hx].
    + subst id. intros [= <-]. apply moved_account; [done..| |lia].
      rewrite entry_delta_fields; fields; simpl. repeat case_decide; simplify_eq; lia.
    + subst id. intros [= <-]. apply moved_account; [done..| |lia].
      rewrite entry_delta_fields; fields; simpl. repeat case_decide; simplify_eq; lia.
    + intros Ha'. apply unmoved_account; fields; naive_solver.
  - intros id [a' Ha']. rewrite !lookup_insert. repeat case_decide; by eexists.
  - intros id [[= <-]|[= <-]]; by eexists.
Qed.

Lemma transfer_posting_plain w r x y amount reference now w' e :
  ledger_wf w -> entry_for_request w r = None -> transfer w r x y amount reference now = (w', Ok e) -> posts w w' e.
Proof.
  intros Hwf Hr H. pose proof (transfer_posting _ _ _ _ _ _ _ _ _ Transfer Hwf Hr H) as Hp.
  apply transfer_posts in H as (currency & a & b & Hc & Hmax & He & Hw'); [|done].
  assert (e ⟪ le_kind := Transfer ⟫ = e) as Hsame by (by subst e).
  rewrite Hsame in Hp. revert Hp. subst w'.
  unfold posted_ledger, insert_entry, field_update; simpl. by rewrite insert_insert_eq.
Qed.

Lemma refund_transfer_ok w r orig now w' e :
  entry_for_request w r = None -> refund_transfer w r orig now = (w', Ok e) ->
  exists o x y w1 e1, wl_entries w !! orig = Some o /\ le_kind o = Transfer /\
    le_from_account_id o = Some x /\ le_to_account_id o = Some y /\
    transfer w r y x (le_amount o) (Some ("refund:" +:+ orig)) now = (w1, Ok e1) /\
    e = e1 ⟪ le_kind := Refund ⟫ /\ w' = w1 ⟪ wl_entries ::= <[le_id e1 := e]> ⟫.
Proof.
  intros Hr. unfold refund_transfer. rewrite Hr.
  destruct (refundable_entry w orig) as [[[x y] m]|] eqn:Hq; [|done].
  unfold refundable_entry in Hq. oks. simplify_eq. unfold eqb in *. case_bool_decide; [|done].
  destruct (transfer _ _ _ _ _ _ _) as [w1 [e1|]] eqn:Ht; [|done].
  intros [= <- <-]. by eexists _, _, _, _, _.
Qed.

Lemma refund_posting w r orig now w' e :
  ledger_wf w -> entry_for_request w r = None -> refund_transfer w r orig now = (w', Ok e) -> posts w w' e.
Proof.
  intros Hwf Hr (o & x & y & w1 & e1 & _ & _ & _ & _ & Ht & -> & ->)%refund_transfer_ok; [|done].
  by eapply transfer_posting.
Qed.

(** ** What a posting does *)

Lemma posts_wf w w' e : ledger_wf w -> room w -> posts w w' e -> ledger_wf w'.
Proof. intros Hwf Hroom (accounts & [] & ->). by apply post_wf. Qed.

Lemma posts_size w w' e : ledger_wf w -> room w -> posts w w' e ->
  size (wl_entries w') = S (size (wl_entries w)).
Proof.
  intros Hwf Hroom (accounts & [] & ->).
  enough (Z.of_nat (size (wl_entries (posted_ledger w accounts e))) = Z.of_nat (size (wl_entries w)) + 1) by lia.
  by apply post_size.
Qed.

Lemma posts_supply w w' e c :
  ledger_wf w -> posts w w' e ->
  supply w' c = supply w c
    + (if eqb (money_currency (le_amount e)) c then
         (if le_to_account_id e then money_amount_minor (le_amount e) else 0)
         - (if le_from_account_id e then money_amount_minor (le_amount e) else 0)
       else 0).
Proof.
  intros Hwf (accounts & [] & ->). rewrite post_supply, entry_delta_total; done.
Qed.

Lemma posts_request w w' e : posts w w' e -> entry_for_request w' (le_request_id e) = Some e.
Proof.
  intros (accounts & Hpo & ->). unfold entry_for_request. rewrite posted_requests, lookup_insert_eq.
  cbn [mbind option_bind]. by rewrite posted_entries, lookup_insert_eq.
Qed.

Lemma posts_entry w w' e k e0 : ledger_wf w -> room w -> posts w w' e ->
  wl_entries w !! k = Some e0 -> wl_entries w' !! k = Some e0.
Proof.
  intros Hwf Hroom (accounts & Hpo & ->) Hk. rewrite posted_entries, lookup_insert_ne; [done|].
  intros Heq. rewrite (po_id _ _ _ Hpo) in Heq. subst k. by rewrite next_entry_id_fresh in Hk.
Qed.

Lemma posts_keeps_request w w' e r e0 : ledger_wf w -> room w -> posts w w' e ->
  entry_for_request w r = Some e0 -> entry_for_request w' r = Some e0.
Proof.
  intros Hwf Hroom Hp Hr. unfold entry_for_request in *.
  destruct (wl_request_entries w !! r) as [k|] eqn:Hk; simpl in *; [|done].
  assert (wl_request_entries w' !! r = Some k) as ->; simpl; [|by eapply posts_entry].
  destruct Hp as (accounts & Hpo & ->). rewrite posted_requests, lookup_insert_ne; [done|].
  intros <-. pose proof (po_new _ _ _ Hpo) as Hn. unfold entry_for_request in Hn.
  rewrite Hk in Hn. simpl in Hn. congruence.
Qed.

(** ** Balances *)

(** What an account holds, an account that does not exist holding nothing. *)
Definition balance (w : WalletLedger) (id : WalletAccountId) (currency : string) : Z :=
  default 0 ((fun a => held a currency) <$> wl_accounts w !! id).

Lemma posts_balance w w' e id c : ledger_wf w -> posts w w' e -> balance w' id c = balance w id c + entry_delta id c e.
Proof.
  intros Hwf (accounts & Hpo & ->). unfold balance. rewrite posted_accounts.
  destruct (accounts !! id) as [a'|] eqn:Ea'.
  - destruct (po_accounts _ _ _ Hpo _ _ Ea') as (a & -> & _ & Hh & _). simpl. apply Hh.
  - destruct (wl_accounts w !! id) as [a|] eqn:Ea.
    { destruct (po_kept _ _ _ Hpo id) as [? ?]; [by eexists|congruence]. }
    simpl. rewrite entry_delta_fields.
    assert (forall o, o = le_to_account_id e \/ o = le_from_account_id e -> o <> Some id) as Hno.
    { intros o Ho ->. destruct (po_parties _ _ _ Hpo id) as [? ?]; [naive_solver|congruence]. }
    rewrite !(decide_False (P := _ = Some id)) by auto. by case_decide.
Qed.

(** A posted entry names its currency in normal form. *)
Lemma transfer_entry w r x y amount reference now w' e :
  entry_for_request w r = None -> transfer w r x y amount reference now = (w', Ok e) ->
  le_kind e = Transfer /\ le_from_account_id e = Some x /\ le_to_account_id e = Some y /\ x <> y /\
  le_amount e = {| money_currency := normalize_currency (money_currency amount);
                   money_amount_minor := money_amount_minor amount |} /\
  0 < money_amount_minor amount <= balance w x (normalize_currency (money_currency amount)) /\
  le_id e = next_entry_id w /\ le_request_id e = r /\ wl_entries w' !! le_id e = Some e.
Proof.
  intros Hr (cur & a & b & Hc & _ & -> & ->)%transfer_posts; [|done].
  apply transfer_checks_ok in Hc as (-> & Hxy & Ha & _ & _ & _ & Hamt).
  split_and!; try done; unfold balance.
  - lia.
  - rewrite Ha. simpl. lia.
  - rewrite posted_entries. by rewrite lookup_insert_eq.
Qed.

(** A refund posts the opposite of the entry it refunds. *)
Lemma refund_opposite w r orig now w' e o :
  ledger_wf w -> entry_for_request w r = None -> wl_entries w !! orig = Some o ->
  normalize_currency (money_currency (le_amount o)) = money_currency (le_amount o) ->
  refund_transfer w r orig now = (w', Ok e) ->
  posts w w' e /\ forall id c, entry_delta id c e = - entry_delta id c o.
Proof.
  intros Hwf Hr Ho Hn H. split; [by eapply refund_posting|].
  apply refund_transfer_ok in H as (o' & x & y & w1 & e1 & Ho' & _ & Hx & Hy & Ht & -> & _); [|done].
  rewrite Ho in Ho'. injection Ho' as <-.
  apply transfer_entry in Ht as (_ & Hf1 & Ht1 & Hne & Ha1 & _); [|done]. intros id c.
  rewrite !entry_delta_fields. fields. rewrite Hf1, Ht1, Ha1, Hx, Hy. cbn [money_currency money_amount_minor].
  rewrite Hn. repeat case_decide; simplify_eq; lia.
Qed.

(** ** Runs of the ledger *)

Inductive ledger_op :=
| OpCreate (id : WalletAccountId) (owner_id : ActorId) (now_ms : Z)
| OpCredit (request_id : string) (account_id : WalletAccountId) (amount : Money)
    (reference : option string) (now_ms : Z)
| OpTransfer (request_id : string) (from_account_id to_account_id : WalletAccountId) (amount : Money)
    (reference : option string) (now_ms : Z)
| OpRefund (request_id original_entry_id : string) (now_ms : Z)
| OpFreeze (account_id : WalletAccountId) (frozen : bool).

Definition exec_op (op : ledger_op) (w : WalletLedger) : WalletLedger * result WalletError (option LedgerEntry) :=
  match op with
  | OpCreate id owner now => let '(w', r) := create_account w id owner now in (w', (fun _ => None) <$> r)
  | OpCredit r x m ref now => let '(w', res) := credit w r x m ref now in (w', Some <$> res)
  | OpTransfer r x y m ref now => let '(w', res) := transfer w r x y m ref now in (w', Some <$> res)
  | OpRefund r orig now => let '(w', res) := refund_transfer w r orig now in (w', Some <$> res)
  | OpFreeze x b => let '(w', r) := freeze w x b in (w', (fun _ => None) <$> r)
  end.

Definition op_request (op : ledger_op) : option string :=
  match op with
  | OpCredit r _ _ _ _ | OpTransfer r _ _ _ _ _ | OpRefund r _ _ => Some r
  | _ => None
  end.

(** One successful operation. *)
Definition ledger_step (w w' : WalletLedger) : Prop := exists op e, exec_op op w = (w', Ok e).

(** The accounts change without an entry: creation and freezing. *)
Record reshapes (w w' : WalletLedger) : Prop := {
  rs_entries : wl_entries w' = wl_entries w;
  rs_requests : wl_request_entries w' = wl_request_entries w;
  rs_held : forall id, match wl_accounts w !! id, wl_accounts w' !! id with
    | Some a, Some a' => wa_id a' = wa_id a /\ wa_balances_minor a' = wa_balances_minor a
    | None, Some a' => wa_id a' = id /\ wa_balances_minor a' = ∅
    | None, None => True
    | Some _, None => False
    end;
}.

Lemma create_account_reshapes w id owner now w' u :
  create_account w id owner now = (w', Ok u) -> reshapes w w'.
Proof.
  unfold create_account. destruct (blank _); [done|].
  destruct (contains_key _ _) eqn:Hk; [done|]. apply contains_key_false in Hk. intros [= <- _].
  split; [done..|]. intros k. fields. rewrite lookup_insert. case_decide as E; [by subst; rewrite Hk|].
  by destruct (wl_accounts w !! k).
Qed.

Lemma freeze_reshapes w x b w' u : freeze w x b = (w', Ok u) -> reshapes w w'.
Proof.
  unfold freeze. destruct (wl_accounts w !! x) as [a|] eqn:Ha; [|done]. intros [= <- _].
  split; [done..|]. intros k. unfold put_account. fields. rewrite lookup_insert.
  case_decide as E; [by subst; rewrite Ha|]. by destruct (wl_accounts w !! k).
Qed.

Lemma reshapes_posted w w' id c : reshapes w w' -> posted w' id c = posted w id c.
Proof. intros []. unfold posted. by rewrite rs_entries0. Qed.

(** An account no entry names holds nothing. *)
Lemma posted_absent w id c : ledger_wf w -> wl_accounts w !! id = None -> posted w id c = 0.
Proof.
  intros Hwf Hid. apply map_sum_zero. intros k e Hk. rewrite entry_delta_fields.
  assert (forall o, o = le_to_account_id e \/ o = le_from_account_id e -> o <> Some id) as Hno.
  { intros o Ho ->. destruct (lw_parties _ Hwf k e id Hk) as [? ?]; [naive_solver | congruence]. }
  rewrite !(decide_False (P := _ = Some id)) by auto. by case_decide.
Qed.

Lemma reshapes_wf w w' : ledger_wf w -> reshapes w w' -> ledger_wf w'.
Proof.
  intros Hwf Hr. pose proof Hr as [He Hq Ha]. split; rewrite ?He, ?Hq.
  - intros id a' H'. specialize (Ha id). rewrite H' in Ha.
    destruct (wl_accounts w !! id) eqn:E; [|naive_solver]. destruct Ha as [-> _]. by eapply lw_keyed.
  - intros id a' c b H' Hb. specialize (Ha id). rewrite H' in Ha.
    destruct (wl_accounts w !! id) eqn:E; destruct Ha as [_ Hbal]; rewrite Hbal in Hb; [|done].
    by eapply lw_balance.
  - intros id a' c H'. rewrite (reshapes_posted w w') by done. specialize (Ha id). rewrite H' in Ha.
    unfold held. destruct (wl_accounts w !! id) eqn:E; destruct Ha as [_ ->].
    + by eapply lw_posted.
    + by rewrite lookup_empty, posted_absent.
  - apply (lw_entry _ Hwf).
  - apply (lw_numbered _ Hwf).
  - apply (lw_indexed _ Hwf).
  - apply (lw_request _ Hwf).
  - intros k e id Hk Hp. destruct (lw_parties _ Hwf _ _ _ Hk Hp) as [a E].
    specialize (Ha id). rewrite E in Ha. by destruct (wl_accounts w' !! id).
  - apply (lw_amount _ Hwf).
Qed.

Lemma reshapes_supply w w' c : reshapes w w' -> supply w' c = supply w c.
Proof.
  intros [_ _ Ha]. unfold supply, held. apply map_sum_default. intros k. specialize (Ha k).
  destruct (wl_accounts w !! k), (wl_accounts w' !! k); simpl; try done; destruct Ha as [_ ->]; [done|].
  by rewrite lookup_empty.
Qed.

(** Every successful operation reshapes the accounts, repeats an answered
    request, or posts one entry for its request. *)
Lemma exec_op_cases op w w' o :
  ledger_wf w -> exec_op op w = (w', Ok o) ->
  (op_request op = None /\ o = None /\ reshapes w w')
  \/ (exists r e, op_request op = Some r /\ o = Some e /\ entry_for_request w r = Some e /\ w' = w)
  \/ (exists r e, op_request op = Some r /\ o = Some e /\ le_request_id e = r
        /\ entry_for_request w r = None /\ posts w w' e).
Proof.
  intros Hwf. destruct op as [id owner now|r x m ref now|r x y m ref now|r orig now|x b]; simpl.
  - destruct (create_account w id owner now) as [w1 [u|]] eqn:E; intros [= <- <-].
    left. eauto using create_account_reshapes.
  - destruct (credit w r x m ref now) as [w1 [e|]] eqn:E; intros [= <- <-]. right.
    destruct (entry_for_request w r) as [e0|] eqn:Hr.
    + left. unfold credit in E. rewrite Hr in E. injection E as <- <-. eauto 6.
    + right. eexists _, _. split_and!; eauto using credit_posting.
      apply credit_posts in E as (? & _ & _ & _ & _ & -> & _); done.
  - destruct (transfer w r x y m ref now) as [w1 [e|]] eqn:E; intros [= <- <-]. right.
    destruct (entry_for_request w r) as [e0|] eqn:Hr.
    + left. unfold transfer in E. rewrite Hr in E. injection E as <- <-. eauto 6.
    + right. eexists _, _. split_and!; eauto using transfer_posting_plain.
      apply transfer_posts in E as (? & ? & ? & _ & _ & -> & _); done.
  - destruct (refund_transfer w r orig now) as [w1 [e|]] eqn:E; intros [= <- <-]. right.
    destruct (entry_for_request w r) as [e0|] eqn:Hr.
    + left. unfold refund_transfer in E. rewrite Hr in E. injection E as <- <-. eauto 6.
    + right. eexists _, _. split_and!; eauto using refund_posting.
      apply refund_transfer_ok in E as (o & ? & ? & ? & e1 & _ & _ & _ & _ & Ht & -> & _); [|done].
      apply transfer_posts in Ht as (? & ? & ? & _ & _ & -> & _); done.
  - destruct (freeze w x b) as [w1 [u|]] eqn:E; intros [= <- <-]. left. eauto using freeze_reshapes.
Qed.

Lemma ledger_wf_empty : ledger_wf empty_ledger.
Proof. split; simpl; intros *; try (by rewrite lookup_empty); intros H; by rewrite lookup_empty in H. Qed.

Lemma ledger_step_wf w w' : ledger_wf w -> room w -> ledger_step w w' ->
  ledger_wf w' /\ Z.of_nat (size (wl_entries w')) <= Z.of_nat (size (wl_entries w)) + 1.
Proof.
  intros Hwf Hroom (op & o & H). apply exec_op_cases in H as
    [(_ & _ & Hr)|[(r & e & _ & _ & _ & ->)|(r & e & _ & _ & _ & _ & Hp)]]; [..|done].
  - split; [by eapply reshapes_wf|]. rewrite (rs_entries _ _ Hr). lia.
  - split; [done|lia].
  - split; [by eapply posts_wf|]. rewrite (posts_size w w' e) by done. lia.
Qed.

Lemma ledger_run_wf n w w' :
  ledger_wf w -> Z.of_nat (size (wl_entries w)) + Z.of_nat n <= u64_max -> nsteps ledger_step n w w' ->
  ledger_wf w' /\ Z.of_nat (size (wl_entries w')) <= Z.of_nat (size (wl_entries w)) + Z.of_nat n.
Proof.
  intros Hwf Hn Hs. revert Hwf Hn. induction Hs as [w|n w1 w2 w3 H12 _ IH]; intros Hwf Hn; [split; [done|lia]|].
  apply ledger_step_wf in H12 as [Hwf2 Hsize]; [|done|unfold room; lia].
  destruct IH as [? ?]; [done|lia|]. split; [done|lia].
Qed.

(** ** Properties *)

(** Double-entry bookkeeping.  After any sequence of successful account
    creations, credits, transfers, refunds and freezes on an empty ledger,
    every balance of every account is exactly what the journal's entries post
    to it, is not negative and fits in an [i64]. *)
Theorem ledger_balances_are_posted (n : nat) (w : WalletLedger) :
  nsteps ledger_step n empty_ledger w -> Z.of_nat n <= u64_max ->
  forall id a currency, wl_accounts w !! id = Some a ->
    account_balance a currency = posted w id (normalize_currency currency)
    /\ 0 <= account_balance a currency <= i64_max.
Proof.
  intros Hrun Hn id a currency Ha.
  destruct (ledger_run_wf n empty_ledger w ledger_wf_empty Hn Hrun) as [Hwf _].
  change (account_balance a currency) with (held a (normalize_currency currency)).
  split; [by eapply lw_posted | by eapply held_range].
Qed.

(** What an operation does to the money in circulation. *)
Lemma exec_op_supply (op : ledger_op) (w w' : WalletLedger) (o : option LedgerEntry) (c : string) :
  ledger_wf w -> exec_op op w = (w', Ok o) ->
  supply w' c = supply w c +
    match op with
    | OpCredit r _ m _ _ =>
        if entry_for_request w r then 0
        else if eqb (normalize_currency (money_currency m)) c then money_amount_minor m else 0
    | _ => 0
    end.
Proof.
  intros Hwf H. destruct (exec_op_cases _ _ _ _ Hwf H) as
    [(Hop & _ & Hr)|[(r & e & Hop & _ & Hr & ->)|(r & e & Hop & -> & Hre & Hr & Hp)]].
  - rewrite (reshapes_supply w w') by done. destruct op; done || lia.
  - destruct op; try lia. simpl in Hop. injection Hop as ->. rewrite Hr. lia.
  - rewrite (posts_supply w w' e) by done.
    destruct op; simpl in Hop, H; simplify_eq; rewrite ?Hr.
    + destruct (credit _ _ _ _ _ _) as [w1 [e1|]] eqn:E; simplify_eq/=.
      apply credit_posts in E as (? & _ & _ & _ & _ & -> & _); [|done]. simpl. case_match; lia.
    + destruct (transfer _ _ _ _ _ _ _) as [w1 [e1|]] eqn:E; simplify_eq/=.
      apply transfer_posts in E as (? & ? & ? & _ & _ & -> & _); [|done]. simpl. case_match; lia.
    + destruct (refund_transfer _ _ _ _) as [w1 [e1|]] eqn:E; simplify_eq/=.
      apply refund_transfer_ok in E as (? & ? & ? & ? & e2 & _ & _ & _ & _ & Ht & -> & _); [|done].
      apply transfer_posts in Ht as (? & ? & ? & _ & _ & -> & _); [|done]. fields. simpl. case_match; lia.
Qed.

(** Conservation.  On a well-formed ledger a successful operation changes
    the money in circulation only if it is a credit not seen before, and then
    by exactly the credited amount in the credited currency; transfers, refunds,
    repeated requests, account creation and freezing conserve it. *)
Theorem ledger_conserves_supply (op : ledger_op) (w w' : WalletLedger) (o : option LedgerEntry) (c : string) :
  ledger_wf w -> exec_op op w = (w', Ok o) ->
  supply w' c = supply w c +
    match op with
    | OpCredit r _ m _ _ =>
        if entry_for_request w r then 0
        else if eqb (normalize_currency (money_currency m)) c then money_amount_minor m else 0
    | _ => 0
    end.
Proof. apply exec_op_supply. Qed.

Lemma ledger_step_keeps_request w w' r e : ledger_wf w -> room w -> ledger_step w w' ->
  entry_for_request w r = Some e -> entry_for_request w' r = Some e.
Proof.
  intros Hwf Hroom (op & o & H) He. apply exec_op_cases in H as
    [(_ & _ & Hr)|[(? & ? & _ & _ & _ & ->)|(? & ? & _ & _ & _ & _ & Hp)]]; [..|done].
  - destruct Hr as [He' Hr' _]. unfold entry_for_request in *. by rewrite Hr', He'.
  - done.
  - by eapply posts_keeps_request.
Qed.

Lemma ledger_run_keeps_request n w w' r e :
  ledger_wf w -> Z.of_nat (size (wl_entries w)) + Z.of_nat n <= u64_max -> nsteps ledger_step n w w' ->
  entry_for_request w r = Some e -> entry_for_request w' r = Some e.
Proof.
  intros Hwf Hn Hs. revert Hwf Hn. induction Hs as [w|n w1 w2 w3 H12 _ IH]; intros Hwf Hn He; [done|].
  pose proof H12 as [Hwf2 Hsize]%ledger_step_wf; [|done|unfold room; lia].
  apply IH; [done|lia|]. by eapply ledger_step_keeps_request; [..|done]; [|unfold room; lia|].
Qed.

Lemma exec_op_repeat op r w e :
  op_request op = Some r -> entry_for_request w r = Some e -> exec_op op w = (w, Ok (Some e)).
Proof.
  intros Hop He. destruct op; simpl in Hop; simplify_eq; simpl;
    unfold credit, transfer, refund_transfer; by rewrite He.
Qed.

(** Idempotence.  Once an operation with a request identifier succeeded, any
    later operation with the same identifier, after any further operations,
    answers the entry recorded the first time and changes nothing. *)
Theorem ledger_request_idempotent (op op' : ledger_op) (r : string) (n : nat) (w w1 w2 : WalletLedger)
    (o : option LedgerEntry) :
  ledger_wf w -> Z.of_nat (size (wl_entries w)) + 1 + Z.of_nat n <= u64_max ->
  op_request op = Some r -> op_request op' = Some r ->
  exec_op op w = (w1, Ok o) -> nsteps ledger_step n w1 w2 ->
  exec_op op' w2 = (w2, Ok o).
Proof.
  intros Hwf Hn Hop Hop' H Hs.
  assert (ledger_step w w1) as Hstep by (by eexists _, _).
  destruct (ledger_step_wf w w1) as [Hwf1 Hsize]; [done | unfold room; lia | done |].
  apply exec_op_cases in H as
    [(Hno & _)|[(r' & e & Hr' & -> & He & ->)|(r' & e & Hr' & -> & Hre & _ & Hp)]]; [congruence|..|done];
    (apply (exec_op_repeat op' r); [done|]); (eapply ledger_run_keeps_request; [exact Hwf1| |exact Hs|]; [lia|]);
    rewrite Hop in Hr'; injection Hr' as <-; [done|].
  rewrite <- Hre. by eapply posts_request.
Qed.

(** A refund undoes its transfer.  When a fresh transfer is followed by a
    fresh successful refund of the entry it posted, every balance of every
    account is what it was before. *)
Theorem refund_restores_balances (w w1 w2 : WalletLedger) (r r' : string) (x y : WalletAccountId)
    (amount : Money) (reference : option string) (now now' : Z) (e e' : LedgerEntry) :
  ledger_wf w -> Z.of_nat (size (wl_entries w)) + 1 < u64_max ->
  entry_for_request w r = None -> transfer w r x y amount reference now = (w1, Ok e) ->
  entry_for_request w1 r' = None -> refund_transfer w1 r' (le_id e) now' = (w2, Ok e') ->
  forall id currency,
    balance w2 id (normalize_currency currency) = balance w id (normalize_currency currency).
Proof.
  intros Hwf Hsize Hr Ht Hr' Hf id currency.
  pose proof (transfer_posting_plain _ _ _ _ _ _ _ _ _ Hwf Hr Ht) as Hp1.
  apply transfer_entry in Ht as (_ & _ & _ & _ & Ha & _ & _ & _ & He); [|done].
  assert (ledger_wf w1) as Hwf1 by (eapply posts_wf; [done|unfold room; lia|done]).
  destruct (refund_opposite w1 r' (le_id e) now' w2 e' e) as [Hp2 Hopp]; [done..| |done|].
  { rewrite Ha. apply normalize_currency_idem. }
  change (balance w2 id (normalize_currency currency) = balance w id (normalize_currency currency)).
  rewrite (posts_balance w1 w2 e'), (posts_balance w w1 e), Hopp by done. lia.
Qed.

(** Failed operations.  A failing operation leaves the ledger as it was,
    unless it fails with a balance overflow. *)
Theorem failed_operation_changes_nothing (op : ledger_op) (w w' : WalletLedger) (err : WalletError) :
  exec_op op w = (w', Err err) -> err <> BalanceOverflow -> w' = w.
Proof.
  destruct op as [id owner now|r x m ref now|r x y m ref now|r orig now|x b]; simpl; intros H Hne.
  - unfold create_account in H. by repeat case_match; simplify_eq/=.
  - unfold credit in H. by repeat case_match; simplify_eq/=.
  - unfold transfer in H. by repeat case_match; simplify_eq/=.
  - unfold refund_transfer, transfer in H. by repeat case_match; simplify_eq/=.
  - unfold freeze in H. by repeat case_match; simplify_eq/=.
Qed.

(** ** Witnesses *)

Definition alice : WalletAccountId := MkWalletAccountId "alice".
Definition bob : WalletAccountId := MkWalletAccountId "bob".
Definition usd (n : Z) : Money := {| money_currency := " usd "; money_amount_minor := n |}.

Definition funded : list ledger_op :=
  [ OpCreate alice (MkActorId "a") 1; OpCreate bob (MkActorId "b") 2; OpCredit "r1" alice (usd 500) None 3 ].
Definition run_ops (ops : list ledger_op) (w : WalletLedger) : WalletLedger :=
  foldl (fun w op => fst (exec_op op w)) w ops.

Lemma run_ops_steps (ops : list ledger_op) (w : WalletLedger) :
  (forall pre op post, ops = (pre ++ op :: post)%list -> is_ok (snd (exec_op op (run_ops pre w))) = true) ->
  nsteps ledger_step (length ops) w (run_ops ops w).
Proof.
  revert w. induction ops as [|op ops IH]; intros w H; [constructor|].
  apply (nsteps_l _ _ _ (fst (exec_op op w))).
  - pose proof (H [] op ops eq_refl) as H0. simpl in H0. unfold ledger_step.
    destruct (exec_op op w) as [w' [e|]] eqn:E; [|done]. by exists op, e.
  - apply IH. intros pre op' post ->. by apply (H (op :: pre) op' post).
Qed.

Lemma funded_steps : nsteps ledger_step 3 empty_ledger (run_ops funded empty_ledger).
Proof.
  apply (run_ops_steps funded). intros pre op post H. unfold funded in H.
  repeat (destruct pre as [|? pre]; [injection H as <- <-; vm_compute; reflexivity | injection H as <- H]).
  by destruct pre.
Qed.

Lemma funded_wf : ledger_wf (run_ops funded empty_ledger).
Proof. by apply (ledger_run_wf 3 empty_ledger _ ledger_wf_empty); [|apply funded_steps]. Qed.

Lemma ledger_balances_are_posted_witness :
  let w := run_ops funded empty_ledger in
  (fun a => account_balance a "Usd") <$> wl_accounts w !! alice = Some 500 /\ posted w alice "USD" = 500.
Proof.
  pose proof (ledger_balances_are_posted 3 (run_ops funded empty_ledger) funded_steps ltac:(done)
    alice) as H.
  split; [vm_compute; reflexivity|].
  destruct (wl_accounts (run_ops funded empty_ledger) !! alice) as [a|] eqn:Ha; [|vm_compute in Ha; done].
  specialize (H a "USD" eq_refl) as [H _]. change (normalize_currency "USD") with "USD" in H.
  rewrite <- H. vm_compute in Ha. injection Ha as <-. vm_compute. reflexivity.
Defined.

Definition pay_bob (r : string) (n : Z) : ledger_op := OpTransfer r alice bob (usd n) None 4.

Definition answer (r : WalletLedger * result WalletError (option LedgerEntry)) : option LedgerEntry :=
  match snd r with Ok o => o | Err _ => None end.

Lemma exec_op_answer op w : is_ok (snd (exec_op op w)) = true ->
  exec_op op w = (fst (exec_op op w), Ok (answer (exec_op op w))).
Proof. unfold answer. by destruct (exec_op op w) as [w' []]. Qed.

Lemma ledger_conserves_supply_witness :
  let w := run_ops funded empty_ledger in
  supply (fst (exec_op (pay_bob "r2" 200) w)) "USD" = 500
  /\ supply (fst (exec_op (OpCredit "r3" bob (usd 7) None 5) w)) "USD" = 507.
Proof.
  split; (erewrite ledger_conserves_supply; [..|apply exec_op_answer]);
    [vm_compute; reflexivity | exact funded_wf | vm_compute; reflexivity
    |vm_compute; reflexivity | exact funded_wf | vm_compute; reflexivity].
Defined.

Lemma ledger_request_idempotent_witness :
  let w := run_ops funded empty_ledger in
  let w1 := fst (exec_op (pay_bob "r2" 200) w) in
  exec_op (OpCredit "r2" bob (usd 9) None 6) w1 = (w1, Ok (answer (exec_op (pay_bob "r2" 200) w))).
Proof.
  intros w w1. apply (ledger_request_idempotent (pay_bob "r2" 200) _ "r2" 0 w w1 w1 _ funded_wf).
  - vm_compute. discriminate.
  - reflexivity.
  - reflexivity.
  - apply exec_op_answer. vm_compute. reflexivity.
  - constructor.
Defined.

Lemma refund_restores_balances_witness :
  let w := run_ops funded empty_ledger in
  let w1 := fst (transfer w "r2" alice bob (usd 200) None 4) in
  let w2 := fst (refund_transfer w1 "r3" "ledger:2" 5) in
  balance w2 alice "USD" = balance w alice "USD".
Proof.
  intros w w1 w2.
  destruct (snd (transfer w "r2" alice bob (usd 200) None 4)) as [e|] eqn:E; [|vm_compute in E; done].
  destruct (snd (refund_transfer w1 "r3" "ledger:2" 5)) as [e'|] eqn:E'; [|vm_compute in E'; done].
  assert (le_id e = "ledger:2") as Hid by (vm_compute in E; injection E as <-; reflexivity).
  change "USD" with (normalize_currency "USD").
  apply (refund_restores_balances w w1 w2 "r2" "r3" alice bob (usd 200) None 4 5 e e' funded_wf).
  - vm_compute. reflexivity.
  - vm_compute. reflexivity.
  - rewrite <- E. apply surjective_pairing.
  - vm_compute. reflexivity.
  - rewrite Hid, <- E'. apply surjective_pairing.
Defined.

Lemma failed_operation_changes_nothing_witness :
  let w := run_ops funded empty_ledger in fst (exec_op (pay_bob "r2" 501) w) = w.
Proof.
  apply (failed_operation_changes_nothing (pay_bob "r2" 501) _ _
    (InsufficientFunds alice "USD" 500 501)); [vm_compute; reflexivity | done].
Defined.

(** An overflow of the receiving balance is reported after the sender was
    debited: the debit stays, with no entry for it. *)
Definition overfull : WalletLedger :=
  run_ops [ OpCreate alice (MkActorId "a") 1; OpCreate bob (MkActorId "b") 2;
            OpCredit "r1" alice (usd 500) None 3; OpCredit "r2" bob (usd i64_max) None 4 ] empty_ledger.

Lemma overflowing_transfer_debits_sender :
  let '(w', r) := transfer overfull "r3" alice bob (usd 1) None 5 in
  r = Err BalanceOverflow /\ supply w' "USD" = supply overfull "USD" - 1
  /\ wl_entries w' = wl_entries overfull.
Proof. vm_compute. split_and!; reflexivity. Qed.
