(* ===== verification/MiniAppServiceCall.v ===== *)
(** * Service calls of mini apps ([miniapp_service_call.rs])

    A call collects what its caller keys in, says or types, writes each input to
    the transcript and turns it into an invocation of one of the tools the mini
    app exposes.  The JSON values the tools exchange are only carried: their type
    is a parameter. *)

From S2P Require Import Prelude Text Maps Conversation.

Record MiniAppServiceCallId := MkMiniAppServiceCallId { service_call_id_0 : string }.

Definition service_call_id_is_valid (id : MiniAppServiceCallId) : bool :=
  let value := trim (service_call_id_0 id) in negb (is_empty value) && (len value <=? 200).

Inductive MiniAppServiceCallMode := ModeVoice | ModeText | ModeHybrid.

Inductive MiniAppServiceCallState := CallConnecting | CallActive | CallHeld | CallEnded | CallFailed.
#[export] Instance MiniAppServiceCallState_eq_dec : EqDecision MiniAppServiceCallState.
Proof. solve_decision. Defined.

Inductive MiniAppServiceCallInputSource := SourceDtmf | SourceSpeech | SourceChat.

Inductive MiniAppServiceCallInput :=
| InputDtmf (digits : string)
| InputSpeechTranscript (text : string) (is_final : bool) (confidence_bps : option Z)
| InputChatText (text : string).

Inductive MiniAppServiceCallError :=
| InvalidSession
| InvalidState (state : MiniAppServiceCallState)
| ActorNotAllowed
| InvalidDtmf
| InvalidTranscript
| InvalidConfidence
| InvalidMcpTool
| DuplicateMcpTool (name : string)
| InvalidDtmfRoute
| McpToolUnavailable (name : string)
| TurnNotFound (turn_sequence : Z)
| TurnDoesNotRequireMcpResolution (turn_sequence : Z)
| InvalidMcpResolution
| InvalidMcpResult.

(** ** Inputs *)

Definition dtmf_char (a : ascii) : bool := is_ascii_digit a || eqb a "*"%char || eqb a "#"%char.
Definition valid_dtmf (value : string) : bool :=
  negb (is_empty value) && (len value <=? 32) && all_bytes dtmf_char value.

(** [MiniAppServiceCallInput::source] *)
Definition input_source (i : MiniAppServiceCallInput) : MiniAppServiceCallInputSource :=
  match i with
  | InputDtmf _ => SourceDtmf
  | InputSpeechTranscript _ _ _ => SourceSpeech
  | InputChatText _ => SourceChat
  end.

Definition transcript_text (i : MiniAppServiceCallInput) : option string :=
  match i with
  | InputDtmf digits => Some digits
  | InputSpeechTranscript text _ _ | InputChatText text => Some text
  end.

Definition normalized_dtmf_digits (i : MiniAppServiceCallInput) : option string :=
  match i with
  | InputDtmf digits => Some digits
  | InputChatText text => let trimmed := trim text in if valid_dtmf trimmed then Some trimmed else None
  | InputSpeechTranscript _ _ _ => None
  end.

Definition requires_mcp_resolution (i : MiniAppServiceCallInput) : bool :=
  match i with
  | InputDtmf _ => false
  | InputSpeechTranscript _ is_final _ => is_final
  | InputChatText text => negb (valid_dtmf (trim text))
  end.

(** [MiniAppServiceCallInput::validate] *)
Definition validate_input (i : MiniAppServiceCallInput) : result MiniAppServiceCallError unit :=
  match i with
  | InputDtmf digits => reject_if (negb (valid_dtmf digits)) InvalidDtmf
  | InputSpeechTranscript text _ confidence_bps =>
      reject_if (blank text || (16000 <? len text)) InvalidTranscript ;;
      reject_if (is_some_and confidence_bps (fun value => 10000 <? value)) InvalidConfidence
  | InputChatText text => reject_if (blank text || (16000 <? len text)) InvalidTranscript
  end.

Section calls.
(** [serde_json::Value] *)
Context {Value : Type}.

Record MiniAppMcpToolAnnotations := {
  read_only_hint : bool;
  destructive_hint : bool;
  open_world_hint : bool;
}.

Record MiniAppMcpToolCapability := {
  tool_name : string;
  tool_title : option string;
  tool_description : option string;
  tool_input_schema : option Value;
  tool_annotations : MiniAppMcpToolAnnotations;
}.

Definition tool_is_valid (t : MiniAppMcpToolCapability) : bool :=
  let name := trim (tool_name t) in negb (is_empty name) && (len name <=? 200).

Definition MiniAppMcpArguments : Type := gmap string Value.

Record MiniAppMcpDtmfRoute := {
  route_digits : string;
  route_tool_name : string;
  route_arguments : MiniAppMcpArguments;
}.

Record MiniAppServiceCallTurn := {
  turn_sequence : Z;
  turn_actor_id : ActorId;
  turn_input : MiniAppServiceCallInput;
  turn_created_at_ms : Z;
}.

Record MiniAppMcpResolveRequest := {
  res_call_id : MiniAppServiceCallId;
  res_mini_app_id : string;
  res_conversation_id : ConversationId;
  res_turn_sequence : Z;
  res_input : MiniAppServiceCallInput;
  res_available_tools : list MiniAppMcpToolCapability;
}.

Inductive MiniAppMcpToolResolution :=
| ResolvedInvoke (tool_name : string) (arguments : MiniAppMcpArguments)
| ResolvedUnavailable (reason : string).

Record MiniAppMcpInvocationRequest := {
  ivk_call_id : MiniAppServiceCallId;
  ivk_mini_app_id : string;
  ivk_conversation_id : ConversationId;
  ivk_turn_sequence : Z;
  ivk_tool_name : string;
  ivk_arguments : MiniAppMcpArguments;
}.

Record MiniAppMcpInvocationResult := {
  mcp_invocation_id : string;
  mcp_tool_name : string;
  mcp_success : bool;
  mcp_structured_content : option Value;
  mcp_error : option string;
  mcp_spoken_response : option string;
  mcp_display_response : option string;
  mcp_completed_at_ms : Z;
}.

Inductive MiniAppServiceCallEffect :=
| ResolveMcpTool (request : MiniAppMcpResolveRequest)
| InvokeMcpTool (request : MiniAppMcpInvocationRequest)
| McpCapabilityUnavailable (call_id : MiniAppServiceCallId) (mini_app_id : string) (turn_sequence : Z)
    (reason : string)
| AppendConversationTranscript (conversation_id : ConversationId) (actor_id : ActorId)
    (source : MiniAppServiceCallInputSource) (text : string) (final_segment : bool) (turn_sequence : Z).

Record MiniAppServiceCallSession := {
  svc_id : MiniAppServiceCallId;
  svc_mini_app_id : string;
  svc_mini_app_session_id : option string;
  svc_conversation_id : ConversationId;
  svc_caller_actor_id : ActorId;
  svc_service_actor_id : option ActorId;
  svc_mode : MiniAppServiceCallMode;
  svc_state : MiniAppServiceCallState;
  svc_mcp_tools : list MiniAppMcpToolCapability;
  svc_dtmf_routes : list MiniAppMcpDtmfRoute;
  svc_turns : list MiniAppServiceCallTurn;
  svc_mcp_results : list MiniAppMcpInvocationResult;
  svc_started_at_ms : Z;
  svc_updated_at_ms : Z;
  svc_ended_at_ms : option Z;
}.
#[export] Instance eta_MiniAppServiceCallSession : Eta MiniAppServiceCallSession := fun c =>
  Build_MiniAppServiceCallSession (svc_id c) (svc_mini_app_id c) (svc_mini_app_session_id c)
    (svc_conversation_id c) (svc_caller_actor_id c) (svc_service_actor_id c) (svc_mode c) (svc_state c)
    (svc_mcp_tools c) (svc_dtmf_routes c) (svc_turns c) (svc_mcp_results c) (svc_started_at_ms c)
    (svc_updated_at_ms c) (svc_ended_at_ms c).

(** ** Opening a call *)

(** The tools are valid and their names distinct; the answer is the set of names. *)
Fixpoint check_tools (tools : list MiniAppMcpToolCapability) (names : gset string) :
    result MiniAppServiceCallError (gset string) :=
  match tools with
  | [] => Ok names
  | t :: tools =>
      reject_if (negb (tool_is_valid t)) InvalidMcpTool ;;
      reject_if (bool_decide (tool_name t ∈ names)) (DuplicateMcpTool (tool_name t)) ;;
      check_tools tools (names ∪ {[tool_name t]})
  end.

Fixpoint check_routes (routes : list MiniAppMcpDtmfRoute) (names digits : gset string) :
    result MiniAppServiceCallError unit :=
  match routes with
  | [] => Ok tt
  | r :: routes =>
      reject_if (negb (valid_dtmf (route_digits r)) || negb (bool_decide (route_tool_name r ∈ names))
                 || bool_decide (route_digits r ∈ digits)) InvalidDtmfRoute ;;
      check_routes routes names (digits ∪ {[route_digits r]})
  end.

Definition service_call_new (id : MiniAppServiceCallId) (mini_app_id : string)
    (mini_app_session_id : option string) (conversation_id : ConversationId) (caller_actor_id : ActorId)
    (service_actor_id : option ActorId) (mode : MiniAppServiceCallMode)
    (mcp_tools : list MiniAppMcpToolCapability) (dtmf_routes : list MiniAppMcpDtmfRoute)
    (started_at_ms : Z) : result MiniAppServiceCallError MiniAppServiceCallSession :=
  reject_if (negb (service_call_id_is_valid id) || blank mini_app_id || (200 <? len mini_app_id)) InvalidSession ;;
  tool_names ← check_tools mcp_tools ∅;
  check_routes dtmf_routes tool_names ∅ ;;
  Ok {| svc_id := id; svc_mini_app_id := mini_app_id; svc_mini_app_session_id := mini_app_session_id;
        svc_conversation_id := conversation_id; svc_caller_actor_id := caller_actor_id;
        svc_service_actor_id := service_actor_id; svc_mode := mode; svc_state := CallConnecting;
        svc_mcp_tools := mcp_tools; svc_dtmf_routes := dtmf_routes; svc_turns := []; svc_mcp_results := [];
        svc_started_at_ms := started_at_ms; svc_updated_at_ms := started_at_ms; svc_ended_at_ms := None |}.

(** ** Operations on a call *)

Definition activate (now_ms : Z) (c : MiniAppServiceCallSession) :
    MiniAppServiceCallSession * result MiniAppServiceCallError unit :=
  match svc_state c with
  | CallConnecting | CallHeld => (c ⟪ svc_state := CallActive ⟫ ⟪ svc_updated_at_ms := now_ms ⟫, Ok tt)
  | state => (c, Err (InvalidState state))
  end.

Definition exposes (c : MiniAppServiceCallSession) (name : string) : bool :=
  existsb (fun t => eqb (tool_name t) name) (svc_mcp_tools c).

Definition mcp_unavailable (c : MiniAppServiceCallSession) (turn_sequence : Z) (reason : string) :
    MiniAppServiceCallEffect :=
  McpCapabilityUnavailable (svc_id c) (svc_mini_app_id c) turn_sequence reason.

Definition invocation (c : MiniAppServiceCallSession) (turn_sequence : Z) (tool_name : string)
    (arguments : MiniAppMcpArguments) : MiniAppServiceCallEffect :=
  InvokeMcpTool {| ivk_call_id := svc_id c; ivk_mini_app_id := svc_mini_app_id c;
    ivk_conversation_id := svc_conversation_id c; ivk_turn_sequence := turn_sequence;
    ivk_tool_name := tool_name; ivk_arguments := arguments |}.

Definition route_dtmf_to_mcp (c : MiniAppServiceCallSession) (turn_sequence : Z) (digits : string) :
    MiniAppServiceCallEffect :=
  match find (fun r => eqb (route_digits r) digits) (svc_dtmf_routes c) with
  | Some r => invocation c turn_sequence (route_tool_name r) (route_arguments r)
  | None => mcp_unavailable c turn_sequence
              ("当前 MiniApp 没有为数字 " +:+ digits +:+ " 配置可调用的 MCP Tool")
  end.

(** The transcript entry of an input. *)
Definition transcript_effect (c : MiniAppServiceCallSession) (actor_id : ActorId)
    (input : MiniAppServiceCallInput) (sequence : Z) : MiniAppServiceCallEffect :=
  match input with
  | InputDtmf digits =>
      AppendConversationTranscript (svc_conversation_id c) actor_id SourceDtmf digits true sequence
  | InputSpeechTranscript text is_final _ =>
      AppendConversationTranscript (svc_conversation_id c) actor_id SourceSpeech text is_final sequence
  | InputChatText text =>
      AppendConversationTranscript (svc_conversation_id c) actor_id SourceChat text true sequence
  end.

(** What an input asks of the tools. *)
Definition tool_effects (c : MiniAppServiceCallSession) (input : MiniAppServiceCallInput) (sequence : Z) :
    list MiniAppServiceCallEffect :=
  match normalized_dtmf_digits input with
  | Some digits => [route_dtmf_to_mcp c sequence digits]
  | None =>
      if requires_mcp_resolution input then
        match svc_mcp_tools c with
        | [] => [mcp_unavailable c sequence "当前 MiniApp 没有暴露任何 MCP Tool，无法执行该需求"]
        | _ => [ResolveMcpTool {| res_call_id := svc_id c; res_mini_app_id := svc_mini_app_id c;
                  res_conversation_id := svc_conversation_id c; res_turn_sequence := sequence;
                  res_input := input; res_available_tools := svc_mcp_tools c |}]
        end
      else []
  end.

Definition submit_input (actor_id : ActorId) (input : MiniAppServiceCallInput) (now_ms : Z)
    (c : MiniAppServiceCallSession) :
    MiniAppServiceCallSession * result MiniAppServiceCallError (list MiniAppServiceCallEffect) :=
  if negb (eqb (svc_state c) CallActive) then (c, Err (InvalidState (svc_state c)))
  else if negb (eqb actor_id (svc_caller_actor_id c)) then (c, Err ActorNotAllowed)
  else
    match validate_input input with
    | Err e => (c, Err e)
    | Ok _ =>
        let sequence := saturating_add_u64 (Z.of_nat (length (svc_turns c))) 1 in
        let turn := {| turn_sequence := sequence; turn_actor_id := actor_id; turn_input := input;
                       turn_created_at_ms := now_ms |} in
        let c := c ⟪ svc_turns ::= fun l => (l ++ [turn])%list ⟫ ⟪ svc_updated_at_ms := now_ms ⟫ in
        (c, Ok (transcript_effect c actor_id input sequence :: tool_effects c input sequence))
    end.

Definition prepare_mcp_invocation (c : MiniAppServiceCallSession) (turn_sequence : Z) (tool_name : string)
    (arguments : MiniAppMcpArguments) : result MiniAppServiceCallError MiniAppServiceCallEffect :=
  reject_if (negb (exposes c tool_name)) (McpToolUnavailable tool_name) ;;
  Ok (invocation c turn_sequence tool_name arguments).

Definition apply_mcp_resolution (c : MiniAppServiceCallSession) (sequence : Z)
    (resolution : MiniAppMcpToolResolution) : result MiniAppServiceCallError MiniAppServiceCallEffect :=
  reject_if (negb (eqb (svc_state c) CallActive)) (InvalidState (svc_state c)) ;;
  turn ← ok_or (find (fun t => turn_sequence t =? sequence) (svc_turns c)) (TurnNotFound sequence);
  reject_if (negb (requires_mcp_resolution (turn_input turn))) (TurnDoesNotRequireMcpResolution sequence) ;;
  match resolution with
  | ResolvedInvoke tool_name arguments => prepare_mcp_invocation c sequence tool_name arguments
  | ResolvedUnavailable reason =>
      let reason := trim reason in
      reject_if (is_empty reason) InvalidMcpResolution ;; Ok (mcp_unavailable c sequence reason)
  end.

Definition is_over (state : MiniAppServiceCallState) : bool :=
  match state with CallEnded | CallFailed => true | _ => false end.

Definition record_mcp_result (r : MiniAppMcpInvocationResult) (c : MiniAppServiceCallSession) :
    MiniAppServiceCallSession * result MiniAppServiceCallError unit :=
  if is_over (svc_state c) then (c, Err (InvalidState (svc_state c)))
  else if blank (mcp_invocation_id r) || blank (mcp_tool_name r) || negb (exposes c (mcp_tool_name r))
  then (c, Err InvalidMcpResult)
  else (c ⟪ svc_updated_at_ms := mcp_completed_at_ms r ⟫ ⟪ svc_mcp_results ::= fun l => (l ++ [r])%list ⟫, Ok tt).

(** [MiniAppServiceCallSession::end] *)
Definition end_call (now_ms : Z) (c : MiniAppServiceCallSession) :
    MiniAppServiceCallSession * result MiniAppServiceCallError unit :=
  if is_over (svc_state c) then (c, Err (InvalidState (svc_state c)))
  else (c ⟪ svc_state := CallEnded ⟫ ⟪ svc_updated_at_ms := now_ms ⟫ ⟪ svc_ended_at_ms := Some now_ms ⟫, Ok tt).

(** ** A call from its opening on *)

Inductive ServiceCallOp :=
| CallActivate (now_ms : Z)
| CallSubmit (actor_id : ActorId) (input : MiniAppServiceCallInput) (now_ms : Z)
| CallResolve (sequence : Z) (resolution : MiniAppMcpToolResolution)
| CallResult (r : MiniAppMcpInvocationResult)
| CallEnd (now_ms : Z).

(** The effects of an operation; a refused one has none. *)
Definition effects_of {A : Type} (f : A -> list MiniAppServiceCallEffect)
    (r : result MiniAppServiceCallError A) : list MiniAppServiceCallEffect :=
  match r with Ok a => f a | Err _ => [] end.

Definition service_call_step (op : ServiceCallOp) (c : MiniAppServiceCallSession) :
    MiniAppServiceCallSession * list MiniAppServiceCallEffect :=
  match op with
  | CallActivate now_ms => (fst (activate now_ms c), [])
  | CallSubmit actor_id input now_ms => let (c, r) := submit_input actor_id input now_ms c in (c, effects_of id r)
  | CallResolve sequence resolution => (c, effects_of (fun e => [e]) (apply_mcp_resolution c sequence resolution))
  | CallResult r => (fst (record_mcp_result r c), [])
  | CallEnd now_ms => (fst (end_call now_ms c), [])
  end.

Fixpoint run_service_call (ops : list ServiceCallOp) (c : MiniAppServiceCallSession) :
    MiniAppServiceCallSession * list MiniAppServiceCallEffect :=
  match ops with
  | [] => (c, [])
  | op :: ops =>
      let (c, now) := service_call_step op c in
      let (c, later) := run_service_call ops c in (c, now ++ later)%list
  end.

(** ** What keeps a call well formed *)

Record service_call_wf (c : MiniAppServiceCallSession) : Prop := {
  tools_distinct : NoDup (tool_name <$> svc_mcp_tools c);
  routes_distinct : NoDup (route_digits <$> svc_dtmf_routes c);
  routes_exposed : Forall (fun r => valid_dtmf (route_digits r) = true /\ exposes c (route_tool_name r) = true)
                     (svc_dtmf_routes c);
  turns_numbered : forall i t, svc_turns c !! i = Some t -> turn_sequence t = saturating_add_u64 (Z.of_nat i) 1;
  turns_of_caller : Forall (fun t => turn_actor_id t = svc_caller_actor_id c
                                     /\ validate_input (turn_input t) = Ok tt) (svc_turns c);
  results_exposed : Forall (fun r => exposes c (mcp_tool_name r) = true) (svc_mcp_results c);
}.

(** The fields no operation changes. *)
Definition same_call (c c' : MiniAppServiceCallSession) : Prop :=
  svc_id c' = svc_id c /\ svc_conversation_id c' = svc_conversation_id c
  /\ svc_caller_actor_id c' = svc_caller_actor_id c
  /\ svc_mcp_tools c' = svc_mcp_tools c /\ svc_dtmf_routes c' = svc_dtmf_routes c.

(** Why a tool may be invoked: it is exposed, and a turn of the caller either was
    keyed in digits a route sends to this very tool, or needed a tool to be found. *)
Definition justified (c : MiniAppServiceCallSession) (req : MiniAppMcpInvocationRequest) : Prop :=
  ivk_call_id req = svc_id c /\ ivk_conversation_id req = svc_conversation_id c
  /\ exposes c (ivk_tool_name req) = true
  /\ exists t, t ∈ svc_turns c /\ turn_sequence t = ivk_turn_sequence req
     /\ (requires_mcp_resolution (turn_input t) = true
         \/ exists r, r ∈ svc_dtmf_routes c /\ normalized_dtmf_digits (turn_input t) = Some (route_digits r)
              /\ ivk_tool_name req = route_tool_name r /\ ivk_arguments req = route_arguments r).

Definition is_transcript (e : MiniAppServiceCallEffect) : bool :=
  match e with AppendConversationTranscript _ _ _ _ _ _ => true | _ => false end.
Definition transcript (es : list MiniAppServiceCallEffect) : list MiniAppServiceCallEffect :=
  filter (fun e => is_transcript e = true) es.
Definition written (c : MiniAppServiceCallSession) (t : MiniAppServiceCallTurn) : MiniAppServiceCallEffect :=
  transcript_effect c (turn_actor_id t) (turn_input t) (turn_sequence t).

Lemma exposes_spec c name : exposes c name = true <-> name ∈ tool_name <$> svc_mcp_tools c.
Proof.
  unfold exposes. rewrite existsb_exists, list_elem_of_fmap. split.
  - intros (t & Hin & Heq%eqb_true). exists t. split; [done|by apply list_elem_of_In].
  - intros (t & -> & Hin%list_elem_of_In). exists t. split; [done|by apply eqb_spec].
Qed.

Lemma check_tools_ok tools names out :
  check_tools tools names = Ok out ->
  NoDup (tool_name <$> tools) /\ (forall n, n ∈ tool_name <$> tools -> n ∉ names)
  /\ (forall n, n ∈ out <-> n ∈ names \/ n ∈ tool_name <$> tools).
Proof.
  revert names. induction tools as [|t tools IH]; intros names; simpl.
  { intros [= <-]. split_and!; [constructor|set_solver|set_solver]. }
  intros H. repeat ok_step. apply bool_decide_eq_false in Hok0. destruct (IH _ H) as (Hnd & Hnew & Hout).
  split_and!.
  - constructor; [|done]. intros Hin. specialize (Hnew _ Hin). set_solver.
  - intros n [->|Hin]%elem_of_cons; [done|]. specialize (Hnew _ Hin). set_solver.
  - intros n. rewrite Hout. set_solver.
Qed.

Lemma check_routes_ok routes names digits u :
  check_routes routes names digits = Ok u ->
  NoDup (route_digits <$> routes) /\ (forall d, d ∈ route_digits <$> routes -> d ∉ digits)
  /\ Forall (fun r => valid_dtmf (route_digits r) = true /\ route_tool_name r ∈ names) routes.
Proof.
  revert digits. induction routes as [|r routes IH]; intros digits; simpl.
  { intros _. split_and!; [constructor|set_solver|constructor]. }
  intros H. repeat ok_step.
  repeat match goal with
  | H : bool_decide _ = true |- _ => apply bool_decide_eq_true in H
  | H : bool_decide _ = false |- _ => apply bool_decide_eq_false in H
  end.
  destruct (IH _ H) as (Hnd & Hnew & Hall). split_and!.
  - constructor; [|done]. intros Hin. specialize (Hnew _ Hin). set_solver.
  - intros n [->|Hin]%elem_of_cons; [done|]. specialize (Hnew _ Hin). set_solver.
  - by constructor.
Qed.

Lemma service_call_new_ok id app session conversation caller service mode tools routes now c :
  service_call_new id app session conversation caller service mode tools routes now = Ok c ->
  service_call_wf c /\ svc_turns c = [] /\ svc_state c = CallConnecting.
Proof.
  unfold service_call_new. intros H. repeat ok_step. subst c.
  apply check_tools_ok in Hok0 as (Hnd & _ & Hout). apply check_routes_ok in Hok1 as (Hrd & _ & Hall).
  split; [|done]. split; simpl; try done; [|by constructor..].
  eapply list.Forall_impl; [exact Hall|]. intros r [Hv Hin]. split; [done|].
  apply exposes_spec. simpl. apply Hout in Hin. set_solver.
Qed.

(** ** One operation *)

(** An operation that leaves the turns alone keeps the call well formed. *)
Lemma quiet_wf c c' :
  service_call_wf c -> same_call c c' -> svc_turns c' = svc_turns c ->
  Forall (fun r => exposes c (mcp_tool_name r) = true) (svc_mcp_results c') -> service_call_wf c'.
Proof.
  intros [Ht Hr He Hn Hc _] (_ & _ & Hcaller & Htools & Hroutes) Hturns Hres.
  split; rewrite ?Htools, ?Hroutes, ?Hturns, ?Hcaller; try done; unfold exposes in *; by rewrite Htools.
Qed.

Lemma transcript_effect_turn c c' actor input sequence :
  svc_conversation_id c' = svc_conversation_id c ->
  transcript_effect c' actor input sequence = transcript_effect c actor input sequence.
Proof. intros Heq. unfold transcript_effect. by rewrite Heq. Qed.

Lemma tool_effects_silent c input sequence : transcript (tool_effects c input sequence) = [].
Proof.
  unfold tool_effects, route_dtmf_to_mcp. repeat case_match; try done.
Qed.

Lemma tool_effects_justified c input sequence req :
  service_call_wf c -> InvokeMcpTool req ∈ tool_effects c input sequence ->
  (exists t, t ∈ svc_turns c /\ turn_sequence t = sequence /\ turn_input t = input) -> justified c req.
Proof.
  intros Hwf Hin (t & Ht & Hseq & Hinp). unfold tool_effects, route_dtmf_to_mcp in Hin.
  destruct (normalized_dtmf_digits input) as [digits|] eqn:Hd.
  - destruct (find _ _) as [r|] eqn:Hfind; apply list_elem_of_singleton in Hin; [|done].
    injection Hin as ->. apply find_some in Hfind as [Hr%list_elem_of_In Heq%eqb_true].
    pose proof (routes_exposed _ Hwf) as Hall. rewrite list.Forall_forall in Hall. destruct (Hall _ Hr) as [_ Hexp].
    split_and!; [done..|]. exists t. split_and!; [done..|]. right. exists r. rewrite Hinp, Hd, Heq. done.
  - repeat case_match; try (by apply list_elem_of_singleton in Hin); by apply elem_of_nil in Hin.
Qed.

Record governed_step (c c' : MiniAppServiceCallSession) (es : list MiniAppServiceCallEffect) : Prop := {
  step_wf : service_call_wf c';
  step_same : same_call c c';
  step_turns : exists turns, svc_turns c' = (svc_turns c ++ turns)%list /\ transcript es = written c <$> turns;
  step_justified : forall req, InvokeMcpTool req ∈ es -> justified c' req;
}.

Lemma service_call_quiet c c' :
  service_call_wf c -> same_call c c' -> svc_turns c' = svc_turns c ->
  Forall (fun r => exposes c (mcp_tool_name r) = true) (svc_mcp_results c') -> governed_step c c' [].
Proof.
  intros Hwf Hsame Hturns Hres. split; [by eapply quiet_wf|done| |by intros req ?%elem_of_nil].
  exists []. by rewrite app_nil_r.
Qed.

Lemma submit_governed actor input now c c' es :
  service_call_wf c -> submit_input actor input now c = (c', Ok es) -> governed_step c c' es.
Proof.
  intros Hwf. unfold submit_input. destruct (negb _); [done|]. destruct (negb _) eqn:Hactor; [done|].
  apply negb_false_iff, eqb_true in Hactor as ->. destruct (validate_input input) as [[]|] eqn:Hval; [|done].
  set (seq := saturating_add_u64 _ 1). set (turn := Build_MiniAppServiceCallTurn _ _ _ _).
  set (c1 := (c ⟪ svc_turns ::= _ ⟫ ⟪ svc_updated_at_ms := now ⟫)). intros [= <- <-].
  assert (service_call_wf c1) as Hwf1.
  { destruct Hwf as [Ht Hr He Hn Hc Hre]. split; unfold c1; fields; try done.
    - intros i t. rewrite lookup_app. destruct (svc_turns c !! i) eqn:Hi.
      + intros [= <-]. by apply Hn.
      + intros Hl. apply lookup_ge_None in Hi. apply list_lookup_singleton_Some in Hl as [Hi' <-].
        unfold turn, seq; simpl. f_equal. lia.
    - apply Forall_app. split; [done|]. by constructor. }
  split; [done|done| |].
  - exists [turn]. split; [done|]. unfold transcript. rewrite filter_cons_True by (by destruct input).
    fold (transcript (tool_effects c1 input seq)). by rewrite tool_effects_silent.
  - intros req [Heq|Hin]%elem_of_cons; [by destruct input|].
    apply (tool_effects_justified _ _ _ _ Hwf1 Hin). exists turn. split; [|done].
    unfold c1; fields. set_solver.
Qed.

Lemma resolution_governed sequence resolution c e :
  service_call_wf c -> apply_mcp_resolution c sequence resolution = Ok e -> governed_step c c [e].
Proof.
  intros Hwf H. unfold apply_mcp_resolution in H. repeat ok_step. apply negb_false_iff in Hok1.
  apply find_some in Hok0 as [Hin%list_elem_of_In Hseq%Z.eqb_eq].
  assert (is_transcript e = false /\ forall req, e = InvokeMcpTool req -> justified c req) as [Hsilent Hjust].
  { destruct resolution as [name arguments|reason].
    - unfold prepare_mcp_invocation in H. repeat ok_step. subst e. split; [done|].
      intros req [= <-]. split_and!; [done..|]. eexists. split_and!; [done..|]. by left.
    - repeat ok_step. subst e. by split. }
  split; [done|done| |].
  - exists []. split; [by rewrite app_nil_r|]. unfold transcript. by rewrite filter_cons_False by (by rewrite Hsilent).
  - intros req Hreq%list_elem_of_singleton. by apply Hjust.
Qed.

Lemma service_call_step_governed op c c' es :
  service_call_wf c -> service_call_step op c = (c', es) -> governed_step c c' es.
Proof.
  intros Hwf. pose proof (results_exposed _ Hwf) as Hres.
  destruct op as [now|actor input now|sequence resolution|r|now]; simpl.
  - intros [= <- <-]. apply service_call_quiet; [done| | |]; unfold activate; by destruct (svc_state c).
  - destruct (submit_input actor input now c) as [c1 [es1|e]] eqn:Hs; intros [= <- <-].
    + by eapply submit_governed.
    + assert (c1 = c) as ->; [|by apply service_call_quiet]. unfold submit_input in Hs. repeat case_match; by simplify_eq.
  - destruct (apply_mcp_resolution c sequence resolution) as [e|e] eqn:Hr; intros [= <- <-].
    + by eapply resolution_governed.
    + by apply service_call_quiet.
  - intros [= <- <-]. apply service_call_quiet; [done| | |]; unfold record_mcp_result;
      (destruct (is_over _); [done|]); destruct (_ || negb _) eqn:Hv; try done.
    apply orb_false_iff in Hv as [_ Hv%negb_false_iff]. fields. apply Forall_app. split; [done|]. by constructor.
  - intros [= <- <-]. apply service_call_quiet; [done| | |]; unfold end_call; by destruct (is_over _).
Qed.

Lemma same_call_trans c1 c2 c3 : same_call c1 c2 -> same_call c2 c3 -> same_call c1 c3.
Proof. unfold same_call. intuition congruence. Qed.

Lemma justified_later c c' req :
  same_call c c' -> (forall t, t ∈ svc_turns c -> t ∈ svc_turns c') -> justified c req -> justified c' req.
Proof.
  intros (Hid & Hconv & _ & Htools & Hroutes) Hturns (H1 & H2 & H3 & t & Ht & H4).
  unfold justified, exposes. rewrite Hid, Hconv, Htools, Hroutes. split_and!; [done..|]. exists t. eauto.
Qed.

Lemma run_governed ops c c' es :
  service_call_wf c -> run_service_call ops c = (c', es) -> governed_step c c' es.
Proof.
  revert c c' es. induction ops as [|op ops IH]; intros c c' es Hwf; simpl.
  { intros [= <- <-]. by apply service_call_quiet; [| | |apply results_exposed]. }
  destruct (service_call_step op c) as [c1 now] eqn:Hstep.
  destruct (run_service_call ops c1) as [c2 later] eqn:Hrun. intros [= <- <-].
  pose proof (service_call_step_governed _ _ _ _ Hwf Hstep) as [Hwf1 Hsame1 (l1 & Hl1 & Hw1) Hj1].
  destruct (IH _ _ _ Hwf1 Hrun) as [Hwf2 Hsame2 (l2 & Hl2 & Hw2) Hj2].
  split; [done|by eapply same_call_trans| |].
  - exists (l1 ++ l2)%list. split; [by rewrite Hl2, Hl1, app_assoc|].
    unfold transcript in *. rewrite list.filter_app, Hw1, Hw2, fmap_app. f_equal.
    apply list_fmap_ext. intros _ t _. unfold written. apply transcript_effect_turn, Hsame1.
  - intros req [Hin|Hin]%elem_of_app; [|by apply Hj2].
    eapply justified_later; [done| |by apply Hj1]. intros t Ht. rewrite Hl2. set_solver.
Qed.

Lemma over_call_is_final ops c : is_over (svc_state c) = true -> fst (run_service_call ops c) = c.
Proof.
  intros Hover. induction ops as [|op ops IH]; [done|]. simpl.
  assert (fst (service_call_step op c) = c) as Hstep.
  { destruct op; simpl; unfold activate, submit_input, record_mcp_result, end_call.
    all: rewrite ?Hover; try done; by destruct (svc_state c). }
  destruct (service_call_step op c) as [c1 now]. simpl in Hstep. subst c1.
  by destruct (run_service_call ops c).
Qed.

(** A service call invokes only what its caller asked for.  Whatever operations
    a call sees from its opening on, it stays well formed (its turns are the
    caller's, validated, and numbered in order); what it writes to the
    conversation is exactly its turns, in order; every tool it invokes is one
    the mini app exposes, and answers a turn of the caller: digits that a route
    sends to this very tool, or an input that needed a tool to be found.  A call
    that has ended changes no more. *)
Theorem service_calls_are_governed id app session conversation caller service mode tools routes now
    (ops later : list ServiceCallOp) (c0 c : MiniAppServiceCallSession) (es : list MiniAppServiceCallEffect) :
  service_call_new id app session conversation caller service mode tools routes now = Ok c0 ->
  run_service_call ops c0 = (c, es) ->
  service_call_wf c
  /\ transcript es = written c <$> svc_turns c
  /\ (forall req, InvokeMcpTool req ∈ es -> justified c req)
  /\ (is_over (svc_state c) = true -> fst (run_service_call later c) = c).
Proof.
  intros Hnew Hrun. destruct (service_call_new_ok _ _ _ _ _ _ _ _ _ _ _ Hnew) as (Hwf & Hturns & _).
  destruct (run_governed _ _ _ _ Hwf Hrun) as [Hwf' Hsame (turns & Hl & Hw) Hj].
  split_and!; [done| |done|apply over_call_is_final].
  rewrite Hl, Hturns, Hw. apply list_fmap_ext. intros _ t _. unfold written. symmetry.
  apply transcript_effect_turn, Hsame.
Qed.
End calls.
Arguments MiniAppMcpArguments : clear implicits.
Arguments MiniAppMcpToolCapability : clear implicits.
Arguments MiniAppMcpDtmfRoute : clear implicits.
Arguments MiniAppServiceCallSession : clear implicits.
Arguments MiniAppServiceCallEffect : clear implicits.
Arguments MiniAppMcpToolResolution : clear implicits.
Arguments MiniAppMcpInvocationResult : clear implicits.
Arguments ServiceCallOp : clear implicits.

(** ** A call that looks up an allowance *)

Definition allowance_tool : MiniAppMcpToolCapability string := {|
  tool_name := "query_allowance"; tool_title := None; tool_description := Some "the allowance left";
  tool_input_schema := None;
  tool_annotations := {| read_only_hint := true; destructive_hint := false; open_world_hint := false |} |}.

Definition hotline : result MiniAppServiceCallError (MiniAppServiceCallSession string) :=
  service_call_new (MkMiniAppServiceCallId "svc-call:1") "mini:carrier" None (MkConversationId "c1")
    (MkActorId "caller") None ModeHybrid [allowance_tool]
    [{| route_digits := "1"; route_tool_name := "query_allowance"; route_arguments := {[ "unit" := "GB" ]} |}] 1.

Definition hotline_ops : list (ServiceCallOp string) :=
  [CallActivate 2; CallSubmit (MkActorId "stranger") (InputDtmf "1") 3; CallSubmit (MkActorId "caller") (InputDtmf "1") 3;
   CallSubmit (MkActorId "caller") (InputSpeechTranscript "how much is left" true None) 4; CallEnd 5].

Lemma service_calls_are_governed_witness :
  exists c0 c es, hotline = Ok c0 /\ run_service_call hotline_ops c0 = (c, es)
    /\ length (svc_turns c) = 2%nat /\ transcript es = written c <$> svc_turns c
    /\ (exists req, InvokeMcpTool req ∈ es /\ justified c req)
    /\ fst (run_service_call [CallActivate 9] c) = c.
Proof.
  destruct hotline as [c0|e] eqn:H0; [|vm_compute in H0; discriminate H0].
  destruct (run_service_call hotline_ops c0) as [c es] eqn:Hrun.
  destruct (service_calls_are_governed _ _ _ _ _ _ _ _ _ _ hotline_ops [CallActivate 9] c0 c es H0 Hrun)
    as (_ & Htranscript & Hjust & Hfinal).
  exists c0, c, es. split; [exact eq_refl|]. split; [exact Hrun|].
  vm_compute in H0. injection H0 as <-. vm_compute in Hrun. injection Hrun as <- <-.
  split; [reflexivity|]. split; [exact Htranscript|]. split; [|apply Hfinal; reflexivity].
  eexists. split; [|apply Hjust]; right; left.
Defined.
