(* ===== verification/Apps.v ===== *)
(** * Stories, bots and mini apps ([story.rs], [bot.rs], [miniapp.rs]) *)

From S2P Require Import Prelude Text Maps Conversation Message MiniAppServiceCall.

(** ** Stories ([story.rs]): privacy, expiry, views and reactions *)

Record StoryId := MkStoryId { story_id_0 : string }.
#[export] Instance StoryId_eq_dec : EqDecision StoryId.
Proof. solve_decision. Defined.
#[export] Program Instance StoryId_countable : Countable StoryId :=
  inj_countable' story_id_0 MkStoryId _.
Next Obligation. by intros []. Qed.
#[export] Instance StoryId_key : BTreeKey StoryId := story_id_0.
#[export] Instance StoryId_key_inj : BTreeKeyInj StoryId.
Proof. intros [a] [b]. unfold key_string, StoryId_key. simpl. congruence. Qed.

Inductive StoryPrivacyKind := Everyone | ContactsOnly | CloseFriends | Selected.

Record StoryPrivacy := {
  sp_kind : StoryPrivacyKind;
  sp_included_actor_ids : gset ActorId;
  sp_excluded_actor_ids : gset ActorId;
}.

Record StoryView := {
  view_actor_id : ActorId;
  view_viewed_at_ms : Z;
  view_reaction : option string;
  view_forwarded : bool;
}.
#[export] Instance eta_StoryView : Eta StoryView := fun v =>
  Build_StoryView (view_actor_id v) (view_viewed_at_ms v) (view_reaction v) (view_forwarded v).

Record Story := {
  story_id : StoryId;
  story_owner_id : ActorId;
  story_media : MediaRef;
  story_caption : FormattedText;
  story_privacy : StoryPrivacy;
  story_created_at_ms : Z;
  story_expires_at_ms : Z;
  story_edited_at_ms : option Z;
  story_pinned_to_profile : bool;
  story_protected_content : bool;
  story_allow_replies : bool;
  story_views : gmap ActorId StoryView;
}.
#[export] Instance eta_Story : Eta Story := fun s =>
  Build_Story (story_id s) (story_owner_id s) (story_media s) (story_caption s) (story_privacy s)
    (story_created_at_ms s) (story_expires_at_ms s) (story_edited_at_ms s) (story_pinned_to_profile s)
    (story_protected_content s) (story_allow_replies s) (story_views s).

Inductive StoryError :=
| Expired (id : StoryId)
| ViewerNotFound (id : ActorId).
#[export] Instance StoryError_eq_dec : EqDecision StoryError.
Proof. solve_decision. Defined.

(** [Story::is_visible_to] *)
Definition is_visible_to (s : Story) (actor_id : ActorId) (is_contact is_close_friend : bool) : bool :=
  if eqb (story_owner_id s) actor_id then true
  else if bool_decide (actor_id ∈ sp_excluded_actor_ids (story_privacy s)) then false
  else if bool_decide (actor_id ∈ sp_included_actor_ids (story_privacy s)) then true
  else
    match sp_kind (story_privacy s) with
    | Everyone => true
    | ContactsOnly => is_contact
    | CloseFriends => is_close_friend
    | Selected => false
    end.

(** [Story::record_view] *)
Definition record_view (s : Story) (actor_id : ActorId) (viewed_at_ms : Z) : result StoryError Story :=
  if (story_expires_at_ms s <? viewed_at_ms) && negb (story_pinned_to_profile s)
  then Err (Expired (story_id s))
  else
    let view :=
      match story_views s !! actor_id with
      | Some view => view ⟪ view_viewed_at_ms ::= fun t => Z.min t viewed_at_ms ⟫
      | None => {| view_actor_id := actor_id; view_viewed_at_ms := viewed_at_ms;
                   view_reaction := None; view_forwarded := false |}
      end in
    Ok (s ⟪ story_views ::= <[actor_id := view]> ⟫).

(** [Story::react] *)
Definition react (s : Story) (actor_id : ActorId) (reaction : option string) : result StoryError Story :=
  view ← ok_or (story_views s !! actor_id) (ViewerNotFound actor_id);
  Ok (s ⟪ story_views ::= <[actor_id := view ⟪ view_reaction := reaction ⟫]> ⟫).

(** ** What recording and reacting keep *)

(** The parts of a story its viewers cannot change. *)
Definition same_story (s s' : Story) : Prop :=
  story_id s' = story_id s /\ story_owner_id s' = story_owner_id s
  /\ story_privacy s' = story_privacy s /\ story_expires_at_ms s' = story_expires_at_ms s
  /\ story_media s' = story_media s /\ story_caption s' = story_caption s.

Lemma record_view_ok s a t s' :
  record_view s a t = Ok s' ->
  same_story s s' /\ (t <= story_expires_at_ms s \/ story_pinned_to_profile s = true)
  /\ exists v, story_views s' = <[a := v]> (story_views s)
       /\ view_viewed_at_ms v <= t
       /\ (forall v0, story_views s !! a = Some v0 ->
             view_viewed_at_ms v <= view_viewed_at_ms v0 /\ view_reaction v = view_reaction v0).
Proof.
  unfold record_view. destruct (_ && _) eqn:E; [done|]. intros [= <-].
  split; [done|]. split.
  { apply andb_false_iff in E as [E|E]; [left; lia | right; by destruct (story_pinned_to_profile s)]. }
  eexists. split; [reflexivity|]. destruct (story_views s !! a) as [v0|]; fields; simpl.
  - split; [lia|]. intros ? [= <-]. split; [lia|done].
  - split; [lia|done].
Qed.

Lemma react_ok s a r s' :
  react s a r = Ok s' ->
  same_story s s' /\ exists v, story_views s !! a = Some v
    /\ story_views s' = <[a := v ⟪ view_reaction := r ⟫]> (story_views s).
Proof. unfold react. intros H. oks. subst s'. split; [done|]. eauto. Qed.

(** ** Bots ([bot.rs]): profiles, invocations and their executions *)

Record BotCommand := {
  bc_command : string;
  bc_description : string;
  bc_scopes : gset string;
}.

Record BotProfile := {
  bot_actor_id : ActorId;
  bot_description : string;
  bot_about : string;
  bot_commands : list BotCommand;
  bot_inline_mode_enabled : bool;
  bot_inline_placeholder : option string;
  bot_groups_allowed : bool;
  bot_privacy_mode : bool;
  bot_mini_app_id : option string;
  bot_payment_provider_ids : list string;
  bot_business_mode : bool;
}.

Record BotInvocation := {
  binv_id : string;
  binv_bot_id : ActorId;
  binv_sender_id : ActorId;
  binv_conversation_id : ConversationId;
  binv_command : option string;
  binv_text : FormattedText;
  binv_reply_to_message_id : option string;
  binv_metadata : gmap string string;
  binv_created_at_ms : Z;
}.

Inductive BotExecutionState :=
| ExecQueued | ExecRunning | ExecWaitingForApproval | ExecCompleted | ExecFailed | ExecCancelled.

Record BotExecution := {
  exec_id : string;
  exec_bot_id : ActorId;
  exec_invocation_id : string;
  exec_state : BotExecutionState;
  exec_started_at_ms : option Z;
  exec_finished_at_ms : option Z;
  exec_error : option string;
}.
#[export] Instance eta_BotExecution : Eta BotExecution := fun e =>
  Build_BotExecution (exec_id e) (exec_bot_id e) (exec_invocation_id e) (exec_state e)
    (exec_started_at_ms e) (exec_finished_at_ms e) (exec_error e).

Record BotRegistry := {
  reg_bots : gmap ActorId BotProfile;
  reg_executions : gmap string BotExecution;
}.
#[export] Instance eta_BotRegistry : Eta BotRegistry := fun r =>
  Build_BotRegistry (reg_bots r) (reg_executions r).

Definition empty_registry : BotRegistry := {| reg_bots := ∅; reg_executions := ∅ |}.

Inductive BotError :=
| InvalidBotId
| BotNotFound (id : ActorId)
| InvalidCommand (command : string)
| EmptyInvocation
| ExecutionNotFound (id : string).
#[export] Instance BotError_eq_dec : EqDecision BotError.
Proof. solve_decision. Defined.

(** [impl Debug for str]: quoting and escaping, whose Unicode tables belong to
    the standard library. *)
Class StrDebug := str_debug : string -> string.

(** The [#[error]] texts of [BotError]. *)
Definition bot_error_to_string `{StrDebug} (e : BotError) : string :=
  match e with
  | InvalidBotId => "bot identifier is invalid"
  | BotNotFound id => "bot ActorId(" +:+ str_debug (actor_id_0 id) +:+ ") was not found"
  | InvalidCommand c => "bot command " +:+ c +:+ " is invalid"
  | EmptyInvocation => "bot invocation is empty"
  | ExecutionNotFound id => "bot execution " +:+ id +:+ " was not found"
  end.

Definition validate_command (command : BotCommand) : result BotError unit :=
  let value := trim_start_matches "/" (bc_command command) in
  reject_if (is_empty value || (32 <? len value)
             || negb (all_bytes (fun b => is_ascii_lower b || is_ascii_digit b
                                          || eqb b "_"%char) value))
    (InvalidCommand (bc_command command)).

(** [for command in &profile.commands { validate_command(command)?; }] *)
Fixpoint validate_commands (commands : list BotCommand) : result BotError unit :=
  match commands with
  | [] => Ok tt
  | command :: rest => validate_command command ;; validate_commands rest
  end.

(** [BotRegistry::register] *)
Definition bot_register (r : BotRegistry) (profile : BotProfile) : result BotError BotRegistry :=
  reject_if (negb (actor_id_is_valid (bot_actor_id profile))) InvalidBotId ;;
  validate_commands (bot_commands profile) ;;
  Ok (r ⟪ reg_bots ::= <[bot_actor_id profile := profile]> ⟫).

(** [BotRegistry::begin_execution] *)
Definition begin_execution (r : BotRegistry) (invocation : BotInvocation) (now_ms : Z) :
    result BotError (BotRegistry * BotExecution) :=
  profile ← ok_or (reg_bots r !! binv_bot_id invocation) (BotNotFound (binv_bot_id invocation));
  reject_if (is_some_and (binv_command invocation) (fun _ => true) && bot_privacy_mode profile
             && blank (ft_text (binv_text invocation))) EmptyInvocation ;;
  let execution := {|
    exec_id := "bot-execution:" +:+ binv_id invocation;
    exec_bot_id := binv_bot_id invocation;
    exec_invocation_id := binv_id invocation;
    exec_state := ExecRunning;
    exec_started_at_ms := Some now_ms;
    exec_finished_at_ms := None;
    exec_error := None |} in
  Ok (r ⟪ reg_executions ::= <[exec_id execution := execution]> ⟫, execution).

(** [BotRegistry::finish_execution] *)
Definition finish_execution (r : BotRegistry) (execution_id : string) (success : bool) (now_ms : Z)
    (error : option string) : result BotError BotRegistry :=
  execution ← ok_or (reg_executions r !! execution_id) (ExecutionNotFound execution_id);
  Ok (r ⟪ reg_executions ::= <[execution_id :=
            execution ⟪ exec_state := if success then ExecCompleted else ExecFailed ⟫
                      ⟪ exec_finished_at_ms := Some now_ms ⟫
                      ⟪ exec_error := error ⟫]> ⟫).

(** A registry whose tables are keyed by the identifiers they hold. *)
Record registry_wf (r : BotRegistry) : Prop := {
  rw_bots : forall id p, reg_bots r !! id = Some p -> bot_actor_id p = id /\ actor_id_is_valid id = true
    /\ validate_commands (bot_commands p) = Ok tt;
  rw_executions : forall id e, reg_executions r !! id = Some e ->
    exec_id e = id /\ is_Some (reg_bots r !! exec_bot_id e);
}.

Lemma registry_wf_empty : registry_wf empty_registry.
Proof. split; simpl; intros *; by rewrite lookup_empty. Qed.

Lemma bot_register_wf r p r' : registry_wf r -> bot_register r p = Ok r' -> registry_wf r'.
Proof.
  intros [Hb He] H. unfold bot_register in H. oks. subst r'. split; fields.
  - intros id q [[<- <-]|[_ Hq]]%lookup_insert_Some; [|by apply Hb]. done.
  - intros id e Hq. destruct (He _ _ Hq) as [-> [q Hq']]. split; [done|].
    rewrite lookup_insert. case_decide; by eexists.
Qed.

Lemma begin_execution_wf r i now r' e :
  registry_wf r -> begin_execution r i now = Ok (r', e) -> registry_wf r'.
Proof.
  intros [Hb He] H. unfold begin_execution in H. oks. subst r'. split; fields; [done|].
  intros id q [[<- <-]|[_ Hq]]%lookup_insert_Some; [simpl; split; [done|by eexists]|by apply He].
Qed.

Lemma finish_execution_wf r id ok now err r' :
  registry_wf r -> finish_execution r id ok now err = Ok r' -> registry_wf r'.
Proof.
  intros [Hb He] H. unfold finish_execution in H. oks. subst r'. split; fields; [done|].
  intros k q [[<- <-]|[_ Hq]]%lookup_insert_Some; fields; by apply He.
Qed.

(** ** Mini apps ([miniapp.rs]): manifests, grants, sessions and requests *)

Inductive MiniAppPermission :=
| PermIdentity | PermTheme | PermClipboardRead | PermClipboardWrite | PermCamera | PermMicrophone
| PermLocation | PermContacts | PermFiles | PermNotifications | PermHaptics | PermPayments
| PermOpenExternal | PermSendMessage | PermReadConversation | PermServiceCall.
#[export] Instance MiniAppPermission_eq_dec : EqDecision MiniAppPermission.
Proof. solve_decision. Defined.

Record MiniAppManifest := {
  app_id : string;
  app_name : string;
  app_version : string;
  app_description : string;
  app_icon_url : option string;
  app_start_url : string;
  app_allowed_origins : list string;
  app_requested_permissions : list MiniAppPermission;
  app_bot_actor_id : option ActorId;
  app_verified : bool;
}.

Record MiniAppGrant := {
  grant_mini_app_id : string;
  grant_actor_id : ActorId;
  grant_permissions : list MiniAppPermission;
  grant_granted_at_ms : Z;
  grant_expires_at_ms : option Z;
}.

Record MiniAppSession := {
  session_id : string;
  session_mini_app_id : string;
  session_actor_id : ActorId;
  session_conversation_id : option ConversationId;
  session_start_parameter : option string;
  session_granted_permissions : list MiniAppPermission;
  session_opened_at_ms : Z;
  session_expires_at_ms : Z;
}.

Inductive MiniAppRequest :=
| Ready
| Expand
| Close
| SetHeaderColor (value : string)
| SetBackgroundColor (value : string)
| RequestTheme
| RequestViewport
| RequestIdentity
| RequestLocation
| RequestContact
| RequestWriteAccess
| ReadClipboard
| WriteClipboard (text : string)
| OpenExternal (url : string)
| OpenInvoice (invoice_id : string)
| SendData (data : string)
| SendMessage (text : string)
| Haptic (kind : string)
| StartServiceCall (call_id : MiniAppServiceCallId) (mode : MiniAppServiceCallMode)
| SubmitServiceCallInput (call_id : MiniAppServiceCallId) (input : MiniAppServiceCallInput)
| EndServiceCall (call_id : MiniAppServiceCallId).

Inductive MiniAppResponse :=
| ResponseOk
| ResponseError (code message : string)
| ResponseTheme (color_scheme : string) (values : list (string * string))
| ResponseViewport (width height stable_height : f64) (expanded : bool)
| ResponseIdentity (actor_id : ActorId) (display_name : string) (username : option string)
| ResponseLocation (latitude longitude : f64)
| ResponseContact (actor_id : option ActorId) (display_name : string)
| ResponseClipboard (text : option string)
| ResponseInvoiceStatus (invoice_id status : string)
| ResponseServiceCallStatus (call_id : MiniAppServiceCallId) (state : MiniAppServiceCallState).

Definition required_permissions (r : MiniAppRequest) : list MiniAppPermission :=
  match r with
  | RequestIdentity => [PermIdentity]
  | RequestLocation => [PermLocation]
  | RequestContact => [PermContacts]
  | RequestWriteAccess => [PermSendMessage]
  | ReadClipboard => [PermClipboardRead]
  | WriteClipboard _ => [PermClipboardWrite]
  | OpenExternal _ => [PermOpenExternal]
  | OpenInvoice _ => [PermPayments]
  | SendMessage _ | SendData _ => [PermSendMessage]
  | Haptic _ => [PermHaptics]
  | StartServiceCall _ mode =>
      PermServiceCall ::
        match mode with ModeVoice | ModeHybrid => [PermMicrophone] | ModeText => [] end
  | SubmitServiceCallInput _ input =>
      PermServiceCall ::
        match input with InputSpeechTranscript _ _ _ => [PermMicrophone] | _ => [] end
  | EndServiceCall _ => [PermServiceCall]
  | Ready | Expand | Close | SetHeaderColor _ | SetBackgroundColor _ | RequestTheme | RequestViewport => []
  end.

Definition required_permission (r : MiniAppRequest) : option MiniAppPermission :=
  head (required_permissions r).
