(* ===== verification/Community.v ===== *)
(** * Communities ([community.rs]): membership, invites, topics and the audit log *)

From S2P Require Import Prelude Text Maps Conversation.

Inductive MemberStatus := StOwner | StAdministrator | StMember | StRestricted | StLeft | StBanned.
#[export] Instance MemberStatus_eq_dec : EqDecision MemberStatus.
Proof. solve_decision. Defined.

Record AdminRights := {
  ar_change_info : bool;
  ar_post_messages : bool;
  ar_edit_messages : bool;
  ar_delete_messages : bool;
  ar_ban_members : bool;
  ar_invite_members : bool;
  ar_pin_messages : bool;
  ar_manage_topics : bool;
  ar_manage_calls : bool;
  ar_add_admins : bool;
  ar_remain_anonymous : bool;
}.

(** [AdminRights::default()] *)
Definition default_admin_rights : AdminRights :=
  {| ar_change_info := false; ar_post_messages := false; ar_edit_messages := false;
     ar_delete_messages := false; ar_ban_members := false; ar_invite_members := false;
     ar_pin_messages := false; ar_manage_topics := false; ar_manage_calls := false;
     ar_add_admins := false; ar_remain_anonymous := false |}.

Record MemberRestrictions := {
  mr_send_messages : bool;
  mr_send_media : bool;
  mr_send_polls : bool;
  mr_embed_links : bool;
  mr_add_members : bool;
  mr_pin_messages : bool;
  mr_change_info : bool;
  mr_until_ms : option Z;
}.

Definition default_restrictions : MemberRestrictions :=
  {| mr_send_messages := false; mr_send_media := false; mr_send_polls := false;
     mr_embed_links := false; mr_add_members := false; mr_pin_messages := false;
     mr_change_info := false; mr_until_ms := None |}.

Record CommunityMember := {
  cm_actor_id : ActorId;
  cm_status : MemberStatus;
  cm_admin_title : option string;
  cm_admin_rights : AdminRights;
  cm_restrictions : MemberRestrictions;
  cm_joined_at_ms : Z;
  cm_invited_by : option ActorId;
}.
#[export] Instance eta_CommunityMember : Eta CommunityMember := fun m =>
  Build_CommunityMember (cm_actor_id m) (cm_status m) (cm_admin_title m) (cm_admin_rights m)
    (cm_restrictions m) (cm_joined_at_ms m) (cm_invited_by m).

Record InviteLink := {
  il_id : string;
  il_conversation_id : ConversationId;
  il_creator_id : ActorId;
  il_token : string;
  il_name : option string;
  il_created_at_ms : Z;
  il_expires_at_ms : option Z;
  il_member_limit : option Z;
  il_join_request : bool;
  il_revoked : bool;
  il_joined_count : Z;
}.
#[export] Instance eta_InviteLink : Eta InviteLink := fun i =>
  Build_InviteLink (il_id i) (il_conversation_id i) (il_creator_id i) (il_token i) (il_name i)
    (il_created_at_ms i) (il_expires_at_ms i) (il_member_limit i) (il_join_request i) (il_revoked i)
    (il_joined_count i).

Record JoinRequest := {
  jr_conversation_id : ConversationId;
  jr_actor_id : ActorId;
  jr_invite_link_id : option string;
  jr_bio : option string;
  jr_requested_at_ms : Z;
}.

Record ForumTopicState := {
  ft_id : string;
  ft_conversation_id : ConversationId;
  ft_title : string;
  ft_icon : option string;
  ft_creator_id : ActorId;
  ft_created_at_ms : Z;
  ft_pinned : bool;
  ft_closed : bool;
  ft_hidden : bool;
  ft_unread_count : Z;
  ft_last_message_id : option string;
}.
#[export] Instance eta_ForumTopicState : Eta ForumTopicState := fun t =>
  Build_ForumTopicState (ft_id t) (ft_conversation_id t) (ft_title t) (ft_icon t) (ft_creator_id t)
    (ft_created_at_ms t) (ft_pinned t) (ft_closed t) (ft_hidden t) (ft_unread_count t)
    (ft_last_message_id t).

Record ChannelSubscription := {
  sub_actor_id : ActorId;
  sub_subscribed_at_ms : Z;
  sub_muted : bool;
}.

Inductive CommunityAuditAction :=
| CommunityUpdated | SubscriptionAdded | SubscriptionRemoved | MemberChanged | InviteCreated
| InviteRevoked | JoinApproved | JoinRejected | TopicUpserted | TopicDeleted | SlowModeChanged.
#[export] Instance CommunityAuditAction_eq_dec : EqDecision CommunityAuditAction.
Proof. solve_decision. Defined.

Record CommunityAuditEntry := {
  ae_id : string;
  ae_actor_id : ActorId;
  ae_action : CommunityAuditAction;
  ae_target_actor_id : option ActorId;
  ae_target_id : option string;
  ae_reason : option string;
  ae_created_at_ms : Z;
}.

Record CommunityState := {
  cs_conversation_id : ConversationId;
  cs_public_username : option string;
  cs_linked_discussion_id : option ConversationId;
  cs_signatures_enabled : bool;
  cs_join_to_send : bool;
  cs_join_request_required : bool;
  cs_slow_mode_seconds : option Z;
  cs_members : gmap ActorId CommunityMember;
  cs_invite_links : gmap string InviteLink;
  cs_pending_join_requests : gmap ActorId JoinRequest;
  cs_topics : gmap string ForumTopicState;
  cs_banned_words : gset string;
  cs_subscribers : gmap ActorId ChannelSubscription;
  cs_admin_log : list CommunityAuditEntry;
}.
#[export] Instance eta_CommunityState : Eta CommunityState := fun c =>
  Build_CommunityState (cs_conversation_id c) (cs_public_username c) (cs_linked_discussion_id c)
    (cs_signatures_enabled c) (cs_join_to_send c) (cs_join_request_required c)
    (cs_slow_mode_seconds c) (cs_members c) (cs_invite_links c) (cs_pending_join_requests c)
    (cs_topics c) (cs_banned_words c) (cs_subscribers c) (cs_admin_log c).

Inductive CommunityError :=
| PermissionDenied
| JoinRequestNotFound (id : ActorId)
| InviteNotFound (id : string)
| OwnerCannotUnsubscribe.
#[export] Instance CommunityError_eq_dec : EqDecision CommunityError.
Proof. solve_decision. Defined.

(** [CommunityState::new] *)
Definition community_new (conversation_id : ConversationId) : CommunityState := {|
  cs_conversation_id := conversation_id;
  cs_public_username := None;
  cs_linked_discussion_id := None;
  cs_signatures_enabled := false;
  cs_join_to_send := false;
  cs_join_request_required := false;
  cs_slow_mode_seconds := None;
  cs_members := ∅;
  cs_invite_links := ∅;
  cs_pending_join_requests := ∅;
  cs_topics := ∅;
  cs_banned_words := ∅;
  cs_subscribers := ∅;
  cs_admin_log := [];
|}.

(** ** Operations *)

Definition is_subscriber (c : CommunityState) (actor_id : ActorId) : bool :=
  contains_key actor_id (cs_subscribers c).

(** [members.get(actor_id).is_some_and(|member| ...)] *)
Definition member_is (c : CommunityState) (actor_id : ActorId) (p : CommunityMember -> bool) : bool :=
  is_some_and (cs_members c !! actor_id) p.

Definition has_status (st : list MemberStatus) (m : CommunityMember) : bool :=
  bool_decide (cm_status m ∈ st).

Definition is_owner (c : CommunityState) (actor_id : ActorId) : bool :=
  member_is c actor_id (has_status [StOwner]).

Definition subscribe_channel (c : CommunityState) (actor_id : ActorId) (subscribed_at_ms : Z) :
    result CommunityError CommunityState :=
  reject_if (member_is c actor_id (has_status [StBanned; StLeft])) PermissionDenied ;;
  Ok (match cs_subscribers c !! actor_id with
      | Some _ => c
      | None => c ⟪ cs_subscribers ::= <[actor_id := {| sub_actor_id := actor_id;
                      sub_subscribed_at_ms := subscribed_at_ms; sub_muted := false |}]> ⟫
      end).

Definition unsubscribe_channel (c : CommunityState) (actor_id : ActorId) :
    result CommunityError CommunityState :=
  reject_if (is_owner c actor_id) OwnerCannotUnsubscribe ;;
  Ok (c ⟪ cs_subscribers ::= delete actor_id ⟫).

Definition MAX_AUDIT_ENTRIES : nat := Z.to_nat 1000.

Definition append_audit (entry : CommunityAuditEntry) (c : CommunityState) : CommunityState :=
  let log := (cs_admin_log c ++ [entry])%list in
  c ⟪ cs_admin_log := if bool_decide (MAX_AUDIT_ENTRIES < length log)%nat
                      then drop (length log - MAX_AUDIT_ENTRIES) log else log ⟫.

(** The member a subscription stands for in a listing. *)
Definition subscriber_member (s : ChannelSubscription) : CommunityMember := {|
  cm_actor_id := sub_actor_id s;
  cm_status := StMember;
  cm_admin_title := None;
  cm_admin_rights := default_admin_rights;
  cm_restrictions := default_restrictions;
  cm_joined_at_ms := sub_subscribed_at_ms s;
  cm_invited_by := None;
|}.

Definition member_le (a b : CommunityMember) : Prop := key_le (cm_actor_id a) (cm_actor_id b).
#[export] Instance member_le_dec : RelDecision member_le.
Proof. intros a b. unfold member_le. apply _. Defined.
#[export] Instance member_le_total : Total member_le.
Proof. intros a b. unfold member_le. apply (total key_le). Qed.
#[export] Instance member_le_trans : Transitive member_le.
Proof. intros a b c. unfold member_le. apply (transitivity (R := key_le)). Qed.

(** [a > b] on strings *)
Definition str_gt (a b : string) : bool := negb (bool_decide (String.le a b)).

Definition MAX_PAGE : Z := 100.

Definition page_by_actor_id (members : list CommunityMember) (cursor : option string) (limit : Z) :
    list CommunityMember * option string :=
  let n := Z.of_nat (length members) in
  let position value :=
    (fun p => Z.of_nat (fst p)) <$> list_find (fun m => str_gt (actor_id_0 (cm_actor_id m)) value) members in
  let start := match cursor ≫= position with
               | Some i => i
               | None => if cursor then n else 0
               end in
  let page_limit := clamp 1 MAX_PAGE limit in
  let stop := Z.min (saturating_add_u64 start page_limit) n in
  let next := if stop <? n
              then (fun m => actor_id_0 (cm_actor_id m)) <$> members !! Z.to_nat (stop - 1)
              else None in
  (take (Z.to_nat (stop - start)) (drop (Z.to_nat start) members), next).

(** The listing [member_page] pages through. *)
Definition listed_members (c : CommunityState) : list CommunityMember :=
  merge_sort member_le
    (btree_values (cs_members c) ++
     (subscriber_member <$>
       filter (fun s => negb (contains_key (sub_actor_id s) (cs_members c)))
         (btree_values (cs_subscribers c))))%list.

Definition member_page (c : CommunityState) (cursor : option string) (limit : Z) :
    list CommunityMember * option string :=
  page_by_actor_id (listed_members c) cursor limit.

Definition audit_le (a b : CommunityAuditEntry) : Prop :=
  ae_created_at_ms a < ae_created_at_ms b
  \/ (ae_created_at_ms a = ae_created_at_ms b /\ String.le (ae_id a) (ae_id b)).
#[export] Instance audit_le_dec : RelDecision audit_le.
Proof. intros a b. unfold audit_le. apply _. Defined.
#[export] Instance audit_le_total : Total audit_le.
Proof.
  intros a b. unfold audit_le. pose proof (total String.le (ae_id a) (ae_id b)).
  destruct (Z.lt_trichotomy (ae_created_at_ms a) (ae_created_at_ms b)) as [|[|]]; intuition lia.
Qed.

Definition audit_page (c : CommunityState) (cursor : option string) (limit : Z) :
    list CommunityAuditEntry * option string :=
  let entries := merge_sort audit_le (cs_admin_log c) in
  let n := Z.of_nat (length entries) in
  let start := Z.min (default 0 (cursor ≫= parse_usize)) n in
  let page_limit := clamp 1 MAX_PAGE limit in
  let stop := Z.min (saturating_add_u64 start page_limit) n in
  let next := if stop <? n then Some (display stop) else None in
  (take (Z.to_nat (stop - start)) (drop (Z.to_nat start) entries), next).

Definition can_moderate (c : CommunityState) (actor_id : ActorId) : bool :=
  member_is c actor_id (fun m => has_status [StOwner] m
    || (has_status [StAdministrator] m && ar_delete_messages (cm_admin_rights m))).

Definition can_manage_invites (c : CommunityState) (actor_id : ActorId) : bool :=
  member_is c actor_id (fun m => has_status [StOwner] m
    || (has_status [StAdministrator] m && ar_invite_members (cm_admin_rights m))).

Definition upsert_member (member : CommunityMember) (c : CommunityState) : CommunityState :=
  c ⟪ cs_pending_join_requests ::= delete (cm_actor_id member) ⟫
    ⟪ cs_members ::= <[cm_actor_id member := member]> ⟫.

Definition request_join (request : JoinRequest) (c : CommunityState) : CommunityState :=
  c ⟪ cs_pending_join_requests ::= <[jr_actor_id request := request]> ⟫.

Definition approve_join (c : CommunityState) (actor_id approved_by : ActorId) (now_ms : Z) :
    result CommunityError CommunityState :=
  reject_if (negb (can_manage_invites c approved_by)) PermissionDenied ;;
  request ← ok_or (cs_pending_join_requests c !! actor_id) (JoinRequestNotFound actor_id);
  Ok (upsert_member {|
        cm_actor_id := jr_actor_id request;
        cm_status := StMember;
        cm_admin_title := None;
        cm_admin_rights := default_admin_rights;
        cm_restrictions := default_restrictions;
        cm_joined_at_ms := now_ms;
        cm_invited_by := Some approved_by |}
      (c ⟪ cs_pending_join_requests ::= delete actor_id ⟫)).

Definition revoke_invite (c : CommunityState) (invite_id : string) : result CommunityError CommunityState :=
  invite ← ok_or (cs_invite_links c !! invite_id) (InviteNotFound invite_id);
  Ok (c ⟪ cs_invite_links ::= <[invite_id := invite ⟪ il_revoked := true ⟫]> ⟫).

(** ** Coherence of the tables *)

(** The tables are keyed by the identifiers they hold. *)
Record community_keyed (c : CommunityState) : Prop := {
  ck_members : forall id m, cs_members c !! id = Some m -> cm_actor_id m = id;
  ck_subscribers : forall id s, cs_subscribers c !! id = Some s -> sub_actor_id s = id;
  ck_invites : forall id i, cs_invite_links c !! id = Some i -> il_id i = id;
  ck_requests : forall id r, cs_pending_join_requests c !! id = Some r -> jr_actor_id r = id;
  ck_topics : forall id t, cs_topics c !! id = Some t -> ft_id t = id;
}.

(** A community the engine keeps. *)
Record community_wf (c : CommunityState) : Prop := {
  cw_keyed : community_keyed c;
  cw_log : (length (cs_admin_log c) <= MAX_AUDIT_ENTRIES)%nat;
}.

Lemma community_wf_new id : community_wf (community_new id).
Proof. split; [split|]; simpl; [intros *; by rewrite lookup_empty..|lia]. Qed.

(** Insertions and deletions that keep a table keyed. *)
Lemma keyed_insert {K V : Type} `{Countable K} (f : V -> K) (m : gmap K V) (k : K) (v : V) :
  (forall j w, m !! j = Some w -> f w = j) -> f v = k ->
  forall j w, <[k := v]> m !! j = Some w -> f w = j.
Proof. intros Hm Hv j w [[<- <-]|[_ Hw]]%lookup_insert_Some; auto. Qed.

Lemma keyed_delete {K V : Type} `{Countable K} (f : V -> K) (m : gmap K V) (k : K) :
  (forall j w, m !! j = Some w -> f w = j) -> forall j w, delete k m !! j = Some w -> f w = j.
Proof. intros Hm j w [_ Hw]%lookup_delete_Some. auto. Qed.

Ltac keyed :=
  lazymatch goal with
  | |- forall j w, <[_ := _]> _ !! j = Some w -> ?f w = j => apply (keyed_insert f); [keyed | try reflexivity; auto]
  | |- forall j w, delete _ _ !! j = Some w -> ?f w = j => apply (keyed_delete f); keyed
  | |- _ => done
  end.

Lemma append_audit_length e c :
  (length (cs_admin_log c) <= MAX_AUDIT_ENTRIES)%nat ->
  (length (cs_admin_log (append_audit e c)) <= MAX_AUDIT_ENTRIES)%nat.
Proof.
  unfold append_audit. fields. case_bool_decide; rewrite ?length_drop; lia.
Qed.

Lemma append_audit_wf e c : community_wf c -> community_wf (append_audit e c).
Proof. intros [[] Hlog]. split; [by split | by apply append_audit_length]. Qed.

Lemma upsert_member_wf m c : community_wf c -> community_wf (upsert_member m c).
Proof. intros [[] Hlog]. split; [split; unfold upsert_member; fields|done]; keyed. Qed.

Lemma request_join_wf r c : community_wf c -> community_wf (request_join r c).
Proof. intros [[] Hlog]. split; [split; unfold request_join; fields|done]; keyed. Qed.

Lemma subscribe_channel_wf c a t c' : community_wf c -> subscribe_channel c a t = Ok c' -> community_wf c'.
Proof.
  intros Hwf H. unfold subscribe_channel in H. oks. subst c'. destruct (cs_subscribers c !! a); [done|].
  destruct Hwf as [[] Hlog]. split; [split; fields|done]; keyed.
Qed.

Lemma unsubscribe_channel_wf c a c' : community_wf c -> unsubscribe_channel c a = Ok c' -> community_wf c'.
Proof.
  intros [[] Hlog] H. unfold unsubscribe_channel in H. oks. subst c'.
  split; [split; fields|done]; keyed.
Qed.

Lemma approve_join_wf c a b t c' : community_wf c -> approve_join c a b t = Ok c' -> community_wf c'.
Proof.
  intros [[] Hlog] H. unfold approve_join in H. oks. subst c'. apply upsert_member_wf.
  split; [split; fields|done]; keyed.
Qed.

Lemma revoke_invite_wf c i c' : community_wf c -> revoke_invite c i = Ok c' -> community_wf c'.
Proof.
  intros [[] Hlog] H. unfold revoke_invite in H. oks. subst c'.
  split; [split; fields|done]; keyed.
  apply (ck_invites0 _ _ Hok).
Qed.

(** ** Paging through the members *)

Lemma str_gt_spec (a b : string) : str_gt a b = true <-> ~ String.le a b.
Proof. unfold str_gt. rewrite negb_true_iff, bool_decide_eq_false. done. Qed.

Lemma elem_of_listed_members c m :
  m ∈ listed_members c <->
  (exists id, cs_members c !! id = Some m)
  \/ (exists id s, cs_subscribers c !! id = Some s /\ m = subscriber_member s
        /\ cs_members c !! sub_actor_id s = None).
Proof.
  unfold listed_members. rewrite merge_sort_Permutation, elem_of_app, elem_of_btree_values, list_elem_of_fmap.
  setoid_rewrite list_elem_of_filter. setoid_rewrite elem_of_btree_values.
  setoid_rewrite <- contains_key_false. split.
  - intros [H|(s & -> & Hn & id & Hs)]; [by left|]. right. exists id, s. split_and!; [done..|].
    by destruct (contains_key _ _).
  - intros [H|(id & s & Hs & -> & Hn)]; [by left|]. right. exists s. split_and!; [done| |by eexists].
    by rewrite Hn.
Qed.

Lemma listed_members_nodup c : community_keyed c -> NoDup (cm_actor_id <$> listed_members c).
Proof.
  intros [Hm Hs _ _ _]. unfold listed_members. rewrite merge_sort_Permutation, fmap_app.
  assert (forall {V} (f : V -> ActorId) (t : gmap ActorId V),
    (forall id v, t !! id = Some v -> f v = id) -> f <$> btree_values t ≡ₚ (map_to_list t).*1) as Hkeys.
  { intros V f t Hf. rewrite btree_values_perm, <- list_fmap_compose. apply reflexive_eq.
    apply list_fmap_ext. intros i [k v] Hi. simpl. apply Hf.
    apply elem_of_map_to_list. by eapply list_elem_of_lookup_2. }
  apply list.NoDup_app. split_and!.
  - rewrite (Hkeys _ cm_actor_id) by done. apply NoDup_fst_map_to_list.
  - intros a (m & -> & (k & Hk)%elem_of_btree_values)%list_elem_of_fmap
      (m' & Heq & (s & -> & [Hn _]%list_elem_of_filter)%list_elem_of_fmap)%list_elem_of_fmap.
    simpl in Heq. rewrite <- Heq in Hn. rewrite (Hm _ _ Hk) in Hn.
    unfold contains_key in Hn. by rewrite Hk in Hn.
  - rewrite <- list_fmap_compose. change (cm_actor_id ∘ subscriber_member) with sub_actor_id.
    eapply sublist_NoDup; [|apply fmap_sublist, sublist_filter].
    rewrite (Hkeys _ sub_actor_id) by done. apply NoDup_fst_map_to_list.
Qed.

Lemma position_after (l : list CommunityMember) (i : nat) (m : CommunityMember) :
  StronglySorted member_le l -> NoDup (cm_actor_id <$> l) -> l !! i = Some m ->
  list_find (fun x => str_gt (actor_id_0 (cm_actor_id x)) (actor_id_0 (cm_actor_id m))) l
  = pair (S i) <$> l !! S i.
Proof.
  intros Hs Hnd Hi.
  assert (forall j x, l !! j = Some x ->
    (str_gt (actor_id_0 (cm_actor_id x)) (actor_id_0 (cm_actor_id m)) <-> (i < j)%nat)) as Hgt.
  { intros j x Hj. rewrite Is_true_true, str_gt_spec. split.
    - intros Hn. destruct (decide (i < j)%nat) as [|Hge]; [done|]. destruct Hn.
      destruct (decide (i = j)) as [->|Hne]; [simplify_eq; apply (reflexivity (R := String.le))|].
      change (member_le x m). eapply sorted_lookup; eauto with lia.
    - intros Hij Hle. assert (member_le m x) as Hle' by (eapply sorted_lookup; eauto).
      assert (actor_id_0 (cm_actor_id m) = actor_id_0 (cm_actor_id x)) as Heq by by apply (anti_symm String.le).
      assert (cm_actor_id m = cm_actor_id x) as Heq'.
      { destruct (cm_actor_id m), (cm_actor_id x). simpl in Heq. congruence. }
      assert (i = j); [|lia]. eapply NoDup_lookup; [exact Hnd| |];
        rewrite list_lookup_fmap, ?Hi, ?Hj; simpl; [done|by rewrite Heq']. }
  destruct (l !! S i) as [y|] eqn:Hy; simpl.
  - apply list_find_Some. split_and!; [done|by apply (Hgt (S i)); [|lia]|].
    intros j x Hj Hlt Hx. apply (Hgt j x Hj) in Hx. lia.
  - apply list_find_None. apply Forall_lookup. intros j x Hj Hx. apply (Hgt j x Hj) in Hx.
    apply lookup_lt_Some in Hj. apply lookup_ge_None in Hy. lia.
Qed.

(** The cursors of [member_page]: the last identifier of the page before. *)
Definition member_cursor (l : list CommunityMember) (cursor : option string) (i : nat) : Prop :=
  match cursor with
  | None => i = 0%nat
  | Some v => exists m k, l !! k = Some m /\ i = S k /\ v = actor_id_0 (cm_actor_id m)
  end.

Lemma page_by_actor_id_step (l : list CommunityMember) (limit : Z) (cursor : option string) (i : nat) :
  StronglySorted member_le l -> NoDup (cm_actor_id <$> l) -> Z.of_nat (length l) <= u64_max ->
  member_cursor l cursor i -> (i <= length l)%nat ->
  exists j, (i <= j <= length l)%nat
    /\ fst (page_by_actor_id l cursor limit) = take (j - i) (drop i l)
    /\ match snd (page_by_actor_id l cursor limit) with
       | None => j = length l
       | Some next => (i < j)%nat /\ member_cursor l (Some next) j
       end.
Proof.
  intros Hs Hnd Hlen Hc Hi. unfold page_by_actor_id.
  set (start := match _ with Some _ => _ | None => _ end).
  assert (start = Z.of_nat i) as ->.
  { subst start. destruct cursor as [v|]; simpl; [|by rewrite Hc].
    destruct Hc as (m & k & Hk & -> & ->). rewrite (position_after l k m) by done.
    destruct (l !! S k) as [y|] eqn:Hy; simpl; [done|]. apply lookup_ge_None in Hy. lia. }
  set (lim := clamp 1 MAX_PAGE limit). assert (1 <= lim) by (subst lim; unfold clamp; lia). clearbody lim.
  set (stop := Z.min _ _). assert (Z.of_nat i <= stop <= Z.of_nat (length l)
    /\ (stop < Z.of_nat (length l) -> Z.of_nat i < stop)) as [Hstop Hlt].
  { subst stop. unfold saturating_add_u64, clamp. lia. }
  exists (Z.to_nat stop). split_and!; [lia|lia|simpl; f_equal; [lia|f_equal; lia]|]. simpl.
  destruct (Z.ltb_spec stop (Z.of_nat (length l))) as [Hl|Hl]; [|simpl; lia].
  destruct (lookup_lt_is_Some_2 l (Z.to_nat (stop - 1))) as [m Hm]; [lia|]. rewrite Hm. simpl.
  split; [lia|]. exists m, (Z.to_nat (stop - 1)). split_and!; [done|lia|done].
Qed.

(** C20: Following the cursors of [member_page] lists the whole membership.  From
    the first page on, at most one page per member, the pages end, and together
    they are the members and the subscribers without a member record, each
    exactly once, in the order of their identifiers. *)
Theorem member_pages_list_everyone (c : CommunityState) (limit : Z) :
  community_keyed c -> Z.of_nat (length (listed_members c)) <= u64_max ->
  exists all,
    collect_pages (fun cursor => member_page c cursor limit) (S (length (listed_members c))) None = Some all
    /\ NoDup (cm_actor_id <$> all) /\ StronglySorted member_le all
    /\ forall id, id ∈ cm_actor_id <$> all <-> is_Some (cs_members c !! id) \/ is_Some (cs_subscribers c !! id).
Proof.
  intros Hk Hlen. exists (listed_members c).
  pose proof (listed_members_nodup c Hk) as Hnd.
  assert (StronglySorted member_le (listed_members c)) as Hs.
  { apply (StronglySorted_merge_sort member_le). }
  split_and!; [|done|done|].
  - rewrite (collect_pages_all _ (listed_members c) (member_cursor (listed_members c))) with (i := 0%nat);
      [done| |done|lia|lia].
    intros cursor i Hc Hi. by apply page_by_actor_id_step.
  - intros id. rewrite list_elem_of_fmap. setoid_rewrite elem_of_listed_members. destruct Hk as [Hm Hsub _ _ _]. split.
    + intros (m & -> & [[k Hk]|(k & s & Hk & -> & _)]).
      * left. rewrite (Hm _ _ Hk). by eexists.
      * right. simpl. rewrite (Hsub _ _ Hk). by eexists.
    + destruct (cs_members c !! id) as [m|] eqn:E.
      * intros _. exists m. split; [by rewrite (Hm _ _ E)|left; by eexists].
      * intros [[? ?]|[s Hid]]; [done|]. exists (subscriber_member s). simpl.
        rewrite (Hsub _ _ Hid). split; [done|]. right. exists id, s. by rewrite (Hsub _ _ Hid).
Qed.

Lemma audit_page_step c limit cursor i :
  Z.of_nat (length (cs_admin_log c)) <= u64_max ->
  default 0 (cursor ≫= parse_usize) = Z.of_nat i -> (i <= length (merge_sort audit_le (cs_admin_log c)))%nat ->
  exists j, (i <= j <= length (merge_sort audit_le (cs_admin_log c)))%nat
    /\ fst (audit_page c cursor limit) = take (j - i) (drop i (merge_sort audit_le (cs_admin_log c)))
    /\ match snd (audit_page c cursor limit) with
       | None => j = length (merge_sort audit_le (cs_admin_log c))
       | Some next => (i < j)%nat /\ default 0 (Some next ≫= parse_usize) = Z.of_nat j
       end.
Proof.
  rewrite <- (Permutation_length (merge_sort_Permutation audit_le (cs_admin_log c))).
  unfold audit_page. generalize (merge_sort audit_le (cs_admin_log c)) as l. intros l Hlen Hc Hi.
  rewrite Hc. set (lim := clamp 1 MAX_PAGE limit). assert (1 <= lim) by (subst lim; unfold clamp; lia). clearbody lim.
  rewrite (Z.min_l (Z.of_nat i)) by lia.
  set (stop := Z.min _ _). assert (Z.of_nat i <= stop <= Z.of_nat (length l)
    /\ (stop < Z.of_nat (length l) -> Z.of_nat i < stop)) as [Hstop Hlt].
  { subst stop. unfold saturating_add_u64, clamp. lia. }
  exists (Z.to_nat stop). split_and!; [lia|lia|simpl; f_equal; [lia|f_equal; lia]|]. simpl.
  destruct (Z.ltb_spec stop (Z.of_nat (length l))) as [Hl|Hl]; [|simpl; lia].
  simpl. rewrite parse_display by lia. simpl. lia.
Qed.

(** Following the cursors of [audit_page], printed and parsed again between
    requests, reads the whole audit log, each entry once, oldest first. *)
Theorem audit_pages_list_log (c : CommunityState) (limit : Z) :
  Z.of_nat (length (cs_admin_log c)) <= u64_max ->
  exists all,
    collect_pages (fun cursor => audit_page c cursor limit) (S (length (cs_admin_log c))) None = Some all
    /\ all ≡ₚ cs_admin_log c /\ Sorted audit_le all.
Proof.
  intros Hlen. exists (merge_sort audit_le (cs_admin_log c)). split_and!.
  - pose proof (Permutation_length (merge_sort_Permutation audit_le (cs_admin_log c))) as Hl.
    rewrite (collect_pages_all _ (merge_sort audit_le (cs_admin_log c))
      (fun cursor i => default 0 (cursor ≫= parse_usize) = Z.of_nat i)) with (i := 0%nat);
      [done| |done|lia|lia].
    intros cursor i Hc Hi. by apply audit_page_step.
  - apply merge_sort_Permutation.
  - apply (Sorted_merge_sort audit_le).
Qed.

(** The audit log is bounded and keeps the newest entries: appending to a
    log of at most 1000 entries gives at most 1000 entries, the new one is the
    last, and exactly the oldest one is dropped when the log was full. *)
Theorem append_audit_keeps_newest (c : CommunityState) (e : CommunityAuditEntry) :
  (length (cs_admin_log c) <= MAX_AUDIT_ENTRIES)%nat ->
  (length (cs_admin_log (append_audit e c)) <= MAX_AUDIT_ENTRIES)%nat
  /\ list.last (cs_admin_log (append_audit e c)) = Some e
  /\ cs_admin_log (append_audit e c)
     = ((if decide (length (cs_admin_log c) = MAX_AUDIT_ENTRIES) then tail (cs_admin_log c) else cs_admin_log c)
        ++ [e])%list
  /\ cs_members (append_audit e c) = cs_members c.
Proof.
  intros Hlen.
  assert (cs_admin_log (append_audit e c)
     = ((if decide (length (cs_admin_log c) = MAX_AUDIT_ENTRIES) then tail (cs_admin_log c) else cs_admin_log c)
        ++ [e])%list) as Heq.
  { unfold append_audit. fields. rewrite length_app. simpl length.
    destruct (decide (length (cs_admin_log c) = MAX_AUDIT_ENTRIES)) as [E|E].
    - rewrite bool_decide_true by lia. rewrite E.
      replace (MAX_AUDIT_ENTRIES + 1 - MAX_AUDIT_ENTRIES)%nat with 1%nat by lia.
      destruct (cs_admin_log c); [discriminate E|done].
    - rewrite bool_decide_false by lia. done. }
  rewrite Heq, last_snoc, length_app. split_and!; [|done..]. simpl.
  case_decide as E; [|lia]. destruct (cs_admin_log c); [discriminate E | simpl in *; lia].
Qed.

(** ** Witnesses *)

Definition sample_member (name : string) (st : MemberStatus) : CommunityMember := {|
  cm_actor_id := MkActorId name; cm_status := st; cm_admin_title := None;
  cm_admin_rights := default_admin_rights; cm_restrictions := default_restrictions;
  cm_joined_at_ms := 0; cm_invited_by := None |}.
Definition sample_audit (id : string) (t : Z) : CommunityAuditEntry := {|
  ae_id := id; ae_actor_id := MkActorId "ann"; ae_action := MemberChanged; ae_target_actor_id := None;
  ae_target_id := None; ae_reason := None; ae_created_at_ms := t |}.
Definition sample_community : CommunityState :=
  append_audit (sample_audit "x" 5) (append_audit (sample_audit "y" 2)
    (upsert_member (sample_member "cleo" StBanned) (upsert_member (sample_member "ann" StOwner)
      ((community_new (MkConversationId "room"))
        ⟪ cs_subscribers := {[ MkActorId "bob" := {| sub_actor_id := MkActorId "bob";
             sub_subscribed_at_ms := 3; sub_muted := false |} ]} ⟫)))).

Lemma sample_community_keyed : community_keyed sample_community.
Proof.
  apply cw_keyed. unfold sample_community. apply append_audit_wf, append_audit_wf, upsert_member_wf, upsert_member_wf.
  split; [split; fields|simpl; lia]; simpl; intros *; [by rewrite lookup_empty| |by rewrite lookup_empty..].
  intros [<- <-]%lookup_singleton_Some. done.
Qed.

Lemma member_pages_list_everyone_witness :
  exists all, collect_pages (fun cursor => member_page sample_community cursor 1) 4 None = Some all
    /\ (MkActorId "bob" ∈ cm_actor_id <$> all).
Proof.
  destruct (member_pages_list_everyone sample_community 1 sample_community_keyed) as (all & H & _ & _ & Hin);
    [vm_compute; discriminate|].
  exists all. split; [exact H|]. apply Hin. right. eexists. vm_compute. reflexivity.
Defined.

Lemma audit_pages_list_log_witness :
  exists all, collect_pages (fun cursor => audit_page sample_community cursor 1) 3 None = Some all
    /\ all ≡ₚ cs_admin_log sample_community.
Proof.
  destruct (audit_pages_list_log sample_community 1) as (all & H & Hp & _); [vm_compute; discriminate|].
  exists all. split; [exact H|exact Hp].
Defined.

Lemma append_audit_keeps_newest_witness :
  list.last (cs_admin_log (append_audit (sample_audit "z" 9) sample_community)) = Some (sample_audit "z" 9).
Proof. apply append_audit_keeps_newest. vm_compute. lia. Defined.
