(* ===== verification/EngineTypes.v ===== *)
(** * The messaging engine's data ([engine.rs]): commands, events, state, errors *)

From S2P Require Import Prelude Text Maps Conversation Message Payment Wallet Apps Community.

Inductive Command :=
| UpsertActor (actor : Actor)
| SetPresence (actor_id : ActorId) (presence : Presence)
| UpsertConversation (conversation : Conversation)
| UpdateConversationInfo (conversation_id : ConversationId) (title : string) (description : option string)
| SetConversationParticipant (conversation_id : ConversationId) (participant : Participant)
| RemoveConversationParticipant (conversation_id : ConversationId) (actor_id : ActorId)
| ArchiveConversation (conversation_id : ConversationId) (archived : bool)
| PinConversation (conversation_id : ConversationId) (pinned : bool)
| SetMarkedUnread (conversation_id : ConversationId) (actor_id : ActorId) (marked_unread : bool)
| SetDraft (draft : ConversationDraft)
| SetConversationNotifications (conversation_id : ConversationId) (settings : NotificationSettings)
| SetConversationMessageRetention (conversation_id : ConversationId) (retention_seconds : option Z)
    (expected_revision : Z)
| UpsertFolder (folder : ConversationFolder)
| DeleteFolder (folder_id : string)
| QueueMessage (conversation_id : ConversationId) (local_message_id : MessageId)
    (client_message_id : ClientMessageId) (sender_id : ActorId) (content : MessageContent)
    (reply_to_message_id thread_root_message_id : option MessageId) (created_at_ms : Z)
    (scheduled_at_ms : option Z) (silent protected_content : bool)
| ForwardMessage (source_conversation_id : ConversationId) (message_id : MessageId)
    (destination_conversation_id : ConversationId) (local_message_id : MessageId)
    (client_message_id : ClientMessageId) (sender_id : ActorId) (created_at_ms : Z)
| AcknowledgeMessage (conversation_id : ConversationId) (local_message_id server_message_id : MessageId)
    (accepted_at_ms : Z)
| SetDeliveryState (conversation_id : ConversationId) (message_id : MessageId) (state : DeliveryState)
| EditMessage (conversation_id : ConversationId) (message_id : MessageId) (content : MessageContent)
    (edited_at_ms : Z)
| DeleteMessages (conversation_id : ConversationId) (message_ids : list MessageId)
| MarkRead (conversation_id : ConversationId) (actor_id : ActorId) (message_id : MessageId)
| MarkTopicRead (conversation_id : ConversationId) (topic_id : string) (actor_id : ActorId)
    (message_id : MessageId)
| SetTopicDraft (draft : TopicDraft)
| SetReaction (conversation_id : ConversationId) (message_id : MessageId) (reaction : ReactionSummary)
| PinMessage (conversation_id : ConversationId) (message_id : MessageId) (pinned : bool)
| VotePoll (conversation_id : ConversationId) (message_id : MessageId) (actor_id : ActorId)
    (option_ids : list string)
| CreateInvoice (invoice : Invoice)
| UpsertOrder (order : PaymentOrder)
| CheckoutInvoice (invoice_id order_id : string) (buyer_id : ActorId) (customer : option CustomerInfo)
    (created_at_ms : Z)
| RefundOrder (order_id : string) (seller_id : ActorId) (request_id : string) (refunded_at_ms : Z)
| CreditWalletSettlement (request_id : string) (owner_id : ActorId) (amount : Money)
    (reference : option string) (settled_at_ms : Z)
| PublishStory (actor_id : ActorId) (story : Story)
| DeleteStory (actor_id : ActorId) (story_id : StoryId)
| ViewStory (actor_id : ActorId) (story_id : StoryId) (viewed_at_ms : Z)
| ReactStory (actor_id : ActorId) (story_id : StoryId) (reaction : option string)
| UpdateCommunity (actor_id : ActorId) (community : CommunityState)
| SubscribeChannel (actor_id : ActorId) (conversation_id : ConversationId) (subscribed_at_ms : Z)
| UnsubscribeChannel (actor_id : ActorId) (conversation_id : ConversationId) (unsubscribed_at_ms : Z)
| SetCommunitySlowMode (actor_id : ActorId) (conversation_id : ConversationId) (seconds : option Z)
    (changed_at_ms : Z)
| ModerateCommunityMember (actor_id : ActorId) (conversation_id : ConversationId)
    (member : CommunityMember) (reason : option string) (decided_at_ms : Z)
| SetCommunityMember (actor_id : ActorId) (conversation_id : ConversationId) (member : CommunityMember)
| CreateInviteLink (actor_id : ActorId) (invite : InviteLink)
| RevokeInviteLink (actor_id : ActorId) (conversation_id : ConversationId) (invite_id : string)
    (revoked_at_ms : Z)
| RequestCommunityJoin (actor_id : ActorId) (request : JoinRequest)
| RespondCommunityJoin (actor_id : ActorId) (conversation_id : ConversationId) (requester_id : ActorId)
    (approved : bool) (decided_at_ms : Z)
| UpsertForumTopic (actor_id : ActorId) (topic : ForumTopicState)
| DeleteForumTopic (actor_id : ActorId) (conversation_id : ConversationId) (topic_id : string)
| RegisterBot (actor_id : ActorId) (profile : BotProfile)
| BeginBotInvocation (actor_id : ActorId) (invocation : BotInvocation) (created_at_ms : Z)
| FinishBotExecution (actor_id : ActorId) (execution_id : string) (success : bool) (finished_at_ms : Z)
    (error : option string)
| InstallMiniApp (manifest : MiniAppManifest)
| GrantMiniApp (grant : MiniAppGrant)
| OpenMiniApp (session : MiniAppSession)
| MiniAppCall (session_id request_id : string) (request : MiniAppRequest).

Inductive Event :=
| ActorUpserted (actor : Actor)
| PresenceUpdated (actor_id : ActorId) (presence : Presence)
| ConversationUpserted (conversation : Conversation)
| ConversationInfoUpdated (conversation_id : ConversationId) (title : string) (description : option string)
| ConversationParticipantUpserted (conversation_id : ConversationId) (participant : Participant)
| ConversationParticipantRemoved (conversation_id : ConversationId) (actor_id : ActorId)
| ConversationArchived (conversation_id : ConversationId) (archived : bool)
| ConversationPinned (conversation_id : ConversationId) (pinned : bool)
| ConversationMarkedUnread (conversation_id : ConversationId) (actor_id : ActorId) (marked_unread : bool)
| DraftChanged (draft : ConversationDraft)
| ConversationNotificationsUpdated (conversation_id : ConversationId) (settings : NotificationSettings)
| ConversationMessageRetentionUpdated (conversation_id : ConversationId)
    (retention : ConversationMessageRetention)
| FolderUpserted (folder : ConversationFolder)
| FolderDeleted (folder_id : string)
| MessageQueued (message : Message)
| MessageAcknowledged (conversation_id : ConversationId) (local_message_id server_message_id : MessageId)
    (accepted_at_ms : Z)
| DeliveryStateUpdated (conversation_id : ConversationId) (message_id : MessageId) (state : DeliveryState)
| MessageEdited (conversation_id : ConversationId) (message_id : MessageId) (content : MessageContent)
    (edited_at_ms : Z)
| MessagesDeleted (conversation_id : ConversationId) (message_ids : list MessageId)
| ConversationRead (conversation_id : ConversationId) (actor_id : ActorId) (message_id : MessageId)
| TopicReadChanged (conversation_id : ConversationId) (topic_id : string) (actor_id : ActorId)
    (message_id : MessageId)
| TopicDraftChanged (draft : TopicDraft)
| ReactionUpdated (conversation_id : ConversationId) (message_id : MessageId) (reaction : ReactionSummary)
| MessagePinned (conversation_id : ConversationId) (message_id : MessageId) (pinned : bool)
| PollVoteChanged (conversation_id : ConversationId) (message_id : MessageId) (actor_id : ActorId)
    (option_ids : list string)
| InvoiceCreated (invoice : Invoice)
| OrderUpserted (order : PaymentOrder)
| WalletChanged (wallet : WalletLedger) (entry : LedgerEntry)
| StoryChanged (story : Story)
| StoryDeleted (story_id : StoryId)
| CommunityChanged (community : CommunityState)
| BotRegistryChanged (registry : BotRegistry) (profile : option BotProfile) (execution : option BotExecution)
| MiniAppInstalled (manifest : MiniAppManifest)
| MiniAppGrantUpdated (grant : MiniAppGrant)
| MiniAppOpened (session : MiniAppSession)
| MiniAppResponded (session_id request_id : string) (response : MiniAppResponse).

Record MessagingState := {
  st_actors : gmap ActorId Actor;
  st_conversations : gmap ConversationId Conversation;
  st_folders : gmap string ConversationFolder;
  st_messages : gmap ConversationId (gmap MessageId Message);
  st_read_cursors : gmap ConversationId (gmap ActorId MessageId);
  st_topic_read_cursors : gmap ConversationId (gmap ActorId (gmap string MessageId));
  st_poll_votes : gmap ConversationId (gmap MessageId (gmap ActorId (gset string)));
  st_marked_unread_by_actor : gmap ConversationId (gset ActorId);
  st_drafts : gmap ConversationId (gmap ActorId ConversationDraft);
  st_topic_drafts : gmap ConversationId (gmap ActorId (gmap string TopicDraft));
  st_invoices : gmap string Invoice;
  st_orders : gmap string PaymentOrder;
  st_wallet : WalletLedger;
  st_stories : gmap StoryId Story;
  st_communities : gmap ConversationId CommunityState;
  st_bots : BotRegistry;
  st_mini_apps : gmap string MiniAppManifest;
  st_mini_app_grants : gmap (string * ActorId) MiniAppGrant;
  st_mini_app_sessions : gmap string MiniAppSession;
}.
#[export] Instance eta_MessagingState : Eta MessagingState := fun s =>
  Build_MessagingState (st_actors s) (st_conversations s) (st_folders s) (st_messages s)
    (st_read_cursors s) (st_topic_read_cursors s) (st_poll_votes s) (st_marked_unread_by_actor s)
    (st_drafts s) (st_topic_drafts s) (st_invoices s) (st_orders s) (st_wallet s) (st_stories s)
    (st_communities s) (st_bots s) (st_mini_apps s) (st_mini_app_grants s) (st_mini_app_sessions s).

(** [MessagingState::default()] *)
Definition empty_state : MessagingState := {|
  st_actors := ∅; st_conversations := ∅; st_folders := ∅; st_messages := ∅; st_read_cursors := ∅;
  st_topic_read_cursors := ∅; st_poll_votes := ∅; st_marked_unread_by_actor := ∅; st_drafts := ∅;
  st_topic_drafts := ∅; st_invoices := ∅; st_orders := ∅; st_wallet := empty_ledger; st_stories := ∅;
  st_communities := ∅; st_bots := empty_registry; st_mini_apps := ∅; st_mini_app_grants := ∅;
  st_mini_app_sessions := ∅ |}.

Inductive EngineError :=
| InvalidActor
| ActorNotFound (id : ActorId)
| InvalidConversation
| ConversationNotFound (id : ConversationId)
| InvalidConversationParticipant
| MessageNotFound (conversation_id : ConversationId) (message_id : MessageId)
| DuplicateMessage (conversation_id : ConversationId) (message_id : MessageId)
| InvalidClientMessageId
| EmptyMessageList
| InvalidPollVote
| ProtectedContent
| SenderNotParticipant (conversation_id : ConversationId) (actor_id : ActorId)
| MessageSendPermissionDenied (id : ConversationId)
| MediaSendPermissionDenied (id : ConversationId)
| PollSendPermissionDenied (id : ConversationId)
| EMessageRetention (e : MessageRetentionError)
| InvalidSecretConversation
| SecretPlaintextRejected
| SecretContentOutsideSecretConversation
| SecretEnvelopeMismatch
| InvalidStory
| StoryNotFound (id : StoryId)
| StoryPermissionDenied (id : StoryId)
| EStory (e : StoryError)
| CommunityNotFound (id : ConversationId)
| CommunityPermissionDenied
| CommunitySendRestricted (id : ConversationId)
| CommunityMediaRestricted (id : ConversationId)
| CommunityPollRestricted (id : ConversationId)
| CommunityAccessDenied (conversation_id : ConversationId) (actor_id : ActorId)
| SlowModeActive (conversation_id : ConversationId) (retry_at_ms : Z)
| ForumTopicNotFound (conversation_id : ConversationId) (topic_id : string)
| ForumTopicClosed (conversation_id : ConversationId) (topic_id : string)
| TopicMessageMismatch (topic_id : string)
| ECommunity (e : CommunityError)
| BotPermissionDenied
| EBot (text : string)
| InvalidInvoice
| InvoiceNotFound (id : string)
| OrderNotFound (id : string)
| InvoiceExpired (id : string)
| OrderConflict (id : string)
| RefundForbidden (id : string)
| OrderNotRefundable (id : string)
| EWallet (e : WalletError)
| MiniAppNotFound (id : string)
| MiniAppSessionNotFound (id : string)
| MiniAppPermissionDenied (permission : MiniAppPermission)
| MiniAppHostActionRequired.
#[export] Instance EngineError_eq_dec : EqDecision EngineError.
Proof. solve_decision. Defined.

(** What every step of the engine returns. *)
Notation outcome A := (result EngineError A) (only parsing).
