(* ===== verification/EngineCore.v ===== *)
(** * Shared checks of the engine ([engine.rs]) *)

From S2P Require Import Prelude Text Maps Conversation Message Wallet Community EngineTypes.

(** ** Lookups that fail with an engine error *)

Definition require_actor (s : MessagingState) (id : ActorId) : outcome Actor :=
  ok_or (st_actors s !! id) (ActorNotFound id).

Definition require_conversation (s : MessagingState) (id : ConversationId) : outcome Conversation :=
  ok_or (st_conversations s !! id) (ConversationNotFound id).

Definition find_message (s : MessagingState) (conversation_id : ConversationId) (message_id : MessageId) :
    option Message :=
  messages ← st_messages s !! conversation_id; messages !! message_id.

Definition require_message (s : MessagingState) (conversation_id : ConversationId) (message_id : MessageId) :
    outcome Message :=
  ok_or (find_message s conversation_id message_id) (MessageNotFound conversation_id message_id).

(** [self.state.communities.get(id).cloned().ok_or_else(...)] *)
Definition require_community (s : MessagingState) (id : ConversationId) : outcome CommunityState :=
  ok_or (st_communities s !! id) (CommunityNotFound id).

(** [matches!(kind, Group | Channel)] *)
Definition is_group_or_channel (c : Conversation) : bool :=
  bool_decide (conv_kind c ∈ [Group; Channel]).

Definition is_conversation_owner (c : Conversation) (id : ActorId) : bool :=
  eqb (conv_owner_id c) (Some id).

(** [participants.iter().any(|participant| participant.actor_id == id)] *)
Definition is_participant (c : Conversation) (id : ActorId) : bool :=
  existsb (fun p => eqb (participant_actor_id p) id) (conv_participants c).

(** ** Community checks *)

Inductive CommunityAdminAction := ActChangeInfo | ActInviteMembers | ActBanMembers | ActManageTopics | ActAddAdmins.

Definition is_community_owner (c : CommunityState) (actor_id : ActorId) : bool :=
  member_is c actor_id (has_status [StOwner]).

Definition action_allowed (action : CommunityAdminAction) (rights : AdminRights) : bool :=
  match action with
  | ActChangeInfo => ar_change_info rights
  | ActInviteMembers => ar_invite_members rights
  | ActBanMembers => ar_ban_members rights
  | ActManageTopics => ar_manage_topics rights
  | ActAddAdmins => ar_add_admins rights
  end.

Definition is_community_admin (c : CommunityState) (actor_id : ActorId) (action : CommunityAdminAction) : bool :=
  member_is c actor_id (fun m =>
    if has_status [StOwner] m then true
    else if negb (has_status [StAdministrator] m) then false
    else action_allowed action (cm_admin_rights m)).

Definition require_community_admin (c : CommunityState) (actor_id : ActorId) (action : CommunityAdminAction) :
    outcome unit :=
  if is_community_admin c actor_id action then Ok tt else Err CommunityPermissionDenied.

Definition topic_id_from_root (root : MessageId) : option string :=
  id ← strip_prefix "topic:" (message_id_0 root); if is_empty id then None else Some id.

Definition community_has_access (c : CommunityState) (actor_id : ActorId) : bool :=
  member_is c actor_id (fun m => negb (has_status [StLeft; StBanned] m)) || is_subscriber c actor_id.

Definition append_community_audit (c : CommunityState) (actor_id : ActorId) (action : CommunityAuditAction)
    (target_actor_id : option ActorId) (target_id reason : option string) (created_at_ms : Z) :
    CommunityState :=
  let id := "audit:" +:+ actor_id_0 actor_id +:+ ":" +:+ display created_at_ms +:+ ":"
              +:+ display (Z.of_nat (length (cs_admin_log c))) +:+ ":"
              +:+ default "community" target_id in
  append_audit {| ae_id := id; ae_actor_id := actor_id; ae_action := action;
                  ae_target_actor_id := target_actor_id; ae_target_id := target_id;
                  ae_reason := reason; ae_created_at_ms := created_at_ms |} c.

Definition participant_for_community_member (m : CommunityMember) : option Participant :=
  role ← match cm_status m with
         | StOwner => Some RoleOwner
         | StAdministrator => Some RoleAdmin
         | StMember => Some RoleMember
         | StRestricted => Some RoleRestricted
         | StLeft | StBanned => None
         end;
  Some {| participant_actor_id := cm_actor_id m;
          participant_role := role;
          participant_joined_at_ms := cm_joined_at_ms m;
          participant_muted_until_ms := mr_until_ms (cm_restrictions m) |}.

(** ** Messages *)

Definition message_content_uses_media (content : MessageContent) : bool :=
  match content with
  | ContentPhoto _ _ _ | ContentVideo _ _ _ _ | ContentAnimation _ _ | ContentAudio _ _ _ _
  | ContentVoice _ _ _ | ContentVideoNote _ | ContentDocument _ _ | ContentSticker _ _ _ => true
  | _ => false
  end.

Definition is_poll (content : MessageContent) : bool :=
  match content with ContentPoll _ _ _ _ _ => true | _ => false end.
Definition is_secret_content (content : MessageContent) : bool :=
  match content with ContentSecret _ => true | _ => false end.
Definition is_service_content (content : MessageContent) : bool :=
  match content with ContentService _ _ => true | _ => false end.

(** ** Wallets *)

Definition wallet_account_id (id : ActorId) : WalletAccountId :=
  MkWalletAccountId ("wallet:" +:+ actor_id_0 id).

Definition ensure_wallet_account (wallet : WalletLedger) (account_id : WalletAccountId) (owner_id : ActorId)
    (now_ms : Z) : WalletLedger * result WalletError unit :=
  if contains_key account_id (wl_accounts wallet) then (wallet, Ok tt)
  else create_account wallet account_id owner_id now_ms.

(** [wallet.method(...)?] on a local copy of the ledger: on an error the
    copy is dropped. *)
Definition try_wallet {A : Type} (r : WalletLedger * result WalletError A) : outcome (WalletLedger * A) :=
  let '(wallet, res) := r in a ← map_err EWallet res; Ok (wallet, a).

(** ** Laws *)

Lemma require_community_admin_ok c a act u :
  require_community_admin c a act = Ok u <-> is_community_admin c a act = true.
Proof. unfold require_community_admin. destruct u, (is_community_admin c a act); naive_solver. Qed.

Lemma try_wallet_ok {A : Type} (r : WalletLedger * result WalletError A) (w : WalletLedger) (a : A) :
  try_wallet r = Ok (w, a) <-> r = (w, Ok a).
Proof. destruct r as [w' [a'|e]]; simpl; naive_solver. Qed.

Lemma append_community_audit_wf c a act ta ti r t :
  community_wf c -> community_wf (append_community_audit c a act ta ti r t).
Proof. apply append_audit_wf. Qed.

Lemma append_community_audit_members c a act ta ti r t :
  cs_members (append_community_audit c a act ta ti r t) = cs_members c.
Proof. done. Qed.

Lemma append_community_audit_conversation c a act ta ti r t :
  cs_conversation_id (append_community_audit c a act ta ti r t) = cs_conversation_id c.
Proof. done. Qed.

Lemma is_participant_spec c id :
  is_participant c id = true <-> exists p, p ∈ conv_participants c /\ participant_actor_id p = id.
Proof.
  unfold is_participant. rewrite existsb_exists. setoid_rewrite eqb_spec.
  by setoid_rewrite <- list_elem_of_In.
Qed.

Lemma reshapes_refl w : reshapes w w.
Proof. split; [done..|]. intros id. by destruct (wl_accounts w !! id). Qed.

Lemma ensure_wallet_account_ok w id owner now w' u :
  ensure_wallet_account w id owner now = (w', Ok u) ->
  reshapes w w' /\ is_Some (wl_accounts w' !! id)
  /\ (forall j, j <> id -> wl_accounts w' !! j = wl_accounts w !! j)
  /\ (forall a, wl_accounts w !! id = Some a -> w' = w).
Proof.
  unfold ensure_wallet_account. destruct (contains_key id (wl_accounts w)) eqn:Hk.
  - apply contains_key_spec in Hk. intros [= <- _]. split_and!; [apply reshapes_refl|done|done|done].
  - apply contains_key_false in Hk. intros H. split; [by eapply create_account_reshapes|].
    unfold create_account in H. destruct (blank _); [done|].
    destruct (contains_key id (wl_accounts w)); [done|]. injection H as <- _. fields. split_and!.
    + rewrite lookup_insert_eq. by eexists.
    + intros j Hj. by rewrite lookup_insert_ne.
    + intros a Ha. congruence.
Qed.

(** The operations of the ledger as steps. *)
Lemma credit_step w r x m ref now w' e : credit w r x m ref now = (w', Ok e) -> ledger_step w w'.
Proof. intros H. exists (OpCredit r x m ref now), (Some e). simpl. by rewrite H. Qed.
Lemma transfer_step w r x y m ref now w' e : transfer w r x y m ref now = (w', Ok e) -> ledger_step w w'.
Proof. intros H. exists (OpTransfer r x y m ref now), (Some e). simpl. by rewrite H. Qed.
Lemma refund_step w r orig now w' e : refund_transfer w r orig now = (w', Ok e) -> ledger_step w w'.
Proof. intros H. exists (OpRefund r orig now), (Some e). simpl. by rewrite H. Qed.

Lemma reshapes_room w w' : reshapes w w' -> room w -> room w'.
Proof. intros [He _ _]. unfold room. by rewrite He. Qed.

(** Read the ledger operations of a decision known to succeed. *)
Ltac wallets :=
  repeat match goal with
  | H : try_wallet _ = Ok _ |- _ => apply try_wallet_ok in H
  | H : ensure_wallet_account _ _ _ _ = (_, Ok _) |- _ => apply ensure_wallet_account_ok in H as (? & ? & ? & ?)
  end.

Lemma reshapes_trans w1 w2 w3 : reshapes w1 w2 -> reshapes w2 w3 -> reshapes w1 w3.
Proof.
  intros [He1 Hq1 Ha1] [He2 Hq2 Ha2]. split; [congruence..|]. intros id. specialize (Ha1 id). specialize (Ha2 id).
  destruct (wl_accounts w1 !! id), (wl_accounts w2 !! id), (wl_accounts w3 !! id); naive_solver congruence.
Qed.
