(* ===== verification/EngineConversation.v ===== *)
(** * Deciding the commands on actors, conversations and folders ([engine.rs]) *)

From S2P Require Import Prelude Text Maps Conversation Message Community EngineTypes EngineCore.

Definition decide_upsert_actor (actor : Actor) : outcome (list Event) :=
  reject_if (negb (actor_id_is_valid (actor_id actor)) || blank (actor_display_name actor)) InvalidActor ;;
  Ok [ActorUpserted actor].

Definition decide_set_presence (s : MessagingState) (id : ActorId) (presence : Presence) : outcome (list Event) :=
  require_actor s id ;; Ok [PresenceUpdated id presence].

(** [for participant in participants { self.require_actor(..)?; }] *)
Fixpoint require_actors (s : MessagingState) (participants : list Participant) : outcome unit :=
  match participants with
  | [] => Ok tt
  | p :: rest => require_actor s (participant_actor_id p) ;; require_actors s rest
  end.

Definition decide_upsert_conversation (s : MessagingState) (c : Conversation) : outcome (list Event) :=
  reject_if (negb (conversation_id_is_valid (conv_id c)) || blank (conv_title c)) InvalidConversation ;;
  reject_if (is_some_and (st_conversations s !! conv_id c) (fun existing =>
               is_group_or_channel existing
               && (negb (eqb (conv_owner_id c) (conv_owner_id existing))
                   || negb (eqb (conv_participants c) (conv_participants existing))
                   || negb (eqb (conv_topics c) (conv_topics existing)))))
    InvalidConversationParticipant ;;
  require_actors s (conv_participants c) ;;
  reject_if (eqb (conv_kind c) Secret && negb (Z.of_nat (length (conv_participants c)) =? 2))
    InvalidSecretConversation ;;
  Ok [ConversationUpserted c].

Definition decide_update_conversation_info (s : MessagingState) (id : ConversationId) (title : string)
    (description : option string) : outcome (list Event) :=
  require_conversation s id ;;
  reject_if (blank title || (200 <? len (trim title))) InvalidConversationParticipant ;;
  Ok [ConversationInfoUpdated id (trim title)
        (value ← trim <$> description; if is_empty value then None else Some value)].

Definition status_of_role (role : ParticipantRole) : MemberStatus :=
  match role with
  | RoleOwner => StOwner
  | RoleAdmin => StAdministrator
  | RoleMember => StMember
  | RoleRestricted => StRestricted
  end.

Definition decide_set_conversation_participant (s : MessagingState) (id : ConversationId) (p : Participant) :
    outcome (list Event) :=
  conversation ← require_conversation s id;
  require_actor s (participant_actor_id p) ;;
  reject_if (is_conversation_owner conversation (participant_actor_id p)
             && negb (eqb (participant_role p) RoleOwner)) InvalidConversationParticipant ;;
  if is_group_or_channel conversation then
    community ← require_community s id;
    let member := default
      {| cm_actor_id := participant_actor_id p; cm_status := StMember; cm_admin_title := None;
         cm_admin_rights := default_admin_rights; cm_restrictions := default_restrictions;
         cm_joined_at_ms := participant_joined_at_ms p; cm_invited_by := None |}
      (cs_members community !! participant_actor_id p) in
    let member := member ⟪ cm_status := status_of_role (participant_role p) ⟫
                         ⟪ cm_joined_at_ms := participant_joined_at_ms p ⟫ in
    Ok [CommunityChanged (community ⟪ cs_members ::= <[participant_actor_id p := member]> ⟫);
        ConversationParticipantUpserted id p]
  else Ok [ConversationParticipantUpserted id p].

Definition decide_remove_conversation_participant (s : MessagingState) (id : ConversationId) (actor_id : ActorId) :
    outcome (list Event) :=
  conversation ← require_conversation s id;
  reject_if (is_conversation_owner conversation actor_id) InvalidConversationParticipant ;;
  if is_group_or_channel conversation then
    community ← require_community s id;
    Ok [CommunityChanged
          (community ⟪ cs_members ::= alter (fun m => m ⟪ cm_status := StLeft ⟫) actor_id ⟫
                     ⟪ cs_subscribers ::= delete actor_id ⟫);
        ConversationParticipantRemoved id actor_id]
  else Ok [ConversationParticipantRemoved id actor_id].

Definition decide_archive_conversation (s : MessagingState) (id : ConversationId) (archived : bool) :
    outcome (list Event) :=
  require_conversation s id ;; Ok [ConversationArchived id archived].

Definition decide_pin_conversation (s : MessagingState) (id : ConversationId) (pinned : bool) :
    outcome (list Event) :=
  require_conversation s id ;; Ok [ConversationPinned id pinned].

Definition decide_set_marked_unread (s : MessagingState) (id : ConversationId) (actor_id : ActorId)
    (marked_unread : bool) : outcome (list Event) :=
  require_conversation s id ;; require_actor s actor_id ;;
  Ok [ConversationMarkedUnread id actor_id marked_unread].

Definition decide_set_draft (s : MessagingState) (draft : ConversationDraft) : outcome (list Event) :=
  require_conversation s (draft_conversation_id draft) ;; require_actor s (draft_actor_id draft) ;;
  Ok [DraftChanged draft].

Definition decide_set_conversation_notifications (s : MessagingState) (id : ConversationId)
    (settings : NotificationSettings) : outcome (list Event) :=
  require_conversation s id ;; Ok [ConversationNotificationsUpdated id settings].

(** The retention a conversation records. *)
Definition conversation_retention (c : Conversation) :
    result MessageRetentionError ConversationMessageRetention :=
  policy ← transpose (retention_policy_new <$> conv_message_retention_seconds c);
  Ok {| retention_policy := policy; retention_revision := conv_retention_revision c |}.

Definition decide_set_message_retention (s : MessagingState) (id : ConversationId)
    (retention_seconds : option Z) (expected_revision : Z) : outcome (list Event) :=
  conversation ← require_conversation s id;
  current ← map_err EMessageRetention (conversation_retention conversation);
  retention ← map_err EMessageRetention (retention_change current retention_seconds expected_revision);
  Ok [ConversationMessageRetentionUpdated id retention].
