(* ===== verification/EngineMessage.v ===== *)
(** * Deciding the commands on messages, reads, reactions and polls ([engine.rs]) *)

From S2P Require Import Prelude Text Maps Conversation SecretChat Message Community EngineTypes EngineCore.

(** ** Queueing a message *)

(** The sender takes part in the conversation, whose permissions admit the content. *)
Definition check_send_permissions (c : Conversation) (conversation_id : ConversationId) (sender_id : ActorId)
    (content : MessageContent) : outcome unit :=
  reject_if (negb (is_participant c sender_id || is_conversation_owner c sender_id))
    (SenderNotParticipant conversation_id sender_id) ;;
  reject_if (negb (can_send_messages (conv_permissions c))) (MessageSendPermissionDenied conversation_id) ;;
  reject_if (message_content_uses_media content && negb (can_send_media (conv_permissions c)))
    (MediaSendPermissionDenied conversation_id) ;;
  reject_if (is_poll content && negb (can_send_polls (conv_permissions c)))
    (PollSendPermissionDenied conversation_id).

(** The sender's standing in the community. *)
Definition check_member_restrictions (s : MessagingState) (conversation_id : ConversationId)
    (sender_id : ActorId) (content : MessageContent) : outcome unit :=
  match (community ← st_communities s !! conversation_id; cs_members community !! sender_id) with
  | None => Ok tt
  | Some member =>
      let restricted := has_status [StRestricted] member in
      let r := cm_restrictions member in
      reject_if (has_status [StLeft; StBanned] member || (restricted && mr_send_messages r))
        (CommunitySendRestricted conversation_id) ;;
      reject_if (message_content_uses_media content && restricted && mr_send_media r)
        (CommunityMediaRestricted conversation_id) ;;
      reject_if (is_poll content && restricted && mr_send_polls r)
        (CommunityPollRestricted conversation_id)
  end.

(** In a channel only the owner, owners and administrators post. *)
Definition can_post_to_channel (s : MessagingState) (c : Conversation) (conversation_id : ConversationId)
    (sender_id : ActorId) : bool :=
  is_conversation_owner c sender_id
  || existsb (fun p => eqb (participant_actor_id p) sender_id
                       && bool_decide (participant_role p ∈ [RoleOwner; RoleAdmin])) (conv_participants c)
  || is_some_and (st_communities s !! conversation_id) (fun community =>
       member_is community sender_id (fun m =>
         has_status [StAdministrator] m && ar_post_messages (cm_admin_rights m))).

Definition check_channel_post (s : MessagingState) (c : Conversation) (conversation_id : ConversationId)
    (sender_id : ActorId) : outcome unit :=
  reject_if (eqb (conv_kind c) Channel && negb (can_post_to_channel s c conversation_id sender_id))
    (CommunitySendRestricted conversation_id).

(** The forum topic a message is posted to is open. *)
Definition check_topic_open (community : CommunityState) (conversation_id : ConversationId)
    (thread_root : option MessageId) : outcome unit :=
  match thread_root ≫= topic_id_from_root with
  | None => Ok tt
  | Some topic_id =>
      topic ← ok_or (cs_topics community !! topic_id) (ForumTopicNotFound conversation_id topic_id);
      reject_if (ft_closed topic || ft_hidden topic) (ForumTopicClosed conversation_id topic_id)
  end.

(** [Iterator::max_by_key]: the last of the greatest elements. *)
Definition max_by {A : Type} (le : A -> A -> bool) (l : list A) : option A :=
  foldl (fun best x => match best with
                       | None => Some x
                       | Some b => if le b x then Some x else Some b
                       end) None l.

(** The order of [(message.created_at_ms, message.id)]. *)
Definition message_key_le (a b : Message) : bool :=
  (msg_created_at_ms a <? msg_created_at_ms b)
  || ((msg_created_at_ms a =? msg_created_at_ms b) && bool_decide (key_le (msg_id a) (msg_id b))).

(** The messages of the sender that slow mode counts. *)
Definition counts_for_slow_mode (sender_id : ActorId) (created_at_ms : Z) (m : Message) : bool :=
  eqb (msg_sender_id m) sender_id && negb (msg_deleted m)
  && is_none_or (msg_scheduled_at_ms m) (fun scheduled => scheduled <=? created_at_ms).

Definition latest_sender_message (s : MessagingState) (conversation_id : ConversationId)
    (sender_id : ActorId) (created_at_ms : Z) : option Message :=
  max_by message_key_le
    (filter (fun m => counts_for_slow_mode sender_id created_at_ms m)
       (btree_values (default ∅ (st_messages s !! conversation_id)))).

Definition slow_mode_retry_at (seconds : Z) (m : Message) : Z :=
  saturating_add_i64 (msg_created_at_ms m) (saturating_mul_i64 seconds 1000).

Definition check_slow_mode (s : MessagingState) (community : CommunityState) (conversation_id : ConversationId)
    (sender_id : ActorId) (created_at_ms : Z) : outcome unit :=
  match cs_slow_mode_seconds community with
  | None => Ok tt
  | Some seconds =>
      if can_moderate community sender_id then Ok tt
      else
        match latest_sender_message s conversation_id sender_id created_at_ms with
        | None => Ok tt
        | Some message =>
            let retry_at := slow_mode_retry_at seconds message in
            reject_if (created_at_ms <? retry_at) (SlowModeActive conversation_id retry_at)
        end
  end.

Definition check_community_policy (s : MessagingState) (conversation_id : ConversationId)
    (sender_id : ActorId) (thread_root : option MessageId) (created_at_ms : Z) : outcome unit :=
  match st_communities s !! conversation_id with
  | None => Ok tt
  | Some community =>
      check_topic_open community conversation_id thread_root ;;
      check_slow_mode s community conversation_id sender_id created_at_ms
  end.

(** Secret conversations carry only secret envelopes of their two parties. *)
Definition envelope_matches (c : Conversation) (conversation_id : ConversationId) (sender_id : ActorId)
    (e : EncryptedSecretMessage) : bool :=
  eqb (esm_conversation_id e) conversation_id && eqb (esm_sender_id e) sender_id
  && is_participant c (esm_sender_id e) && is_participant c (esm_recipient_id e)
  && negb (eqb (esm_sender_id e) (esm_recipient_id e)).

Definition check_secrecy (c : Conversation) (conversation_id : ConversationId) (sender_id : ActorId)
    (content : MessageContent) : outcome unit :=
  let is_secret_conversation := eqb (conv_kind c) Secret in
  reject_if (is_secret_conversation && negb (is_secret_content content)
             && negb (is_service_content content)) SecretPlaintextRejected ;;
  reject_if (negb is_secret_conversation && is_secret_content content)
    SecretContentOutsideSecretConversation ;;
  match content with
  | ContentSecret envelope =>
      reject_if (negb (envelope_matches c conversation_id sender_id envelope)) SecretEnvelopeMismatch
  | _ => Ok tt
  end.

(** The identifiers are usable and new. *)
Definition check_message_ids (s : MessagingState) (conversation_id : ConversationId)
    (local_message_id : MessageId) (client_message_id : ClientMessageId) : outcome unit :=
  reject_if (blank (client_message_id_0 client_message_id) || (200 <? len (client_message_id_0 client_message_id)))
    InvalidClientMessageId ;;
  reject_if (is_some_and (find_message s conversation_id local_message_id) (fun _ => true))
    (DuplicateMessage conversation_id local_message_id).

(** When a message posted under the conversation's retention expires. *)
Definition message_expiry (retention_seconds : option Z) (base_ms : Z) : outcome (option Z) :=
  match retention_seconds with
  | None => Ok None
  | Some seconds =>
      policy ← map_err EMessageRetention (retention_policy_new seconds);
      Some <$> map_err EMessageRetention (policy_expires_at_ms policy base_ms)
  end.

Definition decide_queue_message (s : MessagingState) (conversation_id : ConversationId)
    (local_message_id : MessageId) (client_message_id : ClientMessageId) (sender_id : ActorId)
    (content : MessageContent) (reply_to_message_id thread_root_message_id : option MessageId)
    (created_at_ms : Z) (scheduled_at_ms : option Z) (silent protected_content : bool) :
    outcome (list Event) :=
  conversation ← require_conversation s conversation_id;
  require_actor s sender_id ;;
  check_send_permissions conversation conversation_id sender_id content ;;
  check_member_restrictions s conversation_id sender_id content ;;
  check_channel_post s conversation conversation_id sender_id ;;
  check_community_policy s conversation_id sender_id thread_root_message_id created_at_ms ;;
  check_secrecy conversation conversation_id sender_id content ;;
  check_message_ids s conversation_id local_message_id client_message_id ;;
  expires_at_ms ← message_expiry (conv_message_retention_seconds conversation)
                    (default created_at_ms scheduled_at_ms);
  Ok [MessageQueued {|
        msg_id := local_message_id;
        msg_conversation_id := conversation_id;
        msg_sender_id := sender_id;
        msg_content := content;
        msg_reply_to_message_id := reply_to_message_id;
        msg_thread_root_message_id := thread_root_message_id;
        msg_forward_origin := None;
        msg_reply_markup := None;
        msg_reactions := [];
        msg_delivery_state := Pending client_message_id;
        msg_created_at_ms := created_at_ms;
        msg_edited_at_ms := None;
        msg_scheduled_at_ms := scheduled_at_ms;
        msg_expires_at_ms := expires_at_ms;
        msg_silent := silent;
        msg_protected_content := protected_content || is_secret_content content;
        msg_pinned := false;
        msg_deleted := false |}].

(** ** Forwarding *)

Definition decide_forward_message (s : MessagingState) (source_conversation_id : ConversationId)
    (message_id : MessageId) (destination_conversation_id : ConversationId) (local_message_id : MessageId)
    (client_message_id : ClientMessageId) (sender_id : ActorId) (created_at_ms : Z) :
    outcome (list Event) :=
  destination ← require_conversation s destination_conversation_id;
  require_actor s sender_id ;;
  check_message_ids s destination_conversation_id local_message_id client_message_id ;;
  original ← require_message s source_conversation_id message_id;
  reject_if (msg_deleted original) (MessageNotFound source_conversation_id message_id) ;;
  reject_if (msg_protected_content original) ProtectedContent ;;
  let forward_origin := default
    (conversation_id_0 (msg_conversation_id original) +:+ ":" +:+ message_id_0 (msg_id original))
    (msg_forward_origin original) in
  expires_at_ms ← message_expiry (conv_message_retention_seconds destination) created_at_ms;
  Ok [MessageQueued {|
        msg_id := local_message_id;
        msg_conversation_id := destination_conversation_id;
        msg_sender_id := sender_id;
        msg_content := msg_content original;
        msg_reply_to_message_id := None;
        msg_thread_root_message_id := None;
        msg_forward_origin := Some forward_origin;
        msg_reply_markup := msg_reply_markup original;
        msg_reactions := [];
        msg_delivery_state := Pending client_message_id;
        msg_created_at_ms := created_at_ms;
        msg_edited_at_ms := None;
        msg_scheduled_at_ms := None;
        msg_expires_at_ms := expires_at_ms;
        msg_silent := false;
        msg_protected_content := msg_protected_content original;
        msg_pinned := false;
        msg_deleted := false |}].

(** ** Changing a message *)

Definition decide_acknowledge_message (s : MessagingState) (conversation_id : ConversationId)
    (local_message_id server_message_id : MessageId) (accepted_at_ms : Z) : outcome (list Event) :=
  require_message s conversation_id local_message_id ;;
  reject_if (negb (eqb local_message_id server_message_id)
             && is_some_and (find_message s conversation_id server_message_id) (fun _ => true))
    (DuplicateMessage conversation_id server_message_id) ;;
  Ok [MessageAcknowledged conversation_id local_message_id server_message_id accepted_at_ms].

Definition decide_set_delivery_state (s : MessagingState) (conversation_id : ConversationId)
    (message_id : MessageId) (state : DeliveryState) : outcome (list Event) :=
  require_message s conversation_id message_id ;;
  Ok [DeliveryStateUpdated conversation_id message_id state].

Definition decide_edit_message (s : MessagingState) (conversation_id : ConversationId)
    (message_id : MessageId) (content : MessageContent) (edited_at_ms : Z) : outcome (list Event) :=
  require_message s conversation_id message_id ;;
  Ok [MessageEdited conversation_id message_id content edited_at_ms].

(** [for id in &unique { self.require_message(&conversation_id, id)?; }] *)
Fixpoint require_messages (s : MessagingState) (conversation_id : ConversationId) (ids : list MessageId) :
    outcome unit :=
  match ids with
  | [] => Ok tt
  | id :: rest => require_message s conversation_id id ;; require_messages s conversation_id rest
  end.

Definition decide_delete_messages (s : MessagingState) (conversation_id : ConversationId)
    (message_ids : list MessageId) : outcome (list Event) :=
  let unique := btree_elements (list_to_set message_ids : gset MessageId) in
  reject_if (bool_decide (unique = [])) EmptyMessageList ;;
  require_messages s conversation_id unique ;;
  Ok [MessagesDeleted conversation_id unique].

(** ** Reading *)

Definition has_read_access (s : MessagingState) (c : Conversation) (conversation_id : ConversationId)
    (actor_id : ActorId) : bool :=
  match st_communities s !! conversation_id with
  | Some community => community_has_access community actor_id || is_conversation_owner c actor_id
  | None => is_conversation_owner c actor_id || is_participant c actor_id
  end.

Definition decide_mark_read (s : MessagingState) (conversation_id : ConversationId) (actor_id : ActorId)
    (message_id : MessageId) : outcome (list Event) :=
  require_actor s actor_id ;;
  conversation ← require_conversation s conversation_id;
  reject_if (negb (has_read_access s conversation conversation_id actor_id))
    (CommunityAccessDenied conversation_id actor_id) ;;
  require_message s conversation_id message_id ;;
  Ok [ConversationRead conversation_id actor_id message_id].

(** Access to the topics of a community: a member, a subscriber or the owner
    of the conversation. *)
Definition has_topic_access (s : MessagingState) (community : CommunityState)
    (conversation_id : ConversationId) (actor_id : ActorId) : bool :=
  community_has_access community actor_id
  || eqb (st_conversations s !! conversation_id ≫= conv_owner_id) (Some actor_id).

Definition belongs_to_topic (m : Message) (message_id : MessageId) (topic : ForumTopicState)
    (topic_id : string) : bool :=
  is_some_and (msg_thread_root_message_id m) (fun root => eqb (topic_id_from_root root) (Some topic_id))
  || eqb (ft_last_message_id topic) (Some (message_id_0 message_id)).

Definition decide_mark_topic_read (s : MessagingState) (conversation_id : ConversationId) (topic_id : string)
    (actor_id : ActorId) (message_id : MessageId) : outcome (list Event) :=
  require_actor s actor_id ;;
  community ← require_community s conversation_id;
  reject_if (negb (has_topic_access s community conversation_id actor_id))
    (CommunityAccessDenied conversation_id actor_id) ;;
  topic ← ok_or (cs_topics community !! topic_id) (ForumTopicNotFound conversation_id topic_id);
  message ← require_message s conversation_id message_id;
  reject_if (negb (belongs_to_topic message message_id topic topic_id)) (TopicMessageMismatch topic_id) ;;
  Ok [TopicReadChanged conversation_id topic_id actor_id message_id].

Definition decide_set_topic_draft (s : MessagingState) (draft : TopicDraft) : outcome (list Event) :=
  let conversation_id := tdraft_conversation_id draft in
  require_actor s (tdraft_actor_id draft) ;;
  community ← require_community s conversation_id;
  reject_if (negb (has_topic_access s community conversation_id (tdraft_actor_id draft)))
    (CommunityAccessDenied conversation_id (tdraft_actor_id draft)) ;;
  reject_if (blank (tdraft_topic_id draft)
             || negb (contains_key (tdraft_topic_id draft) (cs_topics community)))
    (ForumTopicNotFound conversation_id (tdraft_topic_id draft)) ;;
  Ok [TopicDraftChanged draft].

(** ** Reactions, pins and polls *)

Definition decide_set_reaction (s : MessagingState) (conversation_id : ConversationId)
    (message_id : MessageId) (reaction : ReactionSummary) : outcome (list Event) :=
  require_message s conversation_id message_id ;;
  reject_if (blank (reaction_reaction reaction)) InvalidClientMessageId ;;
  Ok [ReactionUpdated conversation_id message_id reaction].

Definition decide_pin_message (s : MessagingState) (conversation_id : ConversationId)
    (message_id : MessageId) (pinned : bool) : outcome (list Event) :=
  require_message s conversation_id message_id ;;
  Ok [MessagePinned conversation_id message_id pinned].

Definition decide_vote_poll (s : MessagingState) (conversation_id : ConversationId) (message_id : MessageId)
    (actor_id : ActorId) (option_ids : list string) : outcome (list Event) :=
  require_actor s actor_id ;;
  message ← require_message s conversation_id message_id;
  match msg_content message with
  | ContentPoll _ options _ multiple_answers _ =>
      let valid_ids : gset string := list_to_set (option_id <$> options) in
      let selected : gset string := list_to_set option_ids in
      reject_if ((negb multiple_answers && (1 <? Z.of_nat (size selected)))
                 || existsb (fun id => negb (bool_decide (id ∈ valid_ids))) (btree_elements selected))
        InvalidPollVote ;;
      Ok [PollVoteChanged conversation_id message_id actor_id (btree_elements selected)]
  | _ => Err InvalidPollVote
  end.
