(* ===== verification/EngineCommerce.v ===== *)
(** * Deciding the commands on invoices, orders and the wallet ([engine.rs]) *)

From S2P Require Import Prelude Text Maps Conversation Message Payment Wallet EngineTypes EngineCore.

Definition decide_create_invoice (s : MessagingState) (invoice : Invoice) : outcome (list Event) :=
  reject_if (negb (invoice_is_valid invoice)) InvalidInvoice ;;
  require_actor s (inv_seller_id invoice) ;;
  require_conversation s (inv_conversation_id invoice) ;;
  Ok [InvoiceCreated invoice].

Definition decide_upsert_order (s : MessagingState) (order : PaymentOrder) : outcome (list Event) :=
  reject_if (negb (contains_key (order_invoice_id order) (st_invoices s)))
    (InvoiceNotFound (order_invoice_id order)) ;;
  require_actor s (order_buyer_id order) ;;
  Ok [OrderUpserted order].

(** The request identifier a checkout pays under. *)
Definition checkout_request (order_id : string) : string := "checkout:" +:+ order_id.

(** The payment of a checkout on a copy of the ledger: both accounts are
    opened if missing, then the total is transferred. *)
Definition checkout_payment `{UnicodeCase} (wallet : WalletLedger) (invoice : Invoice) (order_id : string)
    (buyer_id : ActorId) (amount_minor created_at_ms : Z) : outcome (WalletLedger * LedgerEntry) :=
  let buyer_account := wallet_account_id buyer_id in
  let seller_account := wallet_account_id (inv_seller_id invoice) in
  '(wallet, _) ← try_wallet (ensure_wallet_account wallet buyer_account buyer_id created_at_ms);
  '(wallet, _) ← try_wallet (ensure_wallet_account wallet seller_account (inv_seller_id invoice) created_at_ms);
  try_wallet (transfer wallet (checkout_request order_id) buyer_account seller_account
                (money_new (inv_currency invoice) amount_minor) (Some (inv_id invoice)) created_at_ms).

Definition paid_order `{UnicodeCase} (invoice : Invoice) (order_id : string) (buyer_id : ActorId)
    (amount_minor : Z) (customer : option CustomerInfo) (entry : LedgerEntry) (created_at_ms : Z) :
    PaymentOrder := {|
  order_id := order_id;
  order_invoice_id := inv_id invoice;
  order_buyer_id := buyer_id;
  order_status := Paid;
  order_amount := money_new (inv_currency invoice) amount_minor;
  order_customer := customer;
  order_provider_payment_id := Some (le_id entry);
  order_provider_receipt_url := Some ("fabushi://payments/receipts/" +:+ le_id entry);
  order_created_at_ms := created_at_ms;
  order_updated_at_ms := created_at_ms;
|}.

Definition decide_checkout_invoice `{UnicodeCase} (s : MessagingState) (invoice_id order_id : string)
    (buyer_id : ActorId) (customer : option CustomerInfo) (created_at_ms : Z) : outcome (list Event) :=
  invoice ← ok_or (st_invoices s !! invoice_id) (InvoiceNotFound invoice_id);
  require_actor s buyer_id ;;
  reject_if (is_some_and (inv_expires_at_ms invoice) (fun e => e <=? created_at_ms)) (InvoiceExpired invoice_id) ;;
  match st_orders s !! order_id with
  | Some existing =>
      if eqb (order_invoice_id existing) (inv_id invoice) && eqb (order_buyer_id existing) buyer_id
      then Ok [OrderUpserted existing]
      else Err (OrderConflict order_id)
  | None =>
      amount_minor ← ok_or (checked_total_minor invoice) InvalidInvoice;
      reject_if (amount_minor <=? 0) InvalidInvoice ;;
      '(wallet, entry) ← checkout_payment (st_wallet s) invoice order_id buyer_id amount_minor created_at_ms;
      Ok [WalletChanged wallet entry;
          OrderUpserted (paid_order invoice order_id buyer_id amount_minor customer entry created_at_ms)]
  end.

Definition decide_refund_order (s : MessagingState) (order_id : string) (seller_id : ActorId)
    (request_id : string) (refunded_at_ms : Z) : outcome (list Event) :=
  order ← ok_or (st_orders s !! order_id) (OrderNotFound order_id);
  invoice ← ok_or (st_invoices s !! order_invoice_id order) (InvoiceNotFound (order_invoice_id order));
  reject_if (negb (eqb (inv_seller_id invoice) seller_id)) (RefundForbidden order_id) ;;
  if eqb (order_status order) Refunded then Ok [OrderUpserted order]
  else
    reject_if (negb (eqb (order_status order) Paid)) (OrderNotRefundable order_id) ;;
    original_entry_id ← ok_or (order_provider_payment_id order) (OrderNotRefundable (Payment.order_id order));
    '(wallet, entry) ← try_wallet (refund_transfer (st_wallet s) request_id original_entry_id refunded_at_ms);
    Ok [WalletChanged wallet entry;
        OrderUpserted (order ⟪ order_status := Refunded ⟫ ⟪ order_updated_at_ms := refunded_at_ms ⟫)].

Definition decide_credit_wallet_settlement (s : MessagingState) (request_id : string) (owner_id : ActorId)
    (amount : Money) (reference : option string) (settled_at_ms : Z) : outcome (list Event) :=
  require_actor s owner_id ;;
  let account_id := wallet_account_id owner_id in
  '(wallet, _) ← try_wallet (ensure_wallet_account (st_wallet s) account_id owner_id settled_at_ms);
  '(wallet, entry) ← try_wallet (credit wallet request_id account_id amount reference settled_at_ms);
  Ok [WalletChanged wallet entry].
