(* ===== verification/EngineCommunity.v ===== *)
(** * Deciding the commands on communities ([engine.rs]) *)

From S2P Require Import Prelude Text Maps Conversation Message Community EngineTypes EngineCore.

(** ** Community metadata *)

Definition all_admin_rights : AdminRights :=
  {| ar_change_info := true; ar_post_messages := true; ar_edit_messages := true;
     ar_delete_messages := true; ar_ban_members := true; ar_invite_members := true;
     ar_pin_messages := true; ar_manage_topics := true; ar_manage_calls := true;
     ar_add_admins := true; ar_remain_anonymous := true |}.

(** The first membership of a community: the conversation's participants,
    with what the request asked for them. *)
Definition seed_member (requested_members : gmap ActorId CommunityMember) (p : Participant) :
    CommunityMember :=
  let requested := requested_members !! participant_actor_id p in
  let requested_rights := default default_admin_rights (cm_admin_rights <$> requested) in
  {| cm_actor_id := participant_actor_id p;
     cm_status := match participant_role p with
                  | RoleOwner => StOwner
                  | RoleAdmin => StAdministrator
                  | RoleRestricted => StRestricted
                  | RoleMember => StMember
                  end;
     cm_admin_title := requested ≫= cm_admin_title;
     cm_admin_rights := match participant_role p with
                        | RoleOwner => all_admin_rights
                        | RoleAdmin | RoleRestricted => requested_rights
                        | RoleMember => default_admin_rights
                        end;
     cm_restrictions := default default_restrictions (cm_restrictions <$> requested);
     cm_joined_at_ms := participant_joined_at_ms p;
     cm_invited_by := requested ≫= cm_invited_by |}.

(** [iter.collect::<BTreeMap<_, _>>()]: a later entry replaces an earlier one. *)
Definition collect_map {K V : Type} `{Countable K} (l : list (K * V)) : gmap K V :=
  foldl (fun m kv => <[fst kv := snd kv]> m) ∅ l.

(** Everything but the metadata is kept from the existing community. *)
Definition merge_community (community existing : CommunityState) : CommunityState :=
  community ⟪ cs_members := cs_members existing ⟫
            ⟪ cs_invite_links := cs_invite_links existing ⟫
            ⟪ cs_pending_join_requests := cs_pending_join_requests existing ⟫
            ⟪ cs_topics := cs_topics existing ⟫
            ⟪ cs_banned_words := cs_banned_words existing ⟫
            ⟪ cs_slow_mode_seconds := cs_slow_mode_seconds existing ⟫
            ⟪ cs_subscribers := cs_subscribers existing ⟫
            ⟪ cs_admin_log := cs_admin_log existing ⟫.

Definition seed_community (community : CommunityState) (c : Conversation) : CommunityState :=
  let requested_members := cs_members community in
  community ⟪ cs_subscribers := ∅ ⟫
            ⟪ cs_admin_log := [] ⟫
            ⟪ cs_invite_links := ∅ ⟫
            ⟪ cs_pending_join_requests := ∅ ⟫
            ⟪ cs_topics := ∅ ⟫
            ⟪ cs_banned_words := ∅ ⟫
            ⟪ cs_members := collect_map
                ((fun p => (participant_actor_id p, seed_member requested_members p)) <$> conv_participants c) ⟫.

Definition decide_update_community (s : MessagingState) (actor_id : ActorId) (community : CommunityState) :
    outcome (list Event) :=
  conversation ← require_conversation s (cs_conversation_id community);
  reject_if (negb (is_group_or_channel conversation)) CommunityPermissionDenied ;;
  match st_communities s !! cs_conversation_id community with
  | Some existing =>
      require_community_admin existing actor_id ActChangeInfo ;;
      Ok [CommunityChanged (merge_community community existing)]
  | None =>
      reject_if (negb (is_conversation_owner conversation actor_id)
                 && negb (existsb (fun p => eqb (participant_actor_id p) actor_id
                                            && eqb (participant_role p) RoleOwner)
                            (conv_participants conversation))) CommunityPermissionDenied ;;
      Ok [CommunityChanged (seed_community community conversation)]
  end.

(** ** Subscriptions *)

Definition decide_subscribe_channel (s : MessagingState) (actor_id : ActorId)
    (conversation_id : ConversationId) (subscribed_at_ms : Z) : outcome (list Event) :=
  require_actor s actor_id ;;
  conversation ← require_conversation s conversation_id;
  reject_if (negb (eqb (conv_kind conversation) Channel)) CommunityPermissionDenied ;;
  community ← require_community s conversation_id;
  reject_if (negb (is_some_and (cs_public_username community) (fun u => negb (blank u)))
             && negb (is_subscriber community actor_id)
             && negb (contains_key actor_id (cs_members community))) CommunityPermissionDenied ;;
  let was_subscriber := is_subscriber community actor_id in
  community ← map_err ECommunity (subscribe_channel community actor_id subscribed_at_ms);
  Ok [CommunityChanged
        (if was_subscriber then community
         else append_community_audit community actor_id SubscriptionAdded (Some actor_id) None None
                subscribed_at_ms)].

Definition decide_unsubscribe_channel (s : MessagingState) (actor_id : ActorId)
    (conversation_id : ConversationId) (unsubscribed_at_ms : Z) : outcome (list Event) :=
  require_actor s actor_id ;;
  conversation ← require_conversation s conversation_id;
  reject_if (negb (eqb (conv_kind conversation) Channel)) CommunityPermissionDenied ;;
  reject_if (is_conversation_owner conversation actor_id) (ECommunity OwnerCannotUnsubscribe) ;;
  community ← require_community s conversation_id;
  let was_subscriber := is_subscriber community actor_id in
  community ← map_err ECommunity (unsubscribe_channel community actor_id);
  Ok [CommunityChanged
        (if was_subscriber
         then append_community_audit community actor_id SubscriptionRemoved (Some actor_id) None None
                unsubscribed_at_ms
         else community)].

Definition decide_set_slow_mode (s : MessagingState) (actor_id : ActorId)
    (conversation_id : ConversationId) (seconds : option Z) (changed_at_ms : Z) : outcome (list Event) :=
  conversation ← require_conversation s conversation_id;
  reject_if (negb (is_group_or_channel conversation)) CommunityPermissionDenied ;;
  reject_if (is_some_and seconds (fun seconds => 86400 <? seconds)) CommunityPermissionDenied ;;
  community ← require_community s conversation_id;
  require_community_admin community actor_id ActChangeInfo ;;
  Ok [CommunityChanged
        (append_community_audit (community ⟪ cs_slow_mode_seconds := seconds ⟫) actor_id SlowModeChanged
           None (Some "slowMode") None changed_at_ms)].

(** ** Members *)

(** The conversation follows a membership change. *)
Definition participant_event (s : MessagingState) (conversation_id : ConversationId)
    (community : CommunityState) (actor_id : ActorId) : list Event :=
  if is_some_and (st_conversations s !! conversation_id) is_group_or_channel then
    [match cs_members community !! actor_id ≫= participant_for_community_member with
     | Some participant => ConversationParticipantUpserted conversation_id participant
     | None => ConversationParticipantRemoved conversation_id actor_id
     end]
  else [].

(** A member who left or was banned is no longer subscribed. *)
Definition drop_subscription (gone : bool) (actor_id : ActorId) (c : CommunityState) : CommunityState :=
  if gone then c ⟪ cs_subscribers ::= delete actor_id ⟫ else c.

Definition decide_moderate_member (s : MessagingState) (actor_id : ActorId)
    (conversation_id : ConversationId) (member : CommunityMember) (reason : option string)
    (decided_at_ms : Z) : outcome (list Event) :=
  let target := cm_actor_id member in
  require_actor s target ;;
  community ← require_community s conversation_id;
  require_community_admin community actor_id ActBanMembers ;;
  reject_if (eqb target actor_id
             || member_is community target (has_status [StOwner])
             || has_status [StOwner] member
             || has_status [StAdministrator] member
             || member_is community target (has_status [StAdministrator])) CommunityPermissionDenied ;;
  let community := upsert_member member community in
  let community := drop_subscription (has_status [StLeft; StBanned] member) target community in
  let community := append_community_audit community actor_id MemberChanged (Some target)
                     (Some ("member:" +:+ actor_id_0 target)) reason decided_at_ms in
  Ok (CommunityChanged community :: participant_event s conversation_id community target).

(** What changing a member takes. *)
Definition member_change_action (community : CommunityState) (member : CommunityMember) :
    CommunityAdminAction :=
  let target := cm_actor_id member in
  if member_is community target (has_status [StOwner])
     || member_is community target (has_status [StAdministrator])
  then ActAddAdmins
  else
    match cm_status member with
    | StOwner | StAdministrator => ActAddAdmins
    | StRestricted | StLeft | StBanned => ActBanMembers
    | StMember => ActInviteMembers
    end.

Definition decide_set_community_member (s : MessagingState) (actor_id : ActorId)
    (conversation_id : ConversationId) (member : CommunityMember) : outcome (list Event) :=
  let target := cm_actor_id member in
  require_actor s target ;;
  community ← require_community s conversation_id;
  let caller_is_owner := is_community_owner community actor_id in
  let target_is_owner := member_is community target (has_status [StOwner]) in
  reject_if ((target_is_owner || has_status [StOwner] member) && negb caller_is_owner)
    CommunityPermissionDenied ;;
  require_community_admin community actor_id (member_change_action community member) ;;
  let community := upsert_member member community in
  let community := drop_subscription
                     (member_is community target (has_status [StLeft; StBanned])) target community in
  let community := append_community_audit community actor_id MemberChanged (Some target)
                     (Some ("member:" +:+ actor_id_0 target)) None (cm_joined_at_ms member) in
  Ok (CommunityChanged community :: participant_event s conversation_id community target).

(** ** Invites and join requests *)

Definition decide_create_invite_link (s : MessagingState) (actor_id : ActorId) (invite : InviteLink) :
    outcome (list Event) :=
  community ← require_community s (il_conversation_id invite);
  require_community_admin community actor_id ActInviteMembers ;;
  reject_if (negb (eqb (il_creator_id invite) actor_id) || blank (il_id invite) || blank (il_token invite)
             || il_revoked invite) CommunityPermissionDenied ;;
  Ok [CommunityChanged
        (append_community_audit (community ⟪ cs_invite_links ::= <[il_id invite := invite]> ⟫) actor_id
           InviteCreated None (Some ("invite:" +:+ il_id invite)) None (il_created_at_ms invite))].

Definition decide_revoke_invite_link (s : MessagingState) (actor_id : ActorId)
    (conversation_id : ConversationId) (invite_id : string) (revoked_at_ms : Z) : outcome (list Event) :=
  community ← require_community s conversation_id;
  require_community_admin community actor_id ActInviteMembers ;;
  community ← map_err ECommunity (revoke_invite community invite_id);
  Ok [CommunityChanged
        (append_community_audit community actor_id InviteRevoked None (Some ("invite:" +:+ invite_id))
           None revoked_at_ms)].

Definition decide_request_join (s : MessagingState) (actor_id : ActorId) (request : JoinRequest) :
    outcome (list Event) :=
  reject_if (negb (eqb (jr_actor_id request) actor_id)) CommunityPermissionDenied ;;
  require_actor s actor_id ;;
  conversation ← require_conversation s (jr_conversation_id request);
  reject_if (negb (is_group_or_channel conversation)) CommunityPermissionDenied ;;
  community ← require_community s (jr_conversation_id request);
  reject_if (member_is community actor_id (has_status [StBanned])) CommunityPermissionDenied ;;
  reject_if (is_none_or (cs_public_username community) blank) CommunityPermissionDenied ;;
  Ok [CommunityChanged
        (append_community_audit (request_join request community) actor_id MemberChanged
           (Some (jr_actor_id request)) (Some "join-request") None (jr_requested_at_ms request))].

Definition decide_respond_join (s : MessagingState) (actor_id : ActorId) (conversation_id : ConversationId)
    (requester_id : ActorId) (approved : bool) (decided_at_ms : Z) : outcome (list Event) :=
  community ← require_community s conversation_id;
  require_community_admin community actor_id ActInviteMembers ;;
  community ←
    (if approved then
       community ← map_err ECommunity (approve_join community requester_id actor_id decided_at_ms);
       Ok (append_community_audit community actor_id JoinApproved (Some requester_id) None None decided_at_ms)
     else
       _ ← ok_or (cs_pending_join_requests community !! requester_id)
             (ECommunity (JoinRequestNotFound requester_id));
       Ok (append_community_audit (community ⟪ cs_pending_join_requests ::= delete requester_id ⟫)
             actor_id JoinRejected (Some requester_id) None None decided_at_ms));
  let event :=
    if approved && is_some_and (st_conversations s !! conversation_id) is_group_or_channel
    then ConversationParticipantUpserted conversation_id <$>
           (cs_members community !! requester_id ≫= participant_for_community_member)
    else None in
  Ok (CommunityChanged community :: option_list event).

(** ** Topics *)

Definition decide_upsert_forum_topic (s : MessagingState) (actor_id : ActorId) (topic : ForumTopicState) :
    outcome (list Event) :=
  community ← require_community s (ft_conversation_id topic);
  require_community_admin community actor_id ActManageTopics ;;
  reject_if (blank (ft_id topic) || blank (ft_title topic) || (128 <? len (trim (ft_title topic)))
             || negb (eqb (ft_conversation_id topic) (cs_conversation_id community)))
    CommunityPermissionDenied ;;
  Ok [CommunityChanged
        (append_community_audit (community ⟪ cs_topics ::= <[ft_id topic := topic]> ⟫) actor_id TopicUpserted
           None (Some ("topic:" +:+ ft_id topic)) None (ft_created_at_ms topic))].

Definition decide_delete_forum_topic (s : MessagingState) (actor_id : ActorId)
    (conversation_id : ConversationId) (topic_id : string) : outcome (list Event) :=
  community ← require_community s conversation_id;
  require_community_admin community actor_id ActManageTopics ;;
  Ok [CommunityChanged
        (append_community_audit (community ⟪ cs_topics ::= delete topic_id ⟫) actor_id TopicDeleted
           None (Some ("topic:" +:+ topic_id)) None 0)].
