(* ===== verification/EngineApp.v ===== *)
(** * Deciding the commands on stories, bots and mini apps ([engine.rs]) *)

From S2P Require Import Prelude Text Maps Conversation Message Apps EngineTypes EngineCore.

(** ** Stories *)

Definition require_story (s : MessagingState) (id : StoryId) : outcome Story :=
  ok_or (st_stories s !! id) (StoryNotFound id).

Definition decide_publish_story (s : MessagingState) (actor_id : ActorId) (story : Story) :
    outcome (list Event) :=
  require_actor s actor_id ;;
  reject_if (negb (eqb (story_owner_id story) actor_id)
             || blank (story_id_0 (story_id story))
             || blank (media_id (story_media story))
             || (story_expires_at_ms story <=? story_created_at_ms story)) InvalidStory ;;
  Ok [StoryChanged story].

Definition decide_delete_story (s : MessagingState) (actor_id : ActorId) (story_id : StoryId) :
    outcome (list Event) :=
  story ← require_story s story_id;
  reject_if (negb (eqb (story_owner_id story) actor_id)) (StoryPermissionDenied story_id) ;;
  Ok [StoryDeleted story_id].

Definition decide_view_story (s : MessagingState) (actor_id : ActorId) (story_id : StoryId)
    (viewed_at_ms : Z) : outcome (list Event) :=
  require_actor s actor_id ;;
  story ← require_story s story_id;
  reject_if (negb (is_visible_to story actor_id false false)) (StoryPermissionDenied story_id) ;;
  story ← map_err EStory (record_view story actor_id viewed_at_ms);
  Ok [StoryChanged story].

Definition decide_react_story (s : MessagingState) (actor_id : ActorId) (story_id : StoryId)
    (reaction : option string) : outcome (list Event) :=
  story ← require_story s story_id;
  reject_if (negb (is_visible_to story actor_id false false)) (StoryPermissionDenied story_id) ;;
  story ← map_err EStory (react story actor_id reaction);
  Ok [StoryChanged story].

(** ** Bots *)

Definition bot_error `{StrDebug} (e : BotError) : EngineError := EBot (bot_error_to_string e).

Definition decide_register_bot `{StrDebug} (s : MessagingState) (actor_id : ActorId) (profile : BotProfile) :
    outcome (list Event) :=
  actor ← require_actor s actor_id;
  reject_if (negb (eqb (bot_actor_id profile) actor_id)
             || negb (bool_decide (actor_kind actor ∈ [Bot; Assistant]))) BotPermissionDenied ;;
  registry ← map_err bot_error (bot_register (st_bots s) profile);
  Ok [BotRegistryChanged registry (Some profile) None].

Definition decide_begin_bot_invocation `{StrDebug} (s : MessagingState) (actor_id : ActorId)
    (invocation : BotInvocation) (created_at_ms : Z) : outcome (list Event) :=
  reject_if (negb (eqb (binv_sender_id invocation) actor_id)) BotPermissionDenied ;;
  require_actor s actor_id ;;
  require_conversation s (binv_conversation_id invocation) ;;
  '(registry, execution) ← map_err bot_error (begin_execution (st_bots s) invocation created_at_ms);
  Ok [BotRegistryChanged registry (reg_bots registry !! exec_bot_id execution) (Some execution)].

Definition decide_finish_bot_execution `{StrDebug} (s : MessagingState) (actor_id : ActorId)
    (execution_id : string) (success : bool) (finished_at_ms : Z) (error : option string) :
    outcome (list Event) :=
  execution ← ok_or (reg_executions (st_bots s) !! execution_id)
                (EBot ("execution not found: " +:+ execution_id));
  reject_if (negb (eqb (exec_bot_id execution) actor_id)) BotPermissionDenied ;;
  registry ← map_err bot_error (finish_execution (st_bots s) execution_id success finished_at_ms error);
  let execution := reg_executions registry !! execution_id in
  let profile := e ← execution; reg_bots registry !! exec_bot_id e in
  Ok [BotRegistryChanged registry profile execution].

(** ** Mini apps *)

Definition decide_grant_mini_app (s : MessagingState) (grant : MiniAppGrant) : outcome (list Event) :=
  reject_if (negb (contains_key (grant_mini_app_id grant) (st_mini_apps s)))
    (MiniAppNotFound (grant_mini_app_id grant)) ;;
  require_actor s (grant_actor_id grant) ;;
  Ok [MiniAppGrantUpdated grant].

(** The first permission of the session that its grant does not give. *)
Definition ungranted (grant : option MiniAppGrant) (permissions : list MiniAppPermission) :
    option MiniAppPermission :=
  find (fun p => negb (is_some_and grant (fun g => bool_decide (p ∈ grant_permissions g)))) permissions.

Definition decide_open_mini_app (s : MessagingState) (session : MiniAppSession) : outcome (list Event) :=
  reject_if (negb (contains_key (session_mini_app_id session) (st_mini_apps s)))
    (MiniAppNotFound (session_mini_app_id session)) ;;
  let grant := st_mini_app_grants s !! (session_mini_app_id session, session_actor_id session) in
  match ungranted grant (session_granted_permissions session) with
  | Some permission => Err (MiniAppPermissionDenied permission)
  | None => Ok [MiniAppOpened session]
  end.

(** The requests the engine answers by itself. *)
Definition engine_response (request : MiniAppRequest) : outcome MiniAppResponse :=
  match request with
  | Ready | Expand | Close | SetHeaderColor _ | SetBackgroundColor _ => Ok ResponseOk
  | _ => Err MiniAppHostActionRequired
  end.

Definition decide_mini_app_call (s : MessagingState) (id request_id : string) (request : MiniAppRequest) :
    outcome (list Event) :=
  session ← ok_or (st_mini_app_sessions s !! id) (MiniAppSessionNotFound id);
  match required_permission request with
  | Some permission =>
      reject_if (negb (bool_decide (permission ∈ session_granted_permissions session)))
        (MiniAppPermissionDenied permission)
  | None => Ok tt
  end ;;
  response ← engine_response request;
  Ok [MiniAppResponded id request_id response].
