(* ===== verification/EngineApply.v ===== *)
(** * Applying events to the engine's state ([engine.rs]) *)

From S2P Require Import Prelude Text Maps Conversation Message Payment Wallet Apps Community EngineTypes EngineCore.

(** [if let Some(x) = table.get_mut(key) { ... }] *)
Definition with_conversation (id : ConversationId) (f : Conversation -> Conversation) (s : MessagingState) :
    MessagingState := s ⟪ st_conversations ::= alter f id ⟫.
Definition with_message (conversation_id : ConversationId) (message_id : MessageId) (f : Message -> Message)
    (s : MessagingState) : MessagingState :=
  s ⟪ st_messages ::= alter (alter f message_id) conversation_id ⟫.

(** Replace the participant with the same actor, or add one at the end. *)
Fixpoint put_participant (p : Participant) (l : list Participant) : list Participant :=
  match l with
  | [] => [p]
  | q :: rest => if eqb (participant_actor_id q) (participant_actor_id p) then p :: rest
                 else q :: put_participant p rest
  end.

Definition apply_participant_removed (id : ConversationId) (actor_id : ActorId) (s : MessagingState) :
    MessagingState :=
  (with_conversation id (fun c =>
     c ⟪ conv_participants ::= filter (fun p => participant_actor_id p <> actor_id) ⟫) s)
    ⟪ st_read_cursors ::= alter (delete actor_id) id ⟫
    ⟪ st_drafts ::= alter (delete actor_id) id ⟫
    ⟪ st_topic_read_cursors ::= alter (delete actor_id) id ⟫
    ⟪ st_topic_drafts ::= alter (delete actor_id) id ⟫
    ⟪ st_marked_unread_by_actor ::= alter (fun marked => marked ∖ {[actor_id]}) id ⟫.

(** Store [v], or remove the entry when it became empty. *)
Definition put_or_remove {K V : Type} `{Countable K} (is_empty : V -> bool) (k : K) (v : V) (m : gmap K V) :
    gmap K V := if is_empty v then delete k m else <[k := v]> m.

Definition set_is_empty {A : Type} `{Countable A} (x : gset A) : bool := bool_decide (x = ∅).
Definition map_is_empty {K V : Type} `{Countable K} (m : gmap K V) : bool :=
  bool_decide (map_to_list m = []).

Definition apply_marked_unread (id : ConversationId) (actor_id : ActorId) (marked_unread : bool)
    (s : MessagingState) : MessagingState :=
  let actors := default ∅ (st_marked_unread_by_actor s !! id) in
  let actors := if marked_unread then actors ∪ {[actor_id]} else actors ∖ {[actor_id]} in
  with_conversation id (fun c => c ⟪ conv_marked_unread := marked_unread ⟫)
    (s ⟪ st_marked_unread_by_actor ::= put_or_remove set_is_empty id actors ⟫).

(** [if let Some(inner) = map.get_mut(k) { f(inner); if inner.is_empty() { map.remove(k); } }] *)
Definition alter_or_remove {K V : Type} `{Countable K} (is_empty : V -> bool) (f : V -> V) (k : K)
    (m : gmap K V) : gmap K V :=
  match m !! k with
  | None => m
  | Some v => put_or_remove is_empty k (f v) m
  end.

Definition apply_draft_changed (draft : ConversationDraft) (s : MessagingState) : MessagingState :=
  if blank (draft_text draft) && negb (is_some_and (draft_reply_to_message_id draft) (fun _ => true)) then
    s ⟪ st_drafts ::= alter_or_remove map_is_empty (delete (draft_actor_id draft)) (draft_conversation_id draft) ⟫
  else
    s ⟪ st_drafts ::= entry_or ∅ (<[draft_actor_id draft := draft]>) (draft_conversation_id draft) ⟫.

Definition apply_topic_draft_changed (draft : TopicDraft) (s : MessagingState) : MessagingState :=
  if blank (tdraft_text draft) && negb (is_some_and (tdraft_reply_to_message_id draft) (fun _ => true)) then
    s ⟪ st_topic_drafts ::= alter_or_remove map_is_empty
          (alter_or_remove map_is_empty (delete (tdraft_topic_id draft)) (tdraft_actor_id draft))
          (tdraft_conversation_id draft) ⟫
  else
    s ⟪ st_topic_drafts ::= entry_or ∅ (entry_or ∅ (<[tdraft_topic_id draft := draft]>) (tdraft_actor_id draft))
          (tdraft_conversation_id draft) ⟫.

Definition apply_retention_updated (id : ConversationId) (r : ConversationMessageRetention)
    (s : MessagingState) : MessagingState :=
  with_conversation id (fun c =>
    c ⟪ conv_message_retention_seconds := policy_seconds <$> retention_policy r ⟫
      ⟪ conv_retention_revision := retention_revision r ⟫) s.

Definition apply_folder_deleted (folder_id : string) (s : MessagingState) : MessagingState :=
  s ⟪ st_folders ::= delete folder_id ⟫
    ⟪ st_conversations ::= fmap (fun c => c ⟪ conv_folder_ids ::= filter (fun id => id <> folder_id) ⟫) ⟫.

(** The forum topic a queued message belongs to remembers it as its last. *)
Definition touch_topic (m : Message) (s : MessagingState) : MessagingState :=
  match msg_thread_root_message_id m ≫= topic_id_from_root with
  | None => s
  | Some topic_id =>
      s ⟪ st_communities ::= alter (fun community =>
            community ⟪ cs_topics ::= alter (fun t =>
              t ⟪ ft_last_message_id := Some (message_id_0 (msg_id m)) ⟫) topic_id ⟫)
          (msg_conversation_id m) ⟫
  end.

Definition apply_message_queued (m : Message) (s : MessagingState) : MessagingState :=
  touch_topic m
    ((with_conversation (msg_conversation_id m) (fun c =>
        c ⟪ conv_last_message_id := Some (message_id_0 (msg_id m)) ⟫
          ⟪ conv_updated_at_ms := msg_created_at_ms m ⟫) s)
      ⟪ st_messages ::= entry_or ∅ (<[msg_id m := m]>) (msg_conversation_id m) ⟫).

(** Moving a message to the identifier the server gave it. *)
Definition rename_message (local_message_id server_message_id : MessageId) (accepted_at_ms : Z)
    (messages : gmap MessageId Message) : gmap MessageId Message :=
  match messages !! local_message_id with
  | None => messages
  | Some m =>
      <[server_message_id := m ⟪ msg_id := server_message_id ⟫ ⟪ msg_delivery_state := Sent ⟫
                               ⟪ msg_created_at_ms := accepted_at_ms ⟫]>
        (delete local_message_id messages)
  end.

Definition apply_message_acknowledged (id : ConversationId) (local_message_id server_message_id : MessageId)
    (accepted_at_ms : Z) (s : MessagingState) : MessagingState :=
  with_conversation id (fun c =>
    if eqb (conv_last_message_id c) (Some (message_id_0 local_message_id))
    then c ⟪ conv_last_message_id := Some (message_id_0 server_message_id) ⟫ else c)
    (s ⟪ st_messages ::= alter (rename_message local_message_id server_message_id accepted_at_ms) id ⟫).

Definition apply_messages_deleted (id : ConversationId) (message_ids : list MessageId) (s : MessagingState) :
    MessagingState :=
  foldl (fun s message_id => with_message id message_id (fun m => m ⟪ msg_deleted := true ⟫) s) s message_ids.

Definition apply_conversation_read (id : ConversationId) (actor_id : ActorId) (message_id : MessageId)
    (s : MessagingState) : MessagingState :=
  with_conversation id (fun c =>
    c ⟪ conv_last_read_message_id := Some (message_id_0 message_id) ⟫
      ⟪ conv_unread_count := 0 ⟫
      ⟪ conv_marked_unread := false ⟫)
    (s ⟪ st_read_cursors ::= entry_or ∅ (<[actor_id := message_id]>) id ⟫
       ⟪ st_marked_unread_by_actor ::= alter_or_remove set_is_empty (fun a => a ∖ {[actor_id]}) id ⟫).

Definition apply_reaction (reaction : ReactionSummary) (m : Message) : Message :=
  let others := filter (fun item => reaction_reaction item <> reaction_reaction reaction) (msg_reactions m) in
  m ⟪ msg_reactions := if 0 <? reaction_count reaction then (others ++ [reaction])%list else others ⟫.

Definition apply_message_pinned (id : ConversationId) (message_id : MessageId) (pinned : bool)
    (s : MessagingState) : MessagingState :=
  with_conversation id (fun c =>
    c ⟪ conv_pinned_message_ids ::= fun ids =>
          let others := filter (fun i => i <> message_id_0 message_id) ids in
          if pinned then (others ++ [message_id_0 message_id])%list else others ⟫)
    (with_message id message_id (fun m => m ⟪ msg_pinned := pinned ⟫) s).

(** The votes for an option, saturating at [u32::MAX]. *)
Definition count_votes (votes : gmap ActorId (gset string)) (id : string) : Z :=
  Z.min u32_max (Z.of_nat (length (filter (fun v => id ∈ v) (btree_values votes)))).

Definition tally (votes : gmap ActorId (gset string)) (content : MessageContent) : MessageContent :=
  match content with
  | ContentPoll question options anonymous multiple_answers quiz =>
      ContentPoll question
        ((fun o => o ⟪ option_voter_count := count_votes votes (option_id o) ⟫ ⟪ option_chosen := false ⟫)
           <$> options) anonymous multiple_answers quiz
  | _ => content
  end.

Definition votes_on (s : MessagingState) (id : ConversationId) (message_id : MessageId) :
    gmap ActorId (gset string) :=
  default ∅ (by_message ← st_poll_votes s !! id; by_message !! message_id).

Definition apply_poll_vote (id : ConversationId) (message_id : MessageId) (actor_id : ActorId)
    (option_ids : list string) (s : MessagingState) : MessagingState :=
  let selected : gset string := list_to_set option_ids in
  let by_actor := put_or_remove set_is_empty actor_id selected (votes_on s id message_id) in
  with_message id message_id (fun m => m ⟪ msg_content ::= tally by_actor ⟫)
    (s ⟪ st_poll_votes ::= entry_or ∅ (<[message_id := by_actor]>) id ⟫).

(** [MessagingEngine::apply] *)
Definition apply_event (event : Event) (s : MessagingState) : MessagingState :=
  match event with
  | ActorUpserted actor => s ⟪ st_actors ::= <[actor_id actor := actor]> ⟫
  | PresenceUpdated id presence => s ⟪ st_actors ::= alter (fun a => a ⟪ actor_presence := presence ⟫) id ⟫
  | ConversationUpserted c => s ⟪ st_conversations ::= <[conv_id c := c]> ⟫
  | ConversationInfoUpdated id title description =>
      with_conversation id (fun c => c ⟪ conv_title := title ⟫ ⟪ conv_description := description ⟫) s
  | ConversationParticipantUpserted id p =>
      with_conversation id (fun c => c ⟪ conv_participants ::= put_participant p ⟫) s
  | ConversationParticipantRemoved id actor_id => apply_participant_removed id actor_id s
  | ConversationArchived id archived => with_conversation id (fun c => c ⟪ conv_archived := archived ⟫) s
  | ConversationPinned id pinned => with_conversation id (fun c => c ⟪ conv_pinned := pinned ⟫) s
  | ConversationMarkedUnread id actor_id marked => apply_marked_unread id actor_id marked s
  | DraftChanged draft => apply_draft_changed draft s
  | ConversationNotificationsUpdated id settings =>
      with_conversation id (fun c => c ⟪ conv_notification_settings := settings ⟫) s
  | ConversationMessageRetentionUpdated id retention => apply_retention_updated id retention s
  | FolderUpserted folder => s ⟪ st_folders ::= <[folder_id folder := folder]> ⟫
  | FolderDeleted id => apply_folder_deleted id s
  | MessageQueued m => apply_message_queued m s
  | MessageAcknowledged id local server accepted => apply_message_acknowledged id local server accepted s
  | DeliveryStateUpdated id m state => with_message id m (fun m => m ⟪ msg_delivery_state := state ⟫) s
  | MessageEdited id m content edited =>
      with_message id m (fun m => m ⟪ msg_content := content ⟫ ⟪ msg_edited_at_ms := Some edited ⟫) s
  | MessagesDeleted id ids => apply_messages_deleted id ids s
  | ConversationRead id actor_id m => apply_conversation_read id actor_id m s
  | TopicReadChanged id topic_id actor_id m =>
      s ⟪ st_topic_read_cursors ::= entry_or ∅ (entry_or ∅ (<[topic_id := m]>) actor_id) id ⟫
  | TopicDraftChanged draft => apply_topic_draft_changed draft s
  | ReactionUpdated id m reaction => with_message id m (apply_reaction reaction) s
  | MessagePinned id m pinned => apply_message_pinned id m pinned s
  | PollVoteChanged id m actor_id option_ids => apply_poll_vote id m actor_id option_ids s
  | InvoiceCreated invoice => s ⟪ st_invoices ::= <[inv_id invoice := invoice]> ⟫
  | OrderUpserted order => s ⟪ st_orders ::= <[order_id order := order]> ⟫
  | WalletChanged wallet _ => s ⟪ st_wallet := wallet ⟫
  | StoryChanged story => s ⟪ st_stories ::= <[story_id story := story]> ⟫
  | StoryDeleted id => s ⟪ st_stories ::= delete id ⟫
  | CommunityChanged community => s ⟪ st_communities ::= <[cs_conversation_id community := community]> ⟫
  | BotRegistryChanged registry _ _ => s ⟪ st_bots := registry ⟫
  | MiniAppInstalled manifest => s ⟪ st_mini_apps ::= <[app_id manifest := manifest]> ⟫
  | MiniAppGrantUpdated grant =>
      s ⟪ st_mini_app_grants ::= <[(grant_mini_app_id grant, grant_actor_id grant) := grant]> ⟫
  | MiniAppOpened session => s ⟪ st_mini_app_sessions ::= <[session_id session := session]> ⟫
  | MiniAppResponded _ _ _ => s
  end.
