(* ===== verification/Engine.v ===== *)
(** * The messaging engine ([engine.rs]): deciding, applying, executing

    And which events a command can produce. *)

From S2P Require Import Prelude Text Maps Conversation Message Payment Wallet Apps Community EngineTypes EngineCore EngineConversation EngineMessage EngineCommerce EngineCommunity EngineApp EngineApply.

Section engine.
Context `{U : UnicodeCase, D : StrDebug}.

(** [MessagingEngine::decide]: a command either is refused or produces the
    events that carry it out. *)
Definition decide_command (s : MessagingState) (command : Command) : outcome (list Event) :=
  match command with
  | UpsertActor actor => decide_upsert_actor actor
  | SetPresence id presence => decide_set_presence s id presence
  | UpsertConversation c => decide_upsert_conversation s c
  | UpdateConversationInfo id title description => decide_update_conversation_info s id title description
  | SetConversationParticipant id p => decide_set_conversation_participant s id p
  | RemoveConversationParticipant id actor_id => decide_remove_conversation_participant s id actor_id
  | ArchiveConversation id archived => decide_archive_conversation s id archived
  | PinConversation id pinned => decide_pin_conversation s id pinned
  | SetMarkedUnread id actor_id marked => decide_set_marked_unread s id actor_id marked
  | SetDraft draft => decide_set_draft s draft
  | SetConversationNotifications id settings => decide_set_conversation_notifications s id settings
  | SetConversationMessageRetention id seconds expected => decide_set_message_retention s id seconds expected
  | UpsertFolder folder => Ok [FolderUpserted folder]
  | DeleteFolder id => Ok [FolderDeleted id]
  | QueueMessage id local client sender content reply thread created scheduled silent protected =>
      decide_queue_message s id local client sender content reply thread created scheduled silent protected
  | ForwardMessage source m destination local client sender created =>
      decide_forward_message s source m destination local client sender created
  | AcknowledgeMessage id local server accepted => decide_acknowledge_message s id local server accepted
  | SetDeliveryState id m state => decide_set_delivery_state s id m state
  | EditMessage id m content edited => decide_edit_message s id m content edited
  | DeleteMessages id ids => decide_delete_messages s id ids
  | MarkRead id actor_id m => decide_mark_read s id actor_id m
  | MarkTopicRead id topic_id actor_id m => decide_mark_topic_read s id topic_id actor_id m
  | SetTopicDraft draft => decide_set_topic_draft s draft
  | SetReaction id m reaction => decide_set_reaction s id m reaction
  | PinMessage id m pinned => decide_pin_message s id m pinned
  | VotePoll id m actor_id option_ids => decide_vote_poll s id m actor_id option_ids
  | CreateInvoice invoice => decide_create_invoice s invoice
  | UpsertOrder order => decide_upsert_order s order
  | CheckoutInvoice invoice_id order_id buyer customer created =>
      decide_checkout_invoice s invoice_id order_id buyer customer created
  | RefundOrder order_id seller request_id refunded => decide_refund_order s order_id seller request_id refunded
  | CreditWalletSettlement request_id owner amount reference settled =>
      decide_credit_wallet_settlement s request_id owner amount reference settled
  | PublishStory actor_id story => decide_publish_story s actor_id story
  | DeleteStory actor_id id => decide_delete_story s actor_id id
  | ViewStory actor_id id viewed => decide_view_story s actor_id id viewed
  | ReactStory actor_id id reaction => decide_react_story s actor_id id reaction
  | UpdateCommunity actor_id community => decide_update_community s actor_id community
  | SubscribeChannel actor_id id at_ms => decide_subscribe_channel s actor_id id at_ms
  | UnsubscribeChannel actor_id id at_ms => decide_unsubscribe_channel s actor_id id at_ms
  | SetCommunitySlowMode actor_id id seconds at_ms => decide_set_slow_mode s actor_id id seconds at_ms
  | ModerateCommunityMember actor_id id member reason at_ms =>
      decide_moderate_member s actor_id id member reason at_ms
  | SetCommunityMember actor_id id member => decide_set_community_member s actor_id id member
  | CreateInviteLink actor_id invite => decide_create_invite_link s actor_id invite
  | RevokeInviteLink actor_id id invite_id at_ms => decide_revoke_invite_link s actor_id id invite_id at_ms
  | RequestCommunityJoin actor_id request => decide_request_join s actor_id request
  | RespondCommunityJoin actor_id id requester approved at_ms =>
      decide_respond_join s actor_id id requester approved at_ms
  | UpsertForumTopic actor_id topic => decide_upsert_forum_topic s actor_id topic
  | DeleteForumTopic actor_id id topic_id => decide_delete_forum_topic s actor_id id topic_id
  | RegisterBot actor_id profile => decide_register_bot s actor_id profile
  | BeginBotInvocation actor_id invocation created => decide_begin_bot_invocation s actor_id invocation created
  | FinishBotExecution actor_id id success finished error =>
      decide_finish_bot_execution s actor_id id success finished error
  | InstallMiniApp manifest => Ok [MiniAppInstalled manifest]
  | GrantMiniApp grant => decide_grant_mini_app s grant
  | OpenMiniApp session => decide_open_mini_app s session
  | MiniAppCall id request_id request => decide_mini_app_call s id request_id request
  end.

Definition apply_events (events : list Event) (s : MessagingState) : MessagingState :=
  foldl (fun s event => apply_event event s) s events.

(** [MessagingEngine::execute] *)
Definition execute (s : MessagingState) (command : Command) : MessagingState * outcome (list Event) :=
  match decide_command s command with
  | Err e => (s, Err e)
  | Ok events => (apply_events events s, Ok events)
  end.

(** [MessagingEngine::complete_paid_order] *)
Definition complete_paid_order (s : MessagingState) (id : string) (updated_at_ms : Z) :
    MessagingState * outcome (list Event) :=
  match st_orders s !! id with
  | None => (s, Err (OrderNotFound id))
  | Some order =>
      execute s (UpsertOrder (order ⟪ order_status := Paid ⟫ ⟪ order_updated_at_ms := updated_at_ms ⟫))
  end.

(** A sequence of commands, refused ones changing nothing. *)
Definition run (commands : list Command) (s : MessagingState) : MessagingState :=
  foldl (fun s command => fst (execute s command)) s commands.
End engine.

(** ** Which events a command can produce *)

(** The events each command may be decided into. *)
Definition event_of (c : Command) (e : Event) : bool :=
  match c, e with
  | UpsertActor _, ActorUpserted _ | SetPresence _ _, PresenceUpdated _ _
  | UpsertConversation _, ConversationUpserted _ | UpdateConversationInfo _ _ _, ConversationInfoUpdated _ _ _
  | SetConversationParticipant _ _, (CommunityChanged _ | ConversationParticipantUpserted _ _)
  | RemoveConversationParticipant _ _, (CommunityChanged _ | ConversationParticipantRemoved _ _)
  | ArchiveConversation _ _, ConversationArchived _ _ | PinConversation _ _, ConversationPinned _ _
  | SetMarkedUnread _ _ _, ConversationMarkedUnread _ _ _ | SetDraft _, DraftChanged _
  | SetConversationNotifications _ _, ConversationNotificationsUpdated _ _
  | SetConversationMessageRetention _ _ _, ConversationMessageRetentionUpdated _ _
  | UpsertFolder _, FolderUpserted _ | DeleteFolder _, FolderDeleted _
  | QueueMessage _ _ _ _ _ _ _ _ _ _ _, MessageQueued _ | ForwardMessage _ _ _ _ _ _ _, MessageQueued _
  | AcknowledgeMessage _ _ _ _, MessageAcknowledged _ _ _ _
  | SetDeliveryState _ _ _, DeliveryStateUpdated _ _ _ | EditMessage _ _ _ _, MessageEdited _ _ _ _
  | DeleteMessages _ _, MessagesDeleted _ _ | MarkRead _ _ _, ConversationRead _ _ _
  | MarkTopicRead _ _ _ _, TopicReadChanged _ _ _ _ | SetTopicDraft _, TopicDraftChanged _
  | SetReaction _ _ _, ReactionUpdated _ _ _ | PinMessage _ _ _, MessagePinned _ _ _
  | VotePoll _ _ _ _, PollVoteChanged _ _ _ _ | CreateInvoice _, InvoiceCreated _
  | UpsertOrder _, OrderUpserted _
  | CheckoutInvoice _ _ _ _ _, (WalletChanged _ _ | OrderUpserted _)
  | RefundOrder _ _ _ _, (WalletChanged _ _ | OrderUpserted _)
  | CreditWalletSettlement _ _ _ _ _, WalletChanged _ _
  | PublishStory _ _, StoryChanged _ | DeleteStory _ _, StoryDeleted _
  | ViewStory _ _ _, StoryChanged _ | ReactStory _ _ _, StoryChanged _
  | UpdateCommunity _ _, CommunityChanged _ | SubscribeChannel _ _ _, CommunityChanged _
  | UnsubscribeChannel _ _ _, CommunityChanged _ | SetCommunitySlowMode _ _ _ _, CommunityChanged _
  | ModerateCommunityMember _ _ _ _ _,
      (CommunityChanged _ | ConversationParticipantUpserted _ _ | ConversationParticipantRemoved _ _)
  | SetCommunityMember _ _ _,
      (CommunityChanged _ | ConversationParticipantUpserted _ _ | ConversationParticipantRemoved _ _)
  | CreateInviteLink _ _, CommunityChanged _ | RevokeInviteLink _ _ _ _, CommunityChanged _
  | RequestCommunityJoin _ _, CommunityChanged _
  | RespondCommunityJoin _ _ _ _ _, (CommunityChanged _ | ConversationParticipantUpserted _ _)
  | UpsertForumTopic _ _, CommunityChanged _ | DeleteForumTopic _ _ _, CommunityChanged _
  | RegisterBot _ _, BotRegistryChanged _ _ _ | BeginBotInvocation _ _ _, BotRegistryChanged _ _ _
  | FinishBotExecution _ _ _ _ _, BotRegistryChanged _ _ _
  | InstallMiniApp _, MiniAppInstalled _ | GrantMiniApp _, MiniAppGrantUpdated _
  | OpenMiniApp _, MiniAppOpened _ | MiniAppCall _ _ _, MiniAppResponded _ _ _ => true
  | _, _ => false
  end.

Section events.
Context `{U : UnicodeCase, D : StrDebug}.

Lemma participant_event_of s id c a x m r t :
  forallb (event_of (ModerateCommunityMember x id m r t)) (participant_event s id c a) = true
  /\ forallb (event_of (SetCommunityMember x id m)) (participant_event s id c a) = true.
Proof. unfold participant_event. case_match; [|done]. by case_match. Qed.

Lemma decide_event_of s c evs : decide_command s c = Ok evs -> forallb (event_of c) evs = true.
Proof.
  destruct c; simpl;
    unfold decide_upsert_actor, decide_set_presence, decide_upsert_conversation,
      decide_update_conversation_info, decide_set_conversation_participant,
      decide_remove_conversation_participant, decide_archive_conversation, decide_pin_conversation,
      decide_set_marked_unread, decide_set_draft, decide_set_conversation_notifications,
      decide_set_message_retention, decide_queue_message, decide_forward_message,
      decide_acknowledge_message, decide_set_delivery_state, decide_edit_message, decide_delete_messages,
      decide_mark_read, decide_mark_topic_read, decide_set_topic_draft, decide_set_reaction,
      decide_pin_message, decide_vote_poll, decide_create_invoice, decide_upsert_order,
      decide_checkout_invoice, decide_refund_order, decide_credit_wallet_settlement,
      decide_publish_story, decide_delete_story, decide_view_story, decide_react_story,
      decide_update_community, decide_subscribe_channel, decide_unsubscribe_channel, decide_set_slow_mode,
      decide_create_invite_link,
      decide_revoke_invite_link, decide_request_join, decide_upsert_forum_topic,
      decide_delete_forum_topic, decide_register_bot, decide_begin_bot_invocation,
      decide_finish_bot_execution, decide_grant_mini_app, decide_open_mini_app, decide_mini_app_call;
    intros H; okps; do 2 try (case_match; okps); subst; try done.
  - unfold decide_moderate_member in H. oks. subst. apply (participant_event_of s).
  - unfold decide_set_community_member in H. oks. subst. apply (participant_event_of s _ _ _ actor_id member None 0).
  - unfold decide_respond_join in H. oks. subst. simpl. destruct (approved && _); [|done].
    by destruct (cs_members _ !! _ ≫= participant_for_community_member).
Qed.
End events.
