(* ===== verification/EngineInvariant.v ===== *)
(** * The engine's invariant: every reachable state is coherent *)

From S2P Require Import Prelude Text Maps Conversation Message Payment Wallet Apps Community EngineTypes EngineCore EngineConversation EngineMessage EngineCommerce EngineCommunity EngineApp EngineApply Engine.

(** ** Coherent states

    Every table is keyed by the identifier its entries carry, entries refer
    to entries that exist, the ledger is balanced and the communities and the
    bot registry are well formed. *)
Record state_wf (s : MessagingState) : Prop := {
  sw_actors : map_Forall (fun id a => actor_id a = id /\ actor_id_is_valid id = true) (st_actors s);
  sw_conversations : map_Forall (fun id c => conv_id c = id /\ conversation_id_is_valid id = true)
    (st_conversations s);
  sw_messages : map_Forall (fun id ms => is_Some (st_conversations s !! id)
    /\ map_Forall (fun mid m => msg_id m = mid /\ msg_conversation_id m = id) ms) (st_messages s);
  sw_invoices : map_Forall (fun id i => inv_id i = id /\ invoice_is_valid i = true
    /\ is_Some (st_actors s !! inv_seller_id i)) (st_invoices s);
  sw_orders : map_Forall (fun id o => order_id o = id /\ is_Some (st_invoices s !! order_invoice_id o)
    /\ is_Some (st_actors s !! order_buyer_id o)) (st_orders s);
  sw_wallet : ledger_wf (st_wallet s);
  sw_stories : map_Forall (fun id t => story_id t = id /\ story_created_at_ms t < story_expires_at_ms t
    /\ is_Some (st_actors s !! story_owner_id t)) (st_stories s);
  sw_communities : map_Forall (fun id c => cs_conversation_id c = id /\ community_wf c
    /\ is_Some (st_conversations s !! id)) (st_communities s);
  sw_bots : registry_wf (st_bots s);
  sw_mini_apps : map_Forall (fun id a => app_id a = id) (st_mini_apps s);
  sw_grants : map_Forall (fun id g => (grant_mini_app_id g, grant_actor_id g) = id
    /\ is_Some (st_mini_apps s !! grant_mini_app_id g)) (st_mini_app_grants s);
  sw_sessions : map_Forall (fun id x => session_id x = id
    /\ is_Some (st_mini_apps s !! session_mini_app_id x)) (st_mini_app_sessions s);
}.

Lemma state_wf_empty : state_wf empty_state.
Proof.
  split; simpl; try (intros ? ?; by rewrite lookup_empty).
  - apply ledger_wf_empty.
  - apply registry_wf_empty.
Qed.

(** ** When an event keeps a state coherent *)

Definition event_ok (s : MessagingState) (event : Event) : Prop :=
  match event with
  | ActorUpserted a => actor_id_is_valid (actor_id a) = true
  | ConversationUpserted c => conversation_id_is_valid (conv_id c) = true
  | MessageQueued m => is_Some (st_conversations s !! msg_conversation_id m)
  | InvoiceCreated i => invoice_is_valid i = true /\ is_Some (st_actors s !! inv_seller_id i)
  | OrderUpserted o => is_Some (st_invoices s !! order_invoice_id o) /\ is_Some (st_actors s !! order_buyer_id o)
  | WalletChanged w _ => ledger_wf w
  | StoryChanged t => story_created_at_ms t < story_expires_at_ms t /\ is_Some (st_actors s !! story_owner_id t)
  | CommunityChanged c => community_wf c /\ is_Some (st_conversations s !! cs_conversation_id c)
  | BotRegistryChanged r _ _ => registry_wf r
  | MiniAppGrantUpdated g => is_Some (st_mini_apps s !! grant_mini_app_id g)
  | MiniAppOpened x => is_Some (st_mini_apps s !! session_mini_app_id x)
  | _ => True
  end.

Fixpoint events_ok (s : MessagingState) (events : list Event) : Prop :=
  match events with
  | [] => True
  | e :: rest => event_ok s e /\ events_ok (apply_event e s) rest
  end.

(** ** Map lemmas for the tables *)

Lemma insert_is_Some {K V : Type} `{Countable K} (m : gmap K V) (k j : K) (v : V) :
  is_Some (m !! j) -> is_Some (<[k := v]> m !! j).
Proof. intros [w Hw]. rewrite lookup_insert. case_decide; by eexists. Qed.

Lemma map_Forall_mono {K V : Type} `{Countable K} (P Q : K -> V -> Prop) (m : gmap K V) :
  (forall k v, P k v -> Q k v) -> map_Forall P m -> map_Forall Q m.
Proof. intros HPQ Hm k v Hk. by apply HPQ, Hm. Qed.

Lemma alter_is_Some {K V : Type} `{Countable K} (f : V -> V) (m : gmap K V) (k j : K) :
  is_Some (m !! j) -> is_Some (alter f k m !! j).
Proof. by rewrite lookup_alter_is_Some. Qed.

#[export] Hint Resolve insert_is_Some alter_is_Some : btree.

(** Change one table, leaving the rest. *)
Ltac rest_wf := split; fields; try assumption.

(** A table whose entries mention another table that only grew. *)
Ltac grown :=
  eapply map_Forall_mono; [|eassumption]; simpl; intros ? ?;
  rewrite ?lookup_fmap, ?fmap_is_Some; naive_solver eauto using insert_is_Some, alter_is_Some.

(** ** Every event preserves coherence when it is acceptable *)

Lemma with_conversation_wf id f s :
  (forall c, conv_id (f c) = conv_id c) -> state_wf s -> state_wf (with_conversation id f s).
Proof.
  intros Hf []. unfold with_conversation. rest_wf.
  - apply map_Forall_alter; [|done]. intros c _. by rewrite Hf.
  - grown.
  - grown.
Qed.

Lemma with_message_wf id mid f s :
  (forall m, msg_id (f m) = msg_id m /\ msg_conversation_id (f m) = msg_conversation_id m) ->
  state_wf s -> state_wf (with_message id mid f s).
Proof.
  intros Hf []. unfold with_message. rest_wf.
  apply map_Forall_alter; [|done]. intros ms _ [Hc Hms]. split; [done|].
  apply map_Forall_alter; [|done]. intros m _. by destruct (Hf m) as [-> ->].
Qed.

Lemma map_Forall_entry_or {K V : Type} `{Countable K} (P : K -> V -> Prop) (d : V) (f : V -> V) (k : K)
    (m : gmap K V) :
  (forall v, (m !! k = Some v \/ (m !! k = None /\ v = d)) -> P k (f v)) -> map_Forall P m ->
  map_Forall P (entry_or d f k m).
Proof.
  intros Hf Hm. unfold entry_or. apply map_Forall_insert_2; [|done]. apply Hf.
  destruct (m !! k); simpl; auto.
Qed.

Lemma apply_message_queued_wf m s :
  is_Some (st_conversations s !! msg_conversation_id m) -> state_wf s -> state_wf (apply_message_queued m s).
Proof.
  intros Hc Hwf. unfold apply_message_queued.
  assert (state_wf ((with_conversation (msg_conversation_id m)
    (fun c => c ⟪ conv_last_message_id := Some (message_id_0 (msg_id m)) ⟫
                ⟪ conv_updated_at_ms := msg_created_at_ms m ⟫) s)
    ⟪ st_messages ::= entry_or ∅ (<[msg_id m := m]>) (msg_conversation_id m) ⟫)) as Hwf'.
  { apply (with_conversation_wf (msg_conversation_id m)
      (fun c => c ⟪ conv_last_message_id := Some (message_id_0 (msg_id m)) ⟫
                  ⟪ conv_updated_at_ms := msg_created_at_ms m ⟫)) in Hwf; [|done].
    assert (is_Some (st_conversations (with_conversation (msg_conversation_id m)
      (fun c => c ⟪ conv_last_message_id := Some (message_id_0 (msg_id m)) ⟫
                  ⟪ conv_updated_at_ms := msg_created_at_ms m ⟫) s) !! msg_conversation_id m))
      by (unfold with_conversation; fields; auto with btree).
    destruct Hwf. rest_wf. apply map_Forall_entry_or; [|done].
    intros ms Hms. split; [done|]. apply map_Forall_insert_2; [done|].
    destruct Hms as [Hms|[_ ->]]; [by apply sw_messages0 in Hms as []|]. apply map_Forall_empty. }
  clear Hwf Hc. unfold touch_topic.
  destruct (msg_thread_root_message_id m ≫= topic_id_from_root) as [t|]; [|done].
  destruct Hwf'. rest_wf. apply map_Forall_alter; [|done].
  intros c _ (? & [[? ? ? ? Htopics] ?] & ?). split_and!; [done| |done].
  split; [split; fields; try done|done].
  intros k t' Hk. apply lookup_alter_Some in Hk as [(<- & t0 & Ht0 & ->)|[_ Hk]]; [|by apply Htopics].
  fields. by apply Htopics.
Qed.

Lemma rename_message_wf id local server t ms :
  map_Forall (fun mid m => msg_id m = mid /\ msg_conversation_id m = id) ms ->
  map_Forall (fun mid m => msg_id m = mid /\ msg_conversation_id m = id) (rename_message local server t ms).
Proof.
  intros Hms. unfold rename_message. destruct (ms !! local) as [m|] eqn:Hm; [|done].
  apply map_Forall_insert_2; [|by apply map_Forall_delete]. fields. split; [done|]. by apply Hms in Hm as [].
Qed.

Lemma apply_messages_deleted_wf id ids s : state_wf s -> state_wf (apply_messages_deleted id ids s).
Proof.
  unfold apply_messages_deleted. revert s. induction ids as [|mid ids IH]; intros s Hwf; simpl; [done|].
  apply IH. by apply with_message_wf.
Qed.

Lemma apply_event_wf s e : state_wf s -> event_ok s e -> state_wf (apply_event e s).
Proof.
  intros Hwf Hok. destruct e; simpl in *; try (by apply with_conversation_wf); try (by apply with_message_wf).
  - (* ActorUpserted *) destruct Hwf. rest_wf.
    + by apply map_Forall_insert_2.
    + grown.
    + grown.
    + grown.
  - (* PresenceUpdated *) destruct Hwf. rest_wf.
    + apply map_Forall_alter; [|done]. by intros a _ [? ?].
    + grown.
    + grown.
    + grown.
  - (* ConversationUpserted *) destruct Hwf. rest_wf.
    + by apply map_Forall_insert_2.
    + grown.
    + grown.
  - (* ConversationParticipantRemoved *)
    apply (with_conversation_wf conversation_id (fun c =>
      c ⟪ conv_participants ::= filter (fun p => participant_actor_id p <> actor_id) ⟫)) in Hwf; [|done].
    unfold apply_participant_removed. destruct Hwf. rest_wf.
  - (* ConversationMarkedUnread *) apply with_conversation_wf; [done|]. destruct Hwf. rest_wf.
  - (* DraftChanged *) unfold apply_draft_changed. case_match; destruct Hwf; rest_wf.
  - (* FolderUpserted *) destruct Hwf. rest_wf.
  - (* FolderDeleted *) unfold apply_folder_deleted. destruct Hwf. rest_wf.
    + intros k c. rewrite lookup_fmap_Some. intros (c0 & Hc & Hc0). apply sw_conversations0 in Hc0. by subst c.
    + grown.
    + grown.
  - (* MessageQueued *) by apply apply_message_queued_wf.
  - (* MessageAcknowledged *) apply with_conversation_wf; [by intros c; case_match|]. destruct Hwf. rest_wf.
    apply map_Forall_alter; [|done]. intros ms _ [? ?]. split; [done|]. by apply rename_message_wf.
  - (* MessagesDeleted *) by apply apply_messages_deleted_wf.
  - (* ConversationRead *) apply with_conversation_wf; [done|]. destruct Hwf. rest_wf.
  - (* TopicReadChanged *) destruct Hwf. rest_wf.
  - (* TopicDraftChanged *) unfold apply_topic_draft_changed. case_match; destruct Hwf; rest_wf.
  - (* MessagePinned *) apply with_conversation_wf; [done|]. by apply with_message_wf.
  - (* PollVoteChanged *) apply with_message_wf; [done|]. destruct Hwf. rest_wf.
  - (* InvoiceCreated *) destruct Hwf. rest_wf; [by apply map_Forall_insert_2|].
    grown.
  - (* OrderUpserted *) destruct Hwf. rest_wf. by apply map_Forall_insert_2.
  - (* WalletChanged *) destruct Hwf. rest_wf.
  - (* StoryChanged *) destruct Hwf. rest_wf. by apply map_Forall_insert_2.
  - (* StoryDeleted *) destruct Hwf. rest_wf. by apply map_Forall_delete.
  - (* CommunityChanged *) destruct Hwf. rest_wf. by apply map_Forall_insert_2.
  - (* BotRegistryChanged *) destruct Hwf. rest_wf.
  - (* MiniAppInstalled *) destruct Hwf. rest_wf; [by apply map_Forall_insert_2|..].
    + grown.
    + grown.
  - (* MiniAppGrantUpdated *) destruct Hwf. rest_wf. by apply map_Forall_insert_2.
  - (* MiniAppOpened *) destruct Hwf. rest_wf. by apply map_Forall_insert_2.
  - (* MiniAppResponded *) done.
Qed.

Lemma apply_events_wf events s : state_wf s -> events_ok s events -> state_wf (apply_events events s).
Proof.
  revert s. induction events as [|e rest IH]; intros s Hwf; simpl; [done|].
  intros [He Hrest]. apply IH; [by apply apply_event_wf|done].
Qed.

(** ** Every decision is acceptable *)

Section decisions.
Context `{U : UnicodeCase, D : StrDebug}.
Variable s : MessagingState.
Hypothesis Hwf : state_wf s.

Lemma require_actor_ok id a : require_actor s id = Ok a -> st_actors s !! id = Some a.
Proof. apply ok_or_ok. Qed.
Lemma require_conversation_ok id c : require_conversation s id = Ok c -> st_conversations s !! id = Some c.
Proof. apply ok_or_ok. Qed.
Lemma require_community_ok id c : require_community s id = Ok c -> st_communities s !! id = Some c.
Proof. apply ok_or_ok. Qed.

Lemma known_community id c : require_community s id = Ok c ->
  cs_conversation_id c = id /\ community_wf c /\ is_Some (st_conversations s !! id).
Proof. intros H%require_community_ok. by apply (sw_communities _ Hwf). Qed.

(** A decision whose single event replaces a community that already exists. *)
Lemma community_event_ok id c c' : require_community s id = Ok c ->
  cs_conversation_id c' = cs_conversation_id c -> (community_wf c -> community_wf c') ->
  event_ok s (CommunityChanged c').
Proof. intros (<- & Hc & Hs)%known_community Hid Hc'. simpl. rewrite Hid. auto. Qed.

Lemma participant_event_ok s' id c a : events_ok s' (participant_event s id c a).
Proof. unfold participant_event. case_match; simpl; [|done]. by case_match. Qed.

(** The handlers whose events carry obligations. *)

Lemma upsert_conversation_ok c evs : decide_upsert_conversation s c = Ok evs -> events_ok s evs.
Proof.
  unfold decide_upsert_conversation. intros H. oks. subst evs. simpl.
  split; [|done]. by destruct (conversation_id_is_valid _).
Qed.

Lemma set_participant_ok id p evs : decide_set_conversation_participant s id p = Ok evs -> events_ok s evs.
Proof.
  unfold decide_set_conversation_participant. intros H. oks.
  destruct (is_group_or_channel _); oks; subst evs; cbn [events_ok]; [|done].
  split; [|split; done]. eapply community_event_ok; [done|done|].
  intros [[Hmem Hsub Hinv Hreq Htop] ?]. split; [split; fields; try done|done].
  apply (keyed_insert cm_actor_id); [done|]. fields.
  destruct (cs_members _ !! _) as [m|] eqn:E; simpl; [by apply Hmem|done].
Qed.

Lemma remove_participant_ok id a evs : decide_remove_conversation_participant s id a = Ok evs -> events_ok s evs.
Proof.
  unfold decide_remove_conversation_participant. intros H. oks.
  destruct (is_group_or_channel _); oks; subst evs; cbn [events_ok]; [|done].
  split; [|split; done]. eapply community_event_ok; [done|done|].
  intros [[Hmem Hsub Hinv Hreq Htop] ?]. split; [split; fields; try done|done].
  - intros k m Hk. apply lookup_alter_Some in Hk as [(<- & m0 & Hm0 & ->)|[_ Hk]]; [fields|]; by apply Hmem.
  - by apply (keyed_delete sub_actor_id).
Qed.

Lemma queue_message_ok id local client sender content reply thread created scheduled silent protected evs :
  decide_queue_message s id local client sender content reply thread created scheduled silent protected = Ok evs ->
  events_ok s evs.
Proof.
  unfold decide_queue_message. intros H. ok_step. apply require_conversation_ok in Hok. oks. subst evs. simpl.
  split; [by eexists|done].
Qed.

Lemma forward_message_ok source m dest local client sender created evs :
  decide_forward_message s source m dest local client sender created = Ok evs -> events_ok s evs.
Proof.
  unfold decide_forward_message. intros H. ok_step. apply require_conversation_ok in Hok. oks. subst evs. simpl.
  split; [by eexists|done].
Qed.

Lemma vote_poll_ok id m a opts evs : decide_vote_poll s id m a opts = Ok evs -> events_ok s evs.
Proof. unfold decide_vote_poll. intros H. oks. destruct (msg_content _); oks; try done. by subst evs. Qed.

Lemma create_invoice_ok i evs : decide_create_invoice s i = Ok evs -> events_ok s evs.
Proof.
  unfold decide_create_invoice. intros H. ok_step. ok_step. apply require_actor_ok in Hok0. oks. subst evs. simpl.
  split_and!; [done|by eexists|done].
Qed.

Lemma upsert_order_ok o evs : decide_upsert_order s o = Ok evs -> events_ok s evs.
Proof.
  unfold decide_upsert_order. intros H. do 2 ok_step. apply require_actor_ok in Hok0. oks. subst evs. simpl.
  split_and!; [by apply contains_key_spec|by eexists|done].
Qed.

Lemma checkout_invoice_ok invoice_id oid buyer customer now evs :
  room (st_wallet s) -> decide_checkout_invoice s invoice_id oid buyer customer now = Ok evs -> events_ok s evs.
Proof.
  unfold decide_checkout_invoice. intros Hroom H. do 2 ok_step. apply require_actor_ok in Hok0. oks.
  destruct (sw_invoices _ Hwf _ _ Hok) as (Hid & Hvalid & Hseller).
  destruct (st_orders s !! oid) as [o|] eqn:Ho.
  - case_match; oks. subst evs. simpl. destruct (sw_orders _ Hwf _ _ Ho) as (_ & ? & ?). done.
  - unfold checkout_payment in H. okps. subst evs. simpl. wallets.
    match goal with H : transfer _ _ _ _ _ _ _ = _ |- _ => apply transfer_step, ledger_step_wf in H as [Hw _] end.
    + rewrite Hid. split_and!; [done|by eexists|by eexists|done].
    + do 2 (eapply reshapes_wf; [|eassumption]). by apply sw_wallet.
    + do 2 (eapply reshapes_room; [eassumption|]). done.
Qed.

Lemma refund_order_ok oid seller r now evs :
  room (st_wallet s) -> decide_refund_order s oid seller r now = Ok evs -> events_ok s evs.
Proof.
  unfold decide_refund_order. intros Hroom H. oks.
  destruct (sw_orders _ Hwf _ _ Hok) as (_ & Hi & Hb).
  destruct (eqb (order_status a) Refunded); oks; [by subst evs|].
  okps. subst evs. simpl. wallets.
  match goal with H : refund_transfer _ _ _ _ = _ |- _ => apply refund_step, ledger_step_wf in H as [Hw _] end.
  - done.
  - apply (sw_wallet _ Hwf).
  - done.
Qed.

Lemma credit_settlement_ok r owner m reference now evs :
  room (st_wallet s) -> decide_credit_wallet_settlement s r owner m reference now = Ok evs -> events_ok s evs.
Proof.
  unfold decide_credit_wallet_settlement. intros Hroom H. okps. subst evs. simpl. wallets.
  match goal with H : credit _ _ _ _ _ _ = _ |- _ => apply credit_step, ledger_step_wf in H as [Hw _] end.
  - done.
  - eapply reshapes_wf; [|eassumption]. by apply sw_wallet.
  - by eapply reshapes_room.
Qed.

Lemma publish_story_ok a t evs : decide_publish_story s a t = Ok evs -> events_ok s evs.
Proof.
  unfold decide_publish_story. intros H. ok_step. apply require_actor_ok in Hok. oks. subst evs. simpl.
  unfold eqb in *. case_bool_decide; [|done]. subst a. split_and!; [lia|by eexists|done].
Qed.

Lemma same_story_ok t t' id : st_stories s !! id = Some t -> same_story t t' ->
  story_created_at_ms t' = story_created_at_ms t -> event_ok s (StoryChanged t').
Proof.
  intros Ht (_ & Ho & _ & He & _) Hc. simpl. rewrite Ho, He, Hc. by apply (sw_stories _ Hwf _ _ Ht).
Qed.

Lemma view_story_ok a id now evs : decide_view_story s a id now = Ok evs -> events_ok s evs.
Proof.
  unfold decide_view_story, require_story. intros H. oks. subst evs. simpl. split; [|done].
  eapply same_story_ok; [done|by eapply record_view_ok|].
  unfold record_view in Hok2. case_match; simplify_eq. done.
Qed.

Lemma react_story_ok a id r evs : decide_react_story s a id r = Ok evs -> events_ok s evs.
Proof.
  unfold decide_react_story, require_story. intros H. oks. subst evs. simpl. split; [|done].
  eapply same_story_ok; [done|by eapply react_ok|].
  unfold react in Hok1. oks. by subst.
Qed.


(** *** Communities *)

Lemma collect_map_forall {K V : Type} `{Countable K} (P : K -> V -> Prop) (l : list (K * V)) :
  (forall k v, (k, v) ∈ l -> P k v) -> map_Forall P (collect_map l).
Proof.
  unfold collect_map. intros Hl. assert (map_Forall P (∅ : gmap K V)) as Hm by apply map_Forall_empty.
  revert Hm. generalize (∅ : gmap K V) as m. induction l as [|[k v] l IH]; intros m Hm; simpl; [done|].
  apply IH; [intros; apply Hl; by right|]. apply map_Forall_insert_2; [|done]. apply Hl. by left.
Qed.

Lemma seed_community_wf c conv : community_wf (seed_community c conv).
Proof.
  split; [split|]; unfold seed_community; fields; try (intros *; by rewrite lookup_empty); [|simpl; lia].
  apply (collect_map_forall (fun id m => cm_actor_id m = id)).
  intros k m. rewrite list_elem_of_fmap. by intros (p & [= -> ->] & _).
Qed.

Lemma merge_community_wf c existing : community_wf existing -> community_wf (merge_community c existing).
Proof. intros [[] Hlog]. split; [split|]; done. Qed.

Lemma update_community_ok a c evs : decide_update_community s a c = Ok evs -> events_ok s evs.
Proof.
  unfold decide_update_community. intros H. ok_step. apply require_conversation_ok in Hok. oks.
  destruct (st_communities s !! cs_conversation_id c) as [existing|] eqn:Hc; oks; subst evs; cbn [events_ok event_ok];
    (split; [split|done]).
  - apply merge_community_wf. by apply (sw_communities _ Hwf _ _ Hc).
  - by eexists.
  - apply seed_community_wf.
  - by eexists.
Qed.

Lemma subscribe_channel_conversation c a t c' :
  subscribe_channel c a t = Ok c' -> cs_conversation_id c' = cs_conversation_id c.
Proof. unfold subscribe_channel. intros H. oks. subst. by case_match. Qed.

Lemma unsubscribe_channel_conversation c a c' :
  unsubscribe_channel c a = Ok c' -> cs_conversation_id c' = cs_conversation_id c.
Proof. unfold unsubscribe_channel. intros H. oks. by subst. Qed.

Lemma subscribe_ok a id t evs : decide_subscribe_channel s a id t = Ok evs -> events_ok s evs.
Proof.
  unfold decide_subscribe_channel. intros H. oks. subst evs. cbn [events_ok]. split; [|done].
  eapply community_event_ok; [done| |]; case_match; rewrite ?append_community_audit_conversation;
    eauto using subscribe_channel_conversation, subscribe_channel_wf, append_community_audit_wf.
Qed.

Lemma unsubscribe_ok a id t evs : decide_unsubscribe_channel s a id t = Ok evs -> events_ok s evs.
Proof.
  unfold decide_unsubscribe_channel. intros H. oks. subst evs. cbn [events_ok]. split; [|done].
  eapply community_event_ok; [done| |]; case_match; rewrite ?append_community_audit_conversation;
    eauto using unsubscribe_channel_conversation, unsubscribe_channel_wf, append_community_audit_wf.
Qed.

Lemma slow_mode_ok a id secs t evs : decide_set_slow_mode s a id secs t = Ok evs -> events_ok s evs.
Proof.
  unfold decide_set_slow_mode. intros H. oks. subst evs. cbn [events_ok]. split; [|done].
  eapply community_event_ok; [done|done|]. intros [[] ?]. apply append_community_audit_wf. by split; [split|].
Qed.

Lemma drop_subscription_wf gone a c : community_wf c -> community_wf (drop_subscription gone a c).
Proof.
  intros [[] Hlog]. unfold drop_subscription. destruct gone; [|by split; [split|]].
  split; [split; fields|done]; keyed.
Qed.

Lemma drop_subscription_conversation gone a c :
  cs_conversation_id (drop_subscription gone a c) = cs_conversation_id c.
Proof. by destruct gone. Qed.

Lemma moderate_member_ok a id m r t evs : decide_moderate_member s a id m r t = Ok evs -> events_ok s evs.
Proof.
  unfold decide_moderate_member. intros H. oks. subst evs. cbn [events_ok]. split; [|apply participant_event_ok].
  eapply community_event_ok; [done| |].
  - by rewrite append_community_audit_conversation, drop_subscription_conversation.
  - intros. by apply append_community_audit_wf, drop_subscription_wf, upsert_member_wf.
Qed.

Lemma set_member_ok a id m evs : decide_set_community_member s a id m = Ok evs -> events_ok s evs.
Proof.
  unfold decide_set_community_member. intros H. oks. subst evs. cbn [events_ok]. split; [|apply participant_event_ok].
  eapply community_event_ok; [done| |].
  - by rewrite append_community_audit_conversation, drop_subscription_conversation.
  - intros. by apply append_community_audit_wf, drop_subscription_wf, upsert_member_wf.
Qed.

Lemma create_invite_ok a i evs : decide_create_invite_link s a i = Ok evs -> events_ok s evs.
Proof.
  unfold decide_create_invite_link. intros H. oks. subst evs. cbn [events_ok]. split; [|done].
  eapply community_event_ok; [done|done|]. intros [[] ?]. apply append_community_audit_wf.
  split; [split; fields|done]; keyed.
Qed.

Lemma revoke_invite_conversation c i c' :
  revoke_invite c i = Ok c' -> cs_conversation_id c' = cs_conversation_id c.
Proof. unfold revoke_invite. intros H. oks. by subst. Qed.

Lemma revoke_invite_link_ok a id i t evs : decide_revoke_invite_link s a id i t = Ok evs -> events_ok s evs.
Proof.
  unfold decide_revoke_invite_link. intros H. oks. subst evs. cbn [events_ok]. split; [|done].
  eapply community_event_ok; [done| |]; rewrite ?append_community_audit_conversation;
    eauto using revoke_invite_conversation, revoke_invite_wf, append_community_audit_wf.
Qed.

Lemma request_join_ok a r evs : decide_request_join s a r = Ok evs -> events_ok s evs.
Proof.
  unfold decide_request_join. intros H. oks. subst evs. cbn [events_ok]. split; [|done].
  eapply community_event_ok; [done|done|]. intros. by apply append_community_audit_wf, request_join_wf.
Qed.

Lemma approve_join_conversation c a b t c' :
  approve_join c a b t = Ok c' -> cs_conversation_id c' = cs_conversation_id c.
Proof. unfold approve_join. intros H. oks. by subst. Qed.

Lemma respond_join_ok a id r approved t evs : decide_respond_join s a id r approved t = Ok evs -> events_ok s evs.
Proof.
  unfold decide_respond_join. intros H. oks. subst evs. cbn [events_ok]. split.
  2: { destruct (approved && _); [|done]. by destruct (cs_members _ !! _ ≫= participant_for_community_member). }
  destruct approved; oks; subst; (eapply community_event_ok; [done| |]).
  - rewrite append_community_audit_conversation. by eapply approve_join_conversation.
  - intros. by eapply append_community_audit_wf, approve_join_wf.
  - done.
  - intros [[] ?]. apply append_community_audit_wf. split; [split; fields|done]; keyed.
Qed.

Lemma upsert_topic_ok a t evs : decide_upsert_forum_topic s a t = Ok evs -> events_ok s evs.
Proof.
  unfold decide_upsert_forum_topic. intros H. oks. subst evs. cbn [events_ok]. split; [|done].
  eapply community_event_ok; [done|done|]. intros [[] ?]. apply append_community_audit_wf.
  split; [split; fields|done]; keyed.
Qed.

Lemma delete_topic_ok a id t evs : decide_delete_forum_topic s a id t = Ok evs -> events_ok s evs.
Proof.
  unfold decide_delete_forum_topic. intros H. oks. subst evs. cbn [events_ok]. split; [|done].
  eapply community_event_ok; [done|done|]. intros [[] ?]. apply append_community_audit_wf.
  split; [split; fields|done]; keyed.
Qed.

(** *** Bots and mini apps *)

Lemma register_bot_ok a p evs : decide_register_bot s a p = Ok evs -> events_ok s evs.
Proof.
  unfold decide_register_bot. intros H. oks. subst evs. simpl. split; [|done].
  eapply bot_register_wf; [|done]. apply (sw_bots _ Hwf).
Qed.

Lemma begin_bot_ok a i t evs : decide_begin_bot_invocation s a i t = Ok evs -> events_ok s evs.
Proof.
  unfold decide_begin_bot_invocation. intros H. okps. subst evs. simpl. split; [|done].
  eapply begin_execution_wf; [|done]. apply (sw_bots _ Hwf).
Qed.

Lemma finish_bot_ok a id ok t e evs : decide_finish_bot_execution s a id ok t e = Ok evs -> events_ok s evs.
Proof.
  unfold decide_finish_bot_execution. intros H. oks. subst evs. simpl. split; [|done].
  eapply finish_execution_wf; [|done]. apply (sw_bots _ Hwf).
Qed.

Lemma grant_ok g evs : decide_grant_mini_app s g = Ok evs -> events_ok s evs.
Proof.
  unfold decide_grant_mini_app. intros H. oks. subst evs. simpl. by rewrite <- contains_key_spec.
Qed.

Lemma open_ok x evs : decide_open_mini_app s x = Ok evs -> events_ok s evs.
Proof.
  unfold decide_open_mini_app. intros H. oks. case_match; oks. subst evs. simpl. by rewrite <- contains_key_spec.
Qed.

(** Every accepted command produces acceptable events. *)
Lemma decide_command_ok command evs :
  room (st_wallet s) -> decide_command s command = Ok evs -> events_ok s evs.
Proof.
  intros Hroom. destruct command; simpl; try (by eauto using upsert_conversation_ok, set_participant_ok,
    remove_participant_ok, queue_message_ok, forward_message_ok, vote_poll_ok, create_invoice_ok, upsert_order_ok,
    checkout_invoice_ok, refund_order_ok, credit_settlement_ok, publish_story_ok, view_story_ok, react_story_ok,
    update_community_ok, subscribe_ok, unsubscribe_ok, slow_mode_ok, moderate_member_ok, set_member_ok,
    create_invite_ok, revoke_invite_link_ok, request_join_ok, respond_join_ok, upsert_topic_ok, delete_topic_ok,
    register_bot_ok, begin_bot_ok, finish_bot_ok, grant_ok, open_ok).
  - (* UpsertActor *) unfold decide_upsert_actor. intros H. oks. subst evs. simpl.
    by destruct (actor_id_is_valid _).
  - (* SetPresence *) unfold decide_set_presence. intros H. oks. by subst evs.
  - unfold decide_update_conversation_info. intros H. oks. by subst evs.
  - unfold decide_archive_conversation. intros H. oks. by subst evs.
  - unfold decide_pin_conversation. intros H. oks. by subst evs.
  - unfold decide_set_marked_unread. intros H. oks. by subst evs.
  - unfold decide_set_draft. intros H. oks. by subst evs.
  - unfold decide_set_conversation_notifications. intros H. oks. by subst evs.
  - unfold decide_set_message_retention. intros H. oks. by subst evs.
  - intros H. oks. by subst evs.
  - intros H. oks. by subst evs.
  - unfold decide_acknowledge_message. intros H. oks. by subst evs.
  - unfold decide_set_delivery_state. intros H. oks. by subst evs.
  - unfold decide_edit_message. intros H. oks. by subst evs.
  - unfold decide_delete_messages. intros H. oks. by subst evs.
  - unfold decide_mark_read. intros H. oks. by subst evs.
  - unfold decide_mark_topic_read. intros H. oks. by subst evs.
  - unfold decide_set_topic_draft. intros H. oks. by subst evs.
  - unfold decide_set_reaction. intros H. oks. by subst evs.
  - unfold decide_pin_message. intros H. oks. by subst evs.
  - unfold decide_delete_story. intros H. oks. by subst evs.
  - intros H. oks. by subst evs.
  - unfold decide_mini_app_call. intros H. oks. by subst evs.
Qed.
End decisions.
