(* ===== verification/EngineMoney.v ===== *)
(** * Money in the engine: what commands do to the ledger *)

From S2P Require Import Prelude Text Maps Conversation Message Payment Wallet Apps Community EngineTypes EngineCore EngineConversation EngineMessage EngineCommerce EngineCommunity EngineApp EngineApply Engine EngineInvariant.

(** ** Only the three wallet commands touch the ledger *)

Lemma apply_event_wallet e s :
  st_wallet (apply_event e s) = match e with WalletChanged w _ => w | _ => st_wallet s end.
Proof.
  destruct e; try done; simpl.
  - unfold apply_draft_changed. by case_match.
  - unfold apply_message_queued, touch_topic. by case_match.
  - unfold apply_messages_deleted. generalize s. induction message_ids as [|id ids IH]; intros s0; simpl; [done|].
    by rewrite IH.
  - unfold apply_topic_draft_changed. by case_match.
Qed.

Definition touches_wallet (e : Event) : bool := match e with WalletChanged _ _ => true | _ => false end.

Lemma apply_events_wallet evs s :
  forallb (fun e => negb (touches_wallet e)) evs = true -> st_wallet (apply_events evs s) = st_wallet s.
Proof.
  revert s. induction evs as [|e evs IH]; intros s; simpl; [done|]. intros [He H]%andb_true_iff.
  change (st_wallet (apply_events evs (apply_event e s)) = st_wallet s).
  rewrite IH by done. rewrite apply_event_wallet. by destruct e.
Qed.

Section money.
Context `{U : UnicodeCase, D : StrDebug}.

Definition is_wallet_command (c : Command) : bool :=
  match c with
  | CheckoutInvoice _ _ _ _ _ | RefundOrder _ _ _ _ | CreditWalletSettlement _ _ _ _ _ => true
  | _ => false
  end.

Lemma other_commands_wallet s c evs :
  is_wallet_command c = false -> decide_command s c = Ok evs ->
  forallb (fun e => negb (touches_wallet e)) evs = true.
Proof.
  intros Hc Hd%decide_event_of. rewrite forallb_forall in *. intros e He. specialize (Hd e He).
  destruct c; try discriminate Hc; by destruct e.
Qed.

(** The ledger operation a command performs. *)
Definition wallet_op (s : MessagingState) (c : Command) (op : ledger_op) : Prop :=
  match c with
  | CheckoutInvoice invoice_id oid buyer _ now => exists i amount,
      st_invoices s !! invoice_id = Some i /\ checked_total_minor i = Some amount
      /\ op = OpTransfer (checkout_request oid) (wallet_account_id buyer) (wallet_account_id (inv_seller_id i))
                (money_new (inv_currency i) amount) (Some (inv_id i)) now
  | RefundOrder oid _ r now => exists o k,
      st_orders s !! oid = Some o /\ order_provider_payment_id o = Some k /\ op = OpRefund r k now
  | CreditWalletSettlement r owner m reference now =>
      op = OpCredit r (wallet_account_id owner) m reference now
  | _ => False
  end.

Definition is_settlement (c : Command) : bool :=
  match c with CreditWalletSettlement _ _ _ _ _ => true | _ => false end.

Lemma execute_wallet s c s' evs :
  execute s c = (s', Ok evs) ->
  (st_wallet s' = st_wallet s /\ is_settlement c = false)
  \/ exists w op e, reshapes (st_wallet s) w /\ wallet_op s c op /\ exec_op op w = (st_wallet s', Ok (Some e)).
Proof.
  unfold execute. destruct (decide_command s c) as [evs'|] eqn:H; [|done]. intros [= <- <-].
  destruct (is_wallet_command c) eqn:Hc.
  2: { left. split; [by apply apply_events_wallet, (other_commands_wallet s c)|by destruct c]. }
  destruct c; try discriminate Hc; simpl in H.
  - unfold decide_checkout_invoice in H. oks. destruct (st_orders s !! order_id) as [o|].
    { left. case_match; oks. by subst. }
    unfold checkout_payment in H. okps. subst. wallets. right.
    match goal with H : transfer ?w _ _ _ _ _ _ = _ |- _ => exists w; rename H into Ht end.
    do 2 eexists. split_and!; [by eapply reshapes_trans | eexists _, _; split_and!; [eassumption..|reflexivity] | simpl; by rewrite Ht].
  - unfold decide_refund_order in H. oks. destruct (eqb (order_status _) Refunded).
    { left. oks. by subst. }
    okps. subst. wallets. right.
    match goal with H : refund_transfer ?w _ _ _ = _ |- _ => exists w; rename H into Ht end.
    do 2 eexists. split_and!; [apply reshapes_refl | eexists _, _; split_and!; [eassumption..|reflexivity] | simpl; by rewrite Ht].
  - unfold decide_credit_wallet_settlement in H. okps. subst. wallets. right.
    match goal with H : credit ?w _ _ _ _ _ = _ |- _ => exists w; rename H into Ht end.
    do 2 eexists. split_and!; [done | done | simpl; by rewrite Ht].
Qed.

(** ** Coherence and conservation *)

Definition entries_count (s : MessagingState) : Z := Z.of_nat (size (wl_entries (st_wallet s))).

Lemma execute_wf s c : state_wf s -> entries_count s < u64_max ->
  state_wf (fst (execute s c)) /\ entries_count s <= entries_count (fst (execute s c)) <= entries_count s + 1.
Proof.
  intros Hwf Hroom. destruct (execute s c) as [s' [evs|err]] eqn:H; simpl.
  - split.
    + unfold execute in H. destruct (decide_command s c) as [evs'|] eqn:Hd; [|done]. injection H as <- <-.
      apply apply_events_wf; [done|]. by eapply decide_command_ok.
    + unfold entries_count. apply execute_wallet in H as [[-> _]|(w & op & e & Hr & _ & Hop)]; [lia|].
      rewrite <- (rs_entries _ _ Hr).
      assert (ledger_wf w) as Hw by (eapply reshapes_wf; [apply Hwf|done]).
      apply exec_op_cases in Hop as [(_ & [=] & _)|[(? & ? & _ & _ & _ & ->)|(? & ? & _ & _ & _ & _ & Hp)]];
        [lia | |done].
      apply posts_size in Hp; [lia|done|]. unfold room. by rewrite (rs_entries _ _ Hr).
  - unfold execute in H. destruct (decide_command s c); simplify_eq. split; [done|lia].
Qed.

Lemma run_wf commands s : state_wf s -> entries_count s + Z.of_nat (length commands) <= u64_max ->
  state_wf (run commands s).
Proof.
  revert s. induction commands as [|c commands IH]; intros s Hwf Hn; [done|].
  cbn [length] in Hn. destruct (execute_wf s c Hwf) as [Hwf' Hc]; [lia|].
  apply IH; [done|lia].
Qed.

(** C1: Whatever commands the engine is given, refused ones included, its state
    stays coherent: every table is keyed by the identifiers it stores; messages,
    orders, stories, grants and sessions refer to conversations, invoices, actors
    and apps that exist; stored invoices are valid; the audit logs are bounded;
    and the ledger balances its journal. *)
Theorem engine_states_coherent (commands : list Command) :
  Z.of_nat (length commands) <= u64_max -> state_wf (run commands empty_state).
Proof. intros Hn. apply run_wf; [apply state_wf_empty|]. change (entries_count empty_state) with 0. lia. Qed.

(** C2: The engine creates no money.  In a coherent state, a command changes the
    money in circulation only if it is a wallet settlement whose request was not
    settled before, by exactly the settled amount in its currency; checkouts,
    refunds, retries and every other command conserve the supply of every
    currency. *)
Theorem engine_conserves_money (s s' : MessagingState) (c : Command) (evs : list Event) (currency : string) :
  state_wf s -> execute s c = (s', Ok evs) ->
  supply (st_wallet s') currency = supply (st_wallet s) currency +
    match c with
    | CreditWalletSettlement r _ m _ _ =>
        if entry_for_request (st_wallet s) r then 0
        else if eqb (normalize_currency (money_currency m)) currency then money_amount_minor m else 0
    | _ => 0
    end.
Proof.
  intros Hwf H. destruct (execute_wallet _ _ _ _ H) as [[Heq Hc]|(w & op & e & Hr & Hop & Hex)].
  - rewrite Heq. destruct c; try lia. discriminate Hc.
  - assert (ledger_wf w) as Hw by (eapply reshapes_wf; [apply Hwf|done]).
    assert (forall r, entry_for_request w r = entry_for_request (st_wallet s) r) as Hreq.
    { intros r. unfold entry_for_request. by rewrite (rs_entries _ _ Hr), (rs_requests _ _ Hr). }
    rewrite (exec_op_supply op w _ _ currency Hw Hex), (reshapes_supply (st_wallet s) w) by done.
    destruct c; simpl in Hop; try done; [naive_solver..|]. subst op. by rewrite Hreq.
Qed.
End money.
