(* ===== verification/EngineDemo.v ===== *)
(** * A small concrete engine state, for the witnesses *)

From S2P Require Import Prelude Text Maps Conversation Message Payment Wallet Apps Community EngineTypes EngineCore EngineConversation EngineMessage EngineCommerce EngineCommunity EngineApp EngineApply Engine EngineInvariant EngineMoney.

#[export] Existing Instance ascii_case.
#[export] Instance bracket_debug : StrDebug := fun s => "<" +:+ s +:+ ">".

Definition ann : ActorId := MkActorId "ann".
Definition ben : ActorId := MkActorId "ben".
Definition cam : ActorId := MkActorId "cam".

Definition party (id : ActorId) (role : ParticipantRole) : Participant := {|
  participant_actor_id := id; participant_role := role; participant_joined_at_ms := 0;
  participant_muted_until_ms := None |}.

(** A conversation of [ann] (its owner) and [ben]. *)
Definition room_of (id : string) (kind : ConversationKind) : Conversation :=
  (conversation_direct id "Room" [party ann RoleOwner; party ben RoleMember] 0)
    ⟪ conv_kind := kind ⟫ ⟪ conv_owner_id := Some ann ⟫.

Definition lobby : ConversationId := MkConversationId "room".
Definition vault : ConversationId := MkConversationId "vault".

Definition bill : Invoice := {|
  inv_id := "bill"; inv_conversation_id := lobby; inv_seller_id := ben; inv_title := "Lamp";
  inv_description := ""; inv_kind := OneTime; inv_currency := "USD";
  inv_prices := [{| line_label := "lamp"; line_amount := {| money_currency := "USD"; money_amount_minor := 250 |} |};
                 {| line_label := "post"; line_amount := {| money_currency := "USD"; money_amount_minor := 50 |} |}];
  inv_payload := ""; inv_provider_id := "wallet"; inv_start_parameter := None;
  inv_request_name := false; inv_request_email := false; inv_request_phone := false;
  inv_request_shipping_address := false; inv_flexible_shipping := false; inv_created_at_ms := 0;
  inv_expires_at_ms := None |}.

Definition demo_commands : list Command :=
  [ UpsertActor (actor_human "ann" "Ann"); UpsertActor (actor_human "ben" "Ben");
    UpsertActor (actor_human "cam" "Cam");
    UpsertConversation (room_of "room" Group); UpsertConversation (room_of "vault" Secret);
    UpdateCommunity ann (community_new lobby);
    CreateInvoice bill;
    CreditWalletSettlement "topup" ann {| money_currency := "usd"; money_amount_minor := 500 |} None 1 ].

Definition demo : MessagingState := run demo_commands empty_state.

Lemma demo_wf : state_wf demo.
Proof.
  apply run_wf; [apply state_wf_empty|]. change (entries_count empty_state) with 0.
  unfold u64_max. simpl. lia.
Qed.

Lemma execute_ok s c : is_ok (snd (execute s c)) = true ->
  exists evs, execute s c = (fst (execute s c), Ok evs).
Proof. destruct (execute s c) as [s' [evs|]]; [|done]. by exists evs. Qed.

Lemma engine_states_coherent_witness : state_wf demo.
Proof. apply engine_states_coherent. vm_compute. discriminate. Defined.

Lemma engine_conserves_money_witness :
  supply (st_wallet (fst (execute demo (CreditWalletSettlement "more" ben
    {| money_currency := "USD"; money_amount_minor := 9 |} None 2)))) "USD" = supply (st_wallet demo) "USD" + 9.
Proof.
  destruct (execute_ok demo (CreditWalletSettlement "more" ben
    {| money_currency := "USD"; money_amount_minor := 9 |} None 2)) as [evs Hex]; [vm_compute; reflexivity|].
  rewrite (engine_conserves_money demo _ _ evs "USD" demo_wf Hex). vm_compute. reflexivity.
Defined.
