(* ===== verification/EngineOrders.v ===== *)
(** * Checkout and refund of orders: who pays whom *)

From S2P Require Import Prelude Text Maps Conversation Message Payment Wallet Apps Community EngineTypes EngineCore EngineConversation EngineMessage EngineCommerce EngineCommunity EngineApp EngineApply Engine EngineInvariant EngineMoney EngineDemo.

Lemma reshapes_balance w w' id c : reshapes w w' -> balance w' id c = balance w id c.
Proof.
  intros [_ _ Ha]. specialize (Ha id). unfold balance, held.
  destruct (wl_accounts w !! id), (wl_accounts w' !! id); simpl; try done; destruct Ha as [_ ->]; [done|].
  by rewrite lookup_empty.
Qed.

Lemma reshapes_request w w' r : reshapes w w' -> entry_for_request w' r = entry_for_request w r.
Proof. intros [He Hq _]. unfold entry_for_request. by rewrite He, Hq. Qed.

(** What a transfer of [amount] in [currency] from [x] to [y] adds to [id]. *)
Definition moved (x y : WalletAccountId) (currency : string) (amount : Z) (id : WalletAccountId) (c : string) : Z :=
  if decide (currency = c) then (if decide (y = id) then amount else 0) - (if decide (x = id) then amount else 0)
  else 0.

Section orders.
Context `{U : UnicodeCase, D : StrDebug}.

(** The currency a checkout of the invoice is paid in. *)
Definition paid_currency (i : Invoice) : string := normalize_currency (str_to_uppercase (inv_currency i)).

(** What a first checkout does to the state. *)
Record checked_out (s : MessagingState) (i : Invoice) (oid : string) (buyer : ActorId)
    (customer : option CustomerInfo) (now : Z) (s' : MessagingState) (total : Z) (e : LedgerEntry) : Prop := {
  co_total : checked_total_minor i = Some total;
  co_order : st_orders s' = <[oid := paid_order i oid buyer total customer e now]> (st_orders s);
  co_invoices : st_invoices s' = st_invoices s;
  co_actors : st_actors s' = st_actors s;
  co_wallet : exists w, reshapes (st_wallet s) w /\ posts w (st_wallet s') e;
  co_entry : wl_entries (st_wallet s') !! le_id e = Some e;
  co_request : le_request_id e = checkout_request oid;
  co_amount : le_amount e = {| money_currency := paid_currency i; money_amount_minor := total |};
  co_parties : le_kind e = Transfer /\ le_from_account_id e = Some (wallet_account_id buyer)
    /\ le_to_account_id e = Some (wallet_account_id (inv_seller_id i));
  co_solvent : 0 < total <= balance (st_wallet s) (wallet_account_id buyer) (paid_currency i);
}.

Lemma checkout_checked_out s s' evs invoice_id oid buyer customer now i :
  state_wf s -> st_invoices s !! invoice_id = Some i -> st_orders s !! oid = None ->
  entry_for_request (st_wallet s) (checkout_request oid) = None ->
  execute s (CheckoutInvoice invoice_id oid buyer customer now) = (s', Ok evs) ->
  exists total e, checked_out s i oid buyer customer now s' total e.
Proof.
  intros Hwf Hi Ho Hr. unfold execute. simpl.
  destruct (decide_checkout_invoice _ _ _ _ _ _) as [evs'|] eqn:Hd; [|done]. intros [= <- <-].
  unfold decide_checkout_invoice, checkout_payment in Hd. rewrite Hi, Ho in Hd. okps. simplify_eq. wallets.
  match goal with
  | Ht : checked_total_minor _ = Some ?t, H : transfer ?w _ _ _ _ _ _ = (_, Ok ?e) |- _ =>
      exists t, e; rename H into Hpay;
      assert (reshapes (st_wallet s) w) as Hre by (by eapply reshapes_trans);
      assert (ledger_wf w) as Hw by (by eapply reshapes_wf; [apply Hwf|])
  end.
  rewrite <- (reshapes_request _ _ _ Hre) in Hr.
  pose proof (transfer_posting_plain _ _ _ _ _ _ _ _ _ Hw Hr Hpay) as Hp.
  apply transfer_entry in Hpay as (? & ? & ? & ? & ? & Hsol & ? & ? & ?); [|done].
  rewrite (reshapes_balance _ _ _ _ Hre) in Hsol. split; try done; by eexists.
Qed.

(** C17: A checkout pays the invoice once.  When a checkout succeeds, of an order
    the engine has not seen and whose payment identifier no ledger entry carries
    yet (a settlement under that identifier would stand for the payment), exactly
    the invoice's total moves, from the buyer's account to the seller's, who
    differ, and no other balance changes; the buyer could afford it; the order is
    stored as paid with that amount and refers to the journal entry of the
    payment; and asking again in the state it left, with any customer data and at
    any time, changes nothing and succeeds until the invoice expires. *)
Theorem checkout_pays_once (s s' : MessagingState) (evs : list Event) (invoice_id oid : string)
    (buyer : ActorId) (customer : option CustomerInfo) (now : Z) (i : Invoice) :
  state_wf s -> st_invoices s !! invoice_id = Some i -> st_orders s !! oid = None ->
  entry_for_request (st_wallet s) (checkout_request oid) = None ->
  execute s (CheckoutInvoice invoice_id oid buyer customer now) = (s', Ok evs) ->
  exists total e,
    checked_total_minor i = Some total
    /\ 0 < total <= balance (st_wallet s) (wallet_account_id buyer) (paid_currency i)
    /\ (forall id c, balance (st_wallet s') id c = balance (st_wallet s) id c
          + moved (wallet_account_id buyer) (wallet_account_id (inv_seller_id i)) (paid_currency i) total id c)
    /\ st_orders s' !! oid = Some (paid_order i oid buyer total customer e now)
    /\ wl_entries (st_wallet s') !! le_id e = Some e
    /\ forall customer' later,
         fst (execute s' (CheckoutInvoice invoice_id oid buyer customer' later)) = s'
         /\ is_ok (snd (execute s' (CheckoutInvoice invoice_id oid buyer customer' later)))
            = negb (is_some_and (inv_expires_at_ms i) (fun e => e <=? later)).
Proof.
  intros Hwf Hi Ho Hr H. pose proof H as Hex.
  destruct (checkout_checked_out _ _ _ _ _ _ _ _ _ Hwf Hi Ho Hr H) as (total & e & Hco).
  exists total, e. pose proof Hco as [].
  split_and!; [done|apply co_solvent0..| | |done|].
  - intros id c. destruct co_wallet0 as (w & Hre & Hp).
    assert (ledger_wf w) as Hw by (eapply reshapes_wf; [apply Hwf|done]).
    rewrite (posts_balance w (st_wallet s') e id c), (reshapes_balance _ _ id c Hre) by done.
    rewrite entry_delta_fields, co_amount0. destruct co_parties0 as (_ & -> & ->). unfold moved.
    cbn [money_currency money_amount_minor]. repeat case_decide; first [lia | congruence].
  - rewrite co_order0. apply lookup_insert_eq.
  - intros customer' later. unfold execute in *. simpl in *. unfold decide_checkout_invoice in *.
    rewrite co_invoices0, Hi in *. simpl in *. unfold require_actor in *. rewrite co_actors0 in *.
    destruct (st_actors s !! buyer); simpl in *; [|done]. destruct (is_some_and _ (fun e => e <=? later)); [done|]. simpl in *.
    rewrite co_order0, lookup_insert_eq. simpl.
    rewrite !(proj2 (eqb_spec _ _) eq_refl). simpl. split; [|done].
    assert (st_orders s' !! oid = Some (paid_order i oid buyer total customer e now)) as Hlook
      by (rewrite co_order0; apply lookup_insert_eq).
    clear -Hlook. destruct s'. unfold field_update. simpl in *. f_equal. by apply insert_id.
Qed.

(** A refund reverses its checkout.  When the seller refunds a freshly checked
    out order under a request identifier not used before, every balance returns
    to what it was before the checkout, the order becomes refunded, and refunding
    it again, under any identifier, moves no money. *)
Theorem refund_reverses_checkout (s s1 s2 : MessagingState) (evs1 evs2 : list Event) (invoice_id oid r : string)
    (buyer seller : ActorId) (customer : option CustomerInfo) (now now' : Z) (i : Invoice) :
  state_wf s -> entries_count s + 1 < u64_max ->
  st_invoices s !! invoice_id = Some i -> st_orders s !! oid = None ->
  entry_for_request (st_wallet s) (checkout_request oid) = None ->
  execute s (CheckoutInvoice invoice_id oid buyer customer now) = (s1, Ok evs1) ->
  entry_for_request (st_wallet s1) r = None ->
  execute s1 (RefundOrder oid seller r now') = (s2, Ok evs2) ->
  (forall id c, balance (st_wallet s2) id c = balance (st_wallet s) id c)
  /\ order_status <$> st_orders s2 !! oid = Some Refunded
  /\ forall r' t, st_wallet (fst (execute s2 (RefundOrder oid seller r' t))) = st_wallet s2.
Proof.
  intros Hwf Hcount Hi Ho Hr H1 Hr1 H2.
  assert (state_wf s1) as Hwf1.
  { pose proof (execute_wf s (CheckoutInvoice invoice_id oid buyer customer now) Hwf ltac:(lia)) as [Hwf1 _].
    by rewrite H1 in Hwf1. }
  destruct (checkout_checked_out _ _ _ _ _ _ _ _ _ Hwf Hi Ho Hr H1) as (total & e & []).
  assert (st_orders s1 !! oid = Some (paid_order i oid buyer total customer e now)) as Hlook
    by (rewrite co_order0; apply lookup_insert_eq).
  unfold execute in H2. simpl in H2.
  destruct (decide_refund_order s1 oid seller r now') as [evs|] eqn:Hd; [|done]. injection H2 as <- <-.
  unfold decide_refund_order in Hd. rewrite Hlook in Hd. simpl in Hd. okps. subst evs. wallets. simplify_eq.
  match goal with H : refund_transfer _ _ _ _ = _ |- _ =>
    apply (refund_opposite _ _ _ _ _ _ e (sw_wallet _ Hwf1) Hr1 co_entry0) in H as [Hp Hopp];
      [|rewrite co_amount0; apply normalize_currency_idem] end.
  split_and!.
  - intros id c. cbn [apply_events foldl apply_event]. fields.
    destruct co_wallet0 as (w0 & Hre & Hp1).
    assert (ledger_wf w0) as Hw by (eapply reshapes_wf; [apply Hwf|done]).
    rewrite (posts_balance _ _ _ id c (sw_wallet _ Hwf1) Hp), Hopp.
    rewrite (posts_balance w0 (st_wallet s1) e id c), (reshapes_balance _ _ id c Hre) by done. lia.
  - cbn [apply_events foldl apply_event]. fields. cbn [order_id paid_order]. by rewrite lookup_insert_eq.
  - intros r' t. unfold execute at 1. simpl.
    destruct (decide_refund_order _ _ _ _ _) as [evs|] eqn:Hd'; [|done].
    unfold decide_refund_order in Hd'. cbn [apply_events foldl apply_event] in *.
    fields. cbn [order_id paid_order] in Hd'. rewrite lookup_insert_eq in Hd'. simpl in Hd'.
    oks. by subst evs.
Qed.
End orders.

(** ** Witnesses *)

Definition buy : Command := CheckoutInvoice "bill" "o1" ann None 5.
Definition bought : MessagingState := fst (execute demo buy).
Definition give_back : Command := RefundOrder "o1" ben "r1" 6.

Lemma buy_ok : is_ok (snd (execute demo buy)) = true.
Proof. vm_compute. reflexivity. Qed.
Lemma give_back_ok : is_ok (snd (execute bought give_back)) = true.
Proof. vm_compute. reflexivity. Qed.
Lemma demo_bill : st_invoices demo !! "bill" = Some bill.
Proof. vm_compute. reflexivity. Qed.

Lemma checkout_pays_once_witness :
  balance (st_wallet bought) (wallet_account_id ben) "USD" = 300
  /\ balance (st_wallet bought) (wallet_account_id ann) "USD" = 200.
Proof.
  destruct (execute_ok demo buy buy_ok) as [evs Hex].
  destruct (checkout_pays_once demo bought evs "bill" "o1" ann None 5 bill demo_wf demo_bill)
    as (total & e & Ht & _ & Hb & _); [vm_compute; reflexivity | vm_compute; reflexivity | exact Hex |].
  vm_compute in Ht. injection Ht as <-. rewrite !Hb. split; vm_compute; reflexivity.
Defined.

Lemma refund_reverses_checkout_witness :
  balance (st_wallet (fst (execute bought give_back))) (wallet_account_id ann) "USD" = 500.
Proof.
  destruct (execute_ok demo buy buy_ok) as [evs Hex].
  destruct (execute_ok bought give_back give_back_ok) as [evs' Hex'].
  destruct (refund_reverses_checkout demo bought (fst (execute bought give_back)) evs evs' "bill" "o1" "r1" ann ben None 5 6 bill demo_wf)
    as [Hb _]; [vm_compute; reflexivity | exact demo_bill | vm_compute; reflexivity | vm_compute; reflexivity
               | exact Hex | vm_compute; reflexivity | exact Hex' |].
  rewrite Hb. vm_compute. reflexivity.
Defined.

(** A request identifier that was already answered: the seller refunds under the
    identifier of the checkout itself, and the order becomes refunded although
    no money moves. *)
Lemma refund_under_used_identifier :
  let s := fst (execute bought (RefundOrder "o1" ben (checkout_request "o1") 6)) in
  order_status <$> st_orders s !! "o1" = Some Refunded
  /\ balance (st_wallet s) (wallet_account_id ann) "USD" = 200
  /\ balance (st_wallet s) (wallet_account_id ben) "USD" = 300.
Proof. vm_compute. split_and!; reflexivity. Qed.

(** A settlement under the identifier a later checkout will use: the order is
    stored as paid and the buyer pays nothing. *)
Lemma checkout_under_used_identifier :
  let s := run [CreditWalletSettlement (checkout_request "o1") cam
                  {| money_currency := "USD"; money_amount_minor := 1 |} None 4; buy] demo in
  order_status <$> st_orders s !! "o1" = Some Paid
  /\ balance (st_wallet s) (wallet_account_id ann) "USD" = 500
  /\ balance (st_wallet s) (wallet_account_id ben) "USD" = 0.
Proof. vm_compute. split_and!; reflexivity. Qed.
