(* ===== verification/EngineMessaging.v ===== *)
(** * What the engine guarantees about messages *)

From S2P Require Import Prelude Text Maps Conversation SecretChat Message Payment Wallet Apps Community EngineTypes EngineCore EngineConversation EngineMessage EngineCommerce EngineCommunity EngineApp EngineApply Engine EngineInvariant EngineMoney EngineDemo.

(** ** Looking a message up after an event *)

Lemma find_message_get s cid mid m :
  find_message s cid mid = Some m <-> exists ms, st_messages s !! cid = Some ms /\ ms !! mid = Some m.
Proof. unfold find_message. destruct (st_messages s !! cid); naive_solver. Qed.

Lemma find_with_message s c mid f c' mid' :
  find_message (with_message c mid f s) c' mid' =
    if decide (c = c' /\ mid = mid') then f <$> find_message s c mid else find_message s c' mid'.
Proof.
  unfold find_message, with_message. fields. rewrite lookup_alter.
  destruct (decide (c = c')) as [<-|Hc].
  - destruct (st_messages s !! c) as [ms|]; simpl; [|by case_decide].
    rewrite lookup_alter. repeat case_decide; naive_solver.
  - rewrite decide_False by naive_solver. done.
Qed.

Lemma find_touch_topic m s c mid : find_message (touch_topic m s) c mid = find_message s c mid.
Proof. unfold touch_topic. by case_match. Qed.

Lemma find_queued m s c mid :
  find_message (apply_message_queued m s) c mid =
    if decide (msg_conversation_id m = c /\ msg_id m = mid) then Some m else find_message s c mid.
Proof.
  unfold apply_message_queued. rewrite find_touch_topic. unfold find_message, with_conversation. fields.
  unfold entry_or. rewrite lookup_insert. destruct (decide (msg_conversation_id m = c)) as [<-|Hc].
  - simpl. rewrite lookup_insert. destruct (decide (msg_id m = mid)).
    + by rewrite decide_True.
    + rewrite decide_False by naive_solver. destruct (st_messages s !! msg_conversation_id m); [done|].
      simpl. apply lookup_empty.
  - rewrite decide_False by naive_solver. done.
Qed.

Lemma find_deleted id ids s c mid :
  find_message (apply_messages_deleted id ids s) c mid =
    if decide (id = c /\ mid ∈ ids) then (fun m => m ⟪ msg_deleted := true ⟫) <$> find_message s c mid
    else find_message s c mid.
Proof.
  unfold apply_messages_deleted. revert s. induction ids as [|i ids IH]; intros s; simpl.
  - rewrite decide_False; [done|]. intros [_ H]. by apply not_elem_of_nil in H.
  - rewrite IH, find_with_message. destruct (decide (id = c)) as [<-|Hc].
    + destruct (decide (mid = i)) as [->|Hi].
      * rewrite (decide_True (P := id = id /\ i ∈ i :: ids)) by (split; [done|by left]).
        rewrite (decide_True (P := id = id /\ i = i)) by done.
        destruct (find_message s id i); simpl; by case_decide.
      * rewrite (decide_False (P := id = id /\ i = mid)) by naive_solver.
        assert (mid ∈ i :: ids <-> mid ∈ ids) as Hin by set_solver.
        repeat case_decide; naive_solver.
    + by rewrite !decide_False by naive_solver.
Qed.

(** ** What stays of a message, whatever happens to it *)

Record descends (m m' : Message) : Prop := {
  ds_sender : msg_sender_id m' = msg_sender_id m;
  ds_conversation : msg_conversation_id m' = msg_conversation_id m;
  ds_expires : msg_expires_at_ms m' = msg_expires_at_ms m;
  ds_scheduled : msg_scheduled_at_ms m' = msg_scheduled_at_ms m;
  ds_forward : msg_forward_origin m' = msg_forward_origin m;
  ds_protected : msg_protected_content m' = msg_protected_content m;
  ds_deleted : msg_deleted m = true -> msg_deleted m' = true;
}.

Lemma descends_refl m : descends m m.
Proof. by split. Qed.

Definition renames_or_adds (e : Event) : bool :=
  match e with MessageQueued _ | MessageAcknowledged _ _ _ _ => true | _ => false end.

Lemma apply_event_keeps_message e s cid mid m :
  renames_or_adds e = false -> find_message s cid mid = Some m ->
  exists m', find_message (apply_event e s) cid mid = Some m' /\ descends m m'.
Proof.
  intros He Hm.
  assert (forall f c i, (forall x, descends x (f x)) ->
    exists m', find_message (with_message c i f s) cid mid = Some m' /\ descends m m') as Hwith.
  { intros f c i Hf. rewrite find_with_message. case_decide as Hd; [|by exists m].
    destruct Hd as [-> ->]. rewrite Hm. simpl. eauto. }
  destruct e; try discriminate He; simpl; try (by exists m); try (by apply Hwith).
  - unfold apply_draft_changed. case_match; by exists m.
  - rewrite find_deleted. case_decide; [|by exists m]. rewrite Hm. simpl. eexists. split; [done|by split].
  - unfold apply_topic_draft_changed. case_match; by exists m.
Qed.

(** Events that neither add nor rename keep every message in its place. *)
Lemma apply_events_keep_message evs s cid mid m :
  forallb (fun e => negb (renames_or_adds e)) evs = true -> find_message s cid mid = Some m ->
  exists m', find_message (apply_events evs s) cid mid = Some m' /\ descends m m'.
Proof.
  revert s m. induction evs as [|e evs IH]; intros s m He Hm; [by exists m|].
  apply andb_true_iff in He as [He Hrest].
  destruct (apply_event_keeps_message e s cid mid m) as (m1 & Hm1 & Hd1); [by destruct (renames_or_adds e)|done|].
  destruct (IH _ m1 Hrest Hm1) as (m2 & Hm2 & Hd2). exists m2. split; [exact Hm2|].
  destruct Hd1, Hd2. split; try congruence. auto.
Qed.

Section messages.
Context `{U : UnicodeCase, D : StrDebug}.

Lemma execute_decided s c s' evs :
  execute s c = (s', Ok evs) -> decide_command s c = Ok evs /\ s' = apply_events evs s.
Proof. unfold execute. destruct (decide_command s c); [|done]. by intros [= <- <-]. Qed.

(** A message is only ever queued under an identifier that is free. *)
Lemma check_message_ids_free s id local client u :
  check_message_ids s id local client = Ok u -> find_message s id local = None.
Proof. unfold check_message_ids. intros H. oks. by destruct (find_message s id local). Qed.

Lemma queue_message_decided s id local client sender content reply thread created scheduled silent protected evs :
  decide_queue_message s id local client sender content reply thread created scheduled silent protected = Ok evs ->
  find_message s id local = None /\ exists m, evs = [MessageQueued m] /\ msg_id m = local /\ msg_conversation_id m = id.
Proof.
  unfold decide_queue_message. intros H. oks. subst evs. split; [by eapply check_message_ids_free|]. by eexists.
Qed.

Lemma forward_message_decided s source mid dest local client sender created evs :
  decide_forward_message s source mid dest local client sender created = Ok evs ->
  find_message s dest local = None
  /\ exists m, evs = [MessageQueued m] /\ msg_id m = local /\ msg_conversation_id m = dest.
Proof.
  unfold decide_forward_message. intros H. oks. subst evs. split; [by eapply check_message_ids_free|]. by eexists.
Qed.

(** C26: No command loses a message.  A stored message is still there after any
    accepted command, under the same identifier or, if the command is its
    acknowledgement, under the identifier the server gave it; its sender,
    conversation, expiry, schedule, forward origin and protection are unchanged;
    and a deleted message stays deleted. *)
Theorem messages_survive (s s' : MessagingState) (c : Command) (evs : list Event)
    (cid : ConversationId) (mid : MessageId) (m : Message) :
  find_message s cid mid = Some m -> execute s c = (s', Ok evs) ->
  exists mid' m', find_message s' cid mid' = Some m' /\ descends m m'
    /\ (mid' = mid \/ exists t, c = AcknowledgeMessage cid mid mid' t).
Proof.
  intros Hm [Hd ->]%execute_decided.
  destruct (forallb (fun e => negb (renames_or_adds e)) evs) eqn:Hevs.
  { destruct (apply_events_keep_message evs s cid mid m Hevs Hm) as (m' & Hm' & Hdesc). exists mid, m'. auto. }
  assert (forall x, find_message s (msg_conversation_id x) (msg_id x) = None -> evs = [MessageQueued x] ->
    exists mid' m', find_message (apply_events evs s) cid mid' = Some m' /\ descends m m'
      /\ (mid' = mid \/ exists t, c = AcknowledgeMessage cid mid mid' t)) as Hqueue.
  { intros x Hfree ->. exists mid, m. split; [|by split; [apply descends_refl|left]].
    cbn [apply_events foldl apply_event]. rewrite find_queued, decide_False; [done|].
    intros [<- <-]. congruence. }
  pose proof (decide_event_of _ _ _ Hd) as Hof.
  destruct c; try (exfalso; clear -Hof Hevs; induction evs as [|[] evs IH]; simpl in *; try done; auto; fail).
  - apply queue_message_decided in Hd as (Hfree & x & -> & <- & <-). eauto.
  - apply forward_message_decided in Hd as (Hfree & x & -> & <- & <-). eauto.
  - clear Hqueue Hof Hevs. simpl in Hd. unfold decide_acknowledge_message in Hd. oks. subst evs.
    cbn [apply_events foldl apply_event]. unfold apply_message_acknowledged, with_conversation.
    unfold find_message at 1. fields. setoid_rewrite lookup_alter.
    destruct (decide (conversation_id = cid)) as [->|Hc]; [|exists mid, m; eauto using descends_refl].
    apply find_message_get in Hm as (ms & Hms & Hm). rewrite Hms. simpl. unfold rename_message.
    destruct (decide (local_message_id = mid)) as [->|Hlocal].
    + rewrite Hm. exists server_message_id. eexists. rewrite lookup_insert_eq.
      split; [done|]. split; [by split|eauto].
    + exists mid, m. destruct (ms !! local_message_id) as [x|]; [|eauto using descends_refl].
      rewrite lookup_insert_ne, lookup_delete_ne; [eauto using descends_refl|done|].
      intros ->. unfold find_message in Hok0. rewrite Hms in Hok0. simpl in Hok0. rewrite Hm in Hok0.
      unfold eqb in Hok0. rewrite bool_decide_false in Hok0 by done. done.
Qed.

(** ** Posting *)

Lemma check_secrecy_ok c id sender content u :
  check_secrecy c id sender content = Ok u ->
  (conv_kind c = Secret -> is_secret_content content = true \/ is_service_content content = true)
  /\ (forall e, content = ContentSecret e -> conv_kind c = Secret /\ esm_conversation_id e = id
        /\ esm_sender_id e = sender /\ is_participant c sender = true
        /\ is_participant c (esm_recipient_id e) = true /\ esm_recipient_id e <> sender).
Proof.
  unfold check_secrecy, eqb. intros H. oks. split.
  - intros Hs. rewrite bool_decide_true in * by done. simpl in *.
    destruct (is_secret_content content); [by left|]. destruct (is_service_content content); [by right|done].
  - intros e ->. simpl in *. oks. unfold envelope_matches, eqb in H. rewrite !andb_true_iff in H.
    destruct H as [[[[H1 H2] H3] H4] H5]. apply bool_decide_eq_true in H1, H2.
    apply negb_true_iff, bool_decide_eq_false in H5.
    case_bool_decide; [|done]. split_and!; try done; congruence.
Qed.

Lemma message_expiry_ok seconds base e :
  message_expiry seconds base = Ok e ->
  match seconds with
  | None => e = None
  | Some n => n <> 0 /\ e = Some (base + n * 1000) /\ base + n * 1000 <= i64_max
  end.
Proof.
  unfold message_expiry. destruct seconds as [n|]; [|by intros [= <-]]. intros H. oks.
  apply retention_policy_ok in Hok as [Hn ->].
  destruct (policy_expires_at_ms _ _) as [t|] eqn:Ht; simpl in H; simplify_eq.
  apply policy_expires_at_ok in Ht as [-> Hr]. simpl in *. split_and!; [done..|lia].
Qed.

(** Who may post what to a conversation. *)
Record may_post (s : MessagingState) (c : Conversation) (id : ConversationId) (sender : ActorId)
    (content : MessageContent) : Prop := {
  mp_takes_part : is_participant c sender = true \/ is_conversation_owner c sender = true;
  mp_allowed : can_send_messages (conv_permissions c) = true
    /\ (message_content_uses_media content = true -> can_send_media (conv_permissions c) = true)
    /\ (is_poll content = true -> can_send_polls (conv_permissions c) = true);
  mp_member : forall community m, st_communities s !! id = Some community -> cs_members community !! sender = Some m ->
    cm_status m <> StLeft /\ cm_status m <> StBanned
    /\ (cm_status m = StRestricted -> mr_send_messages (cm_restrictions m) = false
         /\ (message_content_uses_media content = true -> mr_send_media (cm_restrictions m) = false)
         /\ (is_poll content = true -> mr_send_polls (cm_restrictions m) = false));
  mp_channel : conv_kind c = Channel -> can_post_to_channel s c id sender = true;
  mp_secret : conv_kind c = Secret -> is_secret_content content = true \/ is_service_content content = true;
  mp_envelope : forall e, content = ContentSecret e -> conv_kind c = Secret /\ esm_conversation_id e = id
    /\ esm_sender_id e = sender /\ is_participant c sender = true
    /\ is_participant c (esm_recipient_id e) = true /\ esm_recipient_id e <> sender;
}.

Lemma check_member_restrictions_ok s id sender content u community m :
  check_member_restrictions s id sender content = Ok u ->
  st_communities s !! id = Some community -> cs_members community !! sender = Some m ->
  cm_status m <> StLeft /\ cm_status m <> StBanned
  /\ (cm_status m = StRestricted -> mr_send_messages (cm_restrictions m) = false
       /\ (message_content_uses_media content = true -> mr_send_media (cm_restrictions m) = false)
       /\ (is_poll content = true -> mr_send_polls (cm_restrictions m) = false)).
Proof.
  unfold check_member_restrictions. intros H Hc Hm. rewrite Hc in H. simpl in H. rewrite Hm in H.
  unfold has_status in H. oks.
  destruct (cm_status m) eqn:Es; try (split_and!; done);
    rewrite ?bool_decide_false, ?bool_decide_true in * by set_solver; simpl in *; try done.
  split_and!; [done..|]. intros _.
  destruct (message_content_uses_media content), (is_poll content); simpl in *; naive_solver.
Qed.

Lemma queue_message_checks s id local client sender content reply thread created scheduled silent protected evs :
  decide_queue_message s id local client sender content reply thread created scheduled silent protected = Ok evs ->
  exists conversation expires, st_conversations s !! id = Some conversation
    /\ may_post s conversation id sender content
    /\ check_community_policy s id sender thread created = Ok tt
    /\ find_message s id local = None
    /\ message_expiry (conv_message_retention_seconds conversation) (default created scheduled) = Ok expires
    /\ exists m, evs = [MessageQueued m] /\ msg_id m = local /\ msg_conversation_id m = id
         /\ msg_sender_id m = sender /\ msg_content m = content /\ msg_expires_at_ms m = expires
         /\ msg_created_at_ms m = created /\ msg_scheduled_at_ms m = scheduled /\ msg_deleted m = false
         /\ msg_delivery_state m = Pending client
         /\ msg_protected_content m = protected || is_secret_content content.
Proof.
  unfold decide_queue_message, check_send_permissions. intros H. oks.
  apply require_conversation_ok in Hok. exists a. eexists. split; [exact Hok|]. split; [|split_and!].
  - match goal with H : check_secrecy _ _ _ _ = _ |- _ => apply check_secrecy_ok in H as [Hs He] end. split; [| | | |done|done].
    + destruct (is_participant a sender); [by left|]. by right.
    + repeat match goal with H : _ && negb _ = false |- _ => apply andb_false_iff in H end.
      destruct (can_send_messages _), (message_content_uses_media content), (can_send_media _), (is_poll content),
        (can_send_polls _); naive_solver.
    + intros. by eapply check_member_restrictions_ok.
    + intros Hc. unfold check_channel_post, eqb in *. rewrite bool_decide_true in * by done. simpl in *. oks.
      by destruct (can_post_to_channel _ _ _ _).
  - done.
  - by eapply check_message_ids_free.
  - done.
  - subst evs. eexists. split; [reflexivity|]. done.
Qed.

(** Posting is authorised and adds exactly one message.  When a message is
    queued, its sender takes part in the conversation, the conversation's and the
    community's rules admit it (a member who left or was banned cannot post, a
    restricted one only what is left to them, in a channel only those who may
    post), a secret conversation gets only secret or service content and secret
    content only goes to its two parties; the message was not there before, it
    expires exactly the retention period after it is due, and every other message
    of the engine is untouched. *)
Theorem queued_message_is_authorised (s s' : MessagingState) (evs : list Event) (id : ConversationId)
    (local : MessageId) (client : ClientMessageId) (sender : ActorId) (content : MessageContent)
    (reply thread : option MessageId) (created : Z) (scheduled : option Z) (silent protected : bool) :
  execute s (QueueMessage id local client sender content reply thread created scheduled silent protected)
    = (s', Ok evs) ->
  exists conversation m, st_conversations s !! id = Some conversation
    /\ may_post s conversation id sender content
    /\ find_message s id local = None
    /\ msg_sender_id m = sender /\ msg_content m = content /\ msg_created_at_ms m = created
    /\ msg_delivery_state m = Pending client
    /\ msg_expires_at_ms m = (fun n => default created scheduled + n * 1000)
                              <$> conv_message_retention_seconds conversation
    /\ forall cid mid, find_message s' cid mid
         = if decide (id = cid /\ local = mid) then Some m else find_message s cid mid.
Proof.
  intros [Hd ->]%execute_decided. simpl in Hd.
  destruct (queue_message_checks _ _ _ _ _ _ _ _ _ _ _ _ _ Hd)
    as (conversation & expires & Hc & Hmay & _ & Hfree & Hexp & m & -> & <- & <- & ? & ? & He & ? & ? & ? & ? & ?).
  exists conversation, m. split_and!; try done.
  - rewrite He. apply message_expiry_ok in Hexp.
    destruct (conv_message_retention_seconds conversation); naive_solver.
  - intros cid mid. apply find_queued.
Qed.

(** ** Slow mode *)

Lemma max_by_ge (l : list Message) (best : option Message) (b : Message) :
  foldl (fun best x => match best with
                       | None => Some x
                       | Some b => if message_key_le b x then Some x else Some b
                       end) best l = Some b ->
  (forall x, best = Some x -> msg_created_at_ms x <= msg_created_at_ms b)
  /\ forall x, x ∈ l -> msg_created_at_ms x <= msg_created_at_ms b.
Proof.
  assert (forall x y, message_key_le x y = true -> msg_created_at_ms x <= msg_created_at_ms y) as Hle.
  { intros x y. unfold message_key_le. lia. }
  assert (forall x y, message_key_le x y = false -> msg_created_at_ms y <= msg_created_at_ms x) as Hgt.
  { intros x y. unfold message_key_le. intros H. apply orb_false_iff in H as [H _]. lia. }
  revert best. induction l as [|y l IH]; intros best; simpl.
  - intros ->. split; [intros x [= ->]; lia|]. intros x Hx. by apply not_elem_of_nil in Hx.
  - intros Hb. apply IH in Hb as [H1 H2]. destruct best as [x0|].
    + destruct (message_key_le x0 y) eqn:E.
      * specialize (H1 y eq_refl). apply Hle in E. split; [intros x [= ->]; lia|].
        intros x [->|Hx]%elem_of_cons; [done|by apply H2].
      * specialize (H1 x0 eq_refl). apply Hgt in E. split; [intros x [= ->]; lia|].
        intros x [->|Hx]%elem_of_cons; [lia|by apply H2].
    + split; [done|]. intros x [->|Hx]%elem_of_cons; [by apply H1|by apply H2].
Qed.

Lemma max_by_some (l : list Message) (x : Message) : x ∈ l -> is_Some (max_by message_key_le l).
Proof.
  unfold max_by. assert (forall l best, is_Some best -> is_Some (foldl (fun best x => match best with
    | None => Some x | Some b => if message_key_le b x then Some x else Some b end) best l)) as Hsome.
  { clear. induction l as [|y l IH]; intros best Hb; simpl; [done|]. apply IH.
    destruct best; [case_match|]; by eexists. }
  destruct l as [|y l]; intros Hx; [by apply not_elem_of_nil in Hx|]. simpl. apply Hsome. by eexists.
Qed.

(** C27: Slow mode spaces a sender's messages.  In a community with a slow mode of
    [seconds], a message of a sender who is not a moderator is accepted only if
    every earlier message of theirs that is not deleted and already due is at
    least [seconds] older. *)
Theorem slow_mode_spaces_messages (s s' : MessagingState) (evs : list Event) (community : CommunityState)
    (seconds : Z) (id : ConversationId) (local mid : MessageId) (client : ClientMessageId) (sender : ActorId)
    (content : MessageContent) (reply thread : option MessageId) (created : Z) (scheduled : option Z)
    (silent protected : bool) (m : Message) :
  st_communities s !! id = Some community -> cs_slow_mode_seconds community = Some seconds ->
  0 <= seconds <= u32_max -> can_moderate community sender = false ->
  find_message s id mid = Some m -> counts_for_slow_mode sender created m = true ->
  0 <= msg_created_at_ms m -> created < i64_max ->
  execute s (QueueMessage id local client sender content reply thread created scheduled silent protected)
    = (s', Ok evs) ->
  msg_created_at_ms m + seconds * 1000 <= created.
Proof.
  intros Hc Hs Hrange Hmod Hm Hcount Hpos Hmax [Hd _]%execute_decided. simpl in Hd.
  apply queue_message_checks in Hd as (conversation & expires & _ & _ & Hpolicy & _).
  unfold check_community_policy in Hpolicy. rewrite Hc in Hpolicy. oks.
  unfold check_slow_mode in Hpolicy. rewrite Hs, Hmod in Hpolicy.
  unfold latest_sender_message in Hpolicy.
  apply find_message_get in Hm as (ms & Hms & Hm). rewrite Hms in Hpolicy. simpl in Hpolicy.
  assert (m ∈ filter (fun m => counts_for_slow_mode sender created m) (btree_values ms)) as Hin.
  { apply list_elem_of_filter. split; [by rewrite Hcount|]. apply elem_of_btree_values. eauto. }
  destruct (max_by_some _ _ Hin) as [b Hb]. rewrite Hb in Hpolicy. oks.
  apply max_by_ge in Hb as [_ Hge]. specialize (Hge m Hin).
  unfold slow_mode_retry_at, saturating_add_i64, saturating_mul_i64, clamp in *.
  unfold i64_max, i64_min, u32_max in *. lia.
Qed.
End messages.

(** ** Witnesses *)

Definition greet (local : string) (sender : ActorId) (created : Z) : Command :=
  QueueMessage lobby (MkMessageId local) (MkClientMessageId local) sender (ContentText (plain "hi")) None None
    created None false false.

(** The lobby with a slow mode of one minute and a message of [ben]. *)
Definition slow_lobby : MessagingState :=
  run [SetCommunitySlowMode ann lobby (Some 60) 5; greet "m1" ben 1000] demo.

Lemma messages_survive_witness :
  exists m', find_message (fst (execute slow_lobby (DeleteMessages lobby [MkMessageId "m1"]))) lobby (MkMessageId "m1")
    = Some m' /\ msg_sender_id m' = ben.
Proof.
  destruct (execute_ok slow_lobby (DeleteMessages lobby [MkMessageId "m1"])) as [evs Hex]; [vm_compute; reflexivity|].
  destruct (find_message slow_lobby lobby (MkMessageId "m1")) as [m|] eqn:Hm; [|vm_compute in Hm; discriminate Hm].
  destruct (messages_survive _ _ _ _ _ _ _ Hm Hex) as (mid' & m' & Hm' & Hd & [->|[t Ht]]); [|discriminate Ht].
  exists m'. split; [exact Hm'|]. rewrite (ds_sender _ _ Hd). vm_compute in Hm. injection Hm as <-. reflexivity.
Defined.

Lemma queued_message_is_authorised_witness :
  exists conversation, st_conversations demo !! lobby = Some conversation
    /\ may_post demo conversation lobby ben (ContentText (plain "hi")).
Proof.
  destruct (execute_ok demo (greet "m1" ben 1000)) as [evs Hex]; [vm_compute; reflexivity|].
  destruct (queued_message_is_authorised _ _ _ _ _ _ _ _ _ _ _ _ _ _ Hex) as (c & _ & Hc & Hmay & _).
  exists c. split; [exact Hc|exact Hmay].
Defined.

Lemma slow_mode_spaces_messages_witness : 1000 + 60 * 1000 <= 61000.
Proof.
  destruct (execute_ok slow_lobby (greet "m2" ben 61000)) as [evs Hex]; [vm_compute; reflexivity|].
  destruct (find_message slow_lobby lobby (MkMessageId "m1")) as [m|] eqn:Hm; [|vm_compute in Hm; discriminate Hm].
  destruct (st_communities slow_lobby !! lobby) as [c|] eqn:Hc; [|vm_compute in Hc; discriminate Hc].
  assert (msg_created_at_ms m + 60 * 1000 <= 61000) as H.
  { refine (slow_mode_spaces_messages _ _ _ c 60 _ _ _ _ _ _ _ _ _ _ _ _ m Hc _ _ _ Hm _ _ _ Hex);
      vm_compute in Hc, Hm; injection Hc as <-; injection Hm as <-; vm_compute; try reflexivity;
      try split; try discriminate. }
  assert (msg_created_at_ms m = 1000) as Ht by (vm_compute in Hm; injection Hm as <-; reflexivity).
  rewrite Ht in H. exact H.
Defined.
