(* ===== verification/EngineSecrecy.v ===== *)
(** * Secret conversations stay sealed, and where they do not *)

From S2P Require Import Prelude Text Maps Conversation SecretChat Message Payment Wallet Apps Community EngineTypes EngineCore EngineConversation EngineMessage EngineCommerce EngineCommunity EngineApp EngineApply Engine EngineInvariant EngineMoney EngineDemo EngineMessaging.

(** Content that carries no plaintext. *)
Definition opaque_content (content : MessageContent) : Prop :=
  is_secret_content content = true \/ is_service_content content = true.

(** Every message of a secret conversation is opaque. *)
Definition sealed (s : MessagingState) : Prop :=
  forall cid c mid m, st_conversations s !! cid = Some c -> conv_kind c = Secret ->
    find_message s cid mid = Some m -> opaque_content (msg_content m).

Definition upserts_secret (e : Event) : bool :=
  match e with ConversationUpserted c => eqb (conv_kind c) Secret | _ => false end.

Lemma with_conversation_kind id f s cid c' :
  (forall c, conv_kind (f c) = conv_kind c) -> st_conversations (with_conversation id f s) !! cid = Some c' ->
  exists c, st_conversations s !! cid = Some c /\ conv_kind c = conv_kind c'.
Proof.
  intros Hf. unfold with_conversation. fields. intros [(<- & c & Hc & ->)|[_ Hc]]%lookup_alter_Some; eauto.
Qed.

(** Only storing a secret conversation makes a conversation secret. *)
Lemma apply_event_kind e s cid c' :
  upserts_secret e = false -> st_conversations (apply_event e s) !! cid = Some c' -> conv_kind c' = Secret ->
  exists c, st_conversations s !! cid = Some c /\ conv_kind c = Secret.
Proof.
  intros He Hc Hsecret.
  enough (exists c, st_conversations s !! cid = Some c /\ conv_kind c = conv_kind c') as (c & Hl & Hk)
    by (exists c; split; [exact Hl|congruence]).
  revert Hc. destruct e; simpl in He |- *; intros Hc;
    try (by exists c'); try (by eapply with_conversation_kind in Hc).
  - revert Hc. fields. rewrite lookup_insert_Some. intros [[_ <-]|[_ Hc]]; [|by exists c'].
    rewrite Hsecret in He. discriminate He.
  - unfold apply_draft_changed in Hc. case_match; by exists c'.
  - unfold apply_folder_deleted in Hc. revert Hc. fields. rewrite lookup_fmap_Some. intros (c & <- & Hc). by exists c.
  - assert (st_conversations (with_conversation (msg_conversation_id message)
      (fun c => c ⟪ conv_last_message_id := Some (message_id_0 (msg_id message)) ⟫
                  ⟪ conv_updated_at_ms := msg_created_at_ms message ⟫) s) !! cid = Some c') as Hc'
      by (unfold apply_message_queued, touch_topic in Hc; case_match; exact Hc).
    by apply with_conversation_kind in Hc'.
  - unfold apply_message_acknowledged in Hc. apply with_conversation_kind in Hc; [done|]. intros c. by case_match.
  - exists c'. split; [|done]. revert Hc. clear He. unfold apply_messages_deleted. generalize s.
    induction message_ids as [|i ids IH]; intros s0; simpl; [done|]. intros Hc%IH. done.
  - unfold apply_topic_draft_changed in Hc. case_match; by exists c'.
Qed.

(** Where the message found after an event comes from. *)
Definition writes_content (e : Event) : bool :=
  match e with MessageQueued _ | MessageEdited _ _ _ _ => true | _ => false end.

Lemma tally_opaque votes content : opaque_content content -> opaque_content (tally votes content).
Proof. by destruct content. Qed.

Lemma apply_event_content e s cid mid m' :
  writes_content e = false -> find_message (apply_event e s) cid mid = Some m' ->
  exists mid0 m, find_message s cid mid0 = Some m /\ (opaque_content (msg_content m) -> opaque_content (msg_content m')).
Proof.
  intros He.
  assert (forall f c i s0, st_messages s0 = st_messages s ->
    (forall x, opaque_content (msg_content x) -> opaque_content (msg_content (f x))) ->
    find_message (with_message c i f s0) cid mid = Some m' ->
    exists mid0 m, find_message s cid mid0 = Some m /\ (opaque_content (msg_content m) -> opaque_content (msg_content m')))
    as Hwith.
  { intros f c i s0 Hs Hf.
    assert (forall x y, find_message s0 x y = find_message s x y) as Hsame
      by (intros; unfold find_message; by rewrite Hs).
    rewrite find_with_message, !Hsame. case_decide as Hd; [|eauto]. destruct Hd as [-> ->].
    destruct (find_message s cid mid) as [m|] eqn:Hm; simpl; [|done]. intros [= <-]. exists mid, m. auto. }
  destruct e; try discriminate He; simpl; intros Hm; try (by exists mid, m');
    try (by eapply Hwith in Hm; [exact Hm | reflexivity | done]).
  - unfold apply_draft_changed in Hm. case_match; by exists mid, m'.
  - unfold apply_message_acknowledged, with_conversation in Hm. unfold find_message in Hm. revert Hm. fields.
    rewrite lookup_alter. case_decide as Hc; [subst conversation_id|intros; by exists mid, m'].
    destruct (st_messages s !! cid) as [ms|] eqn:Hms; simpl; [|done]. unfold rename_message.
    destruct (ms !! local_message_id) as [x|] eqn:Hx; [|intros; exists mid, m'; rewrite find_message_get; eauto].
    rewrite lookup_insert_Some. intros [[<- <-]|[_ Hl]].
    + exists local_message_id, x. rewrite find_message_get. eauto.
    + apply lookup_delete_Some in Hl as [_ Hl]. exists mid, m'. rewrite find_message_get. eauto.
  - rewrite find_deleted in Hm. case_decide; [|by exists mid, m'].
    destruct (find_message s cid mid) as [m|] eqn:Hf; simpl in Hm; [|done]. injection Hm as <-. by exists mid, m.
  - unfold apply_topic_draft_changed in Hm. case_match; by exists mid, m'.
  - unfold apply_poll_vote in Hm. eapply Hwith in Hm; [exact Hm | reflexivity |]. intros x. fields. apply tally_opaque.
Qed.

Lemma apply_event_sealed e s :
  upserts_secret e = false -> writes_content e = false -> sealed s -> sealed (apply_event e s).
Proof.
  intros Hu Hw Hs cid c mid m Hc Hk Hm.
  apply apply_event_kind in Hc as (c0 & Hc0 & Hk0); [|done|done].
  apply apply_event_content in Hm as (mid0 & m0 & Hm0 & Himp); [|done].
  apply Himp. eapply Hs; [exact Hc0|exact Hk0|exact Hm0].
Qed.

Lemma apply_events_sealed evs s :
  forallb (fun e => negb (upserts_secret e) && negb (writes_content e)) evs = true ->
  sealed s -> sealed (apply_events evs s).
Proof.
  revert s. induction evs as [|e evs IH]; intros s He Hs; [done|].
  simpl in He. rewrite !andb_true_iff, !negb_true_iff in He. destruct He as [[Hu Hw] Hrest].
  apply IH; [done|]. by apply apply_event_sealed.
Qed.

Section secrecy.
Context `{U : UnicodeCase, D : StrDebug}.

(** The commands that can put plaintext into a secret conversation. *)
Definition may_unseal (c : Command) : bool :=
  match c with
  | EditMessage _ _ _ _ | ForwardMessage _ _ _ _ _ _ _ => true
  | UpsertConversation c => eqb (conv_kind c) Secret
  | _ => false
  end.

Lemma upsert_decided s c evs :
  decide_command s (UpsertConversation c) = Ok evs -> evs = [ConversationUpserted c].
Proof. cbn [decide_command]. unfold decide_upsert_conversation. intros H. by oks. Qed.

Lemma execute_sealed s c : may_unseal c = false -> sealed s -> sealed (fst (execute s c)).
Proof.
  intros Hc Hs. destruct (execute s c) as [s' [evs|err]] eqn:H; simpl.
  2: { unfold execute in H. by destruct (decide_command s c); simplify_eq. }
  apply execute_decided in H as [Hd ->].
  destruct (forallb (fun e => negb (upserts_secret e) && negb (writes_content e)) evs) eqn:He.
  { by apply apply_events_sealed. }
  pose proof (decide_event_of _ _ _ Hd) as Hof.
  destruct c; try discriminate Hc;
    try (exfalso; apply upsert_decided in Hd; subst evs; simpl in *; rewrite Hc in He; discriminate He);
    try (exfalso; clear -Hof He; induction evs as [|[] evs IH]; simpl in *; try done; auto; fail).
  simpl in Hd. apply queue_message_checks in Hd as
    (conv & expires & Hconv & Hmay & _ & _ & _ & m & -> & <- & <- & _ & <- & _).
  intros cid c' mid m' Hc' Hk Hm'. cbn [apply_events foldl apply_event] in *.
  apply (apply_event_kind (MessageQueued m) s) in Hc' as (c0 & Hc0 & Hk0); [|done|done].
  rewrite find_queued in Hm'. case_decide as Hd.
  - destruct Hd as [<- <-]. injection Hm' as <-. rewrite Hconv in Hc0. injection Hc0 as <-.
    apply (mp_secret _ _ _ _ _ Hmay). congruence.
  - eapply Hs; [exact Hc0|exact Hk0|exact Hm'].
Qed.

(** C28: Secret conversations stay sealed.  If every message of every secret
    conversation is an encrypted envelope or a service message, this is still so
    after any sequence of commands, refused or not, among which none edits or
    forwards a message or stores a secret conversation. *)
Theorem secret_conversations_stay_sealed (commands : list Command) (s : MessagingState) :
  forallb (fun c => negb (may_unseal c)) commands = true -> sealed s -> sealed (run commands s).
Proof.
  revert s. induction commands as [|c commands IH]; intros s Hall Hs; [done|].
  simpl in Hall. rewrite andb_true_iff, negb_true_iff in Hall. destruct Hall as [Hc Hrest].
  apply IH; [done|]. by apply execute_sealed.
Qed.
End secrecy.

(** ** The commands that break the seal *)

Definition say (id : ConversationId) (local : string) (sender : ActorId) (content : MessageContent) : Command :=
  QueueMessage id (MkMessageId local) (MkClientMessageId local) sender content None None 10 None false false.

Definition hello : MessageContent := ContentText (plain "hello").

(** What is stored under a message identifier. *)
Definition content_at (s : MessagingState) (id : ConversationId) (local : string) : option MessageContent :=
  msg_content <$> find_message s id (MkMessageId local).

(** Posting plaintext to the secret conversation is refused, but forwarding it
    there from another conversation is accepted, even from a sender who takes no
    part in either. *)
Lemma forward_unseals :
  snd (execute demo (say vault "m1" ann hello)) = Err SecretPlaintextRejected
  /\ content_at (run [say lobby "m1" ann hello;
       ForwardMessage lobby (MkMessageId "m1") vault (MkMessageId "m2") (MkClientMessageId "c") cam 11] demo)
       vault "m2" = Some hello.
Proof. vm_compute. split; reflexivity. Qed.

(** So is editing a service message of the secret conversation into plaintext. *)
Lemma edit_unseals :
  content_at (run [say vault "m1" ann (ContentService "joined" None);
    EditMessage vault (MkMessageId "m1") hello 12] demo) vault "m1" = Some hello.
Proof. vm_compute. reflexivity. Qed.

(** A secret conversation has two participants when it is stored, but a third can
    be added to it. *)
Lemma secret_conversation_gains_third :
  length <$> (conv_participants <$>
    st_conversations (fst (execute demo (SetConversationParticipant vault (party cam RoleMember)))) !! vault)
  = Some 3%nat.
Proof. vm_compute. reflexivity. Qed.

Lemma demo_sealed : sealed demo.
Proof.
  intros cid c mid m _ _ (ms & Hms & _)%find_message_get.
  assert (st_messages demo = ∅) as H0 by (vm_compute; reflexivity).
  by rewrite H0, lookup_empty in Hms.
Qed.

Lemma secret_conversations_stay_sealed_witness :
  sealed (run [say vault "m1" ann hello; say vault "m2" ann (ContentService "joined" None)] demo).
Proof. apply secret_conversations_stay_sealed; [reflexivity | exact demo_sealed]. Defined.
