(* ===== verification/EngineGovernance.v ===== *)
(** * Who can change the membership of a community *)

From S2P Require Import Prelude Text Maps Conversation SecretChat Message Payment Wallet Apps Community EngineTypes EngineCore EngineConversation EngineMessage EngineCommerce EngineCommunity EngineApp EngineApply Engine EngineInvariant EngineMoney EngineDemo EngineMessaging.

(** The plain membership an approved join request gives. *)
Definition joined_member (by_actor : ActorId) (now_ms : Z) (r : JoinRequest) : CommunityMember := {|
  cm_actor_id := jr_actor_id r;
  cm_status := StMember;
  cm_admin_title := None;
  cm_admin_rights := default_admin_rights;
  cm_restrictions := default_restrictions;
  cm_joined_at_ms := now_ms;
  cm_invited_by := Some by_actor;
|}.

Definition holds_office (m : CommunityMember) : bool := has_status [StOwner; StAdministrator] m.

(** [governs k id a c m]: in community [k] of conversation [id], the command [c]
    may make [m] the membership of [a].  The first three rules are the commands
    members issue, with the standing they take; the last two are the
    conversation's own participant commands, which name no issuer. *)
Inductive governs (k : CommunityState) (id : ConversationId) (a : ActorId) :
    Command -> option CommunityMember -> Prop :=
| governs_moderation by_actor m reason t :
    cm_actor_id m = a -> by_actor <> a -> is_community_admin k by_actor ActBanMembers = true ->
    member_is k a holds_office = false -> holds_office m = false ->
    governs k id a (ModerateCommunityMember by_actor id m reason t) (Some m)
| governs_setting by_actor m :
    cm_actor_id m = a -> is_community_admin k by_actor (member_change_action k m) = true ->
    (is_community_owner k a = true \/ cm_status m = StOwner -> is_community_owner k by_actor = true) ->
    governs k id a (SetCommunityMember by_actor id m) (Some m)
| governs_approval by_actor t r :
    can_manage_invites k by_actor = true -> cs_pending_join_requests k !! a = Some r ->
    governs k id a (RespondCommunityJoin by_actor id a true t) (Some (joined_member by_actor t r))
| governs_participant p m :
    participant_actor_id p = a -> cm_status m = status_of_role (participant_role p) ->
    governs k id a (SetConversationParticipant id p) (Some m)
| governs_removal :
    governs k id a (RemoveConversationParticipant id a)
      ((fun m => m ⟪ cm_status := StLeft ⟫) <$> cs_members k !! a).

Definition changes_community (e : Event) : bool :=
  match e with CommunityChanged _ => true | _ => false end.

(** Other events keep every membership. *)
Lemma apply_event_members e s cid k :
  changes_community e = false -> st_communities s !! cid = Some k ->
  exists k', st_communities (apply_event e s) !! cid = Some k' /\ cs_members k' = cs_members k.
Proof.
  intros He Hk. destruct e; try discriminate He; simpl; try (by exists k).
  - unfold apply_draft_changed. case_match; by exists k.
  - unfold apply_message_queued, touch_topic. case_match; [|by exists k]. fields.
    rewrite lookup_alter. case_decide; [subst cid|by exists k].
    unfold with_conversation. fields. rewrite Hk. simpl. by eexists.
  - clear He. exists k. split; [|done]. unfold apply_messages_deleted. revert s Hk.
    induction message_ids as [|i ids IH]; intros s Hk; simpl; [done|]. by apply IH.
  - unfold apply_topic_draft_changed. case_match; by exists k.
Qed.

Lemma apply_events_members evs s cid k :
  forallb (fun e => negb (changes_community e)) evs = true -> st_communities s !! cid = Some k ->
  exists k', st_communities (apply_events evs s) !! cid = Some k' /\ cs_members k' = cs_members k.
Proof.
  revert s k. induction evs as [|e evs IH]; intros s k He Hk; [by exists k|].
  simpl in He. rewrite andb_true_iff, negb_true_iff in He. destruct He as [He Hrest].
  destruct (apply_event_members e s cid k He Hk) as (k1 & Hk1 & Hm1).
  destruct (IH (apply_event e s) k1 Hrest Hk1) as (k2 & Hk2 & Hm2). exists k2. split; [exact Hk2|congruence].
Qed.

Lemma participant_event_quiet s id c a :
  forallb (fun e => negb (changes_community e)) (participant_event s id c a) = true.
Proof. unfold participant_event. case_match; [|done]. by case_match. Qed.

Section governance.
Context `{U : UnicodeCase, D : StrDebug}.
Variables (s : MessagingState) (cid : ConversationId) (k : CommunityState).
Hypothesis Hwf : state_wf s.
Hypothesis Hk : st_communities s !! cid = Some k.

Lemma required_community id k0 :
  require_community s id = Ok k0 -> cs_conversation_id k0 = id /\ (id = cid -> k0 = k).
Proof.
  intros H. split; [by apply (known_community _ Hwf) in H as [? _]|].
  intros ->. apply require_community_ok in H. congruence.
Qed.

Definition governed (c : Command) (s' : MessagingState) : Prop :=
  exists k', st_communities s' !! cid = Some k'
    /\ forall a, cs_members k' !! a = cs_members k !! a \/ governs k cid a c (cs_members k' !! a).

(** Decisions whose first event replaces a community. *)
Lemma governed_change c id k0 k1 rest :
  require_community s id = Ok k0 -> cs_conversation_id k1 = cs_conversation_id k0 ->
  forallb (fun e => negb (changes_community e)) rest = true ->
  (id = cid -> k0 = k -> forall a, cs_members k1 !! a = cs_members k !! a \/ governs k cid a c (cs_members k1 !! a)) ->
  governed c (apply_events (CommunityChanged k1 :: rest) s).
Proof.
  intros Hk0 Hid Hrest Hmem. apply required_community in Hk0 as [Hid0 Hk0].
  unfold governed. change (apply_events (CommunityChanged k1 :: rest) s)
    with (apply_events rest (apply_event (CommunityChanged k1) s)).
  assert (forall k2, st_communities (apply_event (CommunityChanged k1) s) !! cid = Some k2 ->
    (forall a, cs_members k2 !! a = cs_members k !! a \/ governs k cid a c (cs_members k2 !! a)) ->
    exists k', st_communities (apply_events rest (apply_event (CommunityChanged k1) s)) !! cid = Some k'
      /\ forall a, cs_members k' !! a = cs_members k !! a \/ governs k cid a c (cs_members k' !! a)) as Hrests.
  { intros k2 Hk2 Hm2. destruct (apply_events_members rest _ _ _ Hrest Hk2) as (k' & Hk' & Hm').
    exists k'. rewrite Hm'. auto. }
  destruct (decide (id = cid)) as [->|Hne].
  - apply (Hrests k1); [|auto]. simpl. fields. rewrite Hid, Hid0. apply lookup_insert_eq.
  - apply (Hrests k); [|auto]. simpl. fields. rewrite Hid, Hid0, lookup_insert_ne by done. exact Hk.
Qed.

Lemma governed_quiet c evs :
  forallb (fun e => negb (changes_community e)) evs = true -> governed c (apply_events evs s).
Proof.
  intros He. destruct (apply_events_members evs s cid k He Hk) as (k' & Hk' & Hm').
  exists k'. rewrite Hm'. auto.
Qed.
(** The membership table of a community after a member has been stored. *)
Lemma stored_member (m : CommunityMember) (k1 : CommunityState) c :
  cs_members k1 = <[cm_actor_id m := m]> (cs_members k) -> governs k cid (cm_actor_id m) c (Some m) ->
  forall a, cs_members k1 !! a = cs_members k !! a \/ governs k cid a c (cs_members k1 !! a).
Proof.
  intros -> Hg a. destruct (decide (cm_actor_id m = a)) as [<-|Hne].
  - right. by rewrite lookup_insert_eq.
  - left. by rewrite lookup_insert_ne.
Qed.

Lemma drop_subscription_members gone a c : cs_members (drop_subscription gone a c) = cs_members c.
Proof. by destruct gone. Qed.

Lemma moderation_governed a id m r t evs :
  decide_moderate_member s a id m r t = Ok evs ->
  governed (ModerateCommunityMember a id m r t) (apply_events evs s).
Proof.
  unfold decide_moderate_member. intros H. oks. subst evs.
  eapply governed_change; [exact Hok0| |apply participant_event_quiet|].
  - by rewrite append_community_audit_conversation, drop_subscription_conversation.
  - intros -> ->. apply (stored_member m).
    + by rewrite append_community_audit_members, drop_subscription_members.
    + apply require_community_admin_ok in Hok1.
      apply governs_moderation; try done.
      * intros ->. unfold eqb in *. by rewrite bool_decide_true in * by done.
      * unfold member_is in *. destruct (cs_members k !! cm_actor_id m) as [m0|]; [|done]. simpl in *.
        unfold holds_office, has_status in *. apply bool_decide_eq_false.
        repeat match goal with H : bool_decide _ = false |- _ => apply bool_decide_eq_false in H end. set_solver.
      * unfold holds_office, has_status in *. apply bool_decide_eq_false.
        repeat match goal with H : bool_decide _ = false |- _ => apply bool_decide_eq_false in H end. set_solver.
Qed.

Lemma setting_governed a id m evs :
  decide_set_community_member s a id m = Ok evs ->
  governed (SetCommunityMember a id m) (apply_events evs s).
Proof.
  unfold decide_set_community_member. intros H. oks. subst evs.
  eapply governed_change; [exact Hok0| |apply participant_event_quiet|].
  - by rewrite append_community_audit_conversation, drop_subscription_conversation.
  - intros -> ->. apply (stored_member m).
    + by rewrite append_community_audit_members, drop_subscription_members.
    + apply require_community_admin_ok in Hok2.
      apply governs_setting; [done|done|]. intros Howner.
      apply andb_false_iff in Hok1 as [Hok1|Hok1]; [|by destruct (is_community_owner k a)].
      exfalso. apply orb_false_iff in Hok1 as [H1 H2]. unfold is_community_owner in Howner.
      destruct Howner as [Ho|Ho]; [congruence|]. unfold has_status in H2. rewrite Ho in H2. discriminate H2.
Qed.

Lemma approval_governed a id r t evs :
  decide_respond_join s a id r true t = Ok evs ->
  governed (RespondCommunityJoin a id r true t) (apply_events evs s).
Proof.
  unfold decide_respond_join. intros H. oks. subst evs.
  unfold approve_join in *. oks. subst.
  eapply governed_change; [exact Hok|done| |].
  - simpl. case_match; [|done]. match goal with |- context [?o ≫= participant_for_community_member] =>
      by destruct (o ≫= participant_for_community_member) end.
  - intros -> ->.
    destruct (known_community _ Hwf _ _ Hok) as (_ & [Hkeyed _] & _).
    match goal with Hr : cs_pending_join_requests _ !! _ = Some ?x |- _ =>
      pose proof (ck_requests _ Hkeyed _ _ Hr) as Hjr; subst r; rename x into request end.
    apply (stored_member (joined_member a t request)); [done|]. by apply governs_approval.
Qed.

Lemma participant_governed id p evs :
  decide_set_conversation_participant s id p = Ok evs ->
  governed (SetConversationParticipant id p) (apply_events evs s).
Proof.
  unfold decide_set_conversation_participant. intros H. oks.
  destruct (is_group_or_channel _); oks; subst evs; [|by apply governed_quiet].
  eapply governed_change; [eassumption|done|done|].
  intros -> -> x. fields. destruct (decide (participant_actor_id p = x)) as [<-|Hne].
  - right. rewrite lookup_insert_eq. by apply governs_participant.
  - left. by rewrite lookup_insert_ne.
Qed.

Lemma removal_governed id a evs :
  decide_remove_conversation_participant s id a = Ok evs ->
  governed (RemoveConversationParticipant id a) (apply_events evs s).
Proof.
  unfold decide_remove_conversation_participant. intros H. oks.
  destruct (is_group_or_channel _); oks; subst evs; [|by apply governed_quiet].
  eapply governed_change; [eassumption|done|done|].
  intros -> -> x. fields. destruct (decide (a = x)) as [<-|Hne].
  - right. rewrite lookup_alter_eq. apply governs_removal.
  - left. by rewrite lookup_alter_ne.
Qed.

Lemma community_change_governed c id k0 k1 :
  require_community s id = Ok k0 -> cs_conversation_id k1 = cs_conversation_id k0 ->
  cs_members k1 = cs_members k0 -> governed c (apply_events [CommunityChanged k1] s).
Proof.
  intros Hk0 Hid Hm. eapply governed_change; [exact Hk0|exact Hid|done|]. intros -> -> a. left. by rewrite Hm.
Qed.
Lemma update_governed a k1 evs :
  decide_update_community s a k1 = Ok evs -> governed (UpdateCommunity a k1) (apply_events evs s).
Proof.
  unfold decide_update_community. intros H. oks.
  destruct (st_communities s !! cs_conversation_id k1) as [k0|] eqn:Hk0; oks; subst evs.
  - apply community_change_governed with (cs_conversation_id k1) k0; [|simpl|done].
    + by apply ok_or_ok.
    + symmetry. by apply (sw_communities _ Hwf _ _ Hk0).
  - exists k. cbn [apply_events foldl apply_event]. split; [|auto]. fields.
    rewrite lookup_insert_ne; [exact Hk|]. intros Heq. change (cs_conversation_id k1 = cid) in Heq. congruence.
Qed.

Lemma subscribe_members c a t c' : subscribe_channel c a t = Ok c' -> cs_members c' = cs_members c.
Proof. unfold subscribe_channel. intros H. oks. subst. by case_match. Qed.

Lemma unsubscribe_members c a c' : unsubscribe_channel c a = Ok c' -> cs_members c' = cs_members c.
Proof. unfold unsubscribe_channel. intros H. oks. by subst. Qed.

Lemma revoke_invite_members c i c' : revoke_invite c i = Ok c' -> cs_members c' = cs_members c.
Proof. unfold revoke_invite. intros H. oks. by subst. Qed.

End governance.

Section guarded.
Context `{U : UnicodeCase, D : StrDebug}.

(** C29: Community membership is governed.  In a coherent state, no accepted
    command makes a community disappear, and each membership either stays as it
    was or changes by one of the rules of [governs]: moderation by a member who
    may ban, never of oneself, an administrator or an owner and never into
    office; an administrator's change within the rights it takes, owners being
    made or unmade by owners only; an approved join request; or the
    participant commands. *)
Theorem community_membership_is_governed (s s' : MessagingState) (c : Command) (evs : list Event)
    (cid : ConversationId) (k : CommunityState) :
  state_wf s -> st_communities s !! cid = Some k -> execute s c = (s', Ok evs) ->
  exists k', st_communities s' !! cid = Some k'
    /\ forall a, cs_members k' !! a = cs_members k !! a \/ governs k cid a c (cs_members k' !! a).
Proof.
  intros Hwf Hk [Hd ->]%execute_decided. change (governed cid k c (apply_events evs s)).
  destruct (forallb (fun e => negb (changes_community e)) evs) eqn:Hevs; [by apply governed_quiet|].
  pose proof (decide_event_of _ _ _ Hd) as Hof.
  destruct c; try (exfalso; clear -Hof Hevs; induction evs as [|[] evs IH]; simpl in *; try done; auto; fail);
    cbn [decide_command] in Hd.
  - by eapply participant_governed.
  - by eapply removal_governed.
  - by eapply update_governed.
  - unfold decide_subscribe_channel in Hd. oks. subst evs. eapply community_change_governed; [eassumption..| |];
      case_match; rewrite ?append_community_audit_conversation, ?append_community_audit_members;
      eauto using subscribe_channel_conversation, subscribe_members.
  - unfold decide_unsubscribe_channel in Hd. oks. subst evs. eapply community_change_governed; [eassumption..| |];
      case_match; rewrite ?append_community_audit_conversation, ?append_community_audit_members;
      eauto using unsubscribe_channel_conversation, unsubscribe_members.
  - unfold decide_set_slow_mode in Hd. oks. subst evs. by eapply community_change_governed.
  - by eapply moderation_governed.
  - by eapply setting_governed.
  - unfold decide_create_invite_link in Hd. oks. subst evs. by eapply community_change_governed.
  - unfold decide_revoke_invite_link in Hd. oks. subst evs. eapply community_change_governed; [eassumption..| |];
      rewrite ?append_community_audit_conversation, ?append_community_audit_members;
      eauto using revoke_invite_conversation, revoke_invite_members.
  - unfold decide_request_join in Hd. oks. subst evs. by eapply community_change_governed.
  - destruct approved; [by eapply approval_governed|].
    unfold decide_respond_join in Hd. oks. subst. by eapply community_change_governed.
  - unfold decide_upsert_forum_topic in Hd. oks. subst evs. by eapply community_change_governed.
  - unfold decide_delete_forum_topic in Hd. oks. subst evs. by eapply community_change_governed.
Qed.
End guarded.

(** ** Witnesses *)

Definition member_of (id : ActorId) (status : MemberStatus) : CommunityMember := {|
  cm_actor_id := id; cm_status := status; cm_admin_title := None; cm_admin_rights := default_admin_rights;
  cm_restrictions := default_restrictions; cm_joined_at_ms := 0; cm_invited_by := None |}.

Lemma community_membership_is_governed_witness :
  exists k k', st_communities demo !! lobby = Some k
    /\ st_communities (fst (execute demo (ModerateCommunityMember ann lobby (member_of ben StBanned) None 5)))
         !! lobby = Some k'
    /\ cs_members k' !! ben = Some (member_of ben StBanned)
    /\ governs k lobby ben (ModerateCommunityMember ann lobby (member_of ben StBanned) None 5)
         (cs_members k' !! ben).
Proof.
  destruct (execute_ok demo (ModerateCommunityMember ann lobby (member_of ben StBanned) None 5))
    as [evs Hex]; [vm_compute; reflexivity|].
  destruct (st_communities demo !! lobby) as [k|] eqn:Hk; [|vm_compute in Hk; discriminate Hk].
  destruct (community_membership_is_governed _ _ _ _ _ k demo_wf Hk Hex) as (k' & Hk' & Hall).
  exists k, k'. split; [reflexivity|]. split; [exact Hk'|].
  assert (cs_members k' !! ben = Some (member_of ben StBanned)) as Hben
    by (vm_compute in Hk'; injection Hk' as <-; vm_compute; reflexivity).
  split; [exact Hben|]. destruct (Hall ben) as [Hsame|Hg]; [|exact Hg].
  exfalso. rewrite Hben in Hsame. vm_compute in Hk. injection Hk as <-. vm_compute in Hsame. discriminate Hsame.
Defined.

Definition public_lobby : CommunityState := (community_new lobby) ⟪ cs_public_username := Some "lobby" ⟫.

(** Approving a join request overwrites the membership the requester already has:
    an owner who files a request, and has it approved, is owner no more. *)
Lemma approved_request_demotes_owner :
  let s := run [UpdateCommunity ann public_lobby;
    RequestCommunityJoin ann {| jr_conversation_id := lobby; jr_actor_id := ann; jr_invite_link_id := None;
      jr_bio := None; jr_requested_at_ms := 3 |};
    RespondCommunityJoin ann lobby ann true 4] demo in
  (fun k => cm_status <$> cs_members k !! ann) <$> st_communities demo !! lobby = Some (Some StOwner)
  /\ (fun k => cm_status <$> cs_members k !! ann) <$> st_communities s !! lobby = Some (Some StMember).
Proof. vm_compute. split; reflexivity. Qed.

(** So is one who was restricted restored to plain membership. *)
Lemma approved_request_lifts_restriction :
  let s0 := run [UpdateCommunity ann public_lobby;
    ModerateCommunityMember ann lobby (member_of ben StRestricted) None 2] demo in
  let s := run [RequestCommunityJoin ben {| jr_conversation_id := lobby; jr_actor_id := ben;
      jr_invite_link_id := None; jr_bio := None; jr_requested_at_ms := 3 |};
    RespondCommunityJoin ann lobby ben true 4] s0 in
  (fun k => cm_status <$> cs_members k !! ben) <$> st_communities s0 !! lobby = Some (Some StRestricted)
  /\ (fun k => cm_status <$> cs_members k !! ben) <$> st_communities s !! lobby = Some (Some StMember).
Proof. vm_compute. split; reflexivity. Qed.
