(* ===== verification/EngineRetention.v ===== *)
(** * Retention updates are serialised, and poll votes are counted *)

From S2P Require Import Prelude Text Maps Conversation SecretChat Message Payment Wallet Apps Community EngineTypes EngineCore EngineConversation EngineMessage EngineCommerce EngineCommunity EngineApp EngineApply Engine EngineInvariant EngineMoney EngineDemo EngineMessaging.

(** ** Retention *)

Definition retention_of (c : Conversation) : option Z * Z :=
  (conv_message_retention_seconds c, conv_retention_revision c).

(** The retention of a conversation that is stored. *)
Definition stored_retention (s : MessagingState) (id : ConversationId) : option (option Z * Z) :=
  retention_of <$> st_conversations s !! id.

Definition sets_retention (e : Event) : bool :=
  match e with ConversationUpserted _ | ConversationMessageRetentionUpdated _ _ => true | _ => false end.

Lemma with_conversation_retention id f s cid :
  (forall c, retention_of (f c) = retention_of c) ->
  stored_retention (with_conversation id f s) cid = stored_retention s cid.
Proof.
  intros Hf. unfold stored_retention, with_conversation. fields. rewrite lookup_alter.
  case_decide; [subst|done]. destruct (st_conversations s !! cid); [|done]. simpl. by rewrite Hf.
Qed.

Lemma apply_event_retention e s cid :
  sets_retention e = false -> stored_retention (apply_event e s) cid = stored_retention s cid.
Proof.
  intros He. destruct e; try discriminate He; simpl; try done;
    try (by apply (with_conversation_retention _ _ s)).
  - unfold apply_draft_changed. by case_match.
  - unfold stored_retention, apply_folder_deleted. fields. rewrite lookup_fmap.
    by destruct (st_conversations s !! cid).
  - unfold apply_message_queued, touch_topic.
    case_match; by apply (with_conversation_retention (msg_conversation_id message) _ s).
  - unfold apply_message_acknowledged.
    etransitivity; [apply with_conversation_retention; intros c; by case_match|done].
  - unfold apply_messages_deleted. clear He. revert s. induction message_ids as [|i ids IH]; intros s; simpl; [done|].
    by rewrite IH.
  - unfold apply_topic_draft_changed. by case_match.
Qed.

Lemma apply_events_retention evs s cid :
  forallb (fun e => negb (sets_retention e)) evs = true ->
  stored_retention (apply_events evs s) cid = stored_retention s cid.
Proof.
  revert s. induction evs as [|e evs IH]; intros s He; [done|].
  simpl in He. rewrite andb_true_iff, negb_true_iff in He. destruct He as [He Hrest].
  change (apply_events (e :: evs) s) with (apply_events evs (apply_event e s)).
  rewrite IH by done. by apply apply_event_retention.
Qed.

Section retention.
Context `{U : UnicodeCase, D : StrDebug}.

Lemma set_retention_decided s id seconds expected evs :
  decide_set_message_retention s id seconds expected = Ok evs ->
  exists c r, st_conversations s !! id = Some c /\ conv_retention_revision c = expected
    /\ evs = [ConversationMessageRetentionUpdated id r] /\ retention_revision r = expected + 1
    /\ policy_seconds <$> retention_policy r = seconds /\ seconds <> Some 0.
Proof.
  unfold decide_set_message_retention. intros H. oks. subst evs. apply require_conversation_ok in Hok.
  eexists _, _. split; [exact Hok|].
  match goal with H : retention_change _ _ _ = Ok _ |- _ =>
    apply retention_change_ok in H as (Hrev & Hnext & Hpol) end.
  unfold conversation_retention in *. oks. subst. simpl in *.
  split_and!; try done.
  - destruct Hpol as [[-> ->]|(n & -> & Hn & ->)]; done.
  - destruct Hpol as [[_ ->]|(n & -> & Hn & _)]; congruence.
Qed.

Lemma retention_updated_stored id r s cid :
  stored_retention (apply_event (ConversationMessageRetentionUpdated id r) s) cid =
    if decide (id = cid) then (fun _ => (policy_seconds <$> retention_policy r, retention_revision r)) <$> stored_retention s cid
    else stored_retention s cid.
Proof.
  simpl. unfold stored_retention, apply_retention_updated, with_conversation. fields. rewrite lookup_alter.
  case_decide; [subst|done]. by destruct (st_conversations s !! cid).
Qed.

Definition upserts (c : Command) : bool := match c with UpsertConversation _ => true | _ => false end.

(** The retention revision never decreases, and a retention period is never zero. *)
Lemma execute_retention s c cid seconds revision :
  upserts c = false -> stored_retention s cid = Some (seconds, revision) -> seconds <> Some 0 ->
  exists seconds' revision', stored_retention (fst (execute s c)) cid = Some (seconds', revision')
    /\ revision <= revision' /\ seconds' <> Some 0.
Proof.
  intros Hc Hs Hz. destruct (execute s c) as [s' [evs|err]] eqn:H; simpl.
  2: { unfold execute in H. destruct (decide_command s c); simplify_eq. eauto with lia. }
  apply execute_decided in H as [Hd ->].
  destruct (forallb (fun e => negb (sets_retention e)) evs) eqn:He.
  { rewrite apply_events_retention by done. eauto with lia. }
  pose proof (decide_event_of _ _ _ Hd) as Hof.
  destruct c; try discriminate Hc;
    try (exfalso; clear -Hof He; induction evs as [|[] evs IH]; simpl in *; try done; auto; fail).
  cbn [decide_command] in Hd. apply set_retention_decided in Hd as (c & r & Hcv & Hrev & -> & Hnext & Hsec & Hz').
  cbn [apply_events foldl]. rewrite retention_updated_stored. case_decide; [subst conversation_id|eauto with lia].
  rewrite Hs. simpl. eexists _, _. split; [done|].
  unfold stored_retention in Hs. rewrite Hcv in Hs. unfold retention_of in Hs. simpl in Hs. injection Hs as _ Hr.
  rewrite Hsec. split; [lia|done].
Qed.

Lemma run_retention commands s cid seconds revision :
  forallb (fun c => negb (upserts c)) commands = true ->
  stored_retention s cid = Some (seconds, revision) -> seconds <> Some 0 ->
  exists seconds' revision', stored_retention (run commands s) cid = Some (seconds', revision')
    /\ revision <= revision' /\ seconds' <> Some 0.
Proof.
  revert s seconds revision. induction commands as [|c commands IH]; intros s seconds revision Hall Hs Hz.
  { exists seconds, revision. split_and!; [done|lia|done]. }
  simpl in Hall. rewrite andb_true_iff, negb_true_iff in Hall. destruct Hall as [Hc Hrest].
  destruct (execute_retention s c cid _ _ Hc Hs Hz) as (x & r & Hx & Hr & Hxz).
  destruct (IH _ _ _ Hrest Hx Hxz) as (y & r' & Hy & Hr' & Hyz).
  exists y, r'. split_and!; [exact Hy|lia|exact Hyz].
Qed.

Lemma set_retention_refused s id n expected seconds revision :
  stored_retention s id = Some (seconds, revision) -> seconds <> Some 0 -> n <> Some 0 -> revision <> expected ->
  execute s (SetConversationMessageRetention id n expected)
    = (s, Err (EMessageRetention (StaleRevision expected revision))).
Proof.
  unfold stored_retention. intros Hs Hz Hn Hne. destruct (st_conversations s !! id) as [c|] eqn:Hc; [|done].
  unfold retention_of in Hs. simpl in Hs. injection Hs as Hsec Hrev.
  unfold execute. cbn [decide_command]. unfold decide_set_message_retention, require_conversation. rewrite Hc. simpl.
  unfold conversation_retention. rewrite Hsec.
  assert (forall o : option Z, o <> Some 0 ->
    exists p, transpose (retention_policy_new <$> o) = Ok p) as Hpol.
  { intros [z|] Ho; simpl; [|eauto]. unfold retention_policy_new. destruct (Z.eqb_spec z 0); [congruence|]. eauto. }
  destruct (Hpol seconds Hz) as [p Hp]. rewrite Hp. simpl.
  unfold retention_change. destruct (Hpol n Hn) as [q Hq]. rewrite Hq. simpl.
  unfold next_retention_revision. rewrite Hrev. by rewrite (proj2 (Z.eqb_neq _ _)) by done.
Qed.

(** Retention updates are serialised.  An accepted change of a conversation's
    retention is one made against its current revision; it stores the requested
    period and the next revision.  Whatever commands follow, as long as no
    conversation is replaced, a later change that still expects the old revision
    is refused as stale, with the actual revision, and changes nothing: of several
    clients that read the same revision, one wins. *)
Theorem retention_updates_are_serialised (s s' : MessagingState) (id : ConversationId) (seconds : option Z)
    (expected : Z) (evs : list Event) :
  execute s (SetConversationMessageRetention id seconds expected) = (s', Ok evs) ->
  (exists current, stored_retention s id = Some (current, expected))
  /\ stored_retention s' id = Some (seconds, expected + 1)
  /\ forall (commands : list Command) (later : option Z),
       forallb (fun c => negb (upserts c)) commands = true -> later <> Some 0 ->
       exists actual, expected < actual
         /\ execute (run commands s') (SetConversationMessageRetention id later expected)
            = (run commands s', Err (EMessageRetention (StaleRevision expected actual))).
Proof.
  intros [Hd ->]%execute_decided. cbn [decide_command] in Hd.
  apply set_retention_decided in Hd as (c & r & Hc & Hrev & -> & Hnext & Hsec & Hz).
  assert (stored_retention s id = Some (conv_message_retention_seconds c, expected)) as Hs
    by (unfold stored_retention, retention_of; rewrite Hc; simpl; by rewrite Hrev).
  assert (stored_retention (apply_events [ConversationMessageRetentionUpdated id r] s) id
    = Some (seconds, expected + 1)) as Hs'.
  { cbn [apply_events foldl]. rewrite retention_updated_stored, decide_True by done. rewrite Hs. simpl. congruence. }
  split; [eauto|]. split; [exact Hs'|]. intros commands later Hall Hlater.
  destruct (run_retention commands _ _ _ _ Hall Hs' Hz) as (x & actual & Hx & Hge & Hxz).
  exists actual. split; [lia|]. apply set_retention_refused with x; [done..|lia].
Qed.
End retention.

(** ** Poll votes *)

(** Filtering the values of a table counts its entries. *)
Lemma filtered_values {K V : Type} `{Countable K, !BTreeKey K} (P : V -> Prop) `{forall v, Decision (P v)} (m : gmap K V) :
  length (filter P (btree_values m)) = size (filter (fun kv => P (snd kv)) m).
Proof.
  assert (length (filter P (btree_values m)) = length (filter P (map_to_list m).*2)) as ->
    by (by rewrite btree_values_perm).
  induction m as [|k v m Hk IH] using map_ind; [done|].
  assert (length (filter P (map_to_list (<[k := v]> m)).*2) = length (filter P (v :: (map_to_list m).*2))) as ->
    by (by rewrite map_to_list_insert by done).
  rewrite filter_cons. destruct (decide (P v)) as [Hp|Hp].
  - rewrite map_filter_insert_True by done. rewrite map_size_insert_None; [simpl; congruence|].
    apply map_lookup_filter_None. by left.
  - rewrite map_filter_insert_False by done. rewrite delete_id by done. exact IH.
Qed.

(** The actors whose recorded vote contains an option. *)
Definition voters (votes : gmap ActorId (gset string)) (id : string) : gmap ActorId (gset string) :=
  filter (fun kv => id ∈ snd kv) votes.

Definition tallied (votes : gmap ActorId (gset string)) (o : PollOption) : PollOption :=
  o ⟪ option_voter_count := Z.min u32_max (Z.of_nat (size (voters votes (option_id o)))) ⟫
    ⟪ option_chosen := false ⟫.

Lemma tally_poll votes question options anonymous multiple quiz :
  tally votes (ContentPoll question options anonymous multiple quiz)
  = ContentPoll question (tallied votes <$> options) anonymous multiple quiz.
Proof.
  simpl. f_equal. apply list_fmap_ext. intros i o _. unfold count_votes, tallied, voters. by rewrite filtered_values.
Qed.

Lemma put_or_remove_lookup {K V : Type} `{Countable K} (e : V -> bool) (k j : K) (v : V) (m : gmap K V) :
  put_or_remove e k v m !! j = if decide (k = j) then (if e v then None else Some v) else m !! j.
Proof.
  unfold put_or_remove. destruct (e v); case_decide; subst;
    rewrite ?lookup_delete_eq, ?lookup_insert_eq, ?lookup_delete_ne, ?lookup_insert_ne by done; done.
Qed.

Lemma votes_on_after id mid a picks s cid mid' :
  votes_on (apply_poll_vote id mid a picks s) cid mid' =
    if decide (id = cid /\ mid = mid')
    then put_or_remove set_is_empty a (list_to_set picks) (votes_on s id mid) else votes_on s cid mid'.
Proof.
  unfold votes_on at 1, apply_poll_vote, with_message. fields.
  destruct (decide (id = cid)) as [<-|Hc].
  - rewrite entry_or_same. simpl. rewrite lookup_insert. destruct (decide (mid = mid')) as [<-|Hm].
    + rewrite decide_True by done. done.
    + rewrite decide_False by naive_solver. unfold votes_on. destruct (st_poll_votes s !! id); [done|].
      simpl. by rewrite lookup_empty.
  - rewrite entry_or_other by done. by rewrite decide_False by naive_solver.
Qed.

Section polls.
Context `{U : UnicodeCase, D : StrDebug}.

Lemma vote_poll_decided s cid mid a picks evs :
  decide_vote_poll s cid mid a picks = Ok evs ->
  exists m question options anonymous multiple quiz,
    find_message s cid mid = Some m /\ msg_content m = ContentPoll question options anonymous multiple quiz
    /\ (forall id, id ∈ picks -> id ∈ option_id <$> options)
    /\ (multiple = false -> forall x y, x ∈ picks -> y ∈ picks -> x = y)
    /\ evs = [PollVoteChanged cid mid a (btree_elements (list_to_set picks : gset string))].
Proof.
  unfold decide_vote_poll, require_message. intros H. oks.
  destruct (msg_content _) eqn:Hm; try discriminate H.
  oks. subst evs. eexists _, _, _, _, _, _. split; [eassumption|]. split; [exact Hm|]. split_and!; [| |done].
  - intros id Hid. match goal with H : existsb _ _ = false |- _ => rename H into He end.
    destruct (decide (id ∈ option_id <$> options)) as [|Hn]; [done|]. exfalso.
    apply not_true_iff_false in He. apply He.
    apply existsb_exists. exists id. split.
    + apply list_elem_of_In, elem_of_btree_elements. by apply elem_of_list_to_set.
    + rewrite bool_decide_false; [done|]. by rewrite elem_of_list_to_set.
  - intros -> x y Hx Hy. match goal with H : negb false && _ = false |- _ => rename H into Hs end.
    simpl in Hs. apply Z.ltb_ge in Hs.
    apply (size_singleton_inv (list_to_set picks : gset string)); [|set_solver..].
    assert (size (list_to_set picks : gset string) <> 0%nat); [|lia].
    intros Hz%size_empty_inv. set_solver.
Qed.

(** Poll votes are counted.  An accepted vote names options of the poll, at
    most one where the poll takes a single answer; afterwards it is the vote on
    record for its actor (no record if it names no option), the votes of everyone
    else are as before, the message is the same poll with each option's voter
    count equal to the number of actors whose recorded vote contains it (up to
    the 32-bit limit), and nothing else about the message changed. *)
Theorem poll_votes_are_counted (s s' : MessagingState) (cid : ConversationId) (mid : MessageId) (a : ActorId)
    (picks : list string) (evs : list Event) :
  execute s (VotePoll cid mid a picks) = (s', Ok evs) ->
  exists m question options anonymous multiple quiz,
    find_message s cid mid = Some m /\ msg_content m = ContentPoll question options anonymous multiple quiz
    /\ (forall id, id ∈ picks -> id ∈ option_id <$> options)
    /\ (multiple = false -> forall x y, x ∈ picks -> y ∈ picks -> x = y)
    /\ votes_on s' cid mid !! a = (if picks then None else Some (list_to_set picks))
    /\ (forall b, b <> a -> votes_on s' cid mid !! b = votes_on s cid mid !! b)
    /\ find_message s' cid mid
       = Some (m ⟪ msg_content :=
           ContentPoll question (tallied (votes_on s' cid mid) <$> options) anonymous multiple quiz ⟫).
Proof.
  intros [Hd ->]%execute_decided. cbn [decide_command] in Hd.
  apply vote_poll_decided in Hd as (m & q & os & an & mu & qu & Hm & Hc & Hin & Hone & ->).
  cbn [apply_events foldl apply_event]. rewrite votes_on_after, decide_True by done.
  set (votes := put_or_remove _ _ _ _).
  assert (list_to_set (btree_elements (list_to_set picks : gset string)) = (list_to_set picks : gset string)) as Hset.
  { apply set_eq. intros x. by rewrite elem_of_list_to_set, elem_of_btree_elements. }
  exists m, q, os, an, mu, qu. split_and!; try done.
  - subst votes. rewrite Hset, put_or_remove_lookup, decide_True by done. unfold set_is_empty.
    destruct picks as [|p ps]; [by rewrite bool_decide_true|].
    rewrite bool_decide_false; [done|]. set_solver.
  - intros b Hb. subst votes. by rewrite put_or_remove_lookup, decide_False by done.
  - unfold apply_poll_vote. rewrite find_with_message, decide_True by done.
    assert (forall f, find_message (s ⟪ st_poll_votes ::= f ⟫) cid mid = find_message s cid mid) as -> by done.
    rewrite Hm. simpl. f_equal. unfold field_update. fields. rewrite Hc.
    f_equal. fold votes. by rewrite tally_poll.
Qed.
End polls.

(** ** Witnesses *)

Lemma retention_updates_are_serialised_witness :
  exists actual, 0 < actual
    /\ execute (run [greet "m1" ben 5; SetConversationMessageRetention lobby None 1]
           (fst (execute demo (SetConversationMessageRetention lobby (Some 60) 0))))
         (SetConversationMessageRetention lobby (Some 9) 0)
       = (run [greet "m1" ben 5; SetConversationMessageRetention lobby None 1]
            (fst (execute demo (SetConversationMessageRetention lobby (Some 60) 0))),
          Err (EMessageRetention (StaleRevision 0 actual))).
Proof.
  destruct (execute_ok demo (SetConversationMessageRetention lobby (Some 60) 0)) as [evs Hex];
    [vm_compute; reflexivity|].
  destruct (retention_updates_are_serialised _ _ _ _ _ _ Hex) as (_ & _ & Hlater).
  apply Hlater; [reflexivity|discriminate].
Defined.

Definition choice (id : string) : PollOption := {|
  option_id := id; option_text := id; option_voter_count := 0; option_chosen := false; option_correct := None |}.

(** The lobby with a poll of two options, on which [ann] has voted. *)
Definition polled_lobby : MessagingState :=
  run [ QueueMessage lobby (MkMessageId "p") (MkClientMessageId "p") ann
          (ContentPoll (plain "tea?") [choice "yes"; choice "no"] false false false) None None 5 None false false;
        VotePoll lobby (MkMessageId "p") ann ["yes"] ] demo.

Lemma poll_votes_are_counted_witness :
  (forall id, id ∈ ["yes"] -> id ∈ option_id <$> [choice "yes"; choice "no"])
  /\ match msg_content <$> find_message (fst (execute polled_lobby (VotePoll lobby (MkMessageId "p") ben ["yes"])))
             lobby (MkMessageId "p") with
     | Some (ContentPoll _ options _ _ _) => option_voter_count <$> options = [2; 0]
     | _ => False
     end.
Proof.
  destruct (execute_ok polled_lobby (VotePoll lobby (MkMessageId "p") ben ["yes"])) as [evs Hex];
    [vm_compute; reflexivity|].
  destruct (poll_votes_are_counted _ _ _ _ _ _ _ Hex) as (m & q & os & an & mu & qu & Hm & Hc & Hin & _ & _ & _ & Hm').
  split.
  - assert (option_id <$> os = ["yes"; "no"]) as Hos
      by (vm_compute in Hm; injection Hm as <-; cbn in Hc; injection Hc as _ <- _ _ _; reflexivity).
    intros id Hid. specialize (Hin id Hid). rewrite Hos in Hin. exact Hin.
  - rewrite Hm'. cbn [fmap option_fmap option_map msg_content field_update].
    vm_compute in Hm. injection Hm as <-. cbn in Hc. injection Hc as _ <- _ _ _. vm_compute. reflexivity.
Defined.

(** A conversation stored with a retention of zero seconds cannot be posted to,
    and its retention cannot be changed any more. *)
Lemma zero_retention_locks_conversation :
  let s := fst (execute demo (UpsertConversation
             ((room_of "side" Direct) ⟪ conv_message_retention_seconds := Some 0 ⟫))) in
  let side := MkConversationId "side" in
  snd (execute s (SetConversationMessageRetention side None 0)) = Err (EMessageRetention ZeroSeconds)
  /\ snd (execute s (QueueMessage side (MkMessageId "m") (MkClientMessageId "m") ann (ContentText (plain "hi"))
            None None 5 None false false)) = Err (EMessageRetention ZeroSeconds).
Proof. vm_compute. split; reflexivity. Qed.
