(* ===== verification/Tl.v ===== *)
(** * The TL wire format ([telegram-protocol/src/tl.rs]): writer and reader *)

From S2P Require Import Prelude Text Maps Bytes.

Definition VECTOR_CONSTRUCTOR : Z := 0x1cb5c415.
Definition BOOL_TRUE_CONSTRUCTOR : Z := 0x997275b5.
Definition BOOL_FALSE_CONSTRUCTOR : Z := 0xbc799737.
Definition SHORT_BYTES_LIMIT : Z := 254.
Definition DEFAULT_MAX_BYTES : Z := 64 * 1024 * 1024.
Definition DEFAULT_MAX_VECTOR_LENGTH : Z := 1000000.

Inductive TlError :=
| UnexpectedEof (offset needed : Z)
| InvalidBytesPrefix
| BytesLengthLimit (length maximum : Z)
| VectorLengthLimit (length maximum : Z)
| NegativeVectorLength (length : Z)
| UnexpectedConstructor (expected actual : Z)
| InvalidBoolConstructor (constructor : Z)
| TlLengthOutOfRange
| InvalidUtf8 (offset : Z).

Definition padding_length (length : Z) : Z := (4 - length mod 4) mod 4.

(** ** The writer: the bytes written so far *)

Record TlWriter := { w_bytes : list ascii }.

Definition writer_new : TlWriter := {| w_bytes := [] |}.

(** [extend_from_slice] *)
Definition put (bytes : list ascii) (w : TlWriter) : TlWriter := {| w_bytes := (w_bytes w ++ bytes)%list |}.

Definition write_i32 (value : Z) (w : TlWriter) : TlWriter := put (le_bytes 4 value) w.
Definition write_u32 (value : Z) (w : TlWriter) : TlWriter := put (le_bytes 4 value) w.
Definition write_i64 (value : Z) (w : TlWriter) : TlWriter := put (le_bytes 8 value) w.
Definition write_u64 (value : Z) (w : TlWriter) : TlWriter := put (le_bytes 8 value) w.
(** A float is its 64 bits. *)
Definition write_f64 (bits : Z) (w : TlWriter) : TlWriter := put (le_bytes 8 bits) w.
Definition write_i128_bytes (value : list ascii) (w : TlWriter) : TlWriter := put value w.
Definition write_i256_bytes (value : list ascii) (w : TlWriter) : TlWriter := put value w.
Definition write_bool (value : bool) (w : TlWriter) : TlWriter :=
  write_u32 (if value then BOOL_TRUE_CONSTRUCTOR else BOOL_FALSE_CONSTRUCTOR) w.

Definition write_bytes (value : list ascii) (w : TlWriter) : TlWriter * result TlError unit :=
  let len := Z.of_nat (length value) in
  if len <? SHORT_BYTES_LIMIT then
    (put (replicate (Z.to_nat (padding_length (1 + len))) zero)
       (put value (put [byte_of len] w)), Ok tt)
  else if 0x00ffffff <? len then (w, Err TlLengthOutOfRange)
  else
    (put (replicate (Z.to_nat (padding_length (4 + len))) zero)
       (put value
          (put [byte_of 254; byte_of (Z.land len 0xff); byte_of (Z.land (Z.shiftr len 8) 0xff);
                byte_of (Z.land (Z.shiftr len 16) 0xff)] w)), Ok tt).

Definition write_string (value : string) (w : TlWriter) : TlWriter * result TlError unit :=
  write_bytes (bytes_of value) w.

Definition write_vector_length (length : Z) (w : TlWriter) : TlWriter * result TlError unit :=
  if 2 ^ 31 - 1 <? length then (w, Err TlLengthOutOfRange)
  else (write_i32 length (write_u32 VECTOR_CONSTRUCTOR w), Ok tt).

(** ** The reader *)

Record TlReader := {
  r_input : list ascii;
  r_offset : Z;
  r_max_bytes : Z;
  r_max_vector_length : Z;
}.
#[export] Instance eta_TlReader : Eta TlReader := fun r =>
  Build_TlReader (r_input r) (r_offset r) (r_max_bytes r) (r_max_vector_length r).

Definition reader_new (input : list ascii) : TlReader :=
  {| r_input := input; r_offset := 0; r_max_bytes := DEFAULT_MAX_BYTES;
     r_max_vector_length := DEFAULT_MAX_VECTOR_LENGTH |}.

Definition reader_with_limits (input : list ascii) (max_bytes max_vector_length : Z) : TlReader :=
  {| r_input := input; r_offset := 0; r_max_bytes := max_bytes; r_max_vector_length := max_vector_length |}.

(** A method of the reader, or a parser built from them: it moves the reader, and
    answers or fails. *)
Definition TlParser (E A : Type) : Type := TlReader -> TlReader * result E A.
Notation Reader := (TlParser TlError).

#[export] Instance parser_ret E : MRet (TlParser E) := fun A a r => (r, Ok a).
#[export] Instance parser_bind E : MBind (TlParser E) := fun A B f m r =>
  match m r with
  | (r, Ok a) => f a r
  | (r, Err e) => (r, Err e)
  end.
Definition reader_fail {E A : Type} (e : E) : TlParser E A := fun r => (r, Err e).

(** A method that looks at the reader's fields first. *)
Definition with_reader {E A : Type} (f : TlReader -> TlParser E A) : TlParser E A := fun r => f r r.

(** A reader's method in a parser with errors of its own ([#[from] TlError]). *)
Definition lift_tl {E A : Type} (f : TlError -> E) (m : Reader A) : TlParser E A := fun r =>
  let (r, a) := m r in (r, map_err f a).

(** [if c { return Err(e) }] in a parser *)
Definition refuse_if {E : Type} (bad : bool) (e : E) : TlParser E unit :=
  if bad then reader_fail e else mret tt.

Definition position (r : TlReader) : Z := r_offset r.
Definition remaining (r : TlReader) : Z := Z.max 0 (Z.of_nat (length (r_input r)) - r_offset r).
Definition is_finished (r : TlReader) : bool := remaining r =? 0.

(** [TlReader::take] *)
Definition take_bytes (n : Z) : Reader (list ascii) := fun r =>
  match checked_add_u64 (r_offset r) n with
  | None => (r, Err (UnexpectedEof (r_offset r) n))
  | Some stop =>
      match slice (r_input r) (r_offset r) stop with
      | None => (r, Err (UnexpectedEof (r_offset r) (Z.max 0 (stop - Z.of_nat (length (r_input r))))))
      | Some value => (r ⟪ r_offset := stop ⟫, Ok value)
      end
  end.

Definition read_u32 : Reader Z := b ← take_bytes 4; mret (of_le_bytes b).
Definition read_i32 : Reader Z := b ← take_bytes 4; mret (to_signed 32 (of_le_bytes b)).
Definition read_u64 : Reader Z := b ← take_bytes 8; mret (of_le_bytes b).
Definition read_i64 : Reader Z := b ← take_bytes 8; mret (to_signed 64 (of_le_bytes b)).
Definition read_f64 : Reader Z := b ← take_bytes 8; mret (of_le_bytes b).
Definition read_i128_bytes : Reader (list ascii) := take_bytes 16.
Definition read_i256_bytes : Reader (list ascii) := take_bytes 32.

Definition read_bool : Reader bool :=
  constructor ← read_u32;
  if constructor =? BOOL_TRUE_CONSTRUCTOR then mret true
  else if constructor =? BOOL_FALSE_CONSTRUCTOR then mret false
  else reader_fail (InvalidBoolConstructor constructor).

(** The length of a byte string and of its header. *)
Definition read_bytes_header : Reader (Z * Z) :=
  first ← take_bytes 1;
  let prefix := of_le_bytes first in
  if prefix <=? 253 then mret (prefix, 1)
  else if prefix =? 254 then
    l ← take_bytes 3;
    mret (Z.lor (Z.lor (byte_at (nth 0 l zero)) (Z.shiftl (byte_at (nth 1 l zero)) 8))
            (Z.shiftl (byte_at (nth 2 l zero)) 16), 4)
  else reader_fail InvalidBytesPrefix.

Definition read_bytes : Reader (list ascii) :=
  header ← read_bytes_header;
  let (length, header_length) := (header : Z * Z) in
  with_reader (fun r =>
    if r_max_bytes r <? length then reader_fail (BytesLengthLimit length (r_max_bytes r))
    else value ← take_bytes length; take_bytes (padding_length (header_length + length)) ;; mret value).

(** [std::str::from_utf8]: the well-formed sequences of UTF-8. *)
Definition cont (lo hi : Z) (a : ascii) : bool := (lo <=? byte_at a) && (byte_at a <=? hi).
Fixpoint utf8_valid (l : list ascii) : bool :=
  match l with
  | [] => true
  | a :: l1 =>
      if byte_at a <? 128 then utf8_valid l1
      else match l1 with
      | [] => false
      | b :: l2 =>
          if cont 0xc2 0xdf a then cont 0x80 0xbf b && utf8_valid l2
          else match l2 with
          | [] => false
          | c :: l3 =>
              if cont 0xe0 0xef a then
                cont (if byte_at a =? 0xe0 then 0xa0 else 0x80) (if byte_at a =? 0xed then 0x9f else 0xbf) b
                && cont 0x80 0xbf c && utf8_valid l3
              else match l3 with
              | [] => false
              | d :: l4 =>
                  cont 0xf0 0xf4 a
                  && cont (if byte_at a =? 0xf0 then 0x90 else 0x80) (if byte_at a =? 0xf4 then 0x8f else 0xbf) b
                  && cont 0x80 0xbf c && cont 0x80 0xbf d && utf8_valid l4
              end
          end
      end
  end.

Definition read_string : Reader string :=
  with_reader (fun start =>
    value ← read_bytes;
    if utf8_valid value then mret (string_of value) else reader_fail (InvalidUtf8 (r_offset start))).

Definition read_vector_length : Reader Z :=
  constructor ← read_u32;
  if negb (constructor =? VECTOR_CONSTRUCTOR) then reader_fail (UnexpectedConstructor VECTOR_CONSTRUCTOR constructor)
  else
    length ← read_i32;
    if length <? 0 then reader_fail (NegativeVectorLength length)
    else with_reader (fun r =>
      if r_max_vector_length r <? length then reader_fail (VectorLengthLimit length (r_max_vector_length r))
      else mret length).

(** ** Round trip *)

(** Any value the format carries, and its kind, which the reader has to know. *)
Inductive TlValue :=
| VI32 (z : Z) | VU32 (z : Z) | VI64 (z : Z) | VU64 (z : Z) | VF64 (bits : Z)
| V128 (l : list ascii) | V256 (l : list ascii) | VBool (b : bool)
| VBytes (l : list ascii) | VString (s : string) | VVector (length : Z).

Inductive TlKind := KI32 | KU32 | KI64 | KU64 | KF64 | K128 | K256 | KBool | KBytes | KString | KVector.

Definition kind_of (v : TlValue) : TlKind :=
  match v with
  | VI32 _ => KI32 | VU32 _ => KU32 | VI64 _ => KI64 | VU64 _ => KU64 | VF64 _ => KF64 | V128 _ => K128
  | V256 _ => K256 | VBool _ => KBool | VBytes _ => KBytes | VString _ => KString | VVector _ => KVector
  end.

Definition write_value (v : TlValue) (w : TlWriter) : TlWriter * result TlError unit :=
  match v with
  | VI32 z => (write_i32 z w, Ok tt) | VU32 z => (write_u32 z w, Ok tt)
  | VI64 z => (write_i64 z w, Ok tt) | VU64 z => (write_u64 z w, Ok tt) | VF64 z => (write_f64 z w, Ok tt)
  | V128 l => (write_i128_bytes l w, Ok tt) | V256 l => (write_i256_bytes l w, Ok tt)
  | VBool b => (write_bool b w, Ok tt)
  | VBytes l => write_bytes l w | VString s => write_string s w | VVector n => write_vector_length n w
  end.

Definition read_value (k : TlKind) : Reader TlValue :=
  match k with
  | KI32 => z ← read_i32; mret (VI32 z) | KU32 => z ← read_u32; mret (VU32 z)
  | KI64 => z ← read_i64; mret (VI64 z) | KU64 => z ← read_u64; mret (VU64 z) | KF64 => z ← read_f64; mret (VF64 z)
  | K128 => l ← read_i128_bytes; mret (V128 l) | K256 => l ← read_i256_bytes; mret (V256 l)
  | KBool => b ← read_bool; mret (VBool b)
  | KBytes => l ← read_bytes; mret (VBytes l) | KString => s ← read_string; mret (VString s)
  | KVector => n ← read_vector_length; mret (VVector n)
  end.

Fixpoint write_all (vs : list TlValue) (w : TlWriter) : TlWriter * result TlError unit :=
  match vs with
  | [] => (w, Ok tt)
  | v :: vs => match write_value v w with
               | (w, Ok _) => write_all vs w
               | (w, Err e) => (w, Err e)
               end
  end.

Fixpoint read_all (ks : list TlKind) : Reader (list TlValue) :=
  match ks with
  | [] => mret []
  | k :: ks => v ← read_value k; vs ← read_all ks; mret (v :: vs)
  end.

(** The values Rust's types admit, within the reader's limits. *)
Definition value_ok (max_bytes max_vector_length : Z) (v : TlValue) : Prop :=
  match v with
  | VI32 z => - 2 ^ 31 <= z < 2 ^ 31
  | VU32 z => 0 <= z < 2 ^ 32
  | VI64 z => - 2 ^ 63 <= z < 2 ^ 63
  | VU64 z | VF64 z => 0 <= z < 2 ^ 64
  | V128 l => length l = 16%nat
  | V256 l => length l = 32%nat
  | VBool _ => True
  | VBytes l => Z.of_nat (length l) <= Z.min 0x00ffffff max_bytes
  | VString s => Z.of_nat (length (bytes_of s)) <= Z.min 0x00ffffff max_bytes /\ utf8_valid (bytes_of s) = true
  | VVector n => 0 <= n < 2 ^ 31 /\ n <= max_vector_length
  end.

Section roundtrip.
Variables max_bytes max_vector_length : Z.

(** Wherever the reader stands before [l], reading [l] gives [a] and leaves the
    reader behind [l]. *)
Definition reads {E A : Type} (m : TlParser E A) (l : list ascii) (a : A) : Prop :=
  forall pre rest, Z.of_nat (length (pre ++ l ++ rest)) <= u64_max ->
    m {| r_input := pre ++ l ++ rest; r_offset := Z.of_nat (length pre); r_max_bytes := max_bytes;
         r_max_vector_length := max_vector_length |}
    = ({| r_input := pre ++ l ++ rest; r_offset := Z.of_nat (length (pre ++ l)); r_max_bytes := max_bytes;
          r_max_vector_length := max_vector_length |}, Ok a).

Lemma reads_ret {E A : Type} (a : A) : reads (E := E) (mret a) [] a.
Proof. intros pre rest _. by rewrite app_nil_r. Qed.

Lemma reads_bind {E A B : Type} (m : TlParser E A) (f : A -> TlParser E B) l k a b :
  reads m l a -> reads (f a) k b -> reads (m ≫= f) (l ++ k) b.
Proof.
  intros Hm Hf pre rest Hlen. unfold mbind, parser_bind.
  rewrite <- app_assoc in Hlen |- *. rewrite Hm by done.
  rewrite app_assoc in Hlen |- *. rewrite Hf by done. by rewrite <- !app_assoc.
Qed.

Lemma reads_then_ret {E A B : Type} (m : TlParser E A) (f : A -> B) l a :
  reads m l a -> reads (x ← m; mret (f x)) l (f a).
Proof. intros Hm. rewrite <- (app_nil_r l). eapply reads_bind; [exact Hm|apply reads_ret]. Qed.

Lemma reads_with_reader {E A : Type} (f : TlReader -> TlParser E A) l a :
  (forall r, r_max_bytes r = max_bytes -> r_max_vector_length r = max_vector_length -> reads (f r) l a) ->
  reads (with_reader f) l a.
Proof. intros Hf pre rest Hlen. unfold with_reader. by apply Hf. Qed.

(** A step that reads nothing. *)
Lemma reads_pure {E A B : Type} (m : TlParser E A) (f : A -> TlParser E B) k a b :
  reads m [] a -> reads (f a) k b -> reads (m ≫= f) k b.
Proof. intros Hm Hf. exact (reads_bind m f [] k a b Hm Hf). Qed.

(** A check that passes reads nothing. *)
Lemma reads_refuse {E B : Type} (bad : bool) (e : E) (f : unit -> TlParser E B) k b :
  bad = false -> reads (f tt) k b -> reads (refuse_if bad e ≫= f) k b.
Proof. intros -> Hf pre rest Hlen. exact (Hf pre rest Hlen). Qed.

(** Wherever the reader stands before [l], the answer is [res], an error perhaps. *)
Definition answers {E A : Type} (m : TlParser E A) (l : list ascii) (res : result E A) : Prop :=
  forall pre rest, Z.of_nat (length (pre ++ l ++ rest)) <= u64_max ->
    snd (m {| r_input := pre ++ l ++ rest; r_offset := Z.of_nat (length pre); r_max_bytes := max_bytes;
              r_max_vector_length := max_vector_length |}) = res.

Lemma reads_answers {E A : Type} (m : TlParser E A) l a : reads m l a -> answers m l (Ok a).
Proof. intros Hm pre rest Hlen. by rewrite Hm. Qed.

Lemma answers_bind {E A B : Type} (m : TlParser E A) (f : A -> TlParser E B) l k a res :
  reads m l a -> answers (f a) k res -> answers (m ≫= f) (l ++ k) res.
Proof.
  intros Hm Hf pre rest Hlen. unfold mbind, parser_bind.
  rewrite <- app_assoc in Hlen |- *. rewrite Hm by done. rewrite app_assoc in Hlen |- *. by apply Hf.
Qed.

Lemma reads_take n l : n = Z.of_nat (length l) -> reads (take_bytes n) l l.
Proof.
  intros -> pre rest Hlen. unfold take_bytes. simpl r_offset. rewrite !length_app in Hlen.
  unfold checked_add_u64, checked. rewrite (proj2 (in_u64_spec _)) by lia.
  simpl r_input. rewrite (slice_app pre l rest) by lia. rewrite length_app. unfold field_update. simpl.
  by rewrite Nat2Z.inj_add.
Qed.

Lemma reads_lift {E A : Type} (f : TlError -> E) (m : Reader A) l a : reads m l a -> reads (lift_tl f m) l a.
Proof. intros Hm pre rest Hlen. unfold lift_tl. by rewrite Hm. Qed.

Lemma reads_u32 z : 0 <= z < 2 ^ 32 -> reads read_u32 (le_bytes 4 z) z.
Proof.
  intros Hz. rewrite <- (of_le_bytes_unsigned 4 z) at 2 by exact Hz.
  apply (reads_then_ret (take_bytes 4) of_le_bytes). apply reads_take. by rewrite le_bytes_length.
Qed.

Lemma reads_u64 z : 0 <= z < 2 ^ 64 -> reads read_u64 (le_bytes 8 z) z.
Proof.
  intros Hz. rewrite <- (of_le_bytes_unsigned 8 z) at 2 by exact Hz.
  apply (reads_then_ret (take_bytes 8) of_le_bytes). apply reads_take. by rewrite le_bytes_length.
Qed.

Lemma reads_i32 z : - 2 ^ 31 <= z < 2 ^ 31 -> reads read_i32 (le_bytes 4 z) z.
Proof.
  intros Hz. rewrite <- (to_signed_le_bytes 4 z) at 2 by (lia || exact Hz).
  apply (reads_then_ret (take_bytes 4) (fun b => to_signed 32 (of_le_bytes b))). apply reads_take.
  by rewrite le_bytes_length.
Qed.

Lemma reads_i64 z : - 2 ^ 63 <= z < 2 ^ 63 -> reads read_i64 (le_bytes 8 z) z.
Proof.
  intros Hz. rewrite <- (to_signed_le_bytes 8 z) at 2 by (lia || exact Hz).
  apply (reads_then_ret (take_bytes 8) (fun b => to_signed 64 (of_le_bytes b))). apply reads_take.
  by rewrite le_bytes_length.
Qed.

Lemma reads_bool (b : bool) : reads read_bool (le_bytes 4 (if b then BOOL_TRUE_CONSTRUCTOR else BOOL_FALSE_CONSTRUCTOR)) b.
Proof.
  unfold read_bool. rewrite <- (app_nil_r (le_bytes _ _)).
  eapply reads_bind; [apply reads_u32; destruct b; unfold BOOL_TRUE_CONSTRUCTOR, BOOL_FALSE_CONSTRUCTOR; lia|].
  destruct b; apply reads_ret.
Qed.

Lemma reads_vector n : 0 <= n < 2 ^ 31 -> n <= max_vector_length ->
  reads read_vector_length (le_bytes 4 VECTOR_CONSTRUCTOR ++ le_bytes 4 n) n.
Proof.
  intros Hn Hmax. unfold read_vector_length. eapply reads_bind; [apply reads_u32; unfold VECTOR_CONSTRUCTOR; lia|].
  rewrite Z.eqb_refl. cbn [negb]. rewrite <- (app_nil_r (le_bytes 4 n)).
  eapply reads_bind; [apply reads_i32; lia|]. rewrite (proj2 (Z.ltb_ge n 0)) by lia.
  apply reads_with_reader. intros r _ ->. rewrite (proj2 (Z.ltb_ge _ _)) by lia. apply reads_ret.
Qed.

(** *** Byte strings *)

(** A byte string on the wire. *)
Definition header_of (len : Z) : list ascii :=
  if len <? SHORT_BYTES_LIMIT then [byte_of len]
  else [byte_of 254; byte_of (Z.land len 0xff); byte_of (Z.land (Z.shiftr len 8) 0xff);
        byte_of (Z.land (Z.shiftr len 16) 0xff)].

Definition packed (l : list ascii) : list ascii :=
  let header := header_of (Z.of_nat (length l)) in
  (header ++ l ++ replicate (Z.to_nat (padding_length (Z.of_nat (length header) + Z.of_nat (length l)))) zero)%list.

Lemma write_bytes_packed l w :
  Z.of_nat (length l) <= 0x00ffffff -> write_bytes l w = (put (packed l) w, Ok tt).
Proof.
  intros Hl. unfold write_bytes, packed, header_of.
  destruct (Z.ltb_spec (Z.of_nat (length l)) SHORT_BYTES_LIMIT).
  - unfold put. simpl. by rewrite <- !app_assoc.
  - rewrite (proj2 (Z.ltb_ge _ _)) by lia. unfold put. simpl. by rewrite <- !app_assoc.
Qed.

Lemma reads_header n : 0 <= n <= 0x00ffffff ->
  reads read_bytes_header (header_of n) (n, Z.of_nat (length (header_of n))).
Proof.
  intros Hn. unfold read_bytes_header, header_of. destruct (Z.ltb_spec n SHORT_BYTES_LIMIT) as [Hs|Hs];
    unfold SHORT_BYTES_LIMIT in Hs.
  - rewrite <- (app_nil_r [byte_of n]). eapply reads_bind; [by apply reads_take|].
    simpl of_le_bytes. rewrite byte_at_byte_of by lia. rewrite Z.add_0_r, (proj2 (Z.leb_le n 253)) by lia.
    apply reads_ret.
  - eapply (reads_bind _ _ [byte_of 254]); [by apply reads_take|].
    change (of_le_bytes [byte_of 254]) with 254. cbn [Z.leb Z.compare Pos.compare Pos.compare_cont Z.eqb Pos.eqb].
    rewrite <- (app_nil_r [_; _; _]). eapply reads_bind; [by apply reads_take|].
    cbn [nth]. rewrite !byte_at_byte_of by apply land_ff. rewrite length_bytes by lia. apply reads_ret.
Qed.

Lemma reads_bytes l : Z.of_nat (length l) <= Z.min 0x00ffffff max_bytes -> reads read_bytes (packed l) l.
Proof.
  intros Hl. unfold read_bytes, packed. eapply reads_bind; [apply reads_header; lia|].
  apply reads_with_reader. intros r -> _. rewrite (proj2 (Z.ltb_ge _ _)) by lia.
  eapply reads_bind; [by apply reads_take|]. rewrite <- (app_nil_r (replicate _ _)).
  eapply reads_bind; [|apply reads_ret]. apply reads_take. rewrite length_replicate.
  pose proof (Z.mod_pos_bound (4 - (Z.of_nat (length (header_of (Z.of_nat (length l)))) + Z.of_nat (length l)) mod 4) 4).
  unfold padding_length. lia.
Qed.

Lemma reads_string s : Z.of_nat (length (bytes_of s)) <= Z.min 0x00ffffff max_bytes ->
  utf8_valid (bytes_of s) = true -> reads read_string (packed (bytes_of s)) s.
Proof.
  intros Hl Hu. unfold read_string. apply reads_with_reader. intros r _ _. rewrite <- (app_nil_r (packed _)).
  eapply reads_bind; [by apply reads_bytes|]. rewrite Hu, string_of_bytes_of. apply reads_ret.
Qed.

(** *** Values *)

Definition encoded (v : TlValue) : list ascii :=
  match v with
  | VI32 z | VU32 z => le_bytes 4 z
  | VI64 z | VU64 z | VF64 z => le_bytes 8 z
  | V128 l | V256 l => l
  | VBool b => le_bytes 4 (if b then BOOL_TRUE_CONSTRUCTOR else BOOL_FALSE_CONSTRUCTOR)
  | VBytes l => packed l
  | VString s => packed (bytes_of s)
  | VVector n => le_bytes 4 VECTOR_CONSTRUCTOR ++ le_bytes 4 n
  end.

Lemma write_value_encoded v w :
  value_ok max_bytes max_vector_length v -> write_value v w = (put (encoded v) w, Ok tt).
Proof.
  destruct v; simpl; intros Hv; try done.
  - apply write_bytes_packed. lia.
  - apply write_bytes_packed. lia.
  - unfold write_vector_length. rewrite (proj2 (Z.ltb_ge _ _)) by lia.
    unfold write_i32, write_u32, put. simpl. by rewrite <- app_assoc.
Qed.

Lemma reads_value v : value_ok max_bytes max_vector_length v -> reads (read_value (kind_of v)) (encoded v) v.
Proof.
  destruct v; cbn [value_ok kind_of read_value encoded]; intros Hv.
  - apply (reads_then_ret read_i32 VI32). by apply reads_i32.
  - apply (reads_then_ret read_u32 VU32). by apply reads_u32.
  - apply (reads_then_ret read_i64 VI64). by apply reads_i64.
  - apply (reads_then_ret read_u64 VU64). by apply reads_u64.
  - apply (reads_then_ret read_f64 VF64). by apply reads_u64.
  - apply (reads_then_ret read_i128_bytes V128). apply reads_take. lia.
  - apply (reads_then_ret read_i256_bytes V256). apply reads_take. lia.
  - apply (reads_then_ret read_bool VBool), reads_bool.
  - apply (reads_then_ret read_bytes VBytes). by apply reads_bytes.
  - apply (reads_then_ret read_string VString). destruct Hv. by apply reads_string.
  - apply (reads_then_ret read_vector_length VVector). destruct Hv. by apply reads_vector.
Qed.

Lemma write_all_encoded vs w :
  Forall (value_ok max_bytes max_vector_length) vs -> write_all vs w = (put (vs ≫= encoded) w, Ok tt).
Proof.
  intros Hvs. revert w. induction Hvs as [|v vs Hv _ IH]; intros w; simpl.
  { unfold put. rewrite app_nil_r. by destruct w. }
  rewrite write_value_encoded by done. rewrite IH. unfold put. simpl. by rewrite <- app_assoc.
Qed.

Lemma reads_all vs :
  Forall (value_ok max_bytes max_vector_length) vs -> reads (read_all (kind_of <$> vs)) (vs ≫= encoded) vs.
Proof.
  induction 1 as [|v vs Hv _ IH]; [apply reads_ret|]. simpl.
  eapply reads_bind; [by apply reads_value|]. by apply (reads_then_ret (read_all (kind_of <$> vs)) (cons v)).
Qed.

Lemma aligned_encoded v : value_ok max_bytes max_vector_length v -> Z.of_nat (length (encoded v)) mod 4 = 0.
Proof.
  assert (forall l, Z.of_nat (length (packed l)) mod 4 = 0) as Hpacked.
  { intros l. unfold packed. rewrite !length_app, length_replicate, !Nat2Z.inj_add.
    set (n := Z.of_nat (length (header_of _)) + Z.of_nat (length l)). unfold padding_length.
    pose proof (Z.mod_pos_bound (4 - n mod 4) 4). pose proof (Z.mod_pos_bound n 4).
    pose proof (Z.div_mod n 4). pose proof (Z.div_mod (4 - n mod 4) 4).
    rewrite Z2Nat.id by lia. apply Z.mod_divide; [lia|].
    exists (n / 4 + 1 - (4 - n mod 4) / 4). subst n. lia. }
  destruct v; cbn [value_ok encoded]; intros Hv; rewrite ?length_app, ?le_bytes_length; try done;
    rewrite Hv; reflexivity.
Qed.
End roundtrip.

(** C30: The TL format round-trips.  Any sequence of values that Rust's types and the
    reader's limits admit is written without an error, to a whole number of
    four-byte words; reading the result back, kind by kind, gives the same
    values and uses the input up. *)
Theorem tl_values_round_trip (max_bytes max_vector_length : Z) (vs : list TlValue) :
  Forall (value_ok max_bytes max_vector_length) vs ->
  exists w, write_all vs writer_new = (w, Ok tt)
    /\ Z.of_nat (length (w_bytes w)) mod 4 = 0
    /\ (Z.of_nat (length (w_bytes w)) <= u64_max -> exists r,
          read_all (kind_of <$> vs) (reader_with_limits (w_bytes w) max_bytes max_vector_length) = (r, Ok vs)
          /\ is_finished r = true).
Proof.
  intros Hvs. eexists. split; [by eapply write_all_encoded|]. cbn [w_bytes put writer_new app]. split.
  - induction Hvs as [|v vs Hv _ IH]; [done|].
    rewrite bind_cons, length_app, Nat2Z.inj_add, Z.add_mod, IH, (aligned_encoded _ _ _ Hv) by lia. reflexivity.
  - intros Hlen. pose proof (reads_all _ _ _ Hvs [] []) as Hr. rewrite app_nil_r in Hr. simpl in Hr.
    eexists. split; [by apply Hr|]. unfold is_finished, remaining. simpl. apply Z.eqb_eq. lia.
Qed.

Lemma tl_values_round_trip_witness :
  exists w, write_all [VI32 (-5); VString "abc"; VVector 2; VBool true] writer_new = (w, Ok tt)
    /\ Z.of_nat (length (w_bytes w)) mod 4 = 0.
Proof.
  destruct (tl_values_round_trip 100 10 [VI32 (-5); VString "abc"; VVector 2; VBool true]) as (w & Hw & Ha & _).
  - repeat constructor; simpl; lia || reflexivity.
  - exists w. split; assumption.
Defined.
