(* ===== verification/Schema.v ===== *)
(** * The catalogue of a TL schema ([telegram-protocol/src/schema.rs])

    Two readers of the same text: [parse_schema_catalog], which keeps the
    declarations, and [parse_td_api_schema], which counts them.  Their loops over
    lines and over the declarations of a buffer are the same text in the source, and
    one definition here; what they do with a declaration is [add_declaration] and
    [count_declaration]. *)

From S2P Require Import Prelude Text Maps Bytes.

Record SchemaStats := { ss_types : Z; ss_functions : Z }.
#[export] Instance eta_SchemaStats : Eta SchemaStats := fun s => Build_SchemaStats (ss_types s) (ss_functions s).

Inductive DeclarationKind := TypeDeclaration | FunctionDeclaration.

Record SchemaDeclaration := {
  sd_name : string;
  sd_constructor_id : option Z;
  sd_result_type : string;
  sd_kind : DeclarationKind;
  sd_raw : string;
}.

Record SchemaCatalog := { sc_types : list SchemaDeclaration; sc_functions : list SchemaDeclaration }.
#[export] Instance eta_SchemaCatalog : Eta SchemaCatalog := fun c => Build_SchemaCatalog (sc_types c) (sc_functions c).

Definition catalog_stats (c : SchemaCatalog) : SchemaStats :=
  {| ss_types := Z.of_nat (length (sc_types c)); ss_functions := Z.of_nat (length (sc_functions c)) |}.

Definition explicit_constructor_count (c : SchemaCatalog) : Z :=
  Z.of_nat (length (filter (fun d => is_Some (sd_constructor_id d)) (sc_types c ++ sc_functions c)%list)).

Inductive SchemaParseError :=
| MissingResultType (raw : string)
| MissingName (raw : string)
| InvalidConstructorId (name value : string)
| DuplicateConstructorId (id : Z) (first second : string).

(** ** Text *)

Definition slash : ascii := "/"%char.
Definition semicolon : ascii := ";"%char.
Definition equals_sign : ascii := "="%char.
Definition hash_sign : ascii := "#"%char.

(** [str::rsplit_once] *)
Fixpoint rsplit_once_at (c : ascii) (l : list ascii) : option (list ascii * list ascii) :=
  match l with
  | [] => None
  | a :: l =>
      match rsplit_once_at c l with
      | Some (before, after) => Some (a :: before, after)
      | None => if eqb a c then Some ([], l) else None
      end
  end.

(** The lines of [str::lines]; their ends are white space, which the caller trims. *)
Fixpoint schema_lines (fuel : nat) (l : list ascii) : list (list ascii) :=
  match split_once_at "010"%char l with
  | None => [l]
  | Some (line, rest) => match fuel with O => [line] | S fuel => line :: schema_lines fuel rest end
  end.

Definition starts_comment (l : list ascii) : bool :=
  match l with a :: b :: _ => eqb a slash && eqb b slash | _ => false end.

(** [line.split_once("//").map_or(line, |(code, _)| code)] *)
Fixpoint before_comment (l : list ascii) : list ascii :=
  match l with
  | [] => []
  | a :: rest => if starts_comment l then [] else a :: before_comment rest
  end.

(** [u32::from_str_radix(value, 16)]: a sign of plus is accepted before the digits. *)
Fixpoint hex_number (value : Z) (l : list ascii) : option Z :=
  match l with
  | [] => Some value
  | a :: l =>
      d ← hex_value a;
      value ← checked in_u32 (value * 16 + d);
      hex_number value l
  end.

Definition u32_from_hex (l : list ascii) : option Z :=
  match l with
  | [] => None
  | [a] => hex_value a
  | a :: l' => if eqb a "+"%char then hex_number 0 l' else hex_number 0 l
  end.

(** ** The loops *)

Section reader.
Context {S E : Type} (declare : DeclarationKind -> list ascii -> S -> result E S).

(** [while let Some(end) = buffer.find(';')]: every round takes its declaration, so
    the length of the buffer is enough rounds ([declarations_taken]). *)
Fixpoint take_declarations (rounds : nat) (kind : DeclarationKind) (buffer : list ascii) (s : S) : result E (list ascii * S) :=
  match split_once_at semicolon buffer with
  | None => Ok (buffer, s)
  | Some (raw, rest) =>
      match rounds with
      | O => Ok (buffer, s)
      | Datatypes.S rounds =>
          s ← declare kind (trim_bytes raw) s;
          take_declarations rounds kind (trim_start_bytes rest) s
      end
  end.

(** A line of the schema: the section, the buffer and what was read so far. *)
Definition schema_line (raw_line : list ascii) (now : DeclarationKind * list ascii * S) :
    result E (DeclarationKind * list ascii * S) :=
  let '(kind, buffer, s) := now in
  let line := trim_bytes raw_line in
  if eqb line (bytes_of "---types---") then Ok (TypeDeclaration, [], s)
  else if eqb line (bytes_of "---functions---") then Ok (FunctionDeclaration, [], s)
  else if eqb line [] || starts_comment line then Ok now
  else
    let code := trim_bytes (before_comment line) in
    if eqb code [] then Ok now
    else
      let buffer := (match buffer with [] => code | _ => buffer ++ " "%char :: code end)%list in
      '(buffer, s) ← take_declarations (length buffer) kind buffer s;
      Ok (kind, buffer, s).

Fixpoint read_schema_lines (lines : list (list ascii)) (now : DeclarationKind * list ascii * S) :
    result E (DeclarationKind * list ascii * S) :=
  match lines with
  | [] => Ok now
  | line :: lines => now ← schema_line line now; read_schema_lines lines now
  end.

Definition read_schema (schema : string) (s : S) : result E S :=
  let text := bytes_of schema in
  '(_, _, s) ← read_schema_lines (schema_lines (length text) text) (TypeDeclaration, [], s);
  Ok s.
End reader.

(** ** The catalogue *)

Definition strip_suffix (suffix s : list ascii) : option (list ascii) :=
  if eqb (drop (length s - length suffix) s) suffix && (length suffix <=? length s)%nat
  then Some (take (length s - length suffix) s) else None.

Definition is_prefix_alias (first second : string) : bool :=
  eqb (strip_suffix (bytes_of "Prefix") (bytes_of first)) (Some (bytes_of second))
  || eqb (strip_suffix (bytes_of "Prefix") (bytes_of second)) (Some (bytes_of first)).

(** The catalogue so far, and the first name of every constructor identifier. *)
Record CatalogState := { cs_catalog : SchemaCatalog; cs_constructor_ids : gmap Z string }.
#[export] Instance eta_CatalogState : Eta CatalogState := fun c => Build_CatalogState (cs_catalog c) (cs_constructor_ids c).

(** The name and the identifier in the first word of a declaration. *)
Definition name_and_id (token : list ascii) : result SchemaParseError (string * option Z) :=
  match split_once_at hash_sign token with
  | Some (name, value) =>
      id ← ok_or (u32_from_hex value) (InvalidConstructorId (string_of name) (string_of value));
      Ok (string_of name, Some id)
  | None => Ok (string_of token, None)
  end.

(** The identifier is new, or belongs to an alias. *)
Definition claim_id (name : string) (id : option Z) (ids : gmap Z string) : result SchemaParseError (gmap Z string) :=
  match id with
  | None => Ok ids
  | Some id =>
      match ids !! id with
      | Some first => reject_if (negb (is_prefix_alias first name)) (DuplicateConstructorId id first name) ;; Ok ids
      | None => Ok (<[id := name]> ids)
      end
  end.

Definition push_declaration (d : SchemaDeclaration) (c : SchemaCatalog) : SchemaCatalog :=
  match sd_kind d with
  | TypeDeclaration => c ⟪ sc_types ::= fun l => (l ++ [d])%list ⟫
  | FunctionDeclaration => c ⟪ sc_functions ::= fun l => (l ++ [d])%list ⟫
  end.

(** The body of the loop of [parse_schema_catalog]. *)
Definition add_declaration (kind : DeclarationKind) (raw : list ascii) (s : CatalogState) : result SchemaParseError CatalogState :=
  match raw with
  | [] => Ok s
  | _ =>
      '(head_part, result_type) ← ok_or (rsplit_once_at equals_sign raw) (MissingResultType (string_of raw));
      token ← ok_or (first_word head_part) (MissingName (string_of raw));
      '(name, id) ← name_and_id token;
      reject_if (is_empty name) (MissingName (string_of raw)) ;;
      ids ← claim_id name id (cs_constructor_ids s);
      Ok {| cs_catalog := push_declaration {| sd_name := name; sd_constructor_id := id;
                            sd_result_type := string_of (trim_bytes result_type); sd_kind := kind; sd_raw := string_of raw |}
                            (cs_catalog s);
            cs_constructor_ids := ids |}
  end.

Definition empty_catalog : SchemaCatalog := {| sc_types := []; sc_functions := [] |}.

(** [parse_schema_catalog] *)
Definition parse_schema_catalog (schema : string) : result SchemaParseError SchemaCatalog :=
  s ← read_schema add_declaration schema {| cs_catalog := empty_catalog; cs_constructor_ids := ∅ |};
  Ok (cs_catalog s).

(** ** The count *)

(** The body of the loop of [parse_td_api_schema]. *)
Definition count_declaration (kind : DeclarationKind) (declaration : list ascii) (s : SchemaStats) : SchemaStats :=
  if bool_decide (equals_sign ∈ declaration) && negb (bool_decide (head declaration = Some hash_sign)) then
    match kind with
    | TypeDeclaration => s ⟪ ss_types ::= Z.succ ⟫
    | FunctionDeclaration => s ⟪ ss_functions ::= Z.succ ⟫
    end
  else s.

(** [parse_td_api_schema]; counting does not fail. *)
Definition parse_td_api_schema (schema : string) : SchemaStats :=
  match read_schema (E := Empty_set) (fun kind raw s => Ok (count_declaration kind raw s)) schema {| ss_types := 0; ss_functions := 0 |} with
  | Ok s => s
  | Err e => match e with end
  end.

(** ** Rounds *)

Lemma split_once_shorter (c : ascii) (l before after : list ascii) :
  split_once_at c l = Some (before, after) -> (length after < length l)%nat.
Proof.
  revert before. induction l as [|a l IH]; intros before; cbn [split_once_at length]; [done|].
  destruct (eqb a c); [intros [= _ <-]; lia|]. destruct (split_once_at c l) as [[b r]|]; [|done]. intros [= _ <-].
  specialize (IH b eq_refl). lia.
Qed.

Lemma trim_start_shorter (l : list ascii) : (length (trim_start_bytes l) <= length l)%nat.
Proof.
  destruct (strip_white_suffix white2 white3 l) as [p Hp]. apply (f_equal length) in Hp. rewrite length_app in Hp.
  unfold trim_start_bytes. lia.
Qed.

(** No declaration is left in the buffer. *)
Lemma declarations_taken {S E : Type} (declare : DeclarationKind -> list ascii -> S -> result E S) (rounds : nat)
    (kind : DeclarationKind) (buffer rest : list ascii) (s s' : S) :
  (length buffer <= rounds)%nat -> take_declarations declare rounds kind buffer s = Ok (rest, s') ->
  split_once_at semicolon rest = None.
Proof.
  revert buffer s. induction rounds as [|rounds IH]; intros buffer s Hlen; cbn [take_declarations];
    destruct (split_once_at semicolon buffer) as [[raw after]|] eqn:Hs; try (by intros [= <- _]); apply split_once_shorter in Hs; [lia|].
  intros H. oks. eapply (IH _ _ _ H). Unshelve. pose proof (trim_start_shorter after). lia.
Qed.

(** ** One reader follows the other *)

Section follow.
Context {S1 S2 E1 E2 : Type} (declare1 : DeclarationKind -> list ascii -> S1 -> result E1 S1)
  (declare2 : DeclarationKind -> list ascii -> S2 -> result E2 S2) (Rel : S1 -> S2 -> Prop).
Context (follow : forall kind raw s1 s1' s2, Rel s1 s2 -> declare1 kind raw s1 = Ok s1' ->
  exists s2', declare2 kind raw s2 = Ok s2' /\ Rel s1' s2').

Lemma take_declarations_follow (rounds : nat) (kind : DeclarationKind) (buffer rest : list ascii) (s1 s1' : S1) (s2 : S2) :
  Rel s1 s2 -> take_declarations declare1 rounds kind buffer s1 = Ok (rest, s1') ->
  exists s2', take_declarations declare2 rounds kind buffer s2 = Ok (rest, s2') /\ Rel s1' s2'.
Proof.
  revert buffer s1 s2. induction rounds as [|rounds IH]; intros buffer s1 s2 HR; cbn [take_declarations];
    destruct (split_once_at semicolon buffer) as [[raw after]|]; try (intros [= <- <-]; by exists s2).
  intros H. oks. destruct (follow kind (trim_bytes raw) _ _ _ HR Hok) as (t & Ht & HR'). rewrite Ht. cbn [mbind result_bind]. by eapply IH.
Qed.

Lemma schema_line_follow (line rest : list ascii) (kind kind' : DeclarationKind) (buffer : list ascii) (s1 s1' : S1) (s2 : S2) :
  Rel s1 s2 -> schema_line declare1 line (kind, buffer, s1) = Ok (kind', rest, s1') ->
  exists s2', schema_line declare2 line (kind, buffer, s2) = Ok (kind', rest, s2') /\ Rel s1' s2'.
Proof.
  intros HR. unfold schema_line. cbv zeta. destruct (eqb _ (bytes_of "---types---")); [intros [= <- <- <-]; by exists s2|].
  destruct (eqb _ (bytes_of "---functions---")); [intros [= <- <- <-]; by exists s2|].
  destruct (_ || _); [intros [= <- <- <-]; by exists s2|]. destruct (eqb _ []); [intros [= <- <- <-]; by exists s2|].
  intros H. okps. destruct (take_declarations_follow _ _ _ _ _ _ _ HR Hok) as (t & Ht & HR'). rewrite Ht. cbn [mbind result_bind].
  exists t. split; [congruence|]. congruence.
Qed.

Lemma read_schema_follow (schema : string) (s1 s1' : S1) (s2 : S2) :
  Rel s1 s2 -> read_schema declare1 schema s1 = Ok s1' ->
  exists s2', read_schema declare2 schema s2 = Ok s2' /\ Rel s1' s2'.
Proof.
  intros HR. unfold read_schema. generalize (schema_lines (length (bytes_of schema)) (bytes_of schema)) as lines. cbv zeta. intros lines.
  generalize TypeDeclaration, (@nil ascii). revert s1 s2 HR.
  induction lines as [|line lines IH]; intros s1 s2 HR kind buffer H; cbn [read_schema_lines] in *; okps.
  - exists s2. split; [done|congruence].
  - destruct (schema_line_follow _ _ _ _ _ _ _ _ HR Hok0) as (t & Ht & HR'). rewrite Ht. cbn [mbind result_bind].
    apply (IH _ _ HR'). rewrite Hok. cbn [mbind result_bind]. congruence.
Qed.
End follow.

(** ** What a declaration adds *)

Lemma rsplit_elem (c : ascii) (l before after : list ascii) :
  rsplit_once_at c l = Some (before, after) -> c ∈ l /\ exists rest, l = (before ++ rest)%list.
Proof.
  revert before after. induction l as [|a l IH]; intros before after; cbn [rsplit_once_at]; [done|].
  destruct (rsplit_once_at c l) as [[b r]|].
  - intros [= <- <-]. destruct (IH b r eq_refl) as [Hin [rest ->]]. split; [by right|by exists rest].
  - destruct (eqb a c) eqn:He; [|done]. intros [= <- <-]. apply (proj1 (eqb_spec _ _)) in He as ->. split; [left|by exists (c :: l)].
Qed.

(** A declaration whose first byte is a hash has no name. *)
Lemma hash_has_no_name (l token : list ascii) (name : string) (id : option Z) :
  first_word (hash_sign :: l) = Some token -> name_and_id token = Ok (name, id) -> is_empty name = true.
Proof.
  unfold first_word. assert (Ht : trim_start_bytes (hash_sign :: l) = hash_sign :: l) by (destruct l as [|b [|d l]]; done).
  rewrite Ht. cbn [word]. unfold white_first. rewrite Ht, Nat.eqb_refl. cbn [negb]. intros [= <-].
  unfold name_and_id. cbn [split_once_at]. change (eqb hash_sign hash_sign) with true. cbv iota. intros H. oks. by subst name.
Qed.

Lemma declaration_counted (kind : DeclarationKind) (raw : list ascii) (s s' : CatalogState) :
  add_declaration kind raw s = Ok s' -> count_declaration kind raw (catalog_stats (cs_catalog s)) = catalog_stats (cs_catalog s').
Proof.
  unfold add_declaration. destruct raw as [|a raw]; [by intros [= <-]|]. intros H. okps.
  rename select (rsplit_once_at _ _ = _) into Hsplit. pose proof (rsplit_elem _ _ _ _ Hsplit) as [Hin [rest Hrest]].
  unfold count_declaration. rewrite bool_decide_true by exact Hin.
  rewrite bool_decide_false.
  2: { intros [= ->]. destruct l as [|b l]; [done|]. cbn [app] in Hrest. injection Hrest as <- _.
       pose proof (hash_has_no_name _ _ _ _ Hok0 Hok1). congruence. }
  cbn [andb negb]. subst s'. cbn [cs_catalog]. unfold catalog_stats, push_declaration. destruct kind; cbn [sd_kind]; fields;
    rewrite length_app; cbn [length]; unfold field_update; cbn [ss_types ss_functions]; f_equal; lia.
Qed.

(** The declarations that carry an identifier bear the name it was first given, or an
    alias of it. *)
Definition named (s : CatalogState) : Prop :=
  forall d id, d ∈ (sc_types (cs_catalog s) ++ sc_functions (cs_catalog s))%list -> sd_constructor_id d = Some id ->
    exists first, cs_constructor_ids s !! id = Some first /\ (sd_name d = first \/ is_prefix_alias first (sd_name d) = true).

Lemma claim_id_keeps (name : string) (id : option Z) (ids ids' : gmap Z string) :
  claim_id name id ids = Ok ids' ->
  (forall i first, ids !! i = Some first -> ids' !! i = Some first)
  /\ (forall i, id = Some i -> exists first, ids' !! i = Some first /\ (name = first \/ is_prefix_alias first name = true)).
Proof.
  unfold claim_id. destruct id as [i|]; [|intros [= <-]; split; [done|done]].
  destruct (ids !! i) as [first|] eqn:Hi; intros H; oks; subst ids'.
  - split; [done|]. intros j [= <-]. exists first. split; [done|]. by right.
  - split; [intros j first Hj; rewrite lookup_insert_ne; [done|congruence]|]. intros j [= <-].
    exists name. split; [apply lookup_insert_eq|by left].
Qed.

Lemma push_elem (d x : SchemaDeclaration) (c : SchemaCatalog) :
  x ∈ (sc_types (push_declaration d c) ++ sc_functions (push_declaration d c))%list ->
  x = d \/ x ∈ (sc_types c ++ sc_functions c)%list.
Proof. unfold push_declaration. destruct (sd_kind d); fields; rewrite !elem_of_app, list_elem_of_singleton; tauto. Qed.

Lemma empty_named : named {| cs_catalog := empty_catalog; cs_constructor_ids := ∅ |}.
Proof. by intros ? ? Hin%elem_of_nil. Qed.

Lemma declaration_named (kind : DeclarationKind) (raw : list ascii) (s s' : CatalogState) :
  named s -> add_declaration kind raw s = Ok s' -> named s'.
Proof.
  intros Hn. unfold add_declaration. destruct raw as [|a raw]; [by intros [= <-]|]. intros H. okps. subst s'.
  rename select (claim_id _ _ _ = _) into Hclaim. apply claim_id_keeps in Hclaim as [Hkeep Hnew].
  intros d id [-> |Hd]%push_elem Hid; cbn [cs_constructor_ids sd_constructor_id sd_name] in *; [by apply Hnew|].
  destruct (Hn d id Hd Hid) as (first & Hf & Hor). exists first. auto.
Qed.

(** the two readers of a schema agree.  When the text is a catalogue, the counter
    finds in it as many types and functions as the catalogue has; and in a catalogue
    an identifier stands for one constructor: the declarations that carry it bear one
    name, with or without its suffix. *)
Theorem schema_readers_agree (schema : string) (c : SchemaCatalog) :
  parse_schema_catalog schema = Ok c ->
  parse_td_api_schema schema = catalog_stats c
  /\ forall d d' id, d ∈ (sc_types c ++ sc_functions c)%list -> d' ∈ (sc_types c ++ sc_functions c)%list ->
       sd_constructor_id d = Some id -> sd_constructor_id d' = Some id ->
       exists first, (sd_name d = first \/ is_prefix_alias first (sd_name d) = true)
                     /\ (sd_name d' = first \/ is_prefix_alias first (sd_name d') = true).
Proof.
  unfold parse_schema_catalog. intros H. oks. subst c. split.
  - destruct (read_schema_follow add_declaration (E2 := Empty_set) (fun kind raw s => Ok (count_declaration kind raw s))
      (fun s1 s2 => s2 = catalog_stats (cs_catalog s1))
      ltac:(intros kind raw s1 s1' s2 -> Hd; eexists; split; [reflexivity|by apply declaration_counted])
      schema _ a _ eq_refl Hok) as (s2 & Hs2 & ->).
    unfold parse_td_api_schema. change (catalog_stats _) with {| ss_types := 0; ss_functions := 0 |} in Hs2 at 1. by rewrite Hs2.
  - destruct (read_schema_follow add_declaration (fun _ _ _ => Ok tt : result unit unit) (fun s1 _ => named s1)
      ltac:(intros kind raw s1 s1' s2 Hn Hd; exists tt; split; [reflexivity|exact (declaration_named kind raw s1 s1' Hn Hd)])
      schema _ a tt empty_named Hok) as (_ & _ & Hn).
    intros d d' id Hd Hd' Hid Hid'. destruct (Hn d id Hd Hid) as (first & Hf & Hor). destruct (Hn d' id Hd' Hid') as (first' & Hf' & Hor').
    exists first. split; [exact Hor|]. congruence.
Qed.

Definition sample_schema : string := string_of (concat (map (fun l => bytes_of l ++ ["010"%char])%list
  ["// a comment"; "boolFalse#bc799737 = Bool; boolTrue#997275b5"; "  = Bool; // both"; "---functions---"; "";
   "ping#7abe77ec ping_id:long = Pong;"; "pingPrefix#7abe77ec {X:Type} = X;"])).

Lemma schema_readers_agree_witness :
  exists c, parse_schema_catalog sample_schema = Ok c /\ parse_td_api_schema sample_schema = catalog_stats c
    /\ catalog_stats c = {| ss_types := 2; ss_functions := 2 |}.
Proof.
  destruct (parse_schema_catalog sample_schema) as [c|e] eqn:H; [|exfalso; vm_compute in H; discriminate H].
  exists c. split; [reflexivity|]. split; [exact (proj1 (schema_readers_agree sample_schema c H))|].
  vm_compute in H. injection H as <-. reflexivity.
Defined.
