(* ===== verification/Transport.v ===== *)
(** * MTProto transport framing ([telegram-protocol/src/transport.rs])

    The CRC-32 is another crate's: it is the field of [Crc32]. *)

From S2P Require Import Prelude Text Maps Bytes.

Definition DEFAULT_MAX_FRAME_BYTES : Z := 64 * 1024 * 1024.
Definition FULL_FRAME_OVERHEAD : Z := 12.

Inductive TransportMode := Full | Abridged | Intermediate | PaddedIntermediate.
#[export] Instance TransportMode_eq_dec : EqDecision TransportMode.
Proof. solve_decision. Defined.

(** [TransportMode::initial_header] *)
Definition initial_header (m : TransportMode) : list ascii :=
  match m with
  | Full => []
  | Abridged => [byte_of 0xef]
  | Intermediate => replicate 4 (byte_of 0xee)
  | PaddedIntermediate => replicate 4 (byte_of 0xdd)
  end.

Record DecodedFrame := {
  df_payload : list ascii;
  df_sequence_number : option Z;
  df_quick_ack_token : option Z;
  df_consumed_bytes : Z;
}.

Inductive TransportError :=
| EmptyPayload
| AbridgedPayloadAlignment (length : Z)
| FrameLengthLimit (length maximum : Z)
| InvalidFrameLength (length : Z)
| SequenceExhausted
| CrcMismatch (expected actual : Z)
| LengthOutOfRange
| QuickAckUnsupported
| InvalidPaddingLength.

Record TransportFrameCodec := {
  tc_mode : TransportMode;
  tc_next_sequence_number : Z;
  tc_max_frame_bytes : Z;
}.
#[export] Instance eta_TransportFrameCodec : Eta TransportFrameCodec := fun c =>
  Build_TransportFrameCodec (tc_mode c) (tc_next_sequence_number c) (tc_max_frame_bytes c).

Definition codec_with_max_frame_bytes (mode : TransportMode) (max_frame_bytes : Z) : TransportFrameCodec :=
  {| tc_mode := mode; tc_next_sequence_number := 0; tc_max_frame_bytes := max_frame_bytes |}.
Definition codec_new (mode : TransportMode) : TransportFrameCodec :=
  codec_with_max_frame_bytes mode DEFAULT_MAX_FRAME_BYTES.

(** [u32::try_from] and [u32::checked_add] *)
Definition try_u32 (z : Z) : option Z := checked in_u32 z.

Notation size_of l := (Z.of_nat (length l)).

Class Crc32 := crc32 : list ascii -> Z.
Class Crc32Laws (C : Crc32) : Prop := crc32_range : forall l, 0 <= crc32 l < 2 ^ 32.

Section transport.
Context `{C : Crc32}.

Definition encode_full (payload : list ascii) (c : TransportFrameCodec) :
    TransportFrameCodec * result TransportError (list ascii) :=
  match checked_add_u64 (size_of payload) FULL_FRAME_OVERHEAD ≫= try_u32 with
  | None => (c, Err LengthOutOfRange)
  | Some frame_length =>
      let sequence_number := tc_next_sequence_number c in
      match try_u32 (sequence_number + 1) with
      | None => (c, Err SequenceExhausted)
      | Some next =>
          let frame := (le_bytes 4 frame_length ++ le_bytes 4 sequence_number ++ payload)%list in
          (c ⟪ tc_next_sequence_number := next ⟫, Ok (frame ++ le_bytes 4 (crc32 frame))%list)
      end
  end.

Definition encode_abridged (payload : list ascii) (quick_ack : bool) : result TransportError (list ascii) :=
  reject_if (negb (size_of payload mod 4 =? 0)) (AbridgedPayloadAlignment (size_of payload)) ;;
  let words := size_of payload / 4 in
  reject_if (2 ^ 24 <=? words) LengthOutOfRange ;;
  let header :=
    if words <? 127 then [byte_of (Z.lor words (if quick_ack then 0x80 else 0))]
    else [byte_of (if quick_ack then 0xff else 0x7f); byte_of (Z.land words 0xff);
          byte_of (Z.land (Z.shiftr words 8) 0xff); byte_of (Z.land (Z.shiftr words 16) 0xff)] in
  Ok (header ++ payload)%list.

Definition encode_intermediate (payload padding : list ascii) (quick_ack : bool) (total_payload_length : Z) :
    result TransportError (list ascii) :=
  length ← ok_or (try_u32 total_payload_length) LengthOutOfRange;
  let length := if quick_ack then Z.lor length (Z.shiftl 1 31) else length in
  Ok (le_bytes 4 length ++ payload ++ padding)%list.

(** [encode_internal], of which [encode], [encode_with_padding] and
    [encode_requesting_quick_ack] are the instances. *)
Definition encode_internal (payload padding : list ascii) (quick_ack : bool) (c : TransportFrameCodec) :
    TransportFrameCodec * result TransportError (list ascii) :=
  match payload with
  | [] => (c, Err EmptyPayload)
  | _ =>
      match checked_add_u64 (size_of payload) (size_of padding) with
      | None => (c, Err LengthOutOfRange)
      | Some total =>
          if tc_max_frame_bytes c <? total then (c, Err (FrameLengthLimit total (tc_max_frame_bytes c)))
          else if negb (eqb (tc_mode c) PaddedIntermediate) && (0 <? size_of padding)
          then (c, Err (InvalidFrameLength total))
          else if eqb (tc_mode c) PaddedIntermediate && (15 <? size_of padding) then (c, Err InvalidPaddingLength)
          else match tc_mode c with
               | Full => if quick_ack then (c, Err QuickAckUnsupported) else encode_full payload c
               | Abridged => (c, encode_abridged payload quick_ack)
               | Intermediate | PaddedIntermediate => (c, encode_intermediate payload padding quick_ack total)
               end
      end
  end.

Definition validate_frame_length (c : TransportFrameCodec) (payload_length : Z) : result TransportError unit :=
  reject_if (payload_length =? 0) EmptyPayload ;;
  reject_if (tc_max_frame_bytes c <? payload_length) (FrameLengthLimit payload_length (tc_max_frame_bytes c)).

Definition frame_of (payload : list ascii) (sequence_number quick_ack_token : option Z) (consumed_bytes : Z) :
    DecodedFrame := {|
  df_payload := payload; df_sequence_number := sequence_number; df_quick_ack_token := quick_ack_token;
  df_consumed_bytes := consumed_bytes |}.

(** [let Some(x) = input.get(..) else { return Ok(None) }] *)
Definition wait_for {A B : Type} (o : option A) (k : A -> result TransportError (option B)) :
    result TransportError (option B) :=
  match o with Some a => k a | None => Ok None end.

Definition decode_full (c : TransportFrameCodec) (input : list ascii) :
    result TransportError (option DecodedFrame) :=
  wait_for (slice input 0 4) (fun length_bytes =>
    let frame_length := of_le_bytes length_bytes in
    reject_if (frame_length <? FULL_FRAME_OVERHEAD) (InvalidFrameLength frame_length) ;;
    validate_frame_length c (frame_length - FULL_FRAME_OVERHEAD) ;;
    wait_for (slice input 0 frame_length) (fun frame =>
      let part from to := default [] (slice frame from to) in
      let crc_offset := frame_length - 4 in
      let actual_crc := of_le_bytes (part crc_offset frame_length) in
      let expected_crc := crc32 (part 0 crc_offset) in
      reject_if (negb (actual_crc =? expected_crc)) (CrcMismatch expected_crc actual_crc) ;;
      Ok (Some (frame_of (part 8 crc_offset) (Some (of_le_bytes (part 4 8))) None frame_length)))).

Definition decode_abridged (c : TransportFrameCodec) (input : list ascii) :
    result TransportError (option DecodedFrame) :=
  wait_for (head input) (fun first =>
    let prefix := byte_at first in
    if negb (Z.land prefix 0x80 =? 0) then
      wait_for (slice input 0 4) (fun token_bytes =>
        Ok (Some (frame_of [] None (Some (be_value token_bytes)) 4)))
    else
      let finish words header_length :=
        (let payload_length := words * 4 in
         validate_frame_length c payload_length ;;
         let consumed_bytes := header_length + payload_length in
         wait_for (slice input header_length consumed_bytes) (fun payload =>
           Ok (Some (frame_of payload None None consumed_bytes)))) in
      if prefix <? 0x7f then finish prefix 1
      else
        wait_for (slice input 1 4) (fun l =>
          finish (Z.lor (Z.lor (byte_at (nth 0 l zero)) (Z.shiftl (byte_at (nth 1 l zero)) 8))
                    (Z.shiftl (byte_at (nth 2 l zero)) 16)) 4)).

Definition decode_intermediate (c : TransportFrameCodec) (input : list ascii) :
    result TransportError (option DecodedFrame) :=
  wait_for (slice input 0 4) (fun length_bytes =>
    let encoded_length := of_le_bytes length_bytes in
    if negb (Z.land encoded_length (Z.shiftl 1 31) =? 0) then
      Ok (Some (frame_of [] None (Some encoded_length) 4))
    else
      validate_frame_length c encoded_length ;;
      let consumed_bytes := 4 + encoded_length in
      wait_for (slice input 4 consumed_bytes) (fun payload =>
        if eqb (tc_mode c) PaddedIntermediate && (8 <=? size_of payload) && (size_of payload <=? 16)
           && eqb (take 4 payload) (replicate 4 (byte_of 0xff))
        then Ok (Some (frame_of [] None (Some (of_le_bytes (take 4 (drop 4 payload)))) consumed_bytes))
        else Ok (Some (frame_of payload None None consumed_bytes)))).

(** [TransportFrameCodec::decode] *)
Definition decode_frame (c : TransportFrameCodec) (input : list ascii) :
    result TransportError (option DecodedFrame) :=
  match tc_mode c with
  | Full => decode_full c input
  | Abridged => decode_abridged c input
  | Intermediate | PaddedIntermediate => decode_intermediate c input
  end.
End transport.

(** ** What a decoder makes of an encoded frame *)

(** Followed by anything, the frame is decoded to [f]; cut short anywhere, it is
    waited for. *)
Definition frames_as `{Crc32} (d : TransportFrameCodec) (frame : list ascii) (f : DecodedFrame) : Prop :=
  (forall rest, decode_frame d (frame ++ rest) = Ok (Some f))
  /\ (forall k, (k < length frame)%nat -> decode_frame d (take k frame) = Ok None).

Section framing.
Context `{C : Crc32}.

Lemma validate_frame_ok d n : 0 < n <= tc_max_frame_bytes d -> validate_frame_length d n = Ok tt.
Proof.
  intros Hn. unfold validate_frame_length. rewrite (proj2 (Z.eqb_neq n 0)), (proj2 (Z.ltb_ge _ n)) by lia. done.
Qed.

Lemma slice_first (pre l : list ascii) (to : Z) : to = size_of pre -> slice (pre ++ l) 0 to = Some pre.
Proof. intros ->. rewrite slice_app_l by lia. apply slice_all. Qed.

Lemma slice_rest (pre l : list ascii) (from to : Z) :
  from = size_of pre -> to = from + size_of l -> slice (pre ++ l) from to = Some l.
Proof. intros Hf Ht. pose proof (slice_app pre l [] from to Hf Ht) as H. by rewrite app_nil_r in H. Qed.

Context `{!Crc32Laws C}.

Lemma full_frames d payload seq n :
  tc_mode d = Full -> 0 <= seq < 2 ^ 32 -> n = size_of payload + 12 -> n < 2 ^ 32 ->
  0 < size_of payload <= tc_max_frame_bytes d ->
  let body := (le_bytes 4 n ++ le_bytes 4 seq ++ payload)%list in
  frames_as d (body ++ le_bytes 4 (crc32 body)) (frame_of payload (Some seq) None n).
Proof.
  intros Hmode Hseq Hn Hmax Hpay body. set (frame := (body ++ le_bytes 4 (crc32 body))%list).
  assert (size_of frame = n) as Hlen.
  { unfold frame, body. rewrite !length_app, !le_bytes_length. lia. }
  assert (size_of body = n - 4) as Hbody by (unfold body; rewrite !length_app, !le_bytes_length; lia).
  assert (slice frame 0 4 = Some (le_bytes 4 n)) as H4.
  { unfold frame, body. rewrite <- app_assoc. by apply slice_first. }
  assert (forall input, slice input 0 4 = Some (le_bytes 4 n) -> decode_frame d input
    = wait_for (slice input 0 n) (fun frame =>
        reject_if (negb (of_le_bytes (default [] (slice frame (n - 4) n)) =? crc32 (default [] (slice frame 0 (n - 4)))))
          (CrcMismatch (crc32 (default [] (slice frame 0 (n - 4)))) (of_le_bytes (default [] (slice frame (n - 4) n)))) ;;
        Ok (Some (frame_of (default [] (slice frame 8 (n - 4))) (Some (of_le_bytes (default [] (slice frame 4 8)))) None n))))
    as Hdec.
  { intros input Hin. unfold decode_frame, decode_full. rewrite Hmode, Hin. cbn [wait_for].
    rewrite (of_le_bytes_unsigned 4 n) by (change (256 ^ Z.of_nat 4) with (2 ^ 32); lia).
    unfold FULL_FRAME_OVERHEAD. rewrite (proj2 (Z.ltb_ge n 12)) by lia.
    rewrite validate_frame_ok by lia. done. }
  split.
  - intros rest. rewrite Hdec; [|rewrite slice_app_l; [exact H4|lia|lia]].
    rewrite slice_first by done. cbn [wait_for].
    assert (slice frame (n - 4) n = Some (le_bytes 4 (crc32 body))) as ->
      by (apply slice_rest; rewrite ?le_bytes_length; lia).
    assert (slice frame 0 (n - 4) = Some body) as -> by (by apply slice_first).
    assert (slice frame 8 (n - 4) = Some payload) as ->.
    { unfold frame. rewrite slice_app_l by lia. unfold body. rewrite app_assoc.
      apply slice_rest; rewrite ?length_app, ?le_bytes_length; lia. }
    assert (slice frame 4 8 = Some (le_bytes 4 seq)) as ->.
    { unfold frame. rewrite slice_app_l by lia. unfold body. by apply slice_app; rewrite ?le_bytes_length. }
    cbn [from_option id]. pose proof (crc32_range body).
    rewrite !(of_le_bytes_unsigned 4) by (change (256 ^ Z.of_nat 4) with (2 ^ 32); lia).
    by rewrite Z.eqb_refl.
  - intros k Hk. destruct (decide (k < 4)%nat) as [Hk4|Hk4].
    + unfold decode_frame, decode_full. rewrite Hmode, slice_short; [done|]. rewrite length_take. lia.
    + rewrite Hdec; [|rewrite slice_take; [exact H4|lia..]].
      rewrite slice_short; [done|]. rewrite length_take. lia.
Qed.

Lemma intermediate_frames d content :
  tc_mode d = Intermediate \/ tc_mode d = PaddedIntermediate ->
  0 < size_of content <= tc_max_frame_bytes d -> size_of content < 2 ^ 31 ->
  (tc_mode d = PaddedIntermediate -> 8 <= size_of content <= 16 -> take 4 content <> replicate 4 (byte_of 0xff)) ->
  frames_as d (le_bytes 4 (size_of content) ++ content) (frame_of content None None (4 + size_of content)).
Proof.
  intros Hmode Hmax Hsmall Hack. set (n := size_of content) in *. set (frame := (le_bytes 4 n ++ content)%list).
  assert (size_of frame = 4 + n) as Hlen by (unfold frame; rewrite length_app, le_bytes_length; lia).
  assert (slice frame 0 4 = Some (le_bytes 4 n)) as H4 by (by apply slice_first).
  assert (forall input, slice input 0 4 = Some (le_bytes 4 n) -> decode_frame d input
    = wait_for (slice input 4 (4 + n)) (fun payload =>
        if eqb (tc_mode d) PaddedIntermediate && (8 <=? size_of payload) && (size_of payload <=? 16)
           && eqb (take 4 payload) (replicate 4 (byte_of 0xff))
        then Ok (Some (frame_of [] None (Some (of_le_bytes (take 4 (drop 4 payload)))) (4 + n)))
        else Ok (Some (frame_of payload None None (4 + n))))) as Hdec.
  { intros input Hin.
    assert (decode_frame d input = decode_intermediate d input) as -> by (unfold decode_frame; by destruct Hmode as [-> | ->]).
    unfold decode_intermediate. rewrite Hin. cbn [wait_for].
    rewrite (of_le_bytes_unsigned 4 n) by (change (256 ^ Z.of_nat 4) with (2 ^ 32); lia).
    change (Z.shiftl 1 31) with (2 ^ 31). rewrite land_pow2_small by lia. cbn [negb].
    rewrite validate_frame_ok by lia. done. }
  split.
  - intros rest. rewrite Hdec; [|rewrite slice_app_l; [exact H4|lia|lia]].
    rewrite slice_app_l by lia. unfold frame. rewrite slice_rest by (rewrite ?le_bytes_length; lia). cbn [wait_for].
    destruct (eqb (tc_mode d) PaddedIntermediate) eqn:Hp; [|done]. apply (proj1 (eqb_spec _ _)) in Hp.
    fold n. destruct (Z.leb_spec 8 n); [|done]. destruct (Z.leb_spec n 16); [|done].
    rewrite (proj2 (eqb_false _ _) (Hack Hp ltac:(lia))). by rewrite andb_false_r.
  - intros k Hk. destruct (decide (k < 4)%nat) as [Hk4|Hk4].
    + assert (decode_frame d (take k frame) = decode_intermediate d (take k frame)) as ->
        by (unfold decode_frame; by destruct Hmode as [-> | ->]).
      unfold decode_intermediate. rewrite slice_short; [done|]. rewrite length_take. lia.
    + rewrite Hdec; [|rewrite slice_take; [exact H4|lia..]].
      rewrite slice_short; [done|]. rewrite length_take. lia.
Qed.

Definition abridged_header (words : Z) : list ascii :=
  if words <? 127 then [byte_of (Z.lor words 0)]
  else [byte_of 0x7f; byte_of (Z.land words 0xff); byte_of (Z.land (Z.shiftr words 8) 0xff);
        byte_of (Z.land (Z.shiftr words 16) 0xff)].

Lemma abridged_frames d payload words :
  tc_mode d = Abridged -> size_of payload = words * 4 -> 0 < words < 2 ^ 24 -> words * 4 <= tc_max_frame_bytes d ->
  frames_as d (abridged_header words ++ payload)
    (frame_of payload None None (size_of (abridged_header words) + size_of payload)).
Proof.
  intros Hmode Hlen Hwords Hmax. set (header := abridged_header words). set (frame := (header ++ payload)%list).
  assert (size_of frame = size_of header + words * 4) as Hframe by (unfold frame; rewrite length_app; lia).
  assert (forall input, head input = head frame -> slice input 1 4 = slice frame 1 4 \/ words < 127 ->
    decode_frame d input = wait_for (slice input (size_of header) (size_of header + words * 4)) (fun payload =>
      Ok (Some (frame_of payload None None (size_of header + words * 4))))) as Hdec.
  { intros input Hhead Hl. unfold decode_frame, decode_abridged. rewrite Hmode, Hhead.
    unfold frame, header, abridged_header in *. destruct (Z.ltb_spec words 127) as [Hs|Hs]; cbn [app head wait_for].
    - rewrite Z.lor_0_r, byte_at_byte_of by lia. change 0x80 with (2 ^ 7). rewrite land_pow2_small by lia.
      cbn [negb Z.eqb]. rewrite (proj2 (Z.ltb_lt words 0x7f)) by lia. by rewrite validate_frame_ok by lia.
    - rewrite byte_at_byte_of by lia. change (Z.land 0x7f 0x80 =? 0) with true. change (0x7f <? 0x7f) with false.
      cbn [negb]. destruct Hl as [Hl|]; [|lia]. rewrite Hl.
      assert (slice ([byte_of 0x7f; byte_of (Z.land words 0xff); byte_of (Z.land (Z.shiftr words 8) 0xff);
        byte_of (Z.land (Z.shiftr words 16) 0xff)] ++ payload) 1 4
        = Some [byte_of (Z.land words 0xff); byte_of (Z.land (Z.shiftr words 8) 0xff);
                byte_of (Z.land (Z.shiftr words 16) 0xff)]) as -> by (by apply (slice_app [_] [_; _; _])).
      cbn [wait_for nth]. rewrite !byte_at_byte_of by apply land_ff. rewrite length_bytes by lia.
      by rewrite validate_frame_ok by lia. }
  assert (0 < size_of header) as Hpos by (unfold header, abridged_header; case_match; simpl; lia).
  assert (words < 127 \/ size_of header = 4) as Hheader
    by (unfold header, abridged_header; destruct (Z.ltb_spec words 127); [by left|by right]).
  split.
  - intros rest. rewrite Hdec.
    + rewrite slice_app_l by lia. unfold frame. rewrite slice_rest by lia. cbn [wait_for]. by rewrite Hlen.
    + by destruct header.
    + destruct Hheader; [by right|left]. apply slice_app_l; lia.
  - intros k Hk. destruct k as [|k]; [unfold decode_frame; by rewrite Hmode|].
    assert (head (take (S k) frame) = head frame) as Hhead by (by destruct frame).
    destruct Hheader as [Hs|H4].
    + rewrite Hdec by auto. rewrite slice_short; [done|]. rewrite length_take. lia.
    + destruct (decide (S k < 4)%nat) as [Hk4|Hk4].
      * unfold decode_frame, decode_abridged. rewrite Hmode, Hhead.
        unfold frame, header, abridged_header in *. destruct (Z.ltb_spec words 127) as [Hw|Hw]; [simpl in H4; lia|].
        cbn [app head wait_for]. rewrite byte_at_byte_of by lia.
        change (Z.land 0x7f 0x80 =? 0) with true. change (0x7f <? 0x7f) with false. cbn [negb].
        rewrite slice_short; [done|]. rewrite length_take. lia.
      * rewrite Hdec; [|done|left; apply slice_take; lia].
        rewrite slice_short; [done|]. rewrite length_take. lia.
Qed.

#[local] Opaque le_bytes.

Lemma encoded_frames (c c' d : TransportFrameCodec) (payload padding frame : list ascii) :
  encode_internal payload padding false c = (c', Ok frame) ->
  tc_mode d = tc_mode c -> size_of (payload ++ padding) <= tc_max_frame_bytes d ->
  0 <= tc_next_sequence_number c -> (size_of (payload ++ padding) < 2 ^ 31) ->
  (tc_mode c = PaddedIntermediate -> 8 <= size_of (payload ++ padding) <= 16 ->
    take 4 (payload ++ padding) <> replicate 4 (byte_of 0xff)) ->
  frames_as d frame (frame_of (payload ++ padding)
    (if eqb (tc_mode c) Full then Some (tc_next_sequence_number c) else None) None (size_of frame)).
Proof.
  intros Henc Hmode Hmax Hseq Hsmall Hack. unfold encode_internal in Henc.
  destruct payload as [|a payload0]; [discriminate Henc|]. set (payload := a :: payload0) in *.
  assert (0 < size_of payload) as Hpos by (simpl; lia). clearbody payload.
  destruct (checked_add_u64 _ _) as [total|] eqn:Htotal; [|discriminate Henc].
  apply checked_spec in Htotal as [-> _]. rewrite length_app in Hmax, Hsmall.
  destruct (_ <? size_of payload + size_of padding); [discriminate Henc|].
  destruct (negb (eqb (tc_mode c) PaddedIntermediate) && _) eqn:Hpad; [discriminate Henc|].
  destruct (eqb (tc_mode c) PaddedIntermediate && _); [discriminate Henc|].
  assert (tc_mode c <> PaddedIntermediate -> padding = []) as Hnopad.
  { intros Hm. rewrite (proj2 (eqb_false _ _) Hm) in Hpad. simpl in Hpad. apply Z.ltb_ge in Hpad.
    destruct padding; [done|simpl in Hpad; lia]. }
  destruct (tc_mode c) eqn:Hm.
  - rewrite Hnopad in * by done. rewrite app_nil_r. unfold encode_full in Henc.
    destruct (checked_add_u64 _ _) as [n|] eqn:Hn; cbn [mbind option_bind] in Henc; [|discriminate Henc].
    apply checked_spec in Hn as [-> _]. unfold try_u32 in Henc.
    destruct (checked in_u32 (size_of payload + FULL_FRAME_OVERHEAD)) as [n|] eqn:Hn; [|discriminate Henc].
    destruct (checked in_u32 (tc_next_sequence_number c + 1)) as [next|] eqn:Hnext; [|discriminate Henc].
    apply checked_spec in Hn as [-> Hn], Hnext as [-> Hnext]. unfold in_u32, u32_max, FULL_FRAME_OVERHEAD in *.
    rewrite andb_true_iff, !Z.leb_le in Hn, Hnext. injection Henc as <- <-.
    match goal with |- frames_as _ ?fr _ =>
      replace (size_of fr) with (size_of payload + 12) by (rewrite !length_app, !le_bytes_length; lia) end.
    apply full_frames; try done; lia.
  - rewrite Hnopad in * by done. rewrite app_nil_r. injection Henc as <- Henc. unfold encode_abridged in Henc. oks.
    match goal with H : (_ =? 0) = true |- _ => apply Z.eqb_eq in H as Halign end.
    match goal with H : (2 ^ 24 <=? _) = false |- _ => apply Z.leb_gt in H as Hwords end.
    pose proof (Z.div_mod (size_of payload) 4). subst frame. rewrite length_app, Nat2Z.inj_add.
    apply (abridged_frames d payload (size_of payload / 4)); lia || done.
  - rewrite Hnopad in * by done. injection Henc as <- Henc. unfold encode_intermediate in Henc. oks.
    apply checked_spec in Hok as [-> _]. subst frame. rewrite length_app, Nat2Z.inj_add, le_bytes_length.
    replace (size_of payload + Z.of_nat 0) with (size_of (payload ++ [])) by (rewrite app_nil_r; lia).
    change (Z.of_nat 4) with 4.
    apply intermediate_frames; [by left|rewrite length_app; lia|rewrite length_app; lia|by rewrite Hmode].
  - injection Henc as <- Henc. unfold encode_intermediate in Henc. oks.
    apply checked_spec in Hok as [-> _]. subst frame. rewrite length_app, Nat2Z.inj_add, le_bytes_length.
    rewrite <- (Nat2Z.inj_add (length payload)), <- (length_app payload). change (Z.of_nat 4) with 4.
    apply intermediate_frames; [by right|rewrite length_app; lia|rewrite length_app; lia|intros _; by apply Hack].
Qed.

(** C31: Frames round-trip through any stream.  A frame that a codec encodes, without
    asking for a quick acknowledgement, is decoded by a codec of the same mode that
    allows its size, whatever follows it in the stream, to its payload and padding,
    its sequence number in the full mode, and its exact length; cut short anywhere,
    it is not an error and not a frame, but waited for.  The content is shorter
    than 2^31 (the intermediate modes keep the top bit of the length for the
    acknowledgement), and in the padded mode a content of 8 to 16 bytes does not
    begin like a quick acknowledgement. *)
Theorem frames_round_trip (c c' d : TransportFrameCodec) (payload padding frame : list ascii) :
  encode_internal payload padding false c = (c', Ok frame) ->
  tc_mode d = tc_mode c -> size_of (payload ++ padding) <= tc_max_frame_bytes d ->
  0 <= tc_next_sequence_number c -> (size_of (payload ++ padding) < 2 ^ 31) ->
  (tc_mode c = PaddedIntermediate -> 8 <= size_of (payload ++ padding) <= 16 ->
    take 4 (payload ++ padding) <> replicate 4 (byte_of 0xff)) ->
  frames_as d frame (frame_of (payload ++ padding)
    (if eqb (tc_mode c) Full then Some (tc_next_sequence_number c) else None) None (size_of frame)).
Proof. apply encoded_frames. Qed.
End framing.

#[local] Transparent le_bytes.

(** ** Witness, with a toy checksum, and the exception *)

#[local] Instance toy_crc : Crc32 := fun l => foldr (fun a acc => (byte_at a + 31 * acc) mod 2 ^ 32) 7 l.
#[local] Instance toy_crc_laws : Crc32Laws toy_crc.
Proof. intros [|a l]; simpl; [unfold crc32; simpl; lia|]. by apply Z.mod_pos_bound. Qed.

Lemma frames_round_trip_witness :
  exists frame, snd (encode_internal (bytes_of "hello!!!") [] false (codec_new Full)) = Ok frame
    /\ decode_frame (codec_new Full) (frame ++ bytes_of "next")
       = Ok (Some (frame_of (bytes_of "hello!!!") (Some 0) None (size_of frame)))
    /\ decode_frame (codec_new Full) (take 7 frame) = Ok None.
Proof.
  destruct (encode_internal (bytes_of "hello!!!") [] false (codec_new Full)) as [c' [frame|err]] eqn:Henc;
    [|vm_compute in Henc; discriminate Henc].
  destruct (frames_round_trip (codec_new Full) c' (codec_new Full) (bytes_of "hello!!!") [] frame Henc) as [Hall Hcut];
    [reflexivity|vm_compute; discriminate|vm_compute; discriminate|vm_compute; reflexivity|discriminate|].
  exists frame. split; [reflexivity|]. split; [apply Hall|]. apply Hcut.
  vm_compute in Henc. injection Henc as _ <-. simpl. lia.
Defined.

(** A padded payload of 8 to 16 bytes that begins with four bytes of ones is taken
    for a quick acknowledgement, and its payload is lost. *)
Lemma padded_payload_read_as_ack :
  let payload := (replicate 4 (byte_of 0xff) ++ bytes_of "data")%list in
  match snd (encode_internal payload [] false (codec_new PaddedIntermediate)) with
  | Ok frame => decode_frame (codec_new PaddedIntermediate) frame
                = Ok (Some (frame_of [] None (Some (of_le_bytes (bytes_of "data"))) (size_of frame)))
  | Err e => False
  end.
Proof. vm_compute. reflexivity. Qed.
