(* ===== verification/MtSession.v ===== *)
(** * Sessions, requests and update state ([telegram-protocol/src/session.rs], [request.rs], [updates.rs]) *)

From S2P Require Import Prelude Text Maps Bytes Tl.

(** ** MTProto message identifiers and sequence numbers ([telegram-protocol/src/session.rs]) *)

Definition FRACTION_SCALE : Z := Z.shiftl 1 32.
Definition NANOS_PER_SECOND : Z := 1000000000.

Inductive MessageIdError := OutOfRange | InvalidServerParity | OutsideTimeWindow | Replay | InvalidFraction.

Record MessageIdGuard := {
  last_client_message_id : option Z;
  recent_server_message_ids : gset Z;
  replay_window_size : Z;
}.
#[export] Instance eta_MessageIdGuard : Eta MessageIdGuard := fun g =>
  Build_MessageIdGuard (last_client_message_id g) (recent_server_message_ids g) (replay_window_size g).

Definition guard_new (window : Z) : MessageIdGuard :=
  {| last_client_message_id := None; recent_server_message_ids := ∅; replay_window_size := Z.max 1 window |}.
Definition guard_default : MessageIdGuard := guard_new 300.

(** 128-bit checked arithmetic *)
Definition in_i128 (z : Z) : bool := (- 2 ^ 127 <=? z) && (z <=? 2 ^ 127 - 1).
Definition checked_i128 (z : Z) : option Z := checked in_i128 z.

Definition lift_range {A : Type} (o : option A) : result MessageIdError A := ok_or o OutOfRange.

(** The identifier the clock suggests. *)
Definition clock_candidate (unix_seconds fractional_nanos : Z) : result MessageIdError Z :=
  scaled ← lift_range (checked_i128 (unix_seconds * FRACTION_SCALE));
  candidate ← lift_range (checked_i128 (scaled + fractional_nanos * FRACTION_SCALE / NANOS_PER_SECOND));
  let candidate := Z.land candidate (Z.lnot 3) in
  if Z.land candidate 0xffffffff =? 0 then lift_range (checked_i128 (candidate + 4)) else Ok candidate.

(** The identifier to use after the last one. *)
Definition next_candidate (last : option Z) (candidate : Z) : result MessageIdError Z :=
  candidate ← (match last with
               | Some last => next ← lift_range (checked_i128 (last + 4)); Ok (Z.max candidate next)
               | None => Ok candidate
               end);
  lift_range (checked in_i64 candidate).

Definition generate_client_message_id (unix_seconds fractional_nanos : Z) (g : MessageIdGuard) :
    MessageIdGuard * result MessageIdError Z :=
  if 1000000000 <=? fractional_nanos then (g, Err InvalidFraction)
  else
    match clock_candidate unix_seconds fractional_nanos ≫= next_candidate (last_client_message_id g) with
    | Err e => (g, Err e)
    | Ok candidate => (g ⟪ last_client_message_id := Some candidate ⟫, Ok candidate)
    end.

(** [BTreeSet::first] *)
Definition set_first (s : gset Z) : option Z := head (merge_sort Z.le (elements s)).

(** [while set.len() > size { set.pop_first() }], at most [fuel] rounds *)
Fixpoint trim_window (fuel : nat) (window : Z) (s : gset Z) : gset Z :=
  match fuel with
  | O => s
  | S fuel =>
      if window <? Z.of_nat (size s) then
        trim_window fuel window (match set_first s with Some m => s ∖ {[m]} | None => s end)
      else s
  end.

Definition validate_server_message_id (message_id now_unix_seconds : Z) (g : MessageIdGuard) :
    MessageIdGuard * result MessageIdError unit :=
  let recent := recent_server_message_ids g in
  let message_seconds := Z.shiftr message_id 32 in
  if negb (message_id mod 2 =? 1) then (g, Err InvalidServerParity)
  else if (message_seconds <? clamp i64_min i64_max (now_unix_seconds - 300))
          || (saturating_add_i64 now_unix_seconds 30 <? message_seconds) then (g, Err OutsideTimeWindow)
  else if bool_decide (message_id ∈ recent)
          || ((replay_window_size g <=? Z.of_nat (size recent))
              && is_some_and (set_first recent) (fun minimum => message_id <=? minimum)) then (g, Err Replay)
  else
    let recent := recent ∪ {[message_id]} in
    (g ⟪ recent_server_message_ids := trim_window (size recent) (replay_window_size g) recent ⟫, Ok tt).

(** [SessionSequence]: how many content-related messages were sent. *)
Inductive SequenceError := CounterExhausted.

Record SessionSequence := { content_related_count : Z }.

Definition in_i32 (z : Z) : bool := (- 2 ^ 31 <=? z) && (z <=? 2 ^ 31 - 1).

Definition next_sequence (content_related : bool) (s : SessionSequence) :
    SessionSequence * result SequenceError Z :=
  let step := if content_related then 1 else 0 in
  match (base ← checked in_u32 (content_related_count s * 2);
         sequence ← checked in_u32 (base + step); checked in_i32 sequence) with
  | None => (s, Err CounterExhausted)
  | Some sequence =>
      if content_related then
        match checked in_u32 (content_related_count s + 1) with
        | None => (s, Err CounterExhausted)
        | Some count => ({| content_related_count := count |}, Ok sequence)
        end
      else (s, Ok sequence)
  end.

(** ** Client identifiers *)

Lemma land_not3 z : Z.land z (Z.lnot 3) mod 4 = 0.
Proof.
  apply Z.mod_divide; [lia|]. exists (Z.shiftr z 2). change 4 with (2 ^ 2). rewrite <- Z.shiftl_mul_pow2 by lia.
  apply Z.bits_inj'. intros i Hi. rewrite Z.land_spec, Z.lnot_spec by lia. change 3 with (Z.ones 2).
  rewrite Z.testbit_ones_nonneg, Z.shiftl_spec by lia. destruct (Z.ltb_spec i 2).
  - rewrite (Z.testbit_neg_r _ (i - 2)) by lia. by rewrite andb_false_r.
  - rewrite Z.shiftr_spec by lia. replace (i - 2 + 2) with i by lia. by rewrite andb_true_r.
Qed.

Lemma clock_candidate_aligned s n c : clock_candidate s n = Ok c -> c mod 4 = 0.
Proof.
  unfold clock_candidate, lift_range. intros H. oks. destruct (_ =? 0); oks.
  - apply checked_spec in H as [-> _]. rewrite Z.add_mod, land_not3 by lia. done.
  - subst c. apply land_not3.
Qed.

(** Every identifier handed out is a multiple of four, and exceeds the last. *)
Lemma generated_id s n g g' id :
  (forall last, last_client_message_id g = Some last -> last mod 4 = 0) ->
  generate_client_message_id s n g = (g', Ok id) ->
  id mod 4 = 0 /\ in_i64 id = true /\ last_client_message_id g' = Some id
  /\ (forall last, last_client_message_id g = Some last -> last < id)
  /\ recent_server_message_ids g' = recent_server_message_ids g.
Proof.
  intros Hlast. unfold generate_client_message_id. destruct (_ <=? n); [done|].
  destruct (clock_candidate s n ≫= _) as [c|e] eqn:Hc; [|done]. intros [= <- <-].
  apply bind_ok in Hc as (c0 & Hc0 & Hnext). apply clock_candidate_aligned in Hc0.
  unfold next_candidate, lift_range in Hnext. oks. apply checked_spec in Hnext as [-> Hin].
  destruct (last_client_message_id g) as [last|]; oks.
  - apply checked_spec in Hok0 as [-> _]. subst. specialize (Hlast last eq_refl).
    split_and!; [|done|done|intros ? [= <-]; lia|done].
    destruct (Z.max_spec c0 (last + 4)) as [[_ ->]|[_ ->]]; [|done].
    rewrite Z.add_mod, Hlast by lia. done.
  - subst. split_and!; done.
Qed.

(** The identifiers a series of calls hands out, refused calls left out. *)
Fixpoint generated (calls : list (Z * Z)) (g : MessageIdGuard) : list Z :=
  match calls with
  | [] => []
  | (s, n) :: calls =>
      match generate_client_message_id s n g with
      | (g, Ok id) => id :: generated calls g
      | (g, Err _) => generated calls g
      end
  end.

Lemma generated_facts calls g :
  (forall last, last_client_message_id g = Some last -> last mod 4 = 0) ->
  StronglySorted Z.lt (generated calls g)
  /\ Forall (fun id => id mod 4 = 0 /\ in_i64 id = true) (generated calls g)
  /\ Forall (fun id => forall last, last_client_message_id g = Some last -> last < id) (generated calls g).
Proof.
  revert g. induction calls as [|[s n] calls IH]; intros g Hg; simpl; [split_and!; constructor|].
  destruct (generate_client_message_id s n g) as [g' [id|e]] eqn:Hgen.
  - destruct (generated_id _ _ _ _ _ Hg Hgen) as (Hal & Hin & Hl & Hgt & _).
    destruct (IH g') as (Hs & Ha & Hb); [intros last; rewrite Hl; intros [= <-]; done|].
    assert (Forall (Z.lt id) (generated calls g')) as Hall
      by (eapply list.Forall_impl; [exact Hb|]; intros x Hx; by apply Hx).
    split_and!; [by constructor|by constructor|]. constructor; [done|].
    eapply list.Forall_impl; [exact Hall|]. intros x Hx last Hlast. specialize (Hgt last Hlast). lia.
  - assert (g' = g) as ->; [|by apply IH]. unfold generate_client_message_id in Hgen.
    destruct (_ <=? n); [by simplify_eq|]. by destruct (_ ≫= _); simplify_eq.
Qed.

(** Client identifiers only grow.  Whatever the clock does, backwards jumps
    included, the message identifiers one guard hands out are strictly
    increasing, 64-bit, and multiples of four. *)
Theorem client_identifiers_increase (window : Z) (calls : list (Z * Z)) :
  StronglySorted Z.lt (generated calls (guard_new window))
  /\ Forall (fun id => id mod 4 = 0 /\ in_i64 id = true) (generated calls (guard_new window)).
Proof. destruct (generated_facts calls (guard_new window)) as (? & ? & _); done. Qed.

(** ** Server identifiers *)

Lemma set_first_spec (s : gset Z) :
  match set_first s with
  | None => s = ∅
  | Some m => m ∈ s /\ forall x, x ∈ s -> m <= x
  end.
Proof.
  unfold set_first. pose proof (merge_sort_Permutation Z.le (elements s)) as Hp.
  pose proof (StronglySorted_merge_sort Z.le (elements s)) as Hs.
  assert (forall x, x ∈ merge_sort Z.le (elements s) <-> x ∈ s) as Hin by (intros x; by rewrite Hp, elem_of_elements).
  destruct (merge_sort Z.le (elements s)) as [|m l]; simpl.
  - apply set_eq. intros x. rewrite <- Hin. set_solver.
  - split; [apply Hin; by left|]. intros x Hx. apply Hin in Hx.
    inversion Hs as [|? ? _ Hall]; subst. rewrite list.Forall_forall in Hall. apply elem_of_cons in Hx as [->|Hx]; auto. lia.
Qed.

(** Once the window is full, adding a greater identifier drops the least. *)
Lemma trim_window_full window s m id :
  Z.of_nat (size s) = window -> set_first s = Some m -> m < id -> id ∉ s ->
  trim_window (size (s ∪ {[id]})) window (s ∪ {[id]}) = (s ∪ {[id]}) ∖ {[m]}
  /\ Z.of_nat (size ((s ∪ {[id]}) ∖ {[m]})) = window.
Proof.
  intros Hsize Hfirst Hlt Hid. pose proof (set_first_spec s) as Hspec. rewrite Hfirst in Hspec. destruct Hspec as [Hm Hmin].
  assert (size (s ∪ {[id]}) = S (size s)) as Hs.
  { rewrite size_union by set_solver. rewrite size_singleton. lia. }
  assert (size ((s ∪ {[id]}) ∖ {[m]}) = size s) as Hs'.
  { rewrite size_difference by set_solver. rewrite size_singleton. lia. }
  split; [|lia]. rewrite Hs. cbn [trim_window]. rewrite Hs, (proj2 (Z.ltb_lt _ _)) by lia.
  pose proof (set_first_spec (s ∪ {[id]})) as Hspec. destruct (set_first (s ∪ {[id]})) as [m'|]; [|set_solver].
  destruct Hspec as [Hm' Hmin'].
  assert (m' = m) as ->.
  { assert (m' <= m) by (apply Hmin'; set_solver).
    apply elem_of_union in Hm' as [Hm'|Hm'%elem_of_singleton]; [specialize (Hmin m' Hm')|]; lia. }
  destruct (size s) as [|k]; [done|]. cbn [trim_window]. by rewrite (proj2 (Z.ltb_ge _ _)) by lia.
Qed.

(** Every identifier accepted before is remembered, or too old to be accepted again. *)
Record remembers (g : MessageIdGuard) (seen : list Z) : Prop := {
  rem_window : 1 <= replay_window_size g;
  rem_size : Z.of_nat (size (recent_server_message_ids g)) <= replay_window_size g;
  rem_seen : forall x, x ∈ seen -> x ∈ recent_server_message_ids g
    \/ (Z.of_nat (size (recent_server_message_ids g)) = replay_window_size g
        /\ exists m, set_first (recent_server_message_ids g) = Some m /\ x <= m);
}.

Lemma validate_remembers g seen id now g' :
  remembers g seen -> validate_server_message_id id now g = (g', Ok tt) ->
  id ∉ seen /\ remembers g' (id :: seen) /\ replay_window_size g' = replay_window_size g.
Proof.
  intros [Hw Hsize Hseen]. unfold validate_server_message_id. destruct (negb _); [done|]. destruct (_ || _); [done|].
  destruct (_ || _) eqn:Hreplay; [done|]. intros [= <-]. apply orb_false_iff in Hreplay as [Hnew Hold].
  apply bool_decide_eq_false in Hnew. set (s := recent_server_message_ids g) in *.
  destruct (decide (Z.of_nat (size s) = replay_window_size g)) as [Hfull|Hroom].
  - rewrite (proj2 (Z.leb_le _ _)) in Hold by lia. simpl in Hold.
    destruct (set_first s) as [m|] eqn:Hfirst.
    2: { pose proof (set_first_spec s) as He. rewrite Hfirst in He. rewrite He, size_empty in Hfull. lia. }
    simpl in Hold. apply Z.leb_gt in Hold.
    destruct (trim_window_full _ _ _ _ Hfull Hfirst Hold Hnew) as [-> Hsize'].
    split; [|split; [|done]].
    { intros Hin. destruct (Hseen id Hin) as [?|(_ & m' & Hm' & Hle)]; [done|]. injection Hm' as <-. lia. }
    pose proof (set_first_spec s) as Hspec. rewrite Hfirst in Hspec. destruct Hspec as [Hm Hmin].
    assert (forall x, x <= m -> exists m', set_first ((s ∪ {[id]}) ∖ {[m]}) = Some m' /\ x <= m') as Holder.
    { intros x Hx. pose proof (set_first_spec ((s ∪ {[id]}) ∖ {[m]})) as Hspec.
      destruct (set_first ((s ∪ {[id]}) ∖ {[m]})) as [m'|].
      - exists m'. split; [done|]. destruct Hspec as [Hin _].
        apply elem_of_difference in Hin as [[Hin|Hin%elem_of_singleton]%elem_of_union _]; [|lia].
        specialize (Hmin m' Hin). lia.
      - exfalso. assert (id ∈ (s ∪ {[id]}) ∖ {[m]}) as Hin; [|rewrite Hspec in Hin; set_solver].
        apply elem_of_difference. split; [set_solver|]. intros ->%elem_of_singleton. lia. }
    split; fields; [done|lia|]. intros x [->|Hx]%elem_of_cons.
    + left. apply elem_of_difference. split; [set_solver|]. intros Heq%elem_of_singleton. lia.
    + destruct (decide (x = m)) as [->|Hne]; [right; split; [done|apply Holder; lia]|].
      destruct (Hseen x Hx) as [Hin|(_ & m0 & [= <-] & Hle)]; [left; set_solver|].
      right. split; [done|by apply Holder].
  - assert (size (s ∪ {[id]}) = S (size s)) as Hs.
    { rewrite size_union by set_solver. rewrite size_singleton. lia. }
    assert (trim_window (size (s ∪ {[id]})) (replay_window_size g) (s ∪ {[id]}) = s ∪ {[id]}) as ->.
    { rewrite Hs. cbn [trim_window]. by rewrite Hs, (proj2 (Z.ltb_ge _ _)) by lia. }
    split; [|split; [|done]].
    { intros Hin. destruct (Hseen id Hin) as [?|[? _]]; [done|lia]. }
    split; fields; [done|lia|]. intros x [->|Hx]%elem_of_cons; [left; set_solver|].
    destruct (Hseen x Hx) as [Hin|[? _]]; [left; set_solver|lia].
Qed.

(** The identifiers a guard accepts, of those a peer sends, each with the time it
    arrives. *)
Fixpoint accepted (calls : list (Z * Z)) (g : MessageIdGuard) : list Z :=
  match calls with
  | [] => []
  | (id, now) :: calls =>
      match validate_server_message_id id now g with
      | (g, Ok _) => id :: accepted calls g
      | (g, Err _) => accepted calls g
      end
  end.

(** No server message is accepted twice.  However often a message is replayed,
    in whatever order and at whatever times, its identifier is accepted at most
    once over the life of a guard, though the guard remembers only the most
    recent identifiers, never more than its window. *)
Theorem server_message_accepted_once (window : Z) (calls : list (Z * Z)) :
  NoDup (accepted calls (guard_new window)).
Proof.
  assert (forall g seen, remembers g seen ->
    NoDup (accepted calls g) /\ forall x, x ∈ seen -> x ∉ accepted calls g) as H.
  { induction calls as [|[id now] calls IH]; intros g seen Hg; simpl; [split; [constructor|set_solver]|].
    destruct (validate_server_message_id id now g) as [g' [[]|e]] eqn:Hv.
    - destruct (validate_remembers _ _ _ _ _ Hg Hv) as (Hnew & Hg' & _). destruct (IH _ _ Hg') as [Hnd Hseen].
      split; [constructor; [apply Hseen; by left|done]|].
      intros x Hx [->|Hin]%elem_of_cons; [done|]. by apply (Hseen x); [right|].
    - assert (g' = g) as ->; [|by apply IH]. unfold validate_server_message_id in Hv.
      repeat case_match; by simplify_eq. }
  apply (H (guard_new window) []). split; unfold guard_new; simpl; [lia|change (Z.of_nat (size (∅ : gset Z)) <= Z.max 1 window); rewrite size_empty; lia|set_solver].
Qed.

(** ** Requests and update state ([telegram-protocol/src/request.rs], [updates.rs]) *)

(** ** [request.rs]: JSON requests with increasing identifiers *)

(** The JSON values of another crate: only the two constructors used. *)
Class JsonValue (Value : Type) := {
  json_string : string -> Value;
  json_object : gmap string Value -> Value;
}.

Section requests.
Context {Value : Type} `{JsonValue Value}.

Record ProtocolRequest := {
  req_id : Z;
  req_method : string;
  req_parameters : gmap string Value;
}.

Definition to_td_json (r : ProtocolRequest) : Value :=
  json_object (<["@extra" := json_string (display (req_id r))]>
                 (<["@type" := json_string (req_method r)]> (req_parameters r))).

Inductive RequestError := EmptyMethod | RequestSequenceExhausted.

(** [RequestSequencer] is the next identifier. *)
Record RequestSequencer := { seq_next : Z }.
Definition sequencer_new : RequestSequencer := {| seq_next := 1 |}.

Definition create_request (method : string) (parameters : gmap string Value) (s : RequestSequencer) :
    RequestSequencer * result RequestError ProtocolRequest :=
  if blank method then (s, Err EmptyMethod)
  else
    match checked_add_u64 (seq_next s) 1 with
    | None => (s, Err RequestSequenceExhausted)
    | Some next =>
        ({| seq_next := next |}, Ok {| req_id := seq_next s; req_method := method; req_parameters := parameters |})
    end.

(** The identifiers of a series of requests. *)
Fixpoint request_ids (calls : list (string * gmap string Value)) (s : RequestSequencer) : list Z :=
  match calls with
  | [] => []
  | (method, parameters) :: calls =>
      match create_request method parameters s with
      | (s, Ok r) => req_id r :: request_ids calls s
      | (s, Err _) => request_ids calls s
      end
  end.

(** They increase by one, whatever requests are refused in between. *)
Lemma request_ids_count calls s :
  request_ids calls s = seqZ (seq_next s) (Z.of_nat (length (request_ids calls s))).
Proof.
  revert s. induction calls as [|[method parameters] calls IH]; intros s; simpl; [done|].
  unfold create_request. destruct (blank method); [apply IH|].
  destruct (checked_add_u64 _ 1) as [next|] eqn:Hnext; [|apply IH].
  apply checked_spec in Hnext as [-> _]. cbn [req_id length]. rewrite seqZ_cons by lia.
  f_equal. rewrite IH at 1. cbn [seq_next]. f_equal; lia.
Qed.
End requests.
Arguments ProtocolRequest : clear implicits.

(** ** [updates.rs] *)

Definition UPDATES_GET_STATE_CONSTRUCTOR : Z := 0xedd4882a.
Definition UPDATES_GET_DIFFERENCE_CONSTRUCTOR : Z := 0x19c2f763.
Definition UPDATES_STATE_CONSTRUCTOR : Z := 0xa56c2a3e.
Definition UPDATES_DIFFERENCE_EMPTY_CONSTRUCTOR : Z := 0x5d75a138.
Definition UPDATES_DIFFERENCE_TOO_LONG_CONSTRUCTOR : Z := 0x4afe8f6d.

Record UpdateState := {
  up_pts : Z;
  up_qts : Z;
  up_date : Z;
  up_seq : Z;
  up_unread_count : Z;
}.

Record DifferenceRequest := {
  diff_state : UpdateState;
  diff_pts_limit : option Z;
  diff_pts_total_limit : option Z;
  diff_qts_limit : option Z;
}.

Inductive TerminalDifference :=
| DifferenceEmpty (date seq : Z)
| DifferenceTooLong (pts : Z).

Inductive UpdateError :=
| InvalidLimit
| UnexpectedUpdateConstructor (constructor : Z)
| TrailingBytes
| UpdateTl (error : TlError).

Definition build_updates_get_state : list ascii := le_bytes 4 UPDATES_GET_STATE_CONSTRUCTOR.

Definition write_optional_i32 (o : option Z) (w : TlWriter) : TlWriter :=
  match o with Some limit => write_i32 limit w | None => w end.

Definition flag (o : option Z) (bit : Z) : Z := match o with Some _ => bit | None => 0 end.

Definition build_updates_get_difference (r : DifferenceRequest) : result UpdateError (list ascii) :=
  reject_if (existsb (fun limit => is_some_and limit (fun l => l <=? 0))
               [diff_pts_limit r; diff_pts_total_limit r; diff_qts_limit r]) InvalidLimit ;;
  let flags := Z.lor (Z.lor (flag (diff_pts_total_limit r) 1) (flag (diff_pts_limit r) 2)) (flag (diff_qts_limit r) 4) in
  let w := write_u32 UPDATES_GET_DIFFERENCE_CONSTRUCTOR writer_new in
  let w := write_i32 flags w in
  let w := write_i32 (up_pts (diff_state r)) w in
  let w := write_optional_i32 (diff_pts_limit r) w in
  let w := write_optional_i32 (diff_pts_total_limit r) w in
  let w := write_i32 (up_date (diff_state r)) w in
  let w := write_i32 (up_qts (diff_state r)) w in
  let w := write_optional_i32 (diff_qts_limit r) w in
  Ok (w_bytes w).

Notation tl m := (lift_tl UpdateTl m).

(** The whole input is read, from its start. *)
Definition parse_update_state (input : list ascii) : result UpdateError UpdateState :=
  snd ((constructor ← tl read_u32;
        refuse_if (negb (constructor =? UPDATES_STATE_CONSTRUCTOR)) (UnexpectedUpdateConstructor constructor) ;;
        pts ← tl read_i32; qts ← tl read_i32; date ← tl read_i32; seq ← tl read_i32; unread_count ← tl read_i32;
        with_reader (fun r =>
          refuse_if (negb (is_finished r)) TrailingBytes ;;
          mret {| up_pts := pts; up_qts := qts; up_date := date; up_seq := seq; up_unread_count := unread_count |}))
       (reader_new input)).

Definition parse_terminal_difference (input : list ascii) : result UpdateError TerminalDifference :=
  snd ((constructor ← tl read_u32;
        difference ←
          (if constructor =? UPDATES_DIFFERENCE_EMPTY_CONSTRUCTOR
           then date ← tl read_i32; seq ← tl read_i32; mret (DifferenceEmpty date seq)
           else if constructor =? UPDATES_DIFFERENCE_TOO_LONG_CONSTRUCTOR
           then pts ← tl read_i32; mret (DifferenceTooLong pts)
           else reader_fail (UnexpectedUpdateConstructor constructor));
        with_reader (fun r => refuse_if (negb (is_finished r)) TrailingBytes ;; mret difference))
       (reader_new input)).

(** ** What the server sends is what is parsed *)

Lemma reads_whole {E A : Type} (m : TlParser E A) l a rest :
  reads DEFAULT_MAX_BYTES DEFAULT_MAX_VECTOR_LENGTH m l a -> Z.of_nat (length (l ++ rest)) <= u64_max ->
  exists r, m (reader_new (l ++ rest)) = (r, Ok a) /\ is_finished r = eqb rest [].
Proof.
  intros Hm Hlen. eexists. split; [exact (Hm [] rest Hlen)|].
  unfold is_finished, remaining. cbn [r_input r_offset app]. rewrite length_app.
  destruct rest as [|x rest]; [by rewrite Nat.add_0_r, Z.sub_diag|].
  rewrite (proj2 (eqb_false (x :: rest) [])) by done. apply Z.eqb_neq. simpl. lia.
Qed.

Definition in_i32_range (z : Z) : Prop := - 2 ^ 31 <= z < 2 ^ 31.

(** The fields of the TL schema, in its order. *)
Definition update_state_bytes (s : UpdateState) : list ascii :=
  (le_bytes 4 UPDATES_STATE_CONSTRUCTOR ++ le_bytes 4 (up_pts s) ++ le_bytes 4 (up_qts s) ++ le_bytes 4 (up_date s)
   ++ le_bytes 4 (up_seq s) ++ le_bytes 4 (up_unread_count s))%list.

#[local] Opaque le_bytes.

Lemma update_state_round_trip s rest :
  in_i32_range (up_pts s) -> in_i32_range (up_qts s) -> in_i32_range (up_date s) -> in_i32_range (up_seq s) ->
  in_i32_range (up_unread_count s) -> Z.of_nat (length (update_state_bytes s ++ rest)) <= u64_max ->
  parse_update_state (update_state_bytes s ++ rest) = if eqb rest [] then Ok s else Err TrailingBytes.
Proof.
  intros H1 H2 H3 H4 H5 Hlen. unfold parse_update_state.
  set (fields := (constructor ← tl read_u32;
    refuse_if (negb (constructor =? UPDATES_STATE_CONSTRUCTOR)) (UnexpectedUpdateConstructor constructor) ;;
    pts ← tl read_i32; qts ← tl read_i32; date ← tl read_i32; seq ← tl read_i32; unread_count ← tl read_i32;
    mret {| up_pts := pts; up_qts := qts; up_date := date; up_seq := seq; up_unread_count := unread_count |})
    : TlParser UpdateError UpdateState).
  assert (reads DEFAULT_MAX_BYTES DEFAULT_MAX_VECTOR_LENGTH fields (update_state_bytes s) s) as Hreads.
  { unfold fields, update_state_bytes.
    eapply reads_bind; [apply reads_lift, reads_u32; unfold UPDATES_STATE_CONSTRUCTOR; lia|].
    apply reads_refuse; [by rewrite Z.eqb_refl|].
    do 4 (eapply reads_bind; [by apply reads_lift, reads_i32|]). rewrite <- (app_nil_r (le_bytes 4 (up_unread_count s))).
    eapply reads_bind; [by apply reads_lift, reads_i32|]. destruct s. apply reads_ret. }
  destruct (reads_whole fields _ s rest Hreads Hlen) as (r & Hr & Hfin).
  revert Hr. unfold fields, mbind, parser_bind. generalize (reader_new (update_state_bytes s ++ rest)). intros r0.
  repeat match goal with
  | |- context [lift_tl ?f ?m ?r] => destruct (lift_tl f m r) as [? [?|?]]; [|done]
  | |- context [refuse_if ?b ?e ?r] => destruct (refuse_if b e r) as [? [?|?]]; [|done]
  end.
  unfold mret, parser_ret. intros [= -> <-]. unfold with_reader. rewrite Hfin. by destruct (eqb rest []).
Qed.
