(* ===== verification/Crypto.v ===== *)
(** * MTProto encryption ([telegram-protocol/src/crypto.rs])

    AES in infinite garble extension mode, message keys, and sealed envelopes.
    The block cipher and the hashes are other crates': the fields of [MtCipher]. *)

From S2P Require Import Prelude Text Maps Bytes.

Definition AUTH_KEY_LENGTH : Z := 256.
Definition AES_BLOCK_LENGTH : Z := 16.
Definition MIN_PADDING_LENGTH : Z := 12.
Definition MAX_PADDING_LENGTH : Z := 1024.
Definition INTERNAL_HEADER_LENGTH : Z := 32.

Notation size_of l := (Z.of_nat (length l)).

Class MtCipher := {
  mt_sha1 : list ascii -> list ascii;
  mt_sha256 : list ascii -> list ascii;
  (** AES-256 on one block, by the key *)
  encrypt_block : list ascii -> list ascii -> list ascii;
  decrypt_block : list ascii -> list ascii -> list ascii;
}.

(** What the crates document: sizes, and that decryption inverts encryption, both
    being permutations of the blocks. *)
Class MtCipherLaws (C : MtCipher) : Prop := {
  mt_sha1_length : forall l, length (mt_sha1 l) = 20%nat;
  mt_sha256_length : forall l, length (mt_sha256 l) = 32%nat;
  encrypt_block_length : forall k b, length b = 16%nat -> length (encrypt_block k b) = 16%nat;
  decrypt_block_length : forall k b, length b = 16%nat -> length (decrypt_block k b) = 16%nat;
  decrypt_encrypt_block : forall k b, length k = 32%nat -> length b = 16%nat -> decrypt_block k (encrypt_block k b) = b;
  encrypt_decrypt_block : forall k b, length k = 32%nat -> length b = 16%nat -> encrypt_block k (decrypt_block k b) = b;
}.

Inductive CryptoError :=
| InvalidAuthKeyLength (length : Z)
| InvalidEnvelope
| InvalidPlaintext
| AuthenticationFailed
| SessionMismatch
| InvalidMessageId.

(** An authorization key is its 256 bytes. *)
Record AuthKey := MkAuthKey { auth_key_bytes : list ascii }.

(** [AuthKey::from_slice] *)
Definition auth_key_from_slice (value : list ascii) : result CryptoError AuthKey :=
  if size_of value =? AUTH_KEY_LENGTH then Ok (MkAuthKey value) else Err (InvalidAuthKeyLength (size_of value)).

Inductive CryptoDirection := ClientToServer | ServerToClient.

(** [CryptoDirection::x] *)
Definition direction_x (d : CryptoDirection) : nat := match d with ClientToServer => 0 | ServerToClient => 8 end.

Record PlainMessage := {
  pm_server_salt : Z;
  pm_session_id : Z;
  pm_message_id : Z;
  pm_sequence_number : Z;
  pm_body : list ascii;
  pm_padding : list ascii;
}.

Record EncryptedEnvelope := {
  env_auth_key_id : Z;
  env_message_key : list ascii;
  env_encrypted_data : list ascii;
}.

(** [array[from..to]] of an array known to be long enough. *)
Definition sub (l : list ascii) (from to : nat) : list ascii := take (to - from) (drop from l).

(** ** AES-IGE *)

(** [xor_into], and the loops that xor a block into another. *)
Definition xor_bytes (l r : list ascii) : list ascii :=
  zip_with (fun a b => byte_of (Z.lxor (byte_at a) (byte_at b))) l r.

(** [chunks_exact(16)]: the first [n] blocks. *)
Fixpoint chunks_exact (n : nat) (l : list ascii) : list (list ascii) :=
  match n with
  | O => []
  | S n => take 16 l :: chunks_exact n (drop 16 l)
  end.
Definition blocks_of (l : list ascii) : list (list ascii) := chunks_exact (length l / 16) l.

Section cipher.
Context `{C : MtCipher}.

Fixpoint ige_encrypt_blocks (key previous_ciphertext previous_plaintext : list ascii)
    (blocks : list (list ascii)) : list (list ascii) :=
  match blocks with
  | [] => []
  | plaintext :: blocks =>
      let ciphertext := xor_bytes (encrypt_block key (xor_bytes plaintext previous_ciphertext)) previous_plaintext in
      ciphertext :: ige_encrypt_blocks key ciphertext plaintext blocks
  end.

Fixpoint ige_decrypt_blocks (key previous_ciphertext previous_plaintext : list ascii)
    (blocks : list (list ascii)) : list (list ascii) :=
  match blocks with
  | [] => []
  | ciphertext :: blocks =>
      let plaintext := xor_bytes (decrypt_block key (xor_bytes ciphertext previous_plaintext)) previous_ciphertext in
      plaintext :: ige_decrypt_blocks key ciphertext plaintext blocks
  end.

Definition whole_blocks (l : list ascii) : bool := (0 <? size_of l) && (size_of l mod AES_BLOCK_LENGTH =? 0).

Definition aes_ige_encrypt (plaintext key iv : list ascii) : result CryptoError (list ascii) :=
  reject_if (negb (whole_blocks plaintext)) InvalidPlaintext ;;
  Ok (concat (ige_encrypt_blocks key (sub iv 0 16) (sub iv 16 32) (blocks_of plaintext))).

Definition aes_ige_decrypt (ciphertext key iv : list ascii) : result CryptoError (list ascii) :=
  reject_if (negb (whole_blocks ciphertext)) InvalidEnvelope ;;
  Ok (concat (ige_decrypt_blocks key (sub iv 0 16) (sub iv 16 32) (blocks_of ciphertext))).

(** ** Keys *)

(** [AuthKey::id] *)
Definition auth_key_id (k : AuthKey) : Z := of_le_bytes (sub (mt_sha1 (auth_key_bytes k)) 12 20).

Definition derive_aes_key_iv (k : AuthKey) (message_key : list ascii) (d : CryptoDirection) :
    list ascii * list ascii :=
  let x := direction_x d in
  let sha256_a := mt_sha256 (message_key ++ sub (auth_key_bytes k) x (x + 36)) in
  let sha256_b := mt_sha256 (sub (auth_key_bytes k) (40 + x) (76 + x) ++ message_key) in
  ((sub sha256_a 0 8 ++ sub sha256_b 8 24 ++ sub sha256_a 24 32)%list,
   (sub sha256_b 0 8 ++ sub sha256_a 8 24 ++ sub sha256_b 24 32)%list).

Definition compute_message_key_large (k : AuthKey) (d : CryptoDirection) (plaintext : list ascii) : list ascii :=
  let x := direction_x d in mt_sha256 (sub (auth_key_bytes k) (88 + x) (120 + x) ++ plaintext).

Definition compute_message_key (k : AuthKey) (d : CryptoDirection) (plaintext : list ascii) : list ascii :=
  sub (compute_message_key_large k d plaintext) 8 24.

(** ** Messages *)

Definition validate_plain_message (m : PlainMessage) (direction : option CryptoDirection)
    (expected_session_id : option Z) : result CryptoError unit :=
  reject_if ((size_of (pm_body m) =? 0) || negb (size_of (pm_body m) mod 4 =? 0)
             || negb ((MIN_PADDING_LENGTH <=? size_of (pm_padding m)) && (size_of (pm_padding m) <=? MAX_PADDING_LENGTH))
             || negb ((INTERNAL_HEADER_LENGTH + size_of (pm_body m) + size_of (pm_padding m)) mod AES_BLOCK_LENGTH =? 0))
    InvalidPlaintext ;;
  reject_if (is_some_and expected_session_id (fun expected => negb (pm_session_id m =? expected))) SessionMismatch ;;
  match direction with
  | None => Ok tt
  | Some d =>
      let valid := match d with
                   | ClientToServer => pm_message_id m mod 4 =? 0
                   | ServerToClient => pm_message_id m mod 2 =? 1
                   end in
      reject_if (negb valid) InvalidMessageId
  end.

(** [PlainMessage::encode] *)
Definition encode_plain_message (m : PlainMessage) : result CryptoError (list ascii) :=
  validate_plain_message m None None ;;
  reject_if (2 ^ 31 - 1 <? size_of (pm_body m)) InvalidPlaintext ;;
  Ok (le_bytes 8 (pm_server_salt m) ++ le_bytes 8 (pm_session_id m) ++ le_bytes 8 (pm_message_id m)
      ++ le_bytes 4 (pm_sequence_number m) ++ le_bytes 4 (size_of (pm_body m)) ++ pm_body m ++ pm_padding m)%list.

Definition read_signed (bytes : Z) (value : list ascii) (offset : Z) : result CryptoError Z :=
  l ← ok_or (slice value offset (offset + bytes)) InvalidPlaintext;
  Ok (to_signed (8 * bytes) (of_le_bytes l)).

Definition decode_plain_message (plaintext : list ascii) : result CryptoError PlainMessage :=
  reject_if (size_of plaintext <? INTERNAL_HEADER_LENGTH + MIN_PADDING_LENGTH) InvalidPlaintext ;;
  server_salt ← read_signed 8 plaintext 0;
  session_id ← read_signed 8 plaintext 8;
  message_id ← read_signed 8 plaintext 16;
  sequence_number ← read_signed 4 plaintext 24;
  body_length ← read_signed 4 plaintext 28;
  reject_if ((body_length <? 0) || negb (Z.rem body_length 4 =? 0)) InvalidPlaintext ;;
  let body_end := INTERNAL_HEADER_LENGTH + body_length in
  body ← ok_or (slice plaintext INTERNAL_HEADER_LENGTH body_end) InvalidPlaintext;
  padding ← ok_or (slice plaintext body_end (size_of plaintext)) InvalidPlaintext;
  Ok {| pm_server_salt := server_salt; pm_session_id := session_id; pm_message_id := message_id;
        pm_sequence_number := sequence_number; pm_body := body; pm_padding := padding |}.

Definition encrypt_message (k : AuthKey) (d : CryptoDirection) (m : PlainMessage) :
    result CryptoError EncryptedEnvelope :=
  plaintext ← encode_plain_message m;
  let message_key := compute_message_key k d plaintext in
  let (aes_key, aes_iv) := derive_aes_key_iv k message_key d in
  encrypted_data ← aes_ige_encrypt plaintext aes_key aes_iv;
  Ok {| env_auth_key_id := auth_key_id k; env_message_key := message_key; env_encrypted_data := encrypted_data |}.

Definition quick_ack_token (k : AuthKey) (d : CryptoDirection) (m : PlainMessage) : result CryptoError Z :=
  plaintext ← encode_plain_message m;
  Ok (Z.lor (of_le_bytes (sub (compute_message_key_large k d plaintext) 0 4)) (Z.shiftl 1 31)).

Definition decrypt_message (k : AuthKey) (d : CryptoDirection) (e : EncryptedEnvelope) (expected_session_id : Z) :
    result CryptoError PlainMessage :=
  reject_if (negb (env_auth_key_id e =? auth_key_id k) || negb (whole_blocks (env_encrypted_data e)))
    AuthenticationFailed ;;
  let (aes_key, aes_iv) := derive_aes_key_iv k (env_message_key e) d in
  plaintext ← map_err (fun _ => AuthenticationFailed) (aes_ige_decrypt (env_encrypted_data e) aes_key aes_iv);
  reject_if (negb (eqb (compute_message_key k d plaintext) (env_message_key e))) AuthenticationFailed ;;
  message ← decode_plain_message plaintext;
  validate_plain_message message (Some d) (Some expected_session_id) ;;
  Ok message.

(** ** Envelopes as bytes *)

(** [EncryptedEnvelope::to_bytes] and [from_bytes] *)
Definition envelope_to_bytes (e : EncryptedEnvelope) : list ascii :=
  (le_bytes 8 (env_auth_key_id e) ++ env_message_key e ++ env_encrypted_data e)%list.

Definition envelope_from_bytes (value : list ascii) : result CryptoError EncryptedEnvelope :=
  reject_if ((size_of value <? 24) || negb ((size_of value - 24) mod AES_BLOCK_LENGTH =? 0)) InvalidEnvelope ;;
  Ok {| env_auth_key_id := of_le_bytes (sub value 0 8); env_message_key := sub value 8 24;
        env_encrypted_data := drop 24 value |}.
End cipher.

(** ** Blocks *)

Lemma lxor_byte a b : 0 <= a < 256 -> 0 <= b < 256 -> 0 <= Z.lxor a b < 256.
Proof.
  intros Ha Hb. assert (Z.lxor a b = Z.lxor a b mod 2 ^ 8) as ->; [|by apply Z.mod_pos_bound].
  apply Z.bits_inj'. intros i Hi. destruct (Z.ltb_spec i 8).
  - by rewrite Z.mod_pow2_bits_low by lia.
  - rewrite Z.mod_pow2_bits_high by lia. rewrite Z.lxor_spec.
    rewrite <- (Z.mod_small a (2 ^ 8)), <- (Z.mod_small b (2 ^ 8)) by (change (2 ^ 8) with 256; lia).
    by rewrite !Z.mod_pow2_bits_high by lia.
Qed.

Lemma xor_bytes_length l r : length (xor_bytes l r) = Nat.min (length l) (length r).
Proof. apply length_zip_with. Qed.

Lemma xor_bytes_cancel l r : (length l <= length r)%nat -> xor_bytes (xor_bytes l r) r = l.
Proof.
  unfold xor_bytes. revert r. induction l as [|a l IH]; intros [|b r] Hl; simpl in *; try done; try lia.
  pose proof (byte_at_range a). pose proof (byte_at_range b).
  rewrite byte_at_byte_of by (apply lxor_byte; lia).
  rewrite Z.lxor_assoc, Z.lxor_nilpotent, Z.lxor_0_r, byte_of_byte_at, IH by lia. done.
Qed.

Definition is_block (b : list ascii) : Prop := length b = 16%nat.

Lemma chunks_exact_concat n l : length l = (16 * n)%nat -> concat (chunks_exact n l) = l.
Proof.
  revert l. induction n as [|n IH]; intros l Hl; [by destruct l|]. simpl.
  rewrite IH by (rewrite length_drop; lia). apply take_drop.
Qed.

Lemma chunks_exact_blocks n l : length l = (16 * n)%nat -> Forall is_block (chunks_exact n l).
Proof.
  revert l. induction n as [|n IH]; intros l Hl; constructor.
  - unfold is_block. rewrite length_take. lia.
  - apply IH. rewrite length_drop. lia.
Qed.

Lemma concat_length bs : Forall is_block bs -> length (concat bs) = (16 * length bs)%nat.
Proof. induction 1 as [|b bs Hb _ IH]; [done|]. simpl. rewrite length_app, Hb, IH. lia. Qed.

Lemma blocks_of_concat bs : Forall is_block bs -> blocks_of (concat bs) = bs.
Proof.
  intros Hbs. unfold blocks_of. rewrite concat_length, Nat.mul_comm, Nat.div_mul by done.
  induction Hbs as [|b bs Hb _ IH]; [done|]. simpl. rewrite take_app_length', drop_app_length' by done. by f_equal.
Qed.

Lemma whole_blocks_spec l :
  whole_blocks l = true <-> (0 < length l)%nat /\ length l = (16 * (length l / 16))%nat.
Proof.
  unfold whole_blocks, AES_BLOCK_LENGTH. rewrite andb_true_iff, Z.ltb_lt, Z.eqb_eq.
  pose proof (Nat2Z.inj_mod (length l) 16) as Hm. change (Z.of_nat 16) with 16 in Hm. rewrite <- Hm.
  pose proof (Nat.div_mod_eq (length l) 16). lia.
Qed.

Lemma blocks_of_whole l :
  whole_blocks l = true -> concat (blocks_of l) = l /\ Forall is_block (blocks_of l) /\ blocks_of l <> [].
Proof.
  intros [Hpos Hlen]%whole_blocks_spec. unfold blocks_of.
  split; [by apply chunks_exact_concat|]. split; [by apply chunks_exact_blocks|].
  destruct (length l / 16)%nat; [lia|done].
Qed.

Lemma whole_blocks_concat bs : Forall is_block bs -> bs <> [] -> whole_blocks (concat bs) = true.
Proof.
  intros Hbs Hne. apply whole_blocks_spec. rewrite concat_length by done.
  rewrite (Nat.mul_comm 16), Nat.div_mul by done. destruct bs; [done|]. simpl. lia.
Qed.

(** ** The mode is a bijection of whole blocks *)

Section laws.
Context `{C : MtCipher, !MtCipherLaws C}.

Lemma ige_encrypt_step k c p b :
  length k = 32%nat -> is_block c -> is_block p -> is_block b ->
  let e := xor_bytes (encrypt_block k (xor_bytes b c)) p in
  is_block e /\ xor_bytes (decrypt_block k (xor_bytes e p)) c = b.
Proof.
  intros Hk Hc Hp Hb e. unfold is_block in *.
  assert (length (xor_bytes b c) = 16%nat) as Hx by (rewrite xor_bytes_length; lia).
  pose proof (encrypt_block_length k _ Hx) as He. split.
  - unfold e. rewrite xor_bytes_length. lia.
  - unfold e. rewrite xor_bytes_cancel by lia. rewrite decrypt_encrypt_block by done. apply xor_bytes_cancel. lia.
Qed.

Lemma ige_decrypt_step k c p b :
  length k = 32%nat -> is_block c -> is_block p -> is_block b ->
  let d := xor_bytes (decrypt_block k (xor_bytes b p)) c in
  is_block d /\ xor_bytes (encrypt_block k (xor_bytes d c)) p = b.
Proof.
  intros Hk Hc Hp Hb d. unfold is_block in *.
  assert (length (xor_bytes b p) = 16%nat) as Hx by (rewrite xor_bytes_length; lia).
  pose proof (decrypt_block_length k _ Hx) as He. split.
  - unfold d. rewrite xor_bytes_length. lia.
  - unfold d. rewrite xor_bytes_cancel by lia. rewrite encrypt_decrypt_block by done. apply xor_bytes_cancel. lia.
Qed.

Lemma ige_encrypt_decrypt k c p bs :
  length k = 32%nat -> is_block c -> is_block p -> Forall is_block bs ->
  Forall is_block (ige_encrypt_blocks k c p bs)
  /\ ige_decrypt_blocks k c p (ige_encrypt_blocks k c p bs) = bs.
Proof.
  intros Hk Hc Hp Hbs. revert c p Hc Hp. induction Hbs as [|b bs Hb _ IH]; intros c p Hc Hp; simpl; [done|].
  destruct (ige_encrypt_step k c p b Hk Hc Hp Hb) as [He ->].
  destruct (IH _ b He Hb) as [Hall ->]. split; [by constructor|done].
Qed.

Lemma ige_decrypt_encrypt k c p bs :
  length k = 32%nat -> is_block c -> is_block p -> Forall is_block bs ->
  Forall is_block (ige_decrypt_blocks k c p bs)
  /\ ige_encrypt_blocks k c p (ige_decrypt_blocks k c p bs) = bs.
Proof.
  intros Hk Hc Hp Hbs. revert c p Hc Hp. induction Hbs as [|b bs Hb _ IH]; intros c p Hc Hp; simpl; [done|].
  destruct (ige_decrypt_step k c p b Hk Hc Hp Hb) as [Hd ->].
  destruct (IH b _ Hb Hd) as [Hall ->]. split; [by constructor|done].
Qed.

Lemma sub_length l from to : (to <= length l)%nat -> length (sub l from to) = (to - from)%nat.
Proof. intros H. unfold sub. rewrite length_take, length_drop. lia. Qed.

(** Decryption inverts encryption, and encryption decryption, on whole blocks. *)
Lemma aes_ige_inverse key iv x y :
  length key = 32%nat -> length iv = 32%nat ->
  aes_ige_encrypt x key iv = Ok y <-> aes_ige_decrypt y key iv = Ok x.
Proof.
  intros Hk Hiv. unfold aes_ige_encrypt, aes_ige_decrypt.
  assert (is_block (sub iv 0 16) /\ is_block (sub iv 16 32)) as [Hc Hp]
    by (unfold is_block; rewrite !sub_length by lia; done).
  split.
  - destruct (whole_blocks x) eqn:Hx; [|done]. cbn [negb reject_if mbind result_bind]. intros [= <-].
    destruct (blocks_of_whole x Hx) as (Hcat & Hall & Hne).
    destruct (ige_encrypt_decrypt key _ _ _ Hk Hc Hp Hall) as [Hall' Hinv].
    rewrite whole_blocks_concat by (done || by destruct (blocks_of x)).
    cbn [negb reject_if mbind result_bind]. rewrite blocks_of_concat by done. by rewrite Hinv, Hcat.
  - destruct (whole_blocks y) eqn:Hy; [|done]. cbn [negb reject_if mbind result_bind]. intros [= <-].
    destruct (blocks_of_whole y Hy) as (Hcat & Hall & Hne).
    destruct (ige_decrypt_encrypt key _ _ _ Hk Hc Hp Hall) as [Hall' Hinv].
    rewrite whole_blocks_concat by (done || by destruct (blocks_of y)).
    cbn [negb reject_if mbind result_bind]. rewrite blocks_of_concat by done. by rewrite Hinv, Hcat.
Qed.
End laws.

(** ** Messages as plaintext *)

Lemma slice_join l a b c x y :
  0 <= a -> slice l a b = Some x -> slice l b c = Some y -> slice l a c = Some (x ++ y)%list.
Proof.
  intros Ha. unfold slice. destruct (_ && _) eqn:H1; [|done]. destruct ((b <=? c) && _) eqn:H2; [|done].
  intros [= <-] [= <-]. apply andb_true_iff in H1 as [?%Z.leb_le ?%Z.leb_le], H2 as [?%Z.leb_le ?%Z.leb_le].
  rewrite (proj2 (Z.leb_le a c)), (proj2 (Z.leb_le c _)) by lia. simpl. f_equal.
  replace (Z.to_nat b) with (Z.to_nat a + Z.to_nat (b - a))%nat by lia. rewrite <- drop_drop, take_take_drop.
  f_equal. lia.
Qed.

Lemma le_bytes_signed n l :
  (0 < n)%nat -> length l = n -> le_bytes n (to_signed (8 * Z.of_nat n) (of_le_bytes l)) = l.
Proof.
  intros Hn Hl.
  assert (forall z, le_bytes n (z mod 256 ^ Z.of_nat n) = le_bytes n z) as Hmod.
  { intros z. rewrite <- of_le_bytes_mod. pose proof (le_bytes_of (le_bytes n z)) as H.
    by rewrite le_bytes_length in H. }
  rewrite <- Hmod. unfold to_signed.
  assert (2 ^ (8 * Z.of_nat n) = 256 ^ Z.of_nat n) as Hp by (rewrite Z.pow_mul_r by lia; done).
  assert (of_le_bytes l mod 256 ^ Z.of_nat n = of_le_bytes l) as Hsmall
    by (apply Z.mod_small; rewrite <- Hl; apply of_le_bytes_range).
  destruct (_ <? _).
  - rewrite Hmod, <- Hl. apply le_bytes_of.
  - rewrite Hp. replace (of_le_bytes l - 256 ^ Z.of_nat n) with (of_le_bytes l + (-1) * 256 ^ Z.of_nat n) by lia.
    rewrite Z_mod_plus_full, Hmod, <- Hl. apply le_bytes_of.
Qed.

Lemma read_signed_ok n value offset z :
  (0 < n)%nat -> 0 <= offset -> read_signed (Z.of_nat n) value offset = Ok z ->
  slice value offset (offset + Z.of_nat n) = Some (le_bytes n z)
  /\ - 2 ^ (8 * Z.of_nat n - 1) <= z < 2 ^ (8 * Z.of_nat n - 1).
Proof.
  intros Hn Ho H. unfold read_signed in H. repeat ok_step. subst z.
  destruct (slice_some _ _ _ _ Hok Ho) as (_ & Hlen & _).
  rewrite le_bytes_signed by lia. split; [done|].
  pose proof (of_le_bytes_range a) as Hr. replace (Z.of_nat (length a)) with (Z.of_nat n) in Hr by lia.
  assert (256 ^ Z.of_nat n = 2 * 2 ^ (8 * Z.of_nat n - 1)) as Hp.
  { rewrite <- Z.pow_succ_r by lia. replace (Z.succ (8 * Z.of_nat n - 1)) with (8 * Z.of_nat n) by lia.
    by rewrite Z.pow_mul_r by lia. }
  assert (2 ^ (8 * Z.of_nat n) = 256 ^ Z.of_nat n) as Hp' by (rewrite Z.pow_mul_r by lia; done).
  unfold to_signed. destruct (Z.ltb_spec (of_le_bytes a) (2 ^ (8 * Z.of_nat n - 1))); lia.
Qed.

Lemma read_signed_at n value pre z rest offset :
  value = (pre ++ le_bytes n z ++ rest)%list -> (0 < n)%nat ->
  - 2 ^ (8 * Z.of_nat n - 1) <= z < 2 ^ (8 * Z.of_nat n - 1) -> offset = size_of pre ->
  read_signed (Z.of_nat n) value offset = Ok z.
Proof.
  intros -> Hn Hz Ho. unfold read_signed. rewrite (slice_app pre) by (rewrite ?le_bytes_length; lia).
  simpl. by rewrite to_signed_le_bytes.
Qed.

(** The fields of a message are Rust integers. *)
Record message_typed (m : PlainMessage) : Prop := {
  typed_salt : - 2 ^ 63 <= pm_server_salt m < 2 ^ 63;
  typed_session : - 2 ^ 63 <= pm_session_id m < 2 ^ 63;
  typed_id : - 2 ^ 63 <= pm_message_id m < 2 ^ 63;
  typed_sequence : - 2 ^ 31 <= pm_sequence_number m < 2 ^ 31;
}.

Lemma validate_split m direction session :
  validate_plain_message m direction session = Ok tt <->
  validate_plain_message m None None = Ok tt
  /\ is_none_or session (fun expected => pm_session_id m =? expected) = true
  /\ is_none_or direction (fun d => match d with
       | ClientToServer => pm_message_id m mod 4 =? 0
       | ServerToClient => pm_message_id m mod 2 =? 1 end) = true.
Proof.
  unfold validate_plain_message. destruct (_ || _); simpl; [naive_solver|].
  destruct session as [s|]; simpl; [destruct (_ =? s); simpl|]; (destruct direction as [d|]; simpl;
    [destruct (match d with ClientToServer => _ | ServerToClient => _ end)|]); naive_solver.
Qed.

#[local] Opaque le_bytes.

Lemma encode_decode m plaintext :
  message_typed m -> encode_plain_message m = Ok plaintext ->
  decode_plain_message plaintext = Ok m /\ whole_blocks plaintext = true.
Proof.
  intros [Ha Hb Hc Hd] H. unfold encode_plain_message in H. repeat ok_step. rename Hok into Hvalid.
  match goal with H : (_ <? _) = false |- _ => apply Z.ltb_ge in H as Hbody end.
  unfold validate_plain_message in Hvalid. repeat ok_step.
  repeat match goal with
  | H : _ && _ = true |- _ => apply andb_true_iff in H as [? ?]
  | H : (_ <=? _) = true |- _ => apply Z.leb_le in H
  | H : (_ =? _) = false |- _ => apply Z.eqb_neq in H
  | H : (_ =? _) = true |- _ => apply Z.eqb_eq in H
  end.
  unfold MIN_PADDING_LENGTH, MAX_PADDING_LENGTH, INTERNAL_HEADER_LENGTH, AES_BLOCK_LENGTH in *.
  set (body := pm_body m) in *. set (padding := pm_padding m) in *.
  assert (size_of plaintext = 32 + size_of body + size_of padding) as Hlen.
  { subst plaintext. rewrite !length_app, !le_bytes_length. lia. }
  split.
  - set (a := le_bytes 8 (pm_server_salt m)) in *. set (b := le_bytes 8 (pm_session_id m)) in *.
    set (c := le_bytes 8 (pm_message_id m)) in *. set (d := le_bytes 4 (pm_sequence_number m)) in *.
    set (e := le_bytes 4 (size_of body)) in *.
    assert (size_of a = 8 /\ size_of b = 8 /\ size_of c = 8 /\ size_of d = 4 /\ size_of e = 4) as (Hla & Hlb & Hlc & Hld & Hle)
      by (unfold a, b, c, d, e; by rewrite !le_bytes_length).
    assert (read_signed 8 plaintext 0 = Ok (pm_server_salt m)) as Hra
      by (eapply (read_signed_at 8 _ []); [by subst plaintext|lia|done|done]).
    assert (read_signed 8 plaintext 8 = Ok (pm_session_id m)) as Hrb
      by (eapply (read_signed_at 8 _ a); [by subst plaintext|lia|done|lia]).
    assert (read_signed 8 plaintext 16 = Ok (pm_message_id m)) as Hrc
      by (eapply (read_signed_at 8 _ (a ++ b)); [subst plaintext; by rewrite <- app_assoc|lia|done|rewrite length_app; lia]).
    assert (read_signed 4 plaintext 24 = Ok (pm_sequence_number m)) as Hrd
      by (eapply (read_signed_at 4 _ (a ++ b ++ c)); [subst plaintext; by rewrite <- !app_assoc|lia|done|rewrite !length_app; lia]).
    assert (read_signed 4 plaintext 28 = Ok (size_of body)) as Hre
      by (eapply (read_signed_at 4 _ (a ++ b ++ c ++ d)); [subst plaintext; by rewrite <- !app_assoc|lia|lia|rewrite !length_app; lia]).
    assert (slice plaintext 32 (32 + size_of body) = Some body) as Hsb
      by (replace plaintext with ((a ++ b ++ c ++ d ++ e) ++ body ++ padding)%list by (subst plaintext; by rewrite <- !app_assoc);
          apply slice_app; rewrite ?length_app; lia).
    assert (slice plaintext (32 + size_of body) (size_of plaintext) = Some padding) as Hsp
      by (replace plaintext with ((a ++ b ++ c ++ d ++ e ++ body) ++ padding ++ [])%list at 1
            by (subst plaintext; by rewrite <- !app_assoc, app_nil_r);
          apply slice_app; rewrite ?length_app; lia).
    unfold decode_plain_message, INTERNAL_HEADER_LENGTH, MIN_PADDING_LENGTH.
    rewrite (proj2 (Z.ltb_ge _ (32 + 12))) by lia. cbn [reject_if mbind result_bind].
    rewrite Hra, Hrb, Hrc, Hrd, Hre. cbn [mbind result_bind].
    rewrite (proj2 (Z.ltb_ge _ 0)), Z.rem_mod_nonneg, (proj2 (Z.eqb_eq _ 0)) by lia.
    cbn [negb orb reject_if mbind result_bind]. rewrite Hsb, Hsp. cbn [ok_or mbind result_bind]. by destruct m.
  - unfold whole_blocks, AES_BLOCK_LENGTH. rewrite Hlen. apply andb_true_iff.
    split; [apply Z.ltb_lt; lia|]. by apply Z.eqb_eq.
Qed.

Lemma decode_encode m plaintext :
  decode_plain_message plaintext = Ok m -> validate_plain_message m None None = Ok tt ->
  message_typed m /\ encode_plain_message m = Ok plaintext.
Proof.
  intros H Hvalid. unfold decode_plain_message, INTERNAL_HEADER_LENGTH in H. repeat ok_step.
  repeat match goal with
  | H : read_signed 8 _ _ = Ok _ |- _ => apply (read_signed_ok 8) in H as [? ?]; [|lia|lia]
  | H : read_signed 4 _ _ = Ok _ |- _ => apply (read_signed_ok 4) in H as [? ?]; [|lia|lia]
  | H : (_ <? _) = false |- _ => apply Z.ltb_ge in H
  end.
  subst m. cbn [pm_body] in *.
  match goal with Hs : slice _ 32 _ = Some ?b, Hp : slice _ _ (size_of _) = Some ?p |- _ =>
    destruct (slice_some _ _ _ _ Hs ltac:(lia)) as (_ & Hbody & _); rename Hs into Hsb; rename Hp into Hsp end.
  split; [by split|]. unfold encode_plain_message. rewrite Hvalid. cbn [mbind result_bind pm_body].
  rewrite (proj2 (Z.ltb_ge _ _)) by lia. cbn [reject_if mbind result_bind]. f_equal.
  apply (inj Some). rewrite <- (slice_all plaintext). symmetry. cbn [pm_server_salt pm_session_id pm_message_id pm_sequence_number pm_padding].
  match goal with H : size_of ?b = 32 + ?n - 32 |- _ => replace (size_of b) with n by lia end.
  do 6 (eapply slice_join; [lia|eassumption|]). exact Hsp.
Qed.

#[local] Transparent le_bytes.

(** ** Sealing and opening *)

Section sealing.
Context `{C : MtCipher, !MtCipherLaws C}.

Lemma derived_lengths k message_key d :
  length (fst (derive_aes_key_iv k message_key d)) = 32%nat
  /\ length (snd (derive_aes_key_iv k message_key d)) = 32%nat.
Proof. unfold derive_aes_key_iv. simpl. rewrite !length_app, !sub_length by (rewrite mt_sha256_length; lia). done. Qed.

Lemma opens_iff_sealed (k : AuthKey) (d : CryptoDirection) (e : EncryptedEnvelope) (session : Z)
    (m : PlainMessage) :
  decrypt_message k d e session = Ok m <->
  (encrypt_message k d m = Ok e /\ message_typed m /\ pm_session_id m = session
   /\ match d with ClientToServer => pm_message_id m mod 4 = 0 | ServerToClient => pm_message_id m mod 2 = 1 end).
Proof.
  pose proof (fun mk => derived_lengths k mk d) as Hlens.
  unfold decrypt_message, encrypt_message. split.
  - intros H. ok_step. repeat ok_step.
    destruct (derive_aes_key_iv k (env_message_key e) d) as [key iv] eqn:Hkeys.
    destruct (Hlens (env_message_key e)) as [Hk Hiv]. rewrite Hkeys in Hk, Hiv. simpl in Hk, Hiv.
    repeat ok_step. subst.
    match goal with H : eqb _ _ = true |- _ => apply eqb_true in H as Hmk end.
    match goal with H : validate_plain_message _ (Some _) _ = _ |- _ => apply validate_split in H as (Hv & Hs & Hd) end.
    match goal with H : decode_plain_message _ = _ |- _ => destruct (decode_encode _ _ H Hv) as [Ht Henc] end.
    rewrite Henc. cbn [mbind result_bind]. rewrite Hmk, Hkeys.
    match goal with H : aes_ige_decrypt _ _ _ = _ |- _ => apply (aes_ige_inverse _ _ _ _ Hk Hiv) in H as -> end.
    cbn [mbind result_bind]. split_and!; [|done|by apply Z.eqb_eq|destruct d; by apply Z.eqb_eq].
    match goal with H : (env_auth_key_id e =? _) = true |- _ => apply Z.eqb_eq in H as <- end. by destruct e.
  - intros (H & Ht & Hs & Hd). ok_step.
    destruct (derive_aes_key_iv k (compute_message_key k d a) d) as [key iv] eqn:Hkeys.
    destruct (Hlens (compute_message_key k d a)) as [Hk Hiv]. rewrite Hkeys in Hk, Hiv. simpl in Hk, Hiv.
    repeat ok_step. subst e. cbn [env_auth_key_id env_message_key env_encrypted_data].
    destruct (encode_decode _ _ Ht Hok) as [Hdec _].
    assert (validate_plain_message m (Some d) (Some session) = Ok tt) as Hv.
    { apply validate_split. split_and!; [|by apply Z.eqb_eq|destruct d; by apply Z.eqb_eq].
      unfold encode_plain_message in Hok. by repeat ok_step. }
    match goal with H : aes_ige_encrypt _ _ _ = Ok ?c |- _ => apply (aes_ige_inverse _ _ _ _ Hk Hiv) in H;
      assert (whole_blocks c = true) as -> by (unfold aes_ige_decrypt in H; by destruct (whole_blocks c)) end.
    rewrite Z.eqb_refl, Hkeys. cbn [negb orb reject_if mbind result_bind].
    match goal with H : aes_ige_decrypt _ _ _ = Ok _ |- _ => rewrite H end. cbn [map_err mbind result_bind].
    rewrite (proj2 (eqb_spec _ _)) by done. cbn [negb reject_if mbind result_bind].
    rewrite Hdec. cbn [mbind result_bind]. by rewrite Hv.
Qed.

(** C32: Opening is exactly the inverse of sealing.  An envelope opens, for a session and
    a direction, to a message if and only if it is the envelope that sealing this
    message under the same key and direction produces, the message belongs to the session, and its identifier has the direction's
    residue.  So every sealed message is opened unchanged by the peer, and no
    other envelope opens at all: its message key is the hash of what it decrypts
    to, its structure is checked, and its session and direction are the
    expected ones. *)
Theorem envelope_opens_iff_sealed (k : AuthKey) (d : CryptoDirection) (e : EncryptedEnvelope) (session : Z)
    (m : PlainMessage) :
  decrypt_message k d e session = Ok m <->
  (encrypt_message k d m = Ok e /\ message_typed m /\ pm_session_id m = session
   /\ match d with ClientToServer => pm_message_id m mod 4 = 0 | ServerToClient => pm_message_id m mod 2 = 1 end).
Proof. apply opens_iff_sealed. Qed.

(** Envelopes as bytes. *)
Lemma envelope_bytes k d m e :
  encrypt_message k d m = Ok e ->
  envelope_from_bytes (envelope_to_bytes e) = Ok e
  /\ size_of (envelope_to_bytes e) mod 4 = 0 /\ 24 < size_of (envelope_to_bytes e).
Proof.
  unfold encrypt_message. intros H. ok_step. destruct (derive_aes_key_iv _ _ _) as [key iv] eqn:Hkeys.
  pose proof (derived_lengths k (compute_message_key k d a) d) as [Hk Hiv]. rewrite Hkeys in Hk, Hiv. simpl in Hk, Hiv.
  repeat ok_step. subst e. unfold envelope_to_bytes, envelope_from_bytes. cbn [env_auth_key_id env_message_key env_encrypted_data].
  set (mk := compute_message_key k d a).
  assert (length mk = 16%nat) as Hmk
    by (unfold mk, compute_message_key; rewrite sub_length; [done|]; unfold compute_message_key_large; rewrite mt_sha256_length; lia).
  match goal with H : aes_ige_encrypt _ _ _ = Ok ?c |- _ => apply (aes_ige_inverse _ _ _ _ Hk Hiv) in H;
    assert (whole_blocks c = true) as Hw by (unfold aes_ige_decrypt in H; by destruct (whole_blocks c)); set (data := c) in * end.
  set (bytes := (le_bytes 8 (auth_key_id k) ++ mk ++ data)%list).
  assert (size_of bytes = 24 + size_of data) as Hlen
    by (unfold bytes; rewrite !length_app, le_bytes_length, Hmk; lia).
  unfold whole_blocks, AES_BLOCK_LENGTH in *. apply andb_true_iff in Hw as [Hpos%Z.ltb_lt Hmod%Z.eqb_eq].
  rewrite (proj2 (Z.ltb_ge _ 24)) by lia. replace (size_of bytes - 24) with (size_of data) by lia. rewrite Hmod.
  cbn [Z.eqb negb orb reject_if mbind result_bind]. split_and!; [|rewrite Hlen; Z.div_mod_to_equations; lia|lia].
  f_equal. f_equal.
  - assert (sub bytes 0 8 = le_bytes 8 (auth_key_id k)) as ->.
    { unfold sub, bytes. rewrite drop_0. change (8 - 0)%nat with 8%nat. apply take_app_length'. by rewrite le_bytes_length. }
    apply of_le_bytes_unsigned. unfold auth_key_id.
    pose proof (of_le_bytes_range (sub (mt_sha1 (auth_key_bytes k)) 12 20)) as Hr.
    by rewrite sub_length in Hr by (rewrite mt_sha1_length; lia).
  - unfold sub, bytes. rewrite drop_app_length' by (by rewrite le_bytes_length). apply take_app_length'. by rewrite Hmk.
  - unfold bytes. rewrite app_assoc. apply drop_app_length'. rewrite length_app, le_bytes_length, Hmk. done.
Qed.
End sealing.

(** ** A toy cipher *)

Definition toy_hash (n : nat) (l : list ascii) : list ascii := take n (l ++ replicate n (byte_of 7))%list.
Lemma toy_hash_length n l : length (toy_hash n l) = n.
Proof. unfold toy_hash. rewrite length_take, length_app, length_replicate. lia. Qed.

(** Xor with the first half of the key. *)
Definition toy_block (k b : list ascii) : list ascii := xor_bytes b (take 16 k).

#[export] Instance toy_cipher : MtCipher := {
  mt_sha1 := toy_hash 20;
  mt_sha256 := toy_hash 32;
  encrypt_block := fun k b => if (length k =? 32)%nat then toy_block k b else b;
  decrypt_block := fun k b => if (length k =? 32)%nat then toy_block k b else b;
}.

#[export] Instance toy_cipher_laws : MtCipherLaws toy_cipher.
Proof.
  assert (forall k b, length b = 16%nat -> length (if (length k =? 32)%nat then toy_block k b else b) = 16%nat) as Hlen.
  { intros k b Hb. destruct (Nat.eqb_spec (length k) 32); [|done].
    unfold toy_block. rewrite xor_bytes_length, length_take. lia. }
  assert (forall k b, length k = 32%nat -> length b = 16%nat ->
    (if (length k =? 32)%nat then toy_block k (if (length k =? 32)%nat then toy_block k b else b)
     else if (length k =? 32)%nat then toy_block k b else b) = b) as Hinv.
  { intros k b Hk Hb. rewrite Hk. simpl. apply xor_bytes_cancel. rewrite length_take. lia. }
  split; simpl; auto using toy_hash_length.
Qed.

Definition toy_key : AuthKey := MkAuthKey (replicate 256 (byte_of 9)).
Definition toy_message : PlainMessage := {|
  pm_server_salt := -5; pm_session_id := 77; pm_message_id := 8; pm_sequence_number := 1;
  pm_body := bytes_of "ping"; pm_padding := replicate 12 (byte_of 1) |}.

Lemma envelope_opens_iff_sealed_witness :
  exists e, encrypt_message toy_key ClientToServer toy_message = Ok e
    /\ decrypt_message toy_key ClientToServer e 77 = Ok toy_message
    /\ decrypt_message toy_key ClientToServer e 78 <> Ok toy_message.
Proof.
  destruct (encrypt_message toy_key ClientToServer toy_message) as [e|err] eqn:He;
    [|vm_compute in He; discriminate He].
  exists e. split; [reflexivity|]. split.
  - apply envelope_opens_iff_sealed. split; [exact He|]. split; [split; simpl; lia|]. split; reflexivity.
  - intros H. apply envelope_opens_iff_sealed in H as (_ & _ & H & _). discriminate H.
Defined.
