(* ===== verification/Auth.v ===== *)
(** * The authorization state machine ([telegram-protocol/src/auth.rs]) *)

From S2P Require Import Prelude Text Maps.

Inductive CodeDeliveryType :=
| DeliverTelegramMessage | DeliverSms | DeliverCall | DeliverFlashCall | DeliverMissedCall | DeliverEmail
| DeliverFragment | DeliverFirebaseAndroid | DeliverFirebaseIos | DeliverUnknown.

Inductive AuthorizationState :=
| WaitParameters
| WaitPhoneNumber
| WaitCode (phone_number : string) (delivery_type : CodeDeliveryType) (code_length : Z)
    (timeout_seconds : option Z)
| WaitOtherDeviceConfirmation (link : string)
| WaitRegistration (terms_of_service_id : option string)
| WaitPassword (password_hint : string) (has_recovery_email : bool) (recovery_email_pattern : option string)
| AuthReady
| LoggingOut
| Closing
| Closed.

Inductive AuthCommand :=
| ParametersAccepted
| SubmitPhoneNumber (phone_number : string)
| RequestQrCode
| SubmitCode (code : string)
| SubmitRegistration (first_name last_name : string)
| SubmitPassword (password : string)
| RequestPasswordRecovery
| Logout
| AuthClose
| ApplyRemoteState (state : AuthorizationState).

Inductive AuthEvent :=
| ParametersConfigured
| PhoneNumberSubmitted (phone_number : string)
| QrCodeRequested
| CodeSubmitted
| RegistrationSubmitted
| PasswordSubmitted
| PasswordRecoveryRequested
| LogoutRequested
| CloseRequested
| StateChanged (state : AuthorizationState).

Inductive AuthError :=
| InvalidTransition (state : AuthorizationState) (command : string)
| InvalidPhoneNumber
| InvalidCode
| InvalidRegistrationName
| InvalidPassword.

(** [AuthorizationMachine] is its state; [new] is the default state. *)
Definition machine_new : AuthorizationState := WaitParameters.

Definition digits_of (s : string) : string := string_of (filter (fun a => is_ascii_digit a = true) (bytes_of s)).

Definition normalize_phone_number (value : string) : result AuthError string :=
  let trimmed := trim value in
  let digits := digits_of trimmed in
  reject_if (negb (is_some_and (strip_prefix "+" trimmed) (fun _ => true))
             || negb ((6 <=? len digits) && (len digits <=? 20))) InvalidPhoneNumber ;;
  Ok ("+" +:+ digits).

Definition command_name (c : AuthCommand) : string :=
  match c with
  | ParametersAccepted => "parametersAccepted"
  | SubmitPhoneNumber _ => "submitPhoneNumber"
  | RequestQrCode => "requestQrCode"
  | SubmitCode _ => "submitCode"
  | SubmitRegistration _ _ => "submitRegistration"
  | SubmitPassword _ => "submitPassword"
  | RequestPasswordRecovery => "requestPasswordRecovery"
  | Logout => "logout"
  | AuthClose => "close"
  | ApplyRemoteState _ => "applyRemoteState"
  end.


(** [AuthorizationMachine::decide] *)
Definition decide_auth (state : AuthorizationState) (command : AuthCommand) : result AuthError (list AuthEvent) :=
  match command, state with
  | ParametersAccepted, WaitParameters => Ok [ParametersConfigured]
  | SubmitPhoneNumber phone_number, WaitPhoneNumber =>
      normalized ← normalize_phone_number phone_number; Ok [PhoneNumberSubmitted normalized]
  | RequestQrCode, WaitPhoneNumber => Ok [QrCodeRequested]
  | SubmitCode code, WaitCode _ _ _ _ =>
      let code := trim code in
      reject_if (is_empty code || (16 <? len code) || negb (all_bytes is_ascii_alphanumeric code)) InvalidCode ;;
      Ok [CodeSubmitted]
  | SubmitRegistration first_name last_name, WaitRegistration _ =>
      let first_name := trim first_name in
      let last_name := trim last_name in
      reject_if (is_empty first_name || (64 <? len first_name) || (64 <? len last_name)) InvalidRegistrationName ;;
      Ok [RegistrationSubmitted]
  | SubmitPassword password, WaitPassword _ _ _ =>
      reject_if (is_empty password) InvalidPassword ;; Ok [PasswordSubmitted]
  | RequestPasswordRecovery, WaitPassword _ _ _ => Ok [PasswordRecoveryRequested]
  | Logout, AuthReady => Ok [LogoutRequested]
  | AuthClose, Closing | AuthClose, Closed => Err (InvalidTransition state (command_name command))
  | AuthClose, _ => Ok [CloseRequested]
  | ApplyRemoteState state, _ => Ok [StateChanged state]
  | _, _ => Err (InvalidTransition state (command_name command))
  end.

(** [AuthorizationMachine::apply] *)
Definition apply_auth (event : AuthEvent) (state : AuthorizationState) : AuthorizationState :=
  match event with
  | ParametersConfigured => WaitPhoneNumber
  | LogoutRequested => LoggingOut
  | CloseRequested => Closing
  | StateChanged state => state
  | _ => state
  end.

(** [AuthorizationMachine::execute] *)
Definition execute_auth (command : AuthCommand) (state : AuthorizationState) :
    AuthorizationState * result AuthError (list AuthEvent) :=
  match decide_auth state command with
  | Err e => (state, Err e)
  | Ok events => (foldl (fun s e => apply_auth e s) state events, Ok events)
  end.

Definition run_auth (commands : list AuthCommand) (state : AuthorizationState) : AuthorizationState :=
  foldl (fun s c => fst (execute_auth c s)) state commands.

(** ** Who decides *)

(** The state the last answer of the server put the machine in; before the first
    answer, the initial one. *)
Definition last_remote (commands : list AuthCommand) (state : AuthorizationState) : AuthorizationState :=
  foldl (fun s c => match c with ApplyRemoteState remote => remote | _ => s end) state commands.

(** How far a client may go on its own from what the server said. *)
Inductive ahead_of : AuthorizationState -> AuthorizationState -> Prop :=
| ahead_none s : ahead_of s s
| ahead_parameters : ahead_of WaitParameters WaitPhoneNumber
| ahead_logout : ahead_of AuthReady LoggingOut
| ahead_closing s : s <> Closed -> ahead_of s Closing.

Lemma execute_auth_ahead c remote s :
  ahead_of remote s -> ahead_of (last_remote [c] remote) (fst (execute_auth c s)).
Proof.
  intros H. unfold execute_auth, last_remote. cbn [foldl].
  destruct c; [| | | | | | | | |constructor].
  all: destruct H; try (destruct s); cbn [decide_auth foldl apply_auth fst];
    repeat first [ constructor | congruence
                 | case_match; repeat ok_step; subst; cbn [fst foldl apply_auth] ].
Qed.

Lemma run_auth_ahead commands remote s :
  ahead_of remote s -> ahead_of (last_remote commands remote) (run_auth commands s).
Proof.
  revert remote s. induction commands as [|c commands IH]; intros remote s H; [done|].
  exact (IH _ _ (execute_auth_ahead c remote s H)).
Qed.

(** The states only the server can put a machine in. *)
Definition remote_only (s : AuthorizationState) : bool :=
  match s with
  | WaitParameters | WaitPhoneNumber | LoggingOut | Closing => false
  | _ => true
  end.

(** The server decides.  Whatever commands a machine is given from its start, it is
    in the state the server last announced, or at most one step ahead of it: asking
    for a phone number after the parameters, logging out of a ready session, or
    closing.  In particular a code, a password or a registration that was submitted
    never makes it ready: it is ready only when the server last said so.  A closed
    machine stays closed until the server speaks, and a refused command changes
    nothing. *)
Theorem authorization_follows_server (commands : list AuthCommand) :
  let s := run_auth commands machine_new in
  let remote := last_remote commands machine_new in
  ahead_of remote s
  /\ (remote_only s = true -> s = remote)
  /\ (remote = Closed -> s = Closed)
  /\ (forall c e, snd (execute_auth c s) = Err e -> fst (execute_auth c s) = s).
Proof.
  intros s remote. pose proof (run_auth_ahead commands machine_new machine_new (ahead_none _)) as H.
  fold s remote in H. split_and!; [done| | |].
  - by destruct H.
  - intros Hclosed. rewrite Hclosed in H. by inversion H.
  - intros c e. unfold execute_auth. by destruct (decide_auth s c).
Qed.

(** ** Phone numbers *)

Lemma digits_of_digits s : all_bytes is_ascii_digit (digits_of s) = true.
Proof.
  unfold all_bytes, digits_of. rewrite bytes_of_string_of. apply forallb_forall.
  intros a Ha%list_elem_of_In. by apply list_elem_of_filter in Ha as [? _].
Qed.

Lemma digits_of_fixed s : all_bytes is_ascii_digit s = true -> digits_of s = s.
Proof.
  unfold all_bytes, digits_of. rewrite forallb_forall. intros H. rewrite <- (string_of_bytes_of s) at 2. f_equal.
  assert (forall l, (forall a, In a l -> is_ascii_digit a = true) ->
    filter (fun a => is_ascii_digit a = true) l = l) as Hl; [|by apply Hl].
  induction l as [|a l IH]; intros Hall; [done|].
  rewrite filter_cons_True by (apply Hall; by left). f_equal. apply IH. intros b Hb. apply Hall. by right.
Qed.

(** A normalized number is a plus sign and 6 to 20 digits, and normalizing it again
    changes nothing. *)
Lemma normalize_phone_number_ok value n :
  normalize_phone_number value = Ok n ->
  (exists d, n = "+" +:+ d /\ all_bytes is_ascii_digit d = true /\ 6 <= len d <= 20)
  /\ normalize_phone_number n = Ok n.
Proof.
  unfold normalize_phone_number. intros H. repeat ok_step. subst n.
  set (d := digits_of (trim value)) in *. pose proof (digits_of_digits (trim value)) as Hd. fold d in Hd.
  assert (6 <= len d <= 20) as Hlen by lia.
  split; [by exists d|].
  assert (trim ("+" +:+ d) = "+" +:+ d) as ->.
  { apply trim_visible. unfold all_bytes in *. simpl. eapply forallb_forall. intros a Ha.
    rewrite forallb_forall in Hd. apply Hd in Ha. unfold is_ascii_digit in Ha. lia. }
  assert (digits_of ("+" +:+ d) = d) as ->.
  { change (digits_of ("+" +:+ d)) with (digits_of d). by apply digits_of_fixed. }
  rewrite (proj2 (Z.leb_le 6 _)), (proj2 (Z.leb_le _ 20)) by lia. done.
Qed.
