(* ===== verification/Dc.v ===== *)
(** * Data centres ([telegram-protocol/src/dc.rs]): the directory, and what an RPC
    error asks of the client *)

From S2P Require Import Prelude Text Maps.

(** ** [std::net::IpAddr] and its parser *)

(** An address is its 32 or 128 bits. *)
Inductive IpAddr := V4 (bits : Z) | V6 (bits : Z).
#[export] Instance IpAddr_eq_dec : EqDecision IpAddr.
Proof. solve_decision. Defined.

Definition is_ipv6 (a : IpAddr) : bool := match a with V4 _ => false | V6 _ => true end.

(** The value of a hexadecimal digit. *)
Definition hex_digit_value (a : ascii) : option Z :=
  let x := byte_at a in
  if (48 <=? x) && (x <=? 57) then Some (x - 48)
  else if (97 <=? x) && (x <=? 102) then Some (x - 87)
  else if (65 <=? x) && (x <=? 70) then Some (x - 55)
  else None.

(** The digits at the front, at most [max] of them: their value, their number, and
    what follows; one more digit is an error. *)
Fixpoint read_digits (radix : Z) (max : nat) (value : Z) (count : nat) (l : list ascii) :
    option (Z * nat * list ascii) :=
  let here := Some (value, count, l) in
  match l with
  | [] => here
  | a :: rest =>
      match hex_digit_value a with
      | Some d =>
          if d <? radix then
            match max with
            | O => None
            | S max => read_digits radix max (value * radix + d) (S count) rest
            end
          else here
      | None => here
      end
  end.

(** [Parser::read_number] *)
Definition read_number (radix : Z) (max_digits : nat) (allow_zero_prefix : bool) (limit : Z) (l : list ascii) :
    option (Z * list ascii) :=
  match read_digits radix max_digits 0 0 l with
  | Some (value, count, rest) =>
      let leading_zero := match l with a :: _ => eqb a "0"%char | [] => false end in
      if (count =? 0)%nat || (negb allow_zero_prefix && leading_zero && (1 <? count)%nat) || (limit <? value)
      then None else Some (value, rest)
  | None => None
  end.

Definition read_char (c : ascii) (l : list ascii) : option (list ascii) :=
  match l with
  | a :: rest => if eqb a c then Some rest else None
  | [] => None
  end.

(** [Parser::read_separator]: nothing before the first item. *)
Definition read_separator (c : ascii) (index : nat) (l : list ascii) : option (list ascii) :=
  match index with O => Some l | _ => read_char c l end.

Definition read_octet (index : nat) (l : list ascii) : option (Z * list ascii) :=
  l ← read_separator "."%char index l; read_number 10 3 false 255 l.

Definition read_ipv4 (l : list ascii) : option (Z * list ascii) :=
  '(a, l) ← read_octet 0 l; '(b, l) ← read_octet 1 l; '(c, l) ← read_octet 2 l; '(d, l) ← read_octet 3 l;
  Some (((a * 256 + b) * 256 + c) * 256 + d, l).

(** Up to [room] groups of 16 bits from the [index]th on: the groups, whether they
    end in an embedded IPv4 address, and what follows. *)
Fixpoint read_groups (room index : nat) (l : list ascii) : list Z * bool * list ascii :=
  match room with
  | O => ([], false, l)
  | S room' =>
      let ipv4 := if (0 <? room')%nat then read_separator ":"%char index l ≫= read_ipv4 else None in
      match ipv4 with
      | Some (bits, rest) => ([bits / 65536; bits mod 65536], true, rest)
      | None =>
          match read_separator ":"%char index l ≫= read_number 16 4 true 65535 with
          | Some (g, rest) => let '(gs, embedded, rest) := read_groups room' (S index) rest in (g :: gs, embedded, rest)
          | None => ([], false, l)
          end
      end
  end.

Definition groups_value (gs : list Z) : Z := foldl (fun acc g => acc * 65536 + g) 0 gs.

Definition read_ipv6 (l : list ascii) : option (Z * list ascii) :=
  let '(head, embedded, rest) := read_groups 8 0 l in
  if (length head =? 8)%nat then Some (groups_value head, rest)
  else if embedded : bool then None
  else
    rest ← read_char ":"%char rest; rest ← read_char ":"%char rest;
    let '(tail, _, rest) := read_groups (7 - length head) 0 rest in
    Some (groups_value (head ++ replicate (8 - length head - length tail) 0 ++ tail), rest).

(** Nothing may follow. *)
Definition whole (r : option (Z * list ascii)) : option Z :=
  match r with Some (a, []) => Some a | _ => None end.

(** [str::parse::<IpAddr>] *)
Definition parse_ip (s : string) : option IpAddr :=
  match read_ipv4 (bytes_of s) with
  | Some r => V4 <$> whole (Some r)
  | None => V6 <$> whole (read_ipv6 (bytes_of s))
  end.

(** ** The data *)

Definition TELEGRAM_PORTS : list Z := [443; 80; 5222].
Definition TELEGRAM_PRODUCTION_IPV4 : list (Z * string) :=
  [(1, "149.154.175.50"); (2, "149.154.167.51"); (2, "95.161.76.100"); (3, "149.154.175.100");
   (4, "149.154.167.91"); (5, "149.154.171.5")].
Definition TELEGRAM_PRODUCTION_IPV6 : list (Z * string) :=
  [(1, "2001:b28:f23d:f001::a"); (2, "2001:67c:4e8:f002::a"); (3, "2001:b28:f23d:f003::a");
   (4, "2001:67c:4e8:f004::a"); (5, "2001:b28:f23f:f005::a")].
Definition TELEGRAM_TEST_IPV4 : list (Z * string) :=
  [(1, "149.154.175.10"); (2, "149.154.167.40"); (3, "149.154.175.117")].
Definition TELEGRAM_TEST_IPV6 : list (Z * string) :=
  [(1, "2001:b28:f23d:f001::e"); (2, "2001:67c:4e8:f002::e"); (3, "2001:b28:f23d:f003::e")].

Inductive DcPurpose := Main | Media | Cdn.
#[export] Instance DcPurpose_eq_dec : EqDecision DcPurpose.
Proof. solve_decision. Defined.

Record DcEndpoint := {
  ep_dc_id : Z;
  ep_ip_address : IpAddr;
  ep_port : Z;
  ep_media_only : bool;
  ep_tcpo_only : bool;
  ep_cdn : bool;
  ep_is_static : bool;
  ep_this_port_only : bool;
  ep_secret : option (list ascii);
}.
#[export] Instance DcEndpoint_eq_dec : EqDecision DcEndpoint.
Proof. solve_decision. Defined.

Record DcDirectory := {
  dir_this_dc : Z;
  dir_test_mode : bool;
  dir_endpoints : list DcEndpoint;
}.

Inductive MigrationKind := MigratePhone | MigrateNetwork | MigrateUser | MigrateFile.
#[export] Instance MigrationKind_eq_dec : EqDecision MigrationKind.
Proof. solve_decision. Defined.

Record MigrationDirective := { mig_kind : MigrationKind; mig_dc_id : Z }.

Inductive RpcErrorAction :=
| ActMigrate (directive : MigrationDirective)
| ActWait (seconds : Z) (premium : bool)
| ActReauthorize
| ActRetryTransient
| ActFail.

Inductive DcRoute :=
| SwitchMain (dc_id : Z) (reason : MigrationKind)
| RetryOn (dc_id : Z) (purpose : DcPurpose)
| RouteWait (seconds : Z) (premium : bool)
| RouteReauthorize
| RouteRetryTransient
| RouteFail.

Inductive DcError :=
| InvalidDcId
| InvalidPort
| EmptyDirectory
| DuplicateEndpoint
| MissingEndpoint (dc_id : Z) (purpose : DcPurpose).

(** [DcEndpoint::new] *)
Definition endpoint_new (dc_id : Z) (ip_address : IpAddr) (port : Z)
    (media_only tcpo_only cdn is_static this_port_only : bool) (secret : option (list ascii)) :
    result DcError DcEndpoint :=
  reject_if (dc_id <=? 0) InvalidDcId ;;
  reject_if (port =? 0) InvalidPort ;;
  Ok {| ep_dc_id := dc_id; ep_ip_address := ip_address; ep_port := port; ep_media_only := media_only;
        ep_tcpo_only := tcpo_only; ep_cdn := cdn; ep_is_static := is_static;
        ep_this_port_only := this_port_only; ep_secret := secret |}.

Definition supports (e : DcEndpoint) (purpose : DcPurpose) : bool :=
  match purpose with
  | Main => negb (ep_media_only e) && negb (ep_cdn e)
  | Media => negb (ep_cdn e)
  | Cdn => ep_cdn e
  end.

(** ** [slice::sort_by_key]: stable, by keys compared component by component *)

Fixpoint lex_le (a b : list Z) : bool :=
  match a, b with
  | x :: a, y :: b => (x <? y) || ((x =? y) && lex_le a b)
  | [], _ => true
  | _ :: _, [] => false
  end.

Section sort.
Context {A : Type} (key : A -> list Z).

Fixpoint insert_by_key (x : A) (l : list A) : list A :=
  match l with
  | [] => [x]
  | y :: l' => if lex_le (key x) (key y) then x :: l else y :: insert_by_key x l'
  end.
Definition sort_by_key (l : list A) : list A := foldr insert_by_key [] l.
End sort.

Definition bit (b : bool) : Z := if b then 1 else 0.

(** ** The directory *)

Definition candidate_key (purpose : DcPurpose) (prefer_ipv6 : bool) (e : DcEndpoint) : list Z :=
  [bit (negb (eqb (is_ipv6 (ep_ip_address e)) prefer_ipv6)); bit (eqb purpose Media && negb (ep_media_only e));
   bit (ep_tcpo_only e); bit (negb (ep_is_static e)); ep_port e].

Definition candidates (d : DcDirectory) (dc_id : Z) (purpose : DcPurpose) (prefer_ipv6 : bool) :
    result DcError (list DcEndpoint) :=
  reject_if (dc_id <=? 0) InvalidDcId ;;
  let found := filter (fun e => (ep_dc_id e =? dc_id) && supports e purpose = true) (dir_endpoints d) in
  let sorted := sort_by_key (candidate_key purpose prefer_ipv6) found in
  reject_if (bool_decide (sorted = [])) (MissingEndpoint dc_id purpose) ;;
  Ok sorted.

Definition endpoint_key (e : DcEndpoint) : list Z :=
  [ep_dc_id e; bit (ep_cdn e); bit (ep_media_only e); bit (is_ipv6 (ep_ip_address e)); ep_port e].

(** [DcDirectory::new] *)
Definition directory_new (this_dc : Z) (test_mode : bool) (endpoints : list DcEndpoint) :
    result DcError DcDirectory :=
  reject_if (this_dc <=? 0) InvalidDcId ;;
  reject_if (bool_decide (endpoints = [])) EmptyDirectory ;;
  reject_if (negb (bool_decide (NoDup endpoints))) DuplicateEndpoint ;;
  let d := {| dir_this_dc := this_dc; dir_test_mode := test_mode;
              dir_endpoints := sort_by_key endpoint_key endpoints |} in
  candidates d this_dc Main false ;;
  Ok d.

(** The endpoints of one pinned address.  An address that did not parse would stop
    the program ([expect]); that is [None]. *)
Definition default_endpoints (entry : Z * string) : option (result DcError (list DcEndpoint)) :=
  ip ← parse_ip (snd entry);
  Some (foldr (fun port rest =>
    e ← endpoint_new (fst entry) ip port false false false true false None;
    l ← rest; Ok (e :: l)) (Ok []) TELEGRAM_PORTS).

Definition telegram_defaults (test_mode : bool) (this_dc : Z) : option (result DcError DcDirectory) :=
  let entries := (if test_mode then TELEGRAM_TEST_IPV4 ++ TELEGRAM_TEST_IPV6
                  else TELEGRAM_PRODUCTION_IPV4 ++ TELEGRAM_PRODUCTION_IPV6)%list in
  all ← foldr (fun entry rest => e ← default_endpoints entry; l ← rest; Some (e :: l)) (Some []) entries;
  Some (endpoints ← foldr (fun e rest => es ← e; l ← rest; Ok (es ++ l)%list) (Ok []) all;
        directory_new this_dc test_mode endpoints).

(** [DcDirectory::update] *)
Definition directory_update (this_dc : Z) (test_mode : bool) (endpoints : list DcEndpoint) (d : DcDirectory) :
    DcDirectory * result DcError unit :=
  match directory_new this_dc test_mode endpoints with
  | Ok replacement => (replacement, Ok tt)
  | Err e => (d, Err e)
  end.

(** ** RPC errors *)

(** [str::parse::<u32>] *)
Definition parse_u32 (s : string) : option Z := parse_usize s ≫= checked in_u32.

Definition parse_positive_suffix (message prefix : string) : option Z :=
  suffix ← strip_prefix prefix message;
  if is_empty suffix || negb (all_bytes is_ascii_digit suffix) then None
  else value ← parse_u32 suffix; if 0 <? value then Some value else None.

Definition migration_prefixes : list (string * MigrationKind) :=
  [("PHONE_MIGRATE_", MigratePhone); ("NETWORK_MIGRATE_", MigrateNetwork); ("USER_MIGRATE_", MigrateUser);
   ("FILE_MIGRATE_", MigrateFile)].

(** [Iterator::find_map] *)
Fixpoint find_map {A B : Type} (f : A -> option B) (l : list A) : option B :=
  match l with
  | [] => None
  | a :: l => match f a with Some b => Some b | None => find_map f l end
  end.

Definition parse_migration (message : string) : option MigrationDirective :=
  find_map (fun '(prefix, kind) =>
    dc_id ← parse_positive_suffix message prefix;
    if dc_id <? 2 ^ 31 then Some {| mig_kind := kind; mig_dc_id := dc_id |} else None) migration_prefixes.

Definition reauthorize_messages : list string :=
  ["AUTH_KEY_UNREGISTERED"; "AUTH_KEY_INVALID"; "SESSION_REVOKED"; "SESSION_EXPIRED"; "AUTH_KEY_DUPLICATED"].

Definition classify_rpc_error (code : Z) (message : string) : RpcErrorAction :=
  let message := trim message in
  if code =? 303 then
    match parse_migration message with
    | Some directive => ActMigrate directive
    | None => ActFail
    end
  else if code =? 420 then
    match parse_positive_suffix message "FLOOD_WAIT_" with
    | Some seconds => ActWait seconds false
    | None =>
        match parse_positive_suffix message "FLOOD_PREMIUM_WAIT_" with
        | Some seconds => ActWait seconds true
        | None => ActFail
        end
    end
  else if (code =? 401) && bool_decide (message ∈ reauthorize_messages) then ActReauthorize
  else if 500 <=? code then ActRetryTransient else ActFail.

Definition route_rpc_error (d : DcDirectory) (code : Z) (message : string) : result DcError DcRoute :=
  match classify_rpc_error code message with
  | ActMigrate directive =>
      let purpose := if eqb (mig_kind directive) MigrateFile then Media else Main in
      candidates d (mig_dc_id directive) purpose false ;;
      Ok (if eqb (mig_kind directive) MigrateFile then RetryOn (mig_dc_id directive) purpose
          else SwitchMain (mig_dc_id directive) (mig_kind directive))
  | ActWait seconds premium => Ok (RouteWait seconds premium)
  | ActReauthorize => Ok RouteReauthorize
  | ActRetryTransient => Ok RouteRetryTransient
  | ActFail => Ok RouteFail
  end.

(** ** The order of candidates *)

Lemma lex_le_total a b : lex_le a b = false -> lex_le b a = true.
Proof.
  revert b. induction a as [|x a IH]; intros [|y b]; simpl; try done.
  intros [Hlt Heq]%orb_false_iff. apply Z.ltb_ge in Hlt. apply orb_true_iff.
  destruct (decide (y < x)) as [|Hge]; [left; lia|]. right. assert (x = y) as -> by lia.
  rewrite Z.eqb_refl in *. simpl in *. by apply IH.
Qed.

Lemma lex_le_trans a b c : lex_le a b = true -> lex_le b c = true -> lex_le a c = true.
Proof.
  revert b c. induction a as [|x a IH]; intros [|y b] [|z c]; simpl; try done.
  rewrite !orb_true_iff, !andb_true_iff, !Z.ltb_lt, !Z.eqb_eq.
  intros [?|[-> Hab]] [?|[-> Hbc]]; eauto; left; lia.
Qed.

Section sorting.
Context {A : Type} (key : A -> list Z).
Definition key_before (a b : A) : Prop := lex_le (key a) (key b) = true.

Lemma insert_by_key_perm x l : insert_by_key key x l ≡ₚ x :: l.
Proof.
  induction l as [|y l IH]; simpl; [done|]. destruct (lex_le _ _); [done|]. rewrite IH. constructor.
Qed.

Lemma sort_by_key_perm l : sort_by_key key l ≡ₚ l.
Proof. induction l as [|x l IH]; simpl; [done|]. by rewrite insert_by_key_perm, IH. Qed.

Lemma insert_by_key_sorted x l : StronglySorted key_before l -> StronglySorted key_before (insert_by_key key x l).
Proof.
  induction 1 as [|y l Hl IH Hy]; simpl; [repeat constructor|].
  destruct (lex_le (key x) (key y)) eqn:Hxy.
  - constructor; [by constructor|]. constructor; [done|].
    eapply list.Forall_impl; [exact Hy|]. intros z Hz. by eapply lex_le_trans.
  - constructor; [done|]. rewrite insert_by_key_perm. constructor; [|done]. by apply lex_le_total.
Qed.

Lemma sort_by_key_sorted l : StronglySorted key_before (sort_by_key key l).
Proof. induction l as [|x l IH]; simpl; [constructor|]. by apply insert_by_key_sorted. Qed.
End sorting.

Lemma candidates_ok d dc purpose prefer l :
  candidates d dc purpose prefer = Ok l <->
  0 < dc /\ l <> []
  /\ l = sort_by_key (candidate_key purpose prefer)
           (filter (fun e => (ep_dc_id e =? dc) && supports e purpose = true) (dir_endpoints d)).
Proof.
  unfold candidates. set (sorted := sort_by_key _ _). destruct (dc <=? 0) eqn:Hdc; simpl.
  - split; [done|]. intros [? _]. apply Z.leb_le in Hdc. lia.
  - apply Z.leb_gt in Hdc. destruct (bool_decide (sorted = [])) eqn:Hempty; simpl.
    + apply bool_decide_eq_true in Hempty. split; [done|]. intros (_ & Hl & ->). by rewrite Hempty in Hl.
    + apply bool_decide_eq_false in Hempty. split; [intros [= <-]|intros (_ & _ & ->)]; done.
Qed.

(** ** Server errors *)

Lemma migration_trim prefix n :
  all_bytes (fun a => (33 <=? byte_at a) && (byte_at a <? 128)) prefix = true -> 0 <= n ->
  trim (prefix +:+ display n) = prefix +:+ display n.
Proof.
  intros Hp Hn. apply trim_visible. destruct (display_digits n Hn) as [Hd _]. unfold all_bytes in *.
  rewrite bytes_of_app, forallb_app, Hp. simpl. apply forallb_forall. intros a Ha.
  rewrite forallb_forall in Hd. apply Hd in Ha. unfold is_ascii_digit in Ha. lia.
Qed.

Lemma parse_positive_suffix_display prefix n :
  0 < n <= u32_max -> parse_positive_suffix (prefix +:+ display n) prefix = Some n.
Proof.
  intros Hn. unfold parse_positive_suffix. rewrite strip_prefix_app. cbn [mbind option_bind].
  destruct (display_digits n) as [-> ->]; [lia|]. unfold parse_u32, u32_max in *.
  rewrite parse_display by (unfold u64_max; lia). cbn [negb orb mbind option_bind].
  unfold checked, in_u32, u32_max. rewrite (proj2 (Z.leb_le 0 n)), (proj2 (Z.leb_le n _)) by lia. cbn [andb mbind option_bind].
  by rewrite (proj2 (Z.ltb_lt 0 n)) by lia.
Qed.

Lemma parse_migration_display prefix kind n :
  (prefix, kind) ∈ migration_prefixes -> 0 < n < 2 ^ 31 ->
  parse_migration (trim (prefix +:+ display n)) = Some {| mig_kind := kind; mig_dc_id := n |}.
Proof.
  intros Hin Hn. pose proof (parse_positive_suffix_display prefix n) as Hp.
  assert (0 < n <= u32_max) as Hn' by (unfold u32_max; lia). specialize (Hp Hn').
  rewrite migration_trim; [|by repeat (apply elem_of_cons in Hin as [[= -> ->]|Hin]; [done|]); apply elem_of_nil in Hin|lia].
  unfold parse_migration, migration_prefixes, find_map.
  repeat (apply elem_of_cons in Hin as [[= -> ->]|Hin];
    [rewrite Hp; cbn [mbind option_bind]; rewrite (proj2 (Z.ltb_lt n _)) by lia; done|]).
  by apply elem_of_nil in Hin.
Qed.

(** A data centre has candidates for a purpose exactly when the directory has an
    endpoint that serves it. *)
Lemma candidates_iff d dc purpose prefer :
  (exists l, candidates d dc purpose prefer = Ok l) <->
  0 < dc /\ exists e, e ∈ dir_endpoints d /\ ep_dc_id e = dc /\ supports e purpose = true.
Proof.
  set (found := filter (fun e => (ep_dc_id e =? dc) && supports e purpose = true) (dir_endpoints d)).
  assert (forall e, e ∈ found <-> e ∈ dir_endpoints d /\ ep_dc_id e = dc /\ supports e purpose = true) as Hfound.
  { intros e. unfold found. rewrite list_elem_of_filter, andb_true_iff, Z.eqb_eq. tauto. }
  split.
  - intros (l & (Hdc & Hne & ->)%candidates_ok). split; [done|]. fold found in Hne.
    destruct found as [|e found']; [done|]. exists e. apply Hfound. by left.
  - intros (Hdc & e & He). apply Hfound in He.
    exists (sort_by_key (candidate_key purpose prefer) found). apply candidates_ok. split_and!; [done| |done].
    intros Hnil. pose proof (sort_by_key_perm (candidate_key purpose prefer) found) as Hp.
    rewrite Hnil in Hp. apply Permutation_nil_l in Hp. rewrite <- Hp in He. by apply elem_of_nil in He.
Qed.

(** Candidates are ranked, and home is always reachable.  The endpoints offered for
    a data centre and a purpose are exactly those of the directory that serve it,
    none when there is none, in the order of preference: the asked address family
    first, then media servers for media, then plain before obfuscated transports,
    pinned addresses and low ports.  A directory that was built, or updated from
    any directory, offers an endpoint for its own data centre. *)
Theorem candidates_are_ranked (this_dc : Z) (test_mode : bool) (endpoints : list DcEndpoint) (d0 d : DcDirectory) :
  directory_update this_dc test_mode endpoints d0 = (d, Ok tt) ->
  dir_endpoints d ≡ₚ endpoints /\ NoDup (dir_endpoints d)
  /\ (forall prefer, exists home, candidates d this_dc Main prefer = Ok home)
  /\ (forall dc purpose prefer,
        match candidates d dc purpose prefer with
        | Ok l =>
            (forall e, e ∈ l <-> e ∈ endpoints /\ ep_dc_id e = dc /\ supports e purpose = true)
            /\ NoDup l /\ l <> [] /\ StronglySorted (key_before (candidate_key purpose prefer)) l
        | Err _ => dc <= 0 \/ forall e, e ∈ endpoints -> ep_dc_id e = dc -> supports e purpose = false
        end).
Proof.
  unfold directory_update. destruct (directory_new _ _ _) as [d'|] eqn:Hnew; [|done]. intros [= ->].
  unfold directory_new in Hnew. repeat ok_step.
  match goal with H : bool_decide (NoDup _) = true |- _ => apply bool_decide_eq_true in H end.
  assert (dir_endpoints d ≡ₚ endpoints) as Hperm by (subst d; apply sort_by_key_perm).
  assert (forall e, e ∈ dir_endpoints d <-> e ∈ endpoints) as Hin by (intros e; by rewrite Hperm).
  split; [done|]. split; [by rewrite Hperm|]. split.
  { intros prefer. apply candidates_iff, (candidates_iff _ _ _ false). subst d. eauto. }
  intros dc purpose prefer. destruct (candidates d dc purpose prefer) as [l|e] eqn:Hc.
  - apply candidates_ok in Hc as (_ & Hne & ->). split_and!; [| |done|apply sort_by_key_sorted].
    + intros e. rewrite sort_by_key_perm, list_elem_of_filter, andb_true_iff, Z.eqb_eq, Hin. tauto.
    + rewrite sort_by_key_perm. apply list.NoDup_filter. by rewrite Hperm.
  - destruct (decide (dc <= 0)) as [|Hdc]; [by left|right]. intros ep Hep Hid.
    destruct (supports ep purpose) eqn:Hsup; [|done]. exfalso.
    destruct (proj2 (candidates_iff d dc purpose prefer)) as [l Hl]; [|congruence].
    split; [lia|]. exists ep. by rewrite Hin.
Qed.

(** Server errors are routed where they can be served.  A migration error sends the
    client to the data centre it names, as its main one or, for files, for that
    request only, when the directory has an endpoint for it, and is an error
    otherwise; a flood error asks it to wait the seconds it names.  No answer of
    the server sends the client to a data centre the directory cannot reach. *)
Theorem rpc_errors_are_routed (d : DcDirectory) :
  (forall prefix kind n, (prefix, kind) ∈ migration_prefixes -> 0 < n < 2 ^ 31 ->
     let purpose := if eqb kind MigrateFile then Media else Main in
     route_rpc_error d 303 (prefix +:+ display n)
     = match candidates d n purpose false with
       | Ok _ => Ok (if eqb kind MigrateFile then RetryOn n purpose else SwitchMain n kind)
       | Err e => Err e
       end)
  /\ (forall n, 0 < n <= u32_max ->
        route_rpc_error d 420 ("FLOOD_WAIT_" +:+ display n) = Ok (RouteWait n false)
        /\ route_rpc_error d 420 ("FLOOD_PREMIUM_WAIT_" +:+ display n) = Ok (RouteWait n true))
  /\ (forall code message dc purpose,
        (exists kind, route_rpc_error d code message = Ok (SwitchMain dc kind) /\ purpose = Main)
        \/ route_rpc_error d code message = Ok (RetryOn dc purpose) ->
        code = 303 /\ exists e, e ∈ dir_endpoints d /\ ep_dc_id e = dc /\ supports e purpose = true).
Proof.
  split_and!.
  - intros prefix kind n Hin Hn purpose. unfold route_rpc_error, classify_rpc_error. cbn [Z.eqb Pos.eqb].
    rewrite (parse_migration_display _ _ _ Hin Hn). cbn [mig_kind mig_dc_id]. by destruct (candidates _ _ _ _).
  - intros n Hn. unfold route_rpc_error, classify_rpc_error. cbn [Z.eqb Pos.eqb].
    rewrite !migration_trim by (done || lia). rewrite parse_positive_suffix_display by done. split; [done|].
    by rewrite parse_positive_suffix_display by done.
  - intros code message dc purpose H. unfold route_rpc_error in H.
    destruct (classify_rpc_error code message) as [[kind n]| | | |] eqn:Hact;
      try (by destruct H as [(? & ? & _)|?]).
    split.
    + unfold classify_rpc_error in Hact. destruct (code =? 303) eqn:Hcode; [by apply Z.eqb_eq|].
      repeat case_match; done.
    + cbn [mig_kind mig_dc_id] in H.
      assert (exists l, candidates d n (if eqb kind MigrateFile then Media else Main) false = Ok l
        /\ dc = n /\ purpose = if eqb kind MigrateFile then Media else Main) as (l & Hl & -> & ->).
      { destruct (candidates _ _ _ _) as [l|e]; simpl in H; [|by destruct H as [(? & ? & _)|?]]. exists l.
        destruct (eqb kind MigrateFile); destruct H as [(? & H & Hp)|H]; by simplify_eq. }
      apply (candidates_iff d n _ false). by exists l.
Qed.

(** The pinned addresses parse, and make a directory. *)
Example defaults_parse :
  match telegram_defaults false 2 with
  | Some (Ok d) => length (dir_endpoints d) = 33%nat
  | _ => False
  end.
Proof. vm_compute. reflexivity. Qed.

Definition sample_endpoint (dc_id : Z) (address : string) (media_only : bool) (port : Z) : DcEndpoint := {|
  ep_dc_id := dc_id; ep_ip_address := default (V4 0) (parse_ip address); ep_port := port;
  ep_media_only := media_only; ep_tcpo_only := false; ep_cdn := false; ep_is_static := true;
  ep_this_port_only := false; ep_secret := None |}.
Definition sample_endpoints : list DcEndpoint :=
  [sample_endpoint 2 "149.154.167.51" false 443; sample_endpoint 2 "149.154.167.151" true 443;
   sample_endpoint 2 "2001:67c:4e8:f002::a" false 80; sample_endpoint 1 "149.154.175.50" false 443].
Definition no_directory : DcDirectory := {| dir_this_dc := 1; dir_test_mode := false; dir_endpoints := [] |}.

Lemma candidates_are_ranked_witness :
  let d := fst (directory_update 2 false sample_endpoints no_directory) in
  (exists home, candidates d 2 Main true = Ok home)
  /\ (exists e, candidates d 4 Media false = Err e
        /\ forall ep, ep ∈ sample_endpoints -> ep_dc_id ep = 4 -> supports ep Media = false).
Proof.
  intros d. destruct (candidates_are_ranked 2 false sample_endpoints no_directory d) as (_ & _ & Hhome & Hall);
    [vm_compute; reflexivity|].
  split; [apply Hhome|]. specialize (Hall 4 Media false). destruct (candidates d 4 Media false) as [l|e] eqn:Hc.
  - vm_compute in Hc. discriminate Hc.
  - exists e. split; [reflexivity|]. destruct Hall as [Hle|Hall]; [lia|exact Hall].
Defined.
