(* ===== verification/Api.v ===== *)
(** * The Telegram API calls of the client ([telegram-protocol/src/api.rs])

    Requests as bytes and responses parsed; the parameters and the proof of the
    password check are those of [srp.rs]. *)

From S2P Require Import Prelude Text Maps Bytes Tl Dc.

Definition MTPROTO_LAYER : Z := 227.
Definition INVOKE_WITH_LAYER_CONSTRUCTOR : Z := 0xda9b0d0d.
Definition INIT_CONNECTION_CONSTRUCTOR : Z := 0xc1cd5ea9.
Definition HELP_GET_CONFIG_CONSTRUCTOR : Z := 0xc4f9186b.
Definition AUTH_SEND_CODE_CONSTRUCTOR : Z := 0xa677244f.
Definition CODE_SETTINGS_CONSTRUCTOR : Z := 0xad253d78.
Definition AUTH_SIGN_IN_CONSTRUCTOR : Z := 0x8d52a951.
Definition AUTH_SIGN_UP_CONSTRUCTOR : Z := 0xaac7b717.
Definition MSGS_ACK_CONSTRUCTOR : Z := 0x62d6b459.
Definition CONFIG_CONSTRUCTOR : Z := 0xcc1a241e.
Definition DC_OPTION_CONSTRUCTOR : Z := 0x18b7a10d.
Definition AUTH_SENT_CODE_CONSTRUCTOR : Z := 0x5e002502.
Definition AUTH_SENT_CODE_SUCCESS_CONSTRUCTOR : Z := 0x2390fe44.
Definition AUTH_SENT_CODE_PAYMENT_REQUIRED_CONSTRUCTOR : Z := 0xf8827ebf.
Definition RPC_ERROR_CONSTRUCTOR : Z := 0x2144ca19.
Definition ACCOUNT_GET_PASSWORD_CONSTRUCTOR : Z := 0x548a30f5.
Definition ACCOUNT_PASSWORD_CONSTRUCTOR : Z := 0x957b50fb.
Definition PASSWORD_KDF_ALGO_CONSTRUCTOR : Z := 0x3a912d4a.
Definition AUTH_CHECK_PASSWORD_CONSTRUCTOR : Z := 0xd18b4d16.
Definition INPUT_CHECK_PASSWORD_SRP_CONSTRUCTOR : Z := 0xd27ff082.

Record PasswordSrpParameters := {
  srp_parameters_id : Z;
  srp_salt1 : list ascii;
  srp_salt2 : list ascii;
  srp_generator : Z;
  srp_prime : list ascii;
  srp_server_b : list ascii;
}.

Record PasswordSrpProof := {
  proof_srp_id : Z;
  proof_a : list ascii;
  proof_m1 : list ascii;
}.

Record InitConnection := {
  init_api_id : Z;
  init_device_model : string;
  init_system_version : string;
  init_app_version : string;
  init_system_lang_code : string;
  init_lang_pack : string;
  init_lang_code : string;
}.

Record ConfigDcDirectory := {
  config_flags : Z;
  config_date : Z;
  config_expires : Z;
  config_directory : DcDirectory;
}.

Inductive SentCodeDelivery :=
| SentApp (length : Z)
| SentSms (length : Z)
| SentCall (length : Z)
| SentFlashCall (pattern : string)
| SentMissedCall (prefix : string) (length : Z)
| SentEmail (pattern : string) (length : Z)
| SentSetUpEmailRequired
| SentFragmentSms (url : string) (length : Z)
| SentFirebaseSms (length : Z)
| SentSmsWord (beginning : option string)
| SentSmsPhrase (beginning : option string).

Inductive NextCodeType := NextSms | NextCall | NextFlashCall | NextMissedCall | NextFragmentSms.

Record SentCode := {
  sent_phone_code_hash : string;
  sent_delivery : SentCodeDelivery;
  sent_next_type : option NextCodeType;
  sent_timeout_seconds : option Z;
}.

Inductive SentCodeResult :=
| SentCodeCode (code : SentCode)
| SentCodeSuccess
| SentCodePaymentRequired (store_product phone_code_hash support_email_address support_email_subject : string)
    (premium_days : Z) (currency : string) (amount : Z).

Record RpcErrorResponse := { rpc_code : Z; rpc_message : string }.

Record AccountPasswordState := {
  pw_has_recovery : bool;
  pw_hint : option string;
  pw_email_unconfirmed_pattern : option string;
  pw_srp : option PasswordSrpParameters;
}.

Inductive ApiRequestError :=
| InvalidApiId
| EmptyField (field : string)
| InvalidApiPhoneNumber
| InvalidPhoneCode
| ApiTl (error : TlError)
| InvalidIpAddress (address : string)
| InvalidApiPort (port : Z)
| ApiDc (error : DcError)
| ApiTrailingBytes (count : Z)
| ApiSrp (error : TlError).

(** ** Requests *)

(** A writer that may fail, in sequence. *)
Definition and_write (f : TlWriter -> TlWriter * result TlError unit) (r : TlWriter * result TlError unit) :
    TlWriter * result TlError unit :=
  match r with
  | (w, Ok _) => f w
  | (w, Err e) => (w, Err e)
  end.
Definition sure (f : TlWriter -> TlWriter) (w : TlWriter) : TlWriter * result TlError unit := (f w, Ok tt).

(** [writer.into_bytes()], or the first error. *)
Definition written_bytes (r : TlWriter * result TlError unit) : result ApiRequestError (list ascii) :=
  match r with
  | (w, Ok _) => Ok (w_bytes w)
  | (_, Err e) => Err (ApiTl e)
  end.

Definition write_seq (fs : list (TlWriter -> TlWriter * result TlError unit)) : TlWriter * result TlError unit :=
  foldl (fun r f => and_write f r) (writer_new, Ok tt) fs.

Definition require_nonempty (value field : string) : result ApiRequestError unit :=
  if blank value then Err (EmptyField field) else Ok tt.

Definition validate_connection (c : InitConnection) : result ApiRequestError unit :=
  reject_if (init_api_id c <=? 0) InvalidApiId ;;
  require_nonempty (init_device_model c) "device_model" ;;
  require_nonempty (init_system_version c) "system_version" ;;
  require_nonempty (init_app_version c) "app_version" ;;
  require_nonempty (init_system_lang_code c) "system_lang_code" ;;
  require_nonempty (init_lang_code c) "lang_code".

Definition validate_credentials (api_id : Z) (api_hash : string) : result ApiRequestError unit :=
  reject_if (api_id <=? 0) InvalidApiId ;;
  require_nonempty api_hash "api_hash".

Definition validate_phone_number (phone_number : string) : result ApiRequestError unit :=
  match strip_prefix "+" phone_number with
  | Some digits =>
      reject_if ((len phone_number <? 8) || negb (all_bytes is_ascii_digit digits)) InvalidApiPhoneNumber
  | None => Err InvalidApiPhoneNumber
  end.

Definition build_init_connection_get_config (c : InitConnection) : result ApiRequestError (list ascii) :=
  validate_connection c ;;
  written_bytes (write_seq [
    sure (write_u32 INVOKE_WITH_LAYER_CONSTRUCTOR); sure (write_i32 MTPROTO_LAYER);
    sure (write_u32 INIT_CONNECTION_CONSTRUCTOR); sure (write_i32 0); sure (write_i32 (init_api_id c));
    write_string (init_device_model c); write_string (init_system_version c); write_string (init_app_version c);
    write_string (init_system_lang_code c); write_string (init_lang_pack c); write_string (init_lang_code c);
    sure (write_u32 HELP_GET_CONFIG_CONSTRUCTOR)]).

Definition build_auth_send_code (phone_number : string) (api_id : Z) (api_hash : string) :
    result ApiRequestError (list ascii) :=
  validate_credentials api_id api_hash ;;
  validate_phone_number phone_number ;;
  written_bytes (write_seq [
    sure (write_u32 AUTH_SEND_CODE_CONSTRUCTOR); write_string phone_number; sure (write_i32 api_id);
    write_string api_hash; sure (write_u32 CODE_SETTINGS_CONSTRUCTOR); sure (write_i32 0)]).

Definition build_auth_sign_in (phone_number phone_code_hash phone_code : string) :
    result ApiRequestError (list ascii) :=
  validate_phone_number phone_number ;;
  require_nonempty phone_code_hash "phone_code_hash" ;;
  reject_if (is_empty phone_code || negb (all_bytes is_ascii_digit phone_code)) InvalidPhoneCode ;;
  written_bytes (write_seq [
    sure (write_u32 AUTH_SIGN_IN_CONSTRUCTOR); sure (write_i32 1); write_string phone_number;
    write_string phone_code_hash; write_string phone_code]).

Definition build_auth_sign_up (phone_number phone_code_hash first_name last_name : string) :
    result ApiRequestError (list ascii) :=
  validate_phone_number phone_number ;;
  require_nonempty phone_code_hash "phone_code_hash" ;;
  require_nonempty first_name "first_name" ;;
  written_bytes (write_seq [
    sure (write_u32 AUTH_SIGN_UP_CONSTRUCTOR); sure (write_i32 0); write_string phone_number;
    write_string phone_code_hash; write_string (trim first_name); write_string (trim last_name)]).

Definition build_account_get_password : list ascii := le_bytes 4 ACCOUNT_GET_PASSWORD_CONSTRUCTOR.

(** [PasswordSrpProof::encode_input_check_password] *)
Definition encode_input_check_password (p : PasswordSrpProof) : result TlError (list ascii) :=
  match write_seq [
    sure (write_u32 INPUT_CHECK_PASSWORD_SRP_CONSTRUCTOR); sure (write_i64 (proof_srp_id p));
    write_bytes (proof_a p); write_bytes (proof_m1 p)] with
  | (w, Ok _) => Ok (w_bytes w)
  | (_, Err e) => Err e
  end.

Definition build_auth_check_password (p : PasswordSrpProof) : result ApiRequestError (list ascii) :=
  encoded_proof ← map_err ApiSrp (encode_input_check_password p);
  Ok (le_bytes 4 AUTH_CHECK_PASSWORD_CONSTRUCTOR ++ encoded_proof)%list.

Definition build_msgs_ack (message_ids : list Z) : result ApiRequestError (list ascii) :=
  written_bytes (write_seq
    ([sure (write_u32 MSGS_ACK_CONSTRUCTOR); write_vector_length (Z.of_nat (length message_ids))]
     ++ ((fun id => sure (write_i64 id)) <$> message_ids))%list).

(** ** Responses *)

Notation ApiParser := (TlParser ApiRequestError).
Notation tl m := (lift_tl ApiTl m).

(** The answer of a parser on a whole input. *)
Definition run_parser {A : Type} (m : ApiParser A) (input : list ascii) : result ApiRequestError A :=
  snd (m (reader_new input)).

Definition wrong_constructor {A : Type} (expected actual : Z) : ApiParser A :=
  reader_fail (ApiTl (UnexpectedConstructor expected actual)).
Definition expect_constructor (expected : Z) : ApiParser unit :=
  constructor ← tl read_u32;
  if constructor =? expected then mret tt else wrong_constructor expected constructor.

(** [if !reader.is_finished() { return Err(TrailingBytes(reader.remaining())) }] *)
Definition finished : ApiParser unit :=
  with_reader (fun r => refuse_if (negb (is_finished r)) (ApiTrailingBytes (remaining r))).

(** [if flags & mask != 0 { Some(..) } else { None }] *)
Definition has_flag (flags mask : Z) : bool := negb (Z.land flags mask =? 0).
Definition when_flag {A : Type} (flags mask : Z) (m : ApiParser A) : ApiParser (option A) :=
  if has_flag flags mask then a ← m; mret (Some a) else mret None.

Definition of_result {A : Type} (r : result ApiRequestError A) : ApiParser A :=
  match r with Ok a => mret a | Err e => reader_fail e end.

(** The loop that reads [count] items. *)
Fixpoint read_times {A : Type} (count : nat) (m : ApiParser A) : ApiParser (list A) :=
  match count with
  | O => mret []
  | S count => a ← m; l ← read_times count m; mret (a :: l)
  end.

(** One data centre option. *)
Definition read_dc_option : ApiParser DcEndpoint :=
  expect_constructor DC_OPTION_CONSTRUCTOR ;;
  option_flags ← tl read_i32;
  dc_id ← tl read_i32;
  address ← tl read_string;
  ip_address ← of_result (ok_or (parse_ip address) (InvalidIpAddress address));
  raw_port ← tl read_i32;
  refuse_if (negb ((0 <? raw_port) && (raw_port <? 65536))) (InvalidApiPort raw_port) ;;
  secret ← when_flag option_flags (Z.shiftl 1 10) (tl read_bytes);
  of_result (map_err ApiDc (endpoint_new dc_id ip_address raw_port (has_flag option_flags 2)
    (has_flag option_flags 4) (has_flag option_flags 8) (has_flag option_flags 16)
    (has_flag option_flags 32) secret)).

Definition parse_config_dc_directory_prefix (input : list ascii) : result ApiRequestError ConfigDcDirectory :=
  run_parser
    (expect_constructor CONFIG_CONSTRUCTOR ;;
     flags ← tl read_i32; date ← tl read_i32; expires ← tl read_i32; test_mode ← tl read_bool;
     this_dc ← tl read_i32; count ← tl read_vector_length;
     endpoints ← read_times (Z.to_nat count) read_dc_option;
     directory ← of_result (map_err ApiDc (directory_new this_dc test_mode endpoints));
     mret {| config_flags := flags; config_date := date; config_expires := expires; config_directory := directory |})
    input.

Definition read_optional_beginning : ApiParser (option string) :=
  flags ← tl read_i32; when_flag flags 1 (tl read_string).

Definition parse_next_code_type : ApiParser NextCodeType :=
  constructor ← tl read_u32;
  if constructor =? 0x72a3158c then mret NextSms
  else if constructor =? 0x741cd3e3 then mret NextCall
  else if constructor =? 0x226ccefb then mret NextFlashCall
  else if constructor =? 0xd61ad6ee then mret NextMissedCall
  else if constructor =? 0x06ed998c then mret NextFragmentSms
  else wrong_constructor 0x72a3158c constructor.

Definition parse_sent_code_delivery : ApiParser SentCodeDelivery :=
  constructor ← tl read_u32;
  if constructor =? 0x3dbb5986 then length ← tl read_i32; mret (SentApp length)
  else if constructor =? 0xc000bba2 then length ← tl read_i32; mret (SentSms length)
  else if constructor =? 0x5353e5a7 then length ← tl read_i32; mret (SentCall length)
  else if constructor =? 0xab03c6d9 then pattern ← tl read_string; mret (SentFlashCall pattern)
  else if constructor =? 0x82006484 then prefix ← tl read_string; length ← tl read_i32; mret (SentMissedCall prefix length)
  else if constructor =? 0xf450f59b then
    flags ← tl read_i32; pattern ← tl read_string; length ← tl read_i32;
    when_flag flags 8 (tl read_i32) ;; when_flag flags 16 (tl read_i32) ;;
    mret (SentEmail pattern length)
  else if constructor =? 0xa5491dea then tl read_i32 ;; mret SentSetUpEmailRequired
  else if constructor =? 0xd9565c39 then url ← tl read_string; length ← tl read_i32; mret (SentFragmentSms url length)
  else if constructor =? 0x009fd736 then
    flags ← tl read_i32;
    when_flag flags 1 (tl read_bytes) ;;
    when_flag flags 4 (tl read_i64 ;; tl read_bytes) ;;
    when_flag flags 2 (tl read_string ;; tl read_i32) ;;
    length ← tl read_i32; mret (SentFirebaseSms length)
  else if constructor =? 0xa416ac81 then beginning ← read_optional_beginning; mret (SentSmsWord beginning)
  else if constructor =? 0xb37794af then beginning ← read_optional_beginning; mret (SentSmsPhrase beginning)
  else wrong_constructor 0x3dbb5986 constructor.

Definition parse_auth_sent_code (input : list ascii) : result ApiRequestError SentCodeResult :=
  run_parser
    (constructor ← tl read_u32;
     if constructor =? AUTH_SENT_CODE_CONSTRUCTOR then
       flags ← tl read_i32; delivery ← parse_sent_code_delivery; phone_code_hash ← tl read_string;
       next_type ← when_flag flags 2 parse_next_code_type;
       timeout_seconds ← when_flag flags 4 (tl read_i32);
       finished ;;
       mret (SentCodeCode {| sent_phone_code_hash := phone_code_hash; sent_delivery := delivery;
                             sent_next_type := next_type; sent_timeout_seconds := timeout_seconds |})
     else if constructor =? AUTH_SENT_CODE_SUCCESS_CONSTRUCTOR then mret SentCodeSuccess
     else if constructor =? AUTH_SENT_CODE_PAYMENT_REQUIRED_CONSTRUCTOR then
       store_product ← tl read_string; phone_code_hash ← tl read_string; address ← tl read_string;
       subject ← tl read_string; premium_days ← tl read_i32; currency ← tl read_string; amount ← tl read_i64;
       finished ;;
       mret (SentCodePaymentRequired store_product phone_code_hash address subject premium_days currency amount)
     else wrong_constructor AUTH_SENT_CODE_CONSTRUCTOR constructor) input.

Definition try_parse_rpc_error (input : list ascii) : result ApiRequestError (option RpcErrorResponse) :=
  let n := Z.of_nat (length input) in
  if n <? 4 then Err (ApiTl (UnexpectedEof n (4 - n)))
  else if negb (of_le_bytes (take 4 input) =? RPC_ERROR_CONSTRUCTOR) then Ok None
  else
    run_parser
      (tl read_u32 ;; code ← tl read_i32; message ← tl read_string; finished ;;
       mret (Some {| rpc_code := code; rpc_message := message |})) input.

Definition parse_account_password_prefix (input : list ascii) : result ApiRequestError AccountPasswordState :=
  run_parser
    (expect_constructor ACCOUNT_PASSWORD_CONSTRUCTOR ;;
     flags ← tl read_i32;
     srp ← when_flag flags 4
       (expect_constructor PASSWORD_KDF_ALGO_CONSTRUCTOR ;;
        salt1 ← tl read_bytes; salt2 ← tl read_bytes; generator ← tl read_i32; prime ← tl read_bytes;
        server_b ← tl read_bytes; srp_id ← tl read_i64;
        mret {| srp_parameters_id := srp_id; srp_salt1 := salt1; srp_salt2 := salt2; srp_generator := generator;
                srp_prime := prime; srp_server_b := server_b |});
     hint ← when_flag flags 8 (tl read_string);
     email_unconfirmed_pattern ← when_flag flags 16 (tl read_string);
     mret {| pw_has_recovery := has_flag flags 1; pw_hint := hint;
             pw_email_unconfirmed_pattern := email_unconfirmed_pattern; pw_srp := srp |}) input.

(** ** The configuration a server sends *)

Notation reads_here := (reads DEFAULT_MAX_BYTES DEFAULT_MAX_VECTOR_LENGTH).

Lemma reads_expect expected : 0 <= expected < 2 ^ 32 -> reads_here (expect_constructor expected) (le_bytes 4 expected) tt.
Proof.
  intros H. unfold expect_constructor. rewrite <- (app_nil_r (le_bytes 4 expected)).
  eapply reads_bind; [by apply reads_lift, reads_u32|]. rewrite Z.eqb_refl. apply reads_ret.
Qed.

Lemma reads_of_result {A : Type} (r : result ApiRequestError A) a : r = Ok a -> reads_here (of_result r) [] a.
Proof. intros ->. apply reads_ret. Qed.

Lemma reads_times {A : Type} (m : ApiParser A) (encode : A -> list ascii) l :
  (forall a, a ∈ l -> reads_here m (encode a) a) ->
  reads_here (read_times (length l) m) (l ≫= encode) l.
Proof.
  induction l as [|a l IH]; intros Hl; [apply reads_ret|]. cbn [length read_times].
  rewrite bind_cons. eapply reads_bind; [apply Hl; by left|].
  apply (reads_then_ret _ _ (read_times (length l) m) (cons a)). apply IH. intros b Hb. apply Hl. by right.
Qed.

(** An endpoint as the server writes it, with its address as text. *)
Definition option_flags (e : DcEndpoint) : Z :=
  2 * bit (ep_media_only e) + 4 * bit (ep_tcpo_only e) + 8 * bit (ep_cdn e) + 16 * bit (ep_is_static e)
  + 32 * bit (ep_this_port_only e) + match ep_secret e with Some _ => 1024 | None => 0 end.

Definition option_bytes (address : IpAddr -> string) (e : DcEndpoint) : list ascii :=
  (le_bytes 4 DC_OPTION_CONSTRUCTOR ++ le_bytes 4 (option_flags e) ++ le_bytes 4 (ep_dc_id e)
   ++ packed (bytes_of (address (ep_ip_address e))) ++ le_bytes 4 (ep_port e)
   ++ match ep_secret e with Some secret => packed secret | None => [] end)%list.

Record endpoint_typed (address : IpAddr -> string) (e : DcEndpoint) : Prop := {
  typed_dc_id : 0 < ep_dc_id e < 2 ^ 31;
  typed_port : 0 < ep_port e < 65536;
  typed_address : parse_ip (address (ep_ip_address e)) = Some (ep_ip_address e)
    /\ utf8_valid (bytes_of (address (ep_ip_address e))) = true
    /\ Z.of_nat (length (bytes_of (address (ep_ip_address e)))) <= 0x00ffffff;
  typed_secret : forall secret, ep_secret e = Some secret -> Z.of_nat (length secret) <= 0x00ffffff;
}.

#[local] Opaque le_bytes packed parse_ip.

Lemma reads_dc_option address e :
  endpoint_typed address e -> reads_here read_dc_option (option_bytes address e) e.
Proof.
  intros [Hdc Hport (Hip & Hutf & Hlen) Hsecret]. unfold read_dc_option, option_bytes.
  eapply reads_bind; [apply reads_expect; unfold DC_OPTION_CONSTRUCTOR; lia|].
  eapply reads_bind; [apply reads_lift, reads_i32|].
  { unfold option_flags, bit. repeat case_match; lia. }
  eapply reads_bind; [apply reads_lift, reads_i32; lia|].
  eapply reads_bind; [apply reads_lift, reads_string; [unfold DEFAULT_MAX_BYTES; lia|done]|].
  rewrite Hip. eapply reads_pure; [by apply reads_of_result|].
  eapply reads_bind; [apply reads_lift, reads_i32; lia|].
  apply reads_refuse.
  { rewrite (proj2 (Z.ltb_lt 0 _)), (proj2 (Z.ltb_lt _ 65536)) by lia. done. }
  assert (forall secret, ep_secret e = secret -> reads_here (of_result (map_err ApiDc
    (endpoint_new (ep_dc_id e) (ep_ip_address e) (ep_port e) (has_flag (option_flags e) 2)
      (has_flag (option_flags e) 4) (has_flag (option_flags e) 8) (has_flag (option_flags e) 16)
      (has_flag (option_flags e) 32) secret))) [] e) as Hend.
  { intros secret <-. apply reads_of_result. unfold endpoint_new.
    rewrite (proj2 (Z.leb_gt _ 0)), (proj2 (Z.eqb_neq (ep_port e) 0)) by lia. cbn [reject_if mbind result_bind map_err].
    f_equal. destruct e as [dc ip port media tcpo cdn static this [s|]]; unfold option_flags; cbn;
      destruct media, tcpo, cdn, static, this; reflexivity. }
  assert (has_flag (option_flags e) (Z.shiftl 1 10) = match ep_secret e with Some _ => true | None => false end) as Hflag.
  { clear. destruct e as [dc ip port media tcpo cdn static this [s|]]; unfold option_flags; cbn;
      destruct media, tcpo, cdn, static, this; reflexivity. }
  unfold when_flag. rewrite Hflag. destruct (ep_secret e) as [secret|] eqn:Hs.
  - rewrite <- (app_nil_r (packed secret)). eapply reads_bind; [|apply (Hend (Some secret)); reflexivity].
    apply (reads_then_ret _ _ (tl read_bytes) Some). apply reads_lift, reads_bytes.
    specialize (Hsecret secret eq_refl). unfold DEFAULT_MAX_BYTES. lia.
  - eapply reads_pure; [apply reads_ret|apply (Hend None); reflexivity].
Qed.

(** What a server writes of its configuration; the fields after the data centres are
    [rest] in the theorem. *)
Definition config_bytes (address : IpAddr -> string) (flags date expires : Z) (test_mode : bool) (this_dc : Z)
    (endpoints : list DcEndpoint) : list ascii :=
  (le_bytes 4 CONFIG_CONSTRUCTOR ++ le_bytes 4 flags ++ le_bytes 4 date ++ le_bytes 4 expires
   ++ le_bytes 4 (if test_mode then BOOL_TRUE_CONSTRUCTOR else BOOL_FALSE_CONSTRUCTOR) ++ le_bytes 4 this_dc
   ++ (le_bytes 4 VECTOR_CONSTRUCTOR ++ le_bytes 4 (Z.of_nat (length endpoints)))
   ++ (endpoints ≫= option_bytes address))%list.

(** The server's configuration is understood.  The bytes the schema prescribes for a
    list of data centre options, whatever follows them, parse to the directory those
    endpoints make, or to the directory's own error; no field, flag, port, address
    or secret is lost on the way. *)
Theorem server_config_is_understood (address : IpAddr -> string) (flags date expires : Z) (test_mode : bool)
    (this_dc : Z) (endpoints : list DcEndpoint) (rest : list ascii) :
  - 2 ^ 31 <= flags < 2 ^ 31 -> - 2 ^ 31 <= date < 2 ^ 31 -> - 2 ^ 31 <= expires < 2 ^ 31 ->
  - 2 ^ 31 <= this_dc < 2 ^ 31 -> Z.of_nat (length endpoints) <= DEFAULT_MAX_VECTOR_LENGTH ->
  Forall (endpoint_typed address) endpoints ->
  let input := (config_bytes address flags date expires test_mode this_dc endpoints ++ rest)%list in
  Z.of_nat (length input) <= u64_max ->
  parse_config_dc_directory_prefix input
  = match directory_new this_dc test_mode endpoints with
    | Ok directory => Ok {| config_flags := flags; config_date := date; config_expires := expires;
                            config_directory := directory |}
    | Err e => Err (ApiDc e)
    end.
Proof.
  intros Hf Hd He Ht Hn Hall input Hlen. rewrite list.Forall_forall in Hall.
  unfold parse_config_dc_directory_prefix, run_parser.
  match goal with |- snd (?m _) = ?res =>
    assert (answers DEFAULT_MAX_BYTES DEFAULT_MAX_VECTOR_LENGTH m
      (config_bytes address flags date expires test_mode this_dc endpoints) res) as Hanswers; [|by apply (Hanswers [])] end.
  unfold config_bytes.
  eapply answers_bind; [apply reads_expect; unfold CONFIG_CONSTRUCTOR; lia|].
  do 3 (eapply answers_bind; [by apply reads_lift, reads_i32|]).
  eapply answers_bind; [apply reads_lift, reads_bool|].
  eapply answers_bind; [by apply reads_lift, reads_i32|].
  eapply answers_bind; [apply reads_lift, reads_vector; unfold DEFAULT_MAX_VECTOR_LENGTH in *; lia|].
  rewrite Nat2Z.id, <- (app_nil_r (endpoints ≫= _)).
  eapply answers_bind; [apply reads_times; intros e Hin; by apply reads_dc_option, Hall|].
  intros pre rest' _. by destruct (directory_new this_dc test_mode endpoints).
Qed.

#[local] Transparent le_bytes packed parse_ip.

Definition sample_address (ip : IpAddr) : string :=
  if is_ipv6 ip then "2001:67c:4e8:f002::a" else "149.154.167.51".
Definition sample_options : list DcEndpoint :=
  [sample_endpoint 2 "149.154.167.51" false 443; sample_endpoint 2 "2001:67c:4e8:f002::a" false 80].

Lemma sample_options_typed : Forall (endpoint_typed sample_address) sample_options.
Proof.
  apply list.Forall_forall. intros e He. unfold sample_options in He.
  repeat (apply elem_of_cons in He as [->|He];
    [split; [vm_compute; split; reflexivity|vm_compute; split; reflexivity
            |split; [vm_compute; reflexivity|split; [vm_compute; reflexivity|vm_compute; discriminate]]
            |intros secret Hs; discriminate Hs]|]).
  by apply elem_of_nil in He.
Qed.

Lemma server_config_is_understood_witness :
  parse_config_dc_directory_prefix (config_bytes sample_address 0 10 20 false 2 sample_options ++ bytes_of "more")
  = match directory_new 2 false sample_options with
    | Ok directory => Ok {| config_flags := 0; config_date := 10; config_expires := 20; config_directory := directory |}
    | Err e => Err (ApiDc e)
    end.
Proof.
  apply (server_config_is_understood sample_address 0 10 20 false 2 sample_options (bytes_of "more"));
    [lia|lia|lia|lia|vm_compute; discriminate|exact sample_options_typed|vm_compute; discriminate].
Defined.
