(* ===== verification/MediaCache.v ===== *)
(** * Media on the device

    The cache ([media_cache.rs]), a byte budget with least-recently-used eviction,
    and the transfers ([media.rs]), whose progress is in order and verified before
    it is complete. *)

From S2P Require Import Prelude Text Maps Message.

Record MediaCacheEntry := {
  ce_media : MediaRef;
  ce_local_path : string;
  ce_size_bytes : Z;
  ce_last_accessed_ms : Z;
  ce_pinned : bool;
}.
#[export] Instance eta_MediaCacheEntry : Eta MediaCacheEntry := fun e =>
  Build_MediaCacheEntry (ce_media e) (ce_local_path e) (ce_size_bytes e) (ce_last_accessed_ms e) (ce_pinned e).

Record MediaCache := {
  cache_max_bytes : Z;
  cache_entries : gmap string MediaCacheEntry;
}.
#[export] Instance eta_MediaCache : Eta MediaCache := fun c =>
  Build_MediaCache (cache_max_bytes c) (cache_entries c).

Inductive MediaCacheError :=
| InvalidBudget
| InvalidMediaId
| InvalidLocalPath
| EntryTooLarge (size_bytes max_bytes : Z)
| PinnedEntriesExceedBudget
| CacheEntryNotFound (media_id : string).

Definition ce_id (e : MediaCacheEntry) : string := media_id (ce_media e).

(** [MediaCache::new] *)
Definition media_cache_new (max_bytes : Z) : result MediaCacheError MediaCache :=
  reject_if (max_bytes =? 0) InvalidBudget ;;
  Ok {| cache_max_bytes := max_bytes; cache_entries := ∅ |}.

Definition total_bytes (c : MediaCache) : Z :=
  foldl (fun total e => saturating_add_u64 total (ce_size_bytes e)) 0 (btree_values (cache_entries c)).

Definition cache_get (media_id : string) (now_ms : Z) (c : MediaCache) : MediaCache * option MediaCacheEntry :=
  let c := c ⟪ cache_entries ::= alter (fun e => e ⟪ ce_last_accessed_ms := now_ms ⟫) media_id ⟫ in
  (c, cache_entries c !! media_id).

(** The order of eviction: least recently used first, then by identifier. *)
Definition used_before (a b : MediaCacheEntry) : bool :=
  (ce_last_accessed_ms a <? ce_last_accessed_ms b)
  || ((ce_last_accessed_ms a =? ce_last_accessed_ms b) && bool_decide (String.le (ce_id a) (ce_id b))).

(** [Iterator::min_by_key]: the first of the least elements. *)
Definition min_by {A : Type} (le : A -> A -> bool) (l : list A) : option A :=
  foldl (fun best x => match best with
                       | None => Some x
                       | Some b => if le b x then Some b else Some x
                       end) None l.

Definition evictable (protected_media_id : option string) (e : MediaCacheEntry) : bool :=
  negb (ce_pinned e) && negb (eqb protected_media_id (Some (ce_id e))).

Definition eviction_candidate (protected_media_id : option string) (c : MediaCache) : option string :=
  ce_id <$> min_by used_before
    (filter (fun e => evictable protected_media_id e = true) (btree_values (cache_entries c))).

(** [evict_to_budget]: the loop, at most [fuel] rounds of it; [None] when it has
    not ended by then. *)
Fixpoint evict_to_budget (fuel : nat) (protected_media_id : option string) (evicted : list MediaCacheEntry)
    (c : MediaCache) : option (MediaCache * result MediaCacheError (list MediaCacheEntry)) :=
  match fuel with
  | O => None
  | S fuel =>
      if cache_max_bytes c <? total_bytes c then
        match eviction_candidate protected_media_id c with
        | None => Some (c, Err PinnedEntriesExceedBudget)
        | Some candidate =>
            match cache_entries c !! candidate with
            | Some e => evict_to_budget fuel protected_media_id (evicted ++ [e])
                          (c ⟪ cache_entries ::= delete candidate ⟫)
            | None => evict_to_budget fuel protected_media_id evicted c
            end
        end
      else Some (c, Ok evicted)
  end.

(** The rounds the eviction loop is given: one for each entry, and one to stop. *)
Definition eviction_rounds (c : MediaCache) : nat := S (size (cache_entries c)).

Definition put_back (key : string) (previous : option MediaCacheEntry) (c : MediaCache) : MediaCache :=
  match previous with
  | Some e => c ⟪ cache_entries ::= <[key := e]> ⟫
  | None => c ⟪ cache_entries ::= delete key ⟫
  end.

(** The checks [insert] makes before it stores anything. *)
Definition check_insert (media : MediaRef) (local_path : string) (size_bytes : Z) (c : MediaCache) :
    result MediaCacheError unit :=
  reject_if (blank (media_id media)) InvalidMediaId ;;
  reject_if (blank local_path) InvalidLocalPath ;;
  reject_if (cache_max_bytes c <? size_bytes) (EntryTooLarge size_bytes (cache_max_bytes c)).

Definition cache_insert (media : MediaRef) (local_path : string) (size_bytes now_ms : Z) (pinned : bool)
    (c : MediaCache) : option (MediaCache * result MediaCacheError (list MediaCacheEntry)) :=
  match check_insert media local_path size_bytes c with
  | Err e => Some (c, Err e)
  | Ok _ =>
      let key := media_id media in
      let previous := cache_entries c !! key in
      let entry := {| ce_media := media; ce_local_path := local_path; ce_size_bytes := size_bytes;
                      ce_last_accessed_ms := now_ms; ce_pinned := pinned |} in
      let c := c ⟪ cache_entries ::= <[key := entry]> ⟫ in
      match evict_to_budget (eviction_rounds c) (Some key) [] c with
      | None => None
      | Some (c, Ok evicted) => Some (c, Ok evicted)
      | Some (c, Err error) => Some (put_back key previous c, Err error)
      end
  end.

Definition cache_remove (media_id : string) (c : MediaCache) : MediaCache * option MediaCacheEntry :=
  (c ⟪ cache_entries ::= delete media_id ⟫, cache_entries c !! media_id).

Definition set_pinned (media_id : string) (pinned : bool) (c : MediaCache) :
    MediaCache * result MediaCacheError unit :=
  match cache_entries c !! media_id with
  | None => (c, Err (CacheEntryNotFound media_id))
  | Some e => (c ⟪ cache_entries ::= <[media_id := e ⟪ ce_pinned := pinned ⟫]> ⟫, Ok tt)
  end.

(** ** The total of a cache *)

Definition bytes_of (_ : string) (e : MediaCacheEntry) : Z := ce_size_bytes e.

Record cache_wf (c : MediaCache) : Prop := {
  cache_keyed : forall id e, cache_entries c !! id = Some e -> ce_id e = id;
  cache_sizes : forall id e, cache_entries c !! id = Some e -> 0 <= ce_size_bytes e;
}.

Definition sum_sizes (l : list MediaCacheEntry) : Z := foldr (fun e acc => ce_size_bytes e + acc) 0 l.

Lemma sum_sizes_perm l l' : l ≡ₚ l' -> sum_sizes l = sum_sizes l'.
Proof. induction 1; simpl; lia. Qed.

Lemma saturating_total l acc :
  0 <= acc <= u64_max -> Forall (fun e => 0 <= ce_size_bytes e) l ->
  foldl (fun total e => saturating_add_u64 total (ce_size_bytes e)) acc l = Z.min u64_max (acc + sum_sizes l).
Proof.
  intros Hacc Hl. revert acc Hacc. induction Hl as [|e l He Hl IH]; intros acc Hacc; simpl; [lia|].
  assert (0 <= sum_sizes l) by (clear -Hl; induction Hl; simpl; lia).
  rewrite IH; unfold saturating_add_u64, clamp; lia.
Qed.

Lemma total_bytes_sum c :
  cache_wf c -> total_bytes c = Z.min u64_max (map_sum bytes_of (cache_entries c)).
Proof.
  intros [_ Hs]. unfold total_bytes. rewrite saturating_total.
  - rewrite Z.add_0_l. f_equal. rewrite (sum_sizes_perm _ _ (btree_values_perm _)).
    unfold map_sum. rewrite map_fold_foldr. generalize (map_to_list (cache_entries c)) as l.
    induction l as [|[k e] l IH]; [done|]. simpl. unfold bytes_of at 1. f_equal. exact IH.
  - unfold u64_max. lia.
  - apply list.Forall_forall. intros e [id He]%elem_of_btree_values. eauto.
Qed.

Lemma delete_wf id c : cache_wf c -> cache_wf (c ⟪ cache_entries ::= delete id ⟫).
Proof. intros [Hk Hs]. split; fields; intros i e [_ He]%lookup_delete_Some; eauto. Qed.

Lemma insert_wf e c : 0 <= ce_size_bytes e -> cache_wf c -> cache_wf (c ⟪ cache_entries ::= <[ce_id e := e]> ⟫).
Proof. intros He [Hk Hs]. split; fields; intros i x [[<- <-]|[_ Hx]]%lookup_insert_Some; eauto. Qed.

Lemma total_delete id c : cache_wf c -> total_bytes (c ⟪ cache_entries ::= delete id ⟫) <= total_bytes c.
Proof.
  intros Hc. rewrite !total_bytes_sum by auto using delete_wf. fields.
  destruct (cache_entries c !! id) as [e|] eqn:He; [|by rewrite delete_id].
  rewrite (map_sum_delete bytes_of id e) with (m := cache_entries c) by done.
  pose proof (cache_sizes _ Hc _ _ He). unfold bytes_of at 2. lia.
Qed.

(** ** What eviction does

    [victim protected c e]: [e] is the least recently used of the entries that
    may go.  [evicts protected c es c']: evicting [es], one after the other and
    each time only while the budget is exceeded, leads from [c] to [c']. *)

Record victim (protected : option string) (c : MediaCache) (e : MediaCacheEntry) : Prop := {
  victim_stored : cache_entries c !! ce_id e = Some e;
  victim_evictable : evictable protected e = true;
  victim_oldest : forall id x, cache_entries c !! id = Some x -> evictable protected x = true ->
    used_before e x = true;
}.

Inductive evicts (protected : option string) : MediaCache -> list MediaCacheEntry -> MediaCache -> Prop :=
| evicts_none c : evicts protected c [] c
| evicts_one c e es c' :
    cache_max_bytes c < total_bytes c -> victim protected c e ->
    evicts protected (c ⟪ cache_entries ::= delete (ce_id e) ⟫) es c' -> evicts protected c (e :: es) c'.

Lemma used_before_refl e : used_before e e = true.
Proof. unfold used_before. rewrite Z.eqb_refl, bool_decide_true by done. apply orb_true_r. Qed.

Lemma used_before_total a b : used_before a b = false -> used_before b a = true.
Proof.
  unfold used_before. rewrite orb_false_iff, andb_false_iff, Z.ltb_ge, Z.eqb_neq, bool_decide_eq_false.
  intros [Ht [Hne|Hn]]; apply orb_true_iff; [left; apply Z.ltb_lt; lia|].
  destruct (Z.eq_dec (ce_last_accessed_ms a) (ce_last_accessed_ms b)) as [->|]; [right|left; apply Z.ltb_lt; lia].
  rewrite Z.eqb_refl. apply bool_decide_eq_true. by destruct (total String.le (ce_id a) (ce_id b)).
Qed.

Lemma used_before_trans a b c : used_before a b = true -> used_before b c = true -> used_before a c = true.
Proof.
  unfold used_before. rewrite !orb_true_iff, !andb_true_iff, !Z.ltb_lt, !Z.eqb_eq, !bool_decide_eq_true.
  intros [?|[? H1]] [?|[? H2]]; [left; lia..|]. right. split; [lia|]. by transitivity (ce_id b).
Qed.

Lemma min_by_least (l : list MediaCacheEntry) :
  match min_by used_before l with
  | None => l = []
  | Some b => b ∈ l /\ forall x, x ∈ l -> used_before b x = true
  end.
Proof.
  unfold min_by. destruct l as [|a l]; [done|]. simpl.
  assert (forall l (best : MediaCacheEntry), match foldl (fun best x => match best with
      | None => Some x | Some b => if used_before b x then Some b else Some x end) (Some best) l with
    | None => False
    | Some b => (b = best \/ b ∈ l) /\ used_before b best = true /\ forall x, x ∈ l -> used_before b x = true
    end) as Hgen.
  { clear. induction l as [|y l IH]; intros best; simpl.
    - split_and!; [by left|apply used_before_refl|]. intros x Hx. by apply elem_of_nil in Hx.
    - destruct (used_before best y) eqn:Hy.
      + specialize (IH best). destruct (foldl _ _ l) as [b|]; [|done]. destruct IH as (Hin & Hb & Hall).
        split_and!; [set_solver|done|]. intros x [->|Hx]%elem_of_cons; [|auto]. by eapply used_before_trans.
      + specialize (IH y). destruct (foldl _ _ l) as [b|]; [|done]. destruct IH as (Hin & Hb & Hall).
        split_and!; [set_solver| |].
        * eapply used_before_trans; [exact Hb|]. by apply used_before_total.
        * intros x [->|Hx]%elem_of_cons; auto. }
  specialize (Hgen l a). destruct (foldl _ _ l) as [b|]; [|done]. destruct Hgen as (Hin & Hb & Hall).
  split; [set_solver|]. intros x [->|Hx]%elem_of_cons; auto.
Qed.

Lemma eviction_candidate_victim protected c :
  cache_wf c ->
  match eviction_candidate protected c with
  | None => forall id e, cache_entries c !! id = Some e -> evictable protected e = false
  | Some id => exists e, ce_id e = id /\ victim protected c e
  end.
Proof.
  intros Hc. unfold eviction_candidate.
  pose proof (min_by_least (filter (fun e => evictable protected e = true) (btree_values (cache_entries c)))) as Hmin.
  destruct (min_by _ _) as [b|]; simpl.
  - destruct Hmin as [[Hb [id Hid]%elem_of_btree_values]%list_elem_of_filter Hall]. exists b. split; [done|].
    split; [|done|].
    + by rewrite (cache_keyed _ Hc _ _ Hid).
    + intros i x Hx Hev. apply Hall. apply list_elem_of_filter. split; [done|]. apply elem_of_btree_values. eauto.
  - intros id e He. destruct (evictable protected e) eqn:Hev; [|done].
    assert (e ∈ filter (fun e => evictable protected e = true) (btree_values (cache_entries c))) as Hin
      by (apply list_elem_of_filter; split; [done|]; apply elem_of_btree_values; eauto).
    rewrite Hmin in Hin. by apply elem_of_nil in Hin.
Qed.

(** The loop ends within a round per entry, and does what [evicts] describes. *)
Lemma evict_to_budget_spec fuel protected evicted c :
  cache_wf c -> (size (cache_entries c) < fuel)%nat ->
  exists c' es, evicts protected c es c' /\ cache_wf c' /\ cache_max_bytes c' = cache_max_bytes c
    /\ ((evict_to_budget fuel protected evicted c = Some (c', Ok (evicted ++ es)%list)
          /\ total_bytes c' <= cache_max_bytes c)
        \/ (evict_to_budget fuel protected evicted c = Some (c', Err PinnedEntriesExceedBudget)
          /\ cache_max_bytes c < total_bytes c'
          /\ forall id e, cache_entries c' !! id = Some e -> evictable protected e = false)).
Proof.
  revert evicted c. induction fuel as [|fuel IH]; intros evicted c Hc Hfuel; [lia|]. simpl.
  destruct (Z.ltb_spec (cache_max_bytes c) (total_bytes c)) as [Hover|Hfits].
  2: { exists c, []. split_and!; [constructor|done|done|]. left. by rewrite app_nil_r. }
  pose proof (eviction_candidate_victim protected c Hc) as Hcand.
  destruct (eviction_candidate protected c) as [id|].
  2: { exists c, []. split_and!; [constructor|done|done|]. by right. }
  destruct Hcand as (e & <- & Hv). pose proof (victim_stored _ _ _ Hv) as He. rewrite He.
  destruct (IH (evicted ++ [e])%list (c ⟪ cache_entries ::= delete (ce_id e) ⟫)) as (c' & es & Hes & Hwf & Hmax & Hcase).
  - by apply delete_wf.
  - fields. rewrite map_size_delete_Some by eauto.
    assert (size (cache_entries c) <> 0%nat); [|lia]. intros Hz%map_size_empty_inv. rewrite Hz, lookup_empty in He. done.
  - exists c', (e :: es). split_and!; [by econstructor|done|done|].
    rewrite <- app_assoc in Hcase. exact Hcase.
Qed.

(** What eviction leaves. *)
Lemma evicts_entries protected c es c' :
  cache_wf c -> evicts protected c es c' ->
  forall id e, cache_entries c !! id = Some e <->
    (cache_entries c' !! id = Some e \/ (e ∈ es /\ ce_id e = id)).
Proof.
  intros Hc H. induction H as [c|c v es c' Hover Hv Hes IH]; intros id e.
  - split; [by left|]. intros [?|[Hin _]]; [done|]. by apply elem_of_nil in Hin.
  - specialize (IH (delete_wf _ _ Hc) id e). fields. rewrite lookup_delete_Some in IH.
    pose proof (victim_stored _ _ _ Hv) as Hst. rewrite elem_of_cons.
    destruct (decide (ce_id v = id)) as [<-|Hne]; [|naive_solver].
    split; [intros He; rewrite Hst in He; injection He as <-; right; auto|].
    intros [He|[[->|Hin] Hid]]; naive_solver.
Qed.

Lemma evicts_evictable protected c es c' : evicts protected c es c' -> Forall (fun e => evictable protected e = true) es.
Proof. induction 1 as [|c v es c' _ Hv _ IH]; constructor; [by apply victim_evictable in Hv|done]. Qed.

(** ** What the operations promise *)

Definition new_entry (media : MediaRef) (local_path : string) (size_bytes now_ms : Z) (pinned : bool) :
    MediaCacheEntry := {|
  ce_media := media; ce_local_path := local_path; ce_size_bytes := size_bytes;
  ce_last_accessed_ms := now_ms; ce_pinned := pinned |}.

(** The cache with the new entry, before anything is evicted. *)
Definition stored (e : MediaCacheEntry) (c : MediaCache) : MediaCache := c ⟪ cache_entries ::= <[ce_id e := e]> ⟫.

Lemma cache_insert_spec media path size_bytes now_ms pinned c :
  cache_wf c -> 0 <= size_bytes -> check_insert media path size_bytes c = Ok tt ->
  let e := new_entry media path size_bytes now_ms pinned in
  exists c2 es, evicts (Some (media_id media)) (stored e c) es c2 /\ cache_wf c2
    /\ cache_max_bytes c2 = cache_max_bytes c
    /\ ((cache_insert media path size_bytes now_ms pinned c = Some (c2, Ok es)
          /\ total_bytes c2 <= cache_max_bytes c)
        \/ (cache_insert media path size_bytes now_ms pinned c
              = Some (put_back (media_id media) (cache_entries c !! media_id media) c2, Err PinnedEntriesExceedBudget)
          /\ cache_max_bytes c < total_bytes c2
          /\ forall id x, cache_entries c2 !! id = Some x -> evictable (Some (media_id media)) x = false)).
Proof.
  intros Hc Hsize Hcheck e. unfold cache_insert. rewrite Hcheck.
  destruct (evict_to_budget_spec (eviction_rounds (stored e c)) (Some (media_id media)) [] (stored e c))
    as (c2 & es & Hes & Hwf & Hmax & Hcase).
  - by apply (insert_wf e).
  - unfold eviction_rounds. lia.
  - exists c2, es. split_and!; [exact Hes|exact Hwf|exact Hmax|].
    destruct Hcase as [[Heq Hle]|[Heq [Hover Hstuck]]]; [left|right]; (split; [|try split; assumption]).
    + unfold stored, e, new_entry, ce_id in Heq. simpl ce_media in Heq. by rewrite Heq.
    + unfold stored, e, new_entry, ce_id in Heq. simpl ce_media in Heq. by rewrite Heq.
Qed.

(** Inserting evicts the least recently used.  An insertion that passes its
    checks always ends.  It stores the entry and then evicts, only while the
    budget is exceeded and each time the least recently used of the entries that
    are neither pinned nor the new one; it either succeeds, with the total within
    the budget and the new entry stored, or fails because what is left is pinned.
    Every other entry is kept as it was or is one of the evicted, which the
    successful call returns, and a pinned one is always kept. *)
Theorem insert_evicts_least_recently_used (media : MediaRef) (path : string) (size_bytes now_ms : Z)
    (pinned : bool) (c : MediaCache) :
  cache_wf c -> 0 <= size_bytes -> check_insert media path size_bytes c = Ok tt ->
  let e := new_entry media path size_bytes now_ms pinned in
  exists c2 es, evicts (Some (media_id media)) (stored e c) es c2
    /\ ((cache_insert media path size_bytes now_ms pinned c = Some (c2, Ok es)
          /\ total_bytes c2 <= cache_max_bytes c)
        \/ (cache_insert media path size_bytes now_ms pinned c
              = Some (put_back (media_id media) (cache_entries c !! media_id media) c2, Err PinnedEntriesExceedBudget)
          /\ cache_max_bytes c < total_bytes c2
          /\ forall id x, cache_entries c2 !! id = Some x -> id <> media_id media -> ce_pinned x = true))
    /\ cache_entries c2 !! media_id media = Some e
    /\ (forall id x, cache_entries c !! id = Some x -> id <> media_id media ->
          cache_entries c2 !! id = Some x \/ (x ∈ es /\ ce_pinned x = false)).
Proof.
  intros Hc Hsize Hcheck e.
  destruct (cache_insert_spec media path size_bytes now_ms pinned c Hc Hsize Hcheck)
    as (c2 & es & Hes & Hwf & Hmax & Hcase). fold e in Hes.
  assert (cache_wf (stored e c)) as Hc1 by by apply (insert_wf e).
  pose proof (evicts_entries _ _ _ _ Hc1 Hes) as Hentries.
  pose proof (proj1 (list.Forall_forall _ _) (evicts_evictable _ _ _ _ Hes)) as Hev.
  exists c2, es. split; [exact Hes|]. split; [|split].
  - destruct Hcase as [Hok|(Heq & Hover & Hstuck)]; [by left|right]. split_and!; [done|done|].
    intros id x Hx Hne. specialize (Hstuck id x Hx). unfold evictable in Hstuck.
    rewrite (cache_keyed _ Hwf _ _ Hx), (proj2 (eqb_false _ _)), andb_true_r in Hstuck by congruence.
    by apply negb_false_iff in Hstuck.
  - destruct (proj1 (Hentries (media_id media) e)) as [He|[Hin _]]; [apply lookup_insert_eq|exact He|].
    specialize (Hev e Hin). unfold evictable in Hev.
    rewrite (proj2 (eqb_spec _ _)), andb_false_r in Hev by done. discriminate Hev.
  - intros id x Hx Hne. destruct (proj1 (Hentries id x)) as [He|[Hin _]]; [|by left|].
    + unfold stored. fields. rewrite lookup_insert_ne; [done|]. intros Heq. by apply Hne.
    + right. split; [exact Hin|]. specialize (Hev x Hin). unfold evictable in Hev.
      apply andb_true_iff in Hev as [Hp _]. by apply negb_true_iff in Hp.
Qed.

(** ** The budget *)

Inductive CacheOp :=
| CacheInsert (media : MediaRef) (local_path : string) (size_bytes now_ms : Z) (pinned : bool)
| CacheGet (id : string) (now_ms : Z)
| CacheRemove (id : string)
| CacheSetPinned (id : string) (pinned : bool).

(** The cache after an operation, whatever it returned; [None] if it does not end. *)
Definition cache_step (c : MediaCache) (op : CacheOp) : option MediaCache :=
  match op with
  | CacheInsert media path size_bytes now_ms pinned => fst <$> cache_insert media path size_bytes now_ms pinned c
  | CacheGet id now_ms => Some (fst (cache_get id now_ms c))
  | CacheRemove id => Some (fst (cache_remove id c))
  | CacheSetPinned id pinned => Some (fst (set_pinned id pinned c))
  end.

Fixpoint cache_run (ops : list CacheOp) (c : MediaCache) : option MediaCache :=
  match ops with
  | [] => Some c
  | op :: ops => cache_step c op ≫= cache_run ops
  end.

(** Sizes are unsigned. *)
Definition op_valid (op : CacheOp) : bool :=
  match op with CacheInsert _ _ size_bytes _ _ => 0 <=? size_bytes | _ => true end.

Definition within_budget (c : MediaCache) : Prop := cache_wf c /\ total_bytes c <= cache_max_bytes c.

(** Replacing an entry by one of the same identifier and size. *)
Lemma touch_within_budget id e e' c :
  cache_entries c !! id = Some e -> ce_id e' = ce_id e -> ce_size_bytes e' = ce_size_bytes e ->
  within_budget c -> within_budget (c ⟪ cache_entries ::= <[id := e']> ⟫).
Proof.
  intros He Hid Hsize [Hc Hb]. pose proof (cache_keyed _ Hc _ _ He) as Hkey.
  assert (cache_wf (c ⟪ cache_entries ::= <[id := e']> ⟫)) as Hc'.
  { rewrite <- Hkey, <- Hid. apply insert_wf; [|done]. rewrite Hsize. by eapply cache_sizes. }
  split; [exact Hc'|]. rewrite total_bytes_sum in * by done. fields.
  rewrite (map_sum_insert bytes_of id e' e) by done. unfold bytes_of at 2 3. fields. lia.
Qed.

Lemma total_submap c c' :
  cache_wf c -> cache_entries c' ⊆ cache_entries c -> total_bytes c' <= total_bytes c.
Proof.
  intros Hc Hsub.
  assert (cache_wf c') as Hc'.
  { split; intros id e He; eapply lookup_weaken in He; try exact Hsub; [by eapply cache_keyed|by eapply cache_sizes]. }
  rewrite !total_bytes_sum by done.
  enough (map_sum bytes_of (cache_entries c') <= map_sum bytes_of (cache_entries c)) by lia.
  destruct Hc as [_ Hsz]. revert Hsub Hsz. generalize (cache_entries c), (cache_entries c').
  intros m m'. clear. revert m. induction m' as [|k v m' Hk IH] using map_ind; intros m Hsub Hsz.
  - rewrite map_sum_empty. apply map_sum_nonneg. exact Hsz.
  - assert (m !! k = Some v) as Hv by (eapply lookup_weaken; [apply lookup_insert_eq|exact Hsub]).
    rewrite map_sum_insert_new by done. rewrite (map_sum_delete bytes_of k v m) by done.
    assert (map_sum bytes_of m' <= map_sum bytes_of (delete k m)); [|lia]. apply IH.
    + rewrite <- (delete_insert_id m' k v) by done. by apply delete_mono.
    + intros j w [_ Hw]%lookup_delete_Some. eauto.
Qed.

Lemma cache_insert_within_budget media path size_bytes now_ms pinned c :
  within_budget c -> 0 <= size_bytes ->
  exists c' r, cache_insert media path size_bytes now_ms pinned c = Some (c', r)
    /\ within_budget c' /\ cache_max_bytes c' = cache_max_bytes c.
Proof.
  intros [Hc Hb] Hsize. destruct (check_insert media path size_bytes c) as [[]|err] eqn:Hcheck.
  2: { exists c, (Err err). unfold cache_insert. by rewrite Hcheck. }
  destruct (cache_insert_spec media path size_bytes now_ms pinned c Hc Hsize Hcheck)
    as (c2 & es & Hes & Hwf & Hmax & [[-> Hle]|[-> _]]).
  { exists c2, (Ok es). split_and!; [done|split; [done|lia]|done]. }
  set (c3 := put_back _ _ _). exists c3, (Err PinnedEntriesExceedBudget). split; [done|].
  assert (cache_max_bytes c3 = cache_max_bytes c) as Hmax3
    by (unfold c3, put_back; by case_match).
  assert (cache_entries c3 ⊆ cache_entries c) as Hsub.
  { apply map_subseteq_spec. intros id x Hx.
    assert (id = media_id media /\ cache_entries c !! id = Some x
      \/ id <> media_id media /\ cache_entries c2 !! id = Some x) as [[_ ?]|[Hne Hx2]]; [|done|].
    { revert Hx. unfold c3, put_back. destruct (cache_entries c !! media_id media) as [p|] eqn:Hp; fields.
      - intros [[<- <-]|[? ?]]%lookup_insert_Some; auto.
      - intros [? ?]%lookup_delete_Some; auto. }
    pose proof (proj2 (evicts_entries _ _ _ _
      (insert_wf (new_entry media path size_bytes now_ms pinned) c Hsize Hc) Hes id x) (or_introl Hx2)) as Hst.
    revert Hst. fields. rewrite lookup_insert_ne; [done|]. intros Heq. by apply Hne. }
  split; [split|done].
  - destruct Hc as [Hk Hs].
    split; intros id x Hx; eapply lookup_weaken in Hx; try exact Hsub; [by apply Hk|by eapply Hs].
  - rewrite Hmax3. pose proof (total_submap c c3 Hc Hsub). lia.
Qed.

Lemma update_entries (f g : gmap string MediaCacheEntry -> gmap string MediaCacheEntry) c :
  f (cache_entries c) = g (cache_entries c) -> c ⟪ cache_entries ::= f ⟫ = c ⟪ cache_entries ::= g ⟫.
Proof. intros H. unfold field_update. by rewrite H. Qed.

Lemma cache_step_within_budget op c :
  op_valid op = true -> within_budget c ->
  exists c', cache_step c op = Some c' /\ within_budget c' /\ cache_max_bytes c' = cache_max_bytes c.
Proof.
  intros Hop Hc. destruct op as [media path size_bytes now_ms pinned|id now_ms|id|id pinned]; simpl in *.
  - apply Z.leb_le in Hop.
    destruct (cache_insert_within_budget media path size_bytes now_ms pinned c Hc Hop) as (c' & r & -> & ? & ?).
    exists c'. done.
  - eexists. split; [done|]. split; [|done]. destruct (cache_entries c !! id) as [e|] eqn:He.
    + rewrite (update_entries (alter _ id) (<[id := e ⟪ ce_last_accessed_ms := now_ms ⟫]>)).
      * by apply (touch_within_budget id e).
      * by apply alter_alt_Some.
    + rewrite (update_entries (alter _ id) (fun m => m)); [by destruct c|].
      apply alter_id. intros x Hx. congruence.
  - eexists. split; [done|]. split; [|done]. destruct Hc as [Hc Hb]. split; [by apply delete_wf|].
    fields. pose proof (total_delete id c Hc). lia.
  - unfold set_pinned. destruct (cache_entries c !! id) as [e|] eqn:He; [|by exists c].
    eexists. split; [done|]. split; [|done]. by apply (touch_within_budget id e).
Qed.

(** The media cache never exceeds its budget.  From a new cache, whatever
    operations are performed and whether or not they succeed, every one of them
    ends, and the total size of the entries stays within the byte budget the
    cache was made with. *)
Theorem media_cache_stays_within_budget (max_bytes : Z) (c : MediaCache) (ops : list CacheOp) :
  0 <= max_bytes -> media_cache_new max_bytes = Ok c -> forallb op_valid ops = true ->
  exists c', cache_run ops c = Some c' /\ total_bytes c' <= max_bytes.
Proof.
  intros Hmax Hnew Hops. unfold media_cache_new in Hnew. oks.
  assert (within_budget c /\ cache_max_bytes c = max_bytes) as [Hc Hm].
  { subst c. split; [|done]. split; [|exact Hmax]. split; intros id e He; simpl in He; by rewrite lookup_empty in He. }
  clear Hnew. rewrite <- Hm. clear Hm Hmax. revert c Hc Hops. induction ops as [|op ops IH]; intros c Hc Hops; simpl.
  - exists c. split; [done|]. apply Hc.
  - simpl in Hops. apply andb_true_iff in Hops as [Hop Hops].
    destruct (cache_step_within_budget op c Hop Hc) as (c1 & -> & Hc1 & Hm1). simpl.
    rewrite <- Hm1. by apply IH.
Qed.

(** ** Witnesses *)

Definition picture (id : string) : MediaRef := {|
  media_id := id; media_file_name := None; media_mime_type := None; media_size_bytes := None; media_width := None;
  media_height := None; media_duration_ms := None; media_thumbnail_id := None; media_local_path := None;
  media_remote_url := None; media_content_hash := None |}.

(** A cache of 100 bytes with a pinned entry of 40 and two others of 30 and 20. *)
Definition sample_cache : MediaCache := {|
  cache_max_bytes := 100;
  cache_entries := <["a" := new_entry (picture "a") "/a" 40 1 true]>
                     (<["b" := new_entry (picture "b") "/b" 30 2 false]>
                        (<["c" := new_entry (picture "c") "/c" 20 3 false]> ∅)) |}.

Lemma sample_cache_wf : cache_wf sample_cache.
Proof.
  split; intros id e; simpl; rewrite !lookup_insert_Some, lookup_empty;
    intros [[<- <-]|[_ [[<- <-]|[_ [[<- <-]|[_ [=]]]]]]]; simpl; (reflexivity || lia).
Qed.

Lemma insert_evicts_least_recently_used_witness :
  exists c2 es, evicts (Some "d") (stored (new_entry (picture "d") "/d" 35 9 false) sample_cache) es c2
    /\ cache_entries c2 !! "d" = Some (new_entry (picture "d") "/d" 35 9 false)
    /\ cache_insert (picture "d") "/d" 35 9 false sample_cache = Some (c2, Ok es) /\ ce_id <$> es = ["b"].
Proof.
  destruct (insert_evicts_least_recently_used (picture "d") "/d" 35 9 false sample_cache)
    as (c2 & es & Hes & Hcase & Hnew & _); [exact sample_cache_wf|lia|reflexivity|].
  exists c2, es. split; [exact Hes|]. split; [exact Hnew|].
  destruct Hcase as [[Heq _]|[Heq _]]; [|vm_compute in Heq; discriminate Heq].
  split; [exact Heq|]. vm_compute in Heq. injection Heq as _ <-. reflexivity.
Defined.

Lemma media_cache_stays_within_budget_witness :
  exists c', cache_run [CacheInsert (picture "a") "/a" 60 1 true; CacheInsert (picture "b") "/b" 50 2 true;
                        CacheInsert (picture "c") "/c" 40 3 false; CacheGet "a" 5]
               {| cache_max_bytes := 100; cache_entries := ∅ |} = Some c'
    /\ total_bytes c' <= 100.
Proof. apply (media_cache_stays_within_budget 100); [lia|reflexivity|reflexivity]. Defined.

(** An insertion that fails has evicted other entries all the same, and does not
    return them: the caller cannot delete their files. *)
Lemma failed_insert_loses_entries :
  let c := cache_insert (picture "d") "/d" 65 9 false sample_cache in
  (fun r => btree_keys (cache_entries (fst r))) <$> c = Some ["a"]
  /\ snd <$> c = Some (Err PinnedEntriesExceedBudget).
Proof. vm_compute. split; reflexivity. Qed.

(** ** Media transfers ([media.rs]) *)

Inductive TransferDirection := Upload | Download.

Inductive TransferState :=
| Queued | Resolving | Transferring | Paused | Verifying | TransferCompleted | TransferFailed | Cancelled.

Record MediaDescriptor := {
  md_id : string;
  md_file_name : string;
  md_mime_type : string;
  md_size_bytes : Z;
  md_content_hash : option string;
  md_width : option Z;
  md_height : option Z;
  md_duration_ms : option Z;
  md_thumbnail_id : option string;
}.

Record MediaTransfer := {
  mx_id : string;
  mx_direction : TransferDirection;
  mx_media : MediaDescriptor;
  mx_state : TransferState;
  mx_local_path : option string;
  mx_remote_locator : option string;
  mx_chunk_size : Z;
  mx_transferred_bytes : Z;
  mx_verified_bytes : Z;
  mx_retry_count : Z;
  mx_created_at_ms : Z;
  mx_updated_at_ms : Z;
  mx_error : option string;
}.
#[export] Instance eta_MediaTransfer : Eta MediaTransfer := fun t =>
  Build_MediaTransfer (mx_id t) (mx_direction t) (mx_media t) (mx_state t) (mx_local_path t) (mx_remote_locator t)
    (mx_chunk_size t) (mx_transferred_bytes t) (mx_verified_bytes t) (mx_retry_count t) (mx_created_at_ms t)
    (mx_updated_at_ms t) (mx_error t).

#[export] Instance TransferState_eq_dec : EqDecision TransferState.
Proof. solve_decision. Defined.

Inductive MediaError :=
| DuplicateTransfer (id : string)
| TransferNotFound (id : string)
| InvalidChunkSize
| InvalidTransition (from to : TransferState)
| UnexpectedOffset (expected actual : Z)
| VerificationMismatch (expected actual : Z)
| TerminalTransfer (id : string).

Definition media_size (t : MediaTransfer) : Z := md_size_bytes (mx_media t).


(** [MediaTransfer::progress_percent] *)
Definition progress_percent (t : MediaTransfer) : Z :=
  if media_size t =? 0 then if eqb (mx_state t) TransferCompleted then 100 else 0
  else Z.min (saturating_mul_u64 (mx_transferred_bytes t) 100 / media_size t) 100.

Definition remaining_bytes (t : MediaTransfer) : Z := saturating_sub_u64 (media_size t) (mx_transferred_bytes t).

(** [MediaTransferQueue] *)
Definition MediaTransferQueue : Type := gmap string MediaTransfer.

(** [MediaTransferQueue::enqueue] *)
Definition media_enqueue (t : MediaTransfer) (q : MediaTransferQueue) : MediaTransferQueue * result MediaError unit :=
  if mx_chunk_size t =? 0 then (q, Err InvalidChunkSize)
  else if contains_key (mx_id t) q then (q, Err (DuplicateTransfer (mx_id t)))
  else (<[mx_id t := t]> q, Ok tt).

(** [require_mut], and a change of the transfer that may be refused before any
    field is written. *)
Definition change_transfer (id : string) (f : MediaTransfer -> result MediaError MediaTransfer) (q : MediaTransferQueue) :
    MediaTransferQueue * result MediaError unit :=
  match q !! id with
  | None => (q, Err (TransferNotFound id))
  | Some t =>
      match f t with
      | Err e => (q, Err e)
      | Ok t => (<[id := t]> q, Ok tt)
      end
  end.

(** [MediaTransferQueue::start] *)
Definition media_start (id : string) (now_ms : Z) : MediaTransferQueue -> MediaTransferQueue * result MediaError unit :=
  change_transfer id (fun t =>
    match mx_state t with
    | Queued | Paused | TransferFailed =>
        Ok (t ⟪ mx_state := Transferring ⟫ ⟪ mx_updated_at_ms := now_ms ⟫ ⟪ mx_error := None ⟫)
    | state => Err (InvalidTransition state Transferring)
    end).

(** [MediaTransferQueue::acknowledge_chunk] *)
Definition acknowledge_chunk (id : string) (offset length now_ms : Z) :
    MediaTransferQueue -> MediaTransferQueue * result MediaError unit :=
  change_transfer id (fun t =>
    reject_if (negb (eqb (mx_state t) Transferring)) (InvalidTransition (mx_state t) Transferring) ;;
    reject_if (negb (offset =? mx_transferred_bytes t)) (UnexpectedOffset (mx_transferred_bytes t) offset) ;;
    let t := t ⟪ mx_transferred_bytes := Z.min (saturating_add_u64 (mx_transferred_bytes t) length) (media_size t) ⟫
               ⟪ mx_updated_at_ms := now_ms ⟫ in
    Ok (if mx_transferred_bytes t =? media_size t then t ⟪ mx_state := Verifying ⟫ else t)).

(** [MediaTransferQueue::complete_verification] *)
Definition complete_verification (id : string) (verified_bytes : Z) (remote_locator : option string) (now_ms : Z) :
    MediaTransferQueue -> MediaTransferQueue * result MediaError unit :=
  change_transfer id (fun t =>
    reject_if (negb (eqb (mx_state t) Verifying)) (InvalidTransition (mx_state t) TransferCompleted) ;;
    reject_if (negb (verified_bytes =? media_size t)) (VerificationMismatch (media_size t) verified_bytes) ;;
    Ok (t ⟪ mx_verified_bytes := verified_bytes ⟫
          ⟪ mx_remote_locator ::= fun previous => if remote_locator then remote_locator else previous ⟫
          ⟪ mx_state := TransferCompleted ⟫ ⟪ mx_updated_at_ms := now_ms ⟫)).

(** [MediaTransferQueue::pause] *)
Definition media_pause (id : string) (now_ms : Z) : MediaTransferQueue -> MediaTransferQueue * result MediaError unit :=
  change_transfer id (fun t =>
    reject_if (negb (eqb (mx_state t) Transferring)) (InvalidTransition (mx_state t) Paused) ;;
    Ok (t ⟪ mx_state := Paused ⟫ ⟪ mx_updated_at_ms := now_ms ⟫)).

Definition terminal (s : TransferState) : bool := match s with TransferCompleted | Cancelled => true | _ => false end.

(** [MediaTransferQueue::fail] *)
Definition media_fail (id error : string) (now_ms : Z) : MediaTransferQueue -> MediaTransferQueue * result MediaError unit :=
  change_transfer id (fun t =>
    reject_if (terminal (mx_state t)) (TerminalTransfer id) ;;
    Ok (t ⟪ mx_state := TransferFailed ⟫ ⟪ mx_retry_count ::= fun n => Z.min u32_max (n + 1) ⟫
          ⟪ mx_error := Some error ⟫ ⟪ mx_updated_at_ms := now_ms ⟫)).

(** [MediaTransferQueue::cancel] *)
Definition media_cancel (id : string) (now_ms : Z) : MediaTransferQueue -> MediaTransferQueue * result MediaError unit :=
  change_transfer id (fun t =>
    reject_if (eqb (mx_state t) TransferCompleted) (TerminalTransfer id) ;;
    Ok (t ⟪ mx_state := Cancelled ⟫ ⟪ mx_updated_at_ms := now_ms ⟫)).

(** The calls of the queue. *)
Inductive media_call :=
| MediaEnqueue (t : MediaTransfer)
| MediaStart (id : string) (now_ms : Z)
| AcknowledgeChunk (id : string) (offset length now_ms : Z)
| CompleteVerification (id : string) (verified_bytes : Z) (remote_locator : option string) (now_ms : Z)
| MediaPause (id : string) (now_ms : Z)
| MediaFail (id error : string) (now_ms : Z)
| MediaCancel (id : string) (now_ms : Z).

Definition media_do (c : media_call) (q : MediaTransferQueue) : MediaTransferQueue * result MediaError unit :=
  match c with
  | MediaEnqueue t => media_enqueue t q
  | MediaStart id now_ms => media_start id now_ms q
  | AcknowledgeChunk id offset length now_ms => acknowledge_chunk id offset length now_ms q
  | CompleteVerification id verified_bytes remote_locator now_ms => complete_verification id verified_bytes remote_locator now_ms q
  | MediaPause id now_ms => media_pause id now_ms q
  | MediaFail id error now_ms => media_fail id error now_ms q
  | MediaCancel id now_ms => media_cancel id now_ms q
  end.

Definition media_run (calls : list media_call) (q : MediaTransferQueue) : MediaTransferQueue :=
  foldl (fun q c => fst (media_do c q)) q calls.

(** ** What a transfer's state says of its bytes *)

(** A transfer as it is meant to be enqueued: new, of a file whose size fits. *)
Definition fresh_transfer (t : MediaTransfer) : Prop :=
  mx_state t = Queued /\ mx_transferred_bytes t = 0 /\ 0 <= media_size t <= u64_max.

Record transfer_sound (id : string) (t : MediaTransfer) : Prop := {
  ts_named : mx_id t = id;
  ts_size : media_size t <= u64_max;
  ts_bytes : 0 <= mx_transferred_bytes t <= media_size t;
  ts_verifying : mx_state t = Verifying -> mx_transferred_bytes t = media_size t;
  ts_completed : mx_state t = TransferCompleted ->
    mx_transferred_bytes t = media_size t /\ mx_verified_bytes t = media_size t;
}.

Definition call_typed (c : media_call) : Prop :=
  match c with
  | MediaEnqueue t => fresh_transfer t
  | AcknowledgeChunk _ _ length _ => 0 <= length <= u32_max
  | _ => True
  end.

Lemma change_transfer_sound (id : string) (f : MediaTransfer -> result MediaError MediaTransfer) (q : MediaTransferQueue) :
  (forall t t', transfer_sound id t -> f t = Ok t' -> transfer_sound id t') ->
  map_Forall transfer_sound q -> map_Forall transfer_sound (fst (change_transfer id f q)).
Proof.
  intros Hf Hq. unfold change_transfer. destruct (q !! id) as [t|] eqn:Ht; [|done].
  destruct (f t) as [t'|e] eqn:Hft; [|done]. apply map_Forall_insert_2; [|done]. eapply Hf; [|done]. by apply Hq.
Qed.

Lemma media_do_sound (c : media_call) (q : MediaTransferQueue) :
  call_typed c -> map_Forall transfer_sound q -> map_Forall transfer_sound (fst (media_do c q)).
Proof.
  intros Hc Hq. destruct c; cbn [media_do].
  { unfold media_enqueue. destruct (_ =? 0); [done|]. destruct (contains_key _ _); [done|].
    destruct Hc as (Hs & Hb & Hsz). apply map_Forall_insert_2; [|done]. split; rewrite ?Hs, ?Hb; done || lia. }
  all: apply change_transfer_sound; [|done]; intros t t' Hsound Hok; destruct Hsound as [Hid Hmax Hbytes Hv Hd].
  - destruct (mx_state t) eqn:Hs; oks; subst; split; fields; done.
  - cbv zeta in Hok. oks. apply eqb_true in Hok0. revert Hok.
    set (n := Z.min _ _). assert (Hn : 0 <= n <= media_size t) by (cbn in Hc; unfold n, saturating_add_u64, clamp, u64_max; lia).
    fields. change (media_size (t ⟪ mx_transferred_bytes := n ⟫ ⟪ mx_updated_at_ms := now_ms ⟫)) with (media_size t).
    destruct (n =? media_size t) eqn:He; intros <-; split; fields; try done; try lia; by rewrite Hok0.
  - oks. subst. apply eqb_true in Hok0. split; fields; try done.
    intros _. split; [by apply Hv|]. by apply Z.eqb_eq.
  - oks. subst. split; fields; done.
  - oks. subst. split; fields; done.
  - oks. subst. split; fields; done.
Qed.

(** However the queue is used, a transfer that was enqueued new never holds more
    bytes than its file has, and one that is complete has received and verified
    every byte of it. *)
Theorem completed_transfers_are_verified (calls : list media_call) (id : string) (t : MediaTransfer) :
  Forall call_typed calls -> media_run calls ∅ !! id = Some t ->
  mx_transferred_bytes t <= media_size t
  /\ progress_percent t <= 100
  /\ (mx_state t = TransferCompleted -> mx_transferred_bytes t = media_size t /\ mx_verified_bytes t = media_size t).
Proof.
  intros Hc Ht.
  assert (Hq : map_Forall transfer_sound (media_run calls ∅)).
  { generalize (map_Forall_empty transfer_sound : map_Forall transfer_sound (∅ : MediaTransferQueue)).
    clear Ht. generalize (∅ : MediaTransferQueue). induction Hc as [|c calls Hc _ IH]; intros q Hq; [done|].
    by apply IH, media_do_sound. }
  destruct (Hq _ _ Ht) as [? ? ? ? ?]. split; [lia|]. split; [|done].
  unfold progress_percent. repeat case_match; lia.
Qed.

(** The percentage saturates: past [u64_max / 100] bytes it understates. *)
Definition huge_transfer : MediaTransfer := {|
  mx_id := "h"; mx_direction := Upload;
  mx_media := {| md_id := "m"; md_file_name := "m"; md_mime_type := "video"; md_size_bytes := 2 ^ 62; md_content_hash := None;
                 md_width := None; md_height := None; md_duration_ms := None; md_thumbnail_id := None |};
  mx_state := TransferCompleted; mx_local_path := None; mx_remote_locator := None; mx_chunk_size := 1;
  mx_transferred_bytes := 2 ^ 62; mx_verified_bytes := 2 ^ 62; mx_retry_count := 0; mx_created_at_ms := 0;
  mx_updated_at_ms := 0; mx_error := None |}.

Lemma progress_saturates : progress_percent huge_transfer = 3.
Proof. reflexivity. Qed.

Definition short_clip : MediaTransfer := {|
  mx_id := "t"; mx_direction := Upload;
  mx_media := {| md_id := "m"; md_file_name := "m"; md_mime_type := "video"; md_size_bytes := 3; md_content_hash := None;
                 md_width := None; md_height := None; md_duration_ms := None; md_thumbnail_id := None |};
  mx_state := Queued; mx_local_path := None; mx_remote_locator := None; mx_chunk_size := 2; mx_transferred_bytes := 0;
  mx_verified_bytes := 0; mx_retry_count := 0; mx_created_at_ms := 0; mx_updated_at_ms := 0; mx_error := None |}.

Definition short_upload : list media_call :=
  [MediaEnqueue short_clip; MediaStart "t" 1; AcknowledgeChunk "t" 0 2 2; MediaFail "t" "offline" 3; MediaStart "t" 4;
   AcknowledgeChunk "t" 2 2 5; CompleteVerification "t" 3 (Some "cdn") 6].

Lemma completed_transfers_are_verified_witness :
  exists t, media_run short_upload ∅ !! "t" = Some t /\ mx_state t = TransferCompleted /\ mx_verified_bytes t = 3.
Proof.
  destruct (media_run short_upload ∅ !! "t") as [t|] eqn:Ht; [|vm_compute in Ht; discriminate].
  exists t. split; [reflexivity|].
  assert (Hs : mx_state t = TransferCompleted) by (vm_compute in Ht; by injection Ht as <-).
  split; [exact Hs|].
  destruct (completed_transfers_are_verified short_upload "t" t) as (_ & _ & Hv); [|exact Ht|].
  { repeat constructor; cbn; discriminate. }
  destruct (Hv Hs) as [_ ->]. vm_compute in Ht. by injection Ht as <-.
Defined.
