(* ===== verification/TransferQueue.v ===== *)
(** * The transfer queue of the Telegram client ([telegram-media/src/lib.rs])

    Resumable uploads and downloads: the commands of the queue, the events they
    decide and the state the events make.  The hexadecimal decoder is the [hex]
    crate's, of which the code asks only whether a string decodes.  Counts of
    transfers ([usize]) are integers. *)

From S2P Require Import Prelude Text Maps Bytes.

Definition TransferId : Type := string.
Definition MediaFileId : Type := string.

(** [TransferId::is_valid] *)
Definition transfer_id_is_valid (id : TransferId) : bool := negb (blank id) && (len id <=? 128).

Inductive TransferDirection := Upload | Download.

(** In the order of [PartialOrd]. *)
Inductive TransferPriority := Background | Normal | UserInitiated | RealtimePriority.

Inductive TransferState :=
| Queued
| Running
| Paused
| Failed (code : string) (retryable : bool)
| Completed (sha256 : option string)
| Canceled.

Definition occupies_slot (s : TransferState) : bool := match s with Running => true | _ => false end.
Definition is_terminal (s : TransferState) : bool := match s with Completed _ | Canceled => true | _ => false end.
Definition is_queued (s : TransferState) : bool := match s with Queued => true | _ => false end.

Record MediaTransfer := {
  mt_id : TransferId;
  mt_file_id : MediaFileId;
  mt_direction : TransferDirection;
  mt_priority : TransferPriority;
  mt_total_bytes : Z;
  mt_completed_bytes : Z;
  mt_chunk_size : Z;
  mt_expected_sha256 : option string;
  mt_state : TransferState;
  mt_enqueue_order : Z;
  mt_attempt : Z;
}.
#[export] Instance eta_MediaTransfer : Eta MediaTransfer := fun t =>
  Build_MediaTransfer (mt_id t) (mt_file_id t) (mt_direction t) (mt_priority t) (mt_total_bytes t) (mt_completed_bytes t)
    (mt_chunk_size t) (mt_expected_sha256 t) (mt_state t) (mt_enqueue_order t) (mt_attempt t).

Record ChunkPlan := {
  cp_offset : Z;
  cp_length : Z;
}.

(** [MediaTransfer::next_chunk] *)
Definition next_chunk (t : MediaTransfer) : option ChunkPlan :=
  if is_terminal (mt_state t) || (mt_total_bytes t <=? mt_completed_bytes t) then None
  else
    let remaining := mt_total_bytes t - mt_completed_bytes t in
    Some {| cp_offset := mt_completed_bytes t; cp_length := Z.min remaining (mt_chunk_size t) |}.

Inductive TransferCommand :=
| Enqueue (id : TransferId) (file_id : MediaFileId) (direction : TransferDirection) (priority : TransferPriority)
    (total_bytes chunk_size : Z) (expected_sha256 : option string)
| Start (id : TransferId)
| RecordChunk (id : TransferId) (offset bytes_written : Z)
| Pause (id : TransferId)
| Resume (id : TransferId)
| Fail_ (id : TransferId) (code : string) (retryable : bool)
| Retry (id : TransferId)
| Complete (id : TransferId) (actual_sha256 : option string)
| Cancel (id : TransferId)
| SetPriority (id : TransferId) (priority : TransferPriority).

Inductive TransferEvent :=
| EvEnqueued (t : MediaTransfer)
| EvStarted (id : TransferId)
| EvChunkRecorded (id : TransferId) (completed_bytes : Z)
| EvPaused (id : TransferId)
| EvResumed (id : TransferId)
| EvFailed (id : TransferId) (code : string) (retryable : bool)
| EvRetried (id : TransferId) (attempt : Z)
| EvCompleted (id : TransferId) (sha256 : option string)
| EvCanceled (id : TransferId)
| EvPriorityChanged (id : TransferId) (priority : TransferPriority).

Inductive TransferError :=
| InvalidTransferId
| DuplicateTransfer (id : TransferId)
| TransferNotFound (id : TransferId)
| InvalidSize
| InvalidSha256
| NoAvailableSlot
| InvalidTransition (state : TransferState) (command : string)
| UnexpectedChunkOffset (expected actual : Z)
| InvalidChunkLength
| IncompleteTransfer (completed total : Z)
| IntegrityMismatch (expected actual : string)
| AttemptCounterExhausted.

#[export] Instance TransferState_eq_dec : EqDecision TransferState.
Proof. solve_decision. Defined.
#[export] Instance TransferError_eq_dec : EqDecision TransferError.
Proof. solve_decision. Defined.

Record TransferQueue := {
  tq_transfers : gmap TransferId MediaTransfer;
  tq_max_concurrent : Z;
  tq_next_enqueue_order : Z;
}.
#[export] Instance eta_TransferQueue : Eta TransferQueue := fun q =>
  Build_TransferQueue (tq_transfers q) (tq_max_concurrent q) (tq_next_enqueue_order q).

(** [TransferQueue::new] *)
Definition transfer_queue_new (max_concurrent : Z) : TransferQueue :=
  {| tq_transfers := ∅; tq_max_concurrent := Z.max max_concurrent 1; tq_next_enqueue_order := 0 |}.

Definition running_count (q : TransferQueue) : Z :=
  Z.of_nat (length (filter (fun t => occupies_slot (mt_state t) = true) (btree_values (tq_transfers q)))).

Definition priority_rank (p : TransferPriority) : Z :=
  match p with Background => 0 | Normal => 1 | UserInitiated => 2 | RealtimePriority => 3 end.

(** The order of the keys [(priority, Reverse(enqueue_order))]. *)
Definition ready_key_le (a b : MediaTransfer) : bool :=
  (priority_rank (mt_priority a) <? priority_rank (mt_priority b))
  || ((priority_rank (mt_priority a) =? priority_rank (mt_priority b)) && (mt_enqueue_order b <=? mt_enqueue_order a)).

(** [Iterator::max_by_key]: the last of the greatest elements. *)
Definition max_by {A : Type} (le : A -> A -> bool) (l : list A) : option A :=
  foldl (fun best x => match best with
                       | None => Some x
                       | Some b => if le b x then Some x else Some b
                       end) None l.

Definition next_ready (q : TransferQueue) : option MediaTransfer :=
  if tq_max_concurrent q <=? running_count q then None
  else max_by ready_key_le (filter (fun t => is_queued (mt_state t) = true) (btree_values (tq_transfers q))).

Definition invalid_transition {A : Type} (s : TransferState) (command : string) : result TransferError A :=
  Err (InvalidTransition s command).

Definition require (q : TransferQueue) (id : TransferId) : result TransferError MediaTransfer :=
  ok_or (tq_transfers q !! id) (TransferNotFound id).

(** The checks the arms of [decide] share. *)
Definition expect_state (ok : TransferState -> bool) (t : MediaTransfer) (command : string) : result TransferError unit :=
  if ok (mt_state t) then Ok tt else invalid_transition (mt_state t) command.

Definition free_slot (q : TransferQueue) : result TransferError unit :=
  reject_if (tq_max_concurrent q <=? running_count q) NoAvailableSlot.

Definition is_paused (s : TransferState) : bool := match s with Paused => true | _ => false end.
Definition may_retry (s : TransferState) : bool := match s with Failed _ retryable => retryable | _ => false end.

Section queue.
Context (hex_decodes : string -> bool).

Definition normalize_sha256 (value : string) : result TransferError string :=
  let value := to_ascii_lowercase (trim value) in
  reject_if (negb (len value =? 64) || negb (hex_decodes value)) InvalidSha256 ;;
  Ok value.

Definition enqueue_event (q : TransferQueue) (id : TransferId) (file_id : MediaFileId) (direction : TransferDirection)
    (priority : TransferPriority) (total_bytes chunk_size : Z) (expected_sha256 : option string) :
    result TransferError TransferEvent :=
  reject_if (negb (transfer_id_is_valid id)) InvalidTransferId ;;
  reject_if (contains_key id (tq_transfers q)) (DuplicateTransfer id) ;;
  reject_if ((total_bytes =? 0) || (chunk_size =? 0)) InvalidSize ;;
  expected_sha256 ← transpose (normalize_sha256 <$> expected_sha256);
  Ok (EvEnqueued {| mt_id := id; mt_file_id := file_id; mt_direction := direction; mt_priority := priority;
    mt_total_bytes := total_bytes; mt_completed_bytes := 0; mt_chunk_size := chunk_size;
    mt_expected_sha256 := expected_sha256; mt_state := Queued; mt_enqueue_order := tq_next_enqueue_order q;
    mt_attempt := 0 |}).

Definition record_chunk_event (q : TransferQueue) (id : TransferId) (offset bytes_written : Z) :
    result TransferError TransferEvent :=
  t ← require q id;
  expect_state occupies_slot t "recordChunk" ;;
  reject_if (negb (offset =? mt_completed_bytes t)) (UnexpectedChunkOffset (mt_completed_bytes t) offset) ;;
  next ← ok_or (next ← checked_add_u64 (mt_completed_bytes t) bytes_written;
                if (0 <? bytes_written) && (next <=? mt_total_bytes t) then Some next else None) InvalidChunkLength;
  Ok (EvChunkRecorded id next).

Definition complete_event (q : TransferQueue) (id : TransferId) (actual_sha256 : option string) :
    result TransferError TransferEvent :=
  t ← require q id;
  expect_state occupies_slot t "complete" ;;
  reject_if (negb (mt_completed_bytes t =? mt_total_bytes t)) (IncompleteTransfer (mt_completed_bytes t) (mt_total_bytes t)) ;;
  actual_sha256 ← transpose (normalize_sha256 <$> actual_sha256);
  match mt_expected_sha256 t with
  | None => Ok tt
  | Some expected =>
      actual ← ok_or actual_sha256 (IntegrityMismatch expected "missing");
      reject_if (negb (eqb actual expected)) (IntegrityMismatch expected actual)
  end ;;
  Ok (EvCompleted id actual_sha256).

(** [TransferQueue::decide] answers with one event. *)
Definition transfer_decide (q : TransferQueue) (command : TransferCommand) : result TransferError TransferEvent :=
  match command with
  | Enqueue id file_id direction priority total_bytes chunk_size expected_sha256 =>
      enqueue_event q id file_id direction priority total_bytes chunk_size expected_sha256
  | Start id => t ← require q id; expect_state is_queued t "start" ;; free_slot q ;; Ok (EvStarted id)
  | RecordChunk id offset bytes_written => record_chunk_event q id offset bytes_written
  | Pause id => t ← require q id; expect_state occupies_slot t "pause" ;; Ok (EvPaused id)
  | Resume id => t ← require q id; expect_state is_paused t "resume" ;; free_slot q ;; Ok (EvResumed id)
  | Fail_ id code retryable =>
      t ← require q id; expect_state occupies_slot t "fail" ;; Ok (EvFailed id code retryable)
  | Retry id =>
      t ← require q id; expect_state may_retry t "retry" ;;
      attempt ← ok_or (checked in_u32 (mt_attempt t + 1)) AttemptCounterExhausted;
      Ok (EvRetried id attempt)
  | Complete id actual_sha256 => complete_event q id actual_sha256
  | Cancel id => t ← require q id; expect_state (fun s => negb (is_terminal s)) t "cancel" ;; Ok (EvCanceled id)
  | SetPriority id priority =>
      t ← require q id; expect_state (fun s => negb (is_terminal s)) t "setPriority" ;; Ok (EvPriorityChanged id priority)
  end.

Definition on_transfer (id : TransferId) (f : MediaTransfer -> MediaTransfer) (q : TransferQueue) : TransferQueue :=
  q ⟪ tq_transfers ::= alter f id ⟫.

(** [TransferQueue::apply] *)
Definition transfer_apply (event : TransferEvent) (q : TransferQueue) : TransferQueue :=
  match event with
  | EvEnqueued t =>
      q ⟪ tq_next_enqueue_order ::= fun n => Z.max n (saturating_add_u64 (mt_enqueue_order t) 1) ⟫
        ⟪ tq_transfers ::= <[mt_id t := t]> ⟫
  | EvStarted id | EvResumed id => on_transfer id (fun t => t ⟪ mt_state := Running ⟫) q
  | EvChunkRecorded id completed_bytes => on_transfer id (fun t => t ⟪ mt_completed_bytes := completed_bytes ⟫) q
  | EvPaused id => on_transfer id (fun t => t ⟪ mt_state := Paused ⟫) q
  | EvFailed id code retryable => on_transfer id (fun t => t ⟪ mt_state := Failed code retryable ⟫) q
  | EvRetried id attempt => on_transfer id (fun t => t ⟪ mt_attempt := attempt ⟫ ⟪ mt_state := Queued ⟫) q
  | EvCompleted id sha256 => on_transfer id (fun t => t ⟪ mt_state := Completed sha256 ⟫) q
  | EvCanceled id => on_transfer id (fun t => t ⟪ mt_state := Canceled ⟫) q
  | EvPriorityChanged id priority => on_transfer id (fun t => t ⟪ mt_priority := priority ⟫) q
  end.

(** [TransferQueue::execute] *)
Definition transfer_execute (command : TransferCommand) (q : TransferQueue) : TransferQueue * result TransferError TransferEvent :=
  match transfer_decide q command with
  | Err e => (q, Err e)
  | Ok event => (transfer_apply event q, Ok event)
  end.

Definition transfer_run (commands : list TransferCommand) (q : TransferQueue) : TransferQueue :=
  foldl (fun q command => fst (transfer_execute command q)) q commands.
End queue.

(** ** Counting the transfers that run *)

Definition runs (t : MediaTransfer) : Z := if occupies_slot (mt_state t) then 1 else 0.

Lemma alter_is_insert {K V : Type} `{Countable K} (f : V -> V) (k : K) (v : V) (m : gmap K V) :
  m !! k = Some v -> alter f k m = <[k := f v]> m.
Proof.
  intros Hk. apply map_eq. intros j. destruct (decide (k = j)) as [<-|Hne].
  - by rewrite lookup_insert_eq, lookup_alter_eq, Hk.
  - by rewrite lookup_insert_ne, lookup_alter_ne.
Qed.

Lemma running_count_sum (q : TransferQueue) : running_count q = map_sum (fun _ t => runs t) (tq_transfers q).
Proof.
  unfold running_count. generalize (tq_transfers q) as m. intros m.
  induction m as [|k t m Hk IH] using map_ind; [by rewrite map_sum_empty|].
  rewrite map_sum_insert_new, <- IH, !(filter_Permutation _ _ _ (btree_values_perm _)), (map_to_list_insert m k t Hk) by done.
  rewrite fmap_cons, filter_cons. unfold runs. cbn [snd].
  destruct (occupies_slot _); [rewrite decide_True by done; cbn [length]; lia|by rewrite decide_False].
Qed.

Lemma running_count_on (id : TransferId) (f : MediaTransfer -> MediaTransfer) (q : TransferQueue) (t : MediaTransfer) :
  tq_transfers q !! id = Some t -> running_count (on_transfer id f q) = running_count q - runs t + runs (f t).
Proof.
  intros Ht. rewrite !running_count_sum. unfold on_transfer. fields.
  by rewrite (alter_is_insert f id t), (map_sum_insert (fun _ t => runs t) id (f t) t).
Qed.

(** ** The limits of the queue *)

(** The transfer holds no more bytes than its file has; what is complete is whole
    and has the digest that was asked for. *)
Record transfer_wf (t : MediaTransfer) : Prop := {
  tw_bytes : 0 <= mt_completed_bytes t <= mt_total_bytes t;
  tw_total : 0 < mt_total_bytes t <= u64_max;
  tw_chunk : 0 < mt_chunk_size t <= u32_max;
  tw_complete : forall sha256, mt_state t = Completed sha256 ->
    mt_completed_bytes t = mt_total_bytes t /\ (is_Some (mt_expected_sha256 t) -> sha256 = mt_expected_sha256 t);
}.

(** The position of the transfer precedes the next one the queue gives out, until
    the counter saturates. *)
Definition enqueued_before (t : MediaTransfer) (q : TransferQueue) : Prop :=
  mt_enqueue_order t < tq_next_enqueue_order q \/ tq_next_enqueue_order q = u64_max.

Record queue_wf (q : TransferQueue) : Prop := {
  qw_transfers : map_Forall (fun id t => mt_id t = id /\ transfer_wf t) (tq_transfers q);
  qw_running : running_count q <= tq_max_concurrent q;
  qw_order : map_Forall (fun _ t => enqueued_before t q) (tq_transfers q);
  qw_next : 0 <= tq_next_enqueue_order q <= u64_max;
}.

(** The sizes of a command are unsigned. *)
Definition command_typed (command : TransferCommand) : Prop :=
  match command with
  | Enqueue _ _ _ _ total_bytes chunk_size _ => 0 <= total_bytes <= u64_max /\ 0 <= chunk_size <= u32_max
  | RecordChunk _ offset bytes_written => 0 <= offset /\ 0 <= bytes_written <= u32_max
  | _ => True
  end.

Lemma expect_state_ok (ok : TransferState -> bool) (t : MediaTransfer) (command : string) (u : unit) :
  expect_state ok t command = Ok u <-> ok (mt_state t) = true.
Proof. unfold expect_state, invalid_transition. destruct u. by destruct (ok _). Qed.

Lemma free_slot_ok (q : TransferQueue) (u : unit) : free_slot q = Ok u <-> running_count q < tq_max_concurrent q.
Proof. unfold free_slot. rewrite reject_if_ok. lia. Qed.

Lemma require_ok (q : TransferQueue) (id : TransferId) (t : MediaTransfer) :
  require q id = Ok t <-> tq_transfers q !! id = Some t.
Proof. apply ok_or_ok. Qed.

Lemma empty_queue_wf (n : Z) : queue_wf (transfer_queue_new n).
Proof. split; [apply map_Forall_empty| |apply map_Forall_empty|done]. change (0 <= Z.max n 1). lia. Qed.

(** A change of one transfer that keeps it sound and takes no slot it may not. *)
Lemma on_transfer_wf (id : TransferId) (f : MediaTransfer -> MediaTransfer) (q : TransferQueue) (t : MediaTransfer) :
  tq_transfers q !! id = Some t -> queue_wf q ->
  mt_id (f t) = mt_id t -> mt_enqueue_order (f t) = mt_enqueue_order t -> (transfer_wf t -> transfer_wf (f t)) ->
  running_count q - runs t + runs (f t) <= tq_max_concurrent q ->
  queue_wf (on_transfer id f q).
Proof.
  intros Ht [Htr Hrun Hord Hnext] Hid Hoe Hwf Hcount. split.
  - unfold on_transfer. fields. apply map_Forall_alter; [|done]. intros t' Ht' [? ?]. simplify_eq. rewrite Hid. auto.
  - rewrite (running_count_on id f q t Ht). done.
  - unfold on_transfer. fields. apply map_Forall_alter; [|done]. intros t' Ht' ?. simplify_eq. unfold enqueued_before. by rewrite Hoe.
  - done.
Qed.

Section limits.
Context (hex_decodes : string -> bool).

Lemma enqueue_wf (q : TransferQueue) (t : MediaTransfer) :
  queue_wf q -> tq_transfers q !! mt_id t = None -> transfer_wf t -> runs t = 0 ->
  mt_enqueue_order t = tq_next_enqueue_order q -> queue_wf (transfer_apply (EvEnqueued t) q).
Proof.
  intros [Htr Hrun Hord Hnext] Hnew Ht Hidle Horder. cbn [transfer_apply].
  assert (Hn : saturating_add_u64 (mt_enqueue_order t) 1 = Z.min u64_max (tq_next_enqueue_order q + 1)).
  { unfold saturating_add_u64, clamp. rewrite Horder. lia. }
  split; fields.
  - by apply map_Forall_insert_2.
  - rewrite running_count_sum in Hrun |- *. fields. rewrite map_sum_insert_new by done. lia.
  - unfold enqueued_before. fields. rewrite Hn. apply map_Forall_insert_2; [rewrite Horder; lia|].
    eapply map_Forall_impl; [exact Hord|]. unfold enqueued_before. intros _ t' ?. cbv beta in *. lia.
  - rewrite Hn. lia.
Qed.

Lemma complete_ok (q : TransferQueue) (id : TransferId) (actual : option string) (event : TransferEvent) :
  complete_event hex_decodes q id actual = Ok event -> exists t sha256,
    tq_transfers q !! id = Some t /\ occupies_slot (mt_state t) = true /\ event = EvCompleted id sha256
    /\ mt_completed_bytes t = mt_total_bytes t /\ (is_Some (mt_expected_sha256 t) -> sha256 = mt_expected_sha256 t).
Proof.
  unfold complete_event. intros H. oks. apply require_ok in Hok. apply expect_state_ok in Hok0.
  destruct (mt_expected_sha256 a) as [expected|] eqn:He; oks; subst; exists a; eexists; repeat split; try done; try lia.
  - intros _. rewrite He. f_equal. by apply eqb_true.
  - rewrite He. by intros [? ?].
Qed.

(** The bytes of a running transfer that a chunk follows. *)
Lemma record_chunk_ok (q : TransferQueue) (id : TransferId) (offset written : Z) (event : TransferEvent) :
  record_chunk_event q id offset written = Ok event -> exists t,
    tq_transfers q !! id = Some t /\ mt_state t = Running /\ offset = mt_completed_bytes t
    /\ 0 < written /\ mt_completed_bytes t + written <= mt_total_bytes t
    /\ event = EvChunkRecorded id (mt_completed_bytes t + written).
Proof.
  unfold record_chunk_event. intros H. oks. apply require_ok in Hok. apply expect_state_ok in Hok0.
  apply bind_Some in Hok2 as (next & Hnext & Hok2). apply checked_spec in Hnext as [-> _].
  destruct (_ && _) eqn:Hc; [|done]. simplify_eq. apply andb_true_iff in Hc as [? ?].
  exists a. destruct (mt_state a); try done. repeat split; done || lia.
Qed.

(** One transfer changes: its soundness and the slots remain to be shown. *)
Ltac one_transfer t :=
  apply (on_transfer_wf _ _ _ t);
    [assumption|assumption|reflexivity|reflexivity|intros [Hbytes Htotal Hchunk Hcomplete]; split; fields; try done|unfold runs; fields].

Lemma transfer_execute_wf (q : TransferQueue) (command : TransferCommand) :
  command_typed command -> queue_wf q -> queue_wf (fst (transfer_execute hex_decodes command q)).
Proof.
  intros Hc Hwf. pose proof (qw_running _ Hwf) as Hrun. unfold transfer_execute.
  destruct (transfer_decide hex_decodes q command) as [event|e] eqn:Hd; [|done].
  cbn [fst]. destruct command; cbn [transfer_decide] in Hd;
    try (apply record_chunk_ok in Hd as (t & Ht & Hs & _ & Hw & Hle & ->));
    try (apply complete_ok in Hd as (t & sha & Ht & Hs & -> & Hb & Hsha));
    try unfold enqueue_event in Hd; oks; subst;
    repeat match goal with
    | H : require _ _ = Ok _ |- _ => apply require_ok in H
    | H : expect_state _ _ _ = Ok _ |- _ => apply expect_state_ok in H
    | H : free_slot _ = Ok _ |- _ => apply free_slot_ok in H end; cbn [transfer_apply].
  - rename select (contains_key _ _ = false) into Hk. apply contains_key_false in Hk. destruct Hc as [Ht Hcs].
    apply (enqueue_wf q); try done. split; cbn; lia || done.
  - one_transfer a. destruct (mt_state a); cbn in *; try done; lia.
  - one_transfer t; [lia|by rewrite Hs|rewrite Hs; cbn; lia].
  - one_transfer a. destruct (mt_state a); cbn in *; lia.
  - one_transfer a. destruct (mt_state a); cbn in *; try done; lia.
  - one_transfer a. destruct (mt_state a); cbn in *; lia.
  - one_transfer a. destruct (mt_state a); cbn in *; try done; lia.
  - one_transfer t; [|destruct (mt_state t); cbn in *; lia]. intros sha' [= <-]. auto.
  - one_transfer a. destruct (mt_state a); cbn in *; lia.
  - one_transfer a. lia.
Qed.

Lemma transfer_execute_slots (q : TransferQueue) (command : TransferCommand) :
  tq_max_concurrent (fst (transfer_execute hex_decodes command q)) = tq_max_concurrent q.
Proof. unfold transfer_execute. destruct (transfer_decide _ _ _) as [[]|e]; reflexivity. Qed.

Lemma transfer_run_wf (commands : list TransferCommand) (q : TransferQueue) :
  Forall command_typed commands -> queue_wf q ->
  queue_wf (transfer_run hex_decodes commands q)
  /\ tq_max_concurrent (transfer_run hex_decodes commands q) = tq_max_concurrent q.
Proof.
  intros Hc. revert q. induction Hc as [|command commands Hc _ IH]; intros q Hq; [done|].
  destruct (IH (fst (transfer_execute hex_decodes command q))) as [? Hs]; [by apply transfer_execute_wf|].
  split; [done|]. by rewrite <- (transfer_execute_slots q command).
Qed.

(** C38: Whatever commands the queue is given, accepted or refused, it never runs more
    transfers than it has slots, no transfer holds more bytes than its file has,
    and a transfer that is complete holds all of them and has the digest that is
    stored with it, if one is. *)
Theorem transfer_queue_keeps_its_limits (slots : Z) (commands : list TransferCommand) :
  Forall command_typed commands ->
  let q := transfer_run hex_decodes commands (transfer_queue_new slots) in
  running_count q <= Z.max slots 1
  /\ forall id t, tq_transfers q !! id = Some t ->
       mt_id t = id
       /\ 0 <= mt_completed_bytes t <= mt_total_bytes t
       /\ forall sha256, mt_state t = Completed sha256 ->
            mt_completed_bytes t = mt_total_bytes t
            /\ forall expected, mt_expected_sha256 t = Some expected -> sha256 = Some expected.
Proof.
  intros Hc q.
  destruct (transfer_run_wf commands (transfer_queue_new slots) Hc (empty_queue_wf slots)) as [[Htr Hrun Hord Hnext] Hslots].
  fold q in Htr, Hrun, Hslots. rewrite Hslots in Hrun. split; [done|].
  intros id t Ht. destruct (Htr _ _ Ht) as [Hid [? ? ? Hdone]].
  split; [done|]. split; [done|]. intros sha Hsha. destruct (Hdone sha Hsha) as [? Hsame]. split; [done|].
  intros expected He. rewrite Hsame by (by rewrite He). done.
Qed.

End limits.

(** ** The order in which transfers start *)

Lemma max_by_spec {A : Type} (le : A -> A -> bool) (l : list A) :
  (forall x, le x x = true) -> (forall x y z, le x y = true -> le y z = true -> le x z = true) ->
  (forall x y, le x y = true \/ le y x = true) ->
  match max_by le l with
  | None => l = []
  | Some b => b ∈ l /\ forall x, x ∈ l -> le x b = true
  end.
Proof.
  intros Hrefl Htrans Htotal. unfold max_by. destruct l as [|a l]; [done|]. cbn [foldl]. revert a.
  induction l as [|x l IH]; intros a; cbn [foldl].
  { split; [by left|]. intros x Hx. apply list_elem_of_singleton in Hx. by subst. }
  assert (Hmax : exists c, (if le a x then Some x else Some a) = Some c /\ (c = a \/ c = x) /\ le a c = true /\ le x c = true).
  { destruct (le a x) eqn:Hax; [exists x|exists a]; repeat split; auto. destruct (Htotal a x); congruence. }
  destruct Hmax as (c & -> & Hc & Hac & Hxc). specialize (IH c). destruct (foldl _ _ l) as [b|]; [|done].
  destruct IH as [Hb Hall]. assert (Hcb : le c b = true) by (apply Hall; by left).
  rewrite !elem_of_cons in *. split; [naive_solver|].
  intros y. rewrite !elem_of_cons. intros [->|[->|Hy]]; eauto. apply Hall. by right.
Qed.

Lemma ready_key_total (a b : MediaTransfer) : ready_key_le a b = true \/ ready_key_le b a = true.
Proof. unfold ready_key_le. lia. Qed.

Lemma ready_key_spec (a b : MediaTransfer) :
  ready_key_le a b = true <->
  priority_rank (mt_priority a) < priority_rank (mt_priority b)
  \/ (mt_priority a = mt_priority b /\ mt_enqueue_order b <= mt_enqueue_order a).
Proof.
  unfold ready_key_le.
  assert (Hr : priority_rank (mt_priority a) = priority_rank (mt_priority b) <-> mt_priority a = mt_priority b)
    by (destruct (mt_priority a), (mt_priority b); cbn; split; congruence || lia).
  rewrite <- Hr. lia.
Qed.

(** The transfer that is offered next can be started: it waits, none that waits is
    more urgent, and of those as urgent it was enqueued first.  None is offered
    exactly when every slot is taken or nothing waits. *)
Theorem next_transfer_is_most_urgent (hex_decodes : string -> bool) (q : TransferQueue) :
  queue_wf q ->
  match next_ready q with
  | Some t =>
      tq_transfers q !! mt_id t = Some t
      /\ snd (transfer_execute hex_decodes (Start (mt_id t)) q) = Ok (EvStarted (mt_id t))
      /\ forall id u, tq_transfers q !! id = Some u -> mt_state u = Queued ->
           priority_rank (mt_priority u) < priority_rank (mt_priority t)
           \/ (mt_priority u = mt_priority t /\ mt_enqueue_order t <= mt_enqueue_order u)
  | None => running_count q = tq_max_concurrent q \/ forall id u, tq_transfers q !! id = Some u -> mt_state u <> Queued
  end.
Proof.
  intros [Htr Hrun _ _]. unfold next_ready. destruct (_ <=? _) eqn:Hfull; [left; lia|].
  assert (Hmax := max_by_spec ready_key_le
    (filter (fun t => is_queued (mt_state t) = true) (btree_values (tq_transfers q)))
    ltac:(unfold ready_key_le; lia) ltac:(unfold ready_key_le; lia) ready_key_total).
  destruct (max_by _ _) as [t|].
  - destruct Hmax as [[Hq Hin]%list_elem_of_filter Hall]. apply elem_of_btree_values in Hin as [id Ht].
    destruct (Htr _ _ Ht) as [<- _]. split; [done|]. split.
    + unfold transfer_execute, transfer_decide, require, expect_state, free_slot. rewrite Ht. cbn. by rewrite Hq, Hfull.
    + intros j u Hu Hs. rewrite <- ready_key_spec. apply Hall, list_elem_of_filter. rewrite Hs. split; [done|].
      apply elem_of_btree_values. eauto.
  - right. intros id u Hu Hs. assert (Hin : u ∈ filter (fun t => is_queued (mt_state t) = true) (btree_values (tq_transfers q))).
    { apply list_elem_of_filter. rewrite Hs. split; [done|]. apply elem_of_btree_values. eauto. }
    rewrite Hmax in Hin. by apply not_elem_of_nil in Hin.
Qed.

(** ** A transfer, chunk by chunk *)

Section pump.
Context (hex_decodes : string -> bool).

(** The adapter's loop: record the chunk the transfer plans next, until it plans
    none or [fuel] chunks have passed. *)
Fixpoint pump (fuel : nat) (id : TransferId) (q : TransferQueue) : TransferQueue * list ChunkPlan :=
  match fuel with
  | O => (q, [])
  | S fuel =>
      match tq_transfers q !! id ≫= next_chunk with
      | None => (q, [])
      | Some plan =>
          match transfer_execute hex_decodes (RecordChunk id (cp_offset plan) (cp_length plan)) q with
          | (q, Err _) => (q, [])
          | (q, Ok _) => let '(q, plans) := pump fuel id q in (q, plan :: plans)
          end
      end
  end.

(** The bytes of a file that a plan names. *)
Definition planned_bytes (content : list ascii) (plan : ChunkPlan) : list ascii :=
  take (Z.to_nat (cp_length plan)) (drop (Z.to_nat (cp_offset plan)) content).

Lemma pump_step (q : TransferQueue) (id : TransferId) (t : MediaTransfer) (plan : ChunkPlan) :
  transfer_wf t -> tq_transfers q !! id = Some t -> mt_state t = Running -> next_chunk t = Some plan ->
  transfer_execute hex_decodes (RecordChunk id (cp_offset plan) (cp_length plan)) q
  = (on_transfer id (fun t => t ⟪ mt_completed_bytes := cp_offset plan + cp_length plan ⟫) q,
     Ok (EvChunkRecorded id (cp_offset plan + cp_length plan)))
  /\ cp_offset plan = mt_completed_bytes t
  /\ cp_length plan = Z.min (mt_total_bytes t - mt_completed_bytes t) (mt_chunk_size t)
  /\ 0 < cp_length plan <= mt_total_bytes t - mt_completed_bytes t.
Proof.
  intros [Hb Ht Hc _] Hq Hs Hplan. unfold next_chunk in Hplan. rewrite Hs in Hplan. cbn in Hplan.
  destruct (_ <=? _) eqn:Hmore; [done|]. simplify_eq. cbn. split; [|lia].
  unfold transfer_execute, transfer_decide, record_chunk_event, require, expect_state. rewrite Hq. cbn. rewrite Hs. cbn.
  rewrite Z.eqb_refl. cbn. unfold checked_add_u64, checked.
  rewrite (proj2 (in_u64_spec _)) by lia. cbn.
  rewrite (proj2 (Z.ltb_lt _ _)), (proj2 (Z.leb_le _ _)) by lia. done.
Qed.

Lemma whole_completes (q : TransferQueue) (id : TransferId) (t : MediaTransfer) (actual digest : string) :
  tq_transfers q !! id = Some t -> mt_state t = Running -> mt_completed_bytes t = mt_total_bytes t ->
  normalize_sha256 hex_decodes actual = Ok digest ->
  mt_expected_sha256 t = None \/ mt_expected_sha256 t = Some digest ->
  snd (transfer_execute hex_decodes (Complete id (Some actual)) q) = Ok (EvCompleted id (Some digest)).
Proof.
  intros Hq Hs Hb Hn He. unfold transfer_execute, transfer_decide, complete_event, require, expect_state.
  rewrite Hq. cbn [ok_or mbind result_bind]. rewrite Hs. cbn [occupies_slot mbind result_bind].
  rewrite Hb, Z.eqb_refl. cbn [negb reject_if mbind result_bind fmap option_fmap option_map transpose].
  rewrite Hn. cbn [transpose mbind result_bind fmap result_fmap].
  destruct He as [-> | ->]; cbn; [done|]. by rewrite (proj2 (eqb_spec _ _) eq_refl).
Qed.

(** From where a running transfer stands, its plans name the rest of the file, each
    byte once and in order, in chunks of at most its size; as many rounds as the
    rest has chunks get to the end, where the transfer completes for anyone who
    has the right digest. *)
Theorem chunks_cover_the_file (fuel : nat) (id : TransferId) (q : TransferQueue) (t : MediaTransfer) (content : list ascii) :
  queue_wf q -> tq_transfers q !! id = Some t -> mt_state t = Running ->
  Z.of_nat (length content) = mt_total_bytes t ->
  mt_total_bytes t - mt_completed_bytes t <= Z.of_nat fuel * mt_chunk_size t ->
  let '(q', plans) := pump fuel id q in
  concat (planned_bytes content <$> plans) = drop (Z.to_nat (mt_completed_bytes t)) content
  /\ Forall (fun plan => 0 < cp_length plan <= mt_chunk_size t) plans
  /\ forall actual digest,
       normalize_sha256 hex_decodes actual = Ok digest ->
       mt_expected_sha256 t = None \/ mt_expected_sha256 t = Some digest ->
       snd (transfer_execute hex_decodes (Complete id (Some actual)) q') = Ok (EvCompleted id (Some digest)).
Proof.
  revert q t. induction fuel as [|fuel IH]; intros q t Hwf Hq Hs Hlen Hfuel; cbn [pump];
    destruct (qw_transfers _ Hwf _ _ Hq) as [_ Ht]; pose proof (tw_bytes _ Ht) as Hb.
  { split; [|split; [done|intros; eapply whole_completes; eauto; lia]]. by rewrite drop_ge by lia. }
  rewrite Hq. cbn [mbind option_bind]. destruct (next_chunk t) as [plan|] eqn:Hplan.
  - destruct (pump_step q id t plan Ht Hq Hs Hplan) as (Hx & Hoff & Hmin & Hpos).
    pose proof (transfer_execute_wf hex_decodes q (RecordChunk id (cp_offset plan) (cp_length plan))) as Hwf'.
    rewrite Hx in Hwf' |- *. cbn [fst] in Hwf'.
    set (f := fun t : MediaTransfer => t ⟪ mt_completed_bytes := cp_offset plan + cp_length plan ⟫) in *.
    pose proof (tw_chunk _ Ht) as Hchunk.
    assert (Hq' : tq_transfers (on_transfer id f q) !! id = Some (f t)).
    { unfold on_transfer. fields. by rewrite alter_same, Hq. }
    specialize (IH (on_transfer id f q) (f t)).
    change (mt_state (f t)) with (mt_state t) in IH. change (mt_total_bytes (f t)) with (mt_total_bytes t) in IH.
    change (mt_chunk_size (f t)) with (mt_chunk_size t) in IH. change (mt_expected_sha256 (f t)) with (mt_expected_sha256 t) in IH.
    change (mt_completed_bytes (f t)) with (cp_offset plan + cp_length plan) in IH.
    destruct (pump fuel id _) as [q' plans].
    destruct IH as (Hcat & Hsizes & Hdone); [apply Hwf'; [cbn; lia|done]|done|done|done|lia|].
    split; [|split; [constructor; [lia|done]|done]]. cbn [fmap list_fmap concat]. rewrite Hcat. unfold planned_bytes.
    rewrite <- (take_drop (Z.to_nat (cp_length plan)) (drop (Z.to_nat (mt_completed_bytes t)) content)), drop_drop, Hoff.
    do 2 f_equal. lia.
  - unfold next_chunk in Hplan. rewrite Hs in Hplan. cbn in Hplan. destruct (_ <=? _) eqn:Hmore; [|done].
    split; [|split; [done|intros; eapply whole_completes; eauto; lia]]. by rewrite drop_ge by lia.
Qed.
End pump.

(** ** A download of five bytes in chunks of two *)

Definition hex_text (s : string) : bool := all_bytes (fun a => bool_decide (is_Some (hex_value a))) s.

Definition demo_commands : list TransferCommand :=
  [Enqueue "a" "greeting" Download UserInitiated 5 2 None; Enqueue "b" "later" Upload Normal 9 4 None; Start "a"].

Definition demo_queue : TransferQueue := transfer_run hex_text demo_commands (transfer_queue_new 1).

Lemma demo_commands_typed : Forall command_typed demo_commands.
Proof. repeat constructor; discriminate. Qed.

Lemma demo_queue_wf : queue_wf demo_queue.
Proof. apply (transfer_run_wf hex_text demo_commands (transfer_queue_new 1) demo_commands_typed (empty_queue_wf 1)). Qed.

Lemma transfer_queue_keeps_its_limits_witness :
  Forall command_typed demo_commands /\ running_count demo_queue <= 1.
Proof.
  split; [exact demo_commands_typed|].
  exact (proj1 (transfer_queue_keeps_its_limits hex_text 1 demo_commands demo_commands_typed)).
Defined.

Lemma chunks_cover_the_file_witness :
  concat (planned_bytes (bytes_of "hello") <$> snd (pump hex_text 3 "a" demo_queue)) = bytes_of "hello"
  /\ length (snd (pump hex_text 3 "a" demo_queue)) = 3%nat.
Proof.
  split; [|vm_compute; reflexivity].
  pose proof (chunks_cover_the_file hex_text 3 "a" demo_queue
    {| mt_id := "a"; mt_file_id := "greeting"; mt_direction := Download; mt_priority := UserInitiated; mt_total_bytes := 5;
       mt_completed_bytes := 0; mt_chunk_size := 2; mt_expected_sha256 := None; mt_state := Running;
       mt_enqueue_order := 0; mt_attempt := 0 |} (bytes_of "hello") demo_queue_wf) as H.
  destruct (pump hex_text 3 "a" demo_queue) as [q' plans]. apply H; [vm_compute; reflexivity..|discriminate].
Defined.

Definition waiting_queue : TransferQueue := transfer_run hex_text (take 2 demo_commands) (transfer_queue_new 1).

Lemma next_transfer_is_most_urgent_witness : mt_id <$> next_ready waiting_queue = Some "a".
Proof.
  assert (Hwf : queue_wf waiting_queue).
  { apply (transfer_run_wf hex_text (take 2 demo_commands) (transfer_queue_new 1)); [|apply empty_queue_wf].
    apply Forall_take, demo_commands_typed. }
  pose proof (next_transfer_is_most_urgent hex_text waiting_queue Hwf) as H.
  destruct (next_ready waiting_queue) as [t|] eqn:Hn; [|vm_compute in Hn; discriminate].
  vm_compute in Hn. injection Hn as <-. reflexivity.
Defined.
