(* ===== verification/Extension.v ===== *)
(** * Extensions and the feed of keys they are trusted by ([extension.rs], [extension_trust.rs])

    Base64, the Ed25519 keys and signatures, SHA-256 and the JSON of the feed's
    payload belong to libraries: they are the operations of [TrustCodec], and the
    theorems ask nothing of them. *)

From S2P Require Import Prelude Text Maps Bytes.

(** ** The identity of an extension *)

Inductive ExtensionKind := McpConnector | Skill | WebMiniapp.

Definition kind_as_str (k : ExtensionKind) : string :=
  match k with McpConnector => "mcp-connector" | Skill => "skill" | WebMiniapp => "web-miniapp" end.

Inductive ExtensionOrigin := PublicOrigin | TeamOrigin | PrivateCreated.
Inductive ExtensionTrustDomain := CatalogAuthorized | TeamAuthorized | PrivateLocalAuthor.
Inductive ExtensionReleaseChannel := Stable | Preview.
Inductive ExtensionPlatform := Desktop | Ios | Android | Web | Cli | Mobile.
#[export] Instance ExtensionPlatform_eq_dec : EqDecision ExtensionPlatform.
Proof. solve_decision. Defined.

Record ExtensionIdentity := {
  ei_namespace : string;
  ei_name : string;
  ei_kind : ExtensionKind;
}.

Inductive ExtensionIdentityError := InvalidNamespace | InvalidName.

Definition MAX_COMPONENT_BYTES : Z := 128.

Definition lower_or_digit (a : ascii) : bool := is_ascii_lower a || is_ascii_digit a.

Definition component_byte (a : ascii) : bool := lower_or_digit a || bool_decide (a ∈ ["."; "_"; "-"]%char).

Definition valid_component (value : string) : bool :=
  if is_empty value || (MAX_COMPONENT_BYTES <? len value) || negb (is_ascii value) then false
  else
    match bytes_of value with
    | [] => false
    | first :: bytes => lower_or_digit first && forallb component_byte bytes
    end.

(** [ExtensionIdentity::new] *)
Definition extension_identity_new (namespace name : string) (kind : ExtensionKind) :
    result ExtensionIdentityError ExtensionIdentity :=
  reject_if (negb (valid_component namespace)) InvalidNamespace ;;
  reject_if (negb (valid_component name)) InvalidName ;;
  Ok {| ei_namespace := namespace; ei_name := name; ei_kind := kind |}.

Definition stable_id (e : ExtensionIdentity) : string :=
  ei_namespace e +:+ "/" +:+ ei_name e +:+ ":" +:+ kind_as_str (ei_kind e).

Record ExtensionCompatibility := {
  ec_platforms : list ExtensionPlatform;
  ec_min_host_api : option Z;
}.

(** [ExtensionCompatibility::supports] *)
Definition supports (c : ExtensionCompatibility) (platform : ExtensionPlatform) (host_api : Z) : bool :=
  bool_decide (platform ∈ ec_platforms c) && is_none_or (ec_min_host_api c) (fun minimum => minimum <=? host_api).

Record ExtensionRelease := {
  er_version : string;
  er_channel : ExtensionReleaseChannel;
  er_compatibility : ExtensionCompatibility;
  er_requested_capabilities : list string;
  er_revoked : bool;
}.

Record ExtensionDescriptor := {
  ed_schema_version : Z;
  ed_identity : ExtensionIdentity;
  ed_origin : ExtensionOrigin;
  ed_trust_domain : ExtensionTrustDomain;
  ed_release : ExtensionRelease;
}.

Definition is_installable_on (d : ExtensionDescriptor) (platform : ExtensionPlatform) (host_api : Z) : bool :=
  negb (er_revoked (ed_release d)) && supports (er_compatibility (ed_release d)) platform host_api.

(** ** The trust feed *)

Definition EXTENSION_TRUST_FEED_PROTOCOL : string := "fabushi.extension-trust-feed.v1".
Definition EXTENSION_TRUST_ALGORITHM : string := "Ed25519".
Definition EXTENSION_TRUST_MAX_FUTURE_SKEW_MS : Z := 5 * 60 * 1000.

Inductive ExtensionTrustKeyStatus := Active | Revoked.
#[export] Instance ExtensionTrustKeyStatus_eq_dec : EqDecision ExtensionTrustKeyStatus.
Proof. solve_decision. Defined.

Record ExtensionTrustKey := {
  tk_algorithm : string;
  tk_key_id : string;
  tk_trust_epoch : Z;
  tk_public_key : string;
  tk_public_key_fingerprint : string;
  tk_status : ExtensionTrustKeyStatus;
  tk_created_at_ms : Z;
  tk_revoked_at_ms : option Z;
  tk_revocation_reason : string;
}.

Record ExtensionTrustFeedSigner := {
  fs_algorithm : string;
  fs_key_id : string;
  fs_trust_epoch : Z;
  fs_public_key_fingerprint : string;
}.

Record ExtensionTrustFeedPayload := {
  fp_protocol : string;
  fp_issued_at_ms : Z;
  fp_expires_at_ms : Z;
  fp_signer : ExtensionTrustFeedSigner;
  fp_keys : list ExtensionTrustKey;
}.

Record ExtensionTrustFeedEnvelope := {
  fe_protocol : string;
  fe_algorithm : string;
  fe_key_id : string;
  fe_trust_epoch : Z;
  fe_public_key : string;
  fe_public_key_fingerprint : string;
  fe_issued_at_ms : Z;
  fe_expires_at_ms : Z;
  fe_payload : string;
  fe_signature : string;
}.

Inductive ExtensionTrustFeedError :=
| UnknownProtocol | UnsupportedAlgorithm | InvalidEpoch | InvalidEncoding | InvalidPublicKey | InvalidFingerprint
| InvalidSignature | InvalidPayload | InvalidValidityWindow | FutureDated | Expired | EnvelopePayloadMismatch
| SignerNotActive | InvalidTrustKey | SigningKeyAbsent | SigningKeyRevoked | SigningKeyMismatch.

Record VerifiedExtensionTrustFeed := {
  vf_envelope : ExtensionTrustFeedEnvelope;
  vf_payload : ExtensionTrustFeedPayload;
}.

Record ExtensionReleaseSigningKeyRef := {
  rk_algorithm : string;
  rk_key_id : string;
  rk_trust_epoch : Z;
  rk_public_key : string;
  rk_public_key_fingerprint : string;
}.

(** The libraries. *)
Class TrustCodec := {
  verifying_key : Type;
  feed_signature : Type;
  base64_decode : string -> option (list ascii);
  key_from_der : list ascii -> option verifying_key;
  signature_from_slice : list ascii -> option feed_signature;
  verify_signature : verifying_key -> list ascii -> feed_signature -> bool;
  trust_sha256 : list ascii -> list ascii;
  payload_from_json : string -> option ExtensionTrustFeedPayload;
}.

Section feed.
Context `{TC : TrustCodec}.

Definition fingerprint_of (der : list ascii) : string := encode_hex (trust_sha256 der).

Definition validate_key_material (algorithm public_key expected_fingerprint : string) (decoded : option (list ascii)) :
    result ExtensionTrustFeedError unit :=
  reject_if (negb (eqb algorithm EXTENSION_TRUST_ALGORITHM)) UnsupportedAlgorithm ;;
  der ← match decoded with
        | Some bytes => Ok bytes
        | None => ok_or (base64_decode public_key) InvalidEncoding
        end;
  ok_or (key_from_der der) InvalidPublicKey ;;
  reject_if (negb (eqb (fingerprint_of der) expected_fingerprint)) InvalidFingerprint.

Definition is_active (s : ExtensionTrustKeyStatus) : bool := match s with Active => true | Revoked => false end.

(** One round of the loop over the keys of the payload. *)
Definition validate_trust_key (k : ExtensionTrustKey) : result ExtensionTrustFeedError unit :=
  reject_if (negb (eqb (tk_algorithm k) EXTENSION_TRUST_ALGORITHM) || (tk_trust_epoch k =? 0) || (tk_created_at_ms k <? 0)
             || (is_active (tk_status k) && bool_decide (is_Some (tk_revoked_at_ms k)))
             || (negb (is_active (tk_status k)) && bool_decide (tk_revoked_at_ms k = None))) InvalidTrustKey ;;
  map_err (fun _ => InvalidTrustKey)
    (validate_key_material (tk_algorithm k) (tk_public_key k) (tk_public_key_fingerprint k) None).

Fixpoint validate_trust_keys (keys : list ExtensionTrustKey) : result ExtensionTrustFeedError unit :=
  match keys with
  | [] => Ok tt
  | k :: keys => validate_trust_key k ;; validate_trust_keys keys
  end.

Definition validate_payload_shape (p : ExtensionTrustFeedPayload) : result ExtensionTrustFeedError unit :=
  reject_if (negb (eqb (fp_protocol p) EXTENSION_TRUST_FEED_PROTOCOL)) UnknownProtocol ;;
  reject_if (negb (eqb (fs_algorithm (fp_signer p)) EXTENSION_TRUST_ALGORITHM)) UnsupportedAlgorithm ;;
  reject_if (fs_trust_epoch (fp_signer p) =? 0) InvalidEpoch ;;
  reject_if ((fp_expires_at_ms p <=? fp_issued_at_ms p) || (fp_issued_at_ms p <? 0)) InvalidValidityWindow ;;
  validate_trust_keys (fp_keys p).

(** [VerifiedExtensionTrustFeed::key], on the payload's keys. *)
Definition find_key (keys : list ExtensionTrustKey) (key_id : string) (trust_epoch : Z) : option ExtensionTrustKey :=
  find (fun k => eqb (tk_key_id k) key_id && (tk_trust_epoch k =? trust_epoch)) keys.

(** [ExtensionTrustFeedEnvelope::verify] *)
Definition verify (e : ExtensionTrustFeedEnvelope) (now_ms : Z) : result ExtensionTrustFeedError VerifiedExtensionTrustFeed :=
  reject_if (negb (eqb (fe_protocol e) EXTENSION_TRUST_FEED_PROTOCOL)) UnknownProtocol ;;
  reject_if (negb (eqb (fe_algorithm e) EXTENSION_TRUST_ALGORITHM)) UnsupportedAlgorithm ;;
  reject_if (fe_trust_epoch e =? 0) InvalidEpoch ;;
  public_key_der ← ok_or (base64_decode (fe_public_key e)) InvalidEncoding;
  validate_key_material (fe_algorithm e) (fe_public_key e) (fe_public_key_fingerprint e) (Some public_key_der) ;;
  verifying_key ← ok_or (key_from_der public_key_der) InvalidPublicKey;
  signature_bytes ← ok_or (base64_decode (fe_signature e)) InvalidEncoding;
  signature ← ok_or (signature_from_slice signature_bytes) InvalidSignature;
  reject_if (negb (verify_signature verifying_key (bytes_of (fe_payload e)) signature)) InvalidSignature ;;
  payload ← ok_or (payload_from_json (fe_payload e)) InvalidPayload;
  validate_payload_shape payload ;;
  reject_if (negb (eqb (fp_protocol payload) (fe_protocol e)) || negb (fp_issued_at_ms payload =? fe_issued_at_ms e)
             || negb (fp_expires_at_ms payload =? fe_expires_at_ms e)
             || negb (eqb (fs_algorithm (fp_signer payload)) (fe_algorithm e))
             || negb (eqb (fs_key_id (fp_signer payload)) (fe_key_id e))
             || negb (fs_trust_epoch (fp_signer payload) =? fe_trust_epoch e)
             || negb (eqb (fs_public_key_fingerprint (fp_signer payload)) (fe_public_key_fingerprint e)))
            EnvelopePayloadMismatch ;;
  reject_if ((fe_expires_at_ms e <=? fe_issued_at_ms e) || (fe_issued_at_ms e <? 0)) InvalidValidityWindow ;;
  reject_if (saturating_add_i64 now_ms EXTENSION_TRUST_MAX_FUTURE_SKEW_MS <? fe_issued_at_ms e) FutureDated ;;
  reject_if (fe_expires_at_ms e <? now_ms) Expired ;;
  signer ← ok_or (find_key (fp_keys payload) (fe_key_id e) (fe_trust_epoch e)) SignerNotActive;
  reject_if (negb (is_active (tk_status signer)) || negb (eqb (tk_algorithm signer) (fe_algorithm e))
             || negb (eqb (tk_public_key signer) (fe_public_key e))
             || negb (eqb (tk_public_key_fingerprint signer) (fe_public_key_fingerprint e))) SignerNotActive ;;
  Ok {| vf_envelope := e; vf_payload := payload |}.

(** [VerifiedExtensionTrustFeed::authorize_release_signing_key] *)
Definition authorize_release_signing_key (feed : VerifiedExtensionTrustFeed) (release : ExtensionReleaseSigningKeyRef) :
    result ExtensionTrustFeedError unit :=
  reject_if (negb (eqb (rk_algorithm release) EXTENSION_TRUST_ALGORITHM)) UnsupportedAlgorithm ;;
  reject_if (rk_trust_epoch release =? 0) InvalidEpoch ;;
  key ← ok_or (find_key (fp_keys (vf_payload feed)) (rk_key_id release) (rk_trust_epoch release)) SigningKeyAbsent;
  reject_if (negb (is_active (tk_status key))) SigningKeyRevoked ;;
  reject_if (negb (eqb (tk_algorithm key) (rk_algorithm release)) || negb (eqb (tk_public_key key) (rk_public_key release))
             || negb (eqb (tk_public_key_fingerprint key) (rk_public_key_fingerprint release))) SigningKeyMismatch.

(** ** What a verified feed is *)

(** The text is a sound Ed25519 key, and the fingerprint is its own. *)
Definition key_material_sound (public_key fingerprint : string) : Prop :=
  exists der, base64_decode public_key = Some der /\ is_Some (key_from_der der) /\ fingerprint_of der = fingerprint.

Record trust_key_sound (k : ExtensionTrustKey) : Prop := {
  ks_algorithm : tk_algorithm k = EXTENSION_TRUST_ALGORITHM;
  ks_epoch : tk_trust_epoch k <> 0;
  ks_created : 0 <= tk_created_at_ms k;
  ks_revocation : tk_status k = Active <-> tk_revoked_at_ms k = None;
  ks_material : key_material_sound (tk_public_key k) (tk_public_key_fingerprint k);
}.

(** The envelope's signature, made with its own key, is on its payload. *)
Definition payload_signed (e : ExtensionTrustFeedEnvelope) : Prop :=
  exists der key signature_bytes signature,
    base64_decode (fe_public_key e) = Some der /\ key_from_der der = Some key
    /\ fingerprint_of der = fe_public_key_fingerprint e
    /\ base64_decode (fe_signature e) = Some signature_bytes /\ signature_from_slice signature_bytes = Some signature
    /\ verify_signature key (bytes_of (fe_payload e)) signature = true.

(** The envelope repeats what its payload says. *)
Record envelope_repeats (e : ExtensionTrustFeedEnvelope) (p : ExtensionTrustFeedPayload) : Prop := {
  er_protocol : fp_protocol p = fe_protocol e;
  er_issued : fp_issued_at_ms p = fe_issued_at_ms e;
  er_expires : fp_expires_at_ms p = fe_expires_at_ms e;
  er_signer : fp_signer p = {| fs_algorithm := fe_algorithm e; fs_key_id := fe_key_id e; fs_trust_epoch := fe_trust_epoch e;
                               fs_public_key_fingerprint := fe_public_key_fingerprint e |};
}.

(** The first key of that name and epoch is active and is the given one. *)
Definition vouches_for (keys : list ExtensionTrustKey) (algorithm key_id : string) (epoch : Z) (public_key fingerprint : string) : Prop :=
  exists k, find_key keys key_id epoch = Some k /\ tk_status k = Active
    /\ tk_algorithm k = algorithm /\ tk_public_key k = public_key /\ tk_public_key_fingerprint k = fingerprint.

Record feed_trusted (e : ExtensionTrustFeedEnvelope) (now_ms : Z) (p : ExtensionTrustFeedPayload) : Prop := {
  ft_protocol : fe_protocol e = EXTENSION_TRUST_FEED_PROTOCOL;
  ft_algorithm : fe_algorithm e = EXTENSION_TRUST_ALGORITHM;
  ft_epoch : fe_trust_epoch e <> 0;
  ft_signed : payload_signed e;
  ft_payload : payload_from_json (fe_payload e) = Some p;
  ft_repeats : envelope_repeats e p;
  ft_window : 0 <= fe_issued_at_ms e < fe_expires_at_ms e;
  ft_now : fe_issued_at_ms e <= saturating_add_i64 now_ms EXTENSION_TRUST_MAX_FUTURE_SKEW_MS /\ now_ms <= fe_expires_at_ms e;
  ft_keys : Forall trust_key_sound (fp_keys p);
  ft_signer : vouches_for (fp_keys p) (fe_algorithm e) (fe_key_id e) (fe_trust_epoch e) (fe_public_key e)
                (fe_public_key_fingerprint e);
}.

Lemma is_active_spec (s : ExtensionTrustKeyStatus) : is_active s = true <-> s = Active.
Proof. by destruct s. Qed.

Lemma key_material_ok (algorithm public_key fingerprint : string) (decoded : option (list ascii)) (u : unit) :
  validate_key_material algorithm public_key fingerprint decoded = Ok u <->
  algorithm = EXTENSION_TRUST_ALGORITHM
  /\ exists der, (decoded = Some der \/ decoded = None /\ base64_decode public_key = Some der)
       /\ is_Some (key_from_der der) /\ fingerprint_of der = fingerprint.
Proof.
  unfold validate_key_material. split.
  - intros H. oks. apply eqb_true in Hok. apply eqb_true in H. split; [done|]. exists a0.
    split; [|split; [by exists a1|done]]. destruct decoded as [bytes|]; [injection Hok0 as ->; by left|right; split; [done|by apply ok_or_ok in Hok0]].
  - intros [-> (der & Hd & [key Hkey] & Hf)]. rewrite (proj2 (eqb_spec _ _) eq_refl). cbn.
    destruct Hd as [-> | [-> Hd]]; cbn; rewrite ?Hd; cbn; rewrite Hkey; cbn; destruct u; by rewrite (proj2 (eqb_spec _ _) Hf).
Qed.

Lemma trust_key_ok (k : ExtensionTrustKey) (u : unit) : validate_trust_key k = Ok u <-> trust_key_sound k.
Proof.
  unfold validate_trust_key. rewrite bind_ok. setoid_rewrite map_err_ok. setoid_rewrite key_material_ok.
  setoid_rewrite reject_if_ok. split.
  - intros ([] & Hbad & Hm & der & Hd & Hkey & Hf). rewrite !orb_false_iff, !andb_false_iff, !negb_false_iff in Hbad.
    destruct Hbad as ((((Ha & He) & Hc) & Hact) & Hrev). split; [done|lia|lia| |exists der; naive_solver].
    rewrite <- is_active_spec. destruct (is_active _); cbn in *; rewrite ?bool_decide_eq_false, ?not_eq_None_Some in *.
    + destruct Hact as [|Hact]; [done|]. split; [|done]. intros _. by destruct (tk_revoked_at_ms k); [destruct Hact; eexists|].
    + destruct Hrev as [|Hrev]; [done|]. split; [done|]. intros Hn. rewrite Hn in Hrev. by destruct Hrev.
  - intros [Ha He Hc Hrev (der & Hd & Hkey & Hf)]. exists tt. split; [|split; [done|exists der; naive_solver]].
    rewrite Ha, (proj2 (eqb_spec _ _) eq_refl), (proj2 (Z.eqb_neq _ _) He), (proj2 (Z.ltb_ge _ _) Hc). cbn.
    rewrite <- is_active_spec in Hrev. destruct (is_active _), (tk_revoked_at_ms k); cbn; try done; naive_solver.
Qed.

Lemma trust_keys_ok (keys : list ExtensionTrustKey) (u : unit) : validate_trust_keys keys = Ok u <-> Forall trust_key_sound keys.
Proof.
  induction keys as [|k keys IH]; cbn; [destruct u; split; done|].
  rewrite list.Forall_cons, <- IH, <- (trust_key_ok k tt). destruct (validate_trust_key k) as [[]|e]; cbn; naive_solver.
Qed.

Lemma payload_shape_ok (p : ExtensionTrustFeedPayload) (u : unit) :
  validate_payload_shape p = Ok u <->
  fp_protocol p = EXTENSION_TRUST_FEED_PROTOCOL /\ fs_algorithm (fp_signer p) = EXTENSION_TRUST_ALGORITHM
  /\ fs_trust_epoch (fp_signer p) <> 0 /\ 0 <= fp_issued_at_ms p < fp_expires_at_ms p /\ Forall trust_key_sound (fp_keys p).
Proof.
  rewrite <- (trust_keys_ok (fp_keys p) u). unfold validate_payload_shape. split.
  - intros H. oks. apply eqb_true in Hok, Hok0. repeat split; done || lia.
  - intros (-> & -> & He & Hw & Hk). rewrite !(proj2 (eqb_spec _ _) eq_refl), (proj2 (Z.eqb_neq _ _) He).
    cbn [negb reject_if mbind result_bind]. by rewrite (proj2 (Z.leb_gt _ _)), (proj2 (Z.ltb_ge _ _)) by lia.
Qed.

Lemma vouches_ok (keys : list ExtensionTrustKey) (algorithm key_id : string) (epoch : Z) (public_key fingerprint : string)
    (k : ExtensionTrustKey) :
  find_key keys key_id epoch = Some k ->
  negb (is_active (tk_status k)) || negb (eqb (tk_algorithm k) algorithm) || negb (eqb (tk_public_key k) public_key)
  || negb (eqb (tk_public_key_fingerprint k) fingerprint) = false <->
  vouches_for keys algorithm key_id epoch public_key fingerprint.
Proof.
  intros Hk. unfold vouches_for. rewrite !orb_false_iff, !negb_false_iff, is_active_spec, !eqb_spec. split.
  - intros (((? & ?) & ?) & ?). by exists k.
  - intros (k' & Hk' & ? & ? & ? & ?). by simplify_eq.
Qed.

Lemma envelope_repeats_ok (e : ExtensionTrustFeedEnvelope) (p : ExtensionTrustFeedPayload) :
  negb (eqb (fp_protocol p) (fe_protocol e)) || negb (fp_issued_at_ms p =? fe_issued_at_ms e)
  || negb (fp_expires_at_ms p =? fe_expires_at_ms e) || negb (eqb (fs_algorithm (fp_signer p)) (fe_algorithm e))
  || negb (eqb (fs_key_id (fp_signer p)) (fe_key_id e)) || negb (fs_trust_epoch (fp_signer p) =? fe_trust_epoch e)
  || negb (eqb (fs_public_key_fingerprint (fp_signer p)) (fe_public_key_fingerprint e)) = false <->
  envelope_repeats e p.
Proof.
  rewrite !orb_false_iff, !negb_false_iff, !eqb_spec, !Z.eqb_eq. split.
  - intros ((((((? & ?) & ?) & ?) & ?) & ?) & ?). split; try done. destruct (fp_signer p). cbn in *. by subst.
  - intros [? ? ? ->]. done.
Qed.

Lemma key_of_der_ok (e : ExtensionTrustFeedEnvelope) (der : list ascii) (key : verifying_key) :
  key_from_der der = Some key ->
  validate_key_material (fe_algorithm e) (fe_public_key e) (fe_public_key_fingerprint e) (Some der) = Ok tt <->
  fe_algorithm e = EXTENSION_TRUST_ALGORITHM /\ fingerprint_of der = fe_public_key_fingerprint e.
Proof.
  intros Hkey. rewrite key_material_ok. split.
  - intros (? & der' & [[= ->]|[[=] _]] & _ & ?). done.
  - intros [? ?]. split; [done|]. exists der. rewrite Hkey. eauto.
Qed.

(** Pass a check that holds. *)
Ltac pass := apply bind_ok; eexists; split; [|cbv beta].

(** A feed verifies exactly when it is trusted at that time: of this protocol and
    algorithm, signed by the key the envelope carries, its payload well formed and
    repeated by the envelope, inside its window, every key of it sound, and its
    signing key active in it.  What is verified is the envelope itself and the
    payload its signature covers. *)
Lemma feed_verifies_iff_trusted (e : ExtensionTrustFeedEnvelope) (now_ms : Z) (feed : VerifiedExtensionTrustFeed) :
  verify e now_ms = Ok feed <->
  exists p, feed = {| vf_envelope := e; vf_payload := p |} /\ feed_trusted e now_ms p.
Proof.
  unfold verify. split.
  - intros H.
    repeat match goal with
    | H : reject_if (negb (eqb (fp_protocol _) _) || _ || _ || _ || _ || _ || _) _ = Ok _ |- _ =>
        apply reject_if_ok, envelope_repeats_ok in H
    | H : reject_if (negb (is_active _) || _ || _ || _) _ = Ok _ |- _ => apply reject_if_ok in H
    | H : validate_payload_shape _ = Ok _ |- _ => apply payload_shape_ok in H as (_ & _ & _ & _ & Hkeys)
    | H : negb (is_active (tk_status ?k)) || _ || _ || _ = false, Hk : find_key _ _ _ = Some ?k |- _ =>
        apply (vouches_ok _ _ _ _ _ _ _ Hk) in H
    | _ => ok_step
    end.
    match goal with Hv : validate_key_material _ _ _ (Some ?der) = Ok _, Hk : key_from_der ?der = Some _ |- _ =>
      apply (key_of_der_ok _ _ _ Hk) in Hv as [? ?] end.
    subst. eexists. split; [reflexivity|]. split; try done; try (by apply eqb_true); try lia.
    unfold payload_signed. naive_solver.
  - intros (p & -> & [Hproto Halg Hep (der & key & sb & sg & Hd & Hkey & Hf & Hsb & Hsg & Hver) Hp Hrep Hw [Hnow Hexp] Hkeys Hsig]).
    pass. { apply reject_if_ok, negb_false_iff, eqb_spec, Hproto. }
    pass. { apply reject_if_ok, negb_false_iff, eqb_spec, Halg. }
    pass. { apply reject_if_ok, Z.eqb_neq, Hep. }
    pass. { apply ok_or_ok, Hd. }
    pass. { by apply (key_of_der_ok _ _ _ Hkey). }
    pass. { apply ok_or_ok, Hkey. }
    pass. { apply ok_or_ok, Hsb. }
    pass. { apply ok_or_ok, Hsg. }
    pass. { by apply reject_if_ok, negb_false_iff. }
    pass. { apply ok_or_ok, Hp. }
    pass. { apply payload_shape_ok. destruct Hrep as [-> -> -> ->]. done. }
    pass. { by apply reject_if_ok, envelope_repeats_ok. }
    pass. { apply reject_if_ok. lia. }
    pass. { apply reject_if_ok. lia. }
    pass. { apply reject_if_ok. lia. }
    destruct Hsig as (k & Hk & Hsig). pass. { apply ok_or_ok, Hk. }
    pass. { apply reject_if_ok, (vouches_ok _ _ _ _ _ _ _ Hk). by exists k. }
    done.
Unshelve. all: exact tt.
Qed.

(** A release key passes exactly when the feed vouches for it. *)
Lemma release_key_ok (feed : VerifiedExtensionTrustFeed) (r : ExtensionReleaseSigningKeyRef) (u : unit) :
  authorize_release_signing_key feed r = Ok u <->
  rk_algorithm r = EXTENSION_TRUST_ALGORITHM /\ rk_trust_epoch r <> 0
  /\ vouches_for (fp_keys (vf_payload feed)) (rk_algorithm r) (rk_key_id r) (rk_trust_epoch r) (rk_public_key r)
       (rk_public_key_fingerprint r).
Proof.
  unfold authorize_release_signing_key. split.
  - intros H. apply bind_ok in H as ([] & Ha%reject_if_ok%negb_false_iff%eqb_true & H).
    apply bind_ok in H as ([] & He%reject_if_ok & H). apply bind_ok in H as (k & Hk%ok_or_ok & H).
    apply bind_ok in H as ([] & Hs%reject_if_ok & H%reject_if_ok). split; [done|]. split; [lia|].
    apply (vouches_ok _ _ _ _ _ _ _ Hk). by rewrite Hs.
  - intros (Ha & He & Hv). pose proof Hv as (k & Hk & Hs & _). apply (vouches_ok _ _ _ _ _ _ _ Hk) in Hv.
    pass. { apply reject_if_ok, negb_false_iff, eqb_spec, Ha. }
    pass. { apply reject_if_ok, Z.eqb_neq, He. }
    pass. { apply ok_or_ok, Hk. }
    pass. { apply reject_if_ok. by rewrite Hs. }
    apply reject_if_ok. rewrite Hs in Hv. exact Hv.
Unshelve. all: exact tt.
Qed.

Lemma find_key_in (keys : list ExtensionTrustKey) (key_id : string) (epoch : Z) (k : ExtensionTrustKey) :
  find_key keys key_id epoch = Some k -> k ∈ keys /\ tk_key_id k = key_id /\ tk_trust_epoch k = epoch.
Proof.
  intros [Hin Hk]%find_some. apply andb_true_iff in Hk as [?%eqb_true ?]. split; [by apply list_elem_of_In|]. split; [done|lia].
Qed.

(** What being vouched for means: a key of the feed, not revoked, whose text, name,
    epoch and fingerprint the release repeats and whose fingerprint is its own. *)
Lemma vouched_key (p : ExtensionTrustFeedPayload) (r : ExtensionReleaseSigningKeyRef) :
  Forall trust_key_sound (fp_keys p) ->
  vouches_for (fp_keys p) (rk_algorithm r) (rk_key_id r) (rk_trust_epoch r) (rk_public_key r) (rk_public_key_fingerprint r) ->
  exists k, k ∈ fp_keys p /\ tk_status k = Active /\ tk_revoked_at_ms k = None
    /\ r = {| rk_algorithm := tk_algorithm k; rk_key_id := tk_key_id k; rk_trust_epoch := tk_trust_epoch k;
              rk_public_key := tk_public_key k; rk_public_key_fingerprint := tk_public_key_fingerprint k |}
    /\ key_material_sound (rk_public_key r) (rk_public_key_fingerprint r).
Proof.
  intros Hkeys (k & Hk & Hs & Ha & Hp & Hf). apply find_key_in in Hk as (Hin & Hid & Hep).
  exists k. rewrite list.Forall_forall in Hkeys. destruct (Hkeys k Hin) as [_ _ _ Hrev Hm].
  split; [done|]. split; [done|]. split; [by apply Hrev|]. rewrite <- Hp, <- Hf.
  split; [destruct r; cbn in *; by subst|done].
Qed.

(** A release key gets through the feed exactly when the feed is trusted at that
    time - signed by the key its envelope carries, repeated by the envelope, in its
    window, every key of it sound and its signer active in it - and the first key
    of that name and epoch in it is active and is the release's; that key then is
    in the feed, is not revoked and has the fingerprint it is given. *)
Theorem release_key_accepted_iff_trusted (e : ExtensionTrustFeedEnvelope) (now_ms : Z) (r : ExtensionReleaseSigningKeyRef) :
  ((feed ← verify e now_ms; authorize_release_signing_key feed r) = Ok tt <->
   exists p, feed_trusted e now_ms p
     /\ rk_algorithm r = EXTENSION_TRUST_ALGORITHM /\ rk_trust_epoch r <> 0
     /\ vouches_for (fp_keys p) (rk_algorithm r) (rk_key_id r) (rk_trust_epoch r) (rk_public_key r) (rk_public_key_fingerprint r))
  /\ forall p, feed_trusted e now_ms p ->
       vouches_for (fp_keys p) (rk_algorithm r) (rk_key_id r) (rk_trust_epoch r) (rk_public_key r) (rk_public_key_fingerprint r) ->
       exists k, k ∈ fp_keys p /\ tk_status k = Active /\ tk_revoked_at_ms k = None
         /\ key_material_sound (rk_public_key r) (rk_public_key_fingerprint r) /\ tk_public_key k = rk_public_key r.
Proof.
  split.
  - rewrite bind_ok. split.
    + intros (feed & (p & -> & Ht)%feed_verifies_iff_trusted & Hr%release_key_ok). by exists p.
    + intros (p & Ht & Hr). exists {| vf_envelope := e; vf_payload := p |}.
      split; [apply feed_verifies_iff_trusted; eauto|by apply release_key_ok].
  - intros p Ht Hv. destruct (vouched_key p r (ft_keys _ _ _ Ht) Hv) as (k & ? & ? & ? & -> & ?). by exists k.
Qed.
End feed.

(** ** Identities *)

Lemma component_has_no_separator (s : string) (c : ascii) :
  valid_component s = true -> c ∈ bytes_of s -> component_byte c = true.
Proof.
  unfold valid_component. destruct (_ || _ || _); [done|]. destruct (bytes_of s) as [|a l]; [done|].
  intros [Ha Hl]%andb_true_iff [->|Hc]%elem_of_cons.
  - unfold component_byte. by rewrite Ha.
  - rewrite forallb_forall in Hl. by apply Hl, list_elem_of_In.
Qed.

(** The first separator ends the first part. *)
Lemma separator_splits (a b a' b' : list ascii) (c : ascii) :
  c ∉ a -> c ∉ a' -> (a ++ c :: b = a' ++ c :: b')%list -> a = a' /\ b = b'.
Proof.
  revert a'. induction a as [|x a IH]; intros [|x' a'] Ha Ha' H; simplify_eq/=.
  - done.
  - destruct Ha'. by left.
  - destruct Ha. by left.
  - rewrite not_elem_of_cons in Ha, Ha'. destruct (IH a') as [-> ->]; naive_solver.
Qed.

Lemma kind_as_str_inj (k k' : ExtensionKind) : kind_as_str k = kind_as_str k' -> k = k'.
Proof. by destruct k, k'. Qed.

Lemma identity_new_ok (namespace name : string) (kind : ExtensionKind) (e : ExtensionIdentity) :
  extension_identity_new namespace name kind = Ok e ->
  valid_component (ei_namespace e) = true /\ valid_component (ei_name e) = true.
Proof. intros H. unfold extension_identity_new in H. by oks; subst. Qed.

Lemma valid_component_free (s : string) (c : ascii) :
  valid_component s = true -> component_byte c = false -> c ∉ bytes_of s.
Proof. intros Hs Hc Hin. pose proof (component_has_no_separator s c Hs Hin). congruence. Qed.

(** Identities that passed the constructor have the same stable identifier only when
    they are the same. *)
Theorem stable_id_identifies (ns ns' n n' : string) (k k' : ExtensionKind) (e e' : ExtensionIdentity) :
  extension_identity_new ns n k = Ok e -> extension_identity_new ns' n' k' = Ok e' ->
  stable_id e = stable_id e' -> e = e'.
Proof.
  intros [H1 H2]%identity_new_ok [H1' H2']%identity_new_ok Hid%(f_equal bytes_of).
  unfold stable_id in Hid. rewrite !bytes_of_app in Hid. cbn [bytes_of String.list_ascii_of_string app] in Hid.
  apply separator_splits in Hid as [Hns%bytes_of_inj Hid]; [|by apply valid_component_free..].
  apply separator_splits in Hid as [Hn%bytes_of_inj Hk%bytes_of_inj%kind_as_str_inj]; [|by apply valid_component_free..].
  destruct e, e'. cbn in *. by subst.
Qed.

(** One that did not (the fields are public, and deserialised without the check) may
    share its identifier with another. *)
Lemma unchecked_identities_collide :
  stable_id {| ei_namespace := "a"; ei_name := "b/c"; ei_kind := Skill |}
  = stable_id {| ei_namespace := "a/b"; ei_name := "c"; ei_kind := Skill |}.
Proof. reflexivity. Qed.

(** ** A small feed *)

Section example.

(** Base64 is the identity, a key is any text that begins with [K] and verifies the
    signature that repeats it, and a digest is the text itself. *)
Definition sample_keys : list ExtensionTrustKey :=
  [{| tk_algorithm := "Ed25519"; tk_key_id := "one"; tk_trust_epoch := 1; tk_public_key := "K1";
      tk_public_key_fingerprint := encode_hex (bytes_of "K1"); tk_status := Revoked; tk_created_at_ms := 10;
      tk_revoked_at_ms := Some 90; tk_revocation_reason := "rotated" |};
   {| tk_algorithm := "Ed25519"; tk_key_id := "two"; tk_trust_epoch := 2; tk_public_key := "K2";
      tk_public_key_fingerprint := encode_hex (bytes_of "K2"); tk_status := Active; tk_created_at_ms := 20;
      tk_revoked_at_ms := None; tk_revocation_reason := "" |}].

Definition sample_payload : ExtensionTrustFeedPayload := {|
  fp_protocol := EXTENSION_TRUST_FEED_PROTOCOL; fp_issued_at_ms := 100; fp_expires_at_ms := 200;
  fp_signer := {| fs_algorithm := "Ed25519"; fs_key_id := "two"; fs_trust_epoch := 2;
                  fs_public_key_fingerprint := encode_hex (bytes_of "K2") |};
  fp_keys := sample_keys |}.

#[local] Instance sample_codec : TrustCodec := {|
  verifying_key := list ascii;
  feed_signature := list ascii;
  base64_decode := fun s => Some (bytes_of s);
  key_from_der := fun l => match l with c :: _ => if eqb c "K"%char then Some l else None | [] => None end;
  signature_from_slice := Some;
  verify_signature := fun k l s => eqb s (k ++ l)%list;
  trust_sha256 := fun l => l;
  payload_from_json := fun s => if eqb s "feed" then Some sample_payload else None;
|}.

Definition sample_envelope : ExtensionTrustFeedEnvelope := {|
  fe_protocol := EXTENSION_TRUST_FEED_PROTOCOL; fe_algorithm := "Ed25519"; fe_key_id := "two"; fe_trust_epoch := 2;
  fe_public_key := "K2"; fe_public_key_fingerprint := encode_hex (bytes_of "K2"); fe_issued_at_ms := 100;
  fe_expires_at_ms := 200; fe_payload := "feed"; fe_signature := "K2feed" |}.

Definition release_of (key_id : string) (epoch : Z) (key : string) : ExtensionReleaseSigningKeyRef := {|
  rk_algorithm := "Ed25519"; rk_key_id := key_id; rk_trust_epoch := epoch; rk_public_key := key;
  rk_public_key_fingerprint := encode_hex (bytes_of key) |}.

Lemma release_key_accepted_iff_trusted_witness :
  (feed ← verify sample_envelope 150; authorize_release_signing_key feed (release_of "two" 2 "K2")) = Ok tt
  /\ (feed ← verify sample_envelope 150; authorize_release_signing_key feed (release_of "one" 1 "K1")) = Err SigningKeyRevoked
  /\ exists p, feed_trusted sample_envelope 150 p.
Proof.
  split; [vm_compute; reflexivity|]. split; [vm_compute; reflexivity|].
  destruct (release_key_accepted_iff_trusted sample_envelope 150 (release_of "two" 2 "K2")) as [[H _] _].
  destruct H as (p & Hp & _); [vm_compute; reflexivity|]. by exists p.
Defined.
End example.

Lemma stable_id_identifies_witness :
  exists e, extension_identity_new "fabushi" "github" McpConnector = Ok e /\ stable_id e = "fabushi/github:mcp-connector"
    /\ forall n, extension_identity_new "fabushi" n McpConnector = Ok e -> e = e.
Proof.
  eexists. split; [vm_compute; reflexivity|]. split; [vm_compute; reflexivity|].
  intros n Hn. by eapply (stable_id_identifies "fabushi" "fabushi" n n McpConnector McpConnector).
Defined.
