(* ===== verification/Notification.v ===== *)
(** * Notifications ([notification.rs]) and privacy rules ([privacy.rs]) *)

From S2P Require Import Prelude Text Maps Conversation.

(** ** Notifications *)

Inductive NotificationImportance := Silent | Normal | High | Urgent.

Record QuietHours := {
  quiet_enabled : bool;
  start_minute_local : Z;
  end_minute_local : Z;
  allow_mentions : bool;
  allow_calls : bool;
}.

(** [QuietHours::active_at] *)
Definition active_at (q : QuietHours) (minute_local : Z) : bool :=
  if negb (quiet_enabled q) then false
  else
    let minute := minute_local mod (24 * 60) in
    let start := start_minute_local q mod (24 * 60) in
    let stop := end_minute_local q mod (24 * 60) in
    if start =? stop then true
    else if start <? stop then (start <=? minute) && (minute <? stop)
    else (start <=? minute) || (minute <? stop).

Record ConversationNotificationRule := {
  rule_conversation_id : ConversationId;
  rule_muted_until_ms : option Z;
  rule_sound : option string;
  rule_show_preview : bool;
  rule_notify_mentions : bool;
  rule_importance : NotificationImportance;
}.

Record NotificationCandidate := {
  cand_id : string;
  cand_conversation_id : ConversationId;
  cand_sender_id : ActorId;
  cand_title : string;
  cand_body : string;
  cand_created_at_ms : Z;
  cand_mentioned_actor_ids : gset ActorId;
  cand_is_call : bool;
  cand_silent_message : bool;
}.

Record NotificationDecision := {
  deliver : bool;
  dec_show_preview : bool;
  dec_sound : option string;
  dec_importance : NotificationImportance;
  dec_reason : string;
}.

Record NotificationPolicy := {
  policy_quiet_hours : option QuietHours;
  conversation_rules : gmap ConversationId ConversationNotificationRule;
}.

Definition suppressed (reason : string) : NotificationDecision := {|
  deliver := false; dec_show_preview := false; dec_sound := None; dec_importance := Silent; dec_reason := reason |}.

Definition mentions (c : NotificationCandidate) (actor_id : ActorId) : bool :=
  bool_decide (actor_id ∈ cand_mentioned_actor_ids c).

(** [NotificationPolicy::decide] *)
Definition decide_notification (p : NotificationPolicy) (c : NotificationCandidate) (current_actor_id : ActorId)
    (now_ms minute_local : Z) : NotificationDecision :=
  let rule := conversation_rules p !! cand_conversation_id c in
  let importance := default Normal (rule_importance <$> rule) in
  let show_preview := default true (rule_show_preview <$> rule) in
  let sound := rule ≫= rule_sound in
  if cand_silent_message c then
    {| deliver := true; dec_show_preview := show_preview; dec_sound := None; dec_importance := Silent;
       dec_reason := "silent-message" |}
  else if is_some_and (rule ≫= rule_muted_until_ms) (fun until => now_ms <? until)
          && negb (mentions c current_actor_id && is_some_and rule rule_notify_mentions) then
    suppressed "conversation-muted"
  else if is_some_and (policy_quiet_hours p) (fun quiet =>
            active_at quiet minute_local
            && (negb (allow_mentions quiet && mentions c current_actor_id)
                && negb (allow_calls quiet && cand_is_call c))) then
    suppressed "quiet-hours"
  else
    {| deliver := true; dec_show_preview := show_preview; dec_sound := sound; dec_importance := importance;
       dec_reason := "deliver" |}.

(** ** Privacy *)

Inductive PrivacyAudience := AudienceEveryone | AudienceContacts | AudienceNobody | AudienceCustom.

Record PrivacyRule := {
  audience : PrivacyAudience;
  always_allow : gset ActorId;
  never_allow : gset ActorId;
}.

Definition default_privacy_rule : PrivacyRule :=
  {| audience := AudienceContacts; always_allow := ∅; never_allow := ∅ |}.

(** [PrivacyRule::allows] *)
Definition allows (r : PrivacyRule) (actor_id : ActorId) (is_contact : bool) : bool :=
  if bool_decide (actor_id ∈ never_allow r) then false
  else if bool_decide (actor_id ∈ always_allow r) then true
  else match audience r with
       | AudienceEveryone => true
       | AudienceContacts => is_contact
       | AudienceNobody | AudienceCustom => false
       end.

Inductive PrivacyKey :=
| LastSeen | ProfilePhoto | Bio | PhoneNumber | ForwardedMessages | Calls | GroupInvites | VoiceMessages
| Stories | ReadReceipts.
#[export] Instance PrivacyKey_eq_dec : EqDecision PrivacyKey.
Proof. solve_decision. Defined.

Definition privacy_keys : list PrivacyKey :=
  [LastSeen; ProfilePhoto; Bio; PhoneNumber; ForwardedMessages; Calls; GroupInvites; VoiceMessages; Stories;
   ReadReceipts].

#[export] Program Instance PrivacyKey_countable : Countable PrivacyKey := {
  encode k := encode (default 0%nat (fst <$> list_find (k =.) privacy_keys));
  decode p := decode p ≫= fun n : nat => privacy_keys !! n;
}.
Next Obligation. by intros []. Qed.

Record BlockEntry := {
  block_actor_id : ActorId;
  blocked_at_ms : Z;
  block_reason : option string;
  report_spam : bool;
}.

Record PrivacySettings := {
  privacy_rules : gmap PrivacyKey PrivacyRule;
  blocked : gmap ActorId BlockEntry;
  auto_delete_account_after_days : option Z;
  hide_sensitive_content : bool;
  require_mutual_contact_for_messages : bool;
}.
#[export] Instance eta_PrivacySettings : Eta PrivacySettings := fun s =>
  Build_PrivacySettings (privacy_rules s) (blocked s) (auto_delete_account_after_days s)
    (hide_sensitive_content s) (require_mutual_contact_for_messages s).

(** [PrivacySettings::rule] *)
Definition privacy_rule (s : PrivacySettings) (key : PrivacyKey) : PrivacyRule :=
  default default_privacy_rule (privacy_rules s !! key).

Definition block (entry : BlockEntry) (s : PrivacySettings) : PrivacySettings :=
  s ⟪ blocked ::= <[block_actor_id entry := entry]> ⟫.

Definition unblock (actor_id : ActorId) (s : PrivacySettings) : PrivacySettings * option BlockEntry :=
  (s ⟪ blocked ::= delete actor_id ⟫, blocked s !! actor_id).

Definition is_blocked (s : PrivacySettings) (actor_id : ActorId) : bool := contains_key actor_id (blocked s).

Definition can_receive_message_from (s : PrivacySettings) (actor_id : ActorId)
    (is_contact is_mutual_contact : bool) : bool :=
  if is_blocked s actor_id then false
  else if require_mutual_contact_for_messages s && negb is_mutual_contact then false
  else is_contact || negb (require_mutual_contact_for_messages s).

(** ** Theorems *)

(** The minutes from [start] up to a minute, around the clock. *)
Definition minutes_since (start minute : Z) : Z := (minute - start) mod (24 * 60).

(** Quiet hours are a window around the clock.  Enabled quiet hours cover
    exactly the minutes that lie, counted forward from the start and across
    midnight, before the end; with equal ends they cover the whole day, and
    disabled they cover nothing. *)
Theorem quiet_hours_are_a_window (q : QuietHours) (minute : Z) :
  active_at q minute =
    quiet_enabled q
    && ((minutes_since (start_minute_local q) (end_minute_local q) =? 0)
        || (minutes_since (start_minute_local q) minute
              <? minutes_since (start_minute_local q) (end_minute_local q))).
Proof.
  unfold active_at, minutes_since. destruct (quiet_enabled q); [simpl|done].
  rewrite (Zminus_mod (end_minute_local q)), (Zminus_mod minute). change (24 * 60) with 1440.
  pose proof (Z.mod_pos_bound minute 1440). pose proof (Z.mod_pos_bound (start_minute_local q) 1440).
  pose proof (Z.mod_pos_bound (end_minute_local q) 1440).
  generalize dependent (minute mod 1440). generalize dependent (start_minute_local q mod 1440).
  generalize dependent (end_minute_local q mod 1440). intros e He s Hs m Hm.
  assert (forall z, -1440 < z < 1440 -> z mod 1440 = if z <? 0 then z + 1440 else z) as Hmod.
  { intros z Hz. destruct (Z.ltb_spec z 0); [|by rewrite Z.mod_small by lia].
    rewrite <- (Z.mod_add z 1) by lia. rewrite Z.mod_small by lia. lia. }
  rewrite !Hmod by lia. apply eq_true_iff_eq.
  destruct (Z.ltb_spec (e - s) 0), (Z.ltb_spec (m - s) 0), (Z.eqb_spec s e), (Z.ltb_spec s e);
    rewrite ?orb_true_iff, ?andb_true_iff, ?Z.eqb_eq, ?Z.ltb_lt, ?Z.leb_le; simpl; try lia;
    split; intros; try reflexivity; try lia.
Qed.

(** The conversation is muted at this time. *)
Definition muted_now (p : NotificationPolicy) (c : NotificationCandidate) (now_ms : Z) : Prop :=
  exists rule until, conversation_rules p !! cand_conversation_id c = Some rule
    /\ rule_muted_until_ms rule = Some until /\ now_ms < until.

(** A mention gets through the mute. *)
Definition mute_excepts (p : NotificationPolicy) (c : NotificationCandidate) (me : ActorId) : Prop :=
  me ∈ cand_mentioned_actor_ids c
  /\ exists rule, conversation_rules p !! cand_conversation_id c = Some rule /\ rule_notify_mentions rule = true.

(** Quiet hours are in force, and neither a mention nor a call gets through. *)
Definition quieted (p : NotificationPolicy) (c : NotificationCandidate) (me : ActorId) (minute_local : Z) : Prop :=
  exists quiet, policy_quiet_hours p = Some quiet /\ active_at quiet minute_local = true
    /\ ~ (allow_mentions quiet = true /\ me ∈ cand_mentioned_actor_ids c)
    /\ ~ (allow_calls quiet = true /\ cand_is_call c = true).

Lemma muted_now_spec p c now_ms :
  is_some_and (conversation_rules p !! cand_conversation_id c ≫= rule_muted_until_ms) (fun until => now_ms <? until)
    = true <-> muted_now p c now_ms.
Proof.
  unfold muted_now. destruct (conversation_rules p !! cand_conversation_id c) as [rule|]; simpl; [|naive_solver].
  destruct (rule_muted_until_ms rule) as [until|] eqn:Hu; simpl; rewrite ?Z.ltb_lt; naive_solver.
Qed.

Lemma mute_excepts_spec p c me :
  mentions c me && is_some_and (conversation_rules p !! cand_conversation_id c) rule_notify_mentions = true
    <-> mute_excepts p c me.
Proof.
  unfold mute_excepts, mentions. rewrite andb_true_iff, bool_decide_eq_true, is_some_and_spec. done.
Qed.

Lemma quieted_spec p c me minute :
  is_some_and (policy_quiet_hours p) (fun quiet =>
    active_at quiet minute && (negb (allow_mentions quiet && mentions c me)
                               && negb (allow_calls quiet && cand_is_call c))) = true
    <-> quieted p c me minute.
Proof.
  unfold quieted, mentions. rewrite is_some_and_spec.
  split; intros (q & Hq & H); exists q; revert H;
    rewrite !andb_true_iff, !negb_true_iff, !andb_false_iff, bool_decide_eq_false;
    destruct (active_at q minute), (allow_mentions q), (allow_calls q), (cand_is_call c); naive_solver.
Qed.

(** A notification is suppressed exactly when the rules say so: it is not a
    silent message, and its conversation is muted at the time without the
    mention exception, or quiet hours are in force and neither the mention nor
    the call exception applies.  A suppressed one shows no preview; a suppressed
    or a silent one makes no sound. *)
Theorem notifications_follow_the_rules (p : NotificationPolicy) (c : NotificationCandidate) (me : ActorId)
    (now_ms minute_local : Z) :
  let d := decide_notification p c me now_ms minute_local in
  (deliver d = false <->
    cand_silent_message c = false
    /\ ((muted_now p c now_ms /\ ~ mute_excepts p c me) \/ quieted p c me minute_local))
  /\ (deliver d = false -> dec_show_preview d = false /\ dec_sound d = None)
  /\ (cand_silent_message c = true -> deliver d = true /\ dec_sound d = None).
Proof.
  cbv zeta. unfold decide_notification. cbv zeta.
  rewrite <- quieted_spec, <- muted_now_spec, <- mute_excepts_spec.
  destruct (cand_silent_message c); simpl; [naive_solver|].
  destruct (is_some_and (_ ≫= rule_muted_until_ms) _), (mentions c me && is_some_and _ _),
    (is_some_and (policy_quiet_hours p) _); simpl; naive_solver.
Qed.
