(* ===== verification/Realtime.v ===== *)
(** * Calls, typing and device sessions ([realtime.rs], [device.rs]) *)

From S2P Require Import Prelude Text Maps Conversation.

(** ** Device sessions ([device.rs]) *)

Inductive DevicePlatform := Macos | Windows | Linux | Ios | Android | Web.

Record DeviceSession := {
  ds_id : string;
  ds_actor_id : ActorId;
  ds_device_id : string;
  ds_platform : DevicePlatform;
  ds_device_name : string;
  ds_app_version : string;
  ds_created_at_ms : Z;
  ds_last_active_at_ms : Z;
  ds_revoked_at_ms : option Z;
  ds_push_token : option string;
  ds_sync_cursor : Z;
  ds_trusted : bool;
}.
#[export] Instance eta_DeviceSession : Eta DeviceSession := fun d =>
  Build_DeviceSession (ds_id d) (ds_actor_id d) (ds_device_id d) (ds_platform d) (ds_device_name d)
    (ds_app_version d) (ds_created_at_ms d) (ds_last_active_at_ms d) (ds_revoked_at_ms d) (ds_push_token d)
    (ds_sync_cursor d) (ds_trusted d).

(** [DeviceSession::active] *)
Definition session_active (d : DeviceSession) : bool := negb (is_some_and (ds_revoked_at_ms d) (fun _ => true)).

Record DeviceSyncCursor := {
  cursor_session_id : string;
  cursor_value : Z;
  cursor_acknowledged_at_ms : Z;
}.

Record DeviceRegistry := { sessions : gmap string DeviceSession }.
#[export] Instance eta_DeviceRegistry : Eta DeviceRegistry := fun r => Build_DeviceRegistry (sessions r).

Inductive DeviceError :=
| InvalidSession
| DuplicateSession (id : string)
| SessionNotFound (id : string)
| Revoked (id : string).

Definition register_device (d : DeviceSession) (r : DeviceRegistry) : DeviceRegistry * result DeviceError unit :=
  if blank (ds_id d) || blank (ds_device_id d) then (r, Err InvalidSession)
  else if contains_key (ds_id d) (sessions r) then (r, Err (DuplicateSession (ds_id d)))
  else (r ⟪ sessions ::= <[ds_id d := d]> ⟫, Ok tt).

Definition acknowledge (session_id : string) (cursor now_ms : Z) (r : DeviceRegistry) :
    DeviceRegistry * result DeviceError DeviceSyncCursor :=
  match sessions r !! session_id with
  | None => (r, Err (SessionNotFound session_id))
  | Some d =>
      if negb (session_active d) then (r, Err (Revoked session_id))
      else
        let d := d ⟪ ds_sync_cursor := Z.max (ds_sync_cursor d) cursor ⟫ ⟪ ds_last_active_at_ms := now_ms ⟫ in
        (r ⟪ sessions ::= <[session_id := d]> ⟫,
         Ok {| cursor_session_id := session_id; cursor_value := ds_sync_cursor d;
               cursor_acknowledged_at_ms := now_ms |})
  end.

Definition revoke_device (session_id : string) (now_ms : Z) (r : DeviceRegistry) :
    DeviceRegistry * result DeviceError unit :=
  match sessions r !! session_id with
  | None => (r, Err (SessionNotFound session_id))
  | Some d => (r ⟪ sessions ::= <[session_id := d ⟪ ds_revoked_at_ms := Some now_ms ⟫ ⟪ ds_push_token := None ⟫]> ⟫,
                 Ok tt)
  end.

Definition active_for_actor (actor_id : ActorId) (r : DeviceRegistry) : list DeviceSession :=
  filter (fun d => ds_actor_id d = actor_id /\ session_active d = true) (btree_values (sessions r)).

(** [Iterator::min] *)
Definition list_min (l : list Z) : option Z :=
  foldl (fun best x => Some (match best with None => x | Some b => Z.min b x end)) None l.

Definition minimum_active_cursor (actor_id : ActorId) (r : DeviceRegistry) : option Z :=
  list_min (ds_sync_cursor <$> active_for_actor actor_id r).

(** ** Lifetimes of sessions *)

Inductive DeviceOp :=
| DeviceRegister (d : DeviceSession)
| DeviceAcknowledge (session_id : string) (cursor now_ms : Z)
| DeviceRevoke (session_id : string) (now_ms : Z).

(** The registry after an operation, whatever it returned. *)
Definition device_step (r : DeviceRegistry) (op : DeviceOp) : DeviceRegistry :=
  match op with
  | DeviceRegister d => fst (register_device d r)
  | DeviceAcknowledge id cursor now_ms => fst (acknowledge id cursor now_ms r)
  | DeviceRevoke id now_ms => fst (revoke_device id now_ms r)
  end.

(** How a session may evolve. *)
Record session_advances (d d' : DeviceSession) : Prop := {
  adv_identity : ds_id d' = ds_id d /\ ds_actor_id d' = ds_actor_id d /\ ds_device_id d' = ds_device_id d;
  adv_cursor : ds_sync_cursor d <= ds_sync_cursor d';
  adv_revoked : session_active d = false ->
    session_active d' = false /\ ds_sync_cursor d' = ds_sync_cursor d
    /\ ds_last_active_at_ms d' = ds_last_active_at_ms d /\ (ds_push_token d = None -> ds_push_token d' = None);
}.

#[export] Instance session_advances_preorder : PreOrder session_advances.
Proof.
  split; [by split|]. intros a b c [(H1 & H2 & H3) Hc Hr] [(H1' & H2' & H3') Hc' Hr'].
  split; [split_and!; congruence|lia|]. intros Ha. destruct (Hr Ha) as (Hb & ? & ? & Hp).
  destruct (Hr' Hb) as (? & ? & ? & Hp'). split_and!; [done|congruence..|auto].
Qed.

Lemma device_step_advances r op id d :
  sessions r !! id = Some d -> exists d', sessions (device_step r op) !! id = Some d' /\ session_advances d d'.
Proof.
  intros Hd. destruct op as [d0|sid cursor now_ms|sid now_ms]; simpl.
  - unfold register_device. destruct (_ || _); [by exists d|].
    destruct (contains_key (ds_id d0) (sessions r)) eqn:Hc; [by exists d|]. exists d. split; [|done]. simpl. fields.
    rewrite lookup_insert_ne; [done|]. intros <-. apply contains_key_false in Hc. congruence.
  - unfold acknowledge. destruct (sessions r !! sid) as [x|] eqn:Hx; [|by exists d].
    destruct (session_active x) eqn:Ha; simpl; [|by exists d]. fields.
    destruct (decide (sid = id)) as [->|Hne]; [|exists d; by rewrite lookup_insert_ne].
    rewrite lookup_insert_eq. simplify_eq. eexists. split; [done|]. split; fields; [done|lia|congruence].
  - unfold revoke_device. destruct (sessions r !! sid) as [x|] eqn:Hx; [|by exists d]. simpl. fields.
    destruct (decide (sid = id)) as [->|Hne]; [|exists d; by rewrite lookup_insert_ne].
    rewrite lookup_insert_eq. simplify_eq. eexists. split; [done|]. by split; fields.
Qed.

(** Device sessions only advance.  Whatever operations follow, accepted or
    refused, a registered session stays registered for the same actor and device,
    its cursor never goes back, and once revoked it stays revoked: its cursor and
    activity are frozen and it gets no push token again. *)
Theorem device_sessions_only_advance (ops : list DeviceOp) (r : DeviceRegistry) (id : string) (d : DeviceSession) :
  sessions r !! id = Some d -> exists d', sessions (foldl device_step r ops) !! id = Some d' /\ session_advances d d'.
Proof.
  revert r d. induction ops as [|op ops IH]; intros r d Hd; simpl; [by exists d|].
  destruct (device_step_advances r op id d Hd) as (d1 & Hd1 & H1).
  destruct (IH _ _ Hd1) as (d2 & Hd2 & H2). exists d2. split; [done|]. by transitivity d1.
Qed.

(** ** The slowest device *)

Lemma list_min_spec (l : list Z) :
  match list_min l with
  | None => l = []
  | Some m => m ∈ l /\ forall x, x ∈ l -> m <= x
  end.
Proof.
  unfold list_min. destruct l as [|a l]; [done|]. simpl.
  assert (forall l best, exists m,
    foldl (fun best x => Some (match best with None => x | Some b => Z.min b x end)) (Some best) l = Some m
    /\ (m = best \/ m ∈ l) /\ m <= best /\ forall x, x ∈ l -> m <= x) as Hgen.
  { clear. induction l as [|y l IH]; intros best; simpl.
    - exists best. split_and!; [done|by left|lia|]. intros x Hx. by apply elem_of_nil in Hx.
    - destruct (IH (Z.min best y)) as (m & -> & Hin & Hle & Hall). exists m. split_and!; [done| |lia|].
      + destruct Hin as [->|Hin]; [|set_solver].
        destruct (Z.min_spec best y) as [[_ ->]|[_ ->]]; set_solver.
      + intros x [->|Hx]%elem_of_cons; [lia|auto]. }
  destruct (Hgen l a) as (m & -> & Hin & Hle & Hall). split; [set_solver|].
  intros x [->|Hx]%elem_of_cons; auto.
Qed.

Lemma elem_of_active_for_actor a r d :
  d ∈ active_for_actor a r <-> ds_actor_id d = a /\ session_active d = true /\ exists id, sessions r !! id = Some d.
Proof. unfold active_for_actor. rewrite list_elem_of_filter, elem_of_btree_values. tauto. Qed.

(** The minimum cursor is the slowest active device's.  It is there exactly
    when the actor has an active session; then some active session of the actor
    is at it, and every active session of the actor has reached it. *)
Theorem minimum_active_cursor_is_slowest (a : ActorId) (r : DeviceRegistry) :
  match minimum_active_cursor a r with
  | None => forall id d, sessions r !! id = Some d -> ds_actor_id d = a -> session_active d = false
  | Some m =>
      (exists id d, sessions r !! id = Some d /\ ds_actor_id d = a /\ session_active d = true /\ ds_sync_cursor d = m)
      /\ forall id d, sessions r !! id = Some d -> ds_actor_id d = a -> session_active d = true -> m <= ds_sync_cursor d
  end.
Proof.
  unfold minimum_active_cursor. pose proof (list_min_spec (ds_sync_cursor <$> active_for_actor a r)) as H.
  destruct (list_min _) as [m|].
  - destruct H as [Hin Hall]. split.
    + apply list_elem_of_fmap in Hin as (d & -> & (Ha & Hact & id & Hd)%elem_of_active_for_actor). eauto 6.
    + intros id d Hd Ha Hact. apply Hall. apply list_elem_of_fmap_2, elem_of_active_for_actor. eauto.
  - intros id d Hd Ha. destruct (session_active d) eqn:Hact; [|done]. exfalso.
    apply fmap_nil_inv in H. assert (d ∈ active_for_actor a r) as Hin by (apply elem_of_active_for_actor; eauto).
    rewrite H in Hin. by apply elem_of_nil in Hin.
Qed.

(** ** Witness *)

Definition phone : DeviceSession := {|
  ds_id := "s1"; ds_actor_id := MkActorId "ann"; ds_device_id := "phone"; ds_platform := Ios;
  ds_device_name := "Phone"; ds_app_version := "1"; ds_created_at_ms := 0; ds_last_active_at_ms := 0;
  ds_revoked_at_ms := None; ds_push_token := Some "t"; ds_sync_cursor := 4; ds_trusted := true |}.

Lemma device_sessions_only_advance_witness :
  exists d', sessions (foldl device_step {| sessions := {["s1" := phone]} |}
      [DeviceAcknowledge "s1" 9 1; DeviceAcknowledge "s1" 7 2; DeviceRevoke "s1" 3; DeviceAcknowledge "s1" 20 4])
      !! "s1" = Some d' /\ session_advances phone d' /\ ds_sync_cursor d' = 9.
Proof.
  destruct (device_sessions_only_advance
    [DeviceAcknowledge "s1" 9 1; DeviceAcknowledge "s1" 7 2; DeviceRevoke "s1" 3; DeviceAcknowledge "s1" 20 4]
    {| sessions := {["s1" := phone]} |} "s1" phone) as (d' & Hd' & Hadv); [reflexivity|].
  exists d'. split; [exact Hd'|]. split; [exact Hadv|]. vm_compute in Hd'. injection Hd' as <-. reflexivity.
Defined.

(** ** Calls and typing ([realtime.rs]) *)

Record CallId := MkCallId { call_id_0 : string }.
#[export] Instance CallId_eq_dec : EqDecision CallId.
Proof. solve_decision. Defined.
#[export] Program Instance CallId_countable : Countable CallId := inj_countable' call_id_0 MkCallId _.
Next Obligation. by intros []. Qed.

Inductive CallKind := CallVoice | CallVideo | CallGroupVoice | CallGroupVideo | CallLiveStream.
Inductive CallState := CallRinging | CallConnecting | CallActive | CallHeld | CallEnded | CallFailed.

Record CallParticipant := {
  cp_actor_id : ActorId;
  cp_joined_at_ms : option Z;
  cp_left_at_ms : option Z;
  cp_muted : bool;
  cp_video_enabled : bool;
  cp_screen_sharing : bool;
  cp_speaking : bool;
}.
#[export] Instance eta_CallParticipant : Eta CallParticipant := fun p =>
  Build_CallParticipant (cp_actor_id p) (cp_joined_at_ms p) (cp_left_at_ms p) (cp_muted p)
    (cp_video_enabled p) (cp_screen_sharing p) (cp_speaking p).

Record IceServer := {
  ice_urls : list string;
  ice_username : option string;
  ice_credential : option string;
}.

Record CallRoute := {
  route_region : string;
  route_signaling_url : string;
  route_media_relay_urls : list string;
  route_ice_servers : list IceServer;
  route_end_to_end_encrypted : bool;
}.

Record CallSession := {
  call_id : CallId;
  call_conversation_id : ConversationId;
  call_kind : CallKind;
  call_state : CallState;
  call_initiator_id : ActorId;
  call_participants : gmap ActorId CallParticipant;
  call_route : option CallRoute;
  call_created_at_ms : Z;
  call_connected_at_ms : option Z;
  call_ended_at_ms : option Z;
}.
#[export] Instance eta_CallSession : Eta CallSession := fun c =>
  Build_CallSession (call_id c) (call_conversation_id c) (call_kind c) (call_state c) (call_initiator_id c)
    (call_participants c) (call_route c) (call_created_at_ms c) (call_connected_at_ms c) (call_ended_at_ms c).

Inductive CallSignal :=
| Invite (call : CallId) (conversation_id : ConversationId) (kind : CallKind) (from : ActorId)
    (participants : list ActorId)
| Ringing (call : CallId) (actor_id : ActorId)
| Accept (call : CallId) (actor_id : ActorId)
| Decline (call : CallId) (actor_id : ActorId) (reason : string)
| SdpOffer (call : CallId) (from to : ActorId) (sdp : string)
| SdpAnswer (call : CallId) (from to : ActorId) (sdp : string)
| IceCandidate (call : CallId) (from : ActorId) (to : option ActorId) (candidate : string)
    (sdp_mid : option string) (sdp_mline_index : option Z)
| MediaState (call : CallId) (actor_id : ActorId) (muted video_enabled screen_sharing : bool)
| Speaking (call : CallId) (actor_id : ActorId) (active : bool)
| Hangup (call : CallId) (actor_id : ActorId) (reason : string).

Record TypingState := {
  typing_conversation_id : ConversationId;
  typing_actor_id : ActorId;
  typing_action : string;
  typing_expires_at_ms : Z;
}.

Inductive RealtimeError :=
| DuplicateCall (id : CallId)
| CallNotFound (id : CallId)
| CallParticipantNotFound (call : CallId) (actor_id : ActorId).

Record RealtimeState := {
  rt_calls : gmap CallId CallSession;
  rt_typing : gmap (ConversationId * ActorId) TypingState;
}.
#[export] Instance eta_RealtimeState : Eta RealtimeState := fun s =>
  Build_RealtimeState (rt_calls s) (rt_typing s).

Definition create_call (call : CallSession) (s : RealtimeState) : RealtimeState * result RealtimeError unit :=
  if contains_key (call_id call) (rt_calls s) then (s, Err (DuplicateCall (call_id call)))
  else (s ⟪ rt_calls ::= <[call_id call := call]> ⟫, Ok tt).

Definition set_participant_media (id : CallId) (actor_id : ActorId) (muted video_enabled screen_sharing : bool)
    (s : RealtimeState) : RealtimeState * result RealtimeError unit :=
  match rt_calls s !! id with
  | None => (s, Err (CallNotFound id))
  | Some call =>
      match call_participants call !! actor_id with
      | None => (s, Err (CallParticipantNotFound id actor_id))
      | Some p =>
          let p := p ⟪ cp_muted := muted ⟫ ⟪ cp_video_enabled := video_enabled ⟫
                     ⟪ cp_screen_sharing := screen_sharing ⟫ in
          (s ⟪ rt_calls ::= <[id := call ⟪ call_participants ::= <[actor_id := p]> ⟫]> ⟫, Ok tt)
      end
  end.

Definition set_typing (t : TypingState) (s : RealtimeState) : RealtimeState :=
  s ⟪ rt_typing ::= <[(typing_conversation_id t, typing_actor_id t) := t]> ⟫.

Definition expire_typing (now_ms : Z) (s : RealtimeState) : RealtimeState :=
  s ⟪ rt_typing ::= filter (fun entry => now_ms < typing_expires_at_ms (snd entry)) ⟫.
