(* ===== verification/Access.v ===== *)
(** * Access tokens ([access.rs]): issue, authorize, revoke, rotate

    SHA-256, base64 and the random source are other people's code: they are
    the fields of [TokenCrypto] and an argument of the operations that draw
    random bytes. *)

From S2P Require Import Prelude Text Maps Conversation.

Definition TOKEN_BYTES : nat := 32.
Definition TOKEN_PREFIX : string := "fmsg_".

Inductive AccessScope := Messaging | Calls | BlobsRead | BlobsWrite | Payments | MiniApps | Administration.
#[export] Instance AccessScope_eq_dec : EqDecision AccessScope.
Proof. solve_decision. Defined.

(** A set of scopes is listed without repetition. *)
Record AccessGrant := {
  grant_id : string;
  grant_actor : ActorId;
  grant_device_id : string;
  grant_session_id : string;
  grant_scopes : list AccessScope;
  grant_issued_at_ms : Z;
  grant_expires_at_ms : option Z;
  grant_revoked_at_ms : option Z;
}.
#[export] Instance eta_AccessGrant : Eta AccessGrant := fun g =>
  Build_AccessGrant (grant_id g) (grant_actor g) (grant_device_id g) (grant_session_id g) (grant_scopes g)
    (grant_issued_at_ms g) (grant_expires_at_ms g) (grant_revoked_at_ms g).

(** [AccessGrant::active_at] *)
Definition grant_active_at (g : AccessGrant) (now_ms : Z) : bool :=
  negb (is_some_and (grant_revoked_at_ms g) (fun _ => true))
  && is_none_or (grant_expires_at_ms g) (fun expires_at_ms => now_ms <? expires_at_ms).

(** [AccessGrant::allows] *)
Definition grant_allows (g : AccessGrant) (scope : AccessScope) : bool :=
  bool_decide (scope ∈ grant_scopes g) || bool_decide (Administration ∈ grant_scopes g).

Record AuthorizedAccess := {
  auth_grant_id : string;
  auth_actor_id : ActorId;
  auth_device_id : string;
  auth_session_id : string;
  auth_scopes : list AccessScope;
}.

Record IssuedAccessToken := { issued_token : string; issued_grant : AccessGrant }.

Record SecretGrant := { sg_token_sha256 : list ascii; sg_grant : AccessGrant }.
#[export] Instance eta_SecretGrant : Eta SecretGrant := fun e => Build_SecretGrant (sg_token_sha256 e) (sg_grant e).

(** [AccessTokenRegistry]: its entries, in the order they were issued. *)
Record AccessTokenRegistry := { grants : list SecretGrant }.
#[export] Instance eta_AccessTokenRegistry : Eta AccessTokenRegistry := fun r => Build_AccessTokenRegistry (grants r).

Inductive AccessError :=
| WeakToken
| InvalidGrant
| EmptyScopes
| DuplicateGrant
| Unauthorized
| AccessIdentityMismatch
| ExpiredOrRevoked
| ScopeDenied (scope : AccessScope)
| GrantNotFound (id : string)
| AccessRandom (reason : string).

Definition validate_grant (g : AccessGrant) : result AccessError unit :=
  reject_if (blank (grant_id g) || blank (grant_device_id g) || blank (grant_session_id g)
             || negb (actor_id_is_valid (grant_actor g))) InvalidGrant ;;
  reject_if (match grant_scopes g with [] => true | _ => false end) EmptyScopes ;;
  reject_if (is_some_and (grant_expires_at_ms g) (fun expires_at_ms => expires_at_ms <=? grant_issued_at_ms g))
    InvalidGrant.

Definition validate_token (token : list ascii) : result AccessError unit :=
  reject_if (length token <? TOKEN_BYTES)%nat WeakToken.

Definition constant_time_eq (left right : list ascii) : bool :=
  if negb (length left =? length right)%nat then false
  else foldl Z.lor 0 (zip_with (fun l r => Z.lxor (byte_at l) (byte_at r)) left right) =? 0.

(** The first entry that satisfies [p], changed by [f]. *)
Fixpoint update_first {A : Type} (p : A -> bool) (f : A -> A) (l : list A) : list A :=
  match l with
  | [] => []
  | x :: l => if p x then f x :: l else x :: update_first p f l
  end.

Definition has_id (id : string) (e : SecretGrant) : bool := eqb (grant_id (sg_grant e)) id.

Class TokenCrypto := {
  sha256 : list ascii -> list ascii;
  base64url : list ascii -> string;
}.

Section access.
Context `{TokenCrypto}.

Definition token_hash (token : list ascii) : list ascii := sha256 token.

(** [random_token]: [random] is what the random source answers. *)
Definition random_token (random : result string (list ascii)) : result AccessError string :=
  b ← map_err AccessRandom random; Ok (TOKEN_PREFIX +:+ base64url b).

Definition has_hash (hash : list ascii) (e : SecretGrant) : bool := constant_time_eq (sg_token_sha256 e) hash.

Definition issue (token : list ascii) (g : AccessGrant) (r : AccessTokenRegistry) :
    AccessTokenRegistry * result AccessError unit :=
  match validate_token token ;; validate_grant g with
  | Err e => (r, Err e)
  | Ok _ =>
      let hash := token_hash token in
      if existsb (fun e => has_id (grant_id g) e || has_hash hash e) (grants r) then (r, Err DuplicateGrant)
      else (r ⟪ grants ::= fun l => (l ++ [{| sg_token_sha256 := hash; sg_grant := g |}])%list ⟫, Ok tt)
  end.

Definition issue_random (random : result string (list ascii)) (g : AccessGrant) (r : AccessTokenRegistry) :
    AccessTokenRegistry * result AccessError IssuedAccessToken :=
  match random_token random with
  | Err e => (r, Err e)
  | Ok token =>
      match issue (bytes_of token) g r with
      | (r, Err e) => (r, Err e)
      | (r, Ok _) => (r, Ok {| issued_token := token; issued_grant := g |})
      end
  end.

Definition authorize (r : AccessTokenRegistry) (token : list ascii) (actor_id : ActorId)
    (device_id session_id : string) (scope : AccessScope) (now_ms : Z) : result AccessError AuthorizedAccess :=
  validate_token token ;;
  matching ← ok_or (find (has_hash (token_hash token)) (grants r)) Unauthorized;
  let g := sg_grant matching in
  reject_if (negb (eqb (grant_actor g) actor_id) || negb (eqb (grant_device_id g) device_id)
             || negb (eqb (grant_session_id g) session_id)) AccessIdentityMismatch ;;
  reject_if (negb (grant_active_at g now_ms)) ExpiredOrRevoked ;;
  reject_if (negb (grant_allows g scope)) (ScopeDenied scope) ;;
  Ok {| auth_grant_id := grant_id g; auth_actor_id := grant_actor g; auth_device_id := grant_device_id g;
        auth_session_id := grant_session_id g; auth_scopes := grant_scopes g |}.

Definition revoke (id : string) (now_ms : Z) (r : AccessTokenRegistry) :
    AccessTokenRegistry * result AccessError unit :=
  match find (has_id id) (grants r) with
  | None => (r, Err (GrantNotFound id))
  | Some _ =>
      (r ⟪ grants ::= update_first (has_id id)
             (fun e => e ⟪ sg_grant ::= fun g => g ⟪ grant_revoked_at_ms := Some now_ms ⟫ ⟫) ⟫, Ok tt)
  end.

Definition rotate_random (random : result string (list ascii)) (id : string) (old_token : list ascii)
    (r : AccessTokenRegistry) : AccessTokenRegistry * result AccessError IssuedAccessToken :=
  match validate_token old_token with
  | Err e => (r, Err e)
  | Ok _ =>
      let old_hash := token_hash old_token in
      match find (has_id id) (grants r) with
      | None => (r, Err (GrantNotFound id))
      | Some entry =>
          if negb (constant_time_eq (sg_token_sha256 entry) old_hash) then (r, Err Unauthorized)
          else
            match random_token random with
            | Err e => (r, Err e)
            | Ok token =>
                (r ⟪ grants ::= update_first (has_id id)
                       (fun e => e ⟪ sg_token_sha256 := token_hash (bytes_of token) ⟫) ⟫,
                 Ok {| issued_token := token; issued_grant := sg_grant entry |})
            end
      end
  end.

(** [AccessTokenRegistry::grant] *)
Definition find_grant (r : AccessTokenRegistry) (id : string) : option AccessGrant :=
  sg_grant <$> find (has_id id) (grants r).

Definition active_grants_for_actor (r : AccessTokenRegistry) (actor_id : ActorId) (now_ms : Z) :
    list AccessGrant :=
  filter (fun g => grant_actor g = actor_id /\ grant_active_at g now_ms = true) (sg_grant <$> grants r).
End access.

(** ** Comparing hashes *)

Lemma foldl_lor_zero (l : list Z) (acc : Z) :
  foldl Z.lor acc l = 0 <-> acc = 0 /\ Forall (fun z => z = 0) l.
Proof.
  revert acc. induction l as [|z l IH]; intros acc; simpl; [split; [done|by intros []]|].
  rewrite IH, Z.lor_eq_0_iff, list.Forall_cons. tauto.
Qed.

Lemma constant_time_eq_spec (left right : list ascii) :
  constant_time_eq left right = true <-> left = right.
Proof.
  unfold constant_time_eq. destruct (Nat.eqb_spec (length left) (length right)) as [Hlen|Hlen]; simpl.
  2: { split; [done|]. intros ->. by destruct Hlen. }
  rewrite Z.eqb_eq, foldl_lor_zero. split; [|intros ->].
  - intros [_ Hall]. revert right Hlen Hall. induction left as [|a left IH]; intros [|b right] Hlen Hall; try done.
    simpl in *. apply list.Forall_cons in Hall as [Hab Hall]. apply Z.lxor_eq in Hab.
    f_equal; [by apply byte_at_inj|]. apply IH; [lia|done].
  - split; [done|]. clear Hlen. induction right as [|a right IH]; simpl; constructor; [apply Z.lxor_nilpotent|done].
Qed.

(** ** Finding entries *)

Lemma find_first {A : Type} (p : A -> bool) (l : list A) (x : A) :
  find p l = Some x <-> exists pre post, l = (pre ++ x :: post)%list /\ p x = true /\ Forall (fun y => p y = false) pre.
Proof.
  induction l as [|a l IH]; simpl.
  - split; [done|]. intros ([|] & post & [=] & _).
  - destruct (p a) eqn:Ha.
    + split; [intros [= <-]; by exists [], l|]. intros ([|b pre] & post & [= -> ->] & Hx & Hpre); [done|].
      apply list.Forall_cons in Hpre as [? _]. congruence.
    + rewrite IH. split.
      * intros (pre & post & -> & Hx & Hpre). exists (a :: pre), post. split_and!; [done|done|by constructor].
      * intros ([|b pre] & post & [= -> ->] & Hx & Hpre); [congruence|].
        apply list.Forall_cons in Hpre as [_ Hpre]. eauto.
Qed.

Lemma update_first_map {A B : Type} (g : A -> B) (p : A -> bool) (f : A -> A) (l : list A) :
  (forall x, p x = true -> g (f x) = g x) -> g <$> update_first p f l = g <$> l.
Proof.
  intros Hg. induction l as [|a l IH]; [done|]. simpl. destruct (p a) eqn:Ha; simpl; [by rewrite Hg|].
  f_equal. exact IH.
Qed.

Lemma elem_of_update_first {A : Type} (p : A -> bool) (f : A -> A) (l : list A) (x : A) :
  x ∈ update_first p f l -> x ∈ l \/ exists y, y ∈ l /\ p y = true /\ x = f y.
Proof.
  induction l as [|a l IH]; simpl; [by left|].
  destruct (p a) eqn:Ha; rewrite !elem_of_cons.
  - intros [->|?]; [right; exists a; rewrite elem_of_cons; auto|auto].
  - intros [->|H]; [auto|]. destruct (IH H) as [?|(y & ? & ?)]; [auto|]. right. exists y. rewrite elem_of_cons. auto.
Qed.

Lemma update_first_split {A : Type} (p : A -> bool) (f : A -> A) (pre post : list A) (x : A) :
  p x = true -> Forall (fun y => p y = false) pre ->
  update_first p f (pre ++ x :: post) = (pre ++ f x :: post)%list.
Proof. intros Hx. induction 1 as [|y pre Hy _ IH]; simpl; [by rewrite Hx|]. by rewrite Hy, IH. Qed.

Section tokens.
Context `{TokenCrypto}.

Lemma has_hash_spec hash e : has_hash hash e = true <-> sg_token_sha256 e = hash.
Proof. apply constant_time_eq_spec. Qed.

Lemma has_hash_false hash e : has_hash hash e = false <-> sg_token_sha256 e <> hash.
Proof. rewrite <- has_hash_spec. by destruct (has_hash hash e). Qed.

Lemma validate_token_ok token u : validate_token token = Ok u <-> (TOKEN_BYTES <= length token)%nat.
Proof. unfold validate_token. rewrite reject_if_ok. apply Nat.ltb_ge. Qed.

Lemma grant_active_spec g now_ms :
  grant_active_at g now_ms = true <->
  grant_revoked_at_ms g = None /\ forall t, grant_expires_at_ms g = Some t -> now_ms < t.
Proof.
  unfold grant_active_at. destruct (grant_revoked_at_ms g), (grant_expires_at_ms g); simpl;
    rewrite ?Z.ltb_lt; naive_solver.
Qed.

Lemma grant_allows_spec g scope :
  grant_allows g scope = true <-> scope ∈ grant_scopes g \/ Administration ∈ grant_scopes g.
Proof. unfold grant_allows. by rewrite orb_true_iff, !bool_decide_eq_true. Qed.

(** What a grant lets its bearer do. *)
Definition access_of (g : AccessGrant) : AuthorizedAccess := {|
  auth_grant_id := grant_id g; auth_actor_id := grant_actor g; auth_device_id := grant_device_id g;
  auth_session_id := grant_session_id g; auth_scopes := grant_scopes g |}.

(** The standing a request needs. *)
Record entitled (g : AccessGrant) (a : ActorId) (device session : string) (scope : AccessScope) (now_ms : Z) : Prop := {
  ent_identity : grant_actor g = a /\ grant_device_id g = device /\ grant_session_id g = session;
  ent_not_revoked : grant_revoked_at_ms g = None;
  ent_not_expired : forall t, grant_expires_at_ms g = Some t -> now_ms < t;
  ent_scope : scope ∈ grant_scopes g \/ Administration ∈ grant_scopes g;
}.

Lemma authorize_ok r token a device session scope now_ms acc :
  authorize r token a device session scope now_ms = Ok acc <->
  (TOKEN_BYTES <= length token)%nat
  /\ exists e, find (has_hash (sha256 token)) (grants r) = Some e
       /\ entitled (sg_grant e) a device session scope now_ms /\ acc = access_of (sg_grant e).
Proof.
  unfold authorize, token_hash. rewrite bind_ok. setoid_rewrite validate_token_ok.
  split.
  - intros (u & Hlen & H1). split; [done|]. oks. eexists. split; [eassumption|]. split; [|by subst].
    repeat match goal with H : eqb _ _ = true |- _ => apply (proj1 (eqb_spec _ _)) in H end.
    match goal with H : grant_active_at _ _ = true |- _ => apply grant_active_spec in H as [] end.
    match goal with H : grant_allows _ _ = true |- _ => apply grant_allows_spec in H end. by split.
  - intros (Hlen & e & Hfind & [(<- & <- & <-) Hr Hx Hs] & ->). exists tt. split; [done|].
    rewrite Hfind. simpl. rewrite !(proj2 (eqb_spec _ _)) by done. simpl.
    rewrite (proj2 (grant_active_spec _ _)) by done. rewrite (proj2 (grant_allows_spec _ _)) by done. done.
Qed.

(** Authorization is exact.  A token is authorized for a request precisely
    when it has at least 32 bytes, and the first entry with its hash is a grant to
    the requesting actor, device and session that is not revoked, has not expired
    and carries the requested scope or administration; what is returned is that
    grant's own data. *)
Theorem authorization_is_exact (r : AccessTokenRegistry) (token : list ascii) (a : ActorId)
    (device session : string) (scope : AccessScope) (now_ms : Z) (acc : AuthorizedAccess) :
  authorize r token a device session scope now_ms = Ok acc <->
  (TOKEN_BYTES <= length token)%nat
  /\ exists pre e post, grants r = (pre ++ e :: post)%list
       /\ sg_token_sha256 e = sha256 token /\ Forall (fun x => sg_token_sha256 x <> sha256 token) pre
       /\ entitled (sg_grant e) a device session scope now_ms /\ acc = access_of (sg_grant e).
Proof.
  rewrite authorize_ok. apply and_iff_compat_l. setoid_rewrite find_first. setoid_rewrite has_hash_spec.
  assert (forall pre, Forall (fun y => has_hash (sha256 token) y = false) pre
    <-> Forall (fun x => sg_token_sha256 x <> sha256 token) pre) as Hpre
    by (intros pre; apply Forall_iff; intros; apply has_hash_false).
  setoid_rewrite Hpre. naive_solver.
Qed.

(** ** Revocation *)

Definition grant_ids (r : AccessTokenRegistry) : list string := (fun e => grant_id (sg_grant e)) <$> grants r.

Inductive AccessOp :=
| AccessIssue (token : list ascii) (g : AccessGrant)
| AccessIssueRandom (random : result string (list ascii)) (g : AccessGrant)
| AccessRevoke (id : string) (now_ms : Z)
| AccessRotate (random : result string (list ascii)) (id : string) (old_token : list ascii).

(** The registry after an operation, whatever it returned. *)
Definition access_step (r : AccessTokenRegistry) (op : AccessOp) : AccessTokenRegistry :=
  match op with
  | AccessIssue token g => fst (issue token g r)
  | AccessIssueRandom random g => fst (issue_random random g r)
  | AccessRevoke id now_ms => fst (revoke id now_ms r)
  | AccessRotate random id old_token => fst (rotate_random random id old_token r)
  end.

(** Every entry under this identifier is revoked, and there is one. *)
Definition is_revoked (r : AccessTokenRegistry) (id : string) : Prop :=
  id ∈ grant_ids r /\ forall e, e ∈ grants r -> grant_id (sg_grant e) = id -> is_Some (grant_revoked_at_ms (sg_grant e)).

Lemma issue_revoked token g r id : is_revoked r id -> is_revoked (fst (issue token g r)) id.
Proof.
  intros [Hin Hr]. unfold issue. destruct (validate_token token ;; validate_grant g); [|done].
  destruct (existsb _ _) eqn:He; simpl; [done|]. split; unfold grant_ids in *; fields.
  - rewrite fmap_app. set_solver.
  - intros e0 [He'|He']%elem_of_app; [by apply Hr|]. apply list_elem_of_singleton in He' as ->. simpl. intros <-. exfalso.
    apply list_elem_of_fmap in Hin as (e & Hid & Hin). apply not_true_iff_false in He. apply He.
    apply existsb_exists. exists e. split; [by apply list_elem_of_In|]. unfold has_id.
    by rewrite (proj2 (eqb_spec _ _)).
Qed.

Lemma update_revoked p f r id :
  (forall e, grant_id (sg_grant (f e)) = grant_id (sg_grant e)) ->
  (forall e, is_Some (grant_revoked_at_ms (sg_grant e)) -> is_Some (grant_revoked_at_ms (sg_grant (f e)))) ->
  is_revoked r id -> is_revoked (r ⟪ grants ::= update_first p f ⟫) id.
Proof.
  intros Hid Hrev [Hin Hr]. split; unfold grant_ids in *; fields.
  - by rewrite update_first_map.
  - intros e [He|(y & Hy & _ & ->)]%elem_of_update_first; [by apply Hr|]. rewrite Hid. auto.
Qed.

Lemma access_step_revoked op r id : is_revoked r id -> is_revoked (access_step r op) id.
Proof.
  intros Hr. destruct op as [token g|random g|gid now_ms|random gid old]; simpl.
  - by apply issue_revoked.
  - unfold issue_random. destruct (random_token random) as [token|]; [|done].
    pose proof (issue_revoked (bytes_of token) g r id Hr) as Hi. by destruct (issue _ _ _) as [r' []].
  - unfold revoke. destruct (find _ _); [|done]. apply update_revoked; [done| |done]. intros e _. by eexists.
  - unfold rotate_random. destruct (validate_token old); [|done]. destruct (find _ _) as [e|]; [|done].
    destruct (negb _); [done|]. destruct (random_token random); [|done]. by apply update_revoked.
Qed.

(** Revocation is final.  Once a registry has revoked a grant, no token is ever
    again authorized under it, whatever tokens are issued, revoked or rotated
    afterwards, at any time, for any request. *)
Theorem revocation_is_final (r r' : AccessTokenRegistry) (id : string) (now_ms : Z) (ops : list AccessOp) :
  NoDup (grant_ids r) -> revoke id now_ms r = (r', Ok tt) ->
  forall token a device session scope later acc,
    authorize (foldl access_step r' ops) token a device session scope later = Ok acc -> auth_grant_id acc <> id.
Proof.
  intros Hnd Hrevoke.
  assert (is_revoked r' id) as Hr.
  { unfold revoke in Hrevoke. destruct (find (has_id id) (grants r)) as [e|] eqn:He; simplify_eq.
    apply find_first in He as (pre & post & Hl & Hid & Hpre). unfold has_id in Hid. apply (proj1 (eqb_spec _ _)) in Hid.
    unfold grant_ids in Hnd. unfold is_revoked, grant_ids. fields. rewrite Hl in *.
    rewrite update_first_split; [|unfold has_id; by apply (proj2 (eqb_spec _ _))|done].
    rewrite fmap_app, fmap_cons in *. fields. split; [set_solver|].
    apply list.NoDup_app in Hnd as (_ & Hdisj & [Hn _]%list.NoDup_cons).
    intros x [Hx|[->|Hx]%elem_of_cons]%elem_of_app Hxid; [exfalso| |exfalso].
    - rewrite list.Forall_forall in Hpre. specialize (Hpre x Hx). unfold has_id in Hpre. apply eqb_false in Hpre. done.
    - by eexists.
    - apply Hn. rewrite Hid, <- Hxid. by apply (list_elem_of_fmap_2 (fun e => grant_id (sg_grant e))). }
  clear Hrevoke Hnd. intros token a device session scope later acc (Hlen & e & Hfind & Hent & ->)%authorize_ok Hid.
  assert (is_revoked (foldl access_step r' ops) id) as [_ Hall].
  { clear -Hr. revert r' Hr. induction ops as [|op ops IH]; intros r' Hr; [done|]. apply IH. by apply access_step_revoked. }
  apply find_first in Hfind as (pre & post & Hl & _).
  destruct (Hall e) as [t Ht]; [rewrite Hl; set_solver|done|]. destruct Hent as [_ Hnone _ _]. congruence.
Qed.

(** ** Rotation *)

Definition hashes (r : AccessTokenRegistry) : list (list ascii) := sg_token_sha256 <$> grants r.

Lemma find_none {A : Type} (p : A -> bool) (l : list A) : Forall (fun y => p y = false) l -> find p l = None.
Proof. induction 1 as [|x l Hx _ IH]; simpl; [done|]. by rewrite Hx. Qed.

Lemma no_hash hash (l : list SecretGrant) :
  hash ∉ sg_token_sha256 <$> l -> Forall (fun y => has_hash hash y = false) l.
Proof.
  intros Hn. apply list.Forall_forall. intros y Hy. apply has_hash_false. intros <-. apply Hn.
  by apply list_elem_of_fmap_2.
Qed.

(** Rotation replaces the token.  Where no two entries share a hash and the
    new token's hash is not in use, a successful rotation makes the old token
    worthless and gives the new one exactly the authority the old one had, for
    every request; it takes the old token to rotate. *)
Theorem rotation_replaces_the_token (r r' : AccessTokenRegistry) (random : result string (list ascii)) (id : string)
    (old_token : list ascii) (t : IssuedAccessToken) :
  rotate_random random id old_token r = (r', Ok t) ->
  NoDup (hashes r) -> sha256 (bytes_of (issued_token t)) ∉ hashes r ->
  (TOKEN_BYTES <= length (bytes_of (issued_token t)))%nat ->
  forall a device session scope now_ms,
    authorize r' old_token a device session scope now_ms = Err Unauthorized
    /\ authorize r' (bytes_of (issued_token t)) a device session scope now_ms
       = authorize r old_token a device session scope now_ms.
Proof.
  unfold rotate_random. intros Hrot Hnd Hnew Hlen a device session scope now_ms.
  destruct (validate_token old_token) as [u|] eqn:Hold; [|done].
  destruct (find (has_id id) (grants r)) as [e|] eqn:Hfind; [|done].
  destruct (constant_time_eq _ _) eqn:Heq; simpl in Hrot; [|done]. apply constant_time_eq_spec in Heq.
  destruct (random_token random) as [token|]; [|done]. injection Hrot as <- <-. simpl in *.
  apply find_first in Hfind as (pre & post & Hl & Hid & Hpre). unfold hashes in Hnd, Hnew. unfold authorize. fields.
  rewrite Hold, (proj2 (validate_token_ok _ tt) Hlen). rewrite Hl in *. rewrite update_first_split by done.
  rewrite fmap_app, fmap_cons in Hnd, Hnew. unfold token_hash in *. rewrite Heq in Hnd, Hnew.
  apply list.NoDup_app in Hnd as (_ & Hdisj & [Hn _]%list.NoDup_cons).
  set (old := sha256 old_token) in *. set (new := sha256 (bytes_of token)) in *.
  set (e' := e ⟪ sg_token_sha256 := new ⟫).
  assert (Forall (fun y => has_hash old y = false) (pre ++ e' :: post)) as Hnone.
  { apply no_hash. rewrite fmap_app, fmap_cons. unfold e'. fields.
    intros [Hp|[Hp|Hp]%elem_of_cons]%elem_of_app.
    - apply (Hdisj old Hp). by left.
    - apply Hnew. rewrite <- Hp. apply elem_of_app. right. by left.
    - by apply Hn. }
  assert (find (has_hash new) (pre ++ e' :: post) = Some e') as Hnew'.
  { apply find_first. exists pre, post. split_and!; [done|by apply has_hash_spec|]. apply no_hash. set_solver. }
  assert (find (has_hash old) (pre ++ e :: post) = Some e) as Hold'.
  { apply find_first. exists pre, post. split_and!; [done|by apply has_hash_spec|]. apply no_hash.
    intros Hp. apply (Hdisj old Hp). by left. }
  rewrite (find_none _ _ Hnone), Hnew', Hold'. by destruct u.
Qed.
End tokens.

(** ** Witnesses, with a digest that keeps the first bytes *)

#[local] Instance toy_token_crypto : TokenCrypto := {
  sha256 token := take 40 token;
  base64url b := string_of b;
}.

Definition toy_token (c : ascii) : list ascii := replicate 48 c.

Definition toy_grant (id : string) : AccessGrant := {|
  grant_id := id; grant_actor := MkActorId "human:1"; grant_device_id := "desktop:1";
  grant_session_id := "session:1"; grant_scopes := [Messaging; Calls]; grant_issued_at_ms := 1;
  grant_expires_at_ms := Some 100; grant_revoked_at_ms := None |}.

Definition toy_registry : AccessTokenRegistry :=
  fst (issue (toy_token "b") (toy_grant "g2") (fst (issue (toy_token "a") (toy_grant "g1") {| grants := [] |}))).

Lemma revocation_is_final_witness :
  exists acc, authorize (foldl access_step (fst (revoke "g1" 5 toy_registry)) [AccessIssue (toy_token "c") (toy_grant "g1")])
    (toy_token "b") (MkActorId "human:1") "desktop:1" "session:1" Messaging 6 = Ok acc /\ auth_grant_id acc <> "g1".
Proof.
  eexists. split; [vm_compute; reflexivity|].
  apply (revocation_is_final toy_registry (fst (revoke "g1" 5 toy_registry)) "g1" 5) with
    (ops := [AccessIssue (toy_token "c") (toy_grant "g1")]) (token := toy_token "b") (a := MkActorId "human:1")
    (device := "desktop:1") (session := "session:1") (scope := Messaging) (later := 6).
  - apply (bool_decide_unpack _). vm_compute. exact I.
  - vm_compute. reflexivity.
  - vm_compute. reflexivity.
Defined.

Lemma rotation_replaces_the_token_witness :
  authorize (fst (rotate_random (Ok (toy_token "n")) "g1" (toy_token "a") toy_registry)) (toy_token "a")
    (MkActorId "human:1") "desktop:1" "session:1" Calls 6 = Err Unauthorized
  /\ authorize (fst (rotate_random (Ok (toy_token "n")) "g1" (toy_token "a") toy_registry))
       (bytes_of ("fmsg_" +:+ string_of (toy_token "n"))) (MkActorId "human:1") "desktop:1" "session:1" Calls 6
     = authorize toy_registry (toy_token "a") (MkActorId "human:1") "desktop:1" "session:1" Calls 6.
Proof.
  apply (rotation_replaces_the_token toy_registry
    (fst (rotate_random (Ok (toy_token "n")) "g1" (toy_token "a") toy_registry)) (Ok (toy_token "n")) "g1" (toy_token "a")
    {| issued_token := "fmsg_" +:+ string_of (toy_token "n"); issued_grant := toy_grant "g1" |}).
  - vm_compute. reflexivity.
  - apply (bool_decide_unpack _). vm_compute. exact I.
  - apply (bool_decide_unpack _). vm_compute. exact I.
  - vm_compute. lia.
Defined.

(** The toy token is authorized, so the right-hand side above is not an error. *)
Example toy_token_works :
  is_ok (authorize toy_registry (toy_token "a") (MkActorId "human:1") "desktop:1" "session:1" Calls 6) = true.
Proof. vm_compute. reflexivity. Qed.
