(* ===== verification/Signaling.v ===== *)
(** * Call signalling ([signaling.rs], [signaling_server.rs]): who a signal reaches

    The channels of [std::sync::mpsc] are a shared store: a sender is a handle,
    the store maps it to the queue its receiver reads and to whether that
    receiver is still there.  The second half is the server: the lines of its
    connections, the hello with a token, and the threads of the connections side by
    side, each going on by a line or by a signal.  Its locks are not modelled as
    poisoned, since nothing under them panics. *)

From S2P Require Import Prelude Text Maps Conversation Realtime Access.

Record Channel := { ch_queue : list CallSignal; ch_open : bool }.
#[export] Instance eta_Channel : Eta Channel := fun c => Build_Channel (ch_queue c) (ch_open c).

Record SignalingHub := {
  hub_clients : gmap ActorId nat;
  hub_rooms : gmap CallId (gset ActorId);
  hub_channels : gmap nat Channel;
}.
#[export] Instance eta_SignalingHub : Eta SignalingHub := fun h =>
  Build_SignalingHub (hub_clients h) (hub_rooms h) (hub_channels h).

Definition empty_hub : SignalingHub := {| hub_clients := ∅; hub_rooms := ∅; hub_channels := ∅ |}.

Inductive SignalingError := SenderMismatch (authenticated declared : ActorId).

(** [mpsc::channel()], [Sender::send], and the end of a [Receiver] *)
Definition new_channel (h : SignalingHub) : SignalingHub * nat :=
  let handle := fresh (dom (hub_channels h)) in
  (h ⟪ hub_channels ::= <[handle := {| ch_queue := []; ch_open := true |}]> ⟫, handle).

Definition channel_open (h : SignalingHub) (handle : nat) : bool :=
  is_some_and (hub_channels h !! handle) ch_open.

Definition send (handle : nat) (signal : CallSignal) (h : SignalingHub) : SignalingHub * bool :=
  if channel_open h handle
  then (h ⟪ hub_channels ::= alter (fun c => c ⟪ ch_queue ::= fun q => (q ++ [signal])%list ⟫) handle ⟫, true)
  else (h, false).

Definition drop_receiver (handle : nat) (h : SignalingHub) : SignalingHub :=
  h ⟪ hub_channels ::= alter (fun c => c ⟪ ch_open := false ⟫) handle ⟫.

(** [SignalingHub::connect]: the handle is the receiver of the subscription. *)
Definition connect (actor_id : ActorId) (h : SignalingHub) : SignalingHub * nat :=
  let (h, handle) := new_channel h in
  (h ⟪ hub_clients ::= <[actor_id := handle]> ⟫, handle).

Definition disconnect (actor_id : ActorId) (h : SignalingHub) : SignalingHub :=
  h ⟪ hub_clients ::= delete actor_id ⟫
    ⟪ hub_rooms ::= fun rooms =>
        filter (fun room => snd room <> ∅) ((fun members => members ∖ {[actor_id]}) <$> rooms) ⟫.

Record SignalingSnapshot := {
  snap_connected_actor_ids : gset ActorId;
  snap_rooms : gmap CallId (gset ActorId);
}.

Definition hub_snapshot (h : SignalingHub) : SignalingSnapshot :=
  {| snap_connected_actor_ids := dom (hub_clients h); snap_rooms := hub_rooms h |}.

Definition signal_call_id (signal : CallSignal) : CallId :=
  match signal with
  | Invite call _ _ _ _ | Ringing call _ | Accept call _ | Decline call _ _ | SdpOffer call _ _ _
  | SdpAnswer call _ _ _ | IceCandidate call _ _ _ _ _ | MediaState call _ _ _ _ | Speaking call _ _
  | Hangup call _ _ => call
  end.

Definition declared_sender (signal : CallSignal) : ActorId :=
  match signal with
  | Invite _ _ _ from _ | SdpOffer _ from _ _ | SdpAnswer _ from _ _ | IceCandidate _ from _ _ _ _ => from
  | Ringing _ actor_id | Accept _ actor_id | Decline _ actor_id _ | MediaState _ actor_id _ _ _
  | Speaking _ actor_id _ | Hangup _ actor_id _ => actor_id
  end.

Definition validate_sender (actor_id : ActorId) (signal : CallSignal) : result SignalingError unit :=
  reject_if (negb (eqb (declared_sender signal) actor_id)) (SenderMismatch actor_id (declared_sender signal)).

(** An invitation opens the room, or adds to it. *)
Definition open_room (signal : CallSignal) (h : SignalingHub) : SignalingHub :=
  match signal with
  | Invite call _ _ from participants =>
      h ⟪ hub_rooms ::= entry_or ∅ (fun room => room ∪ {[from]} ∪ list_to_set participants) call ⟫
  | _ => h
  end.

Definition signal_targets (h : SignalingHub) (authenticated_actor_id : ActorId) (signal : CallSignal) :
    gset ActorId :=
  match signal with
  | Invite _ _ _ from participants => list_to_set participants ∖ {[from]}
  | SdpOffer _ _ to _ | SdpAnswer _ _ to _ | IceCandidate _ _ (Some to) _ _ _ => {[to]}
  | _ => default ∅ (hub_rooms h !! signal_call_id signal) ∖ {[authenticated_actor_id]}
  end.

Definition join_room (authenticated_actor_id : ActorId) (signal : CallSignal) (h : SignalingHub) : SignalingHub :=
  match signal with
  | Accept call _ => h ⟪ hub_rooms ::= entry_or ∅ (fun room => room ∪ {[authenticated_actor_id]}) call ⟫
  | _ => h
  end.

(** One round of the delivery loop. *)
Definition deliver_to (signal : CallSignal) (acc : SignalingHub * Z * list ActorId) (target : ActorId) :
    SignalingHub * Z * list ActorId :=
  let '(h, delivered, stale) := acc in
  match hub_clients h !! target with
  | None => acc
  | Some handle =>
      let (h, sent) := send handle signal h in
      if sent then (h, delivered + 1, stale) else (h, delivered, (stale ++ [target])%list)
  end.

Definition leave_room (authenticated_actor_id : ActorId) (signal : CallSignal) (h : SignalingHub) : SignalingHub :=
  match signal with
  | Hangup call _ _ =>
      match hub_rooms h !! call with
      | None => h
      | Some room =>
          let room := room ∖ {[authenticated_actor_id]} in
          h ⟪ hub_rooms ::= if (size room <? 2)%nat then delete call else <[call := room]> ⟫
      end
  | _ => h
  end.

(** [SignalingHub::route] *)
Definition route (authenticated_actor_id : ActorId) (signal : CallSignal) (h : SignalingHub) :
    SignalingHub * result SignalingError Z :=
  match validate_sender authenticated_actor_id signal with
  | Err e => (h, Err e)
  | Ok _ =>
      let h := open_room signal h in
      let targets := signal_targets h authenticated_actor_id signal in
      let h := join_room authenticated_actor_id signal h in
      let '(h, delivered, stale) := foldl (deliver_to signal) (h, 0, []) (btree_elements targets) in
      let h := foldl (fun h actor_id => disconnect actor_id h) h stale in
      (leave_room authenticated_actor_id signal h, Ok delivered)
  end.

(** ** Well-formed hubs *)

(** Every client has an open-ended channel of its own, and no room is empty. *)
Record hub_wf (h : SignalingHub) : Prop := {
  hub_known : forall a k, hub_clients h !! a = Some k -> is_Some (hub_channels h !! k);
  hub_own : forall a b k, hub_clients h !! a = Some k -> hub_clients h !! b = Some k -> a = b;
  hub_rooms_inhabited : forall c room, hub_rooms h !! c = Some room -> room <> ∅;
}.

Lemma empty_hub_wf : hub_wf empty_hub.
Proof. split; simpl; intros *; by rewrite lookup_empty. Qed.

Lemma connect_wf a h : hub_wf h -> hub_wf (fst (connect a h)).
Proof.
  intros [Hk Ho Hr]. unfold connect, new_channel. simpl.
  pose proof (is_fresh (dom (hub_channels h))) as Hfresh. set (k := fresh (dom (hub_channels h))) in *.
  apply not_elem_of_dom in Hfresh.
  split; fields; [| |done].
  - intros b j Hb. rewrite lookup_insert_is_Some'. apply lookup_insert_Some in Hb as [[_ <-]|[_ Hb]]; eauto.
  - intros b c j. rewrite !lookup_insert_Some. intros [[<- <-]|[? Hb]] [[<- ?]|[? Hc]]; try done.
    + apply Hk in Hc as [? Hc]. congruence.
    + subst j. apply Hk in Hb as [? Hb]. congruence.
    + eauto.
Qed.

Lemma disconnect_rooms a h c room :
  hub_rooms (disconnect a h) !! c = Some room <->
  room <> ∅ /\ exists room0, hub_rooms h !! c = Some room0 /\ room = room0 ∖ {[a]}.
Proof.
  unfold disconnect. fields. rewrite map_lookup_filter_Some, lookup_fmap_Some. simpl. naive_solver.
Qed.

Lemma disconnect_wf a h : hub_wf h -> hub_wf (disconnect a h).
Proof.
  intros [Hk Ho Hr]. split.
  - unfold disconnect. fields. intros b k [_ Hb]%lookup_delete_Some. eauto.
  - unfold disconnect. fields. intros b c k [_ Hb]%lookup_delete_Some [_ Hc]%lookup_delete_Some. eauto.
  - intros c room H%disconnect_rooms. apply H.
Qed.

Lemma send_facts k signal h :
  let h' := fst (send k signal h) in
  hub_clients h' = hub_clients h /\ hub_rooms h' = hub_rooms h
  /\ (forall j, is_Some (hub_channels h' !! j) <-> is_Some (hub_channels h !! j))
  /\ (forall j, channel_open h' j = channel_open h j).
Proof.
  unfold send. destruct (channel_open h k); simpl; [|done]. split_and!; [done..| |]; intros j; unfold channel_open; fields.
  - rewrite lookup_alter. case_decide; [subst|done]. by rewrite fmap_is_Some.
  - rewrite lookup_alter. case_decide; [subst|done]. by destruct (hub_channels h !! j).
Qed.

(** ** The delivery loop *)

(** The clients whose receiver is still there. *)
Definition reachable (h : SignalingHub) (a : ActorId) : bool :=
  is_some_and (hub_clients h !! a) (channel_open h).

Definition queue_of (h : SignalingHub) (k : nat) : list CallSignal := default [] (ch_queue <$> hub_channels h !! k).

(** The targets that get the signal, and those whose receiver is gone. *)
Definition reached (h : SignalingHub) (l : list ActorId) : list ActorId := filter (fun a => reachable h a = true) l.
Definition unreachable (h : SignalingHub) (l : list ActorId) : list ActorId :=
  filter (fun a => is_Some (hub_clients h !! a) /\ reachable h a = false) l.

(** The handle belongs to one of these clients. *)
Definition handle_of (h : SignalingHub) (l : list ActorId) (k : nat) : Prop :=
  exists a, a ∈ l /\ hub_clients h !! a = Some k.

Record delivered_to (signal : CallSignal) (l : list ActorId) (h h' : SignalingHub) : Prop := {
  del_clients : hub_clients h' = hub_clients h;
  del_rooms : hub_rooms h' = hub_rooms h;
  del_known : forall j, is_Some (hub_channels h' !! j) <-> is_Some (hub_channels h !! j);
  del_open : forall j, channel_open h' j = channel_open h j;
  del_once : forall a k, a ∈ l -> hub_clients h !! a = Some k -> channel_open h k = true ->
    queue_of h' k = (queue_of h k ++ [signal])%list;
  del_others : forall k, ~ handle_of h (reached h l) k -> queue_of h' k = queue_of h k;
}.

(** Reachability only depends on the clients and on which channels are open. *)
Lemma reachable_same h h' :
  hub_clients h' = hub_clients h -> (forall j, channel_open h' j = channel_open h j) ->
  forall a, reachable h' a = reachable h a.
Proof. intros Hc Ho a. unfold reachable. rewrite Hc. destruct (hub_clients h !! a); [apply Ho|done]. Qed.

Lemma reached_same h h' l :
  hub_clients h' = hub_clients h -> (forall j, channel_open h' j = channel_open h j) ->
  reached h' l = reached h l /\ unreachable h' l = unreachable h l.
Proof.
  intros Hc Ho. pose proof (reachable_same h h' Hc Ho) as Hr. unfold reached, unreachable.
  split; apply list_filter_iff; intros a; by rewrite ?Hc, Hr.
Qed.

Lemma reached_single h a : reached h [a] = if reachable h a then [a] else [].
Proof. unfold reached. rewrite filter_cons, filter_nil. case_decide; by destruct (reachable h a). Qed.

Lemma unreachable_single h a :
  unreachable h [a] = if is_some_and (hub_clients h !! a) (fun _ => negb (reachable h a)) then [a] else [].
Proof.
  unfold unreachable. rewrite filter_cons, filter_nil.
  case_decide as H; destruct (hub_clients h !! a), (reachable h a); try done; try (by destruct H as [[? [=]] ?]).
  all: exfalso; apply H; eauto.
Qed.

(** Sending once. *)
Lemma send_queue k signal h j :
  queue_of (fst (send k signal h)) j
  = if decide (k = j /\ channel_open h k = true) then (queue_of h j ++ [signal])%list else queue_of h j.
Proof.
  unfold send. destruct (channel_open h k) eqn:Ho; simpl; [|by rewrite decide_False by naive_solver].
  unfold queue_of. fields. rewrite lookup_alter. destruct (decide (k = j)) as [->|Hne].
  - rewrite decide_True by done. unfold channel_open in Ho. by destruct (hub_channels h !! j).
  - by rewrite decide_False by naive_solver.
Qed.

Lemma send_sent k signal h : snd (send k signal h) = channel_open h k.
Proof. unfold send. by destruct (channel_open h k). Qed.

(** The loop's first target, and the others. *)
Lemma delivered_cons signal a l h h1 h2 :
  hub_wf h -> a ∉ l ->
  h1 = match hub_clients h !! a with Some k => fst (send k signal h) | None => h end ->
  delivered_to signal l h1 h2 -> delivered_to signal (a :: l) h h2.
Proof.
  intros Hwf Ha Hh1 [D1 D2 D3 D4 D5 D6].
  assert (hub_clients h1 = hub_clients h /\ hub_rooms h1 = hub_rooms h
    /\ (forall j, is_Some (hub_channels h1 !! j) <-> is_Some (hub_channels h !! j))
    /\ (forall j, channel_open h1 j = channel_open h j)) as (S1 & S2 & S3 & S4).
  { subst h1. destruct (hub_clients h !! a) as [k|]; [apply send_facts|done]. }
  assert (forall k, hub_clients h !! a <> Some k -> queue_of h1 k = queue_of h k) as Hother.
  { intros k Hk. subst h1. destruct (hub_clients h !! a) as [k0|]; [|done].
    rewrite send_queue, decide_False; [done|]. intros [-> _]. by apply Hk. }
  assert (forall k, hub_clients h !! a = Some k -> queue_of h1 k
    = if channel_open h k then (queue_of h k ++ [signal])%list else queue_of h k) as Hself.
  { intros k Hk. subst h1. rewrite Hk, send_queue. destruct (channel_open h k);
      [by rewrite decide_True|by rewrite decide_False by naive_solver]. }
  destruct (reached_same h h1 l S1 S4) as [Hreached _].
  split; [congruence|congruence|intros j; by rewrite D3|intros j; by rewrite D4| |].
  - intros b k [->|Hb]%elem_of_cons Hk Hopen.
    + rewrite D6; [rewrite Hself by done; by rewrite Hopen|]. intros (b & Hb & Hbk). rewrite S1 in Hbk.
      rewrite (hub_own _ Hwf _ _ _ Hk Hbk) in Ha. unfold reached in Hb.
      apply list_elem_of_filter in Hb as [_ Hb]. done.
    + rewrite D5 with (a := b) by (rewrite ?S1, ?S4; done). f_equal. apply Hother.
      intros Hak. rewrite (hub_own _ Hwf _ _ _ Hak Hk) in Ha. done.
  - intros k Hk. unfold handle_of in Hk. rewrite D6.
    + destruct (decide (hub_clients h !! a = Some k)) as [Hak|Hak]; [|by apply Hother].
      rewrite Hself by done. destruct (channel_open h k) eqn:Hopen; [|done]. exfalso. apply Hk. exists a.
      split; [|done]. unfold reached. rewrite filter_cons, decide_True; [by left|].
      unfold reachable. by rewrite Hak.
    + intros (b & Hb & Hbk). rewrite Hreached in Hb. rewrite S1 in Hbk. apply Hk. exists b. split; [|done].
      unfold reached. rewrite filter_cons. case_decide; [by right|done].
Qed.

Lemma delivery_loop signal l h n stale :
  hub_wf h -> NoDup l ->
  exists h', foldl (deliver_to signal) (h, n, stale) l
      = (h', n + Z.of_nat (length (reached h l)), (stale ++ unreachable h l)%list)
    /\ delivered_to signal l h h'.
Proof.
  revert h n stale. induction l as [|a l IH]; intros h n stale Hwf Hnd.
  { exists h. simpl. rewrite Z.add_0_r, app_nil_r. split; [done|].
    split; try done. intros a k Ha. by apply elem_of_nil in Ha. }
  apply list.NoDup_cons in Hnd as [Ha Hnd].
  set (h1 := match hub_clients h !! a with Some k => fst (send k signal h) | None => h end).
  assert (hub_clients h1 = hub_clients h /\ hub_rooms h1 = hub_rooms h
    /\ (forall j, is_Some (hub_channels h1 !! j) <-> is_Some (hub_channels h !! j))
    /\ (forall j, channel_open h1 j = channel_open h j)) as (S1 & S2 & S3 & S4).
  { subst h1. destruct (hub_clients h !! a) as [k|]; [apply send_facts|done]. }
  assert (hub_wf h1) as Hwf1.
  { destruct Hwf as [Hk Ho Hr]. split; rewrite ?S1, ?S2; [|done..]. intros b k Hb. apply S3. eauto. }
  assert (deliver_to signal (h, n, stale) a
    = (h1, n + Z.of_nat (length (reached h [a])), (stale ++ unreachable h [a])%list)) as Hstep.
  { rewrite reached_single, unreachable_single. unfold deliver_to, reachable, h1.
    destruct (hub_clients h !! a) as [k|]; simpl; [|by rewrite Z.add_0_r, app_nil_r].
    rewrite (surjective_pairing (send k signal h)), send_sent.
    destruct (channel_open h k); simpl; by rewrite ?Z.add_0_r, ?app_nil_r. }
  cbn [foldl]. rewrite Hstep.
  destruct (IH h1 (n + Z.of_nat (length (reached h [a]))) (stale ++ unreachable h [a])%list Hwf1 Hnd)
    as (h' & -> & Hd).
  exists h'. split; [|by apply (delivered_cons signal a l h h1)].
  destruct (reached_same h h1 l S1 S4) as [-> ->].
  change (a :: l) with ([a] ++ l)%list. unfold reached, unreachable.
  rewrite !list.filter_app, length_app, <- app_assoc. f_equal. f_equal. lia.
Qed.

(** ** The whole of [route] *)

Lemma drop_stale stale h :
  hub_wf h ->
  let h' := foldl (fun h a => disconnect a h) h stale in
  hub_wf h' /\ hub_channels h' = hub_channels h
  /\ (forall a, hub_clients h' !! a = if decide (a ∈ stale) then None else hub_clients h !! a)
  /\ (forall c room a, hub_rooms h' !! c = Some room -> a ∈ stale -> a ∉ room).
Proof.
  revert h. induction stale as [|b stale IH]; intros h Hwf.
  { split_and!; [done|done| |].
    - intros a. rewrite decide_False; [done|]. by intros ?%elem_of_nil.
    - intros c room a _ Ha. by apply elem_of_nil in Ha. }
  cbn [foldl]. destruct (IH (disconnect b h) (disconnect_wf b h Hwf)) as (Hw & Hch & Hcl & Hrooms).
  split_and!; [exact Hw|exact Hch| |].
  - intros a. rewrite Hcl. unfold disconnect. fields. rewrite lookup_delete.
    repeat case_decide; set_solver.
  - intros c room a Hc [->|Ha]%elem_of_cons; [|by eapply Hrooms]. clear -Hc.
    assert (forall h, (forall c room, hub_rooms h !! c = Some room -> b ∉ room) ->
      forall c room, hub_rooms (foldl (fun h a => disconnect a h) h stale) !! c = Some room -> b ∉ room) as Hkeep.
    { clear. induction stale as [|x stale IH]; intros h Hh; [exact Hh|]. cbn [foldl]. apply IH.
      intros c room (_ & room0 & H0 & ->)%disconnect_rooms. specialize (Hh _ _ H0). set_solver. }
    eapply Hkeep; [|exact Hc]. intros c0 room0 (_ & r & _ & ->)%disconnect_rooms. set_solver.
Qed.

Lemma filtered_elements (P : ActorId -> Prop) `{forall a, Decision (P a)} (X : gset ActorId) :
  length (filter P (btree_elements X)) = size (filter P X).
Proof.
  rewrite <- (size_list_to_set (C := gset ActorId)).
  - f_equal. apply set_eq. intros a.
    by rewrite elem_of_list_to_set, list_elem_of_filter, elem_of_btree_elements, elem_of_filter.
  - apply list.NoDup_filter, btree_elements_nodup.
Qed.

(** The rooms change; the clients and the channels do not. *)
Definition only_rooms (h h' : SignalingHub) : Prop :=
  hub_clients h' = hub_clients h /\ hub_channels h' = hub_channels h.

Lemma open_room_only signal h : only_rooms h (open_room signal h).
Proof. by destruct signal. Qed.
Lemma join_room_only a signal h : only_rooms h (join_room a signal h).
Proof. by destruct signal. Qed.
Lemma leave_room_only a signal h : only_rooms h (leave_room a signal h).
Proof. unfold leave_room. destruct signal; try done. by case_match. Qed.

Lemma open_room_wf signal h : hub_wf h -> hub_wf (open_room signal h).
Proof.
  intros [Hk Ho Hr]. destruct signal; try by split. split; simpl; fields; try done.
  unfold entry_or. intros c room. rewrite lookup_insert_Some. intros [[_ <-]|[_ Hc]]; [set_solver|eauto].
Qed.

Lemma join_room_wf a signal h : hub_wf h -> hub_wf (join_room a signal h).
Proof.
  intros [Hk Ho Hr]. destruct signal; try by split. split; simpl; fields; try done.
  unfold entry_or. intros c room. rewrite lookup_insert_Some. intros [[_ <-]|[_ Hc]]; [set_solver|eauto].
Qed.

Lemma leave_room_wf a signal h : hub_wf h -> hub_wf (leave_room a signal h).
Proof.
  intros [Hk Ho Hr]. destruct signal; try by split. unfold leave_room.
  destruct (hub_rooms h !! call) as [room|]; [|by split].
  destruct (Nat.ltb_spec (size (room ∖ {[a]})) 2); split; simpl; fields; try done; intros c r.
  - intros [_ Hc]%lookup_delete_Some. eauto.
  - rewrite lookup_insert_Some. intros [[_ <-]|[_ Hc]]; [|eauto]. intros Hempty.
    rewrite Hempty, size_empty in *. lia.
Qed.

Lemma delivered_wf signal l h h' : hub_wf h -> delivered_to signal l h h' -> hub_wf h'.
Proof.
  intros [Hk Ho Hr] [D1 D2 D3 D4 D5 D6]. split; rewrite ?D1, ?D2; [|done..]. intros b k Hb. apply D3. eauto.
Qed.

Lemma route_wf a signal h : hub_wf h -> hub_wf (fst (route a signal h)).
Proof.
  intros Hwf. unfold route. destruct (validate_sender a signal) as [u|err]; [|done].
  destruct (delivery_loop signal (btree_elements (signal_targets (open_room signal h) a signal))
    (join_room a signal (open_room signal h)) 0 []) as (h1 & -> & Hd);
    [by apply join_room_wf, open_room_wf|apply btree_elements_nodup|].
  apply leave_room_wf. eapply drop_stale, delivered_wf; [|exact Hd]. by apply join_room_wf, open_room_wf.
Qed.

Lemma leave_room_rooms a signal h c room :
  hub_rooms (leave_room a signal h) !! c = Some room -> exists room0, hub_rooms h !! c = Some room0 /\ room ⊆ room0.
Proof.
  unfold leave_room. destruct signal; try by eauto. destruct (hub_rooms h !! call) as [r|] eqn:Hr; [|by eauto].
  fields. destruct (_ <? _)%nat.
  - intros [_ Hc]%lookup_delete_Some. eauto.
  - intros [[<- <-]|[_ Hc]]%lookup_insert_Some; [|eauto]. exists r. split; [done|set_solver].
Qed.

(** A signal reaches exactly its targets.  In a well-formed hub, a signal
    whose declared sender is not the authenticated actor is refused and changes
    nothing.  Otherwise every target whose receiver is still there gets the
    signal once, at the end of its queue; no other queue changes; the number
    returned is the number of targets reached; exactly the targets whose receiver
    is gone are disconnected, and removed from every room; and the hub stays
    well-formed, with no empty room. *)
Theorem signal_reaches_exactly_its_targets (a : ActorId) (signal : CallSignal) (h : SignalingHub) :
  hub_wf h ->
  let targets := signal_targets (open_room signal h) a signal in
  (declared_sender signal <> a -> route a signal h = (h, Err (SenderMismatch a (declared_sender signal))))
  /\ (declared_sender signal = a -> exists h',
        route a signal h = (h', Ok (Z.of_nat (size (filter (fun t => reachable h t = true) targets))))
        /\ (forall t k, t ∈ targets -> hub_clients h !! t = Some k -> channel_open h k = true ->
              queue_of h' k = (queue_of h k ++ [signal])%list)
        /\ (forall k, (forall t, t ∈ targets -> reachable h t = true -> hub_clients h !! t <> Some k) ->
              queue_of h' k = queue_of h k)
        /\ (forall t, hub_clients h' !! t
              = if decide (t ∈ targets /\ reachable h t = false) then None else hub_clients h !! t)
        /\ (forall c room t, hub_rooms h' !! c = Some room -> t ∈ targets -> is_Some (hub_clients h !! t) ->
              reachable h t = false -> t ∉ room)
        /\ hub_wf h').
Proof.
  intros Hwf targets. unfold route, validate_sender. split; intros Hs.
  { by rewrite (proj2 (eqb_false _ _) Hs). }
  rewrite (proj2 (eqb_spec _ _) Hs). cbn [negb reject_if]. fold targets.
  set (h0 := join_room a signal (open_room signal h)).
  assert (hub_clients h0 = hub_clients h /\ hub_channels h0 = hub_channels h) as [Hc0 Hch0].
  { destruct (open_room_only signal h), (join_room_only a signal (open_room signal h)). split; unfold h0; congruence. }
  assert (hub_wf h0) as Hwf0 by by apply join_room_wf, open_room_wf.
  assert (forall j, channel_open h0 j = channel_open h j) as Ho0 by (intros; unfold channel_open; by rewrite Hch0).
  assert (forall k, queue_of h0 k = queue_of h k) as Hq0 by (intros; unfold queue_of; by rewrite Hch0).
  destruct (reached_same h h0 (btree_elements targets) Hc0 Ho0) as [Hreached Hunreachable].
  destruct (delivery_loop signal (btree_elements targets) h0 0 [] Hwf0 (btree_elements_nodup _)) as (h1 & -> & Hd).
  pose proof (delivered_wf _ _ _ _ Hwf0 Hd) as Hwf1. destruct Hd as [D1 D2 D3 D4 D5 D6].
  rewrite app_nil_l, Hreached, Hunreachable. set (stale := unreachable h (btree_elements targets)).
  destruct (drop_stale stale h1 Hwf1) as (Hwf2 & Hch2 & Hcl2 & Hrooms2).
  set (h2 := foldl _ h1 stale) in *. destruct (leave_room_only a signal h2) as [Hc3 Hch3].
  exists (leave_room a signal h2).
  assert (forall k, queue_of (leave_room a signal h2) k = queue_of h1 k) as Hq
    by (intros; unfold queue_of; by rewrite Hch3, Hch2).
  split_and!.
  - unfold reached. by rewrite filtered_elements.
  - intros t k Ht Hk Hopen. rewrite Hq, <- Hq0. apply (D5 t); [by apply elem_of_btree_elements|congruence|].
    by rewrite Ho0.
  - intros k Hk. rewrite Hq, <- Hq0. apply D6. rewrite Hreached. intros (t & Ht & Htk).
    unfold reached in Ht. apply list_elem_of_filter in Ht as [Hr Ht]. apply (Hk t); [|done|congruence].
    by apply elem_of_btree_elements.
  - intros t. rewrite Hc3, Hcl2, D1, Hc0. unfold stale, unreachable.
    destruct (hub_clients h !! t) as [k|] eqn:Hk; [|by repeat case_decide].
    apply decide_ext. rewrite list_elem_of_filter, elem_of_btree_elements, Hk. naive_solver.
  - intros c room t (room0 & H0 & Hsub)%leave_room_rooms Ht Hknown Hr Hin. apply (Hrooms2 c room0 t H0); [|set_solver].
    unfold stale, unreachable. by rewrite list_elem_of_filter, elem_of_btree_elements.
  - by apply leave_room_wf.
Qed.

(** ** Examples and the witness *)

Definition caller : ActorId := MkActorId "caller".
Definition callee : ActorId := MkActorId "callee".
Definition stranger : ActorId := MkActorId "stranger".
Definition the_call : CallId := MkCallId "call".

(** Three connected clients, of which the caller has called the callee. *)
Definition ringing_hub : SignalingHub :=
  fst (route caller (Invite the_call (MkConversationId "chat") CallVideo caller [callee])
    (fst (connect stranger (fst (connect callee (fst (connect caller empty_hub))))))).

Lemma ringing_hub_wf : hub_wf ringing_hub.
Proof. apply route_wf. repeat apply connect_wf. apply empty_hub_wf. Qed.

Lemma signal_reaches_exactly_its_targets_witness :
  exists h', route callee (Accept the_call callee) ringing_hub = (h', Ok 1)
    /\ (fun k => queue_of h' k) <$> hub_clients ringing_hub !! caller = Some [Accept the_call callee].
Proof.
  destruct (signal_reaches_exactly_its_targets callee (Accept the_call callee) ringing_hub) as [_ H];
    [exact ringing_hub_wf|].
  destruct (H eq_refl) as (h' & Heq & Hq & _). exists h'. split.
  - rewrite Heq. f_equal; vm_compute; reflexivity.
  - destruct (hub_clients ringing_hub !! caller) as [k|] eqn:Hk; [|vm_compute in Hk; discriminate Hk].
    simpl. rewrite (Hq caller k); [|vm_compute; reflexivity|exact Hk|].
    + vm_compute in Hk. injection Hk as <-. vm_compute. reflexivity.
    + vm_compute in Hk. injection Hk as <-. vm_compute. reflexivity.
Defined.

(** Accepting takes no invitation: a client who was never called joins the room
    by naming the call, and from then on gets what is broadcast there. *)
Lemma uninvited_accept_joins_call :
  let h := fst (route stranger (Accept the_call stranger) ringing_hub) in
  bool_decide (stranger ∈ default ∅ (hub_rooms ringing_hub !! the_call)) = false
  /\ bool_decide (stranger ∈ default ∅ (hub_rooms h !! the_call)) = true
  /\ bool_decide (stranger ∈ signal_targets h caller (MediaState the_call caller false true false)) = true.
Proof. vm_compute. repeat split; reflexivity. Qed.

(** ** The signalling server ([signaling_server.rs]) *)

Definition MAX_SIGNAL_FRAME_BYTES : Z := 1024 * 1024.

Inductive SignalingClientFrame :=
| SignalHello (access_token : string) (actor_id : ActorId) (device_id session_id : string)
| SignalSend (signal : CallSignal)
| SignalPing (nonce : string).

(** What the text of an error frame tells. *)
Inductive SignalCause :=
| TokenInvalid
| SignalJsonInvalid (reason : string)
| SignalRejected (error : SignalingError)
| HelloOnce.

Inductive SignalingServerFrame :=
| SignalReady (actor_id : ActorId)
| SignalDelivered (signal : CallSignal)
| SignalPong (nonce : string)
| SignalError (code : string) (cause : SignalCause).

Record CallSignalingServerConfig := {
  sc_bind_address : string;
  sc_access_registry_path : string;
  sc_max_frame_bytes : Z;
}.

Inductive CallSignalingServerError :=
| SignalInvalidConfig (why : string)
| SignalIo (error : string)
| SignalJson (error : string)
| SignalFrameTooLarge (bytes : Z)
| SignalHelloRequired
| SignalUnauthorized
| SignalInvalidActor.

Definition signaling_config_new (bind_address access_registry_path : string) : CallSignalingServerConfig :=
  {| sc_bind_address := bind_address; sc_access_registry_path := access_registry_path;
     sc_max_frame_bytes := MAX_SIGNAL_FRAME_BYTES |}.

Definition validate_signaling_config (c : CallSignalingServerConfig) : result CallSignalingServerError unit :=
  reject_if (blank (sc_bind_address c)) (SignalInvalidConfig "bind address is empty") ;;
  reject_if (is_empty (sc_access_registry_path c)) (SignalInvalidConfig "access registry path is empty") ;;
  reject_if (sc_max_frame_bytes c <? 1024) (SignalInvalidConfig "maximum frame size is too small").

(** *** Lines *)

(** What the reads of the stream answer; after the last of them, or an empty one, the
    stream has ended.  A buffer that is partly consumed is what the next read answers. *)
Notation StreamReads := (list (result string (list ascii))).
Notation size_of l := (Z.of_nat (length l)).

Definition LINE_FEED : ascii := "010"%char.
Definition CARRIAGE_RETURN : ascii := "013"%char.

(** [buffer.iter().position(|byte| *byte == b'\n')] *)
Fixpoint newline_at (l : list ascii) : option nat :=
  match l with
  | [] => None
  | a :: l => if eqb a LINE_FEED then Some O else S <$> newline_at l
  end.

(** [consume] *)
Definition unread (rest : list ascii) (reads : StreamReads) : StreamReads :=
  match rest with [] => reads | _ => Ok rest :: reads end.

(** [if output.last() == Some(&b'\r') { output.pop(); }] *)
Definition drop_return (output : list ascii) : list ascii :=
  if bool_decide (list.last output = Some CARRIAGE_RETURN) then take (length output - 1) output else output.

Fixpoint drain_until_newline (reads : StreamReads) : StreamReads * result string unit :=
  match reads with
  | [] => ([], Ok tt)
  | Err e :: reads => (reads, Err e)
  | Ok [] :: reads => (reads, Ok tt)
  | Ok buffer :: reads =>
      match newline_at buffer with
      | Some position => (unread (drop (S position) buffer) reads, Ok tt)
      | None => drain_until_newline reads
      end
  end.

(** The loop of [read_line_limited]. *)
Fixpoint read_line_loop (max_frame_bytes : Z) (output : list ascii) (reads : StreamReads) :
    StreamReads * result CallSignalingServerError (option (list ascii)) :=
  let ended := Ok (match output with [] => None | _ => Some output end) in
  match reads with
  | [] => ([], ended)
  | Err e :: reads => (reads, Err (SignalIo e))
  | Ok [] :: reads => (reads, ended)
  | Ok buffer :: reads =>
      match newline_at buffer with
      | Some position =>
          (unread (drop (S position) buffer) reads,
           if max_frame_bytes <? size_of output + Z.of_nat position then Err (SignalFrameTooLarge max_frame_bytes)
           else Ok (Some (drop_return (output ++ take position buffer))))
      | None =>
          if max_frame_bytes <? size_of output + size_of buffer then
            let '(reads, drained) := drain_until_newline reads in
            (reads, match drained with Ok _ => Err (SignalFrameTooLarge max_frame_bytes) | Err e => Err (SignalIo e) end)
          else read_line_loop max_frame_bytes (output ++ buffer) reads
      end
  end.

Definition read_line_limited (max_frame_bytes : Z) (reads : StreamReads) :
    StreamReads * result CallSignalingServerError (option (list ascii)) := read_line_loop max_frame_bytes [] reads.

(** *** A connection *)

Inductive SignalPhase :=
| Greeting
| Serving (actor_id : ActorId)
| Ended (outcome : result CallSignalingServerError unit).

(** The stream, what was written to it and which writes fail; the phase of the
    connection's thread, and the channel that its writer thread reads, if it runs. *)
Record SignalConnection := {
  sn_reads : StreamReads;
  sn_sent : list SignalingServerFrame;
  sn_write_faults : nat -> option string;
  sn_writes : nat;
  sn_phase : SignalPhase;
  sn_writer : option nat;
}.
#[export] Instance eta_SignalConnection : Eta SignalConnection := fun c =>
  Build_SignalConnection (sn_reads c) (sn_sent c) (sn_write_faults c) (sn_writes c) (sn_phase c) (sn_writer c).

Definition accepted_connection (reads : StreamReads) (faults : nat -> option string) : SignalConnection :=
  {| sn_reads := reads; sn_sent := []; sn_write_faults := faults; sn_writes := 0; sn_phase := Greeting; sn_writer := None |}.

(** [write_server_frame] *)
Definition write_server_frame (frame : SignalingServerFrame) (c : SignalConnection) :
    SignalConnection * result CallSignalingServerError unit :=
  let c' := c ⟪ sn_writes ::= S ⟫ in
  match sn_write_faults c (sn_writes c) with
  | Some e => (c', Err (SignalIo e))
  | None => (c' ⟪ sn_sent ::= fun l => (l ++ [frame])%list ⟫, Ok tt)
  end.

(** The [?] after a write: the thread goes on, or ends with the error. *)
Definition write_or_end (frame : SignalingServerFrame) (c : SignalConnection) : SignalConnection :=
  match write_server_frame frame c with
  | (c, Ok _) => c
  | (c, Err e) => c ⟪ sn_phase := Ended (Err e) ⟫
  end.

(** [serde_json::from_slice] on the frames of clients. *)
Class SignalCodec := { signal_of_json : list ascii -> result string SignalingClientFrame }.

Section signaling_server.
Context `{TokenCrypto, SignalCodec}.

(** Whether the token allows calls: the registry is the one the file holds. *)
Definition call_access (registry : result string AccessTokenRegistry) (access_token : string) (actor_id : ActorId)
    (device_id session_id : string) (now_ms : Z) : bool :=
  match registry with
  | Ok registry => is_ok (authorize registry (bytes_of access_token) actor_id device_id session_id Calls now_ms)
  | Err _ => false
  end.

(** [handle_connection] up to the writer thread: the first line, the token, the answer.
    The receiver of the subscription goes with the connection when the answer fails.
    The registration with the hub stays then, as the source returns before
    [disconnect]. *)
Definition greet (registry : result string AccessTokenRegistry) (now_ms max_frame_bytes : Z) (h : SignalingHub)
    (c : SignalConnection) : SignalingHub * SignalConnection :=
  let '(reads, line) := read_line_limited max_frame_bytes (sn_reads c) in
  let c := c ⟪ sn_reads := reads ⟫ in
  let ends e := (h, c ⟪ sn_phase := Ended (Err e) ⟫) in
  match line with
  | Err e => ends e
  | Ok None => ends SignalHelloRequired
  | Ok (Some line) =>
      match signal_of_json line with
      | Err e => ends (SignalJson e)
      | Ok (SignalHello access_token actor_id device_id session_id) =>
          if negb (actor_id_is_valid actor_id) then ends SignalInvalidActor
          else if negb (call_access registry access_token actor_id device_id session_id now_ms) then
            match write_server_frame (SignalError "unauthorized" TokenInvalid) c with
            | (c, Ok _) => (h, c ⟪ sn_phase := Ended (Err SignalUnauthorized) ⟫)
            | (c, Err e) => (h, c ⟪ sn_phase := Ended (Err e) ⟫)
            end
          else
            let '(h, handle) := connect actor_id h in
            match write_server_frame (SignalReady actor_id) c with
            | (c, Ok _) => (h, c ⟪ sn_phase := Serving actor_id ⟫ ⟪ sn_writer := Some handle ⟫)
            | (c, Err e) => (drop_receiver handle h, c ⟪ sn_phase := Ended (Err e) ⟫)
            end
      | Ok _ => ends SignalHelloRequired
      end
  end.

(** One round of the loop of [handle_connection]. *)
Definition serve_line (max_frame_bytes : Z) (actor_id : ActorId) (h : SignalingHub) (c : SignalConnection) :
    SignalingHub * SignalConnection :=
  let '(reads, line) := read_line_limited max_frame_bytes (sn_reads c) in
  let c := c ⟪ sn_reads := reads ⟫ in
  match line with
  | Err e => (h, c ⟪ sn_phase := Ended (Err e) ⟫)
  | Ok None => (disconnect actor_id h, c ⟪ sn_phase := Ended (Ok tt) ⟫)
  | Ok (Some []) => (h, c)
  | Ok (Some line) =>
      match signal_of_json line with
      | Err reason => (h, write_or_end (SignalError "invalid_json" (SignalJsonInvalid reason)) c)
      | Ok (SignalSend signal) =>
          let '(h, routed) := route actor_id signal h in
          (h, match routed with
              | Err error => write_or_end (SignalError "signal_rejected" (SignalRejected error)) c
              | Ok _ => c
              end)
      | Ok (SignalPing nonce) => (h, write_or_end (SignalPong nonce) c)
      | Ok (SignalHello _ _ _ _) => (h, write_or_end (SignalError "already_authenticated" HelloOnce) c)
      end
  end.

(** One round of the writer thread: the next signal of its channel is written.  It
    ends when a write fails, or when nobody can send to it and nothing is left. *)
Definition channel_has_sender (handle : nat) (h : SignalingHub) : bool :=
  bool_decide (map_Exists (fun _ k => k = handle) (hub_clients h)).

Definition deliver_next (h : SignalingHub) (c : SignalConnection) : SignalingHub * SignalConnection :=
  match sn_writer c with
  | None => (h, c)
  | Some handle =>
      match ch_queue <$> hub_channels h !! handle with
      | Some (signal :: queue) =>
          let h := h ⟪ hub_channels ::= alter (fun ch => ch ⟪ ch_queue := queue ⟫) handle ⟫ in
          match write_server_frame (SignalDelivered signal) c with
          | (c, Ok _) => (h, c)
          | (c, Err _) => (drop_receiver handle h, c ⟪ sn_writer := None ⟫)
          end
      | _ => if channel_has_sender handle h then (h, c) else (drop_receiver handle h, c ⟪ sn_writer := None ⟫)
      end
  end.

(** *** Connections side by side *)

Record SignalServer := { sv_hub : SignalingHub; sv_connections : list SignalConnection }.

Inductive SignalMove :=
| SignalAccept (reads : StreamReads) (faults : nat -> option string)
| SignalStep (connection : nat) (registry : result string AccessTokenRegistry) (now_ms : Z)
| SignalDeliver (connection : nat).

Definition on_connection (i : nat) (f : SignalingHub -> SignalConnection -> SignalingHub * SignalConnection) (s : SignalServer) :
    SignalServer :=
  match sv_connections s !! i with
  | None => s
  | Some c => let '(h, c) := f (sv_hub s) c in {| sv_hub := h; sv_connections := <[i := c]> (sv_connections s) |}
  end.

(** A connection arrives, its thread goes on by a line, or its writer by a signal. *)
Definition signal_move (max_frame_bytes : Z) (s : SignalServer) (m : SignalMove) : SignalServer :=
  match m with
  | SignalAccept reads faults =>
      {| sv_hub := sv_hub s; sv_connections := (sv_connections s ++ [accepted_connection reads faults])%list |}
  | SignalStep i registry now_ms =>
      on_connection i (fun h c =>
        match sn_phase c with
        | Greeting => greet registry now_ms max_frame_bytes h c
        | Serving actor_id => serve_line max_frame_bytes actor_id h c
        | Ended _ => (h, c)
        end) s
  | SignalDeliver i => on_connection i deliver_next s
  end.

Definition signal_server_new : SignalServer := {| sv_hub := empty_hub; sv_connections := [] |}.
Definition signal_run (max_frame_bytes : Z) (moves : list SignalMove) : SignalServer :=
  foldl (signal_move max_frame_bytes) signal_server_new moves.
End signaling_server.

(** ** Lines are read whatever the chunks *)

(** The next line of a stream, and what comes after it. *)
Definition line_of (max_frame_bytes : Z) (stream : list ascii) : list ascii * result CallSignalingServerError (option (list ascii)) :=
  match newline_at stream with
  | Some position =>
      (drop (S position) stream,
       if max_frame_bytes <? Z.of_nat position then Err (SignalFrameTooLarge max_frame_bytes)
       else Ok (Some (drop_return (take position stream))))
  | None =>
      ([], if max_frame_bytes <? size_of stream then Err (SignalFrameTooLarge max_frame_bytes)
           else Ok (match stream with [] => None | _ => Some stream end))
  end.

Definition chunks_of (chunks : list (list ascii)) : StreamReads := Ok <$> chunks.

Lemma chunks_of_cons (chunk : list ascii) (chunks : list (list ascii)) : chunks_of (chunk :: chunks) = Ok chunk :: chunks_of chunks.
Proof. done. Qed.

Lemma newline_at_app (l k : list ascii) :
  newline_at (l ++ k) = match newline_at l with Some p => Some p | None => (fun p => length l + p)%nat <$> newline_at k end.
Proof.
  induction l as [|a l IH]; cbn [app newline_at length]; [by destruct (newline_at k)|].
  destruct (eqb a LINE_FEED); [done|]. rewrite IH. destruct (newline_at l); [done|]. by destruct (newline_at k).
Qed.

Lemma newline_at_lt (l : list ascii) (p : nat) : newline_at l = Some p -> (p < length l)%nat.
Proof.
  revert p. induction l as [|a l IH]; intros p; cbn [newline_at length]; [done|]. destruct (eqb a LINE_FEED); [intros [= <-]; lia|].
  destruct (newline_at l) as [q|]; [|done]. intros [= <-]. specialize (IH q eq_refl). lia.
Qed.

Definition chunked (reads : StreamReads) (stream : list ascii) : Prop :=
  exists chunks, reads = chunks_of chunks /\ Forall (fun chunk => chunk <> []) chunks /\ concat chunks = stream.

Lemma unread_chunked (rest : list ascii) (chunks : list (list ascii)) :
  Forall (fun chunk => chunk <> []) chunks -> chunked (unread rest (chunks_of chunks)) (rest ++ concat chunks).
Proof.
  intros Hne. unfold chunked. destruct rest as [|a rest]; [by exists chunks|]. exists ((a :: rest) :: chunks).
  split; [done|]. split; [by constructor|done].
Qed.

(** What is left after a newline in a stream whose first chunk has it, or has not. *)
Lemma drain_chunks (chunks : list (list ascii)) :
  Forall (fun chunk => chunk <> []) chunks ->
  exists reads, drain_until_newline (chunks_of chunks) = (reads, Ok tt)
    /\ chunked reads (match newline_at (concat chunks) with Some p => drop (S p) (concat chunks) | None => [] end).
Proof.
  induction 1 as [|chunk chunks Hne Hall IH]; [by exists []; split; [|exists []]|].
  rewrite chunks_of_cons. cbn [drain_until_newline concat]. destruct chunk as [|a chunk]; [done|]. set (l := a :: chunk) in *. rewrite newline_at_app.
  destruct (newline_at l) as [p|] eqn:Hp.
  - eexists. split; [reflexivity|]. pose proof (newline_at_lt _ _ Hp). rewrite drop_app_le by lia. by apply unread_chunked.
  - destruct IH as (reads & Hd & Hc). exists reads. split; [exact Hd|]. destruct (newline_at (concat chunks)) as [p|]; cbn [fmap option_fmap option_map].
    + replace (S (length l + p)) with (length l + S p)%nat by lia. by rewrite drop_app_add.
    + exact Hc.
Qed.

Lemma read_line_chunks (max_frame_bytes : Z) (chunks : list (list ascii)) (output : list ascii) :
  Forall (fun chunk => chunk <> []) chunks -> newline_at output = None -> size_of output <= max_frame_bytes ->
  exists reads r, read_line_loop max_frame_bytes output (chunks_of chunks) = (reads, r)
    /\ r = (line_of max_frame_bytes (output ++ concat chunks)).2
    /\ chunked reads (line_of max_frame_bytes (output ++ concat chunks)).1.
Proof.
  intros Hall. revert output. induction Hall as [|chunk chunks Hne Hall IH]; intros output Hout Hmax.
  { cbn [concat]. rewrite app_nil_r. unfold line_of. rewrite Hout, (proj2 (Z.ltb_ge _ _)) by done. exists [], (Ok (match output with [] => None | _ => Some output end)).
    split; [by destruct output|]. split; [by destruct output|by exists []]. }
  rewrite chunks_of_cons. cbn [read_line_loop concat]. destruct chunk as [|a chunk]; [done|]. set (l := a :: chunk) in *. rewrite app_assoc. destruct (newline_at l) as [p|] eqn:Hp.
  - pose proof (newline_at_lt _ _ Hp) as Hlt. unfold line_of.
    rewrite newline_at_app, newline_at_app, Hout, Hp. cbn [fmap option_fmap option_map fst snd].
    eexists _, _. split; [reflexivity|]. split.
    + replace (Z.of_nat (length output + p)) with (size_of output + Z.of_nat p) by lia.
      by rewrite take_app_le, take_app_add by (rewrite length_app; lia).
    + replace (S (length output + p)) with (length output + S p)%nat by lia.
      rewrite <- app_assoc, drop_app_add, drop_app_le by lia. by apply unread_chunked.
  - destruct (Z.ltb_spec max_frame_bytes (size_of output + size_of l)) as [Hbig|Hsmall].
    + destruct (drain_chunks chunks Hall) as (reads & Hd & Hc). rewrite Hd. exists reads, (Err (SignalFrameTooLarge max_frame_bytes)).
      split; [reflexivity|]. unfold line_of. rewrite newline_at_app, newline_at_app, Hout, Hp. cbn [fmap option_fmap option_map].
      destruct (newline_at (concat chunks)) as [p|]; cbn [fmap option_fmap option_map fst snd].
      * rewrite (proj2 (Z.ltb_lt _ _)) by (rewrite length_app; lia). split; [done|].
        replace (S (length (output ++ l) + p)) with (length (output ++ l) + S p)%nat by lia. by rewrite drop_app_add.
      * rewrite (proj2 (Z.ltb_lt _ _)) by (rewrite !length_app; lia). done.
    + apply IH; [by rewrite newline_at_app, Hout, Hp|rewrite length_app; lia].
Qed.

(** The first lines of a connection, and of a stream. *)
Fixpoint lines_read (max_frame_bytes : Z) (n : nat) (reads : StreamReads) : list (result CallSignalingServerError (option (list ascii))) :=
  match n with
  | O => []
  | S n => let '(reads, line) := read_line_limited max_frame_bytes reads in line :: lines_read max_frame_bytes n reads
  end.

Fixpoint lines_of (max_frame_bytes : Z) (n : nat) (stream : list ascii) : list (result CallSignalingServerError (option (list ascii))) :=
  match n with
  | O => []
  | S n => let '(stream, line) := line_of max_frame_bytes stream in line :: lines_of max_frame_bytes n stream
  end.

Lemma line_bounded (max_frame_bytes : Z) (stream line : list ascii) :
  (line_of max_frame_bytes stream).2 = Ok (Some line) -> size_of line <= max_frame_bytes.
Proof.
  unfold line_of. destruct (newline_at stream) as [p|] eqn:Hp; cbn [snd].
  - destruct (Z.ltb_spec max_frame_bytes (Z.of_nat p)); [done|]. intros [= <-]. unfold drop_return.
    destruct (bool_decide _); rewrite ?length_take; lia.
  - destruct (Z.ltb_spec max_frame_bytes (size_of stream)); [done|]. by destruct stream; intros [= <-].
Qed.

(** C36: however the stream arrives in chunks, the lines that a connection reads are
    those of the stream: each ends at its newline, loses one return, and is refused
    if it is longer than a frame may be - the lines after it are read all the same;
    no line that is read is longer. *)
Theorem lines_are_read_whatever_the_chunks (max_frame_bytes : Z) (n : nat) (chunks : list (list ascii)) :
  0 <= max_frame_bytes -> Forall (fun chunk => chunk <> []) chunks ->
  lines_read max_frame_bytes n (chunks_of chunks) = lines_of max_frame_bytes n (concat chunks)
  /\ Forall (fun line => match line with Ok (Some l) => size_of l <= max_frame_bytes | _ => True end)
       (lines_read max_frame_bytes n (chunks_of chunks)).
Proof.
  intros Hmax. revert chunks. induction n as [|n IH]; intros chunks Hall; [by split|]. cbn [lines_read lines_of].
  destruct (read_line_chunks max_frame_bytes chunks [] Hall eq_refl Hmax) as (reads & r & Hread & Hr & cs & -> & Hcs & Hrest).
  unfold read_line_limited. rewrite Hread. cbn [app] in Hr, Hrest. pose proof (line_bounded max_frame_bytes (concat chunks)) as Hb.
  destruct (line_of max_frame_bytes (concat chunks)) as [rest line]. cbn [fst snd] in *. subst r rest.
  destruct (IH cs Hcs) as [-> Hbound]. split; [done|]. constructor; [|exact Hbound].
  destruct line as [[l|]|e]; [by apply Hb|done|done].
Qed.

(** A small frame limit, a line that is too long across three chunks, and two more. *)
Definition chunked_stream : list (list ascii) :=
  [bytes_of "hel"; bytes_of "lo world, "; (bytes_of "all" ++ [LINE_FEED] ++ bytes_of "ok" ++ [CARRIAGE_RETURN])%list;
   (LINE_FEED :: bytes_of "end")%list].

Lemma lines_are_read_whatever_the_chunks_witness :
  lines_read 8 4 (chunks_of chunked_stream)
  = [Err (SignalFrameTooLarge 8); Ok (Some (bytes_of "ok")); Ok (Some (bytes_of "end")); Ok None].
Proof.
  destruct (lines_are_read_whatever_the_chunks 8 4 chunked_stream) as [-> _]; [lia| |reflexivity].
  repeat constructor; discriminate.
Defined.

(** ** Signals carry their sender *)

Section senders.
Context `{TokenCrypto, SignalCodec}.

(** The streams of the connections, in the order in which they were accepted. *)
Definition accepted_stream (m : SignalMove) : option StreamReads :=
  match m with SignalAccept reads _ => Some reads | _ => None end.
Definition streams_of (moves : list SignalMove) : list StreamReads := omap accepted_stream moves.

(** What is left of a stream after [n] lines, and the line that comes then. *)
Definition rest_after (max_frame_bytes : Z) (n : nat) (reads : StreamReads) : StreamReads :=
  Nat.iter n (fun reads => (read_line_limited max_frame_bytes reads).1) reads.
Definition nth_line (max_frame_bytes : Z) (n : nat) (reads : StreamReads) : result CallSignalingServerError (option (list ascii)) :=
  (read_line_limited max_frame_bytes (rest_after max_frame_bytes n reads)).2.

(** The first line of the stream is a hello as [a], and its token allows calls to
    that actor, from that device and session, in the registry at that time. *)
Definition hello_accepted (max_frame_bytes : Z) (registry : AccessTokenRegistry) (now_ms : Z) (reads : StreamReads)
    (a : ActorId) : Prop :=
  exists line access_token device_id session_id,
    nth_line max_frame_bytes 0 reads = Ok (Some line)
    /\ signal_of_json line = Ok (SignalHello access_token a device_id session_id)
    /\ is_ok (authorize registry (bytes_of access_token) a device_id session_id Calls now_ms) = true.

(** The connection [j] was greeted as [a]: its first step found such a hello. *)
Definition greeted_as (max_frame_bytes : Z) (moves : list SignalMove) (j : nat) (reads : StreamReads) (a : ActorId) : Prop :=
  exists before registry now_ms after c,
    moves = (before ++ SignalStep j (Ok registry) now_ms :: after)%list
    /\ sv_connections (signal_run max_frame_bytes before) !! j = Some c /\ sn_phase c = Greeting
    /\ hello_accepted max_frame_bytes registry now_ms reads a.

(** A connection that was greeted as the signal's sender has it in a later line. *)
Definition spoken (max_frame_bytes : Z) (moves : list SignalMove) (signal : CallSignal) : Prop :=
  exists j reads n line,
    streams_of moves !! j = Some reads
    /\ greeted_as max_frame_bytes moves j reads (declared_sender signal)
    /\ nth_line max_frame_bytes (S n) reads = Ok (Some line) /\ signal_of_json line = Ok (SignalSend signal).

Definition queued (h : SignalingHub) (signal : CallSignal) : Prop := exists k, signal ∈ queue_of h k.

Lemma queue_of_channels (h h' : SignalingHub) : hub_channels h' = hub_channels h -> forall k, queue_of h' k = queue_of h k.
Proof. intros Hc k. unfold queue_of. by rewrite Hc. Qed.

Lemma deliver_to_queued (signal s : CallSignal) (l : list ActorId) (h h' : SignalingHub) (n n' : Z) (stale stale' : list ActorId) :
  foldl (deliver_to signal) (h, n, stale) l = (h', n', stale') -> queued h' s -> queued h s \/ s = signal.
Proof.
  revert h n stale. induction l as [|a l IH]; intros h n stale; cbn [foldl]; [by intros [= -> _ _]; left|].
  unfold deliver_to at 2. destruct (hub_clients h !! a) as [k|]; [|apply IH].
  pose proof (send_queue k signal h) as Hq. destruct (send k signal h) as [h1 sent]. cbn [fst] in Hq.
  assert (Hback : queued h1 s -> queued h s \/ s = signal).
  { intros [j Hj]. rewrite Hq in Hj. destruct (decide _); [|left; by exists j].
    apply elem_of_app in Hj as [Hj| ->%list_elem_of_singleton]; [left; by exists j|by right]. }
  destruct sent; intros Hf Hs; destruct (IH _ _ _ Hf Hs); auto.
Qed.

Lemma disconnect_all_channels (stale : list ActorId) (h : SignalingHub) :
  hub_channels (foldl (fun h actor_id => disconnect actor_id h) h stale) = hub_channels h.
Proof. revert h. induction stale as [|a stale IH]; intros h; cbn [foldl]; [done|]. by rewrite IH. Qed.

Lemma route_queued (a : ActorId) (signal s : CallSignal) (h : SignalingHub) :
  queued (route a signal h).1 s -> queued h s \/ (s = signal /\ declared_sender signal = a).
Proof.
  unfold route, validate_sender. destruct (eqb (declared_sender signal) a) eqn:Hs; cbn [negb reject_if fst]; [|by left].
  apply (proj1 (eqb_spec _ _)) in Hs. destruct (foldl _ _ _) as [[h1 n] stale] eqn:Hf. cbn [fst]. intros [k Hk].
  destruct (leave_room_only a signal (foldl (fun h actor_id => disconnect actor_id h) h1 stale)) as [_ Hc].
  rewrite (queue_of_channels _ _ Hc), (queue_of_channels _ _ (disconnect_all_channels stale h1)) in Hk.
  destruct (deliver_to_queued _ s _ _ _ _ _ _ _ Hf (ex_intro _ k Hk)) as [[j Hj]|Heq]; [left; exists j|right; split; [exact Heq|exact Hs]].
  destruct (join_room_only a signal (open_room signal h)) as [_ Hj1]. destruct (open_room_only signal h) as [_ Hj2].
  by rewrite (queue_of_channels _ _ Hj1), (queue_of_channels _ _ Hj2) in Hj.
Qed.

Lemma drop_receiver_queued (k : nat) (h : SignalingHub) (s : CallSignal) : queued (drop_receiver k h) s -> queued h s.
Proof.
  intros [j Hj]. exists j. unfold queue_of, drop_receiver in *. fields. rewrite lookup_alter in Hj. case_decide; [subst|done].
  by destruct (hub_channels h !! j).
Qed.

Lemma connect_queued (a : ActorId) (h : SignalingHub) (s : CallSignal) : queued (connect a h).1 s -> queued h s.
Proof.
  intros [j Hj]. exists j. unfold queue_of, connect, new_channel in *. cbn [fst] in Hj. fields.
  destruct (decide (fresh (dom (hub_channels h)) = j)) as [Heq|Hne].
  - rewrite Heq, lookup_insert_eq in Hj. by apply elem_of_nil in Hj.
  - by rewrite lookup_insert_ne in Hj.
Qed.

(** The parts of a step: what it does to the queues and to what is sent. *)
Definition sound_step (P : CallSignal -> Prop) (h h' : SignalingHub) (c c' : SignalConnection) : Prop :=
  (forall s, queued h' s -> queued h s \/ P s)
  /\ (forall s, SignalDelivered s ∈ sn_sent c' -> SignalDelivered s ∈ sn_sent c \/ queued h s).

Lemma write_facts (frame : SignalingServerFrame) (c c' : SignalConnection) (r : result CallSignalingServerError unit) :
  write_server_frame frame c = (c', r) -> sn_phase c' = sn_phase c /\ sn_reads c' = sn_reads c.
Proof. unfold write_server_frame. by destruct (sn_write_faults c _); intros [= <- _]. Qed.

Lemma write_sent (frame : SignalingServerFrame) (c c' : SignalConnection) (r : result CallSignalingServerError unit) (s : CallSignal) :
  write_server_frame frame c = (c', r) -> SignalDelivered s ∈ sn_sent c' -> SignalDelivered s ∈ sn_sent c \/ frame = SignalDelivered s.
Proof.
  unfold write_server_frame. destruct (sn_write_faults c _); intros [= <- _]; fields; [by left|].
  intros [Hs|Hs%list_elem_of_singleton]%elem_of_app; [by left|by right].
Qed.

(** A thread reads a line: its stream moves on, and it goes on serving or ends. *)
Definition reads_line (max_frame_bytes : Z) (a : ActorId) (c c' : SignalConnection) : Prop :=
  sn_reads c' = (read_line_limited max_frame_bytes (sn_reads c)).1
  /\ (sn_phase c' = Serving a \/ exists outcome, sn_phase c' = Ended outcome).

(** A step that writes a frame other than a signal. *)
Lemma write_or_end_sound (P : CallSignal -> Prop) (frame : SignalingServerFrame) (h h' : SignalingHub) (c : SignalConnection) (reads : StreamReads) :
  (forall s, frame <> SignalDelivered s) -> (forall s, queued h' s -> queued h s \/ P s) ->
  sound_step P h h' c (write_or_end frame (c ⟪ sn_reads := reads ⟫)).
Proof.
  intros Hframe Hq. unfold write_or_end. destruct (write_server_frame _ _) as [c' [u|e]] eqn:Hw; (split; [exact Hq|]);
    intros s Hs; left; by destruct (write_sent _ _ _ _ s Hw Hs) as [|Heq%Hframe].
Qed.

Lemma write_or_end_reads (frame : SignalingServerFrame) (a : ActorId) (c : SignalConnection) (reads : StreamReads) :
  sn_phase c = Serving a ->
  let c' := write_or_end frame (c ⟪ sn_reads := reads ⟫) in
  sn_reads c' = reads /\ (sn_phase c' = Serving a \/ exists outcome, sn_phase c' = Ended outcome).
Proof.
  intros Hp. unfold write_or_end. destruct (write_server_frame _ _) as [c' [u|e]] eqn:Hw;
    apply write_facts in Hw as [Hph Hr]; revert Hph Hr; fields; intros Hph ->; (split; [done|]); [left; congruence|right; by eexists].
Qed.

(** A step that writes nothing. *)
Lemma quiet_sound (P : CallSignal -> Prop) (h h' : SignalingHub) (c c' : SignalConnection) :
  (forall s, queued h' s -> queued h s \/ P s) -> sn_sent c' = sn_sent c -> sound_step P h h' c c'.
Proof. intros Hq Hs. split; [exact Hq|]. rewrite Hs. by left. Qed.

(** The greeting queues nothing, and serves only an actor whose hello was accepted. *)
Lemma greet_sound (registry : result string AccessTokenRegistry) (now_ms max_frame_bytes : Z) (h : SignalingHub)
    (c : SignalConnection) :
  let '(h', c') := greet registry now_ms max_frame_bytes h c in
  sound_step (fun _ => False) h h' c c'
  /\ ((exists outcome, sn_phase c' = Ended outcome)
      \/ exists a r, sn_phase c' = Serving a /\ sn_reads c' = (read_line_limited max_frame_bytes (sn_reads c)).1
                    /\ registry = Ok r /\ hello_accepted max_frame_bytes r now_ms (sn_reads c) a).
Proof.
  unfold greet. pose proof (eq_refl : nth_line max_frame_bytes 0 (sn_reads c) = (read_line_limited max_frame_bytes (sn_reads c)).2) as Hnth.
  destruct (read_line_limited max_frame_bytes (sn_reads c)) as [reads line]. cbv zeta. cbn [fst snd] in *.
  assert (Hends : forall e, sound_step (fun _ => False) h h c (c ⟪ sn_reads := reads ⟫ ⟪ sn_phase := Ended e ⟫))
    by (intros e; by apply quiet_sound; [auto|fields]).
  destruct line as [[line|]|e]; [|by split; [apply Hends|left; eexists]..].
  destruct (signal_of_json line) as [[token a device session|signal|nonce]|e] eqn:Hline; [|by split; [apply Hends|left; eexists]..].
  destruct (negb (actor_id_is_valid a)); [by split; [apply Hends|left; eexists]|].
  destruct (call_access registry token a device session now_ms) eqn:Haccess; cbn [negb].
  - pose proof (connect_queued a h) as Hq. destruct (connect a h) as [h1 handle]. cbn [fst] in Hq.
    destruct (write_server_frame _ _) as [c' [u|e]] eqn:Hw; (split; [split; fields|]).
    + auto.
    + intros s Hs. by destruct (write_sent _ _ _ _ s Hw Hs); [left|].
    + right. destruct registry as [r|e]; [|done]. exists a, r. fields. split_and!; [done| |done|].
      * destruct (write_facts _ _ _ _ Hw) as [_ ->]. by fields.
      * exists line, token, device, session. split; [exact Hnth|]. split; [exact Hline|exact Haccess].
    + intros s Hs%drop_receiver_queued. auto.
    + intros s Hs. by destruct (write_sent _ _ _ _ s Hw Hs); [left|].
    + left. by eexists.
  - destruct (write_server_frame _ _) as [c' [u|e]] eqn:Hw; (split; [split; fields; auto|left; by eexists]);
      intros s Hs; by destruct (write_sent _ _ _ _ s Hw Hs); [left|].
Qed.

(** A served line queues at most the signal it holds, from the actor it is served for. *)
Lemma serve_line_sound (max_frame_bytes : Z) (a : ActorId) (h : SignalingHub) (c : SignalConnection) :
  sn_phase c = Serving a ->
  let '(h', c') := serve_line max_frame_bytes a h c in
  sound_step (fun s => declared_sender s = a /\ exists line,
      nth_line max_frame_bytes 0 (sn_reads c) = Ok (Some line) /\ signal_of_json line = Ok (SignalSend s)) h h' c c'
  /\ reads_line max_frame_bytes a c c'.
Proof.
  intros Hp. unfold serve_line, reads_line.
  pose proof (eq_refl : nth_line max_frame_bytes 0 (sn_reads c) = (read_line_limited max_frame_bytes (sn_reads c)).2) as Hnth.
  destruct (read_line_limited max_frame_bytes (sn_reads c)) as [reads line]. cbv zeta. cbn [fst snd] in *. rewrite Hnth.
  pose proof (fun frame => write_or_end_reads frame a c reads Hp) as Hwrite.
  destruct line as [[[|b line]|]|e]; try (split; [by apply quiet_sound; auto|]; fields; eauto).
  destruct (signal_of_json (b :: line)) as [[token actor device session|signal|nonce]|e] eqn:Hline;
    try (by split; [apply write_or_end_sound; auto|apply Hwrite]).
  pose proof (fun s => route_queued a signal s h) as Hr. destruct (route a signal h) as [h' routed]. cbn [fst] in Hr.
  assert (Hq : forall s, queued h' s -> queued h s \/ (declared_sender s = a /\ exists line0,
                 Ok (Some (b :: line)) = Ok (E := CallSignalingServerError) (Some line0) /\ signal_of_json line0 = Ok (SignalSend s)))
    by (intros s Hs; destruct (Hr s Hs) as [|[-> Hsender]]; eauto 6).
  destruct routed; [split; [by apply quiet_sound|fields; auto]|split; [by apply write_or_end_sound|apply Hwrite]].
Qed.

Lemma deliver_next_sound (h : SignalingHub) (c : SignalConnection) :
  let '(h', c') := deliver_next h c in
  sound_step (fun _ => False) h h' c c' /\ sn_phase c' = sn_phase c /\ sn_reads c' = sn_reads c.
Proof.
  unfold deliver_next. destruct (sn_writer c) as [handle|]; [|by split; [apply quiet_sound; auto|]].
  destruct (hub_channels h !! handle) as [[[|signal queue] open]|] eqn:Hch; cbn [fmap option_fmap option_map ch_queue].
  1,3: destruct (channel_has_sender handle h); (split; [apply quiet_sound; auto; intros s Hs%drop_receiver_queued; auto|done]).
  set (h' := h ⟪ hub_channels ::= alter (fun ch => ch ⟪ ch_queue := queue ⟫) handle ⟫).
  assert (Hq : forall s, queued h' s -> queued h s).
  { intros s [j Hj]. exists j. unfold queue_of, h' in *. fields. rewrite lookup_alter in Hj. case_decide; [subst j|done].
    rewrite Hch in *. cbn in *. set_solver. }
  assert (Hsignal : queued h signal) by (exists handle; unfold queue_of; rewrite Hch; cbn; set_solver).
  destruct (write_server_frame _ _) as [c' [u|e]] eqn:Hw; (split; [split; fields; auto|by apply (write_facts _ _ _ _ Hw)]).
  - intros s Hs. destruct (write_sent _ _ _ _ s Hw Hs) as [|[= <-]]; auto.
  - intros s Hs%drop_receiver_queued. auto.
  - intros s Hs. destruct (write_sent _ _ _ _ s Hw Hs) as [|[= <-]]; auto.
Qed.

(** ** The invariant *)

Section run.
Context (max_frame_bytes : Z).

(** Where a connection is in its stream, and whom it serves. *)
Definition phase_known (moves : list SignalMove) (j : nat) (reads : StreamReads) (c : SignalConnection) : Prop :=
  match sn_phase c with
  | Greeting => sn_reads c = reads
  | Serving a => (exists n, sn_reads c = rest_after max_frame_bytes (S n) reads) /\ greeted_as max_frame_bytes moves j reads a
  | Ended _ => True
  end.

Record all_spoken (moves : list SignalMove) (s : SignalServer) : Prop := {
  as_streams : length (sv_connections s) = length (streams_of moves);
  as_queued : forall signal, queued (sv_hub s) signal -> spoken max_frame_bytes moves signal;
  as_phases : forall j c reads, sv_connections s !! j = Some c -> streams_of moves !! j = Some reads -> phase_known moves j reads c;
  as_sent : forall j c signal, sv_connections s !! j = Some c -> SignalDelivered signal ∈ sn_sent c -> spoken max_frame_bytes moves signal;
}.

Lemma greeted_later (moves : list SignalMove) (m : SignalMove) (j : nat) (reads : StreamReads) (a : ActorId) :
  greeted_as max_frame_bytes moves j reads a -> greeted_as max_frame_bytes (moves ++ [m]) j reads a.
Proof.
  intros (before & registry & now & after & c & -> & H1 & H2 & H3). exists before, registry, now, (after ++ [m])%list, c.
  by rewrite <- app_assoc.
Qed.

Lemma streams_later (moves : list SignalMove) (m : SignalMove) (j : nat) (reads : StreamReads) :
  streams_of moves !! j = Some reads -> streams_of (moves ++ [m]) !! j = Some reads.
Proof. intros Hj. unfold streams_of in *. rewrite omap_app. by apply lookup_app_l_Some. Qed.

Lemma spoken_later (moves : list SignalMove) (m : SignalMove) (signal : CallSignal) :
  spoken max_frame_bytes moves signal -> spoken max_frame_bytes (moves ++ [m]) signal.
Proof.
  intros (j & reads & n & line & H1 & H2 & H3 & H4). exists j, reads, n, line.
  split_and!; [by apply streams_later|by apply greeted_later|done|done].
Qed.

Lemma phase_later (moves : list SignalMove) (m : SignalMove) (j : nat) (reads : StreamReads) (c : SignalConnection) :
  phase_known moves j reads c -> phase_known (moves ++ [m]) j reads c.
Proof. unfold phase_known. destruct (sn_phase c); [done| |done]. intros [Hn Ha]. split; [done|by apply greeted_later]. Qed.

(** One connection goes on, by a move that accepts none. *)
Lemma on_connection_spoken (moves : list SignalMove) (m : SignalMove) (i : nat)
    (f : SignalingHub -> SignalConnection -> SignalingHub * SignalConnection) (s : SignalServer) :
  accepted_stream m = None -> all_spoken moves s ->
  (forall c reads, sv_connections s !! i = Some c -> streams_of moves !! i = Some reads -> phase_known moves i reads c ->
     let '(h', c') := f (sv_hub s) c in
     sound_step (spoken max_frame_bytes (moves ++ [m])) (sv_hub s) h' c c' /\ phase_known (moves ++ [m]) i reads c') ->
  all_spoken (moves ++ [m]) (on_connection i f s).
Proof.
  intros Hm [Hlen Hq Hp Hs] Hf.
  assert (Hstreams : streams_of (moves ++ [m]) = streams_of moves)
    by (unfold streams_of; rewrite omap_app; simpl; by rewrite Hm, app_nil_r).
  unfold on_connection. destruct (sv_connections s !! i) as [c|] eqn:Hi.
  2:{ split; rewrite ?Hstreams; [done|eauto using spoken_later|eauto using phase_later|eauto using spoken_later]. }
  destruct (lookup_lt_is_Some_2 (streams_of moves) i) as [reads Hr]; [rewrite <- Hlen; by eapply lookup_lt_Some|].
  specialize (Hf c reads eq_refl Hr (Hp _ _ _ Hi Hr)). destruct (f (sv_hub s) c) as [h' c'].
  destruct Hf as [[Hq' Hs'] Hp']. split; cbn [sv_hub sv_connections]; rewrite ?Hstreams.
  - by rewrite length_insert.
  - intros signal Hsig. destruct (Hq' signal Hsig); [eauto using spoken_later|done].
  - intros j d rj [(<- & <- & _)|[_ Hj]]%list_lookup_insert_Some Hrj; [by replace rj with reads by congruence|].
    eauto using phase_later.
  - intros j d signal [(<- & <- & _)|[_ Hj]]%list_lookup_insert_Some Hd; [|eauto using spoken_later].
    destruct (Hs' signal Hd); eauto using spoken_later.
Qed.

Lemma signal_run_spoken (moves : list SignalMove) : all_spoken moves (signal_run max_frame_bytes moves).
Proof.
  unfold signal_run. induction moves as [|m moves IH] using rev_ind.
  { split; [done| |done|done]. intros signal [k Hk]. unfold queue_of in Hk. cbn in Hk. rewrite lookup_empty in Hk. set_solver. }
  rewrite foldl_snoc. set (s := foldl _ _ moves) in *. pose proof (eq_refl s : s = signal_run max_frame_bytes moves) as Hrun.
  clearbody s. destruct m as [reads faults|i registry now_ms|i]; cbn [signal_move].
  - destruct IH as [Hlen Hq Hp Hs].
    assert (Hstreams : streams_of (moves ++ [SignalAccept reads faults]) = (streams_of moves ++ [reads])%list)
      by (unfold streams_of; by rewrite omap_app).
    split; cbn [sv_hub sv_connections]; rewrite ?Hstreams.
    + rewrite !length_app. by rewrite Hlen.
    + eauto using spoken_later.
    + intros j c rj Hj Hr. apply lookup_app_Some in Hj as [Hj|[Hge Hj]].
      * rewrite lookup_app_l in Hr by (rewrite <- Hlen; by eapply lookup_lt_Some). eauto using phase_later.
      * apply list_lookup_singleton_Some in Hj as [Hj <-].
        rewrite lookup_app_r in Hr by lia. rewrite <- Hlen, Hj in Hr. by injection Hr as <-.
    + intros j c signal Hj Hd. apply lookup_app_Some in Hj as [Hj|[Hge Hj]]; [eauto using spoken_later|].
      apply list_lookup_singleton_Some in Hj as [_ <-]. by apply elem_of_nil in Hd.
  - apply on_connection_spoken; [done|exact IH|]. intros c reads Hc Hr Hphase. unfold phase_known in Hphase.
    destruct (sn_phase c) as [|a|outcome] eqn:Hp.
    + pose proof (greet_sound registry now_ms max_frame_bytes (sv_hub s) c) as Hg. destruct (greet _ _ _ _ _) as [h' c'].
      destruct Hg as [[Hq Hs] Hg]. split; [split; [|exact Hs]; intros x Hx; by destruct (Hq x Hx); [left|]|].
      unfold phase_known. destruct Hg as [[outcome ->]|(a & r & -> & Hreads & -> & Hhello)]; [done|]. rewrite Hphase in *.
      split; [by exists 0%nat|]. exists moves, r, now_ms, [], c. by rewrite <- Hrun.
    + destruct Hphase as [[n Hn] Ha]. pose proof (serve_line_sound max_frame_bytes a (sv_hub s) c Hp) as Hl.
      destruct (serve_line _ _ _ _) as [h' c']. destruct Hl as [[Hq Hs] [Hreads Hl]]. split; [split; [|exact Hs]|].
      * intros x Hx. destruct (Hq x Hx) as [|(<- & line & Hline & Hjson)]; [by left|right].
        exists i, reads, n, line. split_and!; [by apply streams_later|by apply greeted_later| |done].
        rewrite Hn in Hline. exact Hline.
      * unfold phase_known. destruct Hl as [->|[outcome ->]]; [|done]. split; [|by apply greeted_later].
        exists (S n). by rewrite Hreads, Hn.
    + split; [by apply quiet_sound; [auto|]|]. unfold phase_known. by rewrite Hp.
  - apply on_connection_spoken; [done|exact IH|]. intros c reads Hc Hr Hphase.
    pose proof (deliver_next_sound (sv_hub s) c) as Hd. destruct (deliver_next _ _) as [h' c'].
    destruct Hd as ([Hq Hs] & Hp & Hreads). split; [split; [|exact Hs]; intros x Hx; by destruct (Hq x Hx); [left|]|].
    apply phase_later. unfold phase_known in *. by rewrite Hp, Hreads.
Qed.
End run.

(** C13: nobody speaks for another.  However the threads of the connections interleave,
    every signal that reached a client of the call server, or is on its way to one,
    was sent by a connection whose own first line was a hello as the signal's declared
    sender, with a token that the registry accepted for calls of that actor, device and
    session when that line was read, and it is what a later line of that connection says. *)
Theorem signals_carry_their_sender (max_frame_bytes : Z) (moves : list SignalMove) (i : nat) (c : SignalConnection) (signal : CallSignal) :
  sv_connections (signal_run max_frame_bytes moves) !! i = Some c ->
  SignalDelivered signal ∈ sn_sent c \/ queued (sv_hub (signal_run max_frame_bytes moves)) signal ->
  spoken max_frame_bytes moves signal.
Proof.
  intros Hc [Hs|Hq]; [by eapply as_sent; [apply signal_run_spoken|..]|by eapply as_queued; [apply signal_run_spoken|]].
Qed.

(** A line that is too long ends the thread of a connection, but not its registration:
    the client stays with the hub and in its calls. *)
Lemma overlong_line_leaves_the_client (max_frame_bytes : Z) (a : ActorId) (h : SignalingHub) (c : SignalConnection) (reads : StreamReads) :
  read_line_limited max_frame_bytes (sn_reads c) = (reads, Err (SignalFrameTooLarge max_frame_bytes)) ->
  let '(h', c') := serve_line max_frame_bytes a h c in
  h' = h /\ sn_phase c' = Ended (Err (SignalFrameTooLarge max_frame_bytes)) /\ sn_writer c' = sn_writer c.
Proof. intros Hr. unfold serve_line. rewrite Hr. cbv zeta. by fields. Qed.

(** The end of a connection takes the actor's later connection out of the hub with it. *)
Lemma old_end_disconnects_the_new (max_frame_bytes : Z) (a : ActorId) (h : SignalingHub) (c : SignalConnection) (handle : nat) :
  sn_reads c = [] -> hub_clients h !! a = Some handle -> sn_writer c <> Some handle ->
  hub_clients (serve_line max_frame_bytes a h c).1 !! a = None.
Proof.
  intros Hr _ _. unfold serve_line. rewrite Hr. cbn [read_line_limited read_line_loop fst]. unfold disconnect. fields. apply lookup_delete_eq.
Qed.
End senders.

(** ** A call through the server *)

#[local] Existing Instance toy_token_crypto.

Definition human : ActorId := MkActorId "human:1".
Definition ringing : CallSignal := Invite the_call (MkConversationId "chat") CallVideo human [callee].

#[local] Instance toy_signal_codec : SignalCodec := {
  signal_of_json := fun line =>
    if eqb line (bytes_of "callee") then Ok (SignalHello (string_of (toy_token "c")) callee "desktop:1" "session:1")
    else if eqb line (bytes_of "human") then Ok (SignalHello (string_of (toy_token "a")) human "desktop:1" "session:1")
    else Ok (SignalSend ringing) }.

Definition call_registry : AccessTokenRegistry :=
  fst (issue (toy_token "c") ((toy_grant "g3") ⟪ grant_actor := callee ⟫) toy_registry).

(** Both connect, the caller rings, and the writer of the callee's connection writes. *)
Definition call_moves : list SignalMove :=
  [SignalAccept (chunks_of [bytes_of "callee"; [LINE_FEED]]) (fun _ => None); SignalStep 0 (Ok call_registry) 5;
   SignalAccept (chunks_of [(bytes_of "human" ++ LINE_FEED :: bytes_of "ring" ++ [LINE_FEED])%list]) (fun _ => None);
   SignalStep 1 (Ok call_registry) 6; SignalStep 1 (Ok call_registry) 7; SignalDeliver 0].

Lemma signals_carry_their_sender_witness :
  exists c, sv_connections (signal_run 1024 call_moves) !! 0%nat = Some c /\ SignalDelivered ringing ∈ sn_sent c
    /\ declared_sender ringing = human /\ spoken 1024 call_moves ringing.
Proof.
  destruct (sv_connections (signal_run 1024 call_moves) !! 0%nat) as [c|] eqn:Hc; [|exfalso; vm_compute in Hc; discriminate Hc].
  assert (Hin : SignalDelivered ringing ∈ sn_sent c)
    by (vm_compute in Hc; injection Hc as <-; vm_compute; right; left).
  exists c. split; [reflexivity|]. split; [exact Hin|]. split; [reflexivity|].
  exact (signals_carry_their_sender 1024 call_moves 0 c ringing Hc (or_introl Hin)).
Defined.
