(* ===== verification/Settlement.v ===== *)
(** * Settlement webhooks ([settlement.rs])

    HMAC-SHA256, base64 and JSON are other people's code: they are the fields
    of [SettlementCrypto], with what the code relies on in
    [SettlementCryptoLaws]. *)

From S2P Require Import Prelude Text Maps Bytes Conversation SecretChat Payment.

Definition DEFAULT_SETTLEMENT_CLOCK_SKEW_MS : Z := 5 * 60 * 1000.

Record SettlementEvent := {
  se_provider_id : string;
  se_event_id : string;
  se_actor_id : ActorId;
  se_amount : Money;
  se_provider_reference : string;
  se_occurred_at_ms : Z;
}.

Inductive SettlementError :=
| WeakSecret
| InvalidClockSkew
| TimestampOutOfRange
| InvalidSignature
| InvalidEncoding
| InvalidEvent
| SettlementJson (reason : string).

(** [SettlementEvent::validate] *)
Definition validate_event (e : SettlementEvent) : result SettlementError unit :=
  reject_if (blank (se_provider_id e) || blank (se_event_id e) || blank (se_provider_reference e)
             || negb (actor_id_is_valid (se_actor_id e)) || negb (money_is_valid (se_amount e))
             || (money_amount_minor (se_amount e) <=? 0) || (se_occurred_at_ms e <=? 0)) InvalidEvent.

Definition idempotency_key (e : SettlementEvent) : string :=
  "settlement:" +:+ se_provider_id e +:+ ":" +:+ se_event_id e.

Record SignedSettlement := {
  ss_timestamp_ms : Z;
  ss_payload_base64 : string;
  ss_signature_hex : string;
}.

Record SettlementVerifier := { sv_secret : list ascii; sv_clock_skew_ms : Z }.

(** [SettlementVerifier::with_clock_skew], [SettlementVerifier::new] *)
Definition with_clock_skew (secret : list ascii) (clock_skew_ms : Z) : result SettlementError SettlementVerifier :=
  reject_if (length secret <? 32)%nat WeakSecret ;;
  reject_if ((clock_skew_ms <=? 0) || (60 * 60 * 1000 <? clock_skew_ms)) InvalidClockSkew ;;
  Ok {| sv_secret := secret; sv_clock_skew_ms := clock_skew_ms |}.

Definition verifier_new (secret : list ascii) : result SettlementError SettlementVerifier :=
  with_clock_skew secret DEFAULT_SETTLEMENT_CLOCK_SKEW_MS.

(** ** Hexadecimal *)

(** The bytes of pairs of digits. *)
Fixpoint hex_pairs (l : list ascii) : option (list ascii) :=
  match l with
  | [] => Some []
  | a :: b :: rest => h ← hex_value a; k ← hex_value b; bs ← hex_pairs rest; Some (byte_of (16 * h + k) :: bs)
  | _ => None
  end.

Definition decode_hex (value : string) : result SettlementError (list ascii) :=
  reject_if (negb (len value =? 64) || negb (all_bytes (fun a => is_some_and (hex_value a) (fun _ => true)) value))
    InvalidEncoding ;;
  ok_or (hex_pairs (bytes_of value)) InvalidEncoding.

(** ** Verification *)

Class SettlementCrypto := {
  hmac_sha256 : list ascii -> list ascii -> list ascii;
  b64url_encode : list ascii -> string;
  b64url_decode : string -> option (list ascii);
  event_to_json : SettlementEvent -> list ascii;
  event_of_json : list ascii -> result string SettlementEvent;
}.

Class SettlementCryptoLaws `{SettlementCrypto} : Prop := {
  hmac_length : forall k m, length (hmac_sha256 k m) = 32%nat;
  b64url_roundtrip : forall l, b64url_decode (b64url_encode l) = Some l;
  event_json_roundtrip : forall e, event_of_json (event_to_json e) = Ok e;
}.

(** [i64::abs], which wraps at the least integer. *)
Definition abs_i64 (z : Z) : Z := if z =? i64_min then i64_min else Z.abs z.

Section settlement.
Context `{SettlementCrypto}.

(** What is signed: the timestamp, a full stop, the payload. *)
Definition signed_bytes (timestamp_ms : Z) (payload : string) : list ascii :=
  bytes_of (display timestamp_ms +:+ "." +:+ payload).

Definition verify (v : SettlementVerifier) (signed : SignedSettlement) (now_ms : Z) :
    result SettlementError SettlementEvent :=
  difference ← ok_or (checked_sub_i64 now_ms (ss_timestamp_ms signed)) TimestampOutOfRange;
  reject_if (sv_clock_skew_ms v <? abs_i64 difference) TimestampOutOfRange ;;
  signature ← decode_hex (ss_signature_hex signed);
  reject_if (negb (eqb signature
    (hmac_sha256 (sv_secret v) (signed_bytes (ss_timestamp_ms signed) (ss_payload_base64 signed))))) InvalidSignature ;;
  payload ← ok_or (b64url_decode (ss_payload_base64 signed)) InvalidEncoding;
  event ← map_err SettlementJson (event_of_json payload);
  validate_event event ;;
  Ok event.

(** [SettlementVerifier::sign], which the tests use. *)
Definition sign (v : SettlementVerifier) (event : SettlementEvent) (timestamp_ms : Z) : SignedSettlement :=
  let payload := b64url_encode (event_to_json event) in
  {| ss_timestamp_ms := timestamp_ms; ss_payload_base64 := payload;
     ss_signature_hex := encode_hex (hmac_sha256 (sv_secret v) (signed_bytes timestamp_ms payload)) |}.
End settlement.

(** ** Hexadecimal round trip *)

Lemma hex_value_digit z : 0 <= z < 16 -> hex_value (hex_digit z) = Some z.
Proof.
  intros Hz. unfold hex_value, hex_digit.
  destruct (Z.ltb_spec z 10); unfold byte_of; rewrite byte_at_ascii by lia.
  - rewrite (proj2 (Z.leb_le _ _)), (proj2 (Z.leb_le _ _)) by lia. simpl. f_equal. lia.
  - rewrite (proj2 (Z.leb_gt (z + 87) 57)), andb_false_r by lia.
    rewrite (proj2 (Z.leb_le _ _)), (proj2 (Z.leb_le _ _)) by lia. simpl. f_equal. lia.
Qed.

Lemma length_string_of l : String.length (string_of l) = length l.
Proof. unfold string_of. induction l; simpl; congruence. Qed.

Lemma hex_pairs_encode l : hex_pairs (bytes_of (encode_hex l)) = Some l.
Proof.
  unfold encode_hex. rewrite bytes_of_string_of. induction l as [|a l IH]; [done|]. simpl.
  pose proof (byte_at_range a). pose proof (Z.div_mod (byte_at a) 16). pose proof (Z.mod_pos_bound (byte_at a) 16).
  rewrite !hex_value_digit by lia. simpl. rewrite IH. simpl.
  replace (16 * (byte_at a / 16) + byte_at a mod 16) with (byte_at a) by lia. by rewrite byte_of_byte_at.
Qed.

Lemma decode_encode_hex l : length l = 32%nat -> decode_hex (encode_hex l) = Ok l.
Proof.
  intros Hl. unfold decode_hex. rewrite hex_pairs_encode. simpl.
  assert (length (flat_map (fun a => [hex_digit (byte_at a / 16); hex_digit (byte_at a mod 16)]) l)
    = 2 * length l)%nat as Hlen by (clear; induction l; simpl in *; lia).
  assert (len (encode_hex l) = 64) as ->.
  { unfold len, encode_hex. rewrite length_string_of, Hlen, Hl. reflexivity. }
  assert (all_bytes (fun a => is_some_and (hex_value a) (fun _ => true)) (encode_hex l) = true) as ->; [|done].
  unfold all_bytes, encode_hex. rewrite bytes_of_string_of. clear Hl Hlen. induction l as [|a l IH]; [done|]. simpl.
  pose proof (byte_at_range a). pose proof (Z.mod_pos_bound (byte_at a) 16). pose proof (Z.div_mod (byte_at a) 16).
  rewrite !hex_value_digit by lia. exact IH.
Qed.

Section verification.
Context `{SettlementCrypto}.

Lemma abs_within d skew : 0 < skew -> in_i64 d = true -> i64_min < d ->
  (skew <? abs_i64 d) = false <-> -skew <= d <= skew.
Proof.
  intros Hs Hd Hmin. unfold abs_i64. rewrite (proj2 (Z.eqb_neq _ _)) by lia. rewrite Z.ltb_ge. lia.
Qed.

(** When a signed settlement is accepted. *)
Lemma verify_ok (v : SettlementVerifier) (signed : SignedSettlement) (now_ms : Z)
    (e : SettlementEvent) :
  0 <= now_ms <= i64_max -> 0 < sv_clock_skew_ms v <= 60 * 60 * 1000 -> in_i64 (ss_timestamp_ms signed) = true ->
  verify v signed now_ms = Ok e <->
  now_ms - sv_clock_skew_ms v <= ss_timestamp_ms signed <= now_ms + sv_clock_skew_ms v
  /\ decode_hex (ss_signature_hex signed)
     = Ok (hmac_sha256 (sv_secret v) (signed_bytes (ss_timestamp_ms signed) (ss_payload_base64 signed)))
  /\ (exists payload, b64url_decode (ss_payload_base64 signed) = Some payload /\ event_of_json payload = Ok e)
  /\ validate_event e = Ok tt.
Proof.
  intros Hnow Hskew Hts. apply in_i64_spec in Hts. unfold i64_min, i64_max in *.
  set (d := now_ms - ss_timestamp_ms signed).
  unfold verify, checked_sub_i64, checked. fold d. split.
  - intros Hv. oks. destruct (in_i64 d) eqn:Hd; [|done].
    match goal with H : Some _ = Some _ |- _ => injection H as <- end.
    repeat match goal with H : eqb _ _ = true |- _ => apply (proj1 (eqb_spec _ _)) in H end.
    assert (- sv_clock_skew_ms v <= d <= sv_clock_skew_ms v) as Hrange.
    { apply abs_within; [lia|done| |done]. unfold i64_min. subst d. lia. }
    split_and!; [subst d; lia|subst d; lia|congruence| |]; subst; eauto.
  - intros (Hrange & Hsig & (payload & Hp & He) & Hvalid).
    assert (in_i64 d = true) as Hd by (apply in_i64_spec; unfold i64_min, i64_max; subst d; lia).
    rewrite Hd. simpl. rewrite (proj2 (abs_within d (sv_clock_skew_ms v) ltac:(lia) Hd ltac:(unfold i64_min; subst d; lia)))
      by (subst d; lia). simpl. rewrite Hsig. simpl. rewrite (proj2 (eqb_spec _ _)) by done. simpl.
    rewrite Hp. simpl. rewrite He. simpl. by rewrite Hvalid.
Qed.

Context `{!SettlementCryptoLaws}.

(** A signed settlement verifies.  What [sign] produces for a valid event is
    accepted with that event by the same verifier at any time within its clock
    skew; and, wherever the MAC distinguishes them, the same signature on another
    timestamp or payload is refused as invalid. *)
Theorem signed_settlement_verifies (v : SettlementVerifier) (e : SettlementEvent) (timestamp_ms now_ms : Z) :
  0 <= now_ms <= i64_max -> 0 < sv_clock_skew_ms v <= 60 * 60 * 1000 -> in_i64 timestamp_ms = true ->
  now_ms - sv_clock_skew_ms v <= timestamp_ms <= now_ms + sv_clock_skew_ms v -> validate_event e = Ok tt ->
  verify v (sign v e timestamp_ms) now_ms = Ok e
  /\ forall timestamp' payload',
       in_i64 timestamp' = true ->
       now_ms - sv_clock_skew_ms v <= timestamp' <= now_ms + sv_clock_skew_ms v ->
       hmac_sha256 (sv_secret v) (signed_bytes timestamp' payload')
         <> hmac_sha256 (sv_secret v) (signed_bytes timestamp_ms (ss_payload_base64 (sign v e timestamp_ms))) ->
       verify v {| ss_timestamp_ms := timestamp'; ss_payload_base64 := payload';
                   ss_signature_hex := ss_signature_hex (sign v e timestamp_ms) |} now_ms = Err InvalidSignature.
Proof.
  intros Hnow Hskew Hts Hrange Hvalid. split.
  - apply verify_ok; try done. simpl. split_and!; [lia|lia| | |done].
    + apply decode_encode_hex, hmac_length.
    + eexists. split; [apply b64url_roundtrip|apply event_json_roundtrip].
  - intros ts' p' Hts' Hrange' Hmac. apply in_i64_spec in Hts, Hts'. unfold i64_min, i64_max in *.
    unfold verify, checked_sub_i64, checked. simpl ss_timestamp_ms. simpl ss_signature_hex. simpl ss_payload_base64.
    set (d := now_ms - ts'). assert (in_i64 d = true) as Hd by (apply in_i64_spec; unfold i64_min, i64_max; subst d; lia).
    rewrite Hd. simpl. rewrite (proj2 (abs_within d (sv_clock_skew_ms v) ltac:(lia) Hd ltac:(unfold i64_min; subst d; lia)))
      by (subst d; lia). simpl. rewrite decode_encode_hex by apply hmac_length. simpl.
    rewrite (proj2 (eqb_false _ _)); [done|]. simpl in Hmac. congruence.
Qed.
End verification.

(** ** Witness, with toy cryptography *)

Definition event_parts (e : SettlementEvent) : string * string * string * (string * Z) * string * Z :=
  (se_provider_id e, se_event_id e, actor_id_0 (se_actor_id e),
   (money_currency (se_amount e), money_amount_minor (se_amount e)), se_provider_reference e, se_occurred_at_ms e).

Definition event_of_parts (p : string * string * string * (string * Z) * string * Z) : SettlementEvent :=
  let '(provider, event, actor, (currency, amount), reference, occurred) := p in
  {| se_provider_id := provider; se_event_id := event; se_actor_id := MkActorId actor;
     se_amount := {| money_currency := currency; money_amount_minor := amount |};
     se_provider_reference := reference; se_occurred_at_ms := occurred |}.

#[local] Instance toy_settlement_crypto : SettlementCrypto := {
  hmac_sha256 k m := pad32 (m ++ k);
  b64url_encode b := string_of b;
  b64url_decode s := Some (bytes_of s);
  event_to_json e := bits_of_positive (encode (event_parts e));
  event_of_json b := ok_or (event_of_parts <$> decode (positive_of_bits b)) "json";
}.

#[local] Instance toy_settlement_laws : SettlementCryptoLaws.
Proof.
  split.
  - intros k m. apply pad32_length.
  - intros l. simpl. by rewrite bytes_of_string_of.
  - intros [p e [a] [c n] r o]. simpl. by rewrite positive_bits_roundtrip, decode_encode.
Qed.

Definition toy_settlement : SettlementEvent := {|
  se_provider_id := "processor"; se_event_id := "evt"; se_actor_id := MkActorId "human:buyer";
  se_amount := {| money_currency := "USD"; money_amount_minor := 500 |};
  se_provider_reference := "pi"; se_occurred_at_ms := 10 |}.

Definition toy_verifier : SettlementVerifier := {| sv_secret := replicate 32 "k"%char; sv_clock_skew_ms := 300000 |}.

Lemma signed_settlement_verifies_witness :
  verify toy_verifier (sign toy_verifier toy_settlement 10000) 10001 = Ok toy_settlement
  /\ verify toy_verifier {| ss_timestamp_ms := 10001;
        ss_payload_base64 := ss_payload_base64 (sign toy_verifier toy_settlement 10000);
        ss_signature_hex := ss_signature_hex (sign toy_verifier toy_settlement 10000) |} 10001
     = Err InvalidSignature.
Proof.
  destruct (signed_settlement_verifies toy_verifier toy_settlement 10000 10001) as [Hok Hbad];
    [unfold i64_max; lia|simpl; lia|reflexivity|simpl; lia|vm_compute; reflexivity|].
  split; [exact Hok|]. apply Hbad; [reflexivity|simpl; lia|]. vm_compute. discriminate.
Defined.

(** The idempotency key joins two free identifiers with a colon: settlements of
    different providers can share it. *)
Lemma idempotency_keys_collide :
  let first := toy_settlement in
  let second := {| se_provider_id := "a:b"; se_event_id := "c"; se_actor_id := se_actor_id first;
                   se_amount := se_amount first; se_provider_reference := "r"; se_occurred_at_ms := 1 |} in
  let third := {| se_provider_id := "a"; se_event_id := "b:c"; se_actor_id := se_actor_id first;
                  se_amount := se_amount first; se_provider_reference := "r"; se_occurred_at_ms := 1 |} in
  validate_event second = Ok tt /\ validate_event third = Ok tt /\ idempotency_key second = idempotency_key third.
Proof. vm_compute. repeat split; reflexivity. Qed.
