(* ===== verification/StateError.v ===== *)
(** * Computations that change a state and may fail

    A method that takes [&mut self] and returns a [Result]: what it changed
    before it failed stays changed. *)

From S2P Require Import Prelude.

Definition StateM (S E A : Type) : Type := S -> S * result E A.

#[export] Instance state_ret (S E : Type) : MRet (StateM S E) := fun A a s => (s, Ok a).

(** The [?] operator: an error returns at once, with the state as it is. *)
#[export] Instance state_bind (S E : Type) : MBind (StateM S E) :=
  fun A B f m s => match m s with (s', Ok a) => f a s' | (s', Err e) => (s', Err e) end.

Section operations.
Context {S E : Type}.

(** Read [self]. *)
Definition get_state : StateM S E S := fun s => (s, Ok s).
Definition set_state (s : S) : StateM S E unit := fun _ => (s, Ok tt).
Definition modify (f : S -> S) : StateM S E unit := fun s => (f s, Ok tt).

(** A call that only reads: [self.check(...)?]. *)
Definition try_with {A : Type} (f : S -> result E A) : StateM S E A := fun s => (s, f s).

Definition fail {A : Type} (e : E) : StateM S E A := fun s => (s, Err e).

(** [for x in l { body(x)?; }], collecting what the bodies return. *)
Fixpoint collect_each {A B : Type} (body : A -> StateM S E (list B)) (l : list A) : StateM S E (list B) :=
  match l with
  | [] => mret []
  | x :: rest => ys ← body x; zs ← collect_each body rest; mret (ys ++ zs)%list
  end.
End operations.

(** ** Reasoning *)

Section laws.
Context {S E : Type}.

Lemma state_bind_ok {A B : Type} (m : StateM S E A) (f : A -> StateM S E B) (s s' : S) (b : B) :
  (m ≫= f) s = (s', Ok b) <-> exists a s1, m s = (s1, Ok a) /\ f a s1 = (s', Ok b).
Proof.
  unfold mbind, state_bind. destruct (m s) as [s1 [a|e]]; split.
  - intros H. by exists a, s1.
  - by intros (a' & s1' & [= <- <-] & H).
  - done.
  - by intros (a' & s1' & [=] & _).
Qed.

Lemma get_state_ok (s s' a : S) : get_state (E := E) s = (s', Ok a) <-> a = s /\ s' = s.
Proof. unfold get_state. split; [by intros [= -> ->] | by intros [-> ->]]. Qed.

Lemma try_with_ok {A : Type} (f : S -> result E A) (s s' : S) (a : A) :
  try_with f s = (s', Ok a) <-> s' = s /\ f s = Ok a.
Proof. unfold try_with. split; [by intros [= -> ->] | by intros [-> ->]]. Qed.

Lemma modify_ok (f : S -> S) (s s' : S) (u : unit) : modify (E := E) f s = (s', Ok u) <-> s' = f s.
Proof. destruct u. unfold modify. split; [by intros [= ->] | by intros ->]. Qed.

Lemma mret_ok {A : Type} (a b : A) (s s' : S) :
  (mret a : StateM S E A) s = (s', Ok b) <-> s' = s /\ b = a.
Proof. unfold mret, state_ret. split; [by intros [= -> ->] | by intros [-> ->]]. Qed.

(** A relation on states that every body respects is respected by the loop. *)
Lemma collect_each_rel {A B : Type} (R : S -> S -> Prop) `{!Reflexive R, !Transitive R}
    (body : A -> StateM S E (list B)) (l : list A) (s : S) :
  (forall x s, x ∈ l -> R s (fst (body x s))) -> R s (fst (collect_each body l s)).
Proof.
  revert s. induction l as [|x rest IH]; intros s H; [done|]. simpl. unfold mbind, state_bind.
  pose proof (H x s ltac:(left)) as Hx. destruct (body x s) as [s1 [ys|e]]; [|done]. simpl in *.
  assert (Hr : R s1 (fst (collect_each body rest s1))) by (apply IH; intros y t Hy; apply H; by right).
  destruct (collect_each body rest s1) as [s2 [zs|e]]; simpl in *; by transitivity s1.
Qed.

(** An invariant of the bodies is an invariant of the loop. *)
Lemma collect_each_inv {A B : Type} (P : S -> Prop) (body : A -> StateM S E (list B)) (l : list A) (s : S) :
  (forall x s, x ∈ l -> P s -> P (fst (body x s))) -> P s -> P (fst (collect_each body l s)).
Proof.
  intros H Hs. pose (R := fun s t : S => P s -> P t).
  assert (HR : Reflexive R) by (intros t; unfold R; exact id).
  assert (HT : Transitive R) by (intros t u v Htu Huv Ht; unfold R in *; auto).
  apply (collect_each_rel R body l s); [|done]. intros x t Hx. unfold R. auto.
Qed.
End laws.

(** Decompose a computation known to succeed. *)
Ltac state_step :=
  match goal with
  | H : (_ ≫= _) _ = (_, Ok _) |- _ =>
      let a := fresh "a" in let s := fresh "s" in let Ha := fresh "Hrun" in
      apply state_bind_ok in H as (a & s & Ha & H); cbv beta in H
  | H : get_state _ = (_, Ok _) |- _ => apply get_state_ok in H as [-> ->]
  | H : try_with _ _ = (_, Ok _) |- _ => apply try_with_ok in H as [-> H]
  | H : modify _ _ = (_, Ok _) |- _ => apply modify_ok in H as ->
  | H : mret _ _ = (_, Ok _) |- _ => apply mret_ok in H as [-> ->]
  end.
