(* ===== verification/Search.v ===== *)
(** * Search ([search.rs]): the index of terms and the search over it

    The Unicode tables behind [to_lowercase] and [char::is_alphanumeric] are the
    standard library's: they are the fields of [UnicodeText]. *)

From S2P Require Import Prelude Text Maps Conversation Message.

(** [SearchScope], its constructors prefixed with [In]. *)
Inductive SearchScope :=
| InGlobal | InConversation | InContacts | InBots | InGroups | InChannels | InMedia | InFiles | InLinks.
#[export] Instance SearchScope_eq_dec : EqDecision SearchScope.
Proof. solve_decision. Defined.

Record SearchQuery := {
  sq_text : string;
  sq_scope : SearchScope;
  sq_conversation_id : option ConversationId;
  sq_sender_id : option ActorId;
  sq_from_ms : option Z;
  sq_to_ms : option Z;
  sq_limit : Z;
}.

Inductive SearchResultKind := FoundActor | FoundConversation | FoundMessage.
#[export] Instance SearchResultKind_eq_dec : EqDecision SearchResultKind.
Proof. solve_decision. Defined.

Record SearchResult := {
  sr_kind : SearchResultKind;
  sr_id : string;
  sr_conversation_id : option ConversationId;
  sr_title : string;
  sr_snippet : string;
  sr_timestamp_ms : option Z;
  sr_score : Z;
}.

(** The keys of messages, ordered as the pairs they are. *)
Definition MessageKey : Type := ConversationId * MessageId.

Definition search_key_le (a b : MessageKey) : Prop :=
  if decide (a.1 = b.1) then key_le a.2 b.2 else key_le a.1 b.1.
#[export] Instance search_key_le_dec : RelDecision search_key_le.
Proof. intros a b. unfold search_key_le. destruct (decide (a.1 = b.1)); apply _. Defined.

Record SearchIndex := {
  ix_actor_terms : gmap ActorId (gset string);
  ix_conversation_terms : gmap ConversationId (gset string);
  ix_message_terms : gmap MessageKey (gset string);
  ix_actors : gmap ActorId Actor;
  ix_conversations : gmap ConversationId Conversation;
  ix_messages : gmap MessageKey Message;
}.
#[export] Instance eta_SearchIndex : Eta SearchIndex := fun i =>
  Build_SearchIndex (ix_actor_terms i) (ix_conversation_terms i) (ix_message_terms i) (ix_actors i)
    (ix_conversations i) (ix_messages i).

(** [SearchIndex::default()] *)
Definition empty_index : SearchIndex := {|
  ix_actor_terms := ∅; ix_conversation_terms := ∅; ix_message_terms := ∅;
  ix_actors := ∅; ix_conversations := ∅; ix_messages := ∅ |}.

(** ** Terms *)

Class UnicodeText := {
  str_to_lowercase : string -> string;
  char_is_alphanumeric : list ascii -> bool;
}.

(** The characters of a UTF-8 text: a byte [10xxxxxx] continues the character
    that the bytes before it began. *)
Definition is_continuation (a : ascii) : bool := (128 <=? byte_at a) && (byte_at a <? 192).

Fixpoint chars_of (l : list ascii) : list ascii * list (list ascii) :=
  match l with
  | [] => ([], [])
  | a :: rest =>
      let (tail, chars) := chars_of rest in
      if is_continuation a then (a :: tail, chars) else ([], (a :: tail) :: chars)
  end.

Definition chars (s : string) : list (list ascii) := snd (chars_of (bytes_of s)).

(** [str::split] at the characters that satisfy [sep]. *)
Fixpoint split_chars (sep : list ascii -> bool) (l : list (list ascii)) : list (list ascii) :=
  match l with
  | [] => [[]]
  | c :: rest =>
      match split_chars sep rest with
      | [] => [[]]
      | piece :: pieces => if sep c then [] :: piece :: pieces else (c ++ piece)%list :: pieces
      end
  end.

(** [haystack.contains(needle)] *)
Fixpoint str_contains (needle haystack : string) : bool :=
  String.prefix needle haystack
  || match haystack with EmptyString => false | String _ rest => str_contains needle rest end.

Definition opt_text (o : option string) : string := default "" o.

Section search.
Context `{UT : UnicodeText}.

Definition term_char (c : list ascii) : bool :=
  char_is_alphanumeric c || eqb c ["_"%char] || eqb c ["@"%char] || eqb c ["#"%char].

Definition tokenize (text : string) : gset string :=
  list_to_set (filter (fun value => negb (is_empty value))
    (string_of <$> split_chars (fun c => negb (term_char c)) (chars (str_to_lowercase text)))).

Definition term_score (indexed : gset string) (term : string) : Z :=
  if bool_decide (term ∈ indexed) then 10
  else if existsb (str_contains term) (elements indexed) then 4
  else 0.

Definition score_terms (query indexed : gset string) : Z :=
  foldr (fun term total => term_score indexed term + total) 0 (elements query).

Definition message_search_text (m : Message) : string :=
  match msg_content m with
  | ContentText text => ft_text text
  | ContentPhoto _ caption _ | ContentVideo _ caption _ _ | ContentAnimation _ caption
  | ContentAudio _ caption _ _ | ContentVoice _ caption _ | ContentDocument _ caption => ft_text caption
  | ContentContact _ display_name phone_number => display_name +:+ " " +:+ opt_text phone_number
  | ContentPoll question _ _ _ _ => ft_text question
  | ContentVenue _ _ title address => title +:+ " " +:+ address
  | ContentService action text => action +:+ " " +:+ opt_text text
  | ContentInvoice invoice_id => invoice_id
  | ContentMiniApp mini_app_id title _ => title +:+ " " +:+ mini_app_id
  | _ => ""
  end.

Definition is_link (e : TextEntity) : bool :=
  match entity_kind e with Url | TextUrl _ => true | _ => false end.

Definition content_matches_scope (content : MessageContent) (scope : SearchScope) : bool :=
  match scope with
  | InMedia =>
      match content with
      | ContentPhoto _ _ _ | ContentVideo _ _ _ _ | ContentAnimation _ _ | ContentAudio _ _ _ _
      | ContentVoice _ _ _ | ContentVideoNote _ | ContentSticker _ _ _ => true
      | _ => false
      end
  | InFiles => match content with ContentDocument _ _ => true | _ => false end
  | InLinks => match content with ContentText text => existsb is_link (ft_entities text) | _ => false end
  | _ => true
  end.

(** ** Indexing *)

Definition actor_search_text (actor : Actor) : string :=
  actor_display_name actor
  +:+ match actor_username actor with Some username => " " +:+ username | None => "" end
  +:+ match actor_bio actor with Some bio => " " +:+ bio | None => "" end.

Definition index_actor (actor : Actor) (i : SearchIndex) : SearchIndex :=
  i ⟪ ix_actor_terms ::= <[actor_id actor := tokenize (actor_search_text actor)]> ⟫
    ⟪ ix_actors ::= <[actor_id actor := actor]> ⟫.

Definition index_conversation (c : Conversation) (i : SearchIndex) : SearchIndex :=
  i ⟪ ix_conversation_terms ::= <[conv_id c := tokenize (conv_title c +:+ " " +:+ opt_text (conv_description c))]> ⟫
    ⟪ ix_conversations ::= <[conv_id c := c]> ⟫.

Definition message_key (m : Message) : MessageKey := (msg_conversation_id m, msg_id m).

Definition index_message (m : Message) (i : SearchIndex) : SearchIndex :=
  i ⟪ ix_message_terms ::= <[message_key m := tokenize (message_search_text m)]> ⟫
    ⟪ ix_messages ::= <[message_key m := m]> ⟫.

Definition index_remove_message (conversation_id : ConversationId) (message_id : MessageId) (i : SearchIndex) :
    SearchIndex :=
  i ⟪ ix_message_terms ::= delete (conversation_id, message_id) ⟫
    ⟪ ix_messages ::= delete (conversation_id, message_id) ⟫.

(** ** Searching *)

(** The loop over the indexed actors. *)
Definition actor_allowed (scope : SearchScope) (actor : Actor) : bool :=
  match scope with
  | InContacts => bool_decide (actor_kind actor = Human)
  | InBots => bool_decide (actor_kind actor = Bot \/ actor_kind actor = Assistant)
  | _ => true
  end.

Definition actor_result (terms : gset string) (scope : SearchScope) (i : SearchIndex) (id : ActorId) :
    option SearchResult :=
  indexed ← ix_actor_terms i !! id;
  actor ← ix_actors i !! id;
  let score := score_terms terms indexed in
  if actor_allowed scope actor && (0 <? score) then
    Some {| sr_kind := FoundActor; sr_id := actor_id_0 id; sr_conversation_id := None;
            sr_title := actor_display_name actor; sr_snippet := opt_text (actor_bio actor);
            sr_timestamp_ms := presence_last_seen_at_ms (actor_presence actor); sr_score := score |}
  else None.

(** The loop over the indexed conversations. *)
Definition conversation_allowed (scope : SearchScope) (c : Conversation) : bool :=
  match scope with
  | InGroups => bool_decide (conv_kind c = Group)
  | InChannels => bool_decide (conv_kind c = Channel)
  | _ => true
  end.

Definition conversation_result (terms : gset string) (scope : SearchScope) (i : SearchIndex)
    (id : ConversationId) : option SearchResult :=
  indexed ← ix_conversation_terms i !! id;
  c ← ix_conversations i !! id;
  let score := score_terms terms indexed in
  if conversation_allowed scope c && (0 <? score) then
    Some {| sr_kind := FoundConversation; sr_id := conversation_id_0 id; sr_conversation_id := Some id;
            sr_title := conv_title c; sr_snippet := opt_text (conv_description c);
            sr_timestamp_ms := Some (conv_updated_at_ms c); sr_score := score |}
  else None.

(** The loop over the indexed messages. *)
Definition message_skipped (q : SearchQuery) (conversation_id : ConversationId) (m : Message) : bool :=
  is_some_and (sq_conversation_id q) (fun id => negb (eqb id conversation_id))
  || is_some_and (sq_sender_id q) (fun id => negb (eqb id (msg_sender_id m)))
  || is_some_and (sq_from_ms q) (fun from => msg_created_at_ms m <? from)
  || is_some_and (sq_to_ms q) (fun to => to <? msg_created_at_ms m)
  || negb (content_matches_scope (msg_content m) (sq_scope q)).

Definition message_result (terms : gset string) (q : SearchQuery) (i : SearchIndex) (key : MessageKey) :
    option SearchResult :=
  indexed ← ix_message_terms i !! key;
  m ← ix_messages i !! key;
  let score := score_terms terms indexed in
  if negb (message_skipped q key.1 m) && (0 <? score) then
    Some {| sr_kind := FoundMessage; sr_id := message_id_0 key.2; sr_conversation_id := Some key.1;
            sr_title := match ix_conversations i !! key.1 with
                        | Some c => conv_title c
                        | None => conversation_id_0 key.1
                        end;
            sr_snippet := message_search_text m; sr_timestamp_ms := Some (msg_created_at_ms m);
            sr_score := score |}
  else None.

Definition scope_in (scopes : list SearchScope) (scope : SearchScope) : bool := bool_decide (scope ∈ scopes).

(** [Option<i64>] is ordered with [None] first. *)
Definition opt_ms_lt (a b : option Z) : bool :=
  match a, b with
  | None, Some _ => true
  | Some x, Some y => x <? y
  | _, None => false
  end.

(** The order of the results: the better score first, then the later one. *)
Definition result_le (a b : SearchResult) : Prop :=
  sr_score b < sr_score a
  \/ (sr_score a = sr_score b /\ opt_ms_lt (sr_timestamp_ms a) (sr_timestamp_ms b) = false).
#[export] Instance result_le_dec : RelDecision result_le.
Proof. intros a b. unfold result_le. apply _. Defined.
#[export] Instance result_le_total : Total result_le.
Proof.
  intros a b. unfold result_le. destruct (Z.lt_trichotomy (sr_score a) (sr_score b)) as [H|[H|H]];
    [by right; left| |by left; left].
  destruct (sr_timestamp_ms a), (sr_timestamp_ms b); simpl; try (left; by right); try (right; by right).
  destruct (Z.le_ge_cases z z0); [right|left]; right; split; try done; by apply Z.ltb_ge.
Qed.
#[export] Instance result_le_trans : Transitive result_le.
Proof.
  intros a b c [H1|[E1 T1]] [H2|[E2 T2]]; [left; lia|left; lia|left; lia|]. right. split; [lia|].
  destruct (sr_timestamp_ms a), (sr_timestamp_ms b), (sr_timestamp_ms c); simpl in *; try done.
  apply Z.ltb_ge in T1, T2. apply Z.ltb_ge. lia.
Qed.

(** The keys of the message loop, in order. *)
Definition message_keys (i : SearchIndex) : list MessageKey :=
  merge_sort search_key_le (elements (dom (ix_message_terms i))).

(** What the three loops collect. *)
Definition search_hits (i : SearchIndex) (q : SearchQuery) : list SearchResult :=
  let terms := tokenize (sq_text q) in
  ((if scope_in [InGlobal; InContacts; InBots] (sq_scope q)
    then omap (actor_result terms (sq_scope q) i) (btree_keys (ix_actor_terms i)) else [])
   ++ (if scope_in [InGlobal; InGroups; InChannels] (sq_scope q)
       then omap (conversation_result terms (sq_scope q) i) (btree_keys (ix_conversation_terms i)) else [])
   ++ (if scope_in [InGlobal; InConversation; InMedia; InFiles; InLinks] (sq_scope q)
       then omap (message_result terms q i) (message_keys i) else []))%list.

(** [SearchIndex::search]; [merge_sort] is stable, as [sort_by] is. *)
Definition search (i : SearchIndex) (q : SearchQuery) : list SearchResult :=
  if bool_decide (tokenize (sq_text q) = ∅) then []
  else take (Z.to_nat (Z.max 1 (sq_limit q))) (merge_sort result_le (search_hits i q)).

(** ** What a search returns *)

Lemma score_terms_nonneg query indexed : 0 <= score_terms query indexed.
Proof.
  unfold score_terms. induction (elements query) as [|t l IH]; simpl; [done|].
  assert (0 <= term_score indexed t) by (unfold term_score; repeat case_match; lia). lia.
Qed.

Lemma hits_ranked i q r : r ∈ search i q ->
  r ∈ search_hits i q.
Proof.
  unfold search. case_bool_decide; [by intros ?%elem_of_nil|]. intros Hr.
  apply (subseteq_take _ _) in Hr. by rewrite merge_sort_Permutation in Hr.
Qed.

Lemma elem_of_btree_keys {K V : Type} `{Countable K, !BTreeKey K} (m : gmap K V) (k : K) :
  k ∈ btree_keys m <-> is_Some (m !! k).
Proof.
  unfold btree_keys. rewrite list_elem_of_fmap. split.
  - intros ([k' v] & -> & Hv%elem_of_btree_items). by exists v.
  - intros [v Hv]. exists (k, v). by rewrite elem_of_btree_items.
Qed.

Lemma elem_of_message_keys i key : key ∈ message_keys i <-> is_Some (ix_message_terms i !! key).
Proof. unfold message_keys. by rewrite merge_sort_Permutation, elem_of_elements, elem_of_dom. Qed.

(** ** The index mirrors what was indexed *)

Record index_wf (i : SearchIndex) : Prop := {
  iw_actors : forall id, ix_actor_terms i !! id = (fun a => tokenize (actor_search_text a)) <$> ix_actors i !! id;
  iw_conversations : forall id, ix_conversation_terms i !! id =
    (fun c => tokenize (conv_title c +:+ " " +:+ opt_text (conv_description c))) <$> ix_conversations i !! id;
  iw_messages : forall k, ix_message_terms i !! k = (fun m => tokenize (message_search_text m)) <$> ix_messages i !! k;
  iw_actor_ids : map_Forall (fun id a => actor_id a = id) (ix_actors i);
  iw_conversation_ids : map_Forall (fun id c => conv_id c = id) (ix_conversations i);
  iw_message_keys : map_Forall (fun k m => message_key m = k) (ix_messages i);
}.

Lemma empty_index_wf : index_wf empty_index.
Proof. split; (apply map_Forall_empty || (intros; simpl; by rewrite !lookup_empty)). Qed.

Lemma insert_mirror {K A B : Type} `{Countable K} (f : A -> B) (k : K) (a : A) (mt : gmap K B) (m : gmap K A) :
  (forall j, mt !! j = f <$> m !! j) -> forall j, <[k := f a]> mt !! j = f <$> <[k := a]> m !! j.
Proof. intros Hm j. destruct (decide (k = j)) as [->|Hne]; by simplify_map_eq. Qed.

Lemma insert_ids {K A : Type} `{Countable K} (key : A -> K) (a : A) (m : gmap K A) :
  map_Forall (fun k x => key x = k) m -> map_Forall (fun k x => key x = k) (<[key a := a]> m).
Proof. intros Hm. by apply map_Forall_insert_2. Qed.

Lemma index_actor_wf a i : index_wf i -> index_wf (index_actor a i).
Proof.
  intros [H1 H2 H3 H4 H5 H6]. split; unfold index_actor; fields; try done.
  - by apply (insert_mirror (fun a => tokenize (actor_search_text a))).
  - by apply insert_ids.
Qed.

Lemma index_conversation_wf c i : index_wf i -> index_wf (index_conversation c i).
Proof.
  intros [H1 H2 H3 H4 H5 H6]. split; unfold index_conversation; fields; try done.
  - by apply (insert_mirror (fun c => tokenize (conv_title c +:+ " " +:+ opt_text (conv_description c)))).
  - by apply insert_ids.
Qed.

Lemma index_message_wf m i : index_wf i -> index_wf (index_message m i).
Proof.
  intros [H1 H2 H3 H4 H5 H6]. split; unfold index_message; fields; try done.
  - by apply (insert_mirror (fun m => tokenize (message_search_text m))).
  - by apply insert_ids.
Qed.

Lemma index_remove_message_wf c m i : index_wf i -> index_wf (index_remove_message c m i).
Proof.
  intros [H1 H2 H3 H4 H5 H6]. split; unfold index_remove_message; fields; try done.
  - intros k. destruct (decide ((c, m) = k)) as [<-|Hne];
      [by rewrite !lookup_delete_eq | by rewrite !lookup_delete_ne].
  - by apply map_Forall_delete.
Qed.

(** What a result says about the index: the item is there, it passes the
    filters of the query, and the score is that of its text. *)
Definition result_explained (i : SearchIndex) (q : SearchQuery) (r : SearchResult) : Prop :=
  match sr_kind r with
  | FoundActor => exists a, ix_actors i !! actor_id a = Some a /\ sr_id r = actor_id_0 (actor_id a)
      /\ actor_allowed (sq_scope q) a = true
      /\ sr_score r = score_terms (tokenize (sq_text q)) (tokenize (actor_search_text a))
  | FoundConversation => exists c, ix_conversations i !! conv_id c = Some c
      /\ sr_conversation_id r = Some (conv_id c)
      /\ conversation_allowed (sq_scope q) c = true
      /\ sr_score r = score_terms (tokenize (sq_text q))
           (tokenize (conv_title c +:+ " " +:+ opt_text (conv_description c)))
  | FoundMessage => exists m, ix_messages i !! message_key m = Some m
      /\ sr_conversation_id r = Some (msg_conversation_id m) /\ sr_id r = message_id_0 (msg_id m)
      /\ message_skipped q (msg_conversation_id m) m = false
      /\ sr_score r = score_terms (tokenize (sq_text q)) (tokenize (message_search_text m))
  end.

Lemma actor_hit i q r id : index_wf i ->
  actor_result (tokenize (sq_text q)) (sq_scope q) i id = Some r -> result_explained i q r /\ 0 < sr_score r.
Proof.
  intros Hwf. unfold actor_result. rewrite (iw_actors i Hwf id).
  destruct (ix_actors i !! id) as [a|] eqn:Ha; [|done]. simpl.
  pose proof (iw_actor_ids i Hwf id a Ha) as Hid. simpl in Hid.
  destruct (_ && _) eqn:E; [|done]. intros [= <-]. apply andb_true_iff in E as [E1 E2%Z.ltb_lt].
  split; [|done]. exists a. subst id. done.
Qed.

Lemma conversation_hit i q r id : index_wf i ->
  conversation_result (tokenize (sq_text q)) (sq_scope q) i id = Some r ->
  result_explained i q r /\ 0 < sr_score r.
Proof.
  intros Hwf. unfold conversation_result. rewrite (iw_conversations i Hwf id).
  destruct (ix_conversations i !! id) as [a|] eqn:Ha; [|done]. simpl.
  pose proof (iw_conversation_ids i Hwf id a Ha) as Hid. simpl in Hid.
  destruct (_ && _) eqn:E; [|done]. intros [= <-]. apply andb_true_iff in E as [E1 E2%Z.ltb_lt].
  split; [|done]. exists a. subst id. done.
Qed.

Lemma message_hit i q r k : index_wf i ->
  message_result (tokenize (sq_text q)) q i k = Some r -> result_explained i q r /\ 0 < sr_score r.
Proof.
  intros Hwf. unfold message_result. rewrite (iw_messages i Hwf k).
  destruct (ix_messages i !! k) as [m|] eqn:Hm; [|done]. simpl.
  pose proof (iw_message_keys i Hwf k m Hm) as Hk. simpl in Hk.
  destruct (_ && _) eqn:E; [|done]. intros [= <-]. apply andb_true_iff in E as [E1%negb_true_iff E2%Z.ltb_lt].
  split; [|done]. exists m. subst k. done.
Qed.

Lemma hits_explained i q r : index_wf i -> r ∈ search_hits i q -> result_explained i q r /\ 0 < sr_score r.
Proof.
  intros Hwf. unfold search_hits.
  intros [Hr|[Hr|Hr]%elem_of_app]%elem_of_app; case_match; try (by apply elem_of_nil in Hr);
    apply list_elem_of_omap in Hr as (k & _ & Hk);
    eauto using actor_hit, conversation_hit, message_hit.
Qed.

(** A search over an index built by its operations returns the best
    matches, in order: the results, followed by the hits it left out, are all
    the hits sorted by score and then by time, cut at the limit of the query;
    and every result is an indexed item that passes the filters of the query,
    with the positive score of its own text. *)
Theorem search_returns_best_matches (i : SearchIndex) (q : SearchQuery) :
  index_wf i -> tokenize (sq_text q) <> ∅ ->
  exists rest,
    (search i q ++ rest)%list ≡ₚ search_hits i q
    /\ StronglySorted result_le (search i q ++ rest)
    /\ length (search i q) = Nat.min (Z.to_nat (Z.max 1 (sq_limit q))) (length (search_hits i q))
    /\ forall r, r ∈ search i q -> result_explained i q r /\ 0 < sr_score r.
Proof.
  intros Hwf Hterms. exists (drop (Z.to_nat (Z.max 1 (sq_limit q))) (merge_sort result_le (search_hits i q))).
  assert (Hr : forall r, r ∈ search i q -> result_explained i q r /\ 0 < sr_score r)
    by (intros r Hr; by apply hits_explained, hits_ranked).
  unfold search in *. rewrite bool_decide_eq_false_2 in * by done. rewrite take_drop.
  split_and!; [apply merge_sort_Permutation | apply (StronglySorted_merge_sort result_le) | | done].
  rewrite length_take. by rewrite (merge_sort_Permutation result_le).
Qed.
End search.
