(* ===== verification/BlobStore.v ===== *)
(** * The blob store ([blob_store.rs]): resumable uploads to files

    The directory of the store is the map from the names of its files to their
    bytes; of the file system's errors only the missing file is modelled.
    SHA-256 and the JSON of the metadata are other people's code, the fields of
    [BlobCodec]. *)

From S2P Require Import Prelude Text Maps Bytes.

Definition MAX_BLOB_RANGE_BYTES : Z := 8 * 1024 * 1024.

Record BlobId := MkBlobId { blob_id_0 : string }.
#[export] Instance BlobId_eq_dec : EqDecision BlobId.
Proof. solve_decision. Defined.

Record BlobMetadata := {
  bm_id : BlobId;
  bm_file_name : string;
  bm_mime_type : string;
  bm_size_bytes : Z;
  bm_content_hash : option string;
  bm_created_at_ms : Z;
}.
#[export] Instance BlobMetadata_eq_dec : EqDecision BlobMetadata.
Proof. solve_decision. Defined.

Record BlobUploadStatus := {
  bu_id : BlobId;
  bu_size_bytes : Z;
  bu_uploaded_bytes : Z;
  bu_complete : bool;
}.

(** A file error other than a missing metadata file is [BlobIo]. *)
Inductive BlobStoreError :=
| InvalidBlobId (value : string)
| InvalidFileName
| InvalidMimeType
| AlreadyExists (id : BlobId)
| BlobNotFound (id : BlobId)
| MissingMetadata (path : string)
| EmptyChunk
| SizeOverflow
| UnexpectedOffset (id : BlobId) (expected actual : Z)
| UploadTooLarge (id : BlobId) (expected actual : Z)
| IncompleteUpload (id : BlobId) (expected actual : Z)
| InvalidContentHash (value : string)
| IntegrityMismatch (expected actual : string)
| InvalidRangeLength (length : Z)
| RangeOutOfBounds (id : BlobId) (offset size : Z)
| BlobIo (path : string)
| BlobJson (reason : string).
#[export] Instance BlobStoreError_eq_dec : EqDecision BlobStoreError.
Proof. solve_decision. Defined.

Class BlobCodec := {
  blob_sha256 : list ascii -> list ascii;
  metadata_to_json : BlobMetadata -> list ascii;
  metadata_of_json : list ascii -> result string BlobMetadata;
}.

Class BlobCodecLaws `{BlobCodec} : Prop :=
  metadata_json_roundtrip : forall m, metadata_of_json (metadata_to_json m) = Ok m.

(** [FileBlobStore]: the files under its root. *)
Record FileBlobStore := { fs_files : gmap string (list ascii) }.
#[export] Instance eta_FileBlobStore : Eta FileBlobStore := fun s => Build_FileBlobStore (fs_files s).

(** ** Validation *)

(** [BlobId::new] *)
Definition blob_id_new (value : string) : result BlobStoreError BlobId :=
  reject_if (is_empty value || (128 <? len value)
             || negb (all_bytes (fun b => is_ascii_alphanumeric b || eqb b "-"%char || eqb b "_"%char
                                          || eqb b "."%char) value)
             || eqb value "." || eqb value "..") (InvalidBlobId value) ;;
  Ok (MkBlobId value).

Definition validate_metadata (m : BlobMetadata) : result BlobStoreError unit :=
  blob_id_new (blob_id_0 (bm_id m)) ;;
  reject_if (blank (bm_file_name m)) InvalidFileName ;;
  reject_if (blank (bm_mime_type m)) InvalidMimeType.

Definition normalize_sha256 (value : string) : result BlobStoreError string :=
  let trimmed := trim value in
  let raw := default trimmed (strip_prefix "sha256:" trimmed) in
  let normalized := to_ascii_lowercase raw in
  reject_if (negb (len normalized =? 64)
             || negb (all_bytes (fun a => is_some_and (hex_value a) (fun _ => true)) normalized))
    (InvalidContentHash value) ;;
  Ok normalized.

(** ** The files of a blob *)

Definition blob_path (id : BlobId) : string := blob_id_0 id +:+ ".blob".
Definition metadata_path (id : BlobId) : string := blob_id_0 id +:+ ".json".
Definition part_path (id : BlobId) : string := blob_id_0 id +:+ ".part".
Definition part_metadata_path (id : BlobId) : string := blob_id_0 id +:+ ".part.json".
(** [path.with_extension("json.tmp")] of a part's metadata file *)
Definition temporary_path (id : BlobId) : string := blob_id_0 id +:+ ".part.json.tmp".

Definition file_len (file : list ascii) : Z := Z.of_nat (length file).

(** [fs::metadata(path)?], [File::open(path)?] *)
Definition open_file (s : FileBlobStore) (path : string) : result BlobStoreError (list ascii) :=
  ok_or (fs_files s !! path) (BlobIo path).

(** [fs::rename] *)
Definition rename_file (from to : string) (s : FileBlobStore) : FileBlobStore :=
  match fs_files s !! from with
  | Some file => s ⟪ fs_files := <[to := file]> (delete from (fs_files s)) ⟫
  | None => s
  end.

Section blobs.
Context `{BC : BlobCodec}.

Definition read_metadata (s : FileBlobStore) (path : string) : result BlobStoreError BlobMetadata :=
  bytes ← ok_or (fs_files s !! path) (MissingMetadata path);
  map_err BlobJson (metadata_of_json bytes).

(** Written to the temporary file, which then replaces [path]. *)
Definition write_metadata_atomic (temporary path : string) (m : BlobMetadata) (s : FileBlobStore) :
    FileBlobStore :=
  rename_file temporary path (s ⟪ fs_files ::= <[temporary := metadata_to_json m]> ⟫).

(** [sha256_file]: the loop feeds the whole file to the hasher. *)
Definition sha256_file (file : list ascii) : string := encode_hex (blob_sha256 file).

(** [FileBlobStore::metadata] *)
Definition blob_metadata (s : FileBlobStore) (id : BlobId) : result BlobStoreError BlobMetadata :=
  read_metadata s (metadata_path id).

(** ** Operations *)

Definition upload_progress (m : BlobMetadata) (id : BlobId) (uploaded : Z) (complete : bool) :
    BlobUploadStatus :=
  {| bu_id := id; bu_size_bytes := bm_size_bytes m; bu_uploaded_bytes := uploaded; bu_complete := complete |}.

Definition begin_upload (s : FileBlobStore) (m : BlobMetadata) :
    FileBlobStore * result BlobStoreError BlobUploadStatus :=
  match validate_metadata m with
  | Err e => (s, Err e)
  | Ok _ =>
      if contains_key (blob_path (bm_id m)) (fs_files s) then
        (s, existing ← blob_metadata s (bm_id m);
            reject_if (negb (eqb existing m)) (AlreadyExists (bm_id m)) ;;
            Ok (upload_progress m (bm_id m) (bm_size_bytes m) true))
      else
        let s1 := if contains_key (part_path (bm_id m)) (fs_files s) then s
                  else s ⟪ fs_files ::= <[part_path (bm_id m) := []]> ⟫ in
        let s2 := write_metadata_atomic (temporary_path (bm_id m)) (part_metadata_path (bm_id m)) m s1 in
        (s2, part ← open_file s2 (part_path (bm_id m));
             reject_if (bm_size_bytes m <? file_len part)
               (UploadTooLarge (bm_id m) (bm_size_bytes m) (file_len part)) ;;
             Ok (upload_progress m (bm_id m) (file_len part) false))
  end.

Definition upload_status (s : FileBlobStore) (id : BlobId) : result BlobStoreError BlobUploadStatus :=
  if contains_key (blob_path id) (fs_files s) then
    m ← blob_metadata s id;
    file ← open_file s (blob_path id);
    Ok (upload_progress m id (file_len file) true)
  else
    m ← read_metadata s (part_metadata_path id);
    part ← open_file s (part_path id);
    Ok (upload_progress m id (file_len part) false).

(** The checks of [append_chunk]: the file as it is, its length afterwards. *)
Definition chunk_fits (s : FileBlobStore) (id : BlobId) (offset : Z) (bytes : list ascii) :
    result BlobStoreError (BlobMetadata * list ascii * Z) :=
  reject_if (bool_decide (bytes = [])) EmptyChunk ;;
  m ← read_metadata s (part_metadata_path id);
  part ← open_file s (part_path id);
  reject_if (negb (file_len part =? offset)) (UnexpectedOffset id (file_len part) offset) ;;
  next ← ok_or (checked_add_u64 (file_len part) (file_len bytes)) SizeOverflow;
  reject_if (bm_size_bytes m <? next) (UploadTooLarge id (bm_size_bytes m) next) ;;
  Ok (m, part, next).

Definition append_chunk (s : FileBlobStore) (id : BlobId) (offset : Z) (bytes : list ascii) :
    FileBlobStore * result BlobStoreError BlobUploadStatus :=
  match chunk_fits s id offset bytes with
  | Err e => (s, Err e)
  | Ok (m, part, next) =>
      (s ⟪ fs_files ::= <[part_path id := (part ++ bytes)%list]> ⟫, Ok (upload_progress m id next false))
  end.

(** The checks of [finish_upload]. *)
Definition upload_checks (s : FileBlobStore) (id : BlobId) : result BlobStoreError BlobMetadata :=
  m ← read_metadata s (part_metadata_path id);
  part ← open_file s (part_path id);
  reject_if (negb (file_len part =? bm_size_bytes m)) (IncompleteUpload id (bm_size_bytes m) (file_len part)) ;;
  match bm_content_hash m with
  | None => Ok m
  | Some expected_hash =>
      expected ← normalize_sha256 expected_hash;
      reject_if (negb (eqb (sha256_file part) expected)) (IntegrityMismatch expected (sha256_file part)) ;;
      Ok m
  end.

Definition finish_upload (s : FileBlobStore) (id : BlobId) : FileBlobStore * result BlobStoreError BlobMetadata :=
  match upload_checks s id with
  | Err e => (s, Err e)
  | Ok m =>
      (rename_file (part_metadata_path id) (metadata_path id) (rename_file (part_path id) (blob_path id) s), Ok m)
  end.

Definition read_range (s : FileBlobStore) (id : BlobId) (offset length : Z) : result BlobStoreError (list ascii) :=
  reject_if ((length =? 0) || (MAX_BLOB_RANGE_BYTES <? length)) (InvalidRangeLength length) ;;
  file ← open_file s (blob_path id);
  reject_if (file_len file <=? offset) (RangeOutOfBounds id offset (file_len file)) ;;
  let readable := Z.min length (file_len file - offset) in
  Ok (take (Z.to_nat readable) (drop (Z.to_nat offset) file)).

Definition blob_files (id : BlobId) : list string :=
  [blob_path id; metadata_path id; part_path id; part_metadata_path id].

(** [FileBlobStore::delete] *)
Definition delete_blob (s : FileBlobStore) (id : BlobId) : FileBlobStore * result BlobStoreError unit :=
  (s ⟪ fs_files ::= fun files => foldr delete files (blob_files id) ⟫,
   reject_if (negb (existsb (fun path => contains_key path (fs_files s)) (blob_files id))) (BlobNotFound id)).

(** ** Names *)

Lemma append_inj_l (p a b : string) : p +:+ a = p +:+ b -> a = b.
Proof. induction p as [|c p IH]; simpl; [done|]. intros [= H]. auto. Qed.

(** The files of one blob have five different names. *)
Lemma paths_differ (id : BlobId) :
  NoDup [blob_path id; metadata_path id; part_path id; part_metadata_path id; temporary_path id].
Proof.
  unfold blob_path, metadata_path, part_path, part_metadata_path, temporary_path.
  repeat (apply list.NoDup_cons; split;
    [rewrite ?not_elem_of_cons; split_and?; try (intros H%append_inj_l; discriminate H); apply not_elem_of_nil|]).
  apply NoDup_nil_2.
Qed.

Ltac other_path id :=
  let H := fresh in pose proof (paths_differ id) as H;
  unfold blob_path, metadata_path, part_path, part_metadata_path, temporary_path in *;
  apply list.NoDup_cons in H as [? H]; apply list.NoDup_cons in H as [? H];
  apply list.NoDup_cons in H as [? H]; apply list.NoDup_cons in H as [? H]; clear H;
  rewrite !not_elem_of_cons in *; destruct_and?;
  repeat first [rewrite lookup_insert_eq | rewrite lookup_insert_ne by congruence
               | rewrite lookup_delete_eq | rewrite lookup_delete_ne by congruence]; try done.

Lemma rename_file_other (from to p : string) (s : FileBlobStore) : p <> from -> p <> to ->
  fs_files (rename_file from to s) !! p = fs_files s !! p.
Proof.
  intros Hf Ht. unfold rename_file. destruct (fs_files s !! from); [|done]. fields.
  by rewrite lookup_insert_ne, lookup_delete_ne by congruence.
Qed.

(** ** The life of an upload *)

(** An upload of [m] under way: its part file holds [part]. *)
Record uploading (s : FileBlobStore) (m : BlobMetadata) (part : list ascii) : Prop := {
  up_unpublished : fs_files s !! blob_path (bm_id m) = None;
  up_part : fs_files s !! part_path (bm_id m) = Some part;
  up_metadata : fs_files s !! part_metadata_path (bm_id m) = Some (metadata_to_json m);
}.

Context `{BL : !BlobCodecLaws}.

Lemma read_metadata_written s path m :
  fs_files s !! path = Some (metadata_to_json m) -> read_metadata s path = Ok m.
Proof. intros H. unfold read_metadata. rewrite H. simpl. by rewrite metadata_json_roundtrip. Qed.

Lemma write_metadata_files temporary path m s p : temporary <> path -> p <> temporary ->
  fs_files (write_metadata_atomic temporary path m s) !! p
  = if decide (p = path) then Some (metadata_to_json m) else fs_files s !! p.
Proof.
  intros Hne Hp. unfold write_metadata_atomic, rename_file. fields. rewrite lookup_insert_eq. fields.
  case_decide; subst; [by rewrite lookup_insert_eq|].
  by rewrite lookup_insert_ne, lookup_delete_ne, lookup_insert_ne by congruence.
Qed.

(** Beginning an upload keeps what an earlier attempt stored. *)
Lemma begin_upload_resumes s m part :
  validate_metadata m = Ok tt -> fs_files s !! blob_path (bm_id m) = None ->
  default [] (fs_files s !! part_path (bm_id m)) = part -> file_len part <= bm_size_bytes m ->
  exists s', begin_upload s m = (s', Ok (upload_progress m (bm_id m) (file_len part) false))
    /\ uploading s' m part.
Proof.
  intros Hv Hb Hp Hl. unfold begin_upload. rewrite Hv, (proj2 (contains_key_false _ _) Hb).
  set (s1 := if contains_key _ _ then _ else _).
  assert (H1 : fs_files s1 !! part_path (bm_id m) = Some part /\ fs_files s1 !! blob_path (bm_id m) = None).
  { subst s1. destruct (contains_key _ _) eqn:E.
    - apply contains_key_spec in E as [x Hx]. rewrite Hx in *. simpl in *. by subst.
    - apply contains_key_false in E. rewrite E in Hp. simpl in Hp. subst part. fields.
      split; [by rewrite lookup_insert_eq|]. by other_path (bm_id m). }
  clearbody s1. destruct H1 as [H1 H2]. eexists.
  assert (Hup : uploading (write_metadata_atomic (temporary_path (bm_id m)) (part_metadata_path (bm_id m)) m s1) m part).
  { split; rewrite write_metadata_files by (other_path (bm_id m); congruence);
      case_decide as Hd; try done; exfalso; revert Hd; other_path (bm_id m). }
  split; [|exact Hup]. f_equal. unfold open_file. rewrite (up_part _ _ _ Hup). simpl.
  by rewrite (proj2 (Z.ltb_ge _ _) Hl).
Qed.

Lemma append_chunk_extends s m part bytes :
  uploading s m part -> bytes <> [] -> file_len (part ++ bytes) <= bm_size_bytes m <= u64_max ->
  exists s', append_chunk s (bm_id m) (file_len part) bytes
      = (s', Ok (upload_progress m (bm_id m) (file_len (part ++ bytes)) false))
    /\ uploading s' m (part ++ bytes)%list.
Proof.
  intros [H1 H2 H3] Hb Hl. unfold append_chunk, chunk_fits. rewrite bool_decide_eq_false_2 by done. simpl.
  rewrite (read_metadata_written _ _ m H3). simpl. unfold open_file. rewrite H2. simpl.
  rewrite Z.eqb_refl. simpl.
  replace (file_len part + file_len bytes) with (file_len (part ++ bytes))
    by (unfold file_len; rewrite length_app; lia).
  unfold checked_add_u64, checked. replace (file_len part + file_len bytes) with (file_len (part ++ bytes))
    by (unfold file_len; rewrite length_app; lia).
  rewrite (proj2 (in_u64_spec _)) by (unfold file_len in *; lia). simpl.
  rewrite (proj2 (Z.ltb_ge _ _)) by lia. simpl. eexists. split; [done|].
  split; fields; other_path (bm_id m).
Qed.

(** The client's loop: one chunk after the other, at the offset reached. *)
Fixpoint append_chunks (s : FileBlobStore) (id : BlobId) (offset : Z) (chunks : list (list ascii)) :
    FileBlobStore * result BlobStoreError Z :=
  match chunks with
  | [] => (s, Ok offset)
  | bytes :: rest =>
      match append_chunk s id offset bytes with
      | (s', Ok status) => append_chunks s' id (bu_uploaded_bytes status) rest
      | (s', Err e) => (s', Err e)
      end
  end.

Lemma append_chunks_extend chunks : forall s m part,
  uploading s m part -> Forall (fun c => c <> []) chunks ->
  file_len (part ++ concat chunks) <= bm_size_bytes m <= u64_max ->
  exists s', append_chunks s (bm_id m) (file_len part) chunks = (s', Ok (file_len (part ++ concat chunks)))
    /\ uploading s' m (part ++ concat chunks)%list.
Proof.
  induction chunks as [|c rest IH]; intros s m part Hup Hne Hl; simpl in *.
  - rewrite app_nil_r. by exists s.
  - apply list.Forall_cons in Hne as [Hc Hrest].
    destruct (append_chunk_extends s m part c Hup Hc) as (s1 & -> & Hup1).
    { unfold file_len in *. rewrite !length_app in *. lia. }
    simpl. destruct (IH s1 m (part ++ c)%list Hup1 Hrest) as (s2 & Hrun & Hup2); [by rewrite <- app_assoc|].
    rewrite <- app_assoc in Hrun, Hup2. by exists s2.
Qed.

(** The hash the client announced, if it did, is that of the content. *)
Definition hash_matches (m : BlobMetadata) (content : list ascii) : Prop :=
  forall h, bm_content_hash m = Some h -> normalize_sha256 h = Ok (sha256_file content).

Lemma upload_checks_complete s m content :
  uploading s m content -> file_len content = bm_size_bytes m -> hash_matches m content ->
  upload_checks s (bm_id m) = Ok m.
Proof.
  intros [H1 H2 H3] Hl Hh. unfold upload_checks. rewrite (read_metadata_written _ _ m H3). simpl.
  unfold open_file. rewrite H2. simpl. rewrite (proj2 (Z.eqb_eq _ _) Hl). simpl.
  destruct (bm_content_hash m) as [h|] eqn:E; [|done]. rewrite (Hh h E). simpl.
  by rewrite (proj2 (eqb_spec _ _) eq_refl).
Qed.

(** A published blob. *)
Record published (s : FileBlobStore) (m : BlobMetadata) (content : list ascii) : Prop := {
  pub_content : fs_files s !! blob_path (bm_id m) = Some content;
  pub_metadata : fs_files s !! metadata_path (bm_id m) = Some (metadata_to_json m);
  pub_no_part : fs_files s !! part_path (bm_id m) = None;
}.

Lemma finish_upload_publishes s m content :
  uploading s m content -> file_len content = bm_size_bytes m -> hash_matches m content ->
  exists s', finish_upload s (bm_id m) = (s', Ok m) /\ published s' m content.
Proof.
  intros Hup Hl Hh. unfold finish_upload. rewrite (upload_checks_complete s m content) by done.
  eexists. split; [done|]. destruct Hup as [H1 H2 H3]. unfold rename_file at 2. rewrite H2.
  unfold rename_file. fields.
  replace (<[blob_path (bm_id m):=content]> (delete (part_path (bm_id m)) (fs_files s))
             !! part_metadata_path (bm_id m)) with (Some (metadata_to_json m)) by (symmetry; other_path (bm_id m)).
  split; fields; other_path (bm_id m).
Qed.

Lemma read_range_published s m content offset length :
  published s m content -> 0 < length <= MAX_BLOB_RANGE_BYTES -> 0 <= offset < file_len content ->
  read_range s (bm_id m) offset length = Ok (take (Z.to_nat length) (drop (Z.to_nat offset) content)).
Proof.
  intros [H1 _ _] Hl Ho. unfold read_range. rewrite (proj2 (Z.eqb_neq _ _)) by lia.
  rewrite (proj2 (Z.ltb_ge _ _)) by lia. simpl. unfold open_file. rewrite H1. simpl.
  rewrite (proj2 (Z.leb_gt _ _)) by lia. simpl. f_equal.
  destruct (Z.le_gt_cases length (file_len content - offset)) as [Hle|Hgt].
  - by rewrite Z.min_l.
  - rewrite Z.min_r by lia. unfold file_len in *. rewrite !take_ge; [done|rewrite length_drop; lia..].
Qed.

(** C25: An upload interrupted and begun again delivers its content: beginning
    reports how far the first session came, the second session continues
    there, finishing publishes the metadata and the content with the announced
    size and hash, and every range of it reads back as it was sent. *)
Theorem resumed_upload_reads_back (s : FileBlobStore) (m : BlobMetadata) (first second : list (list ascii)) :
  let content := concat (first ++ second) in
  validate_metadata m = Ok tt ->
  fs_files s !! blob_path (bm_id m) = None -> fs_files s !! part_path (bm_id m) = None ->
  Forall (fun c => c <> []) (first ++ second) ->
  file_len content = bm_size_bytes m -> bm_size_bytes m <= u64_max -> hash_matches m content ->
  exists s1 s2 s3 s4 s5,
    begin_upload s m = (s1, Ok (upload_progress m (bm_id m) 0 false))
    /\ append_chunks s1 (bm_id m) 0 first = (s2, Ok (file_len (concat first)))
    /\ begin_upload s2 m = (s3, Ok (upload_progress m (bm_id m) (file_len (concat first)) false))
    /\ append_chunks s3 (bm_id m) (file_len (concat first)) second = (s4, Ok (bm_size_bytes m))
    /\ finish_upload s4 (bm_id m) = (s5, Ok m)
    /\ blob_metadata s5 (bm_id m) = Ok m
    /\ upload_status s5 (bm_id m) = Ok (upload_progress m (bm_id m) (bm_size_bytes m) true)
    /\ forall offset length, 0 < length <= MAX_BLOB_RANGE_BYTES -> 0 <= offset < bm_size_bytes m ->
         read_range s5 (bm_id m) offset length
         = Ok (take (Z.to_nat length) (drop (Z.to_nat offset) content)).
Proof.
  intros content Hv Hb Hp Hne Hl Hmax Hh. subst content. rewrite concat_app in *.
  apply Forall_app in Hne as [Hne1 Hne2].
  assert (Hlf : file_len (concat first) <= bm_size_bytes m)
    by (rewrite <- Hl; unfold file_len; rewrite length_app; lia).
  destruct (begin_upload_resumes s m [] Hv Hb) as (s1 & E1 & U1);
    [by rewrite Hp | rewrite <- Hl; unfold file_len; simpl; lia|].
  destruct (append_chunks_extend first s1 m [] U1 Hne1) as (s2 & E2 & U2); [by simpl|]. simpl in *.
  destruct (begin_upload_resumes s2 m (concat first) Hv (up_unpublished _ _ _ U2)) as (s3 & E3 & U3);
    [by rewrite (up_part _ _ _ U2) | done|].
  destruct (append_chunks_extend second s3 m (concat first) U3 Hne2) as (s4 & E4 & U4); [lia|].
  destruct (finish_upload_publishes s4 m _ U4 Hl Hh) as (s5 & E5 & P5).
  exists s1, s2, s3, s4, s5. rewrite <- Hl. split_and!; try done.
  - unfold blob_metadata. apply read_metadata_written, P5.
  - unfold upload_status. rewrite (proj2 (contains_key_spec _ _)) by (eexists; apply P5).
    unfold blob_metadata. rewrite (read_metadata_written _ _ m) by apply P5. simpl.
    unfold open_file. by rewrite (pub_content _ _ _ P5).
  - intros offset length Hr Ho. by apply (read_range_published s5 m).
Qed.

(** What [finish_upload] publishes is complete and has the announced hash. *)
Lemma published_content_is_verified s s' id m : finish_upload s id = (s', Ok m) ->
  exists content, fs_files s !! part_path id = Some content /\ file_len content = bm_size_bytes m
    /\ (forall h, bm_content_hash m = Some h -> normalize_sha256 h = Ok (sha256_file content))
    /\ fs_files s' !! blob_path id = Some content.
Proof.
  unfold finish_upload. destruct (upload_checks s id) as [m'|] eqn:E; [|done]. intros [= <- <-].
  unfold upload_checks in E. unfold open_file in E. okps. apply Z.eqb_eq in Hok1.
  assert (m' = a /\ forall h, bm_content_hash a = Some h -> normalize_sha256 h = Ok (sha256_file a0)) as [-> Hh].
  { destruct (bm_content_hash a) as [h'|]; okps; subst; [|done].
    split; [done|]. intros h [= <-]. by apply eqb_true in Hok3 as ->. }
  exists a0. split_and!; [done..|].
  rewrite rename_file_other by (other_path id; congruence).
  unfold rename_file. rewrite Hok0. fields. by rewrite lookup_insert_eq.
Qed.
End blobs.

(** ** A concrete codec and upload *)

Definition metadata_parts (m : BlobMetadata) : string * string * string * Z * option string * Z :=
  (blob_id_0 (bm_id m), bm_file_name m, bm_mime_type m, bm_size_bytes m, bm_content_hash m, bm_created_at_ms m).

Definition metadata_of_parts (p : string * string * string * Z * option string * Z) : BlobMetadata :=
  let '(id, name, mime, size, hash, at_ms) := p in
  {| bm_id := MkBlobId id; bm_file_name := name; bm_mime_type := mime; bm_size_bytes := size;
     bm_content_hash := hash; bm_created_at_ms := at_ms |}.

#[local] Instance toy_blob_codec : BlobCodec := {
  blob_sha256 l := take 32 (l ++ replicate 32 "0"%char);
  metadata_to_json m := bits_of_positive (encode (metadata_parts m));
  metadata_of_json l := ok_or (metadata_of_parts <$> decode (positive_of_bits l)) "json";
}.

#[local] Instance toy_blob_laws : BlobCodecLaws.
Proof. intros [[i] n t z h a]. simpl. by rewrite positive_bits_roundtrip, decode_encode. Qed.

Definition clip : BlobMetadata := {|
  bm_id := MkBlobId "media-1"; bm_file_name := "hello.txt"; bm_mime_type := "text/plain";
  bm_size_bytes := 11; bm_content_hash := None; bm_created_at_ms := 1 |}.

Definition no_files : FileBlobStore := {| fs_files := ∅ |}.

Definition hello : list (list ascii) := [bytes_of "hel"; bytes_of "lo "].

Lemma resumed_upload_reads_back_witness :
  exists s1 s2 s3 s4 s5,
    begin_upload no_files clip = (s1, Ok (upload_progress clip (bm_id clip) 0 false))
    /\ append_chunks s1 (bm_id clip) 0 hello = (s2, Ok 6)
    /\ begin_upload s2 clip = (s3, Ok (upload_progress clip (bm_id clip) 6 false))
    /\ append_chunks s3 (bm_id clip) 6 [bytes_of "world"] = (s4, Ok 11)
    /\ finish_upload s4 (bm_id clip) = (s5, Ok clip)
    /\ read_range s5 (bm_id clip) 6 5 = Ok (bytes_of "world").
Proof.
  destruct (resumed_upload_reads_back no_files clip hello [bytes_of "world"]) as
    (s1 & s2 & s3 & s4 & s5 & H1 & H2 & H3 & H4 & H5 & _ & _ & H6).
  - reflexivity.
  - reflexivity.
  - reflexivity.
  - repeat (apply list.Forall_cons; split; [discriminate|]). apply list.Forall_nil; exact I.
  - reflexivity.
  - vm_compute. discriminate.
  - intros h. discriminate.
  - exists s1, s2, s3, s4, s5. split; [exact H1|]. split; [exact H2|]. split; [exact H3|].
    split; [exact H4|]. split; [exact H5|]. apply (H6 6 5); unfold MAX_BLOB_RANGE_BYTES; simpl; lia.
Defined.

(** The metadata file of a blob whose name ends in [.part] is that of another
    blob's upload: publishing the one replaces the announced size of the other. *)
Definition clip_part : BlobMetadata := {|
  bm_id := MkBlobId "media-1.part"; bm_file_name := "x"; bm_mime_type := "y";
  bm_size_bytes := 0; bm_content_hash := None; bm_created_at_ms := 2 |}.

Lemma blob_names_collide :
  let s1 := fst (begin_upload no_files clip) in
  let s2 := fst (begin_upload s1 clip_part) in
  let s3 := fst (finish_upload s2 (bm_id clip_part)) in
  validate_metadata clip_part = Ok tt
  /\ bu_size_bytes <$> upload_status s2 (bm_id clip) = Ok 11
  /\ bu_size_bytes <$> upload_status s3 (bm_id clip) = Ok 0.
Proof. vm_compute. repeat split; reflexivity. Qed.
