(* ===== verification/Protocol.v ===== *)
(** * The messaging protocol ([protocol.rs]): what clients and the server exchange

    The constructors of [ClientCommand] are those of the source with the prefix
    [CC_], those of [ServerEvent] with the prefix [SE_]. *)

From S2P Require Import Prelude Text Maps Conversation Message Payment Wallet Apps Community Search BlobStore.

Definition FABUSHI_MESSAGING_PROTOCOL_VERSION : Z := 2.

Record RequestContext := {
  ctx_request_id : string;
  ctx_device_id : string;
  ctx_actor_id : ActorId;
  ctx_session_id : string;
  ctx_sent_at_ms : Z;
}.

Inductive ClientCommand :=
| CC_Sync (cursor : option string) (limit : Z)
| CC_Search (query : SearchQuery)
| CC_UpsertProfile (actor : Actor)
| CC_SetPresence (presence : Presence)
| CC_CreateConversation (conversation : Conversation)
| CC_UpdateConversation (conversation : Conversation)
| CC_UpdateConversationInfo (conversation_id : ConversationId) (title : string) (description : option string)
| CC_SetConversationParticipant (conversation_id : ConversationId) (participant : Participant)
| CC_RemoveConversationParticipant (conversation_id : ConversationId) (actor_id : ActorId)
| CC_ArchiveConversation (conversation_id : ConversationId) (archived : bool)
| CC_PinConversation (conversation_id : ConversationId) (pinned : bool)
| CC_SetMarkedUnread (conversation_id : ConversationId) (marked_unread : bool)
| CC_SetDraft (conversation_id : ConversationId) (text : string) (reply_to_message_id : option MessageId)
| CC_SetConversationNotifications (conversation_id : ConversationId) (settings : NotificationSettings)
| CC_SetConversationMessageRetention (conversation_id : ConversationId) (retention_seconds : option Z)
    (expected_revision : Z)
| CC_UpsertFolder (folder : ConversationFolder)
| CC_DeleteFolder (folder_id : string)
| CC_SendMessage (conversation_id : ConversationId) (client_message_id : ClientMessageId)
    (content : MessageContent) (reply_to_message_id thread_root_message_id : option MessageId)
    (scheduled_at_ms : option Z) (silent protected_content : bool)
| CC_ForwardMessage (source_conversation_id : ConversationId) (message_id : MessageId)
    (destination_conversation_id : ConversationId) (client_message_id : ClientMessageId)
| CC_BeginBlobUpload (metadata : BlobMetadata)
| CC_AppendBlobChunk (blob_id : BlobId) (offset : Z) (data_base64 : string)
| CC_FinishBlobUpload (blob_id : BlobId)
| CC_DeleteBlob (blob_id : BlobId)
| CC_EditMessage (conversation_id : ConversationId) (message_id : MessageId) (content : MessageContent)
| CC_DeleteMessages (conversation_id : ConversationId) (message_ids : list MessageId) (for_everyone : bool)
| CC_MarkRead (conversation_id : ConversationId) (message_id : MessageId)
| CC_MarkTopicRead (conversation_id : ConversationId) (topic_id : string) (message_id : MessageId)
| CC_SetTopicDraft (conversation_id : ConversationId) (topic_id : string) (text : string)
    (reply_to_message_id : option MessageId)
| CC_SetReaction (conversation_id : ConversationId) (message_id : MessageId) (reaction : ReactionSummary)
| CC_PinMessage (conversation_id : ConversationId) (message_id : MessageId) (pinned : bool)
| CC_VotePoll (conversation_id : ConversationId) (message_id : MessageId) (option_ids : list string)
| CC_StartTyping (conversation_id : ConversationId) (action : string)
| CC_StopTyping (conversation_id : ConversationId)
| CC_CreateInvoice (invoice : Invoice)
| CC_CheckoutInvoice (invoice_id order_id : string) (customer : option CustomerInfo)
| CC_RefundOrder (order_id request_id : string)
| CC_WalletStatus
| CC_PublishStory (story : Story)
| CC_DeleteStory (story_id : StoryId)
| CC_ViewStory (story_id : StoryId)
| CC_ReactStory (story_id : StoryId) (reaction : option string)
| CC_UpdateCommunity (community : CommunityState)
| CC_SubscribeChannel (conversation_id : ConversationId)
| CC_UnsubscribeChannel (conversation_id : ConversationId)
| CC_ListCommunityMembers (conversation_id : ConversationId) (cursor : option string) (limit : Z)
| CC_ListCommunityAuditLog (conversation_id : ConversationId) (cursor : option string) (limit : Z)
| CC_SetCommunitySlowMode (conversation_id : ConversationId) (seconds : option Z)
| CC_ModerateCommunityMember (conversation_id : ConversationId) (member : CommunityMember) (reason : option string)
| CC_SetCommunityMember (conversation_id : ConversationId) (member : CommunityMember)
| CC_CreateInviteLink (invite : InviteLink)
| CC_RevokeInviteLink (conversation_id : ConversationId) (invite_id : string)
| CC_RequestCommunityJoin (request : JoinRequest)
| CC_RespondCommunityJoin (conversation_id : ConversationId) (requester_id : ActorId) (approved : bool)
| CC_UpsertForumTopic (topic : ForumTopicState)
| CC_DeleteForumTopic (conversation_id : ConversationId) (topic_id : string)
| CC_RegisterBot (profile : BotProfile)
| CC_InvokeBot (invocation : BotInvocation)
| CC_FinishBotExecution (execution_id : string) (success : bool) (error : option string)
| CC_InstallMiniApp (manifest : MiniAppManifest)
| CC_GrantMiniApp (grant : MiniAppGrant)
| CC_OpenMiniApp (session : MiniAppSession)
| CC_MiniAppCall (session_id request_id : string) (request : MiniAppRequest).

Record ClientEnvelope := {
  ce_protocol_version : Z;
  ce_context : RequestContext;
  ce_command : ClientCommand;
}.

(** [ClientEnvelope::new] *)
Definition client_envelope_new (context : RequestContext) (command : ClientCommand) : ClientEnvelope :=
  {| ce_protocol_version := FABUSHI_MESSAGING_PROTOCOL_VERSION; ce_context := context; ce_command := command |}.

(** The fields of [ServerEvent::SyncBatch]. *)
Record SyncBatch := {
  sb_actors : list Actor;
  sb_conversations : list Conversation;
  sb_messages : list Message;
  sb_folders : list ConversationFolder;
  sb_drafts : list ConversationDraft;
  sb_topic_drafts : list TopicDraft;
  sb_invoices : list Invoice;
  sb_orders : list PaymentOrder;
  sb_stories : list Story;
  sb_communities : list CommunityState;
  sb_bots : list BotProfile;
  sb_bot_executions : list BotExecution;
  sb_mini_apps : list MiniAppManifest;
  sb_next_cursor : option string;
}.

Inductive ServerEvent :=
| SE_SyncBatch (batch : SyncBatch)
| SE_SearchResults (query : SearchQuery) (results : list SearchResult)
| SE_ActorChanged (actor : Actor)
| SE_PresenceChanged (actor_id : ActorId) (presence : Presence)
| SE_ConversationChanged (conversation : Conversation)
| SE_ConversationMessageRetentionChanged (conversation_id : ConversationId) (retention_seconds : option Z)
    (revision : Z)
| SE_ConversationParticipantChanged (conversation : Conversation) (removed_actor_id : option ActorId)
| SE_MarkedUnreadChanged (conversation_id : ConversationId) (actor_id : ActorId) (marked_unread : bool)
| SE_DraftChanged (draft : ConversationDraft)
| SE_TopicDraftChanged (draft : TopicDraft)
| SE_FolderChanged (folder : ConversationFolder)
| SE_FolderDeleted (folder_id : string)
| SE_MessageAdded (message : Message)
| SE_MessageChanged (message : Message)
| SE_BlobUploadChanged (status : BlobUploadStatus)
| SE_BlobReady (metadata : BlobMetadata)
| SE_BlobDeleted (blob_id : BlobId)
| SE_MessagesDeleted (conversation_id : ConversationId) (message_ids : list MessageId)
| SE_ReadChanged (conversation_id : ConversationId) (actor_id : ActorId) (message_id : MessageId)
| SE_TopicReadChanged (conversation_id : ConversationId) (topic_id : string) (actor_id : ActorId)
    (message_id : MessageId)
| SE_TypingChanged (conversation_id : ConversationId) (actor_id : ActorId) (action : option string)
    (expires_at_ms : option Z)
| SE_InvoiceChanged (invoice : Invoice)
| SE_OrderChanged (order : PaymentOrder)
| SE_WalletStatus (account : option WalletAccount) (recent_entries : list LedgerEntry)
| SE_StoryChanged (story : Story)
| SE_StoryDeleted (story_id : StoryId)
| SE_CommunityChanged (community : CommunityState)
| SE_CommunityMembersPage (conversation_id : ConversationId) (members : list CommunityMember)
    (next_cursor : option string)
| SE_CommunityAuditLogPage (conversation_id : ConversationId) (entries : list CommunityAuditEntry)
    (next_cursor : option string)
| SE_BotChanged (profile : option BotProfile) (execution : option BotExecution)
| SE_BotInvocationRequested (invocation : BotInvocation)
| SE_MiniAppChanged (manifest : MiniAppManifest)
| SE_MiniAppOpened (session : MiniAppSession)
| SE_MiniAppResult (session_id request_id : string) (response : MiniAppResponse)
| SE_Error (request_id : option string) (code message : string) (retryable : bool).

Record ServerEnvelope := {
  env_protocol_version : Z;
  env_cursor : option string;
  env_server_time_ms : Z;
  env_event : ServerEvent;
}.
#[export] Instance eta_ServerEnvelope : Eta ServerEnvelope := fun e =>
  Build_ServerEnvelope (env_protocol_version e) (env_cursor e) (env_server_time_ms e) (env_event e).
