(* ===== verification/Store.v ===== *)
(** * Snapshots and the event journal ([store.rs])

    The trait [MessagingStateStore], its in-memory and SQLite implementations
    and the slices of the journal that a client reads.  The tables of SQLite are
    kept as rows and its statements as operations on them; a transaction that
    fails changes nothing.  JSON is other people's code, the fields of
    [StoreCodec]; file and SQLite errors are not modelled. *)

From S2P Require Import Prelude Text Maps Conversation EngineTypes Protocol.

Definition MESSAGING_SNAPSHOT_SCHEMA_VERSION : Z := 1.
Definition MESSAGING_SQLITE_SCHEMA_VERSION : Z := 2.
Definition MESSAGING_EVENT_JOURNAL_LIMIT : nat := Z.to_nat 10000.

Record MessagingSnapshot := {
  snap_schema_version : Z;
  snap_cursor : Z;
  snap_saved_at_ms : Z;
  snap_state : MessagingState;
}.

(** [MessagingSnapshot::new] *)
Definition snapshot_new (state : MessagingState) (cursor saved_at_ms : Z) : MessagingSnapshot := {|
  snap_schema_version := MESSAGING_SNAPSHOT_SCHEMA_VERSION; snap_cursor := cursor;
  snap_saved_at_ms := saved_at_ms; snap_state := state |}.

Record JournalEntry := { je_envelope : ServerEnvelope; je_audience : list ActorId }.

Record EventJournalSlice := {
  sl_floor_cursor : Z;
  sl_current_cursor : Z;
  sl_checkpoint_cursor : Z;
  sl_has_more : bool;
  sl_entries : list JournalEntry;
}.

Inductive StoreError :=
| StoreJson (reason : string)
| InvalidCursor (text : string)
| MissingEventCursor
| UnsupportedSchema (expected actual : Z)
| UnsupportedSqliteSchema (expected actual : Z).

(** [str::parse::<u64>]; [usize] has the same width. *)
Definition parse_u64 (s : string) : option Z := parse_usize s.

Definition validate_snapshot_schema (actual : Z) : result StoreError unit :=
  reject_if (negb (actual =? MESSAGING_SNAPSHOT_SCHEMA_VERSION))
    (UnsupportedSchema MESSAGING_SNAPSHOT_SCHEMA_VERSION actual).

Definition journal_cursor (entry : JournalEntry) : result StoreError Z :=
  text ← ok_or (env_cursor (je_envelope entry)) MissingEventCursor;
  ok_or (parse_u64 text) (InvalidCursor text).

(** [for event in events { journal_cursor(event)?; }] *)
Fixpoint journal_cursors (entries : list JournalEntry) : result StoreError (list Z) :=
  match entries with
  | [] => Ok []
  | entry :: rest => cursor ← journal_cursor entry; cursors ← journal_cursors rest; Ok (cursor :: cursors)
  end.

(** ** Slices of the journal *)

(** The loop of [slice_journal]: the groups counted so far and the cursor of
    the last; the entries selected, the last cursor, whether it stopped early. *)
Fixpoint slice_loop (entries : list JournalEntry) (requested limit groups : Z) (last : option Z) :
    result StoreError (list JournalEntry * option Z * bool) :=
  match entries with
  | [] => Ok ([], last, false)
  | entry :: rest =>
      cursor ← journal_cursor entry;
      if cursor <=? requested then slice_loop rest requested limit groups last
      else if negb (eqb last (Some cursor)) then
        if limit <=? groups then Ok ([], last, true)
        else r ← slice_loop rest requested limit (groups + 1) (Some cursor);
             let '(selected, last', more) := r in Ok (entry :: selected, last', more)
      else r ← slice_loop rest requested limit groups last;
           let '(selected, last', more) := r in Ok (entry :: selected, last', more)
  end.

Definition slice_of (floor current requested : Z) (selected : list JournalEntry) (last : option Z)
    (has_more : bool) : EventJournalSlice := {|
  sl_floor_cursor := floor;
  sl_current_cursor := current;
  sl_checkpoint_cursor :=
    if has_more then default requested last
    else if bool_decide (selected = []) && (requested <? current) then requested
    else current;
  sl_has_more := has_more;
  sl_entries := selected |}.

Definition slice_journal (entries : list JournalEntry) (floor current requested limit : Z) :
    result StoreError EventJournalSlice :=
  r ← slice_loop entries requested (Z.max 1 limit) 0 None;
  let '(selected, last, has_more) := r in Ok (slice_of floor current requested selected last has_more).

(** ** The trait *)

Class MessagingStateStore (S : Type) := {
  store_load : S -> result StoreError (option MessagingSnapshot);
  store_save : S -> MessagingSnapshot -> S * result StoreError unit;
  store_save_with_events : S -> MessagingSnapshot -> list JournalEntry -> S * result StoreError unit;
  store_load_event_journal_after : S -> Z -> Z -> result StoreError (option EventJournalSlice);
}.

(** ** In memory *)

Record MemoryStateStore := {
  mem_snapshot : option MessagingSnapshot;
  mem_journal : list JournalEntry;
  mem_journal_floor_cursor : Z;
}.
#[export] Instance eta_MemoryStateStore : Eta MemoryStateStore := fun s =>
  Build_MemoryStateStore (mem_snapshot s) (mem_journal s) (mem_journal_floor_cursor s).

(** [MemoryStateStore::default()] *)
Definition empty_store : MemoryStateStore :=
  {| mem_snapshot := None; mem_journal := []; mem_journal_floor_cursor := 0 |}.

Definition memory_load (s : MemoryStateStore) : result StoreError (option MessagingSnapshot) :=
  Ok (mem_snapshot s).

Definition memory_save (s : MemoryStateStore) (snapshot : MessagingSnapshot) :
    MemoryStateStore * result StoreError unit :=
  match validate_snapshot_schema (snap_schema_version snapshot) with
  | Err e => (s, Err e)
  | Ok _ =>
      let floor := if bool_decide (mem_journal s = [])
                   then Z.max (mem_journal_floor_cursor s) (snap_cursor snapshot)
                   else mem_journal_floor_cursor s in
      (s ⟪ mem_journal_floor_cursor := floor ⟫ ⟪ mem_snapshot := Some snapshot ⟫, Ok tt)
  end.

(** [take_while(|entry| journal_cursor(entry).is_ok_and(|cursor| cursor <= prune_cursor)).count()] *)
Fixpoint prune_count (journal : list JournalEntry) (prune_cursor : Z) : nat :=
  match journal with
  | [] => 0
  | entry :: rest =>
      match journal_cursor entry with
      | Ok cursor => if cursor <=? prune_cursor then S (prune_count rest prune_cursor) else 0
      | Err _ => 0
      end
  end.

(** The end of [save_with_events]; [self.journal[excess - 1]] is in range. *)
Definition prune_journal (s : MemoryStateStore) : MemoryStateStore * result StoreError unit :=
  let journal := mem_journal s in
  if (MESSAGING_EVENT_JOURNAL_LIMIT <? length journal)%nat then
    let excess := (length journal - MESSAGING_EVENT_JOURNAL_LIMIT)%nat in
    match journal !! (excess - 1)%nat with
    | None => (s, Ok tt)
    | Some entry =>
        match journal_cursor entry with
        | Err e => (s, Err e)
        | Ok prune_cursor =>
            (s ⟪ mem_journal ::= drop (prune_count journal prune_cursor) ⟫
               ⟪ mem_journal_floor_cursor := prune_cursor ⟫, Ok tt)
        end
    end
  else (s, Ok tt).

Definition memory_save_with_events (s : MemoryStateStore) (snapshot : MessagingSnapshot)
    (events : list JournalEntry) : MemoryStateStore * result StoreError unit :=
  match validate_snapshot_schema (snap_schema_version snapshot) ;; journal_cursors events with
  | Err e => (s, Err e)
  | Ok _ => prune_journal (s ⟪ mem_snapshot := Some snapshot ⟫ ⟪ mem_journal ::= fun j => (j ++ events)%list ⟫)
  end.

Definition memory_load_event_journal_after (s : MemoryStateStore) (cursor limit : Z) :
    result StoreError (option EventJournalSlice) :=
  let current := match mem_snapshot s with Some snapshot => snap_cursor snapshot | None => 0 end in
  Some <$> slice_journal (mem_journal s) (mem_journal_floor_cursor s) current cursor limit.

#[export] Instance memory_store : MessagingStateStore MemoryStateStore := {
  store_load := memory_load;
  store_save := memory_save;
  store_save_with_events := memory_save_with_events;
  store_load_event_journal_after := memory_load_event_journal_after;
}.

(** ** Well-formed journals *)

(** The cursor of an entry that has one. *)
Definition entry_cursor (entry : JournalEntry) : Z :=
  match journal_cursor entry with Ok cursor => cursor | Err _ => 0 end.

Definition cursor_le (a b : JournalEntry) : Prop := entry_cursor a <= entry_cursor b.

(** Every entry has a cursor, they never decrease, and they lie above the
    floor and not above the current cursor. *)
Record journal_wf (journal : list JournalEntry) (floor current : Z) : Prop := {
  jw_cursors : Forall (fun e => is_ok (journal_cursor e) = true) journal;
  jw_sorted : StronglySorted cursor_le journal;
  jw_bounds : Forall (fun e => floor < entry_cursor e <= current) journal;
  jw_floor : 0 <= floor <= current;
}.

(** The entries after a cursor. *)
Definition entries_after (cursor : Z) (journal : list JournalEntry) : list JournalEntry :=
  filter (fun e => cursor < entry_cursor e) journal.

Lemma journal_cursor_ok e : is_ok (journal_cursor e) = true -> journal_cursor e = Ok (entry_cursor e).
Proof. unfold entry_cursor. by destruct (journal_cursor e). Qed.

Lemma entries_after_all cursor journal :
  Forall (fun e => cursor < entry_cursor e) journal -> entries_after cursor journal = journal.
Proof.
  induction 1 as [|e l He _ IH]; [done|]. unfold entries_after in *. rewrite filter_cons_True by done. by rewrite IH.
Qed.

Lemma entries_after_none cursor journal :
  Forall (fun e => entry_cursor e <= cursor) journal -> entries_after cursor journal = [].
Proof.
  induction 1 as [|e l He _ IH]; [done|]. unfold entries_after in *. by rewrite filter_cons_False by lia.
Qed.

Lemma entries_after_app cursor j1 j2 :
  entries_after cursor (j1 ++ j2) = (entries_after cursor j1 ++ entries_after cursor j2)%list.
Proof. apply list.filter_app. Qed.

Lemma forall_after (P : JournalEntry -> Prop) cursor journal : Forall P journal -> Forall P (entries_after cursor journal).
Proof.
  rewrite !list.Forall_forall. intros H e He. apply H. unfold entries_after in He.
  by apply list_elem_of_filter in He as [_ He].
Qed.

(** What the loop selects: a prefix of the entries after the requested cursor,
    which ends between two groups. *)
Definition sliced (journal : list JournalEntry) (requested : Z) (last0 : option Z)
    (r : list JournalEntry * option Z * bool) : Prop :=
  let '(selected, last, more) := r in
  exists rest, entries_after requested journal = (selected ++ rest)%list
    /\ if more then exists l, last = Some l /\ requested < l /\ (forall l0, last0 = Some l0 -> l0 <= l)
         /\ Forall (fun e => entry_cursor e <= l) selected /\ Forall (fun e => l < entry_cursor e) rest
         /\ rest <> []
       else rest = [].

Lemma sliced_cons e journal requested last0 last1 selected last more :
  requested < entry_cursor e -> last1 = Some (entry_cursor e) ->
  (forall l0, last0 = Some l0 -> l0 <= entry_cursor e) ->
  sliced journal requested last1 (selected, last, more) ->
  sliced (e :: journal) requested last0 (e :: selected, last, more).
Proof.
  intros He -> H0 (rest & Heq & Hm). exists rest. unfold entries_after in *. rewrite filter_cons_True by done.
  rewrite Heq. split; [done|]. destruct more; [|done]. destruct Hm as (l & -> & H1 & H2 & H3 & H4 & H5).
  specialize (H2 _ eq_refl). exists l. split_and!; try done.
  - intros l0 Hl0. specialize (H0 l0 Hl0). lia.
  - by apply list.Forall_cons.
Qed.

Lemma slice_loop_spec journal : forall requested limit groups last,
  Forall (fun e => is_ok (journal_cursor e) = true) journal -> StronglySorted cursor_le journal ->
  (forall l, last = Some l -> requested < l /\ Forall (fun e => l <= entry_cursor e) journal) ->
  (last = None -> groups = 0) -> 0 < limit ->
  exists r, slice_loop journal requested limit groups last = Ok r /\ sliced journal requested last r
    /\ (last = None -> r.1.1 = [] -> entries_after requested journal = []).
Proof.
  induction journal as [|e rest IH]; intros requested limit groups last Hok Hs Hlast Hg Hl.
  { exists ([], last, false). split_and!; [done| |done]. by exists []. }
  apply list.Forall_cons in Hok as [He Hok]. apply StronglySorted_inv in Hs as [Hs Hmin].
  assert (Hlast' : forall l, last = Some l -> requested < l /\ Forall (fun e => l <= entry_cursor e) rest).
  { intros l Hll. destruct (Hlast l Hll) as [H1 H2]. apply list.Forall_cons in H2 as [_ H2]. done. }
  assert (Hlaste : forall l, last = Some l -> l <= entry_cursor e).
  { intros l Hll. destruct (Hlast l Hll) as [H1 H2]. by apply list.Forall_cons in H2 as [H2 _]. }
  simpl. rewrite (journal_cursor_ok e He). simpl.
  destruct (Z.leb_spec (entry_cursor e) requested) as [Hle|Hgt].
  { destruct (IH requested limit groups last) as (r & -> & Hsl & Hem); try done. exists r.
    unfold sliced, entries_after in *. rewrite filter_cons_False by lia. done. }
  destruct (eqb last (Some (entry_cursor e))) eqn:E; simpl.
  - apply eqb_true in E. destruct (IH requested limit groups last) as ([[sel l'] more] & -> & Hsl & _); try done.
    simpl. eexists. split; [done|]. split; [by eapply sliced_cons|intros Hn; congruence].
  - apply eqb_false in E. destruct (Z.leb_spec limit groups) as [Hfull|Hroom].
    + eexists. split; [done|]. destruct last as [l|]; [|specialize (Hg eq_refl); lia]. split; [|done].
      exists (e :: entries_after requested rest). unfold entries_after. rewrite filter_cons_True by done.
      split; [done|]. exists l. specialize (Hlaste l eq_refl). assert (l <> entry_cursor e) by congruence.
      split_and!; [done|by apply Hlast|by intros l0 [= <-]; lia|done| |done].
      apply list.Forall_cons. split; [lia|]. apply forall_after. eapply list.Forall_impl; [exact Hmin|].
      unfold cursor_le. simpl. lia.
    + destruct (IH requested limit (groups + 1) (Some (entry_cursor e))) as ([[sel l'] more] & -> & Hsl & _);
        try done; [by intros l [= <-]|].
      simpl. eexists. split; [done|]. split; [by eapply sliced_cons|done].
Qed.

(** What a slice promises the client: the entries, then what comes after the
    checkpoint, are all the entries after the requested cursor; the checkpoint
    moves forward as long as there is more, and is the current cursor when
    there is not, unless the slice says nothing about the cursors up to it. *)
Lemma slice_journal_spec journal floor current requested limit :
  journal_wf journal floor current -> floor <= requested <= current ->
  exists sl, slice_journal journal floor current requested limit = Ok sl
    /\ sl_floor_cursor sl = floor /\ sl_current_cursor sl = current
    /\ entries_after requested journal = (sl_entries sl ++ entries_after (sl_checkpoint_cursor sl) journal)%list
    /\ (sl_entries sl = [] -> entries_after requested journal = [])
    /\ (sl_has_more sl = true -> requested < sl_checkpoint_cursor sl <= current)
    /\ (sl_has_more sl = false -> sl_entries sl <> [] \/ requested = current -> sl_checkpoint_cursor sl = current).
Proof.
  intros [Hc Hs Hb Hf] Hr.
  destruct (slice_loop_spec journal requested (Z.max 1 limit) 0 None) as ([[sel last] more] & E & Hsl & Hem);
    [done..|lia|]. unfold slice_journal. rewrite E. simpl. eexists. split; [done|]. simpl in *.
  destruct Hsl as (rest & Heq & Hm). split_and!; try done.
  - destruct more; simpl.
    + destruct Hm as (l & -> & H1 & _ & H3 & H4 & _). simpl. rewrite Heq. f_equal.
      assert (Hl : entries_after l journal = entries_after l (entries_after requested journal)).
      { unfold entries_after. rewrite list_filter_filter. apply list_filter_iff. intros e. lia. }
      rewrite Hl, Heq, entries_after_app, entries_after_none, entries_after_all; done.
    + subst rest. rewrite app_nil_r in Heq. rewrite Heq.
      destruct (bool_decide (sel = []) && (requested <? current)) eqn:Eb.
      * apply andb_true_iff in Eb as [->%bool_decide_eq_true _]. by rewrite Heq.
      * rewrite (entries_after_none current), app_nil_r; [done|].
        eapply list.Forall_impl; [exact Hb|]. simpl. lia.
  - by apply Hem.
  - unfold slice_of. simpl. intros ->. simpl in Hm. destruct Hm as (l & -> & H1 & _ & _ & H4 & H5). simpl. split; [done|].
    assert (Hin : Forall (fun e => entry_cursor e <= current) (sel ++ rest)).
    { rewrite <- Heq. apply forall_after. eapply list.Forall_impl; [exact Hb|]. simpl. lia. }
    destruct rest as [|e rest]; [done|]. apply Forall_app in Hin as [_ Hin].
    apply list.Forall_cons in H4 as [H4 _], Hin as [Hin _]. lia.
  - unfold slice_of. simpl. intros -> Hne. case_bool_decide; simpl; [|done]. destruct Hne as [Hne| ->]; [done|].
    by rewrite Z.ltb_irrefl.
Qed.

(** ** What the store keeps well-formed *)

Definition mem_current (s : MemoryStateStore) : Z :=
  match mem_snapshot s with Some snapshot => snap_cursor snapshot | None => 0 end.

Definition store_wf (s : MemoryStateStore) : Prop :=
  journal_wf (mem_journal s) (mem_journal_floor_cursor s) (mem_current s).

Lemma empty_store_wf : store_wf empty_store.
Proof. split; simpl; try constructor; unfold mem_current; simpl; lia. Qed.

(** What the service saves: a snapshot of this schema, not older than the
    stored one, and entries stamped with its cursor. *)
Record save_fits (s : MemoryStateStore) (snapshot : MessagingSnapshot) (events : list JournalEntry) : Prop := {
  sf_schema : snap_schema_version snapshot = MESSAGING_SNAPSHOT_SCHEMA_VERSION;
  sf_cursor : mem_current s <= snap_cursor snapshot <= u64_max;
  sf_events : Forall (fun e => journal_cursor e = Ok (snap_cursor snapshot)) events;
  sf_newer : events <> [] -> mem_current s < snap_cursor snapshot;
}.

Lemma fits_schema s snapshot events : save_fits s snapshot events ->
  validate_snapshot_schema (snap_schema_version snapshot) = Ok tt.
Proof. intros [-> _ _ _]. done. Qed.

Lemma journal_cursors_stamped events c :
  Forall (fun e => journal_cursor e = Ok c) events -> journal_cursors events = Ok (replicate (length events) c).
Proof. induction 1 as [|e l He _ IH]; [done|]. simpl. rewrite He. simpl. by rewrite IH. Qed.

Lemma cursor_le_sorted_app j1 j2 : StronglySorted cursor_le j1 -> StronglySorted cursor_le j2 ->
  (forall a b, a ∈ j1 -> b ∈ j2 -> cursor_le a b) -> StronglySorted cursor_le (j1 ++ j2).
Proof.
  induction 1 as [|a j1 Hs IH Ha]; intros H2 H; simpl; [done|]. constructor.
  - apply IH; [done|]. intros x y Hx Hy. apply H; [by right|done].
  - apply Forall_app. split; [done|]. apply list.Forall_forall. intros y Hy. apply H; [by left|done].
Qed.

Lemma stamped_sorted events c :
  Forall (fun e => journal_cursor e = Ok c) events -> StronglySorted cursor_le events.
Proof.
  induction 1 as [|e l He Hl IH]; constructor; [done|]. eapply list.Forall_impl; [exact Hl|]. simpl.
  intros x Hx. unfold cursor_le, entry_cursor. rewrite He, Hx. lia.
Qed.

Lemma entry_cursor_stamped e c : journal_cursor e = Ok c -> entry_cursor e = c.
Proof. unfold entry_cursor. by intros ->. Qed.

(** Appending the entries of a new cursor. *)
Lemma journal_wf_append journal floor current next events :
  journal_wf journal floor current -> current <= next ->
  Forall (fun e => journal_cursor e = Ok next) events -> (events <> [] -> current < next) ->
  journal_wf (journal ++ events) floor next.
Proof.
  intros [Hc Hs Hb Hf] Hle He Hlt. split.
  - apply Forall_app. split; [done|]. eapply list.Forall_impl; [exact He|]. simpl. by intros x ->.
  - apply cursor_le_sorted_app; [done|by eapply stamped_sorted|].
    intros a b Ha Hb'. rewrite list.Forall_forall in Hb, He. specialize (Hb a Ha). specialize (He b Hb').
    unfold cursor_le. rewrite (entry_cursor_stamped b next) by done. simpl in Hb. lia.
  - apply Forall_app. split; [eapply list.Forall_impl; [exact Hb|]; simpl; lia|].
    apply list.Forall_forall. intros x Hx. rewrite list.Forall_forall in He.
    rewrite (entry_cursor_stamped x next) by auto. split; [|lia].
    assert (current < next) by (apply Hlt; intros ->; by apply elem_of_nil in Hx). lia.
  - lia.
Qed.

Lemma prune_count_after journal c :
  Forall (fun e => is_ok (journal_cursor e) = true) journal -> StronglySorted cursor_le journal ->
  drop (prune_count journal c) journal = entries_after c journal.
Proof.
  induction journal as [|e rest IH]; intros Hok Hs; [done|].
  apply list.Forall_cons in Hok as [He Hok]. apply StronglySorted_inv in Hs as [Hs Hmin]. simpl.
  rewrite (journal_cursor_ok e He). unfold entries_after.
  destruct (Z.leb_spec (entry_cursor e) c) as [Hle|Hgt]; simpl.
  - rewrite filter_cons_False by lia. by apply IH.
  - rewrite filter_cons_True by done. f_equal. symmetry. apply entries_after_all.
    eapply list.Forall_impl; [exact Hmin|]. unfold cursor_le. simpl. lia.
Qed.

Lemma sorted_filter (P : JournalEntry -> Prop) `{!forall e, Decision (P e)} journal :
  StronglySorted cursor_le journal -> StronglySorted cursor_le (filter P journal).
Proof.
  induction 1 as [|e l Hs IH He]; [constructor|]. rewrite filter_cons. case_decide; [|done]. constructor; [done|].
  rewrite !list.Forall_forall in *. intros x Hx. apply list_elem_of_filter in Hx as [_ Hx]. auto.
Qed.

(** Forgetting the entries up to a cursor that becomes the floor. *)
Lemma journal_wf_forget journal floor current c :
  journal_wf journal floor current -> floor <= c <= current ->
  journal_wf (entries_after c journal) c current.
Proof.
  intros [Hc Hs Hb Hf] Hr. split; [by apply forall_after|by apply sorted_filter| |lia].
  apply list.Forall_forall. intros e He. unfold entries_after in He. apply list_elem_of_filter in He as [He1 He2].
  rewrite list.Forall_forall in Hb. specialize (Hb e He2). simpl in Hb. lia.
Qed.

Lemma prune_journal_wf s : store_wf s ->
  exists s', prune_journal s = (s', Ok tt) /\ store_wf s' /\ mem_snapshot s' = mem_snapshot s
    /\ exists c, mem_journal_floor_cursor s <= c /\ mem_journal s' = entries_after c (mem_journal s)
         /\ mem_journal_floor_cursor s' = c.
Proof.
  intros Hwf. pose proof Hwf as [Hc Hs Hb Hf]. unfold prune_journal.
  assert (Hsame : exists c, mem_journal_floor_cursor s <= c /\ mem_journal s = entries_after c (mem_journal s)
                    /\ mem_journal_floor_cursor s = c).
  { exists (mem_journal_floor_cursor s). split_and!; [done| |done]. symmetry. apply entries_after_all.
    eapply list.Forall_impl; [exact Hb|]. simpl. lia. }
  case_match; [|by exists s]. destruct (_ !! _) as [e|] eqn:E; [|by exists s].
  rewrite (journal_cursor_ok e) by exact (Forall_lookup_1 _ _ _ _ Hc E).
  pose proof (Forall_lookup_1 _ _ _ _ Hb E) as He. simpl in He. eexists. split; [done|].
  unfold store_wf, mem_current. fields. rewrite prune_count_after by done. split_and!; [|done|].
  - apply (journal_wf_forget _ (mem_journal_floor_cursor s)); [done|]. unfold mem_current in He. lia.
  - exists (entry_cursor e). split_and!; [lia|done|done].
Qed.

Lemma memory_save_with_events_ok s snapshot events : store_wf s -> save_fits s snapshot events ->
  exists s', memory_save_with_events s snapshot events = (s', Ok tt) /\ store_wf s'
    /\ mem_snapshot s' = Some snapshot
    /\ exists c, mem_journal_floor_cursor s <= c /\ mem_journal_floor_cursor s' = c
         /\ mem_journal s' = entries_after c (mem_journal s ++ events).
Proof.
  intros Hwf Hfit. unfold memory_save_with_events. rewrite (fits_schema _ _ _ Hfit). simpl.
  destruct Hfit as [_ Hc He Hn]. rewrite (journal_cursors_stamped _ _ He).
  destruct (prune_journal_wf (s ⟪ mem_snapshot := Some snapshot ⟫ ⟪ mem_journal ::= fun j => (j ++ events)%list ⟫))
    as (s' & -> & Hwf' & Hsnap & c & Hle & Hj & Hfl).
  { unfold store_wf, mem_current. fields. by apply (journal_wf_append _ _ (mem_current s)); [|lia|..]. }
  exists s'. split_and!; [done|done|by rewrite Hsnap|]. exists c. by fields.
Qed.

Lemma memory_save_ok s snapshot : store_wf s -> save_fits s snapshot [] ->
  exists s', memory_save s snapshot = (s', Ok tt) /\ store_wf s' /\ mem_snapshot s' = Some snapshot
    /\ mem_journal s' = mem_journal s /\ mem_journal_floor_cursor s <= mem_journal_floor_cursor s'.
Proof.
  intros Hwf Hfit. unfold memory_save. rewrite (fits_schema _ _ _ Hfit). destruct Hfit as [_ Hc _ _].
  eexists. split; [done|]. unfold store_wf, mem_current. fields.
  destruct Hwf as [Hcur Hs Hb Hf]. case_bool_decide as Hj.
  - split_and!; [|done|done|lia]. rewrite Hj. split; try constructor; lia.
  - split_and!; [|done|done|done]. split; [done|done| |lia].
    eapply list.Forall_impl; [exact Hb|]. simpl. lia.
Qed.

(** ** The interface the service relies on

    A store implements [MessagingStateStore] when it answers as the memory
    store it stands for does, except that it may refuse what it cannot write,
    and then is as it was.  What it kept it gives back if that reads back as it
    was written. *)

Definition unless_refused (refusal : option StoreError) (m : MemoryStateStore)
    (saved : MemoryStateStore * result StoreError unit) : MemoryStateStore * result StoreError unit :=
  match refusal with Some e => (m, Err e) | None => saved end.

Class RefinesMemory (S : Type) `{MessagingStateStore S} := {
  stands_for : S -> MemoryStateStore -> Prop;
  refuses : MessagingSnapshot -> list JournalEntry -> option StoreError;
  reads_back : MemoryStateStore -> Prop;
  load_refines : forall s m, stands_for s m -> store_wf m -> reads_back m -> store_load s = memory_load m;
  save_refines : forall s m snapshot, stands_for s m -> store_wf m -> save_fits m snapshot [] ->
    let answer := unless_refused (refuses snapshot []) m (memory_save m snapshot) in
    exists s', store_save s snapshot = (s', snd answer) /\ stands_for s' (fst answer);
  save_with_events_refines : forall s m snapshot events, stands_for s m -> store_wf m -> save_fits m snapshot events ->
    let answer := unless_refused (refuses snapshot events) m (memory_save_with_events m snapshot events) in
    exists s', store_save_with_events s snapshot events = (s', snd answer) /\ stands_for s' (fst answer);
  load_after_refines : forall s m cursor limit, stands_for s m -> store_wf m -> reads_back m ->
    store_load_event_journal_after s cursor limit = memory_load_event_journal_after m cursor limit;
}.

(** A store that refuses nothing and reads back whatever it kept. *)
Class TotalStore (S : Type) `{RefinesMemory S} : Prop := {
  none_refused : forall snapshot events, refuses snapshot events = None;
  all_read_back : forall m, reads_back m;
}.

#[export] Instance memory_refines : RefinesMemory MemoryStateStore.
Proof.
  refine {| stands_for := eq; refuses := fun _ _ => None; reads_back := fun _ => True |};
    intros; subst; try done; eexists; split; try apply surjective_pairing; done.
Defined.

#[export] Instance memory_total : TotalStore MemoryStateStore.
Proof. split; done. Qed.

(** ** Runs of saves *)

Inductive save_op :=
| SaveSnapshot (snapshot : MessagingSnapshot)
| SaveWithEvents (snapshot : MessagingSnapshot) (events : list JournalEntry).

Definition do_save {S : Type} `{MessagingStateStore S} (op : save_op) (s : S) : S * result StoreError unit :=
  match op with
  | SaveSnapshot snapshot => store_save s snapshot
  | SaveWithEvents snapshot events => store_save_with_events s snapshot events
  end.

Fixpoint do_saves {A : Type} (save : save_op -> A -> A * result StoreError unit) (ops : list save_op) (s : A) :
    A * list (result StoreError unit) :=
  match ops with
  | [] => (s, [])
  | op :: rest =>
      let (s1, r) := save op s in
      let (s2, rs) := do_saves save rest s1 in (s2, r :: rs)
  end.

Definition op_fits (m : MemoryStateStore) (op : save_op) : Prop :=
  match op with
  | SaveSnapshot snapshot => save_fits m snapshot []
  | SaveWithEvents snapshot events => save_fits m snapshot events
  end.

Definition op_refusal (refusal : MessagingSnapshot -> list JournalEntry -> option StoreError) (op : save_op) :
    option StoreError :=
  match op with
  | SaveSnapshot snapshot => refusal snapshot []
  | SaveWithEvents snapshot events => refusal snapshot events
  end.

(** The memory store, had it to refuse what another store refuses. *)
Definition memory_or_refusal (refusal : MessagingSnapshot -> list JournalEntry -> option StoreError) (op : save_op)
    (m : MemoryStateStore) : MemoryStateStore * result StoreError unit :=
  unless_refused (op_refusal refusal op) m (do_save op m).

Fixpoint ops_fit (refusal : MessagingSnapshot -> list JournalEntry -> option StoreError) (m : MemoryStateStore)
    (ops : list save_op) : Prop :=
  match ops with
  | [] => True
  | op :: rest => op_fits m op /\ ops_fit refusal (fst (memory_or_refusal refusal op m)) rest
  end.

Lemma do_save_wf m op : store_wf m -> op_fits m op ->
  snd (do_save op m) = Ok tt /\ store_wf (fst (do_save op m)).
Proof.
  intros Hwf Hfit. destruct op as [snapshot|snapshot events]; simpl in *.
  - by destruct (memory_save_ok m snapshot Hwf Hfit) as (m' & -> & ? & _).
  - by destruct (memory_save_with_events_ok m snapshot events Hwf Hfit) as (m' & -> & ? & _).
Qed.

(** A run of saves on a store is the run on the memory store it stands for. *)
Lemma do_saves_refine {S : Type} `{RefinesMemory S} ops : forall (s : S) m,
  stands_for s m -> store_wf m -> ops_fit refuses m ops ->
  exists s', do_saves do_save ops s = (s', snd (do_saves (memory_or_refusal refuses) ops m))
    /\ stands_for s' (fst (do_saves (memory_or_refusal refuses) ops m))
    /\ store_wf (fst (do_saves (memory_or_refusal refuses) ops m)).
Proof.
  induction ops as [|op rest IH]; intros s m Hs Hwf Hfit; [by exists s|]. destruct Hfit as [Hfit Hrest].
  assert (Hwf1 : store_wf (fst (memory_or_refusal refuses op m))).
  { unfold memory_or_refusal, unless_refused. case_match; [done|]. by apply do_save_wf. }
  simpl.
  assert (exists s1, do_save op s = (s1, snd (memory_or_refusal refuses op m))
                     /\ stands_for s1 (fst (memory_or_refusal refuses op m))) as (s1 & -> & Hs1).
  { destruct op; simpl in *; [by apply save_refines|by apply save_with_events_refines]. }
  destruct (IH s1 _ Hs1 Hwf1 Hrest) as (s2 & E & Hs2 & Hwf2). rewrite E.
  destruct (memory_or_refusal refuses op m) as [m1 r]. simpl in *.
  destruct (do_saves (memory_or_refusal refuses) rest m1) as [m2 rs]. simpl in *. by exists s2.
Qed.
