(* ===== verification/SqliteStore.v ===== *)
(** * The SQLite store ([store.rs], [SqliteStateStore])

    A database is its rows, and a statement an operation on them: the journal is
    kept in the order of its [AUTOINCREMENT] key, a transaction that fails is
    rolled back.  The theorem at the end is that this store answers exactly as
    the in-memory one does. *)

From S2P Require Import Prelude Text Maps Conversation Apps EngineTypes Protocol Store.

(** [serde_json]; writing fails for a map whose keys are not strings. *)
Class StoreCodec := {
  state_to_json : MessagingState -> result string string;
  state_of_json : string -> result string MessagingState;
  audience_to_json : list ActorId -> result string string;
  audience_of_json : string -> result string (list ActorId);
  envelope_to_json : ServerEnvelope -> result string string;
  envelope_of_json : string -> result string ServerEnvelope;
}.

(** A row of [messaging_snapshot]; the table has at most one. *)
Record SnapshotRow := {
  srow_schema_version : Z;
  srow_cursor : string;
  srow_saved_at_ms : Z;
  srow_state_json : string;
}.

(** A row of [messaging_event_journal]. *)
Record JournalRow := {
  jrow_sequence : Z;
  jrow_cursor : string;
  jrow_audience_json : string;
  jrow_envelope_json : string;
}.

(** The database: [PRAGMA user_version], the tables, the counter behind
    [AUTOINCREMENT], and the value of 'journal_floor_cursor'. *)
Record SqliteStateStore := {
  sql_user_version : Z;
  sql_snapshot : option SnapshotRow;
  sql_journal : list JournalRow;
  sql_last_sequence : Z;
  sql_journal_floor : option string;
}.
#[export] Instance eta_SqliteStateStore : Eta SqliteStateStore := fun s =>
  Build_SqliteStateStore (sql_user_version s) (sql_snapshot s) (sql_journal s) (sql_last_sequence s)
    (sql_journal_floor s).

(** A new database file. *)
Definition new_database : SqliteStateStore := {|
  sql_user_version := 0; sql_snapshot := None; sql_journal := []; sql_last_sequence := 0;
  sql_journal_floor := None |}.

Section sqlite.
Context `{SC : StoreCodec}.

Definition migrate_sqlite (s : SqliteStateStore) : SqliteStateStore * result StoreError unit :=
  if MESSAGING_SQLITE_SCHEMA_VERSION <? sql_user_version s then
    (s, Err (UnsupportedSqliteSchema MESSAGING_SQLITE_SCHEMA_VERSION (sql_user_version s)))
  else if sql_user_version s =? 0 then
    (s ⟪ sql_journal_floor ::= fun floor => Some (default "0" floor) ⟫ ⟪ sql_user_version := 2 ⟫, Ok tt)
  else if sql_user_version s =? 1 then
    let current := match sql_snapshot s with Some row => srow_cursor row | None => "0" end in
    (s ⟪ sql_journal_floor := Some current ⟫ ⟪ sql_user_version := 2 ⟫, Ok tt)
  else (s, Ok tt).

Definition load_sqlite_snapshot (s : SqliteStateStore) : result StoreError (option MessagingSnapshot) :=
  match sql_snapshot s with
  | None => Ok None
  | Some row =>
      validate_snapshot_schema (srow_schema_version row) ;;
      cursor ← ok_or (parse_u64 (srow_cursor row)) (InvalidCursor (srow_cursor row));
      state ← map_err StoreJson (state_of_json (srow_state_json row));
      Ok (Some {| snap_schema_version := srow_schema_version row; snap_cursor := cursor;
                  snap_saved_at_ms := srow_saved_at_ms row; snap_state := state |})
  end.

Definition row_of_snapshot (snapshot : MessagingSnapshot) (state_json : string) : SnapshotRow := {|
  srow_schema_version := snap_schema_version snapshot; srow_cursor := display (snap_cursor snapshot);
  srow_saved_at_ms := snap_saved_at_ms snapshot; srow_state_json := state_json |}.

(** [INSERT ... ON CONFLICT DO UPDATE] of the one snapshot row *)
Definition write_snapshot (snapshot : MessagingSnapshot) (s : SqliteStateStore) : result StoreError SqliteStateStore :=
  state_json ← map_err StoreJson (state_to_json (snap_state snapshot));
  Ok (s ⟪ sql_snapshot := Some (row_of_snapshot snapshot state_json) ⟫).

Definition set_journal_floor (cursor : Z) (s : SqliteStateStore) : SqliteStateStore :=
  s ⟪ sql_journal_floor := Some (display cursor) ⟫.

(** [INSERT INTO messaging_event_journal] *)
Definition insert_event (s : SqliteStateStore) (event : JournalEntry) : result StoreError SqliteStateStore :=
  cursor ← journal_cursor event;
  audience_json ← map_err StoreJson (audience_to_json (je_audience event));
  envelope_json ← map_err StoreJson (envelope_to_json (je_envelope event));
  let sequence := sql_last_sequence s + 1 in
  Ok (s ⟪ sql_last_sequence := sequence ⟫
        ⟪ sql_journal ::= fun rows => (rows ++ [{|
            jrow_sequence := sequence; jrow_cursor := display cursor;
            jrow_audience_json := audience_json; jrow_envelope_json := envelope_json |}])%list ⟫).

Fixpoint insert_events (s : SqliteStateStore) (events : list JournalEntry) : result StoreError SqliteStateStore :=
  match events with
  | [] => Ok s
  | event :: rest => s ← insert_event s event; insert_events s rest
  end.

(** [SELECT MAX(sequence) ... WHERE cursor = ?1] *)
Definition max_sequence (rows : list JournalRow) (cursor : string) : Z :=
  foldr (fun row m => if eqb (jrow_cursor row) cursor then Z.max (jrow_sequence row) m else m) 0 rows.

(** The row at [OFFSET excess - 1] exists, as the journal is longer. *)
Definition prune_sqlite_journal (s : SqliteStateStore) : result StoreError SqliteStateStore :=
  let count := length (sql_journal s) in
  if (count <=? MESSAGING_EVENT_JOURNAL_LIMIT)%nat then Ok s
  else
    let excess := (count - MESSAGING_EVENT_JOURNAL_LIMIT)%nat in
    match sql_journal s !! (excess - 1)%nat with
    | None => Ok s
    | Some row =>
        let prune_cursor := jrow_cursor row in
        let max := max_sequence (sql_journal s) prune_cursor in
        let s1 := s ⟪ sql_journal ::= filter (fun row => max < jrow_sequence row) ⟫ in
        cursor ← ok_or (parse_u64 prune_cursor) (InvalidCursor prune_cursor);
        Ok (set_journal_floor cursor s1)
    end.

(** [open_initialized], then the body in a transaction. *)
Definition in_transaction (body : SqliteStateStore -> result StoreError SqliteStateStore) (s : SqliteStateStore) :
    SqliteStateStore * result StoreError unit :=
  match migrate_sqlite s with
  | (s1, Err e) => (s1, Err e)
  | (s1, Ok _) =>
      match body s1 with
      | Ok s2 => (s2, Ok tt)
      | Err e => (s1, Err e)
      end
  end.

Definition sqlite_load (s : SqliteStateStore) : result StoreError (option MessagingSnapshot) :=
  let (s1, r) := migrate_sqlite s in r ;; load_sqlite_snapshot s1.

Definition sqlite_save (s : SqliteStateStore) (snapshot : MessagingSnapshot) :
    SqliteStateStore * result StoreError unit :=
  match validate_snapshot_schema (snap_schema_version snapshot) with
  | Err e => (s, Err e)
  | Ok _ => in_transaction (fun s =>
      s1 ← write_snapshot snapshot s;
      Ok (if bool_decide (sql_journal s1 = []) then set_journal_floor (snap_cursor snapshot) s1 else s1)) s
  end.

Definition sqlite_save_with_events (s : SqliteStateStore) (snapshot : MessagingSnapshot)
    (events : list JournalEntry) : SqliteStateStore * result StoreError unit :=
  match validate_snapshot_schema (snap_schema_version snapshot) with
  | Err e => (s, Err e)
  | Ok _ => in_transaction (fun s =>
      s1 ← write_snapshot snapshot s; s2 ← insert_events s1 events; prune_sqlite_journal s2) s
  end.

Definition entry_of_row (row : JournalRow) : result StoreError JournalEntry :=
  audience ← map_err StoreJson (audience_of_json (jrow_audience_json row));
  envelope ← map_err StoreJson (envelope_of_json (jrow_envelope_json row));
  Ok {| je_envelope := envelope; je_audience := audience |}.

Fixpoint entries_of_rows (rows : list JournalRow) : result StoreError (list JournalEntry) :=
  match rows with
  | [] => Ok []
  | row :: rest => entry ← entry_of_row row; entries ← entries_of_rows rest; Ok (entry :: entries)
  end.

Definition sqlite_load_event_journal_after (s : SqliteStateStore) (cursor limit : Z) :
    result StoreError (option EventJournalSlice) :=
  let (s1, r) := migrate_sqlite s in
  r ;;
  floor ← ok_or (sql_journal_floor s1 ≫= parse_u64) (InvalidCursor (default "" (sql_journal_floor s1)));
  snapshot ← load_sqlite_snapshot s1;
  let current := match snapshot with Some snapshot => snap_cursor snapshot | None => 0 end in
  entries ← entries_of_rows (sql_journal s1);
  slice ← slice_journal entries floor current cursor limit;
  Ok (Some slice).

#[export] Instance sqlite_store : MessagingStateStore SqliteStateStore := {
  store_load := sqlite_load;
  store_save := sqlite_save;
  store_save_with_events := sqlite_save_with_events;
  store_load_event_journal_after := sqlite_load_event_journal_after;
}.

(** ** What a database shows *)

(** A row and the entry it stores. *)
Definition row_shows (p : JournalRow * JournalEntry) : Prop :=
  journal_cursor p.2 = Ok (entry_cursor p.2) /\ 0 <= entry_cursor p.2 <= u64_max
  /\ jrow_cursor p.1 = display (entry_cursor p.2)
  /\ audience_to_json (je_audience p.2) = Ok (jrow_audience_json p.1)
  /\ envelope_to_json (je_envelope p.2) = Ok (jrow_envelope_json p.1)
  /\ 0 < jrow_sequence p.1.

Definition row_before (p q : JournalRow * JournalEntry) : Prop :=
  jrow_sequence p.1 < jrow_sequence q.1 /\ entry_cursor p.2 <= entry_cursor q.2.

Record journal_shows (rows : list JournalRow) (last : Z) (journal : list JournalEntry)
    (z : list (JournalRow * JournalEntry)) : Prop := {
  js_rows : rows = z.*1;
  js_entries : journal = z.*2;
  js_each : Forall row_shows z;
  js_sorted : StronglySorted row_before z;
  js_last : Forall (fun p => jrow_sequence p.1 <= last) z;
  js_last_pos : 0 <= last;
}.

Record shows (s : SqliteStateStore) (m : MemoryStateStore) : Prop := {
  sh_version : sql_user_version s = 2;
  sh_snapshot : match mem_snapshot m with
                | None => sql_snapshot s = None
                | Some snapshot =>
                    snap_schema_version snapshot = MESSAGING_SNAPSHOT_SCHEMA_VERSION
                    /\ 0 <= snap_cursor snapshot <= u64_max
                    /\ exists json, state_to_json (snap_state snapshot) = Ok json
                                   /\ sql_snapshot s = Some (row_of_snapshot snapshot json)
                end;
  sh_journal : exists z, journal_shows (sql_journal s) (sql_last_sequence s) (mem_journal m) z;
  sh_floor : sql_journal_floor s = Some (display (mem_journal_floor_cursor m));
}.

Lemma migrated s m : shows s m -> migrate_sqlite s = (s, Ok tt).
Proof. intros H. unfold migrate_sqlite. by rewrite (sh_version _ _ H). Qed.

(** What is written in JSON reads back: all values without a number that is not
    finite, or one whose last bit the parser misses. *)
Definition state_reads_back (state : MessagingState) : Prop :=
  forall json, state_to_json state = Ok json -> state_of_json json = Ok state.
Definition entry_reads_back (e : JournalEntry) : Prop :=
  (forall json, audience_to_json (je_audience e) = Ok json -> audience_of_json json = Ok (je_audience e))
  /\ (forall json, envelope_to_json (je_envelope e) = Ok json -> envelope_of_json json = Ok (je_envelope e)).
Definition json_reads_back (m : MemoryStateStore) : Prop :=
  match mem_snapshot m with Some snapshot => state_reads_back (snap_state snapshot) | None => True end
  /\ Forall entry_reads_back (mem_journal m).

Lemma load_shown s m : shows s m -> json_reads_back m -> load_sqlite_snapshot s = Ok (mem_snapshot m).
Proof.
  intros H [Hb _]. unfold load_sqlite_snapshot. pose proof (sh_snapshot _ _ H) as Hs.
  destruct (mem_snapshot m) as [snap|]; [|by rewrite Hs]. destruct Hs as (Hv & Hc & json & Hj & ->). simpl. rewrite Hv. simpl.
  unfold parse_u64. rewrite parse_display by done. simpl. rewrite (Hb _ Hj). simpl.
  destruct snap. simpl in *. by rewrite Hv.
Qed.

Lemma entries_shown z rows last journal :
  journal_shows rows last journal z -> Forall entry_reads_back journal -> entries_of_rows rows = Ok journal.
Proof.
  intros [-> -> Hz _ _ _]. induction Hz as [|[row e] z (H1 & H2 & H3 & H4 & H5 & H6) _ IH]; [done|].
  csimpl in *. intros [[Ha He] Hrest]%list.Forall_cons. unfold entry_of_row. rewrite (Ha _ H4). csimpl.
  rewrite (He _ H5). csimpl. rewrite (IH Hrest). by destruct e.
Qed.

Lemma journal_shows_insert rows last journal z (row : JournalRow) (e : JournalEntry) :
  journal_shows rows last journal z -> row_shows (row, e) -> jrow_sequence row = last + 1 ->
  Forall (fun x => entry_cursor x <= entry_cursor e) journal ->
  journal_shows (rows ++ [row]) (last + 1) (journal ++ [e]) (z ++ [(row, e)])%list.
Proof.
  intros [-> -> Hz Hs Hl Hp] Hrow Hseq Hmax.
  assert (Hbefore : Forall (fun p => row_before p (row, e)) z).
  { rewrite list.Forall_forall in Hl. rewrite list.Forall_forall in Hmax.
    apply list.Forall_forall. intros p Hp'.
    split; simpl; [specialize (Hl p Hp'); simpl in Hl; lia|].
    apply Hmax. by apply list_elem_of_fmap_2. }
  split; [by rewrite fmap_app|by rewrite fmap_app| | | |lia].
  - apply Forall_app. split; [done|]. by apply list.Forall_cons.
  - clear Hl Hmax Hz Hrow. induction Hs as [|p z Hs IH Hp']; simpl; [by repeat constructor|].
    apply list.Forall_cons in Hbefore as [Hb Hbefore]. constructor; [by apply IH|].
    apply Forall_app. split; [done|]. by apply list.Forall_cons.
  - apply Forall_app. split; [eapply list.Forall_impl; [exact Hl|]; simpl; lia|].
    apply list.Forall_cons. split; [simpl; lia|done].
Qed.

(** What a save cannot write. *)
Definition entry_refusal (e : JournalEntry) : option StoreError :=
  match audience_to_json (je_audience e), envelope_to_json (je_envelope e) with
  | Err reason, _ | Ok _, Err reason => Some (StoreJson reason)
  | Ok _, Ok _ => None
  end.
Fixpoint entries_refusal (events : list JournalEntry) : option StoreError :=
  match events with
  | [] => None
  | e :: rest => match entry_refusal e with Some error => Some error | None => entries_refusal rest end
  end.
Definition json_refusal (snapshot : MessagingSnapshot) (events : list JournalEntry) : option StoreError :=
  match state_to_json (snap_state snapshot) with
  | Err reason => Some (StoreJson reason)
  | Ok _ => entries_refusal events
  end.

Lemma insert_events_shown events c : forall s journal z,
  journal_shows (sql_journal s) (sql_last_sequence s) journal z ->
  Forall (fun e => journal_cursor e = Ok c) events -> 0 <= c <= u64_max ->
  Forall (fun x => entry_cursor x <= c) journal ->
  match entries_refusal events with
  | Some error => insert_events s events = Err error
  | None => exists s' z', insert_events s events = Ok s'
      /\ journal_shows (sql_journal s') (sql_last_sequence s') (journal ++ events) z'
      /\ sql_user_version s' = sql_user_version s /\ sql_snapshot s' = sql_snapshot s
      /\ sql_journal_floor s' = sql_journal_floor s
  end.
Proof.
  induction events as [|e rest IH]; intros s journal z Hj He Hc Hmax.
  { exists s, z. by rewrite app_nil_r. }
  apply list.Forall_cons in He as [He Hrest]. pose proof (entry_cursor_stamped e c He) as Hec.
  cbn [entries_refusal insert_events]. unfold entry_refusal, insert_event. rewrite He. simpl.
  destruct (audience_to_json (je_audience e)) as [ja|] eqn:Ea; simpl; [|done].
  destruct (envelope_to_json (je_envelope e)) as [je|] eqn:Ee; simpl; [|done].
  assert (Hins : journal_shows (sql_journal s ++ [{| jrow_sequence := sql_last_sequence s + 1; jrow_cursor := display c;
                   jrow_audience_json := ja; jrow_envelope_json := je |}]) (sql_last_sequence s + 1) (journal ++ [e])
                 (z ++ [({| jrow_sequence := sql_last_sequence s + 1; jrow_cursor := display c;
                            jrow_audience_json := ja; jrow_envelope_json := je |}, e)])%list).
  { apply journal_shows_insert; [done| |done|by rewrite Hec].
    pose proof (js_last_pos _ _ _ _ Hj). unfold row_shows. simpl. rewrite Hec. split_and!; done || lia. }
  match goal with |- context [insert_events ?s1 rest] => pose proof (IH s1 (journal ++ [e])%list _
    ltac:(revert Hins; fields; exact id) Hrest Hc) as IH1 end.
  specialize (IH1 ltac:(apply Forall_app; split; [done|]; apply list.Forall_cons; by rewrite Hec)).
  destruct (entries_refusal rest) as [error|]; [done|].
  destruct IH1 as (s' & z' & E & H1 & H2 & H3 & H4). exists s', z'. revert E H1 H2 H3 H4. fields. intros E H1 H2 H3 H4.
  rewrite <- app_assoc in H1. by split_and!.
Qed.

(** ** Pruning *)

Lemma row_trichotomy z p q : StronglySorted row_before z -> p ∈ z -> q ∈ z ->
  p = q \/ row_before p q \/ row_before q p.
Proof.
  induction 1 as [|x z Hs IH Hx]; intros Hp Hq; [by apply elem_of_nil in Hp|].
  rewrite list.Forall_forall in Hx.
  apply elem_of_cons in Hp as [->|Hp], Hq as [->|Hq]; auto.
Qed.

Lemma max_sequence_upper rows c row : row ∈ rows -> jrow_cursor row = c -> jrow_sequence row <= max_sequence rows c.
Proof.
  intros Hr <-. induction Hr as [row rows|row x rows _ IH]; simpl.
  - rewrite (proj2 (eqb_spec _ _) eq_refl). lia.
  - case_match; lia.
Qed.

Lemma max_sequence_attained rows c :
  max_sequence rows c = 0 \/ exists row, row ∈ rows /\ jrow_cursor row = c /\ jrow_sequence row = max_sequence rows c.
Proof.
  induction rows as [|x rows IH]; simpl; [by left|]. destruct (eqb (jrow_cursor x) c) eqn:E.
  - apply eqb_true in E. destruct (Z.max_spec (jrow_sequence x) (max_sequence rows c)) as [[_ ->]|[_ ->]].
    + destruct IH as [IH|(row & H1 & H2 & H3)]; [by left|]. right. exists row. split; [by right|done].
    + right. exists x. split; [by left|done].
  - destruct IH as [IH|(row & H1 & H2 & H3)]; [by left|]. right. exists row. split; [by right|done].
Qed.

Lemma max_here (z : list (JournalRow * JournalEntry)) p c : p ∈ z -> jrow_cursor p.1 = c ->
  jrow_sequence p.1 <= max_sequence z.*1 c.
Proof. intros Hp <-. apply max_sequence_upper; [by apply list_elem_of_fmap_2|done]. Qed.

(** The rows beyond the last of a cursor are the entries after it. *)
Lemma beyond_is_after z k p : StronglySorted row_before z -> Forall row_shows z -> k ∈ z -> p ∈ z ->
  (max_sequence z.*1 (jrow_cursor k.1) < jrow_sequence p.1 <-> entry_cursor k.2 < entry_cursor p.2).
Proof.
  intros Hs Hz Hk Hp. rewrite list.Forall_forall in Hz.
  destruct (Hz k Hk) as (_ & _ & Ck & _ & _ & Pk). destruct (Hz p Hp) as (_ & _ & Cp & _ & _ & Pp).
  split; intros H.
  - destruct (row_trichotomy z k p Hs Hk Hp) as [->|[[_ Hc]|[Hlt _]]].
    + pose proof (max_here z p _ Hp eq_refl). lia.
    + destruct (Z.eq_dec (entry_cursor k.2) (entry_cursor p.2)) as [He|]; [|lia].
      pose proof (max_here z p (jrow_cursor k.1) Hp ltac:(by rewrite Ck, Cp, He)). lia.
    + pose proof (max_here z k _ Hk eq_refl). lia.
  - destruct (max_sequence_attained z.*1 (jrow_cursor k.1)) as [->|(row & Hr & Hc & <-)]; [done|].
    apply list_elem_of_fmap in Hr as (q & -> & Hq).
    destruct (Hz q Hq) as (_ & _ & Cq & _ & _ & _). rewrite Cq, Ck in Hc. apply display_inj in Hc.
    destruct (row_trichotomy z q p Hs Hq Hp) as [->|[[Hlt _]|[_ Hlt]]]; lia.
Qed.

Lemma filter_fst (P : JournalRow -> Prop) (Q : JournalEntry -> Prop) `{!forall r, Decision (P r)}
    `{!forall e, Decision (Q e)} (z : list (JournalRow * JournalEntry)) :
  (forall p, p ∈ z -> P p.1 <-> Q p.2) ->
  filter P z.*1 = (filter (fun p => P p.1) z).*1 /\ filter Q z.*2 = (filter (fun p => P p.1) z).*2.
Proof.
  induction z as [|p z IH]; intros HPQ; [done|]. rewrite !fmap_cons, !filter_cons.
  destruct IH as [I1 I2]; [intros q Hq; apply HPQ; by right|].
  specialize (HPQ p ltac:(left)). rewrite I1, I2. destruct (decide (P p.1)), (decide (Q p.2)); tauto || (split; done).
Qed.

Lemma sorted_filter_pairs (P : JournalRow * JournalEntry -> Prop) `{!forall p, Decision (P p)} z :
  StronglySorted row_before z -> StronglySorted row_before (filter P z).
Proof.
  induction 1 as [|p z Hs IH Hp]; [constructor|]. rewrite filter_cons. case_decide; [|done].
  constructor; [done|]. rewrite !list.Forall_forall in *. intros q Hq. apply list_elem_of_filter in Hq as [_ Hq]. auto.
Qed.

Lemma forall_filter_pairs (Q P : JournalRow * JournalEntry -> Prop) `{!forall p, Decision (P p)} z :
  Forall Q z -> Forall Q (filter P z).
Proof. rewrite !list.Forall_forall. intros HQ p Hp. apply list_elem_of_filter in Hp as [_ Hp]. auto. Qed.

Lemma prune_shown s m z : shows s m -> store_wf m ->
  journal_shows (sql_journal s) (sql_last_sequence s) (mem_journal m) z ->
  exists s', prune_sqlite_journal s = Ok s' /\ shows s' (fst (prune_journal m)).
Proof.
  intros Hsh [Hc Hs Hb Hf] [Hr He Hz Hso Hl Hp]. unfold prune_sqlite_journal, prune_journal.
  rewrite Hr, He, !length_fmap in *.
  destruct (Nat.leb_spec (length z) MESSAGING_EVENT_JOURNAL_LIMIT) as [Hle|Hgt].
  { rewrite (proj2 (Nat.ltb_ge _ _)) by done. simpl. exists s. split; [done|]. done. }
  rewrite (proj2 (Nat.ltb_lt _ _)) by done. rewrite !list_lookup_fmap.
  destruct (z !! _) as [k|] eqn:Ek; simpl; [|by exists s].
  pose proof (list_elem_of_lookup_2 _ _ _ Ek) as Hk.
  pose proof Hz as Hz'. rewrite list.Forall_forall in Hz'. destruct (Hz' k Hk) as (Jk & Rk & Ck & _).
  rewrite Jk. simpl.
  assert (Hparse : parse_u64 (jrow_cursor k.1) = Some (entry_cursor k.2)) by (unfold parse_u64; by rewrite Ck, parse_display).
  rewrite Hparse. simpl.
  eexists. split; [done|].
  destruct (filter_fst (fun row => max_sequence z.*1 (jrow_cursor k.1) < jrow_sequence row)
              (fun e => entry_cursor k.2 < entry_cursor e) z) as [F1 F2];
    [intros p Hpz; by apply beyond_is_after|].
  destruct Hsh as [V1 V2 V3 V4]. split; unfold set_journal_floor; fields; try done.
  rewrite Hr, He, prune_count_after by done. unfold entries_after. rewrite F1, F2. eexists. split; [done|done| | | |done].
  - by apply forall_filter_pairs.
  - by apply sorted_filter_pairs.
  - by apply forall_filter_pairs.
Qed.

(** ** The store refines the one in memory *)

Definition database_of (s : SqliteStateStore) (m : MemoryStateStore) : Prop :=
  exists s1, migrate_sqlite s = (s1, Ok tt) /\ shows s1 m.

Lemma new_database_of_empty : database_of new_database empty_store.
Proof.
  eexists. split; [reflexivity|]. split; try done. exists []. split; try constructor; done.
Qed.

Lemma save_fits_cursor m snapshot events : store_wf m -> save_fits m snapshot events ->
  0 <= snap_cursor snapshot <= u64_max.
Proof. intros [_ _ _ Hf] [_ Hc _ _]. unfold mem_current in *. lia. Qed.

Lemma database_shown s m : shows s m -> database_of s m.
Proof. intros H. exists s. split; [by eapply migrated|done]. Qed.

Lemma write_snapshot_shown s m snapshot events json : shows s m -> store_wf m -> save_fits m snapshot events ->
  state_to_json (snap_state snapshot) = Ok json ->
  shows (s ⟪ sql_snapshot := Some (row_of_snapshot snapshot json) ⟫) (m ⟪ mem_snapshot := Some snapshot ⟫).
Proof.
  intros [V1 V2 V3 V4] Hwf Hfit Hj. split; fields; try done.
  split; [apply Hfit|]. split; [by eapply save_fits_cursor|by exists json].
Qed.

Lemma sqlite_save_refines s m snapshot : database_of s m -> store_wf m -> save_fits m snapshot [] ->
  let answer := unless_refused (json_refusal snapshot []) m (memory_save m snapshot) in
  exists s', sqlite_save s snapshot = (s', snd answer) /\ database_of s' (fst answer).
Proof.
  intros (s1 & Hm & Hsh) Hwf Hfit. unfold sqlite_save, memory_save, in_transaction, json_refusal, write_snapshot.
  rewrite (fits_schema _ _ _ Hfit), Hm.
  destruct (state_to_json (snap_state snapshot)) as [json|reason] eqn:Ej; simpl.
  2:{ eexists. split; [done|]. by apply database_shown. }
  eexists. split; [done|]. apply database_shown.
  pose proof (write_snapshot_shown s1 m snapshot [] json Hsh Hwf Hfit Ej) as [V1 V2 V3 V4].
  revert V1 V2 V3 V4. fields. intros V1 V2 (z & Hz) V4.
  assert (Hnil : sql_journal s1 = [] <-> mem_journal m = []).
  { destruct Hz as [-> -> _ _ _ _]. by destruct z. }
  destruct (decide (mem_journal m = [])) as [Hj|Hj].
  - rewrite !bool_decide_eq_true_2 by tauto. split; unfold set_journal_floor; fields; try done.
    { by exists z. }
    rewrite Z.max_r; [done|]. destruct Hwf as [_ _ _ Hf]. destruct Hfit as [_ Hc _ _]. lia.
  - rewrite !bool_decide_eq_false_2 by tauto. split; fields; try done. by exists z.
Qed.

Lemma sqlite_save_with_events_refines s m snapshot events :
  database_of s m -> store_wf m -> save_fits m snapshot events ->
  let answer := unless_refused (json_refusal snapshot events) m (memory_save_with_events m snapshot events) in
  exists s', sqlite_save_with_events s snapshot events = (s', snd answer) /\ database_of s' (fst answer).
Proof.
  intros (s1 & Hm & Hsh) Hwf Hfit. pose proof (save_fits_cursor _ _ _ Hwf Hfit) as Hcur.
  unfold sqlite_save_with_events, in_transaction, json_refusal, write_snapshot. rewrite (fits_schema _ _ _ Hfit), Hm.
  destruct (state_to_json (snap_state snapshot)) as [json|reason] eqn:Ej; simpl.
  2:{ eexists. split; [done|]. by apply database_shown. }
  destruct (memory_save_with_events_ok m snapshot events Hwf Hfit) as (m' & Em & _).
  pose proof Hfit as [_ Hc He Hn]. pose proof (write_snapshot_shown s1 m snapshot events json Hsh Hwf Hfit Ej) as Hw.
  destruct (sh_journal _ _ Hw) as (z & Hz).
  assert (Hmax : Forall (fun x => entry_cursor x <= snap_cursor snapshot) (mem_journal m)).
  { destruct Hwf as [_ _ Hb _]. eapply list.Forall_impl; [exact Hb|]. simpl. lia. }
  pose proof (insert_events_shown events (snap_cursor snapshot) _ (mem_journal m) z Hz He Hcur Hmax) as Hins.
  destruct (entries_refusal events) as [error|]; [rewrite Hins; simpl; eexists; split; [done|by apply database_shown]|].
  destruct Hins as (s2 & z2 & E2 & Hz2 & W1 & W2 & W3).
  rewrite E2. simpl. rewrite Em. revert Em. unfold memory_save_with_events. rewrite (fits_schema _ _ _ Hfit). simpl.
  rewrite (journal_cursors_stamped _ _ He).
  set (m2 := m ⟪ mem_snapshot := Some snapshot ⟫ ⟪ mem_journal ::= _ ⟫). intros Em.
  assert (Hsh2 : shows s2 m2).
  { destruct Hw as [V1 V2 V3 V4]. revert V1 V2 V4. rewrite <- W1, <- W2, <- W3. subst m2. fields. intros V1 V2 V4.
    split; fields; [done|done|by exists z2|done]. }
  assert (Hwf2 : store_wf m2).
  { subst m2. unfold store_wf, mem_current. fields. by apply (journal_wf_append _ _ (mem_current m)); [|lia|..]. }
  destruct (prune_shown s2 m2 z2 Hsh2 Hwf2) as (s3 & -> & Hsh3); [by subst m2; fields|].
  exists s3. split; [done|]. rewrite Em in Hsh3. by apply database_shown.
Qed.

Lemma sqlite_load_after_refines s m cursor limit : database_of s m -> store_wf m -> json_reads_back m ->
  sqlite_load_event_journal_after s cursor limit = memory_load_event_journal_after m cursor limit.
Proof.
  intros (s1 & Hm & Hsh) Hwf Hb. unfold sqlite_load_event_journal_after, memory_load_event_journal_after.
  rewrite Hm. simpl. rewrite (sh_floor _ _ Hsh). simpl. unfold parse_u64. rewrite parse_display.
  - simpl. rewrite (load_shown _ _ Hsh Hb). simpl. destruct (sh_journal _ _ Hsh) as (z & Hz).
    rewrite (entries_shown z _ _ _ Hz (proj2 Hb)). simpl. by destruct (slice_journal _ _ _ _ _).
  - destruct Hwf as [_ _ _ Hf]. unfold mem_current in Hf. pose proof (sh_snapshot _ _ Hsh) as Hs.
    destruct (mem_snapshot m); [|unfold u64_max; lia]. destruct Hs as (_ & Hc & _). lia.
Qed.

Lemma sqlite_load_refines s m : database_of s m -> store_wf m -> json_reads_back m -> sqlite_load s = memory_load m.
Proof. intros (s1 & Hm & Hsh) _ Hb. unfold sqlite_load. rewrite Hm. simpl. by apply load_shown. Qed.

#[export] Instance sqlite_refines : RefinesMemory SqliteStateStore := {
  stands_for := database_of;
  refuses := json_refusal;
  reads_back := json_reads_back;
  load_refines := sqlite_load_refines;
  save_refines := sqlite_save_refines;
  save_with_events_refines := sqlite_save_with_events_refines;
  load_after_refines := sqlite_load_after_refines;
}.

(** A state that the codec cannot write stops every save: the database is as it
    was, but for a migration that was due. *)
Lemma unwritable_state_is_not_saved s s1 snapshot events reason :
  migrate_sqlite s = (s1, Ok tt) -> snap_schema_version snapshot = MESSAGING_SNAPSHOT_SCHEMA_VERSION ->
  state_to_json (snap_state snapshot) = Err reason ->
  sqlite_save s snapshot = (s1, Err (StoreJson reason))
  /\ sqlite_save_with_events s snapshot events = (s1, Err (StoreJson reason)).
Proof.
  intros Hm Hv Hj. unfold sqlite_save, sqlite_save_with_events, in_transaction, write_snapshot.
  rewrite Hv, Hm, Hj. by split.
Qed.
End sqlite.

(** C23: The SQLite store is the memory store.  Take any run of saves from a new
    database, each of a snapshot of this schema that is not older than the last,
    with entries that carry its cursor.  A save that JSON cannot write is
    answered with the error of the first value it cannot write and changes
    nothing; every other is answered as the memory store answers it.  Then, if
    what was kept reads back from JSON as it was written, both load the same
    snapshot and give the same slice of the journal for every cursor and limit:
    what the retention limit prunes from the one it prunes from the other. *)
Theorem sqlite_store_refines_memory `{SC : StoreCodec} (ops : list save_op) :
  ops_fit json_refusal empty_store ops ->
  let (s, answers) := do_saves do_save ops new_database in
  let (m, expected) := do_saves (memory_or_refusal json_refusal) ops empty_store in
  answers = expected
  /\ (json_reads_back m ->
       store_load s = store_load m
       /\ forall cursor limit, store_load_event_journal_after s cursor limit
                               = store_load_event_journal_after m cursor limit).
Proof.
  intros Hfit. assert (Hnew : stands_for new_database empty_store) by exact new_database_of_empty.
  destruct (do_saves_refine ops new_database empty_store Hnew empty_store_wf Hfit) as (s' & E & Hs & Hwf).
  change (@refuses SqliteStateStore _ _) with json_refusal in *. rewrite E.
  destruct (do_saves (memory_or_refusal json_refusal) ops empty_store) as [m rs]. split; [done|]. intros Hb. split.
  - exact (load_refines s' m Hs Hwf Hb).
  - intros cursor limit. exact (load_after_refines s' m cursor limit Hs Hwf Hb).
Qed.

(** ** Witness *)

(** A codec that knows one state and one entry, and refuses what holds a grant of
    a mini app, whose key is not a string. *)
Definition note_entry : JournalEntry := {|
  je_envelope := {| env_protocol_version := 2; env_cursor := Some "7"; env_server_time_ms := 5;
                    env_event := SE_FolderDeleted "f" |};
  je_audience := [MkActorId "ann"] |}.

#[local] Instance one_entry_codec : StoreCodec := {
  state_to_json st := if bool_decide (st_mini_app_grants st = ∅) then Ok "state" else Err "key must be a string";
  state_of_json _ := Ok empty_state;
  audience_to_json _ := Ok "audience"; audience_of_json _ := Ok (je_audience note_entry);
  envelope_to_json _ := Ok "envelope"; envelope_of_json _ := Ok (je_envelope note_entry);
}.

Definition granted_state : MessagingState :=
  empty_state ⟪ st_mini_app_grants := {[ ("app", MkActorId "ann") := {|
    grant_mini_app_id := "app"; grant_actor_id := MkActorId "ann"; grant_permissions := []; grant_granted_at_ms := 5;
    grant_expires_at_ms := None |} ]} ⟫.

Definition note_saves : list save_op :=
  [SaveSnapshot (snapshot_new empty_state 3 1); SaveWithEvents (snapshot_new empty_state 7 5) [note_entry];
   SaveWithEvents (snapshot_new granted_state 8 6) []].

Lemma sqlite_store_refines_memory_witness :
  let (s, answers) := do_saves do_save note_saves new_database in
  answers = [Ok tt; Ok tt; Err (StoreJson "key must be a string")]
  /\ store_load s = Ok (Some (snapshot_new empty_state 7 5))
  /\ store_load_event_journal_after s 3 10
     = Ok (Some {| sl_floor_cursor := 3; sl_current_cursor := 7; sl_checkpoint_cursor := 7;
                   sl_has_more := false; sl_entries := [note_entry] |}).
Proof.
  pose proof (sqlite_store_refines_memory note_saves) as H.
  assert (Hfit : ops_fit json_refusal empty_store note_saves).
  { split; [|split; [|split; [|exact I]]].
    - split; [reflexivity|vm_compute; split; discriminate|constructor|intros []; reflexivity].
    - split; [reflexivity|vm_compute; split; discriminate| |intros _; reflexivity].
      apply list.Forall_cons. split; [reflexivity|apply list.Forall_nil; exact I].
    - split; [reflexivity|vm_compute; split; discriminate|constructor|intros []; reflexivity]. }
  specialize (H Hfit). destruct (do_saves do_save note_saves new_database) as [s rs] eqn:E.
  destruct (do_saves (memory_or_refusal json_refusal) note_saves empty_store) as [m rm] eqn:Em.
  assert (m = fst (do_saves (memory_or_refusal json_refusal) note_saves empty_store)) as Hm by (rewrite Em; reflexivity).
  assert (rm = snd (do_saves (memory_or_refusal json_refusal) note_saves empty_store)) as Hr by (rewrite Em; reflexivity).
  destruct H as (-> & H). split; [rewrite Hr; vm_compute; reflexivity|]. destruct H as [-> Hslice].
  - rewrite Hm. split; [vm_compute; by intros json [= <-]|].
    apply list.Forall_cons. split; [split; by intros json [= <-]|apply list.Forall_nil; exact I].
  - rewrite Hslice, Hm. split; vm_compute; reflexivity.
Defined.
