(* ===== verification/JsonStore.v ===== *)
(** * The JSON file store ([store.rs], [JsonFileStateStore]) and its import

    The file's content is replaced by a rename, so a reader finds the old
    snapshot or the new one. *)

From S2P Require Import Prelude Text Maps Conversation EngineTypes Protocol Store SqliteStore.

(** [serde_json] on snapshots. *)
Class SnapshotCodec := {
  snapshot_to_json : MessagingSnapshot -> result string (list ascii);
  snapshot_of_json : list ascii -> result string MessagingSnapshot;
}.

(** The file at its path, if there is one. *)
Record JsonFileStateStore := { json_file : option (list ascii) }.

Section json.
Context `{JC : SnapshotCodec}.

Definition json_load (s : JsonFileStateStore) : result StoreError (option MessagingSnapshot) :=
  match json_file s with
  | None => Ok None
  | Some bytes =>
      snapshot ← map_err StoreJson (snapshot_of_json bytes);
      validate_snapshot_schema (snap_schema_version snapshot) ;;
      Ok (Some snapshot)
  end.

Definition json_save (s : JsonFileStateStore) (snapshot : MessagingSnapshot) :
    JsonFileStateStore * result StoreError unit :=
  match validate_snapshot_schema (snap_schema_version snapshot) with
  | Err e => (s, Err e)
  | Ok _ =>
      match snapshot_to_json snapshot with
      | Err reason => (s, Err (StoreJson reason))
      | Ok payload => ({| json_file := Some payload |}, Ok tt)
      end
  end.

(** The journal operations are the trait's defaults: there is no journal. *)
#[export] Instance json_store : MessagingStateStore JsonFileStateStore := {
  store_load := json_load;
  store_save := json_save;
  store_save_with_events := fun s snapshot _ => json_save s snapshot;
  store_load_event_journal_after := fun _ _ _ => Ok None;
}.

Lemma json_load_saved s snapshot s' :
  (forall payload, snapshot_to_json snapshot = Ok payload -> snapshot_of_json payload = Ok snapshot) ->
  json_save s snapshot = (s', Ok tt) -> json_load s' = Ok (Some snapshot).
Proof.
  intros Hj. unfold json_save. destruct (validate_snapshot_schema _) as [[]|] eqn:E; [|done].
  destruct (snapshot_to_json snapshot) as [payload|] eqn:Ep; [|done]. intros [= <-].
  unfold json_load. simpl. rewrite (Hj _ eq_refl). simpl. by rewrite E.
Qed.

(** [SqliteStateStore::import_json_if_empty]; loading migrates the database. *)
Definition import_json_if_empty `{SC : StoreCodec} (s : SqliteStateStore) (legacy : JsonFileStateStore) :
    SqliteStateStore * result StoreError bool :=
  let migrated := fst (migrate_sqlite s) in
  match sqlite_load s with
  | Err e => (migrated, Err e)
  | Ok (Some _) => (migrated, Ok false)
  | Ok None =>
      match json_load legacy with
      | Err e => (migrated, Err e)
      | Ok None => (migrated, Ok false)
      | Ok (Some snapshot) =>
          let (s', r) := sqlite_save migrated snapshot in (s', r ;; Ok true)
      end
  end.

Lemma migrated_version `{SC : StoreCodec} s s' : migrate_sqlite s = (s', Ok tt) -> 0 <= sql_user_version s ->
  migrate_sqlite s' = (s', Ok tt).
Proof.
  unfold migrate_sqlite, MESSAGING_SQLITE_SCHEMA_VERSION. intros E Hv. revert E.
  destruct (Z.ltb_spec 2 (sql_user_version s)); [done|].
  destruct (Z.eqb_spec (sql_user_version s) 0); [intros [= <-]; by fields|].
  destruct (Z.eqb_spec (sql_user_version s) 1); [intros [= <-]; by fields|].
  intros [= <-]. by replace (sql_user_version s) with 2 by lia.
Qed.

(** What was imported is what the database then loads; a database that has a
    snapshot keeps it. *)
Lemma imported_snapshot_loads `{SC : StoreCodec} s legacy s' imported :
  0 <= sql_user_version s -> import_json_if_empty s legacy = (s', Ok imported) ->
  (forall snapshot, json_load legacy = Ok (Some snapshot) ->
     0 <= snap_cursor snapshot <= u64_max /\ state_reads_back (snap_state snapshot)) ->
  sqlite_load s' = if imported then json_load legacy else sqlite_load s.
Proof.
  intros Hv. unfold import_json_if_empty. unfold sqlite_load at 1.
  destruct (migrate_sqlite s) as [s1 [[]|e]] eqn:Em; simpl; [|done]. pose proof (migrated_version _ _ Em Hv) as Em1.
  assert (Hsame : sqlite_load s1 = sqlite_load s) by (unfold sqlite_load; by rewrite Em, Em1).
  destruct (load_sqlite_snapshot s1) as [[old|]|e]; [by intros [= <- <-] _| |done].
  destruct (json_load legacy) as [[snapshot|]|e] eqn:Ej; [|by intros [= <- <-] _|done].
  unfold sqlite_save. destruct (validate_snapshot_schema _) as [[]|e] eqn:Es; [|done].
  unfold in_transaction, write_snapshot. rewrite Em1. simpl.
  destruct (state_to_json (snap_state snapshot)) as [state_json|] eqn:Est; simpl; [|done]. intros [= <- <-] Hfits. destruct (Hfits snapshot eq_refl) as [Hc Hst].
  set (s2 := if bool_decide _ then _ else _).
  assert (Hs2 : sql_user_version s2 = sql_user_version s1
                /\ sql_snapshot s2 = Some (row_of_snapshot snapshot state_json)).
  { subst s2. case_bool_decide; unfold set_journal_floor; by fields. }
  destruct Hs2 as [Hv2 Hrow]. unfold sqlite_load.
  assert (Em2 : migrate_sqlite s2 = (s2, Ok tt)).
  { clear -Em1 Hv2. unfold migrate_sqlite in *. rewrite Hv2.
    destruct (_ <? _); [by injection Em1|]. destruct (_ =? 0) eqn:E0.
    - injection Em1 as Hs1. apply Z.eqb_eq in E0. rewrite <- Hs1 in E0. revert E0. by fields.
    - destruct (_ =? 1) eqn:E1; [|done]. injection Em1 as Hs1. apply Z.eqb_eq in E1. rewrite <- Hs1 in E1. revert E1. by fields. }
  rewrite Em2. simpl. unfold load_sqlite_snapshot. rewrite Hrow. simpl. rewrite Es. simpl.
  unfold parse_u64. rewrite parse_display by done. simpl. rewrite (Hst _ Est). simpl. by destruct snapshot.
Qed.
End json.
