(* ===== verification/ServiceView.v ===== *)
(** * What the service shows an actor ([service.rs]): visibility, projections, snapshots *)

From S2P Require Import Prelude Text Maps Conversation Message Payment Wallet Apps Community EngineTypes EngineCore Search Protocol Store.

(** [SettlementError], [BlobStoreError] and the others are wrapped by the
    service's errors in the files that use them; [UnauthorizedCommand] carries
    its reason. *)

(** An envelope of the current protocol. *)
Definition envelope_at (cursor server_time_ms : Z) (event : ServerEvent) : ServerEnvelope := {|
  env_protocol_version := FABUSHI_MESSAGING_PROTOCOL_VERSION;
  env_cursor := Some (display cursor);
  env_server_time_ms := server_time_ms;
  env_event := event |}.

(** [usize::try_from(limit.max(1))] *)
Definition max_items (limit : Z) : nat := Z.to_nat (Z.max 1 limit).

(** ** Who sees what *)

(** [!matches!(status, Left | Banned)] *)
Definition is_current_member (m : CommunityMember) : bool := negb (has_status [StLeft; StBanned] m).

Definition actor_can_see_conversation (st : MessagingState) (actor_id : ActorId) (c : Conversation) : bool :=
  match st_communities st !! conv_id c with
  | Some community =>
      is_conversation_owner c actor_id
      || member_is community actor_id is_current_member
      || (eqb (conv_kind c) Channel && is_subscriber community actor_id)
  | None => is_conversation_owner c actor_id || is_participant c actor_id
  end.

(** [authorized_community]; [None] is the denial. *)
Definition authorized_community (st : MessagingState) (actor_id : ActorId) (conversation_id : ConversationId) :
    option CommunityState :=
  community ← st_communities st !! conversation_id;
  if member_is community actor_id is_current_member
     || is_subscriber community actor_id
     || is_some_and (st_conversations st !! conversation_id) (fun c => is_conversation_owner c actor_id)
  then Some community else None.

(** ** Unread counts *)

(** By time, then by identifier. *)
Definition message_le (a b : Message) : Prop :=
  if decide (msg_created_at_ms a = msg_created_at_ms b) then key_le (msg_id a) (msg_id b)
  else msg_created_at_ms a <= msg_created_at_ms b.
#[export] Instance message_le_dec : RelDecision message_le.
Proof.
  intros a b. unfold message_le. destruct (decide (msg_created_at_ms a = msg_created_at_ms b)); apply _.
Defined.

Definition ordered_messages (st : MessagingState) (conversation_id : ConversationId) : list Message :=
  merge_sort message_le (btree_values (default ∅ (st_messages st !! conversation_id))).

(** [messages.iter().position(|message| &message.id == message_id)] *)
Definition read_position (messages : list Message) (cursor : option MessageId) : option nat :=
  id ← cursor; fst <$> list_find (fun m => msg_id m = id) messages.

(** The messages at positions after the one read that satisfy [counts], as a
    [u32]. *)
Definition unread_after (messages : list Message) (cursor : option MessageId) (counts : Message -> bool) : Z :=
  let read_index := read_position messages cursor in
  let after_read (i : nat) := match read_index with Some r => (r <? i)%nat | None => true end in
  Z.min u32_max (Z.of_nat (length
    (filter (fun p : nat * Message => after_read p.1 && counts p.2 = true) (imap pair messages)))).

Definition counts_as_unread (actor_id : ActorId) (server_time_ms : Z) (m : Message) : bool :=
  is_none_or (msg_scheduled_at_ms m) (fun scheduled => scheduled <=? server_time_ms)
  && negb (msg_deleted m) && negb (eqb (msg_sender_id m) actor_id).

(** [topic_unread_count] *)
Definition topic_unread_for (st : MessagingState) (actor_id : ActorId) (conversation_id : ConversationId)
    (topic : string) (server_time_ms : Z) : Z :=
  let cursor :=
    by_actor ← st_topic_read_cursors st !! conversation_id;
    by_topic ← by_actor !! actor_id;
    by_topic !! topic in
  unread_after (ordered_messages st conversation_id) cursor (fun m =>
    is_some_and (msg_thread_root_message_id m) (fun root => eqb (topic_id_from_root root) (Some topic))
    && counts_as_unread actor_id server_time_ms m).

(** ** Projections *)

(** The topics of a community as the conversation shows them. *)
Definition topic_of_state (st : MessagingState) (actor_id : ActorId) (conversation_id : ConversationId)
    (server_time_ms : Z) (t : ForumTopicState) : Topic := {|
  topic_id := ft_id t; topic_title := ft_title t; topic_icon := ft_icon t;
  topic_created_by := ft_creator_id t; topic_closed := ft_closed t; topic_hidden := ft_hidden t;
  topic_unread_count := topic_unread_for st actor_id conversation_id (ft_id t) server_time_ms |}.

Definition project_conversation_for_actor (st : MessagingState) (actor_id : ActorId) (c : Conversation)
    (server_time_ms : Z) : Conversation :=
  let last_read := cursors ← st_read_cursors st !! conv_id c; cursors !! actor_id in
  let projected :=
    c ⟪ conv_last_read_message_id := message_id_0 <$> last_read ⟫
      ⟪ conv_unread_count := unread_after (ordered_messages st (conv_id c)) last_read
                               (counts_as_unread actor_id server_time_ms) ⟫
      ⟪ conv_marked_unread := is_some_and (st_marked_unread_by_actor st !! conv_id c)
                                (fun actors => bool_decide (actor_id ∈ actors)) ⟫ in
  match st_communities st !! conv_id c with
  | None => projected
  | Some community =>
      projected ⟪ conv_topics :=
        topic_of_state st actor_id (conv_id c) server_time_ms <$> btree_values (cs_topics community) ⟫
  end.

Definition project_community_for_actor (st : MessagingState) (actor_id : ActorId) (community : CommunityState)
    (server_time_ms : Z) : CommunityState :=
  let is_admin := member_is community actor_id (has_status [StOwner; StAdministrator]) in
  let can_invite := member_is community actor_id (fun m =>
    has_status [StOwner] m || (has_status [StAdministrator] m && ar_invite_members (cm_admin_rights m))) in
  let projected1 :=
    if is_admin then community
    else community ⟪ cs_pending_join_requests := ∅ ⟫ ⟪ cs_admin_log := [] ⟫ in
  let projected2 :=
    if can_invite then projected1
    else projected1 ⟪ cs_pending_join_requests := ∅ ⟫
                    ⟪ cs_invite_links ::= fmap (fun i => i ⟪ il_token := "" ⟫) ⟫ in
  projected2 ⟪ cs_topics ::= fmap (fun t => t ⟪ ft_unread_count :=
    topic_unread_for st actor_id (cs_conversation_id community) (ft_id t) server_time_ms ⟫) ⟫.

Definition project_message_for_actor (st : MessagingState) (actor_id : ActorId) (m : Message) : Message :=
  match msg_content m with
  | ContentPoll question options anonymous multiple quiz =>
      let selected :=
        messages ← st_poll_votes st !! msg_conversation_id m;
        actors ← messages !! msg_id m;
        actors !! actor_id in
      let mark (o : PollOption) :=
        o ⟪ option_chosen := is_some_and selected (fun ids => bool_decide (option_id o ∈ ids)) ⟫ in
      m ⟪ msg_content := ContentPoll question (mark <$> options) anonymous multiple quiz ⟫
  | _ => m
  end.

(** ** The snapshot of a client that starts over *)

Definition visible_conversations (st : MessagingState) (actor_id : ActorId) : gset ConversationId :=
  list_to_set (conv_id <$> filter (fun c => actor_can_see_conversation st actor_id c = true)
    (btree_values (st_conversations st))).

(** The actors of one visible conversation. *)
Definition conversation_actors (st : MessagingState) (c : Conversation) : list ActorId :=
  ((participant_actor_id <$> filter (fun p => actor_can_see_conversation st (participant_actor_id p) c = true)
      (conv_participants c))
   ++ match st_communities st !! conv_id c with
      | None => []
      | Some community =>
          ((cm_actor_id <$> filter (fun m => is_current_member m = true) (btree_values (cs_members community)))
           ++ btree_keys (cs_subscribers community))%list
      end)%list.

(** [visible_ids.iter().filter_map(|id| map.get(id))] *)
Definition lookup_each {K V : Type} `{Countable K, !BTreeKey K} (m : gmap K V) (ids : gset K) : list V :=
  omap (fun id => m !! id) (btree_elements ids).

Definition visible_actors (st : MessagingState) (actor_id : ActorId) : gset ActorId :=
  list_to_set (flat_map (conversation_actors st)
      (lookup_each (st_conversations st) (visible_conversations st actor_id)))
  ∪ {[ actor_id ]}.

Definition is_expired (m : Message) (server_time_ms : Z) : bool :=
  is_some_and (msg_expires_at_ms m) (fun expires_at_ms => expires_at_ms <=? server_time_ms).

Definition sync_batch (st : MessagingState) (cursor : Z) (actor_id : ActorId) (limit server_time_ms : Z) :
    SyncBatch :=
  let visible := visible_conversations st actor_id in
  let actors := visible_actors st actor_id in
  let bounded {A : Type} (l : list A) := take (max_items limit) l in
  {| sb_actors := lookup_each (st_actors st) actors;
     sb_conversations := (fun c => project_conversation_for_actor st actor_id c server_time_ms)
       <$> lookup_each (st_conversations st) visible;
     sb_messages := project_message_for_actor st actor_id
       <$> bounded (filter (fun m => negb (msg_deleted m && is_expired m server_time_ms) = true)
             (flat_map btree_values (lookup_each (st_messages st) visible)));
     sb_folders := bounded (filter (fun f => existsb (fun id => bool_decide (id ∈ visible)) (folder_conversation_ids f) = true)
       (btree_values (st_folders st)));
     sb_drafts := omap (fun by_actor : gmap ActorId ConversationDraft => by_actor !! actor_id)
       (lookup_each (st_drafts st) visible);
     sb_topic_drafts := flat_map btree_values
       (omap (fun by_actor : gmap ActorId (gmap string TopicDraft) => by_actor !! actor_id)
         (lookup_each (st_topic_drafts st) visible));
     sb_invoices := bounded (filter (fun i => inv_conversation_id i ∈ visible) (btree_values (st_invoices st)));
     sb_orders := bounded (filter (fun o =>
         eqb (order_buyer_id o) actor_id
         || is_some_and (st_invoices st !! order_invoice_id o) (fun i => eqb (inv_seller_id i) actor_id) = true)
       (btree_values (st_orders st)));
     sb_stories := bounded (filter (fun s =>
         (story_pinned_to_profile s || (server_time_ms <? story_expires_at_ms s))
         && is_visible_to s actor_id false false = true)
       (btree_values (st_stories st)));
     sb_communities := (fun c => project_community_for_actor st actor_id c server_time_ms)
       <$> bounded (lookup_each (st_communities st) visible);
     sb_bots := bounded (filter (fun b => bot_actor_id b ∈ actors) (btree_values (reg_bots (st_bots st))));
     sb_bot_executions := bounded (filter (fun e =>
         eqb (exec_bot_id e) actor_id || bool_decide (exec_bot_id e ∈ actors) = true)
       (btree_values (reg_executions (st_bots st))));
     sb_mini_apps := bounded (btree_values (st_mini_apps st));
     sb_next_cursor := Some (display cursor) |}.

Definition sync_envelope (st : MessagingState) (cursor : Z) (actor_id : ActorId) (limit server_time_ms : Z) :
    ServerEnvelope :=
  envelope_at cursor server_time_ms (SE_SyncBatch (sync_batch st cursor actor_id limit server_time_ms)).

Definition empty_batch (cursor : Z) : SyncBatch := {|
  sb_actors := []; sb_conversations := []; sb_messages := []; sb_folders := []; sb_drafts := [];
  sb_topic_drafts := []; sb_invoices := []; sb_orders := []; sb_stories := []; sb_communities := [];
  sb_bots := []; sb_bot_executions := []; sb_mini_apps := []; sb_next_cursor := Some (display cursor) |}.

Definition sync_checkpoint_envelope (cursor server_time_ms : Z) : ServerEnvelope :=
  envelope_at cursor server_time_ms (SE_SyncBatch (empty_batch cursor)).

(** ** Search *)

Definition searchable_conversations (st : MessagingState) (actor_id : ActorId) : gset ConversationId :=
  list_to_set (conv_id <$> filter (fun c =>
      actor_can_see_conversation st actor_id c
      || is_some_and (st_communities st !! conv_id c)
           (fun community => is_some_and (cs_public_username community) (fun _ => true)) = true)
    (btree_values (st_conversations st))).

Section search_view.
Context `{UT : UnicodeText}.

(** The index of what the actor may search. *)
Definition search_index_for (st : MessagingState) (actor_id : ActorId) : SearchIndex :=
  let visible := searchable_conversations st actor_id in
  let i1 := foldl (fun i a => index_actor a i) empty_index (btree_values (st_actors st)) in
  let i2 := foldl (fun i c => index_conversation c i) i1
    (filter (fun c => conv_id c ∈ visible) (btree_values (st_conversations st))) in
  foldl (fun i m => index_message m i) i2
    (filter (fun m => msg_deleted m = false) (flat_map btree_values (lookup_each (st_messages st) visible))).

Definition search_envelope (st : MessagingState) (cursor : Z) (actor_id : ActorId) (query : SearchQuery)
    (server_time_ms : Z) : ServerEnvelope :=
  envelope_at cursor server_time_ms (SE_SearchResults query (search (search_index_for st actor_id) query)).
End search_view.

(** ** The wallet *)

Definition touches_account (account_id : WalletAccountId) (e : LedgerEntry) : bool :=
  eqb (le_from_account_id e) (Some account_id) || eqb (le_to_account_id e) (Some account_id).

Definition later_entry (a b : LedgerEntry) : Prop := le_created_at_ms b <= le_created_at_ms a.
#[export] Instance later_entry_dec : RelDecision later_entry.
Proof. intros a b. unfold later_entry. apply _. Defined.

(** [merge_sort] is stable, as [sort_by_key] is. *)
Definition wallet_status_envelope (st : MessagingState) (cursor : Z) (actor_id : ActorId) (server_time_ms : Z) :
    ServerEnvelope :=
  let account_id := wallet_account_id actor_id in
  envelope_at cursor server_time_ms (SE_WalletStatus (wl_accounts (st_wallet st) !! account_id)
    (take 50 (merge_sort later_entry
      (filter (fun e => touches_account account_id e = true) (btree_values (wl_entries (st_wallet st))))))).
