(* ===== verification/ServiceJournal.v ===== *)
(** * What the service tells whom ([service.rs]): events, audiences, the journal *)

From S2P Require Import Prelude Text Maps Conversation Message Payment Wallet Apps Community EngineTypes EngineCore Search BlobStore Protocol Store ServiceView.

(** ** From engine events to server events *)

Section events.
Variable st : MessagingState.

(** The conversation as the actor sees it, if it is still there. *)
Definition conversation_event (actor_id : ActorId) (server_time_ms : Z) (conversation_id : ConversationId)
    (f : Conversation -> ServerEvent) : option ServerEvent :=
  (fun c => f (project_conversation_for_actor st actor_id c server_time_ms)) <$> st_conversations st !! conversation_id.

Definition message_event (conversation_id : ConversationId) (message_id : MessageId) : option ServerEvent :=
  SE_MessageChanged <$> find_message st conversation_id message_id.

(** The match of [project_event]; [None] where it returns early. *)
Definition server_event_of (actor_id : ActorId) (event : Event) (server_time_ms : Z) : option ServerEvent :=
  match event with
  | ActorUpserted actor => Some (SE_ActorChanged actor)
  | PresenceUpdated id presence => Some (SE_PresenceChanged id presence)
  | ConversationUpserted c =>
      Some (SE_ConversationChanged (project_conversation_for_actor st actor_id c server_time_ms))
  | ConversationInfoUpdated id _ _ | ConversationArchived id _ | ConversationPinned id _
  | ConversationNotificationsUpdated id _ =>
      conversation_event actor_id server_time_ms id SE_ConversationChanged
  | ConversationParticipantUpserted id _ =>
      conversation_event actor_id server_time_ms id (fun c => SE_ConversationParticipantChanged c None)
  | ConversationParticipantRemoved id removed =>
      conversation_event actor_id server_time_ms id (fun c => SE_ConversationParticipantChanged c (Some removed))
  | ConversationMessageRetentionUpdated id retention =>
      Some (SE_ConversationMessageRetentionChanged id (policy_seconds <$> retention_policy retention)
              (retention_revision retention))
  | ConversationMarkedUnread id who marked => Some (SE_MarkedUnreadChanged id who marked)
  | DraftChanged draft => Some (SE_DraftChanged draft)
  | FolderUpserted folder => Some (SE_FolderChanged folder)
  | FolderDeleted id => Some (SE_FolderDeleted id)
  | MessageQueued m => Some (SE_MessageAdded m)
  | MessageAcknowledged id _ m _ | DeliveryStateUpdated id m _ | MessageEdited id m _ _
  | ReactionUpdated id m _ | MessagePinned id m _ | PollVoteChanged id m _ _ => message_event id m
  | MessagesDeleted id ids => Some (SE_MessagesDeleted id ids)
  | ConversationRead id who m => Some (SE_ReadChanged id who m)
  | TopicReadChanged id topic who m => Some (SE_TopicReadChanged id topic who m)
  | TopicDraftChanged draft => Some (SE_TopicDraftChanged draft)
  | InvoiceCreated invoice => Some (SE_InvoiceChanged invoice)
  | OrderUpserted order => Some (SE_OrderChanged order)
  | WalletChanged _ _ => None
  | StoryChanged story => Some (SE_StoryChanged story)
  | StoryDeleted id => Some (SE_StoryDeleted id)
  | CommunityChanged community =>
      Some (SE_CommunityChanged (project_community_for_actor st actor_id community server_time_ms))
  | BotRegistryChanged _ profile execution => Some (SE_BotChanged profile execution)
  | MiniAppInstalled manifest => Some (SE_MiniAppChanged manifest)
  | MiniAppGrantUpdated _ => None
  | MiniAppOpened session => Some (SE_MiniAppOpened session)
  | MiniAppResponded session_id request_id response => Some (SE_MiniAppResult session_id request_id response)
  end.

(** [project_event] *)
Definition project_event (cursor : Z) (actor_id : ActorId) (event : Event) (server_time_ms : Z) :
    option ServerEnvelope :=
  envelope_at cursor server_time_ms <$> server_event_of actor_id event server_time_ms.

(** ** Audiences *)

Definition owner_of (c : Conversation) : gset ActorId :=
  match conv_owner_id c with Some owner => {[ owner ]} | None => ∅ end.

(** [extend_conversation_audience] *)
Definition conversation_audience (c : Conversation) : gset ActorId :=
  list_to_set (participant_actor_id <$> conv_participants c) ∪ owner_of c.

(** A participant that belongs to the community behind the conversation. *)
Definition backed_by_community (c : Conversation) (community : CommunityState) (id : ActorId) : bool :=
  is_conversation_owner c id
  || member_is community id is_current_member
  || (eqb (conv_kind c) Channel && is_subscriber community id).

(** [extend_conversation_id_audience] *)
Definition conversation_id_audience (conversation_id : ConversationId) : gset ActorId :=
  match st_conversations st !! conversation_id with
  | None => ∅
  | Some c =>
      match st_communities st !! conversation_id with
      | None => conversation_audience c
      | Some community =>
          list_to_set (filter (fun id => backed_by_community c community id = true)
            (participant_actor_id <$> conv_participants c))
          ∪ list_to_set (cm_actor_id <$> filter (fun m => is_current_member m = true)
              (btree_values (cs_members community)))
          ∪ (if eqb (conv_kind c) Channel then dom (cs_subscribers community) else ∅)
          ∪ owner_of c
      end
  end.

(** The conversations an actor takes part in. *)
Definition contacts_of (id : ActorId) : gset ActorId :=
  ⋃ (conversation_audience <$> filter (fun c => is_participant c id = true) (btree_values (st_conversations st))).

(** [event_audience], before it is listed. *)
Definition audience_of (initiator : ActorId) (event : ServerEvent) : gset ActorId :=
  match event with
  | SE_ActorChanged actor => {[ initiator ]} ∪ {[ actor_id actor ]} ∪ contacts_of (actor_id actor)
  | SE_PresenceChanged id _ => {[ initiator ]} ∪ {[ id ]} ∪ contacts_of id
  | SE_ConversationChanged c => {[ initiator ]} ∪ conversation_audience c
  | SE_ConversationParticipantChanged c removed =>
      {[ initiator ]} ∪ conversation_audience c
      ∪ match removed with Some id => {[ id ]} | None => ∅ end
  | SE_MarkedUnreadChanged _ who _ => {[ who ]}
  | SE_DraftChanged draft => {[ draft_actor_id draft ]}
  | SE_TopicDraftChanged draft => {[ tdraft_actor_id draft ]}
  | SE_MessageAdded m | SE_MessageChanged m =>
      {[ initiator ]} ∪ conversation_id_audience (msg_conversation_id m)
  | SE_MessagesDeleted id _ => conversation_id_audience id
  | SE_ConversationMessageRetentionChanged id _ _ | SE_ReadChanged id _ _ | SE_TypingChanged id _ _ _ =>
      {[ initiator ]} ∪ conversation_id_audience id
  | SE_TopicReadChanged _ _ who _ => {[ who ]}
  | SE_InvoiceChanged invoice => {[ initiator ]} ∪ conversation_id_audience (inv_conversation_id invoice)
  | SE_OrderChanged order =>
      {[ initiator ]} ∪ {[ order_buyer_id order ]}
      ∪ match st_invoices st !! order_invoice_id order with Some i => {[ inv_seller_id i ]} | None => ∅ end
  | SE_StoryChanged story => {[ initiator ]} ∪ {[ story_owner_id story ]}
  | SE_CommunityChanged community =>
      {[ initiator ]} ∪ conversation_id_audience (cs_conversation_id community)
  | SE_BotChanged profile execution =>
      {[ initiator ]} ∪ match profile with Some p => {[ bot_actor_id p ]} | None => ∅ end
      ∪ match execution with Some e => {[ exec_bot_id e ]} | None => ∅ end
  | SE_BotInvocationRequested invocation =>
      {[ initiator ]} ∪ {[ binv_sender_id invocation ]} ∪ {[ binv_bot_id invocation ]}
      ∪ conversation_id_audience (binv_conversation_id invocation)
  | SE_MiniAppOpened session => {[ initiator ]} ∪ {[ session_actor_id session ]}
  | SE_MiniAppResult session_id _ _ =>
      {[ initiator ]} ∪ match st_mini_app_sessions st !! session_id with
                        | Some session => {[ session_actor_id session ]} | None => ∅ end
  | SE_SyncBatch _ | SE_SearchResults _ _ | SE_FolderChanged _ | SE_FolderDeleted _ | SE_BlobUploadChanged _
  | SE_BlobReady _ | SE_BlobDeleted _ | SE_WalletStatus _ _ | SE_StoryDeleted _ | SE_MiniAppChanged _
  | SE_CommunityMembersPage _ _ _ | SE_CommunityAuditLogPage _ _ _ | SE_Error _ _ _ _ => {[ initiator ]}
  end.

Definition event_audience (initiator : ActorId) (event : ServerEvent) : list ActorId :=
  btree_elements (audience_of initiator event).

(** ** The journal *)

(** A community without what only its administrators may see. *)
Definition public_community (community : CommunityState) : CommunityState :=
  community ⟪ cs_admin_log := [] ⟫
            ⟪ cs_pending_join_requests := ∅ ⟫
            ⟪ cs_topics ::= fmap (fun t => t ⟪ ft_unread_count := 0 ⟫) ⟫
            ⟪ cs_invite_links ::= fmap (fun i => i ⟪ il_token := "" ⟫) ⟫.

Definition public_journal_envelope (response : ServerEnvelope) : ServerEnvelope :=
  match env_event response with
  | SE_CommunityChanged community => response ⟪ env_event := SE_CommunityChanged (public_community community) ⟫
  | _ => response
  end.

Definition is_sync_batch (event : ServerEvent) : bool :=
  match event with SE_SyncBatch _ => true | _ => false end.

(** The entry of a response: a changed community is journalled as it is in the
    state, not as the actor who changed it sees it. *)
Definition journal_envelope_of (response : ServerEnvelope) : ServerEnvelope :=
  match env_event response with
  | SE_CommunityChanged community =>
      public_journal_envelope (response ⟪ env_event := SE_CommunityChanged
        (default community (st_communities st !! cs_conversation_id community)) ⟫)
  | _ => public_journal_envelope response
  end.

Definition journal_entries (initiator : ActorId) (responses : list ServerEnvelope) : list JournalEntry :=
  (fun response => {| je_envelope := journal_envelope_of response;
                      je_audience := event_audience initiator (env_event response) |})
  <$> filter (fun response => negb (is_sync_batch (env_event response)) = true) responses.

Definition project_journal_envelope_for_actor (actor_id : ActorId) (envelope : ServerEnvelope)
    (server_time_ms : Z) : ServerEnvelope :=
  match env_event envelope with
  | SE_CommunityChanged community =>
      envelope ⟪ env_event :=
        SE_CommunityChanged (project_community_for_actor st actor_id community server_time_ms) ⟫
  | _ => public_journal_envelope envelope
  end.

(** What [sync_response] sends of a slice to an actor. *)
Definition addressed_to (actor_id : ActorId) (entry : JournalEntry) : bool :=
  existsb (fun candidate => eqb candidate actor_id) (je_audience entry).

Definition still_typing (server_time_ms : Z) (entry : JournalEntry) : bool :=
  match env_event (je_envelope entry) with
  | SE_TypingChanged _ _ _ (Some expires_at_ms) => server_time_ms <? expires_at_ms
  | _ => true
  end.

Definition deliver_entries (actor_id : ActorId) (server_time_ms : Z) (entries : list JournalEntry) :
    list ServerEnvelope :=
  (fun entry => project_journal_envelope_for_actor actor_id (je_envelope entry) server_time_ms)
  <$> filter (fun entry => still_typing server_time_ms entry = true)
        (filter (fun entry => addressed_to actor_id entry = true) entries).
End events.
