(* ===== verification/ServiceCommand.v ===== *)
(** * Commands at the service ([service.rs]): authorisation, translation, replays *)

From S2P Require Import Prelude Text Maps Bytes Conversation SecretChat Message Payment Wallet Apps Community EngineTypes EngineCore Search BlobStore Settlement Protocol Store ServiceView.

Inductive MessagingServiceError :=
| ProtocolVersion (expected actual : Z)
| ServiceEngine (e : EngineError)
| ServiceStore (e : StoreError)
| ServiceBlob (e : BlobStoreError)
| BlobStoreUnavailable
| InvalidBlobBase64 (reason : string)
| Invariant (reason : string)
| UnauthorizedCommand (reason : string)
| IdempotencyConflict (id : string)
| ServiceSettlement (e : SettlementError).

Notation service_result A := (result MessagingServiceError A) (only parsing).

(** SHA-256 and base64. *)
Class ServiceCrypto := {
  svc_sha256 : list ascii -> list ascii;
  svc_base64_decode : string -> result string (list ascii);
}.

(** ** Equality of contents

    The derived [PartialEq]; an [f64] is its bits and is compared as a number:
    a NaN equals nothing, the two zeros are equal. *)

#[export] Instance TextEntityKind_eq_dec : EqDecision TextEntityKind.
Proof. solve_decision. Defined.
#[export] Instance TextEntity_eq_dec : EqDecision TextEntity.
Proof. solve_decision. Defined.
#[export] Instance FormattedText_eq_dec : EqDecision FormattedText.
Proof. solve_decision. Defined.
#[export] Instance MediaRef_eq_dec : EqDecision MediaRef.
Proof. solve_decision. Defined.
#[export] Instance PollOption_eq_dec : EqDecision PollOption.
Proof. solve_decision. Defined.
#[export] Instance EncryptedSecretMessage_eq_dec : EqDecision EncryptedSecretMessage.
Proof. solve_decision. Defined.
#[export] Instance MessageContent_eq_dec : EqDecision MessageContent.
Proof. solve_decision. Defined.

Definition f64_magnitude (bits : Z) : Z := Z.land bits (2 ^ 63 - 1).
Definition f64_is_nan (bits : Z) : bool := 0x7ff0000000000000 <? f64_magnitude bits.
Definition f64_eq (a b : Z) : bool :=
  negb (f64_is_nan a) && negb (f64_is_nan b)
  && ((a =? b) || ((f64_magnitude a =? 0) && (f64_magnitude b =? 0))).

Definition content_eq (a b : MessageContent) : bool :=
  match a, b with
  | ContentLocation x y live, ContentLocation x' y' live' => f64_eq x x' && f64_eq y y' && eqb live live'
  | ContentVenue x y title address, ContentVenue x' y' title' address' =>
      f64_eq x x' && f64_eq y y' && eqb title title' && eqb address address'
  | _, _ => eqb a b
  end.

(** ** Authorisation *)

Section authorization.
Variable st : MessagingState.

Definition denied {A : Type} (reason : string) : service_result A := Err (UnauthorizedCommand reason).
Definition deny_if (bad : bool) (reason : string) : service_result unit := reject_if bad (UnauthorizedCommand reason).
Definition require {A : Type} (o : option A) (reason : string) : service_result A :=
  ok_or o (UnauthorizedCommand reason).

Definition find_participant (c : Conversation) (id : ActorId) : option Participant :=
  snd <$> list_find (fun p => participant_actor_id p = id) (conv_participants c).

Definition role_in (roles : list ParticipantRole) (p : Participant) : bool := bool_decide (participant_role p ∈ roles).

(** The management of a conversation a community stands behind. *)
Definition authorize_community_management (community : CommunityState) (actor_id : ActorId)
    (command : ClientCommand) : service_result unit :=
  caller ← require (cs_members community !! actor_id) "community management requires membership";
  let caller_is_owner := has_status [StOwner] caller in
  deny_if (negb (caller_is_owner || (has_status [StAdministrator] caller && ar_add_admins (cm_admin_rights caller))))
    "community management requires admin rights" ;;
  match command with
  | CC_SetConversationParticipant _ participant =>
      let target := cs_members community !! participant_actor_id participant in
      deny_if (is_some_and target (has_status [StOwner]) || bool_decide (participant_role participant = RoleOwner))
        "community owner cannot be changed" ;;
      deny_if (negb caller_is_owner && is_some_and target (has_status [StAdministrator]))
        "admins cannot manage other administrators"
  | CC_RemoveConversationParticipant _ target_actor_id =>
      deny_if (is_some_and (cs_members community !! target_actor_id) (has_status [StOwner; StAdministrator])
               && negb caller_is_owner) "admins cannot remove owner/admin members"
  | _ => Ok tt
  end.

(** The management of any other conversation. *)
Definition authorize_management (conversation_id : ConversationId) (actor_id : ActorId)
    (command : ClientCommand) : service_result unit :=
  existing ← require (st_conversations st !! conversation_id) "conversation management target does not exist";
  caller ← require (find_participant existing actor_id) "conversation management requires membership";
  deny_if (negb (role_in [RoleOwner; RoleAdmin] caller)) "conversation management requires owner/admin role" ;;
  match command with
  | CC_SetConversationParticipant _ participant =>
      let existing_target := find_participant existing (participant_actor_id participant) in
      deny_if (role_in [RoleOwner] participant
               && negb (eqb (conv_owner_id existing) (Some (participant_actor_id participant))))
        "conversation owner cannot be reassigned through participant management" ;;
      deny_if (role_in [RoleAdmin] caller
               && (role_in [RoleOwner; RoleAdmin] participant
                   || is_some_and existing_target (role_in [RoleOwner; RoleAdmin])))
        "admins cannot manage owner/admin roles"
  | CC_RemoveConversationParticipant _ target_actor_id =>
      deny_if (eqb (conv_owner_id existing) (Some target_actor_id)) "conversation owner cannot be removed" ;;
      deny_if (role_in [RoleAdmin] caller
               && is_some_and (find_participant existing target_actor_id) (role_in [RoleOwner; RoleAdmin]))
        "admins cannot remove owner/admin participants"
  | _ => Ok tt
  end.

Definition authorize_conversation_management (conversation_id : ConversationId) (actor_id : ActorId)
    (command : ClientCommand) : service_result unit :=
  match st_communities st !! conversation_id with
  | Some community => authorize_community_management community actor_id command
  | None => authorize_management conversation_id actor_id command
  end.

Definition authorize_conversation_update (c : Conversation) (actor_id : ActorId) : service_result unit :=
  match st_communities st !! conv_id c with
  | Some community =>
      m ← require (cs_members community !! actor_id) "community update requires membership";
      deny_if (negb (has_status [StOwner] m)
               && negb (has_status [StAdministrator] m && ar_change_info (cm_admin_rights m)))
        "community update requires change_info permission"
  | None =>
      existing ← require (st_conversations st !! conv_id c) "conversation update target does not exist";
      caller ← require (find_participant existing actor_id) "conversation update requires membership";
      deny_if (negb (role_in [RoleOwner; RoleAdmin] caller)) "conversation update requires owner/admin role"
  end.

Definition authorize_conversation_state (conversation_id : ConversationId) (actor_id : ActorId) : service_result unit :=
  existing ← require (st_conversations st !! conversation_id) "conversation state target does not exist";
  deny_if (negb (is_participant existing actor_id || is_conversation_owner existing actor_id
                 || is_some_and (st_communities st !! conversation_id) (fun c => is_subscriber c actor_id)))
    "conversation state update requires membership".

Definition validate_command_authorization (caller_id : ActorId) (command : ClientCommand) : service_result unit :=
  match command with
  | CC_UpsertProfile actor =>
      deny_if (negb (eqb (actor_id actor) caller_id)) "profile actor id does not match authenticated actor"
  | CC_CreateConversation c =>
      deny_if (negb (is_participant c caller_id)
               || is_some_and (conv_owner_id c) (fun owner => negb (eqb owner caller_id)))
        "conversation creator must be an owner/participant"
  | CC_SetMarkedUnread id _ | CC_SetDraft id _ _ => authorize_conversation_state id caller_id
  | CC_MarkTopicRead id _ _ | CC_SetTopicDraft id _ _ _ | CC_ListCommunityMembers id _ _
  | CC_ListCommunityAuditLog id _ _ =>
      require (authorized_community st caller_id id)
        "community operation requires membership or channel subscription" ;; Ok tt
  | CC_UpdateConversationInfo id _ _ | CC_SetConversationMessageRetention id _ _
  | CC_SetConversationParticipant id _ | CC_RemoveConversationParticipant id _ =>
      authorize_conversation_management id caller_id command
  | CC_UpdateConversation c => authorize_conversation_update c caller_id
  | CC_CreateInvoice invoice =>
      deny_if (negb (eqb (inv_seller_id invoice) caller_id)) "invoice seller id does not match authenticated actor"
  | CC_GrantMiniApp grant =>
      deny_if (negb (eqb (grant_actor_id grant) caller_id)) "Mini App grant actor does not match authenticated actor"
  | CC_OpenMiniApp session =>
      deny_if (negb (eqb (session_actor_id session) caller_id)) "Mini App session actor does not match authenticated actor"
  | _ => Ok tt
  end.
End authorization.

(** ** Translation to engine commands *)

Section translation.
Context `{SVC : ServiceCrypto}.
Variable st : MessagingState.

Definition stable_message_id (actor_id : ActorId) (client_message_id : ClientMessageId) : MessageId :=
  MkMessageId ("msg:" +:+ encode_hex (svc_sha256
    (bytes_of (actor_id_0 actor_id) ++ ["000"%char] ++ bytes_of (client_message_id_0 client_message_id)))).

Definition local_message_id (client_message_id : ClientMessageId) : MessageId :=
  MkMessageId ("local:" +:+ client_message_id_0 client_message_id).

Definition is_private_kind (c : Conversation) : bool := bool_decide (conv_kind c ∈ [Direct; Secret]).

(** Whether reading a message tells its sender so. *)
Definition should_mark_message_read (actor_id : ActorId) (conversation_id : ConversationId)
    (message_id : MessageId) : bool :=
  is_some_and (st_conversations st !! conversation_id) is_private_kind
  && is_some_and (find_message st conversation_id message_id) (fun m => negb (eqb (msg_sender_id m) actor_id)).

Definition project_command (actor_id : ActorId) (command : ClientCommand) (now_ms : Z) : list Command :=
  match command with
  | CC_Sync _ _ | CC_WalletStatus | CC_Search _ | CC_ListCommunityMembers _ _ _ | CC_ListCommunityAuditLog _ _ _
  | CC_StartTyping _ _ | CC_StopTyping _ | CC_BeginBlobUpload _ | CC_AppendBlobChunk _ _ _
  | CC_FinishBlobUpload _ | CC_DeleteBlob _ => []
  | CC_UpsertProfile actor => [UpsertActor actor]
  | CC_SetPresence presence => [SetPresence actor_id presence]
  | CC_CreateConversation c => [UpsertConversation c]
  | CC_UpdateConversation c =>
      if contains_key (conv_id c) (st_communities st)
      then [UpdateConversationInfo (conv_id c) (conv_title c) (conv_description c)]
      else [UpsertConversation c]
  | CC_UpdateConversationInfo id title description => [UpdateConversationInfo id title description]
  | CC_SetConversationParticipant id participant => [SetConversationParticipant id participant]
  | CC_RemoveConversationParticipant id target => [RemoveConversationParticipant id target]
  | CC_ArchiveConversation id archived => [ArchiveConversation id archived]
  | CC_PinConversation id pinned => [PinConversation id pinned]
  | CC_SetMarkedUnread id marked_unread => [SetMarkedUnread id actor_id marked_unread]
  | CC_SetDraft id text reply =>
      [SetDraft {| draft_conversation_id := id; draft_actor_id := actor_id; draft_text := text;
                   draft_reply_to_message_id := message_id_0 <$> reply; draft_updated_at_ms := now_ms |}]
  | CC_SetConversationNotifications id settings => [SetConversationNotifications id settings]
  | CC_SetConversationMessageRetention id seconds expected => [SetConversationMessageRetention id seconds expected]
  | CC_UpsertFolder folder => [UpsertFolder folder]
  | CC_DeleteFolder id => [DeleteFolder id]
  | CC_SendMessage id client_id content reply thread scheduled silent protected =>
      let message_id := stable_message_id actor_id client_id in
      [QueueMessage id message_id client_id actor_id content reply thread now_ms scheduled silent protected;
       AcknowledgeMessage id message_id message_id now_ms]
  | CC_ForwardMessage source message_id destination client_id =>
      [ForwardMessage source message_id destination (local_message_id client_id) client_id actor_id now_ms]
  | CC_EditMessage id message_id content => [EditMessage id message_id content now_ms]
  | CC_DeleteMessages id message_ids _ => [DeleteMessages id message_ids]
  | CC_MarkRead id message_id =>
      MarkRead id actor_id message_id
      :: (if should_mark_message_read actor_id id message_id then [SetDeliveryState id message_id Read] else [])
  | CC_MarkTopicRead id topic message_id => [MarkTopicRead id topic actor_id message_id]
  | CC_SetTopicDraft id topic text reply =>
      [SetTopicDraft {| tdraft_conversation_id := id; tdraft_topic_id := topic; tdraft_actor_id := actor_id;
                        tdraft_text := text; tdraft_reply_to_message_id := message_id_0 <$> reply;
                        tdraft_updated_at_ms := now_ms |}]
  | CC_SetReaction id message_id reaction => [SetReaction id message_id reaction]
  | CC_PinMessage id message_id pinned => [PinMessage id message_id pinned]
  | CC_VotePoll id message_id option_ids => [VotePoll id message_id actor_id option_ids]
  | CC_CreateInvoice invoice => [CreateInvoice invoice]
  | CC_CheckoutInvoice invoice_id order_id customer => [CheckoutInvoice invoice_id order_id actor_id customer now_ms]
  | CC_RefundOrder order_id request_id => [RefundOrder order_id actor_id request_id now_ms]
  | CC_PublishStory story => [PublishStory actor_id story]
  | CC_DeleteStory id => [DeleteStory actor_id id]
  | CC_ViewStory id => [ViewStory actor_id id now_ms]
  | CC_ReactStory id reaction => [ReactStory actor_id id reaction]
  | CC_UpdateCommunity community => [UpdateCommunity actor_id community]
  | CC_SubscribeChannel id => [SubscribeChannel actor_id id now_ms]
  | CC_UnsubscribeChannel id => [UnsubscribeChannel actor_id id now_ms]
  | CC_SetCommunitySlowMode id seconds => [SetCommunitySlowMode actor_id id seconds now_ms]
  | CC_ModerateCommunityMember id member reason => [ModerateCommunityMember actor_id id member reason now_ms]
  | CC_SetCommunityMember id member => [SetCommunityMember actor_id id member]
  | CC_CreateInviteLink invite => [CreateInviteLink actor_id invite]
  | CC_RevokeInviteLink id invite_id => [RevokeInviteLink actor_id id invite_id now_ms]
  | CC_RequestCommunityJoin request => [RequestCommunityJoin actor_id request]
  | CC_RespondCommunityJoin id requester_id approved => [RespondCommunityJoin actor_id id requester_id approved now_ms]
  | CC_UpsertForumTopic topic => [UpsertForumTopic actor_id topic]
  | CC_DeleteForumTopic id topic => [DeleteForumTopic actor_id id topic]
  | CC_RegisterBot profile => [RegisterBot actor_id profile]
  | CC_InvokeBot invocation => [BeginBotInvocation actor_id invocation now_ms]
  | CC_FinishBotExecution id success error => [FinishBotExecution actor_id id success now_ms error]
  | CC_InstallMiniApp manifest => [InstallMiniApp manifest]
  | CC_GrantMiniApp grant => [GrantMiniApp grant]
  | CC_OpenMiniApp session => [OpenMiniApp session]
  | CC_MiniAppCall session_id request_id request => [MiniAppCall session_id request_id request]
  end.

(** ** Replays *)

(** The message a send would repeat. *)
Definition existing_send (actor_id : ActorId) (conversation_id : ConversationId)
    (client_message_id : ClientMessageId) : option Message :=
  messages ← st_messages st !! conversation_id;
  match messages !! stable_message_id actor_id client_message_id with
  | Some m => Some m
  | None => messages !! local_message_id client_message_id
  end.

(** [idempotent_send_replay]; the answer to a repeated send, if it is one. *)
Definition idempotent_send_replay (cursor : Z) (actor_id : ActorId) (command : ClientCommand)
    (server_time_ms : Z) : service_result (option (list ServerEnvelope)) :=
  match command with
  | CC_SendMessage id client_id content reply thread scheduled silent protected =>
      match existing_send actor_id id client_id with
      | None => Ok None
      | Some existing =>
          if msg_deleted existing && is_expired existing server_time_ms then
            Ok (Some [envelope_at cursor server_time_ms (SE_MessagesDeleted id [msg_id existing])])
          else if negb (eqb (msg_sender_id existing) actor_id) || negb (content_eq (msg_content existing) content)
                  || negb (eqb (msg_reply_to_message_id existing) reply)
                  || negb (eqb (msg_thread_root_message_id existing) thread)
                  || negb (eqb (msg_scheduled_at_ms existing) scheduled)
                  || negb (eqb (msg_silent existing) silent)
                  || negb (eqb (msg_protected_content existing) protected) then
            Err (IdempotencyConflict (client_message_id_0 client_id))
          else Ok (Some [envelope_at cursor server_time_ms (SE_MessageChanged existing)])
      end
  | _ => Ok None
  end.

(** ** Invocations of bots *)

(** White space begins here. *)
Definition white_here (l : list ascii) : bool :=
  match l with
  | [] => false
  | a :: l1 =>
      white1 a || match l1 with
                  | [] => false
                  | b :: l2 => white2 a b || match l2 with [] => false | c :: _ => white3 a b c end
                  end
  end.

Fixpoint take_word (l : list ascii) : list ascii :=
  match l with
  | [] => []
  | a :: rest => if white_here l then [] else a :: take_word rest
  end.

(** [value.split_whitespace().next()] *)
Definition first_word (s : string) : option string :=
  match take_word (trim_start_bytes (bytes_of s)) with
  | [] => None
  | word => Some (string_of word)
  end.

Definition bot_command_of (text : string) : option string :=
  rest ← strip_prefix "/" (trim text);
  word ← first_word rest;
  let command := trim_start_matches "@" word in
  if is_empty command then None else Some command.

Definition kept_char (c : list ascii) : bool :=
  match c with
  | [a] => is_ascii_alphanumeric a || eqb a "-"%char || eqb a "_"%char || eqb a ":"%char
  | _ => false
  end.

Definition sanitize_invocation_component (value : string) : string :=
  string_of (concat (take 160 ((fun c => if kept_char c then c else ["_"%char]) <$> chars value))).

Definition is_robot (kind : ActorKind) : bool := bool_decide (kind ∈ [Bot; Assistant; Service]).

(** The invocation a text message makes of one participant. *)
Definition invocation_of (m : Message) (text : FormattedText) (participant : Participant) : option BotInvocation :=
  if bool_decide (participant_actor_id participant = msg_sender_id m) then None
  else
    actor ← st_actors st !! participant_actor_id participant;
    if negb (bool_decide (actor_kind actor ∈ [Bot; Assistant])) then None
    else Some {|
      binv_id := "invoke:auto:" +:+ sanitize_invocation_component (message_id_0 (msg_id m)) +:+ ":"
                 +:+ sanitize_invocation_component (actor_id_0 (actor_id actor));
      binv_bot_id := actor_id actor;
      binv_sender_id := msg_sender_id m;
      binv_conversation_id := msg_conversation_id m;
      binv_command := bot_command_of (ft_text text);
      binv_text := text;
      binv_reply_to_message_id := message_id_0 <$> msg_reply_to_message_id m;
      binv_metadata := {[ "source" := "messaging-service"; "messageId" := message_id_0 (msg_id m) ]};
      binv_created_at_ms := msg_created_at_ms m |}.

Definition bot_invocations_for_message (m : Message) : list BotInvocation :=
  match st_actors st !! msg_sender_id m, msg_content m, st_conversations st !! msg_conversation_id m with
  | Some sender, ContentText text, Some c =>
      if is_robot (actor_kind sender) then [] else omap (invocation_of m text) (conv_participants c)
  | _, _, _ => []
  end.
End translation.
