(* ===== verification/MessagingService.v ===== *)
(** * The messaging service ([service.rs]): the engine, its store, the journal *)

From S2P Require Import Prelude Text Maps Conversation Message Payment Wallet Apps Community EngineTypes EngineCore Engine StateError Settlement Search BlobStore Protocol Store ServiceView ServiceJournal ServiceCommand.

Definition TYPING_TTL_MS : Z := 5000.

#[export] Instance ClientMessageId_eq_dec : EqDecision ClientMessageId.
Proof. solve_decision. Defined.
#[export] Instance DeliveryState_eq_dec : EqDecision DeliveryState.
Proof. solve_decision. Defined.

Record MessagingService (S : Type) := {
  svc_engine : MessagingState;
  svc_store : S;
  svc_blob_store : option FileBlobStore;
  svc_cursor : Z;
}.
Arguments svc_engine {S} _.
Arguments svc_store {S} _.
Arguments svc_blob_store {S} _.
Arguments svc_cursor {S} _.
Arguments Build_MessagingService {S} _ _ _ _.
#[export] Instance eta_MessagingService (S : Type) : Eta (MessagingService S) := fun s =>
  Build_MessagingService (svc_engine s) (svc_store s) (svc_blob_store s) (svc_cursor s).

Section service.
Context {S : Type} `{MSS : MessagingStateStore S}.
Context `{U : UnicodeCase, D : StrDebug, UT : UnicodeText, BC : BlobCodec, SVC : ServiceCrypto, HMAC : SettlementCrypto}.

Notation svc A := (StateM (MessagingService S) MessagingServiceError A).

(** [MessagingService::load] *)
Definition service_load (store : S) : service_result (MessagingService S) :=
  snapshot ← map_err ServiceStore (store_load store);
  Ok match snapshot with
     | Some snapshot => {| svc_engine := snap_state snapshot; svc_store := store; svc_blob_store := None;
                           svc_cursor := snap_cursor snapshot |}
     | None => {| svc_engine := empty_state; svc_store := store; svc_blob_store := None; svc_cursor := 0 |}
     end.

Definition load_with_blob_store (store : S) (blob_store : FileBlobStore) : service_result (MessagingService S) :=
  service ← service_load store; Ok (service ⟪ svc_blob_store := Some blob_store ⟫).

(** ** Steps *)

(** [self.engine.execute(command)?] *)
Definition engine_execute (command : Command) : svc (list Event) := fun s =>
  let (st, r) := execute (svc_engine s) command in
  (s ⟪ svc_engine := st ⟫, map_err ServiceEngine r).

(** [self.cursor = self.cursor.saturating_add(n)] *)
Definition advance_cursor (n : Z) : svc unit :=
  modify (fun s => s ⟪ svc_cursor := saturating_add_u64 (svc_cursor s) n ⟫).

Definition persist_with_events (now_ms : Z) (events : list JournalEntry) : svc unit := fun s =>
  let snapshot := snapshot_new (svc_engine s) (svc_cursor s) now_ms in
  let (store, r) := store_save_with_events (svc_store s) snapshot events in
  (s ⟪ svc_store := store ⟫, map_err ServiceStore r).

Definition persist (now_ms : Z) : svc unit := fun s =>
  let snapshot := snapshot_new (svc_engine s) (svc_cursor s) now_ms in
  let (store, r) := store_save (svc_store s) snapshot in
  (s ⟪ svc_store := store ⟫, map_err ServiceStore r).

(** Journal the responses and persist, with the state as it now is. *)
Definition record_responses (initiator : ActorId) (responses : list ServerEnvelope) (server_time_ms : Z) :
    svc unit :=
  s ← get_state;
  persist_with_events server_time_ms (journal_entries (svc_engine s) initiator responses).

(** [events.into_iter().filter_map(|event| self.project_event(...))] *)
Definition project_events (actor_id : ActorId) (events : list Event) (server_time_ms : Z) :
    svc (list ServerEnvelope) :=
  s ← get_state;
  mret (omap (fun event => project_event (svc_engine s) (svc_cursor s) actor_id event server_time_ms) events).

(** ** Expired messages *)

Definition is_settleable (server_time_ms : Z) (m : Message) : bool :=
  negb (msg_deleted m) && is_expired m server_time_ms.

Definition expired_messages (st : MessagingState) (server_time_ms : Z) : list (ConversationId * list MessageId) :=
  omap (fun p : ConversationId * gmap MessageId Message =>
      let ids := msg_id <$> filter (fun m => is_settleable server_time_ms m = true) (btree_values p.2) in
      if bool_decide (ids = []) then None else Some (p.1, ids))
    (btree_items (st_messages st)).

Definition settle_expired_messages (initiator : ActorId) (server_time_ms : Z) : svc unit :=
  s ← get_state;
  let expired := expired_messages (svc_engine s) server_time_ms in
  if bool_decide (expired = []) then mret tt
  else
    events ← collect_each (fun p => engine_execute (DeleteMessages p.1 p.2)) expired;
    advance_cursor (Z.of_nat (length events)) ;;
    responses ← project_events initiator events server_time_ms;
    record_responses initiator responses server_time_ms.

(** ** Delivery *)

Definition is_undelivered (actor_id : ActorId) (m : Message) : bool :=
  negb (eqb (msg_sender_id m) actor_id) && bool_decide (msg_delivery_state m = Sent).

Definition pending_deliveries (st : MessagingState) (actor_id : ActorId) : list (ConversationId * MessageId) :=
  flat_map (fun c =>
      (fun m => (conv_id c, msg_id m)) <$> filter (fun m => is_undelivered actor_id m = true)
        (btree_values (default ∅ (st_messages st !! conv_id c))))
    (filter (fun c => is_private_kind c && is_participant c actor_id = true) (btree_values (st_conversations st))).

Definition mark_direct_messages_delivered (actor_id : ActorId) (server_time_ms : Z) : svc unit :=
  s ← get_state;
  let pending := pending_deliveries (svc_engine s) actor_id in
  if bool_decide (pending = []) then mret tt
  else
    events ← collect_each (fun p => engine_execute (SetDeliveryState p.1 p.2 Delivered)) pending;
    advance_cursor (Z.of_nat (length events)) ;;
    responses ← project_events actor_id events server_time_ms;
    record_responses actor_id responses server_time_ms.

(** ** Synchronisation *)

Definition sync_response (s : MessagingService S) (actor_id : ActorId) (cursor : option string)
    (limit server_time_ms : Z) : service_result (list ServerEnvelope) :=
  let snapshot := [sync_envelope (svc_engine s) (svc_cursor s) actor_id limit server_time_ms] in
  match cursor ≫= parse_u64 with
  | None => Ok snapshot
  | Some requested =>
      if svc_cursor s <? requested then Ok snapshot
      else
        slice ← map_err ServiceStore (store_load_event_journal_after (svc_store s) requested (Z.max 1 limit));
        match slice with
        | None => Ok snapshot
        | Some slice =>
            if (requested <? sl_floor_cursor slice)
               || (bool_decide (sl_entries slice = []) && (requested <? sl_current_cursor slice))
            then Ok snapshot
            else Ok (deliver_entries (svc_engine s) actor_id server_time_ms (sl_entries slice)
                     ++ [sync_checkpoint_envelope (sl_checkpoint_cursor slice) server_time_ms])%list
        end
  end.

(** ** Single events *)

Definition single_service_event (actor_id : ActorId) (event : ServerEvent) (server_time_ms : Z) :
    svc (list ServerEnvelope) :=
  advance_cursor 1 ;;
  s ← get_state;
  let response := envelope_at (svc_cursor s) server_time_ms event in
  record_responses actor_id [response] server_time_ms ;;
  mret [response].

Definition typing_event (actor_id : ActorId) (conversation_id : ConversationId) (action : option string)
    (expires_at_ms : option Z) (server_time_ms : Z) : svc (list ServerEnvelope) :=
  s ← get_state;
  match st_conversations (svc_engine s) !! conversation_id with
  | None => fail (UnauthorizedCommand "typing conversation does not exist")
  | Some c =>
      if negb (is_participant c actor_id) then fail (UnauthorizedCommand "typing requires conversation membership")
      else single_service_event actor_id (SE_TypingChanged conversation_id actor_id action expires_at_ms)
             server_time_ms
  end.

(** ** Communities *)

Definition denied_community : MessagingServiceError :=
  UnauthorizedCommand "community operation requires membership or channel subscription".

Definition community_members_page (s : MessagingService S) (actor_id : ActorId) (conversation_id : ConversationId)
    (cursor : option string) (limit server_time_ms : Z) : service_result ServerEnvelope :=
  community ← ok_or (authorized_community (svc_engine s) actor_id conversation_id) denied_community;
  let (members, next_cursor) := member_page community cursor limit in
  Ok (envelope_at (svc_cursor s) server_time_ms (SE_CommunityMembersPage conversation_id members next_cursor)).

Definition community_audit_page (s : MessagingService S) (actor_id : ActorId) (conversation_id : ConversationId)
    (cursor : option string) (limit server_time_ms : Z) : service_result ServerEnvelope :=
  community ← ok_or (authorized_community (svc_engine s) actor_id conversation_id) denied_community;
  deny_if (negb (member_is community actor_id (has_status [StOwner; StAdministrator])))
    "community audit log requires owner/admin access" ;;
  let (entries, next_cursor) := audit_page community cursor limit in
  Ok (envelope_at (svc_cursor s) server_time_ms (SE_CommunityAuditLogPage conversation_id entries next_cursor)).

(** ** Blobs *)

(** [self.blob_store()?.operation(...)?] *)
Definition blob_call {A : Type} (f : FileBlobStore -> FileBlobStore * result BlobStoreError A) : svc A := fun s =>
  match svc_blob_store s with
  | None => (s, Err BlobStoreUnavailable)
  | Some blobs => let (blobs', r) := f blobs in (s ⟪ svc_blob_store := Some blobs' ⟫, map_err ServiceBlob r)
  end.

(** ** Commands of the engine *)

Definition queued_messages (events : list Event) : list Message :=
  omap (fun event => match event with MessageQueued m => Some m | _ => None end) events.

Definition execute_commands (actor_id : ActorId) (command : ClientCommand) (server_time_ms : Z) :
    svc (list ServerEnvelope) :=
  s ← get_state;
  replay ← try_with (fun s => idempotent_send_replay (svc_engine s) (svc_cursor s) actor_id command server_time_ms);
  match replay with
  | Some replay => mret replay
  | None =>
      events ← collect_each engine_execute (project_command (svc_engine s) actor_id command server_time_ms);
      if bool_decide (events = []) then mret []
      else
        s1 ← get_state;
        let invocations := flat_map (bot_invocations_for_message (svc_engine s1)) (queued_messages events) in
        advance_cursor (Z.of_nat (length events)) ;;
        projected ← project_events actor_id events server_time_ms;
        s2 ← get_state;
        let responses := (projected ++ ((fun invocation =>
          envelope_at (svc_cursor s2) server_time_ms (SE_BotInvocationRequested invocation)) <$> invocations))%list in
        record_responses actor_id responses server_time_ms ;;
        mret responses
  end.

(** The match of [handle]. *)
Definition handle_command (actor_id : ActorId) (command : ClientCommand) (server_time_ms : Z) :
    svc (list ServerEnvelope) :=
  match command with
  | CC_BeginBlobUpload metadata =>
      status ← blob_call (fun b => begin_upload b metadata);
      single_service_event actor_id (SE_BlobUploadChanged status) server_time_ms
  | CC_AppendBlobChunk blob_id offset data_base64 =>
      bytes ← try_with (fun _ => map_err InvalidBlobBase64 (svc_base64_decode data_base64));
      status ← blob_call (fun b => append_chunk b blob_id offset bytes);
      single_service_event actor_id (SE_BlobUploadChanged status) server_time_ms
  | CC_FinishBlobUpload blob_id =>
      metadata ← blob_call (fun b => finish_upload b blob_id);
      single_service_event actor_id (SE_BlobReady metadata) server_time_ms
  | CC_DeleteBlob blob_id =>
      blob_call (fun b => delete_blob b blob_id) ;;
      single_service_event actor_id (SE_BlobDeleted blob_id) server_time_ms
  | CC_WalletStatus =>
      s ← get_state; mret [wallet_status_envelope (svc_engine s) (svc_cursor s) actor_id server_time_ms]
  | CC_Sync cursor limit =>
      mark_direct_messages_delivered actor_id server_time_ms ;;
      try_with (fun s => sync_response s actor_id cursor limit server_time_ms)
  | CC_Search query =>
      s ← get_state; mret [search_envelope (svc_engine s) (svc_cursor s) actor_id query server_time_ms]
  | CC_ListCommunityMembers conversation_id cursor limit =>
      page ← try_with (fun s => community_members_page s actor_id conversation_id cursor limit server_time_ms);
      mret [page]
  | CC_ListCommunityAuditLog conversation_id cursor limit =>
      page ← try_with (fun s => community_audit_page s actor_id conversation_id cursor limit server_time_ms);
      mret [page]
  | CC_StartTyping conversation_id action =>
      typing_event actor_id conversation_id (Some action)
        (Some (saturating_add_i64 server_time_ms TYPING_TTL_MS)) server_time_ms
  | CC_StopTyping conversation_id =>
      typing_event actor_id conversation_id None
        (Some (saturating_add_i64 server_time_ms TYPING_TTL_MS)) server_time_ms
  | command => execute_commands actor_id command server_time_ms
  end.

(** [MessagingService::handle] *)
Definition handle (envelope : ClientEnvelope) (server_time_ms : Z) : svc (list ServerEnvelope) :=
  if negb (ce_protocol_version envelope =? FABUSHI_MESSAGING_PROTOCOL_VERSION) then
    fail (ProtocolVersion FABUSHI_MESSAGING_PROTOCOL_VERSION (ce_protocol_version envelope))
  else
    let actor_id := ctx_actor_id (ce_context envelope) in
    let command := ce_command envelope in
    try_with (fun s => validate_command_authorization (svc_engine s) actor_id command) ;;
    settle_expired_messages actor_id server_time_ms ;;
    handle_command actor_id command server_time_ms.

(** ** Settlements *)

Definition ledger_entry_of (events : list Event) : option LedgerEntry :=
  head (omap (fun event => match event with WalletChanged _ entry => Some entry | _ => None end) events).

Definition credit_wallet_from_settlement (request_id : string) (owner_id : ActorId) (amount : Money)
    (reference : option string) (server_time_ms : Z) : svc LedgerEntry :=
  events ← engine_execute (CreditWalletSettlement request_id owner_id amount reference server_time_ms);
  entry ← try_with (fun _ => ok_or (ledger_entry_of events)
    (Invariant "wallet settlement produced no ledger entry"));
  advance_cursor (Z.of_nat (length events)) ;;
  persist server_time_ms ;;
  mret entry.

Definition apply_signed_settlement (verifier : SettlementVerifier) (signed : SignedSettlement)
    (server_time_ms : Z) : svc LedgerEntry :=
  event ← try_with (fun _ => map_err ServiceSettlement (verify verifier signed server_time_ms));
  credit_wallet_from_settlement (idempotency_key event) (se_actor_id event) (se_amount event)
    (Some (se_provider_reference event)) server_time_ms.
End service.
