(* ===== verification/ServicePersistence.v ===== *)
(** * What the service acknowledges is in its store

    A service is synced when its store holds its state, its cursor and a
    well-formed journal.  Every request that is answered keeps it so; one that
    the store refused leaves the store behind the service, as it was. *)

From S2P Require Import Prelude Text Maps Conversation Message Payment Wallet Apps Community EngineTypes EngineCore Engine StateError Settlement Search BlobStore Protocol Store ServiceView ServiceJournal ServiceCommand MessagingService.

(** ** The cursor never goes back *)

Section cursor.
Context {S : Type} `{MSS : MessagingStateStore S}.
Context `{U : UnicodeCase, D : StrDebug, UT : UnicodeText, BC : BlobCodec, SVC : ServiceCrypto, HMAC : SettlementCrypto}.

Definition cursor_grows (s s' : MessagingService S) : Prop :=
  0 <= svc_cursor s <= u64_max -> svc_cursor s <= svc_cursor s' <= u64_max.

#[export] Instance cursor_grows_refl : Reflexive cursor_grows.
Proof. intros s H. lia. Qed.
#[export] Instance cursor_grows_trans : Transitive cursor_grows.
Proof. intros a b c Hab Hbc Ha. specialize (Hab Ha). specialize (Hbc ltac:(lia)). lia. Qed.

Definition grows {A : Type} (m : StateM (MessagingService S) MessagingServiceError A) : Prop :=
  forall s, cursor_grows s (fst (m s)).

Lemma grows_same {A : Type} (m : StateM (MessagingService S) MessagingServiceError A) :
  (forall s, svc_cursor (fst (m s)) = svc_cursor s) -> grows m.
Proof. intros H s Hs. rewrite H. lia. Qed.

Lemma grows_bind {A B : Type} (m : StateM (MessagingService S) MessagingServiceError A) f :
  grows m -> (forall a, grows (f a)) -> grows (m ≫= f : StateM (MessagingService S) MessagingServiceError B).
Proof.
  intros Hm Hf s. unfold mbind, state_bind. specialize (Hm s). destruct (m s) as [s1 [a|e]]; [|done].
  simpl in Hm. transitivity s1; [done|]. apply Hf.
Qed.

Lemma grows_ret {A : Type} (a : A) : grows (mret a).
Proof. by apply grows_same. Qed.
Lemma grows_get : grows get_state.
Proof. by apply grows_same. Qed.
Lemma grows_try {A : Type} (f : MessagingService S -> service_result A) : grows (try_with f).
Proof. by apply grows_same. Qed.
Lemma grows_fail {A : Type} (e : MessagingServiceError) : grows (A := A) (fail e).
Proof. by apply grows_same. Qed.
Lemma grows_execute command : grows (engine_execute command).
Proof. apply grows_same. intros s. unfold engine_execute. by destruct (execute _ _). Qed.
Lemma grows_persist now : grows (persist now).
Proof. apply grows_same. intros s. unfold persist. by destruct (store_save _ _). Qed.
Lemma grows_persist_with_events now events : grows (persist_with_events now events).
Proof. apply grows_same. intros s. unfold persist_with_events. by destruct (store_save_with_events _ _ _). Qed.
Lemma grows_blob {A : Type} (f : FileBlobStore -> FileBlobStore * result BlobStoreError A) : grows (blob_call f).
Proof. apply grows_same. intros s. unfold blob_call. destruct (svc_blob_store s); [|done]. by destruct (f _). Qed.
Lemma grows_advance n : 0 <= n -> grows (advance_cursor n).
Proof.
  intros Hn s Hs. unfold advance_cursor, modify. simpl. fields. unfold saturating_add_u64, clamp. lia.
Qed.

Lemma grows_loop {A : Type} (f : A -> Command) (l : list A) :
  grows (collect_each (fun x => engine_execute (f x)) l).
Proof. intros s. apply (collect_each_rel cursor_grows). intros x t _. apply grows_execute. Qed.

Lemma grows_loop_commands (l : list Command) : grows (collect_each engine_execute l).
Proof. intros s. apply (collect_each_rel cursor_grows). intros x t _. apply grows_execute. Qed.
End cursor.

Create HintDb grows.
#[export] Hint Resolve grows_ret grows_get grows_try grows_fail grows_execute grows_persist
  grows_persist_with_events grows_blob grows_advance grows_loop grows_loop_commands : grows.
#[export] Hint Extern 1 (0 <= _) => lia : grows.

Ltac prove_grows :=
  repeat first [ progress (eauto 2 with grows nocore) | apply grows_bind; [|intros ?] | case_match ].

Section requests.
Context {S : Type} `{MSS : MessagingStateStore S}.
Context `{U : UnicodeCase, D : StrDebug, UT : UnicodeText, BC : BlobCodec, SVC : ServiceCrypto, HMAC : SettlementCrypto}.

Lemma grows_record initiator responses now : grows (S := S) (record_responses initiator responses now).
Proof. unfold record_responses. prove_grows. Qed.
Lemma grows_project actor events now : grows (S := S) (project_events actor events now).
Proof. unfold project_events. prove_grows. Qed.
#[local] Hint Resolve grows_record grows_project : grows.

Lemma grows_settle initiator now : grows (S := S) (settle_expired_messages initiator now).
Proof. unfold settle_expired_messages. prove_grows. Qed.
Lemma grows_deliver actor now : grows (S := S) (mark_direct_messages_delivered actor now).
Proof. unfold mark_direct_messages_delivered. prove_grows. Qed.
Lemma grows_single actor event now : grows (S := S) (single_service_event actor event now).
Proof. unfold single_service_event. prove_grows. Qed.
#[local] Hint Resolve grows_single : grows.
Lemma grows_typing actor id action expires now : grows (S := S) (typing_event actor id action expires now).
Proof. unfold typing_event. prove_grows. Qed.
Lemma grows_commands actor command now : grows (S := S) (execute_commands actor command now).
Proof. unfold execute_commands. prove_grows. Qed.
#[local] Hint Resolve grows_settle grows_deliver grows_typing grows_commands : grows.

Lemma grows_command actor command now : grows (S := S) (handle_command actor command now).
Proof. unfold handle_command. destruct command; prove_grows. Qed.
#[local] Hint Resolve grows_command : grows.

Lemma grows_handle envelope now : grows (S := S) (handle envelope now).
Proof. unfold handle. prove_grows. Qed.
End requests.

Section persistence.
Context {S : Type} `{MSS : MessagingStateStore S, RM : !RefinesMemory S}.
Context `{U : UnicodeCase, D : StrDebug, UT : UnicodeText, BC : BlobCodec, SVC : ServiceCrypto, HMAC : SettlementCrypto}.

(** What is true of every entry the service writes. *)
Variable Q : JournalEntry -> Prop.
Hypothesis written : forall st initiator responses, Forall Q (journal_entries st initiator responses).

Record synced (s : MessagingService S) (m : MemoryStateStore) : Prop := {
  sy_store : stands_for (svc_store s) m;
  sy_wf : store_wf m;
  sy_cursor : svc_cursor s = mem_current m;
  sy_state : match mem_snapshot m with
             | Some snapshot => snap_state snapshot = svc_engine s
             | None => svc_engine s = empty_state
             end;
  sy_journal : Forall Q (mem_journal m);
}.

(** The store holds a well-formed journal and no later cursor than the service's. *)
Record trails (s : MessagingService S) (m : MemoryStateStore) : Prop := {
  tr_store : stands_for (svc_store s) m;
  tr_wf : store_wf m;
  tr_cursor : mem_current m <= svc_cursor s;
  tr_journal : Forall Q (mem_journal m);
}.

Lemma synced_trails s m : synced s m -> trails s m.
Proof. intros [H1 H2 H3 _ H5]. split; [done|done|lia|done]. Qed.

(** The error of a save that the store refused. *)
Definition refusal_error (e : MessagingServiceError) : Prop :=
  exists snapshot events x, refuses (S := S) snapshot events = Some x /\ e = ServiceStore x.

(** ** Cursors *)

Lemma saturating_below c n : 0 <= c -> 0 <= n -> saturating_add_u64 c n < u64_max -> saturating_add_u64 c n = c + n.
Proof. unfold saturating_add_u64, clamp. lia. Qed.

Lemma journal_cursor_stamped st initiator responses c : 0 <= c <= u64_max ->
  Forall (fun r => env_cursor r = Some (display c)) responses ->
  Forall (fun e => journal_cursor e = Ok c) (journal_entries st initiator responses).
Proof.
  intros Hc Hr. unfold journal_entries. apply Forall_fmap, list.Forall_forall. intros r Hin.
  apply list_elem_of_filter in Hin as [_ Hin]. rewrite list.Forall_forall in Hr. specialize (Hr r Hin). simpl.
  unfold journal_cursor. simpl.
  assert (env_cursor (journal_envelope_of st r) = Some (display c)) as ->.
  { unfold journal_envelope_of, public_journal_envelope. destruct (env_event r) eqn:E; rewrite ?E; by fields. }
  simpl. unfold parse_u64. by rewrite parse_display.
Qed.

Lemma journal_entries_nil st initiator responses :
  journal_entries st initiator responses <> [] -> responses <> [].
Proof. by intros H ->. Qed.

(** ** Recording *)

Lemma entries_after_forall c j : Forall Q j -> Forall Q (entries_after c j).
Proof. apply forall_after. Qed.

(** The journal grew by some newer entries, and perhaps forgot its oldest. *)
Record extends (m m' : MemoryStateStore) (entries : list JournalEntry) : Prop := {
  ext_floor : mem_journal_floor_cursor m <= mem_journal_floor_cursor m';
  ext_journal : mem_journal m' = entries_after (mem_journal_floor_cursor m') (mem_journal m ++ entries);
  ext_current : mem_current m <= mem_current m';
  ext_newer : Forall (fun e => mem_current m < entry_cursor e) entries;
}.

Lemma extends_refl m : store_wf m -> extends m m [].
Proof.
  intros [_ _ Hb _]. split; [done| |done|constructor]. rewrite app_nil_r. symmetry. apply entries_after_all.
  eapply list.Forall_impl; [exact Hb|]. simpl. lia.
Qed.

Lemma entries_after_twice c c' j : c <= c' -> entries_after c' (entries_after c j) = entries_after c' j.
Proof.
  intros Hc. unfold entries_after. rewrite list_filter_filter. apply list_filter_iff. intros e. lia.
Qed.

Lemma extends_trans m1 m2 m3 l1 l2 : extends m1 m2 l1 -> extends m2 m3 l2 -> extends m1 m3 (l1 ++ l2).
Proof.
  intros [H1 J1 C1 N1] [H2 J2 C2 N2]. split; [lia| |lia|].
  - rewrite J2, J1, entries_after_app, entries_after_twice by done. by rewrite <- entries_after_app, <- app_assoc.
  - apply Forall_app. split; [done|]. eapply list.Forall_impl; [exact N2|]. simpl. lia.
Qed.

(** Recording the responses of a change that moved the cursor. *)
Lemma record_outcome (s0 s : MessagingService S) m initiator responses now s' r :
  trails s0 m -> svc_store s = svc_store s0 -> svc_cursor s0 <= svc_cursor s <= u64_max ->
  Forall (fun r => env_cursor r = Some (display (svc_cursor s))) responses ->
  (responses <> [] -> svc_cursor s0 < svc_cursor s) ->
  record_responses initiator responses now s = (s', r) ->
  svc_engine s' = svc_engine s /\ svc_cursor s' = svc_cursor s
  /\ match r with
     | Ok _ => exists m', synced s' m' /\ extends m m' (journal_entries (svc_engine s') initiator responses)
                 /\ mem_snapshot m' = Some (snapshot_new (svc_engine s') (svc_cursor s') now)
     | Err e => refusal_error e /\ trails s' m
     end.
Proof.
  intros [Hst Hwf Hcur Hq] Heq Hc Hr Hne. unfold record_responses, persist_with_events.
  unfold mbind, state_bind, get_state. simpl. rewrite Heq.
  set (snapshot := snapshot_new _ _ _). set (events := journal_entries _ _ _).
  pose proof (jw_floor _ _ _ Hwf) as Hf.
  assert (Hstamp : Forall (fun e => journal_cursor e = Ok (svc_cursor s)) events)
    by (apply journal_cursor_stamped; [lia|done]).
  assert (Hnew : events <> [] -> svc_cursor s0 < svc_cursor s) by (intros Hev%journal_entries_nil; auto).
  assert (Hfit : save_fits m snapshot events).
  { split; simpl; [done|lia|done|]. intros Hev. specialize (Hnew Hev). lia. }
  destruct (save_with_events_refines (svc_store s0) m snapshot events Hst Hwf Hfit) as (st' & -> & Hst').
  destruct (refuses snapshot events) as [x|] eqn:Ex; simpl in *.
  { intros [= <- <-]. fields. split_and!; [done|done|by exists snapshot, events, x|]. by split; fields; [| |lia|]. }
  destruct (memory_save_with_events_ok m snapshot events Hwf Hfit) as (m' & E & Hwf' & Hsnap & c & Hle & Hfl & Hj).
  rewrite E in *. simpl in *. intros [= <- <-]. fields. split_and!; [done..|]. exists m'.
  split; [|split; [|done]].
  2:{ split; [by rewrite Hfl|by rewrite Hfl| |]; unfold mem_current in *; [rewrite Hsnap; simpl; lia|].
      apply list.Forall_forall. intros e Hin. rewrite list.Forall_forall in Hstamp.
      rewrite (entry_cursor_stamped e (svc_cursor s)) by auto. enough (svc_cursor s0 < svc_cursor s) by lia.
      apply Hnew. intros Hnil. unfold events in *. rewrite Hnil in Hin. by apply elem_of_nil in Hin. }
  split; fields; [done|done| | |].
  - unfold mem_current. by rewrite Hsnap.
  - by rewrite Hsnap.
  - rewrite Hj. apply entries_after_forall, Forall_app. split; [done|]. apply written.
Qed.

Lemma trails_room s m : trails s m -> 0 <= svc_cursor s.
Proof. intros [_ Hwf Hc _]. pose proof (jw_floor _ _ _ Hwf). lia. Qed.

Lemma synced_room s m : synced s m -> 0 <= svc_cursor s.
Proof. intros Hs. by eapply trails_room, synced_trails. Qed.

(** Moving the cursor by the number of events and recording the responses. *)
Lemma publish_synced (s s1 : MessagingService S) m n initiator responses now s' u :
  synced s m -> svc_store s1 = svc_store s -> svc_cursor s1 = svc_cursor s -> 0 <= n ->
  let c := saturating_add_u64 (svc_cursor s1) n in
  Forall (fun r => env_cursor r = Some (display c)) responses -> (responses <> [] -> 0 < n) ->
  record_responses initiator responses now (s1 ⟪ svc_cursor := c ⟫) = (s', Ok u) ->
  svc_cursor s' < u64_max ->
  exists m', synced s' m' /\ extends m m' (journal_entries (svc_engine s') initiator responses).
Proof.
  intros Hs Hst Hcur Hn c Hr Hne Hrec Hmax. pose proof (synced_room s m Hs) as H0.
  assert (Hc' : svc_cursor s' = c).
  { revert Hrec. unfold record_responses, persist_with_events, mbind, state_bind, get_state. simpl.
    destruct (store_save_with_events _ _ _). intros [= <- _]. by fields. }
  assert (Hc : c = svc_cursor s + n) by (subst c; rewrite Hcur in *; apply saturating_below; lia || congruence).
  destruct (record_outcome s (s1 ⟪ svc_cursor := c ⟫) m initiator responses now s' (Ok u)) as (_ & _ & m' & H1 & H2 & _);
    fields; try done; [by apply synced_trails|lia| |by exists m']. intros Hr0. specialize (Hne Hr0). lia.
Qed.

Lemma loop_store {A : Type} (f : A -> Command) (l : list A) (s s' : MessagingService S) r :
  collect_each (fun x => engine_execute (f x)) l s = (s', r) ->
  svc_store s' = svc_store s /\ svc_cursor s' = svc_cursor s.
Proof.
  intros E. pose (R := fun a b : MessagingService S => svc_store b = svc_store a /\ svc_cursor b = svc_cursor a).
  assert (HR : Reflexive R) by (intros a; by split).
  assert (HT : Transitive R) by (intros a b c [H1 H2] [H3 H4]; split; congruence).
  pose proof (collect_each_rel R (fun x => engine_execute (f x)) l s) as HRel. rewrite E in HRel. simpl in HRel.
  apply HRel. intros x t _. unfold engine_execute, R. destruct (execute _ _). simpl. by fields.
Qed.

(** The engine after a loop of commands is the one its events build. *)
Lemma loop_engine {A : Type} (f : A -> Command) (l : list A) : forall (s s' : MessagingService S) events,
  collect_each (fun x => engine_execute (f x)) l s = (s', Ok events) ->
  s' = s ⟪ svc_engine := apply_events events (svc_engine s) ⟫.
Proof.
  induction l as [|x rest IH]; intros s s' events E; simpl in E; repeat state_step; [by destruct s|].
  unfold engine_execute, execute in Hrun. destruct (decide_command _ _) as [evs|]; [|done].
  injection Hrun as <- <-. apply IH in Hrun0 as ->. fields. unfold apply_events. by rewrite foldl_app.
Qed.

Lemma projected_cursor st c actor events now :
  Forall (fun r => env_cursor r = Some (display c)) (omap (fun e => project_event st c actor e now) events).
Proof.
  apply list.Forall_forall. intros r Hr. apply list_elem_of_omap in Hr as (e & _ & He).
  unfold project_event in He. destruct (server_event_of _ _ _ _); [|done]. by injection He as <-.
Qed.

Lemma omap_nonempty {A B : Type} (f : A -> option B) (l : list A) : omap f l <> [] -> 0 < Z.of_nat (length l).
Proof. destruct l; simpl; [done|lia]. Qed.

Lemma bind_run {X E A B : Type} (m : StateM X E A) (f : A -> StateM X E B) x x1 a :
  m x = (x1, Ok a) -> (m ≫= f) x = f a x1.
Proof. unfold mbind, state_bind. by intros ->. Qed.

Lemma advance_cursor_ok n (s s' : MessagingService S) u :
  advance_cursor n s = (s', Ok u) -> s' = s ⟪ svc_cursor := saturating_add_u64 (svc_cursor s) n ⟫.
Proof. by intros [= <- _]. Qed.

Lemma project_events_ok actor events now (s s' : MessagingService S) responses :
  project_events actor events now s = (s', Ok responses) ->
  s' = s /\ responses = omap (fun e => project_event (svc_engine s) (svc_cursor s) actor e now) events.
Proof. by intros [= <- <-]. Qed.

(** What publishing does, in a service whose cursor has room. *)
Lemma announce_outcome (s s1 : MessagingService S) m events actor now s' r :
  trails s m -> svc_store s1 = svc_store s -> svc_cursor s1 = svc_cursor s ->
  (advance_cursor (Z.of_nat (length events)) ;;
   responses ← project_events actor events now;
   record_responses actor responses now) s1 = (s', r) -> svc_cursor s' < u64_max ->
  svc_engine s' = svc_engine s1
  /\ match r with
     | Ok _ => exists m' entries, synced s' m' /\ extends m m' entries
                 /\ mem_snapshot m' = Some (snapshot_new (svc_engine s') (svc_cursor s') now)
     | Err e => refusal_error e /\ trails s' m
     end.
Proof.
  intros Hs Hst Hcur Hrun Hmax. pose proof (trails_room s m Hs) as H0.
  set (c := saturating_add_u64 (svc_cursor s1) (Z.of_nat (length events))).
  set (s2 := s1 ⟪ svc_cursor := c ⟫).
  set (responses := omap (fun e => project_event (svc_engine s2) (svc_cursor s2) actor e now) events).
  assert (Er : record_responses actor responses now s2 = (s', r)) by exact Hrun.
  assert (Hc' : svc_cursor s' = c).
  { revert Er. unfold record_responses, persist_with_events, mbind, state_bind, get_state. simpl.
    destruct (store_save_with_events _ _ _). intros [= <- _]. by fields. }
  assert (Hc : c = svc_cursor s + Z.of_nat (length events)).
  { subst c. rewrite Hcur in *. apply saturating_below; lia || congruence. }
  destruct (record_outcome s s2 m actor responses now s' r Hs) as (He & _ & Hm);
    subst s2; fields; try done; [lia|subst responses; fields; apply projected_cursor| |].
  - intros Hne%omap_nonempty. lia.
  - split; [done|]. destruct r; [|done]. destruct Hm as (m' & ? & ? & ?). by eexists m', _.
Qed.

(** Publishing never fails in a store that refuses nothing. *)
Lemma announce_total `{TS : !TotalStore S} (s s1 : MessagingService S) m events actor now :
  synced s m -> svc_store s1 = svc_store s -> svc_cursor s1 = svc_cursor s ->
  let announce := (advance_cursor (Z.of_nat (length events)) ;;
                   responses ← project_events actor events now;
                   record_responses actor responses now) in
  svc_cursor (fst (announce s1)) < u64_max ->
  exists s' m' entries, announce s1 = (s', Ok tt) /\ synced s' m' /\ extends m m' entries
    /\ svc_engine s' = svc_engine s1.
Proof.
  intros Hs Hst Hcur announce Hmax. destruct (announce s1) as [s' r] eqn:E.
  destruct (announce_outcome s s1 m events actor now s' r (synced_trails _ _ Hs) Hst Hcur E Hmax) as [He Hm].
  destruct r as [[]|e]; [destruct Hm as (m' & entries & ? & ? & _); by exists s', m', entries|].
  destruct Hm as [(snapshot & entries & x & Hx & _) _]. by rewrite none_refused in Hx.
Qed.

(** Publishing the events of a loop of commands. *)
Lemma announce_synced (s s1 : MessagingService S) m events actor now s' u :
  synced s m -> svc_store s1 = svc_store s -> svc_cursor s1 = svc_cursor s ->
  (advance_cursor (Z.of_nat (length events)) ;;
   responses ← project_events actor events now;
   record_responses actor responses now) s1 = (s', Ok u) ->
  svc_cursor s' < u64_max -> exists m' entries, synced s' m' /\ extends m m' entries.
Proof.
  intros Hs H1 H2 E Hmax. repeat state_step.
  apply advance_cursor_ok in Hrun as ->. apply project_events_ok in Hrun0 as [-> ->].
  edestruct publish_synced as (m' & Hm' & He); [exact Hs|exact H1|exact H2| | | |exact E|done|by eexists m', _];
    [lia| |].
  - fields. apply projected_cursor.
  - apply omap_nonempty.
Qed.

Lemma settle_synced s m initiator now s' u :
  synced s m -> settle_expired_messages initiator now s = (s', Ok u) -> svc_cursor s' < u64_max ->
  exists m' entries, synced s' m' /\ extends m m' entries.
Proof.
  intros Hs. unfold settle_expired_messages. rewrite (bind_run _ _ s s s eq_refl). case_bool_decide.
  { intros [= <- _] _. exists m, []. split; [done|]. apply extends_refl, Hs. }
  intros E Hmax. apply state_bind_ok in E as (events & s1 & Hrun & E). apply loop_store in Hrun as [H1 H2].
  by eapply announce_synced.
Qed.

Lemma deliver_synced s m actor now s' u :
  synced s m -> mark_direct_messages_delivered actor now s = (s', Ok u) -> svc_cursor s' < u64_max ->
  exists m' entries, synced s' m' /\ extends m m' entries.
Proof.
  intros Hs. unfold mark_direct_messages_delivered. rewrite (bind_run _ _ s s s eq_refl). case_bool_decide.
  { intros [= <- _] _. exists m, []. split; [done|]. apply extends_refl, Hs. }
  intros E Hmax. apply state_bind_ok in E as (events & s1 & Hrun & E). apply loop_store in Hrun as [H1 H2].
  by eapply announce_synced.
Qed.

(** A service whose blobs changed is as synced as before. *)
Lemma synced_blobs s m blobs : synced s m -> synced (s ⟪ svc_blob_store := blobs ⟫) m.
Proof. intros []. by split; fields. Qed.

Lemma blob_synced {A : Type} (f : FileBlobStore -> FileBlobStore * result BlobStoreError A) s m s' a :
  synced s m -> blob_call f s = (s', Ok a) -> synced s' m.
Proof.
  intros Hs. unfold blob_call. destruct (svc_blob_store s); [|done]. destruct (f _) as [b r].
  intros [= <- _]. by apply synced_blobs.
Qed.

Lemma single_synced s m actor event now s' responses :
  synced s m -> single_service_event actor event now s = (s', Ok responses) -> svc_cursor s' < u64_max ->
  exists m', synced s' m' /\ extends m m' (journal_entries (svc_engine s') actor responses).
Proof.
  intros Hs. unfold single_service_event. intros E Hmax. repeat state_step.
  apply advance_cursor_ok in Hrun as ->. 
  eapply publish_synced; [exact Hs|done|done| | | |exact Hrun1|done]; [lia| |lia].
  fields. by apply list.Forall_cons.
Qed.

Lemma commands_synced s m actor command now s' responses :
  synced s m -> execute_commands actor command now s = (s', Ok responses) -> svc_cursor s' < u64_max ->
  exists m' entries, synced s' m' /\ extends m m' entries
    /\ (idempotent_send_replay (svc_engine s) (svc_cursor s) actor command now = Ok None ->
        entries = journal_entries (svc_engine s') actor responses).
Proof.
  intros Hs. unfold execute_commands. rewrite (bind_run _ _ s s s eq_refl). intros E Hmax. repeat state_step.
  destruct a as [replay|]; repeat state_step.
  { exists m, []. split; [done|]. split; [apply extends_refl, Hs|congruence]. }
  pose proof (loop_engine id _ _ _ _ Hrun0) as Heng. apply (loop_store id) in Hrun0 as [H1 H2].
  case_bool_decide as Ha; repeat state_step.
  - exists m, []. split; [subst a s0; by destruct s, Hs|]. split; [apply extends_refl, Hs|done].
  - apply advance_cursor_ok in Hrun1 as ->. apply project_events_ok in Hrun2 as [-> ->].
    edestruct publish_synced as (m' & Hm' & He'); [exact Hs|exact H1|exact H2| | | |exact Hrun4|done|
      by eexists m', _]; [lia| |].
    + apply Forall_app. split; fields; [apply projected_cursor|]. by apply Forall_fmap, list.Forall_true.
    + intros _. destruct a; [done|simpl; lia].
Qed.

Lemma typing_synced s m actor id action expires now s' responses :
  synced s m -> typing_event actor id action expires now s = (s', Ok responses) -> svc_cursor s' < u64_max ->
  exists m', synced s' m' /\ extends m m' (journal_entries (svc_engine s') actor responses).
Proof.
  intros Hs. unfold typing_event. rewrite (bind_run _ _ s s s eq_refl).
  destruct (st_conversations _ !! _); [|done]. destruct (negb _); [done|]. by eapply single_synced.
Qed.

(** The commands whose responses are journalled. *)
Definition announces (command : ClientCommand) : bool :=
  match command with
  | CC_WalletStatus | CC_Sync _ _ | CC_Search _ | CC_ListCommunityMembers _ _ _ | CC_ListCommunityAuditLog _ _ _ => false
  | _ => true
  end.

(** What a command leaves behind: a synced service, whose journal grew by its
    responses where they are journalled. *)
Definition recorded (s : MessagingService S) (m : MemoryStateStore) (actor : ActorId) (command : ClientCommand)
    (now : Z) (s' : MessagingService S) (responses : list ServerEnvelope) : Prop :=
  exists m' entries, synced s' m' /\ extends m m' entries
    /\ (announces command = true ->
        idempotent_send_replay (svc_engine s) (svc_cursor s) actor command now = Ok None ->
        entries = journal_entries (svc_engine s') actor responses).

Lemma command_synced s m actor command now s' responses :
  synced s m -> handle_command actor command now s = (s', Ok responses) -> svc_cursor s' < u64_max ->
  recorded s m actor command now s' responses.
Proof.
  intros Hs E Hmax.
  assert (Hcommands : execute_commands actor command now s = (s', Ok responses) ->
    recorded s m actor command now s' responses).
  { intros E'. destruct (commands_synced _ _ _ _ _ _ _ Hs E' Hmax) as (m' & l & ? & ? & ?). by exists m', l. }
  assert (Hsame : s' = s -> announces command = false -> recorded s m actor command now s' responses).
  { intros -> Hf. exists m, []. split; [done|]. split; [apply extends_refl, Hs|congruence]. }
  assert (Hevent : (exists m', synced s' m' /\ extends m m' (journal_entries (svc_engine s') actor responses)) ->
    recorded s m actor command now s' responses) by (unfold recorded; naive_solver).
  destruct command; try (by apply Hcommands); simpl in E; repeat state_step; subst; try (by apply Hsame);
    try (eapply blob_synced in Hrun; [|exact Hs]); try (eapply blob_synced in Hrun0; [|exact Hs]);
    try (by apply Hevent; eapply single_synced); try (by apply Hevent; eapply typing_synced).
  destruct (deliver_synced _ _ _ _ _ _ Hs Hrun Hmax) as (m' & l & ? & ?). by exists m', l.
Qed.

(** The steps of [handle]. *)
Lemma handle_run envelope now s s' responses :
  handle envelope now s = (s', Ok responses) ->
  validate_command_authorization (svc_engine s) (ctx_actor_id (ce_context envelope)) (ce_command envelope) = Ok tt
  /\ exists s1, settle_expired_messages (ctx_actor_id (ce_context envelope)) now s = (s1, Ok tt)
       /\ handle_command (ctx_actor_id (ce_context envelope)) (ce_command envelope) now s1 = (s', Ok responses).
Proof.
  unfold handle. destruct (negb _); [done|]. intros E. repeat state_step.
  repeat match goal with u : unit |- _ => destruct u end. eauto.
Qed.

Lemma handle_synced s m envelope now s' responses :
  synced s m -> 0 <= svc_cursor s <= u64_max ->
  handle envelope now s = (s', Ok responses) -> svc_cursor s' < u64_max ->
  exists s1 m1 settled, settle_expired_messages (ctx_actor_id (ce_context envelope)) now s = (s1, Ok tt)
    /\ synced s1 m1 /\ extends m m1 settled
    /\ recorded s1 m1 (ctx_actor_id (ce_context envelope)) (ce_command envelope) now s' responses.
Proof.
  intros Hs Hc E Hmax. destruct (handle_run _ _ _ _ _ E) as (_ & s1 & E1 & E2).
  pose proof (grows_settle (ctx_actor_id (ce_context envelope)) now s) as G1. rewrite E1 in G1.
  pose proof (grows_command (ctx_actor_id (ce_context envelope)) (ce_command envelope) now s1) as G2. rewrite E2 in G2.
  simpl in *. specialize (G1 Hc). specialize (G2 ltac:(lia)).
  destruct (settle_synced _ _ _ _ _ _ Hs E1 ltac:(lia)) as (m1 & l1 & Hs1 & He1).
  exists s1, m1, l1. split_and!; try done. by apply command_synced.
Qed.

(** ** Loading *)

Lemma load_synced store m s : stands_for store m -> store_wf m -> Forall Q (mem_journal m) -> reads_back (S := S) m ->
  service_load store = Ok s -> synced s m.
Proof.
  intros Hst Hwf Hq Hb. unfold service_load. rewrite (load_refines store m Hst Hwf Hb). unfold memory_load. simpl.
  intros [= <-]. unfold mem_current. destruct (mem_snapshot m) as [snap|] eqn:E; split; simpl; try done;
    unfold mem_current; by rewrite E.
Qed.

Lemma synced_load s m : synced s m -> reads_back (S := S) m ->
  service_load (svc_store s)
  = Ok {| svc_engine := svc_engine s; svc_store := svc_store s; svc_blob_store := None; svc_cursor := svc_cursor s |}.
Proof.
  intros [Hst Hwf Hc Hstate _] Hb. unfold service_load. rewrite (load_refines _ m Hst Hwf Hb). unfold memory_load. simpl.
  unfold mem_current in Hc. destruct (mem_snapshot m); simpl; rewrite Hc; by rewrite Hstate.
Qed.
End persistence.
