(* ===== verification/ServiceSync.v ===== *)
(** * Synchronisation: what a client receives, and what it never receives *)

From S2P Require Import Prelude Text Maps Conversation Message Payment Wallet Apps Community EngineTypes EngineCore Engine StateError Settlement Search BlobStore Protocol Store ServiceView ServiceJournal ServiceCommand MessagingService ServicePersistence.

(** ** The journal holds nothing private *)

(** A community without its audit log, its join requests and the tokens of its
    invitations. *)
Definition community_clean (c : CommunityState) : Prop :=
  cs_admin_log c = [] /\ cs_pending_join_requests c = ∅
  /\ map_Forall (fun _ i => il_token i = "") (cs_invite_links c).

(** An entry that no client may misuse: a changed community is clean, and no
    snapshot is journalled. *)
Definition entry_clean (e : JournalEntry) : Prop :=
  match env_event (je_envelope e) with
  | SE_SyncBatch _ => False
  | SE_CommunityChanged c => community_clean c
  | _ => True
  end.

Lemma public_community_clean c : community_clean (public_community c).
Proof.
  unfold community_clean, public_community. fields. split_and!; [done..|].
  intros id i. rewrite lookup_fmap. destruct (cs_invite_links c !! id); simpl; [|done].
  intros [= <-]. by fields.
Qed.

Lemma journal_entries_clean st initiator responses : Forall entry_clean (journal_entries st initiator responses).
Proof.
  unfold journal_entries. apply Forall_fmap, list.Forall_forall. intros r Hr.
  apply list_elem_of_filter in Hr as [Hb _]. unfold entry_clean. simpl.
  unfold journal_envelope_of, public_journal_envelope in *.
  destruct (env_event r) eqn:E; rewrite ?E; fields; rewrite ?E; simpl in Hb; try done.
  apply public_community_clean.
Qed.

(** Projecting a clean community for an actor reveals nothing. *)
Lemma project_clean st actor c now : community_clean c -> community_clean (project_community_for_actor st actor c now).
Proof.
  intros (H1 & H2 & H3). unfold project_community_for_actor, community_clean.
  repeat case_match; fields; split_and!; try done;
    intros id i; rewrite lookup_fmap; destruct (cs_invite_links c !! id) eqn:Ei; simpl; try done;
    intros [= <-]; by fields.
Qed.

Section sync.
Context {S : Type} `{MSS : MessagingStateStore S, RM : !RefinesMemory S}.
Context `{U : UnicodeCase, D : StrDebug, UT : UnicodeText, BC : BlobCodec, SVC : ServiceCrypto, HMAC : SettlementCrypto}.

(** A service in order: synced, and nothing private in the journal. *)
Definition service_ok (s : MessagingService S) (m : MemoryStateStore) : Prop := synced entry_clean s m.

(** ** Following the journal *)

(** The cursor a batch tells the client to go on from. *)
Definition batch_cursor (responses : list ServerEnvelope) : option Z :=
  last ← list.last responses;
  match env_event last with
  | SE_SyncBatch batch => text ← sb_next_cursor batch; parse_u64 text
  | _ => None
  end.

Definition events_of (responses : list ServerEnvelope) : list ServerEnvelope :=
  filter (fun r => negb (is_sync_batch (env_event r)) = true) responses.

(** A client that asks again from each cursor it is told, until it has caught
    up; the events it received. *)
Fixpoint follow_journal (fuel : nat) (s : MessagingService S) (actor_id : ActorId) (cursor limit now : Z) :
    option (list ServerEnvelope) :=
  match fuel with
  | O => None
  | Datatypes.S fuel =>
      match sync_response s actor_id (Some (display cursor)) limit now with
      | Err _ => None
      | Ok responses =>
          next ← batch_cursor responses;
          if svc_cursor s <=? next then Some (events_of responses)
          else app (events_of responses) <$> follow_journal fuel s actor_id next limit now
      end
  end.

Lemma delivered_event st actor now e : entry_clean e ->
  is_sync_batch (env_event (project_journal_envelope_for_actor st actor (je_envelope e) now)) = false.
Proof.
  unfold entry_clean, project_journal_envelope_for_actor, public_journal_envelope.
  destruct (env_event (je_envelope e)) eqn:E; intros He; rewrite ?E; fields; rewrite ?E; done.
Qed.

Lemma deliver_app st actor now l1 l2 :
  deliver_entries st actor now (l1 ++ l2) = (deliver_entries st actor now l1 ++ deliver_entries st actor now l2)%list.
Proof. unfold deliver_entries. by rewrite !list.filter_app, fmap_app. Qed.

Lemma events_of_delivered st actor now entries next :
  Forall entry_clean entries ->
  events_of (deliver_entries st actor now entries ++ [sync_checkpoint_envelope next now])
  = deliver_entries st actor now entries.
Proof.
  intros Hc. unfold events_of. rewrite list.filter_app. rewrite filter_cons_False by done. simpl. rewrite app_nil_r.
  unfold deliver_entries. induction Hc as [|e l He _ IH]; [done|]. rewrite !filter_cons.
  case_decide; [rewrite filter_cons; case_decide; [|done]|done].
  rewrite fmap_cons, filter_cons_True; [by f_equal|]. by rewrite delivered_event.
Qed.

Lemma batch_cursor_checkpoint l next now : 0 <= next <= u64_max ->
  batch_cursor (l ++ [sync_checkpoint_envelope next now]) = Some next.
Proof. intros Hn. unfold batch_cursor. rewrite last_snoc. simpl. unfold parse_u64. by apply parse_display. Qed.

Lemma batch_cursor_snapshot st c actor limit now : 0 <= c <= u64_max ->
  batch_cursor [sync_envelope st c actor limit now] = Some c.
Proof. intros Hn. unfold batch_cursor. simpl. unfold parse_u64. by apply parse_display. Qed.

(** The answer to a client whose cursor the journal still reaches. *)
Lemma sync_page s m actor cursor limit now :
  service_ok s m -> reads_back (S := S) m -> svc_cursor s <= u64_max -> mem_journal_floor_cursor m <= cursor <= svc_cursor s ->
  exists responses entries next, sync_response s actor (Some (display cursor)) limit now = Ok responses
    /\ events_of responses = deliver_entries (svc_engine s) actor now entries
    /\ batch_cursor responses = Some next
    /\ entries_after cursor (mem_journal m) = (entries ++ entries_after next (mem_journal m))%list
    /\ cursor <= next <= svc_cursor s
    /\ (next < svc_cursor s -> entries <> []).
Proof.
  intros [Hst Hwf Hcur Hstate Hq] Hb Hroom Hc. pose proof (jw_floor _ _ _ Hwf) as Hf.
  unfold sync_response. simpl. unfold parse_u64 at 1. rewrite parse_display by lia.
  rewrite (proj2 (Z.ltb_ge _ _)) by lia.
  rewrite (load_after_refines _ m _ _ Hst Hwf Hb). unfold memory_load_event_journal_after.
  destruct (slice_journal_spec (mem_journal m) (mem_journal_floor_cursor m) (mem_current m) cursor (Z.max 1 limit))
    as (sl & E & H1 & H2 & H3 & H4 & H5 & H6); [done|lia|].
  unfold mem_current in E. rewrite E. simpl. rewrite H1, H2. rewrite (proj2 (Z.ltb_ge _ _)) by lia. simpl.
  destruct (bool_decide (sl_entries sl = []) && (cursor <? mem_current m)) eqn:Eb.
  - apply andb_true_iff in Eb as [Hnil%bool_decide_eq_true Hlt%Z.ltb_lt].
    eexists _, [], (svc_cursor s). split; [done|]. split_and!; [done|by apply batch_cursor_snapshot; lia| |lia..].
    rewrite (H4 Hnil). simpl. symmetry. apply entries_after_none. destruct Hwf as [_ _ Hbound _].
    eapply list.Forall_impl; [exact Hbound|]. simpl. lia.
  - assert (Hnext : cursor <= sl_checkpoint_cursor sl <= svc_cursor s
                    /\ (sl_checkpoint_cursor sl < svc_cursor s -> sl_entries sl <> [])).
    { destruct (sl_has_more sl) eqn:Em.
      - specialize (H5 eq_refl). split; [lia|]. intros _ Hnil.
        rewrite bool_decide_eq_true_2 in Eb by done. apply Z.ltb_ge in Eb. lia.
      - rewrite H6; [split; [lia|lia]|done|]. apply andb_false_iff in Eb as [Eb|Eb].
        + left. by apply bool_decide_eq_false in Eb.
        + right. apply Z.ltb_ge in Eb. lia. }
    eexists _, (sl_entries sl), (sl_checkpoint_cursor sl). split; [done|]. destruct Hnext as [Hn1 Hn2].
    split_and!; [|apply batch_cursor_checkpoint; lia|done|lia..|done].
    apply events_of_delivered. assert (Ha : Forall entry_clean (entries_after cursor (mem_journal m))) by by apply forall_after.
    rewrite H3 in Ha. by apply Forall_app in Ha as [Ha _].
Qed.

(** Any fuel beyond the number of entries is enough. *)
Lemma follow_delivers n : forall (s : MessagingService S) (m : MemoryStateStore) actor cursor limit now,
  service_ok s m -> reads_back (S := S) m -> svc_cursor s <= u64_max -> mem_journal_floor_cursor m <= cursor <= svc_cursor s ->
  (length (entries_after cursor (mem_journal m)) <= n)%nat ->
  follow_journal (Datatypes.S n) s actor cursor limit now
  = Some (deliver_entries (svc_engine s) actor now (entries_after cursor (mem_journal m))).
Proof.
  induction n as [n IH] using lt_wf_ind; intros s m actor cursor limit now Hs Hb Hroom Hc Hle. simpl.
  destruct (sync_page s m actor cursor limit now Hs Hb Hroom Hc) as (rs & es & next & -> & Hev & -> & Hsplit & Hnext & Hne).
  simpl. rewrite Hev, Hsplit, deliver_app. destruct (Z.leb_spec (svc_cursor s) next) as [Hdone|Hmore].
  - rewrite (entries_after_none next); [by rewrite app_nil_r|]. destruct Hs as [_ Hwf Hcur _ _].
    destruct Hwf as [_ _ Hbound _]. eapply list.Forall_impl; [exact Hbound|]. simpl. lia.
  - assert (Hpos : (0 < length es)%nat) by (destruct es; [by specialize (Hne ltac:(lia))|simpl; lia]).
    rewrite Hsplit, length_app in Hle. destruct n as [|n]; [lia|].
    rewrite (IH n ltac:(lia) s m); [done|done|done|done|lia|lia].
Qed.

(** C4: Following the journal delivers everything: a client that has seen the
    events up to a cursor the journal still reaches, and asks again from every
    cursor it is told, whatever the size of the pages, receives exactly the
    later entries addressed to it, in order and once each (but no typing notice
    that ran out), and catches up in at most one page per entry and one more.
    What the store kept is taken to read back as it was written. *)
Theorem journal_sync_delivers_everything (s : MessagingService S) (m : MemoryStateStore) (actor_id : ActorId)
    (cursor limit now : Z) :
  service_ok s m -> reads_back (S := S) m -> svc_cursor s <= u64_max -> mem_journal_floor_cursor m <= cursor <= svc_cursor s ->
  let entries := entries_after cursor (mem_journal m) in
  follow_journal (Datatypes.S (length entries)) s actor_id cursor limit now
  = Some (deliver_entries (svc_engine s) actor_id now entries).
Proof. intros Hs Hb Hroom Hc entries. by apply follow_delivers. Qed.
End sync.
