(* ===== verification/ServiceExpiry.v ===== *)
(** * Expired messages: settled before every request, exactly once *)

From S2P Require Import Prelude Text Maps Conversation Message Payment Wallet Apps Community EngineTypes EngineCore EngineMessage EngineApply Engine EngineInvariant EngineMessaging StateError Settlement Search BlobStore Protocol Store ServiceView ServiceJournal ServiceCommand MessagingService ServicePersistence ServiceSync.

(** ** Which messages the settlement picks *)

(** The message is among those listed. *)
Definition listed (l : list (ConversationId * list MessageId)) (c : ConversationId) (mid : MessageId) : Prop :=
  Exists (fun p => p.1 = c /\ mid ∈ p.2) l.
#[export] Instance listed_dec l c mid : Decision (listed l c mid).
Proof. unfold listed. apply _. Defined.

(** A message once its time has come. *)
Definition settled_at (now : Z) (m : Message) : Message :=
  match msg_expires_at_ms m with
  | Some expires_at_ms => if expires_at_ms <=? now then m ⟪ msg_deleted := true ⟫ else m
  | None => m
  end.

(** A message whose time has come and that is still there. *)
Definition overdue (now : Z) (m : Message) : Prop :=
  msg_deleted m = false /\ exists expires_at_ms, msg_expires_at_ms m = Some expires_at_ms /\ expires_at_ms <= now.

Lemma settled_at_spec now m : settled_at now m = if is_settleable now m then m ⟪ msg_deleted := true ⟫ else m.
Proof.
  unfold settled_at, is_settleable, is_expired. destruct m; simpl. destruct msg_expires_at_ms; simpl;
    [|by rewrite andb_false_r]. destruct (_ <=? _); [|by rewrite andb_false_r]. by destruct msg_deleted.
Qed.

Lemma find_in_table (st : MessagingState) (c : ConversationId) (ms : gmap MessageId Message) (mid : MessageId) :
  st_messages st !! c = Some ms -> find_message st c mid = ms !! mid.
Proof. intros H. unfold find_message. by rewrite H. Qed.

Lemma elem_of_expired st now (c : ConversationId) (ids : list MessageId) :
  (c, ids) ∈ expired_messages st now <->
  exists ms, st_messages st !! c = Some ms /\ ids <> []
    /\ ids = msg_id <$> filter (fun m => is_settleable now m = true) (btree_values ms).
Proof.
  unfold expired_messages. rewrite list_elem_of_omap. split.
  - intros ([c' ms] & Hin & Heq). apply elem_of_btree_items in Hin. simpl in Heq.
    case_bool_decide as Hne; [done|]. injection Heq as -> <-. by exists ms.
  - intros (ms & Hms & Hne & ->). exists (c, ms). split; [by apply elem_of_btree_items|]. simpl.
    by rewrite bool_decide_eq_false_2.
Qed.

Section expiry.
Variable st : MessagingState.
Variable now : Z.
Hypothesis Hwf : state_wf st.

Lemma message_at_key c ms mid m : st_messages st !! c = Some ms -> ms !! mid = Some m -> msg_id m = mid.
Proof. intros H1 H2. destruct (sw_messages _ Hwf c ms H1) as [_ H]. by destruct (H mid m H2). Qed.

Lemma expired_ids_present c ids : (c, ids) ∈ expired_messages st now ->
  ids <> [] /\ Forall (fun mid => is_Some (find_message st c mid)) ids.
Proof.
  intros (ms & Hms & Hne & Hids)%elem_of_expired. split; [done|]. subst ids. apply Forall_fmap, list.Forall_forall.
  intros m [_ (k & Hk)%elem_of_btree_values]%list_elem_of_filter. simpl. rewrite (find_in_table _ _ _ _ Hms).
  by rewrite (message_at_key c ms k m), Hk.
Qed.

(** Exactly the messages that are due. *)
Lemma listed_expired c mid :
  listed (expired_messages st now) c mid <-> exists m, find_message st c mid = Some m /\ is_settleable now m = true.
Proof.
  unfold listed. rewrite list.Exists_exists. split.
  - intros ([c' ids] & (ms & Hms & _ & ->)%elem_of_expired & <- & Hin). simpl in *.
    apply list_elem_of_fmap in Hin as (m & -> & [Hm (k & Hk)%elem_of_btree_values]%list_elem_of_filter).
    exists m. rewrite (find_in_table _ _ _ _ Hms). by rewrite (message_at_key c' ms k m).
  - intros (m & (ms & Hms & Hm)%find_message_get & Hs).
    assert (Hin : mid ∈ msg_id <$> filter (fun m => is_settleable now m = true) (btree_values ms)).
    { apply list_elem_of_fmap. exists m. split; [by rewrite (message_at_key c ms mid m)|].
      apply list_elem_of_filter. split; [done|]. apply elem_of_btree_values. by exists mid. }
    exists (c, msg_id <$> filter (fun m => is_settleable now m = true) (btree_values ms)). split; [|done].
    apply elem_of_expired. exists ms. split_and!; [done| |done]. intros Hnil. rewrite Hnil in Hin.
    by apply elem_of_nil in Hin.
Qed.

(** What settling does to a message is to mark it if it is listed. *)
Lemma settled_lookup c mid :
  (if decide (listed (expired_messages st now) c mid) then (fun m => m ⟪ msg_deleted := true ⟫) <$> find_message st c mid
   else find_message st c mid) = settled_at now <$> find_message st c mid.
Proof.
  case_decide as H.
  - apply listed_expired in H as (m & -> & Hm). simpl. rewrite settled_at_spec. by rewrite Hm.
  - destruct (find_message st c mid) as [m|] eqn:E; [|done]. simpl. f_equal. rewrite settled_at_spec.
    destruct (is_settleable now m) eqn:Hm; [|done]. destruct H. apply listed_expired. by exists m.
Qed.
End expiry.

Lemma settled_once now m : ~ overdue now (settled_at now m).
Proof.
  intros [Hd (t & Ht & Hle)]. unfold settled_at in *. destruct (msg_expires_at_ms m) as [e|] eqn:E; [|congruence].
  destruct (Z.leb_spec e now); [revert Hd; by fields|]. rewrite E in Ht. injection Ht as ->. lia.
Qed.

Section settle.
Context {S : Type} `{MSS : MessagingStateStore S, RM : !RefinesMemory S}.
Context `{U : UnicodeCase, D : StrDebug, UT : UnicodeText, BC : BlobCodec, SVC : ServiceCrypto, HMAC : SettlementCrypto}.

Lemma require_messages_present st c ids :
  Forall (fun mid => is_Some (find_message st c mid)) ids -> require_messages st c ids = Ok tt.
Proof.
  induction 1 as [|mid ids [m Hm] _ IH]; [done|]. simpl. unfold require_message. by rewrite Hm.
Qed.

(** One turn of the loop. *)
Lemma delete_present (s : MessagingService S) c ids :
  ids <> [] -> Forall (fun mid => is_Some (find_message (svc_engine s) c mid)) ids ->
  exists st', engine_execute (DeleteMessages c ids) s
      = (s ⟪ svc_engine := st' ⟫, Ok [MessagesDeleted c (btree_elements (list_to_set ids : gset MessageId))])
    /\ (forall c' mid, find_message st' c' mid
          = if decide (c = c' /\ mid ∈ ids) then (fun m => m ⟪ msg_deleted := true ⟫) <$> find_message (svc_engine s) c' mid
            else find_message (svc_engine s) c' mid)
    /\ (state_wf (svc_engine s) -> state_wf st').
Proof.
  intros Hne Hall. unfold engine_execute, execute. simpl. unfold decide_delete_messages.
  rewrite bool_decide_eq_false_2; simpl.
  2:{ intros Hnil. destruct ids as [|mid ids]; [done|]. assert (Hin : mid ∈ btree_elements (list_to_set (mid :: ids) : gset MessageId)).
      { apply elem_of_btree_elements. set_solver. } rewrite Hnil in Hin. by apply elem_of_nil in Hin. }
  rewrite require_messages_present; simpl.
  2:{ apply list.Forall_forall. intros mid Hin%elem_of_btree_elements. rewrite list.Forall_forall in Hall. apply Hall. set_solver. }
  eexists. split; [done|]. split.
  - intros c' mid. simpl. rewrite find_deleted. f_equal. apply decide_ext. rewrite elem_of_btree_elements. set_solver.
  - intros Hwf. by apply apply_messages_deleted_wf.
Qed.

Lemma delete_loop (l : list (ConversationId * list MessageId)) : forall (s : MessagingService S),
  Forall (fun p => p.2 <> [] /\ Forall (fun mid => is_Some (find_message (svc_engine s) p.1 mid)) p.2) l ->
  exists st' events, collect_each (fun p => engine_execute (DeleteMessages p.1 p.2)) l s
      = (s ⟪ svc_engine := st' ⟫, Ok events)
    /\ length events = length l
    /\ (forall c mid, find_message st' c mid
          = if decide (listed l c mid) then (fun m => m ⟪ msg_deleted := true ⟫) <$> find_message (svc_engine s) c mid
            else find_message (svc_engine s) c mid)
    /\ (state_wf (svc_engine s) -> state_wf st').
Proof.
  induction l as [|[c ids] l IH]; intros s Hl.
  { exists (svc_engine s), []. split_and!; [by destruct s|done| |done]. intros c mid.
    rewrite decide_False; [done|]. intros H. by inversion H. }
  apply list.Forall_cons in Hl as [[Hne Hall] Hl]. simpl in Hne, Hall.
  destruct (delete_present s c ids Hne Hall) as (st1 & E1 & Hf1 & Hw1).
  destruct (IH (s ⟪ svc_engine := st1 ⟫)) as (st2 & evs & E2 & Hlen & Hf2 & Hw2).
  { eapply list.Forall_impl; [exact Hl|]. fields. intros [c' ids'] [Hne' Hall']. split; [done|]. simpl in *.
    eapply list.Forall_impl; [exact Hall'|]. simpl. intros mid [m Hm]. rewrite Hf1. case_decide; rewrite Hm; by eexists. }
  exists st2, (MessagesDeleted c (btree_elements (list_to_set ids)) :: evs). split_and!.
  - cbn [collect_each]. rewrite (bind_run _ _ _ _ _ E1), (bind_run _ _ _ _ _ E2). by fields.
  - simpl. by rewrite Hlen.
  - intros c' mid. rewrite Hf2. fields. rewrite Hf1.
    assert (Hcons : listed ((c, ids) :: l) c' mid <-> (c = c' /\ mid ∈ ids) \/ listed l c' mid).
    { unfold listed. by rewrite Exists_cons. }
    destruct (find_message (svc_engine s) c' mid); repeat case_decide; try done; tauto.
  - fields. auto.
Qed.

Lemma expired_all_present st now : state_wf st ->
  Forall (fun p => p.2 <> [] /\ Forall (fun mid => is_Some (find_message st p.1 mid)) p.2) (expired_messages st now).
Proof. intros Hwf. apply list.Forall_forall. intros [c ids] Hin. by apply expired_ids_present with now. Qed.

(** What the settlement does to the engine, and that it is stored, unless the
    store refuses it or the cursor runs out. *)
Lemma settle_outcome (s : MessagingService S) m initiator now s' r :
  trails entry_clean s m -> state_wf (svc_engine s) ->
  settle_expired_messages initiator now s = (s', r) -> svc_cursor s' < u64_max ->
  state_wf (svc_engine s')
  /\ (forall c mid, find_message (svc_engine s') c mid = settled_at now <$> find_message (svc_engine s) c mid)
  /\ match r with
     | Ok _ => exists m' entries, trails entry_clean s' m' /\ extends m m' entries
                 /\ (s' = s /\ m' = m
                     \/ service_ok s' m' /\ mem_snapshot m' = Some (snapshot_new (svc_engine s') (svc_cursor s') now))
     | Err e => refusal_error (S := S) e /\ trails entry_clean s' m
     end.
Proof.
  intros Hs Hwf. unfold settle_expired_messages. rewrite (bind_run _ _ s s s eq_refl). case_bool_decide as Hnil.
  { intros [= <- <-] _. split_and!; [done| |exists m, []; split_and!; [done|by apply extends_refl, (tr_wf _ _ _ Hs)|by left]].
    intros c mid. rewrite <- settled_lookup by done. rewrite Hnil. rewrite decide_False; [done|]. intros H. by inversion H. }
  destruct (delete_loop _ s (expired_all_present _ now Hwf)) as (st' & events & E & Hlen & Hfind & Hwf').
  rewrite (bind_run _ _ _ _ _ E). intros Er Hmax.
  destruct (announce_outcome entry_clean journal_entries_clean s (s ⟪ svc_engine := st' ⟫) m events initiator now s' r Hs)
    as [He Hm]; [done|done|exact Er|exact Hmax|]. rewrite He. fields. split_and!; [by apply Hwf'| |].
  - intros c mid. rewrite Hfind. by apply settled_lookup.
  - destruct r as [u|e]; [|done]. destruct Hm as (m' & entries & Hm' & Hext & Hsnap). rewrite He in Hsnap.
    exists m', entries. split_and!; [by apply synced_trails|done|]. right. split; [done|]. by revert Hsnap; fields.
Qed.

(** In a store that refuses nothing it never fails. *)
Lemma settle_total `{TS : !TotalStore S} (s : MessagingService S) m initiator now :
  service_ok s m -> state_wf (svc_engine s) ->
  svc_cursor (fst (settle_expired_messages initiator now s)) < u64_max ->
  exists s' m' entries, settle_expired_messages initiator now s = (s', Ok tt)
    /\ service_ok s' m' /\ extends m m' entries /\ state_wf (svc_engine s')
    /\ forall c mid, find_message (svc_engine s') c mid = settled_at now <$> find_message (svc_engine s) c mid.
Proof.
  intros Hs Hwf Hmax. destruct (settle_expired_messages initiator now s) as [s' r] eqn:E. simpl in Hmax.
  destruct (settle_outcome s m initiator now s' r (synced_trails _ _ _ Hs) Hwf E Hmax) as (Hwf' & Hfind & Hr).
  destruct r as [[]|e].
  - destruct Hr as (m' & entries & _ & Hext & Hsame). exists s', m', entries. split_and!; [done| |done..].
    by destruct Hsame as [[-> ->]|[? _]].
  - destruct Hr as [(snapshot & entries & x & Hx & _) _]. by rewrite none_refused in Hx.
Qed.

(** C22: Before a request is handled, the messages whose time has come are
    settled: each is marked deleted, no other message changes, nothing is left
    to settle, and the settlement is stored, however many there are, if the store
    refuses no save. *)
Theorem expired_messages_are_settled `{TS : !TotalStore S} (s : MessagingService S) (m : MemoryStateStore) (initiator : ActorId) (now : Z) :
  service_ok s m -> state_wf (svc_engine s) ->
  svc_cursor (fst (settle_expired_messages initiator now s)) < u64_max ->
  exists s' m', settle_expired_messages initiator now s = (s', Ok tt) /\ service_ok s' m'
    /\ (forall c mid, find_message (svc_engine s') c mid = settled_at now <$> find_message (svc_engine s) c mid)
    /\ forall c mid x, find_message (svc_engine s') c mid = Some x -> ~ overdue now x.
Proof.
  intros Hs Hwf Hmax. destruct (settle_total s m initiator now Hs Hwf Hmax) as (s' & m' & l & E & Hs' & _ & Hwf' & Hfind).
  exists s', m'. split_and!; [done..|].
  intros c mid x. rewrite Hfind. intros (y & _ & ->)%fmap_Some. apply settled_once.
Qed.
End settle.
