(* ===== verification/ServiceIntegrity.v ===== *)
(** * No request, answered or refused, leaves the service out of order

    A store may refuse a save; it then is as it was, behind the service. *)

From S2P Require Import Prelude Text Maps Conversation Message Payment Wallet Apps Community EngineTypes EngineCore EngineMessage EngineApply Engine EngineInvariant EngineMoney EngineMessaging StateError Settlement Search BlobStore Protocol Store ServiceView ServiceJournal ServiceCommand MessagingService ServicePersistence ServiceSync ServiceExpiry.

Section integrity.
Context {S : Type} `{MSS : MessagingStateStore S, RM : !RefinesMemory S}.
Context `{U : UnicodeCase, D : StrDebug, UT : UnicodeText, BC : BlobCodec, SVC : ServiceCrypto, HMAC : SettlementCrypto}.

(** ** Loops that leave the ledger alone *)

Lemma execute_other_wallet st c : is_wallet_command c = false -> st_wallet (fst (execute st c)) = st_wallet st.
Proof.
  intros Hc. unfold execute. destruct (decide_command st c) as [evs|] eqn:E; [|done]. simpl.
  by apply apply_events_wallet, (other_commands_wallet st c).
Qed.

Lemma loop_wallet {A : Type} (f : A -> Command) (l : list A) (s : MessagingService S) :
  (forall x, is_wallet_command (f x) = false) ->
  st_wallet (svc_engine (fst (collect_each (fun x => engine_execute (f x)) l s))) = st_wallet (svc_engine s).
Proof.
  intros Hf. pose (R := fun a b : MessagingService S => st_wallet (svc_engine b) = st_wallet (svc_engine a)).
  assert (HR : Reflexive R) by (intros a; done).
  assert (HT : Transitive R) by (intros a b c; unfold R; congruence).
  apply (collect_each_rel R). intros x t _. unfold R, engine_execute.
  pose proof (execute_other_wallet (svc_engine t) (f x) (Hf x)) as H. destruct (execute _ _). fields. done.
Qed.

Lemma announce_engine events actor now (s s' : MessagingService S) r :
  (advance_cursor (Z.of_nat (length events)) ;;
   responses ← project_events actor events now;
   record_responses actor responses now) s = (s', r) -> svc_engine s' = svc_engine s.
Proof.
  unfold record_responses, persist_with_events, advance_cursor, project_events, modify, get_state, mbind, state_bind,
    mret, state_ret. simpl. destruct (store_save_with_events _ _ _). intros [= <- _]. by fields.
Qed.

Lemma settle_wallet initiator now (s s' : MessagingService S) r :
  settle_expired_messages initiator now s = (s', r) -> st_wallet (svc_engine s') = st_wallet (svc_engine s).
Proof.
  unfold settle_expired_messages. rewrite (bind_run _ _ s s s eq_refl). case_bool_decide; [by intros [= <- _]|].
  pose proof (loop_wallet (fun p : ConversationId * list MessageId => DeleteMessages p.1 p.2)
    (expired_messages (svc_engine s) now) s (fun _ => eq_refl)) as Hw. cbv beta in Hw. unfold mbind at 1, state_bind at 1.
  destruct (collect_each _ _ s) as [s1 [events|e]]; simpl in Hw; [|by intros [= <- _]].
  intros E%announce_engine. by rewrite E.
Qed.

(** ** Delivery always runs to its end *)

Lemma pending_present st actor : state_wf st ->
  Forall (fun p => is_Some (find_message st p.1 p.2)) (pending_deliveries st actor).
Proof.
  intros Hwf. apply list.Forall_forall. intros [c mid] Hin. unfold pending_deliveries in Hin.
  apply list_elem_of_In, in_flat_map in Hin as (conv & _ & Hin%list_elem_of_In).
  apply list_elem_of_fmap in Hin as (m & [= -> ->] & Hm). apply list_elem_of_filter in Hm as [_ Hm].
  apply elem_of_btree_values in Hm as [k Hk]. simpl.
  destruct (st_messages st !! conv_id conv) as [ms|] eqn:E; simpl in Hk; [|by rewrite lookup_empty in Hk].
  rewrite (find_in_table _ _ _ _ E), (message_at_key st Hwf _ ms k m E Hk), Hk. by eexists.
Qed.

Lemma deliver_loop (l : list (ConversationId * MessageId)) : forall (s : MessagingService S),
  Forall (fun p => is_Some (find_message (svc_engine s) p.1 p.2)) l ->
  exists st' events, collect_each (fun p => engine_execute (SetDeliveryState p.1 p.2 Delivered)) l s
      = (s ⟪ svc_engine := st' ⟫, Ok events)
    /\ (state_wf (svc_engine s) -> state_wf st').
Proof.
  induction l as [|[c mid] l IH]; intros s Hl.
  { exists (svc_engine s), []. split; [by destruct s|done]. }
  apply list.Forall_cons in Hl as [[x Hx] Hl]. simpl in Hx.
  set (st1 := with_message c mid (fun m => m ⟪ msg_delivery_state := Delivered ⟫) (svc_engine s)).
  assert (E1 : engine_execute (SetDeliveryState c mid Delivered) s
               = (s ⟪ svc_engine := st1 ⟫, Ok [DeliveryStateUpdated c mid Delivered])).
  { unfold engine_execute, execute. simpl. unfold decide_set_delivery_state, require_message. by rewrite Hx. }
  destruct (IH (s ⟪ svc_engine := st1 ⟫)) as (st2 & evs & E2 & Hw2).
  { eapply list.Forall_impl; [exact Hl|]. fields. intros [c' mid'] [y Hy]. simpl in *. subst st1.
    rewrite find_with_message. case_decide; [by rewrite Hx|by eexists]. }
  exists st2, (DeliveryStateUpdated c mid Delivered :: evs). split.
  - cbn [collect_each]. rewrite (bind_run _ _ _ _ _ E1), (bind_run _ _ _ _ _ E2). by fields.
  - fields. intros Hwf. apply Hw2. by apply with_message_wf.
Qed.

(** ** The commands of a request are all executed or none is *)

Lemma execute_refused st c e : snd (execute st c) = Err e -> fst (execute st c) = st.
Proof. unfold execute. by destruct (decide_command st c). Qed.

(** The second command of a request cannot fail once the first is accepted. *)
Definition follows (c1 c2 : Command) : Prop :=
  forall st st' evs, execute st c1 = (st', Ok evs) -> is_ok (snd (execute st' c2)) = true.

Lemma acknowledge_follows id mid client sender content reply thread created scheduled silent protected at_ms :
  follows (QueueMessage id mid client sender content reply thread created scheduled silent protected)
          (AcknowledgeMessage id mid mid at_ms).
Proof.
  intros st st' evs [Hd ->]%execute_decided. simpl in Hd.
  apply queue_message_decided in Hd as (_ & m & -> & Hid & Hconv).
  unfold execute. simpl. unfold decide_acknowledge_message, require_message. rewrite find_queued.
  rewrite decide_True by done. simpl. unfold eqb. by rewrite bool_decide_eq_true_2.
Qed.

Lemma delivery_follows st id actor mid m :
  find_message st id mid = Some m ->
  forall st' evs, execute st (MarkRead id actor mid) = (st', Ok evs) ->
  is_ok (snd (execute st' (SetDeliveryState id mid Read))) = true.
Proof.
  intros Hm st' evs [Hd ->]%execute_decided. simpl in Hd. unfold decide_mark_read in Hd. oks. subst evs.
  destruct (apply_event_keeps_message (ConversationRead id actor mid) st id mid m) as (m' & Hm' & _); [done|done|].
  change (apply_events [ConversationRead id actor mid] st) with (apply_event (ConversationRead id actor mid) st).
  revert Hm'. generalize (apply_event (ConversationRead id actor mid) st). intros st1 Hm'.
  unfold execute. simpl. unfold decide_set_delivery_state, require_message. by rewrite Hm'.
Qed.

(** What a list of commands does to a service: all of it, or nothing. *)
Definition atomic (l : list Command) (s : MessagingService S) : Prop :=
  forall s' e, collect_each engine_execute l s = (s', Err e) -> s' = s.

Lemma atomic_nil s : atomic [] s.
Proof. done. Qed.

Lemma engine_execute_refused c (s s' : MessagingService S) e : engine_execute c s = (s', Err e) -> s' = s.
Proof.
  unfold engine_execute. pose proof (execute_refused (svc_engine s) c) as H. destruct (execute _ _) as [st [evs|e']]; [done|].
  simpl in H. intros [= <- _]. rewrite (H e' eq_refl). by destruct s.
Qed.

Lemma atomic_one c s : atomic [c] s.
Proof.
  intros s' e. cbn [collect_each]. unfold mbind, state_bind. destruct (engine_execute c s) as [s1 [evs|e1]] eqn:E; [done|].
  intros [= <- _]. by apply engine_execute_refused in E.
Qed.

Lemma atomic_two c1 c2 (s : MessagingService S) :
  (forall st' evs, execute (svc_engine s) c1 = (st', Ok evs) -> is_ok (snd (execute st' c2)) = true) ->
  atomic [c1; c2] s.
Proof.
  intros Hf s' e. cbn [collect_each]. unfold mbind at 1, state_bind at 1.
  destruct (engine_execute c1 s) as [s1 [evs|e1]] eqn:E.
  2:{ intros [= <- _]. by apply engine_execute_refused in E. }
  unfold engine_execute in E. destruct (execute (svc_engine s) c1) as [st1 [evs1|e1]] eqn:E1; [|done].
  injection E as <- <-. specialize (Hf st1 evs1 eq_refl). unfold mbind, state_bind, engine_execute. fields.
  destruct (execute st1 c2) as [st2 [evs2|e2]]; done.
Qed.

Lemma project_command_atomic actor command now s : atomic (project_command (svc_engine s) actor command now) s.
Proof.
  destruct command; simpl; try apply atomic_nil; try apply atomic_one.
  - destruct (contains_key _ _); apply atomic_one.
  - apply atomic_two, acknowledge_follows.
  - destruct (should_mark_message_read _ _ _ _) eqn:Hs; [|apply atomic_one].
    unfold should_mark_message_read in Hs. apply andb_true_iff in Hs as [_ Hs].
    destruct (find_message _ _ _) as [m|] eqn:Hm; [|done]. apply atomic_two. by apply delivery_follows with m.
Qed.

Lemma project_command_length actor command now st : (length (project_command st actor command now) <= 2)%nat.
Proof. destruct command; simpl; repeat case_match; simpl; lia. Qed.

(** Commands keep the engine coherent. *)
Lemma commands_wf l : forall (s s' : MessagingService S) r,
  state_wf (svc_engine s) -> entries_count (svc_engine s) + Z.of_nat (length l) <= u64_max ->
  collect_each engine_execute l s = (s', r) ->
  state_wf (svc_engine s')
  /\ entries_count (svc_engine s) <= entries_count (svc_engine s') <= entries_count (svc_engine s) + Z.of_nat (length l).
Proof.
  induction l as [|c l IH]; intros s s' r Hwf Hroom E; [injection E as <- _; split; [done|simpl; lia]|].
  cbn [collect_each length] in *. unfold mbind at 1, state_bind at 1 in E.
  destruct (execute_wf (svc_engine s) c Hwf ltac:(lia)) as [Hwf1 Hc1].
  destruct (engine_execute c s) as [s1 [evs|e]] eqn:E1; unfold engine_execute in E1;
    destruct (execute (svc_engine s) c) as [st1 r1]; injection E1 as <- E1; simpl in *;
    [|injection E as <- _; fields; split; [done|lia]].
  unfold mbind, state_bind in E. destruct (collect_each engine_execute l _) as [s2 r2] eqn:E2.
  destruct (IH (s ⟪ svc_engine := st1 ⟫) s2 r2) as [Hwf2 Hc2]; fields; [done|lia|done|].
  assert (s' = s2) as -> by (destruct r2; by injection E). split; [done|lia].
Qed.
(** ** Every request keeps the service in order *)

(** What is stored is a coherent state. *)
Definition stored_wf (m : MemoryStateStore) : Prop :=
  match mem_snapshot m with Some snapshot => state_wf (snap_state snapshot) | None => True end.

Definition error_of {A : Type} (r : service_result A) : option MessagingServiceError :=
  match r with Ok _ => None | Err e => Some e end.

(** From [s] to [s'], which ended with [error] or without one: the journal grown,
    the store no later than the service, at most [n] more entries in the ledger;
    and, unless the store refused a save, in order if it was. *)
Definition kept (n : Z) (s : MessagingService S) (m : MemoryStateStore) (s' : MessagingService S)
    (error : option MessagingServiceError) : Prop :=
  exists m' l, trails entry_clean s' m' /\ stored_wf m' /\ extends m m' l /\ state_wf (svc_engine s')
    /\ entries_count (svc_engine s) <= entries_count (svc_engine s') <= entries_count (svc_engine s) + n
    /\ ((exists e, error = Some e /\ refusal_error (S := S) e) \/ (service_ok s m -> service_ok s' m')).

(** Where a request starts from. *)
Record sound (s : MessagingService S) (m : MemoryStateStore) : Prop := {
  so_trails : trails entry_clean s m;
  so_stored : stored_wf m;
  so_wf : state_wf (svc_engine s);
  so_cursor : svc_cursor s <= u64_max;
}.

Definition upholds {A : Type} (n : Z) (f : StateM (MessagingService S) MessagingServiceError A) : Prop :=
  forall s m s' r, sound s m -> entries_count (svc_engine s) + n <= u64_max -> f s = (s', r) -> svc_cursor s' < u64_max ->
  kept n s m s' (error_of r).

Lemma sound_room s m : sound s m -> 0 <= svc_cursor s <= u64_max.
Proof. intros Hs. split; [eapply trails_room, so_trails, Hs|apply (so_cursor _ _ Hs)]. Qed.

Lemma kept_refl n s m error : 0 <= n -> sound s m -> kept n s m s error.
Proof.
  intros Hn [H1 H2 H3 H4]. exists m, []. split_and!; [done|done|apply extends_refl, (tr_wf _ _ _ H1)|done|lia|lia|by right].
Qed.

Lemma upholds_same {A : Type} n (f : StateM (MessagingService S) MessagingServiceError A) :
  0 <= n -> (forall s, fst (f s) = s) -> upholds n f.
Proof. intros Hn Hf s m s' r Hs _ E _. specialize (Hf s). rewrite E in Hf. simpl in Hf. subst s'. by apply kept_refl. Qed.

Lemma upholds_more {A : Type} n k (f : StateM (MessagingService S) MessagingServiceError A) : n <= k -> upholds n f -> upholds k f.
Proof.
  intros Hn Hf s m s' r Hs Hroom E Hmax. destruct (Hf s m s' r Hs ltac:(lia) E Hmax) as (m' & l & ? & ? & ? & ? & ? & ?).
  exists m', l. split_and!; done || lia.
Qed.

Lemma upholds_bind {A B : Type} n k (f : StateM (MessagingService S) MessagingServiceError A) g :
  0 <= k -> grows f -> (forall a, grows (g a)) -> upholds n f -> (forall a, upholds k (g a)) ->
  upholds (n + k) (f ≫= g : StateM (MessagingService S) MessagingServiceError B).
Proof.
  intros Hk Gf Gg Hf Hg s m s' r Hs Hroom E Hmax. unfold mbind, state_bind in E.
  pose proof (Gf s (sound_room _ _ Hs)) as G1. destruct (f s) as [s1 [a|e]] eqn:E1; simpl in G1.
  - pose proof (Gg a s1 ltac:(pose proof (sound_room _ _ Hs); lia)) as G2. rewrite E in G2. simpl in G2.
    destruct (Hf s m s1 _ Hs ltac:(lia) E1 ltac:(lia)) as (m1 & l1 & T1 & S1 & X1 & W1 & C1 & O1).
    destruct (Hg a s1 m1 s' r) as (m2 & l2 & T2 & S2 & X2 & W2 & C2 & O2); [split; done || lia|lia|done|done|].
    exists m2, (l1 ++ l2)%list. split_and!; [done|done|by eapply extends_trans|done|lia|lia|].
    destruct O2 as [O2|O2]; [by left|]. destruct O1 as [(e & [=] & _)|O1]. right. auto.
  - injection E as <- <-. destruct (Hf s m s1 _ Hs ltac:(lia) E1 Hmax) as (m1 & l1 & T1 & S1 & X1 & W1 & C1 & O1).
    exists m1, l1. split_and!; done || lia.
Qed.

Lemma upholds_settle initiator now : upholds 0 (settle_expired_messages initiator now).
Proof.
  intros s m s' r Hs _ E Hmax. destruct Hs as [Ht Hst Hwf Hc]. pose proof (settle_wallet _ _ _ _ _ E) as Hw.
  destruct (settle_outcome s m initiator now s' r Ht Hwf E Hmax) as (Hwf' & _ & Hr).
  assert (Hcount : entries_count (svc_engine s') = entries_count (svc_engine s)) by (unfold entries_count; by rewrite Hw).
  destruct r as [u|e].
  - destruct Hr as (m' & l & Ht' & Hext & Hsame). exists m', l.
    split_and!; [done| |done|done|lia|lia|right; intros Hok; by destruct Hsame as [[-> ->]|[? _]]].
    destruct Hsame as [[_ ->]|[_ Hsnap]]; [done|]. unfold stored_wf. by rewrite Hsnap.
  - destruct Hr as [He Ht']. exists m, []. split_and!; [done|done|by apply extends_refl, (tr_wf _ _ _ Ht')|done|lia|lia|].
    left. by exists e.
Qed.

(** Recording what a change announces. *)
Lemma kept_recorded n s s1 m initiator responses now s' r :
  sound s m -> svc_store s1 = svc_store s -> svc_cursor s <= svc_cursor s1 <= u64_max ->
  Forall (fun r => env_cursor r = Some (display (svc_cursor s1))) responses ->
  (responses <> [] -> svc_cursor s < svc_cursor s1) ->
  state_wf (svc_engine s1) ->
  entries_count (svc_engine s) <= entries_count (svc_engine s1) <= entries_count (svc_engine s) + n ->
  record_responses initiator responses now s1 = (s', r) -> kept n s m s' (error_of r).
Proof.
  intros [Ht Hst Hwf Hc] H1 H2 H3 H4 Hwf1 Hcount E.
  destruct (record_outcome entry_clean journal_entries_clean s s1 m initiator responses now s' r Ht H1 H2 H3 H4 E)
    as (He & Hcur & Hr). rewrite <- He in Hwf1, Hcount. destruct r as [u|e].
  - destruct Hr as (m' & Hok & Hext & Hsnap). eexists m', _.
    split_and!; [by apply synced_trails| |exact Hext|done|lia|lia|by right]. unfold stored_wf. by rewrite Hsnap.
  - destruct Hr as [Hrefused Ht']. exists m, []. split_and!; [done|done|by apply extends_refl, (tr_wf _ _ _ Ht')|done|lia|lia|].
    left. by exists e.
Qed.

Lemma recorded_cursor initiator responses now (s s' : MessagingService S) r :
  record_responses initiator responses now s = (s', r) -> svc_cursor s' = svc_cursor s.
Proof.
  unfold record_responses, persist_with_events, mbind, state_bind, get_state. simpl.
  destruct (store_save_with_events _ _ _). intros [= <- _]. by fields.
Qed.

Lemma upholds_single actor event now : upholds 0 (single_service_event actor event now).
Proof.
  intros s m s' r Hs _ E Hmax. pose proof (sound_room _ _ Hs) as H0.
  set (c := saturating_add_u64 (svc_cursor s) 1). set (s1 := s ⟪ svc_cursor := c ⟫).
  assert (Hrun : exists rr, record_responses actor [envelope_at c now event] now s1 = (s', rr) /\ error_of rr = error_of r).
  { revert E. unfold single_service_event, advance_cursor, modify, get_state, mbind, state_bind, mret, state_ret. simpl.
    fold c s1. unfold s1. fields. fold s1. destruct (record_responses _ _ _ s1) as [s2 [u|e]]; intros [= <- <-]; by eexists. }
  destruct Hrun as (rr & Hrun & <-). pose proof (recorded_cursor _ _ _ _ _ _ Hrun) as Hc'.
  assert (Hc : c = svc_cursor s + 1).
  { apply saturating_below; [lia|done|]. fold c. revert Hc'. subst s1. fields. intros <-. done. }
  eapply (kept_recorded 0 s s1 m); [exact Hs|by subst s1; fields| | | | | |exact Hrun]; subst s1; fields;
    [lia|by apply list.Forall_cons|lia|apply Hs|lia].
Qed.

Lemma upholds_deliver actor now : upholds 0 (mark_direct_messages_delivered actor now).
Proof.
  intros s m s' r Hs _ E Hmax. pose proof (so_wf _ _ Hs) as Hwf.
  unfold mark_direct_messages_delivered in E. rewrite (bind_run _ _ s s s eq_refl) in E.
  case_bool_decide; [injection E as <- _; by apply kept_refl|].
  destruct (deliver_loop _ s (pending_present (svc_engine s) actor Hwf)) as (st' & events & E1 & Hwf').
  pose proof (loop_wallet (fun p : ConversationId * MessageId => SetDeliveryState p.1 p.2 Delivered)
    (pending_deliveries (svc_engine s) actor) s (fun _ => eq_refl)) as Hw. cbv beta in Hw. rewrite E1 in Hw. change (st_wallet st' = st_wallet (svc_engine s)) in Hw.
  rewrite (bind_run _ _ _ _ _ E1) in E.
  destruct (announce_outcome entry_clean journal_entries_clean s (s ⟪ svc_engine := st' ⟫) m events actor now s' r (so_trails _ _ Hs))
    as [He Hr]; [done|done|exact E|exact Hmax|]. revert He. fields. intros He.
  assert (Hcount : entries_count (svc_engine s') = entries_count (svc_engine s)) by (unfold entries_count; by rewrite He, Hw).
  assert (Hwf2 : state_wf (svc_engine s')) by (rewrite He; by apply Hwf').
  destruct r as [u|e].
  - destruct Hr as (m' & l & Hok & Hext & Hsnap). exists m', l.
    split_and!; [by apply synced_trails| |done|done|lia|lia|by right]. unfold stored_wf. by rewrite Hsnap.
  - destruct Hr as [Hrefused Ht]. exists m, []. split_and!; [done|apply (so_stored _ _ Hs)|by apply extends_refl, (tr_wf _ _ _ Ht)|done|lia|lia|].
    left. by exists e.
Qed.

Lemma upholds_commands actor command now : upholds 2 (execute_commands actor command now).
Proof.
  intros s m s' r Hs Hroom E Hmax. pose proof (sound_room _ _ Hs) as H0. pose proof (so_wf _ _ Hs) as Hwf.
  unfold execute_commands in E. rewrite (bind_run _ _ s s s eq_refl) in E.
  unfold mbind at 1, state_bind at 1, try_with in E.
  destruct (idempotent_send_replay _ _ _ _ _) as [[replay|]|e1]; [injection E as <- _; by apply kept_refl| |injection E as <- _; by apply kept_refl].
  unfold mbind at 1, state_bind at 1 in E.
  destruct (collect_each engine_execute _ s) as [s1 [events|e1]] eqn:E1.
  2:{ injection E as <- _. apply project_command_atomic in E1 as ->. by apply kept_refl. }
  case_bool_decide as Hnil.
  { injection E as <- _. apply (loop_engine id) in E1. rewrite Hnil in E1. subst s1.
    replace (s ⟪ svc_engine := apply_events [] (svc_engine s) ⟫) with s by (by destruct s). by apply kept_refl. }
  pose proof (project_command_length actor command now (svc_engine s)) as Hlen.
  edestruct commands_wf as [Hwf1 Hc1]; [exact Hwf| |exact E1|]; [lia|].
  apply (loop_store id) in E1 as [H1 H2].
  set (c := saturating_add_u64 (svc_cursor s1) (Z.of_nat (length events))). set (s2 := s1 ⟪ svc_cursor := c ⟫).
  set (rs := (omap (fun e => project_event (svc_engine s1) c actor e now) events
    ++ ((fun invocation => envelope_at c now (SE_BotInvocationRequested invocation)) <$>
        flat_map (bot_invocations_for_message (svc_engine s1)) (queued_messages events)))%list).
  assert (Hrun : exists rr, record_responses actor rs now s2 = (s', rr) /\ error_of rr = error_of r).
  { revert E. unfold advance_cursor, project_events, modify, get_state, mbind, state_bind, mret, state_ret. simpl.
    fold c. fold s2. fold rs. destruct (record_responses actor rs now s2) as [s3 [u|e2]]; intros [= <- <-]; by eexists. }
  destruct Hrun as (rr & Hrec & <-). pose proof (recorded_cursor _ _ _ _ _ _ Hrec) as Hc'.
  assert (Hpos : (0 < length events)%nat) by (destruct events; [done|simpl; lia]).
  assert (Hc : c = svc_cursor s + Z.of_nat (length events)).
  { assert (Hlt : c < u64_max) by (replace c with (svc_cursor s2) by (subst s2; by fields); by rewrite <- Hc').
    unfold c in Hlt |- *. rewrite H2 in Hlt |- *. apply saturating_below; [lia|lia|exact Hlt]. }
  eapply (kept_recorded 2 s s2 m); [exact Hs|by subst s2; fields| | | | | |exact Hrec]; subst s2; fields; [lia| |lia|done|lia].
  apply Forall_app. split; [fields; apply projected_cursor|]. by apply Forall_fmap, list.Forall_true.
Qed.

Lemma upholds_blob {A : Type} (f : FileBlobStore -> FileBlobStore * result BlobStoreError A) : upholds 0 (blob_call f).
Proof.
  intros s m s' r [Ht Hst Hwf Hc] _ E _. unfold blob_call in E.
  destruct (svc_blob_store s); [|injection E as <- _; by apply kept_refl].
  destruct (f _) as [b x]. injection E as <- _. exists m, []. fields. split_and!; [|done| |done|lia|lia|].
  - by destruct Ht; split; fields.
  - apply extends_refl, (tr_wf _ _ _ Ht).
  - right. by apply synced_blobs.
Qed.

Lemma upholds_get n : 0 <= n -> upholds n (get_state (S := MessagingService S)).
Proof. intros Hn. by apply upholds_same. Qed.
Lemma upholds_try {A : Type} n (f : MessagingService S -> service_result A) : 0 <= n -> upholds n (try_with f).
Proof. intros Hn. by apply upholds_same. Qed.
Lemma upholds_fail {A : Type} n (e : MessagingServiceError) : 0 <= n -> upholds (A := A) n (fail e).
Proof. intros Hn. by apply upholds_same. Qed.
Lemma upholds_ret {A : Type} n (a : A) : 0 <= n -> upholds n (mret a).
Proof. intros Hn. by apply upholds_same. Qed.

Lemma upholds_then {A B : Type} (f : StateM (MessagingService S) MessagingServiceError A) g :
  grows f -> (forall a, grows (g a)) -> upholds 0 f -> (forall a, upholds 0 (g a)) ->
  upholds 0 (f ≫= g : StateM (MessagingService S) MessagingServiceError B).
Proof. intros H1 H2 H3 H4. change 0 with (0 + 0). by apply upholds_bind. Qed.
End integrity.

Create HintDb upholds.
#[export] Hint Resolve upholds_get upholds_try upholds_fail upholds_ret upholds_settle upholds_single upholds_deliver upholds_commands upholds_blob : upholds.
#[export] Hint Extern 1 (0 <= _) => lia : upholds.
#[export] Hint Resolve grows_single grows_typing grows_deliver grows_settle grows_commands grows_command : grows.

Ltac prove_upholds :=
  repeat first [ progress (eauto 2 with upholds nocore) | apply upholds_then; [solve [prove_grows]|intros ?; prove_grows| |intros ?] | case_match ].

Section runs.
Context {S : Type} `{MSS : MessagingStateStore S, RM : !RefinesMemory S}.
Context `{U : UnicodeCase, D : StrDebug, UT : UnicodeText, BC : BlobCodec, SVC : ServiceCrypto, HMAC : SettlementCrypto}.

Lemma upholds_typing actor id action expires now : upholds (S := S) 0 (typing_event actor id action expires now).
Proof. unfold typing_event. prove_upholds. Qed.
#[local] Hint Resolve upholds_typing : upholds.

Lemma upholds_command actor command now : upholds (S := S) 2 (handle_command actor command now).
Proof.
  assert (H02 : 0 <= 2) by lia.
  destruct command; try (apply upholds_commands); simpl; apply (upholds_more 0 2); try done; prove_upholds.
Qed.

(** Every request, whatever comes of it. *)
Lemma upholds_handle envelope now : upholds (S := S) 2 (handle envelope now).
Proof.
  unfold handle. destruct (negb _); [by apply upholds_fail|]. cbv zeta. change 2 with (0 + 2).
  apply upholds_bind; [done|prove_grows|intros ?; prove_grows|by apply upholds_try|intros _]. change 2 with (0 + 2).
  apply upholds_bind; [done|prove_grows|intros ?; prove_grows|apply upholds_settle|intros _]. apply upholds_command.
Qed.

Lemma service_sound (s : MessagingService S) m :
  service_ok s m -> state_wf (svc_engine s) -> svc_cursor s <= u64_max -> sound s m.
Proof.
  intros Hs Hwf Hc. split; [by apply synced_trails| |done|done]. unfold stored_wf. pose proof (sy_state _ _ _ Hs) as Hst.
  destruct (mem_snapshot m); [by rewrite Hst|done].
Qed.

(** An answered request leaves a service in order as it was. *)
Lemma handle_kept envelope now (s s' : MessagingService S) m responses : service_ok s m -> state_wf (svc_engine s) -> svc_cursor s <= u64_max ->
  entries_count (svc_engine s) + 2 <= u64_max ->
  handle envelope now s = (s', Ok responses) -> svc_cursor s' < u64_max ->
  exists m' l, service_ok s' m' /\ extends m m' l /\ state_wf (svc_engine s').
Proof.
  intros Hs Hwf Hc Hroom E Hmax.
  pose proof (service_sound s m Hs Hwf Hc) as Hsound.
  destruct (upholds_handle envelope now s m s' _ Hsound Hroom E Hmax) as (m' & l & _ & _ & Hext & Hwf' & _ & Hok).
  exists m', l. destruct Hok as [(e & [=] & _)|Hok]. auto.
Qed.

(** ** Runs of requests *)

(** Requests one after the other, refused ones included, and the answers. *)
Definition serve_all (requests : list (ClientEnvelope * Z)) (s : MessagingService S) : MessagingService S :=
  foldl (fun s p => fst (handle p.1 p.2 s)) s requests.

Fixpoint answers_of (requests : list (ClientEnvelope * Z)) (s : MessagingService S) :
    list (service_result (list ServerEnvelope)) :=
  match requests with
  | [] => []
  | p :: rest => let (s', r) := handle p.1 p.2 s in r :: answers_of rest s'
  end.

(** An answer that is an error of the store. *)
Definition store_failed {A : Type} (r : service_result A) : bool :=
  match r with Err (ServiceStore _) => true | _ => false end.

Lemma serve_all_grows requests (s : MessagingService S) : cursor_grows s (serve_all requests s).
Proof.
  revert s. induction requests as [|[envelope now] rest IH]; intros s; [done|].
  transitivity (fst (handle envelope now s)); [apply grows_handle|apply IH].
Qed.

(** In order at the end, if it was at the start and no answer is an error of the store. *)
Lemma serve_all_kept requests : forall (s : MessagingService S) m, sound s m ->
  entries_count (svc_engine s) + 2 * Z.of_nat (length requests) <= u64_max ->
  svc_cursor (serve_all requests s) < u64_max ->
  exists m' l, sound (serve_all requests s) m' /\ extends m m' l
    /\ (service_ok s m -> Forall (fun r => store_failed r = false) (answers_of requests s) -> service_ok (serve_all requests s) m').
Proof.
  induction requests as [|[envelope now] rest IH]; intros s m Hs Hroom Hmax.
  { exists m, []. split_and!; [done|apply extends_refl, (tr_wf _ _ _ (so_trails _ _ Hs))|done]. }
  cbn [length serve_all foldl fst snd answers_of] in *. pose proof (sound_room _ _ Hs) as H0.
  destruct (handle envelope now s) as [s1 r] eqn:E. cbn [fst] in *.
  change (foldl (fun s p => fst (handle p.1 p.2 s)) s1 rest) with (serve_all rest s1) in *.
  pose proof (grows_handle envelope now s ltac:(lia)) as G1. rewrite E in G1. simpl in G1.
  pose proof (serve_all_grows rest s1 ltac:(lia)) as G2.
  destruct (upholds_handle envelope now s m s1 r Hs ltac:(lia) E ltac:(lia)) as (m1 & l1 & T1 & S1 & X1 & W1 & C1 & O1).
  destruct (IH s1 m1) as (m2 & l2 & Hs2 & X2 & O2); [split; done || lia|lia|done|].
  exists m2, (l1 ++ l2)%list. split_and!; [done|by eapply extends_trans|].
  intros Hok [Hr Hrest]%list.Forall_cons. apply O2; [|done]. destruct O1 as [(e & He & snapshot & events & x & _ & ->)|O1]; [|auto].
  destruct r; [done|]. injection He as ->. done.
Qed.

(** C3: No request leaves the service out of order.  Whatever requests arrive,
    answered or refused, at whatever point a refused one stopped, and whatever
    saves the store refuses: the engine's state stays coherent, and the store
    still holds a coherent state, of a cursor not later than the service's, and
    the journal it held with newer entries, well-formed and free of private
    data.  If no answer was an error of the store, it holds exactly what the
    service knows, so that loading it again gives the same engine state and the
    same cursor; and in any case loading it gives a coherent service.  (What is
    loaded is taken to read back as it was written.) *)
Theorem service_survives_restart (store : S) (m : MemoryStateStore) (s : MessagingService S)
    (requests : list (ClientEnvelope * Z)) :
  stands_for store m -> store_wf m -> Forall entry_clean (mem_journal m) -> reads_back (S := S) m ->
  service_load store = Ok s -> state_wf (svc_engine s) -> svc_cursor s <= u64_max ->
  entries_count (svc_engine s) + 2 * Z.of_nat (length requests) <= u64_max ->
  let s' := serve_all requests s in
  svc_cursor s' < u64_max ->
  state_wf (svc_engine s')
  /\ exists m' entries,
       stands_for (svc_store s') m' /\ store_wf m' /\ Forall entry_clean (mem_journal m')
       /\ stored_wf m' /\ mem_current m' <= svc_cursor s' /\ extends m m' entries
       /\ (Forall (fun r => store_failed r = false) (answers_of requests s) -> service_ok s' m')
       /\ (reads_back (S := S) m' ->
            (exists restarted, service_load (svc_store s') = Ok restarted /\ state_wf (svc_engine restarted)
               /\ svc_cursor restarted = mem_current m')
            /\ (Forall (fun r => store_failed r = false) (answers_of requests s) ->
                 service_load (svc_store s')
                 = Ok {| svc_engine := svc_engine s'; svc_store := svc_store s'; svc_blob_store := None;
                         svc_cursor := svc_cursor s' |})).
Proof.
  intros Hst Hwf Hq Hb Hload Hswf Hc Hroom s' Hmax.
  pose proof (load_synced entry_clean _ _ _ Hst Hwf Hq Hb Hload) as Hs.
  pose proof (service_sound s m Hs Hswf Hc) as Hsound.
  destruct (serve_all_kept requests s m Hsound Hroom Hmax) as (m' & l & [Ht Hstored Hwf' _] & Hext & Hok).
  specialize (Hok Hs). split; [done|]. exists m', l. destruct Ht as [T1 T2 T3 T4]. split_and!; try done.
  intros Hb'. split; [|intros Hall; apply (synced_load entry_clean s' m'); auto; by apply Hok]. unfold service_load. rewrite (load_refines (svc_store s') m' T1 T2 Hb').
  unfold memory_load, mem_current, stored_wf in *. simpl. eexists. split; [done|].
  destruct (mem_snapshot m'); [done|]. by split; [apply state_wf_empty|].
Qed.
End runs.
