(* ===== verification/ServicePrivacy.v ===== *)
(** * What a synchronising client is shown: all it may see, and nothing else *)

From S2P Require Import Prelude Text Maps Conversation Message Payment Wallet Apps Community EngineTypes EngineCore Engine EngineInvariant EngineMessaging Settlement StateError Search BlobStore Protocol Store ServiceView ServiceJournal ServiceCommand MessagingService ServicePersistence ServiceSync ServiceExpiry.

(** ** Who is entitled to what *)

Definition may_administer (c : CommunityState) (actor : ActorId) : bool :=
  member_is c actor (has_status [StOwner; StAdministrator]).

Definition may_invite (c : CommunityState) (actor : ActorId) : bool :=
  member_is c actor (fun m => has_status [StOwner] m
    || (has_status [StAdministrator] m && ar_invite_members (cm_admin_rights m))).

(** A community that keeps from the actor what the actor is not entitled to:
    the audit log and the join requests are for administrators, the tokens of
    invitations and the join requests for those who may invite. *)
Definition community_discreet (st : MessagingState) (actor : ActorId) (c : CommunityState) : Prop :=
  exists c0, st_communities st !! cs_conversation_id c = Some c0
    /\ (may_administer c0 actor = false -> cs_admin_log c = [] /\ cs_pending_join_requests c = ∅)
    /\ (may_invite c0 actor = false ->
        cs_pending_join_requests c = ∅ /\ map_Forall (fun _ i => il_token i = "") (cs_invite_links c)).

Definition sees (st : MessagingState) (actor : ActorId) (id : ConversationId) : Prop :=
  exists c, st_conversations st !! id = Some c /\ actor_can_see_conversation st actor c = true.

Definition party_to_order (st : MessagingState) (actor : ActorId) (o : PaymentOrder) : Prop :=
  order_buyer_id o = actor
  \/ exists i, st_invoices st !! order_invoice_id o = Some i /\ inv_seller_id i = actor.

(** A snapshot that shows the actor only what concerns it. *)
Record batch_discreet (st : MessagingState) (actor : ActorId) (now : Z) (b : SyncBatch) : Prop := {
  bd_conversations : Forall (fun c => sees st actor (conv_id c)) (sb_conversations b);
  bd_messages : Forall (fun m => sees st actor (msg_conversation_id m)
                                 /\ msg_deleted m && is_expired m now = false) (sb_messages b);
  bd_communities : Forall (community_discreet st actor) (sb_communities b);
  bd_invoices : Forall (fun i => sees st actor (inv_conversation_id i)) (sb_invoices b);
  bd_orders : Forall (party_to_order st actor) (sb_orders b);
}.

Definition response_discreet (st : MessagingState) (actor : ActorId) (now : Z) (r : ServerEnvelope) : Prop :=
  match env_event r with
  | SE_SyncBatch b => batch_discreet st actor now b
  | SE_CommunityChanged c => community_clean c
  | _ => True
  end.

(** ** Membership in the lists of a snapshot *)

Lemma elem_of_lookup_each {K V : Type} `{Countable K, !BTreeKey K} (m : gmap K V) (ids : gset K) (v : V) :
  v ∈ lookup_each m ids <-> exists k, k ∈ ids /\ m !! k = Some v.
Proof.
  unfold lookup_each. rewrite list_elem_of_omap. split; intros (k & Hk & Hv); exists k;
    by rewrite elem_of_btree_elements in *.
Qed.

Lemma elem_of_bounded {A : Type} (n : nat) (l : list A) (x : A) : x ∈ take n l -> x ∈ l.
Proof. apply (subseteq_take _ _). Qed.

Section privacy.
Variable st : MessagingState.
Variable actor : ActorId.
Variables cursor limit now : Z.
Hypothesis Hwf : state_wf st.

Lemma elem_of_visible id : id ∈ visible_conversations st actor <-> sees st actor id.
Proof.
  unfold visible_conversations, sees. rewrite elem_of_list_to_set, list_elem_of_fmap. split.
  - intros (c & -> & [Hc (k & Hk)%elem_of_btree_values]%list_elem_of_filter).
    destruct (sw_conversations _ Hwf k c Hk) as [<- _]. by exists c.
  - intros (c & Hc & Hs). exists c. destruct (sw_conversations _ Hwf id c Hc) as [<- _]. split; [done|].
    apply list_elem_of_filter. split; [done|]. apply elem_of_btree_values. by eexists.
Qed.

Lemma project_discreet id c : st_communities st !! id = Some c ->
  community_discreet st actor (project_community_for_actor st actor c now).
Proof.
  intros Hc. pose proof (sw_communities _ Hwf id c Hc) as (Hid & _ & _). subst id.
  exists c. unfold project_community_for_actor, may_administer, may_invite.
  destruct (member_is c actor (has_status [StOwner; StAdministrator])), (member_is c actor (fun m => _)); fields;
    split_and!; try done; intros _; split; try done;
    intros id i; rewrite lookup_fmap; destruct (cs_invite_links c !! id); simpl; try done; intros [= <-]; by fields.
Qed.

Lemma projected_message m : msg_conversation_id (project_message_for_actor st actor m) = msg_conversation_id m
  /\ msg_deleted (project_message_for_actor st actor m) = msg_deleted m
  /\ msg_expires_at_ms (project_message_for_actor st actor m) = msg_expires_at_ms m.
Proof. unfold project_message_for_actor. case_match; by fields. Qed.

Lemma batch_is_discreet : batch_discreet st actor now (sync_batch st cursor actor limit now).
Proof.
  split; apply list.Forall_forall; simpl.
  - intros c (c0 & -> & (k & Hk & Hc)%elem_of_lookup_each)%list_elem_of_fmap. apply elem_of_visible in Hk.
    destruct (sw_conversations _ Hwf k c0 Hc) as [Hid _]. unfold project_conversation_for_actor.
    case_match; fields; by rewrite Hid.
  - intros m (m0 & -> & Hm)%list_elem_of_fmap. apply elem_of_bounded, list_elem_of_filter in Hm as [Hd Hm].
    destruct (projected_message m0) as (E1 & E2 & E3). unfold is_expired. rewrite E1, E2, E3.
    split; [|by apply negb_true_iff in Hd].
    apply list_elem_of_In, in_flat_map in Hm as (ms & Hms%list_elem_of_In & Hin%list_elem_of_In).
    apply elem_of_lookup_each in Hms as (k & Hk%elem_of_visible & Hms).
    apply elem_of_btree_values in Hin as [mid Hin].
    destruct (sw_messages _ Hwf k ms Hms) as [_ Hall]. by destruct (Hall mid m0 Hin) as [_ ->].
  - intros c (c0 & -> & Hc)%list_elem_of_fmap. apply elem_of_bounded, elem_of_lookup_each in Hc as (k & _ & Hk).
    by eapply project_discreet.
  - intros i Hi. apply elem_of_bounded, list_elem_of_filter in Hi as [Hi _]. by apply elem_of_visible.
  - intros o Ho. apply elem_of_bounded, list_elem_of_filter in Ho as [Ho _]. apply orb_true_iff in Ho as [Ho|Ho].
    + left. by apply eqb_true in Ho.
    + right. destruct (st_invoices st !! order_invoice_id o) as [i|]; [|done]. exists i. split; [done|]. by apply eqb_true in Ho.
Qed.
End privacy.

(** A snapshot's navigation index is complete: whatever the limit, it has
    every conversation the actor can see and no other, and exactly the known
    actors who are the client itself, a participant of such a conversation that
    sees it, or a current member or subscriber of its community. *)
Theorem snapshot_index_is_complete (st : MessagingState) (actor : ActorId) (cursor limit now : Z) :
  state_wf st ->
  let b := sync_batch st cursor actor limit now in
  (forall id, id ∈ conv_id <$> sb_conversations b <-> sees st actor id)
  /\ (forall a, a ∈ sb_actors b <->
        exists id, st_actors st !! id = Some a
          /\ (id = actor \/ exists cid c, sees st actor cid /\ st_conversations st !! cid = Some c
                                          /\ id ∈ conversation_actors st c)).
Proof.
  intros Hwf b. subst b. simpl. split.
  - intros id. rewrite list_elem_of_fmap. split.
    + intros (c & -> & (c0 & -> & (k & Hk%elem_of_visible & Hc)%elem_of_lookup_each)%list_elem_of_fmap); [|done].
      destruct (sw_conversations _ Hwf k c0 Hc) as [Hid _].
      assert (conv_id (project_conversation_for_actor st actor c0 now) = k) as ->; [|done].
      unfold project_conversation_for_actor. case_match; by fields.
    + intros Hs. pose proof Hs as (c0 & Hc & _). destruct (sw_conversations _ Hwf id c0 Hc) as [Hid _].
      exists (project_conversation_for_actor st actor c0 now).
      split; [unfold project_conversation_for_actor; case_match; by fields|].
      apply list_elem_of_fmap. exists c0. split; [done|]. apply elem_of_lookup_each. exists id.
      by rewrite elem_of_visible.
  - intros a. rewrite elem_of_lookup_each. apply exist_proper. intros id.
    enough (id ∈ visible_actors st actor <->
            id = actor \/ exists cid c, sees st actor cid /\ st_conversations st !! cid = Some c
                                        /\ id ∈ conversation_actors st c) by tauto.
    unfold visible_actors. rewrite elem_of_union, elem_of_singleton, elem_of_list_to_set, list_elem_of_In, in_flat_map.
    split.
    + intros [(c & Hc%list_elem_of_In & Hid%list_elem_of_In)|Ha]; [right|by left].
      apply elem_of_lookup_each in Hc as (k & Hk%elem_of_visible & Hc); [|done]. by exists k, c.
    + intros [Ha|(k & c & Hk & Hc & Hid)]; [by right|left]. exists c. split; apply list_elem_of_In; [|done].
      apply elem_of_lookup_each. exists k. by rewrite elem_of_visible.
Qed.

Section sync_privacy.
Context {S : Type} `{MSS : MessagingStateStore S, RM : !RefinesMemory S}.
Context `{U : UnicodeCase, D : StrDebug, UT : UnicodeText, BC : BlobCodec, SVC : ServiceCrypto, HMAC : SettlementCrypto}.

Lemma delivered_clean st actor now e : entry_clean e ->
  response_discreet st actor now (project_journal_envelope_for_actor st actor (je_envelope e) now).
Proof.
  unfold entry_clean, response_discreet, project_journal_envelope_for_actor, public_journal_envelope.
  destruct (env_event (je_envelope e)) eqn:E; intros He; rewrite ?E; fields; rewrite ?E; try done.
  by apply project_clean.
Qed.

Lemma checkpoint_discreet st actor now next : response_discreet st actor now (sync_checkpoint_envelope next now).
Proof. split; constructor. Qed.

(** The entries of a slice are entries of the journal. *)
Lemma slice_loop_entries journal : forall requested limit groups last selected last' more,
  slice_loop journal requested limit groups last = Ok (selected, last', more) -> selected ⊆ journal.
Proof.
  induction journal as [|e rest IH]; intros requested limit groups last selected last' more E; simpl in E.
  { by injection E as <- _ _. }
  destruct (journal_cursor e) as [c|]; simpl in E; [|done].
  destruct (c <=? requested); [apply IH in E; set_solver|].
  destruct (negb _); [destruct (limit <=? groups); [by injection E as <- _ _; set_solver|]|];
    (destruct (slice_loop rest _ _ _ _) as [[[sel l'] mo]|] eqn:El; simpl in E; [|done]);
    injection E as <- _ _; apply IH in El; set_solver.
Qed.

Lemma slice_entries (journal : list JournalEntry) floor current requested limit sl :
  Some <$> slice_journal journal floor current requested limit = Ok (Some sl) -> sl_entries sl ⊆ journal.
Proof.
  unfold slice_journal. destruct (slice_loop _ _ _ _ _) as [[[sel l'] more]|] eqn:E; simpl; [|done].
  intros [= <-]. by eapply slice_loop_entries.
Qed.

(** C6: Synchronising reveals nothing private: whatever cursor and limit a client
    asks with, a snapshot shows it only conversations it can see, their
    invoices, and their messages except the deleted ones that have expired, its
    own orders as a buyer or a seller, and communities without the audit log,
    join requests and invitation tokens it is not entitled to; and what it
    receives from the journal carries none of these at all, as long as what the
    store kept reads back as it was written. *)
Theorem sync_hides_private_data (s : MessagingService S) (m : MemoryStateStore) (actor : ActorId)
    (cursor : option string) (limit now : Z) (responses : list ServerEnvelope) :
  service_ok s m -> reads_back (S := S) m -> state_wf (svc_engine s) ->
  sync_response s actor cursor limit now = Ok responses ->
  Forall (response_discreet (svc_engine s) actor now) responses.
Proof.
  intros [Hst Hwf _ _ Hq] Hb Hswf E.
  assert (Hsnap : Forall (response_discreet (svc_engine s) actor now)
    [sync_envelope (svc_engine s) (svc_cursor s) actor limit now]).
  { apply list.Forall_cons. split; [|done]. unfold response_discreet. simpl. by apply batch_is_discreet. }
  unfold sync_response in E. destruct (cursor ≫= parse_u64) as [requested|]; [|by injection E as <-].
  destruct (_ <? requested); [by injection E as <-|].
  destruct (store_load_event_journal_after _ _ _) as [[slice|]|] eqn:El; simpl in E; [|by injection E as <-|done].
  destruct (_ || _); [by injection E as <-|]. injection E as <-. apply Forall_app. split; [|].
  2:{ apply list.Forall_cons. split; [apply checkpoint_discreet|done]. }
  rewrite (load_after_refines _ m _ _ Hst Hwf Hb) in El. unfold memory_load_event_journal_after in El.
  apply slice_entries in El. apply Forall_fmap, list.Forall_forall. intros e Hin. simpl.
  apply list_elem_of_filter in Hin as [_ Hin]. apply list_elem_of_filter in Hin as [_ Hin].
  apply delivered_clean. rewrite list.Forall_forall in Hq. apply Hq. by apply El.
Qed.
End sync_privacy.

(** ** What a search reveals *)

(** A conversation the actor may search: one it can see, or one whose community
    has a public name. *)
Definition searchable (st : MessagingState) (actor : ActorId) (id : ConversationId) : Prop :=
  sees st actor id
  \/ exists c name, is_Some (st_conversations st !! id) /\ st_communities st !! id = Some c
       /\ cs_public_username c = Some name.

Section search_privacy.
Context `{UT : UnicodeText}.
Variable st : MessagingState.
Variable actor : ActorId.
Hypothesis Hwf : state_wf st.

Lemma elem_of_searchable id : id ∈ searchable_conversations st actor -> searchable st actor id.
Proof.
  unfold searchable_conversations. rewrite elem_of_list_to_set, list_elem_of_fmap.
  intros (c & -> & [Hc (k & Hk)%elem_of_btree_values]%list_elem_of_filter).
  destruct (sw_conversations _ Hwf k c Hk) as [<- _]. apply orb_true_iff in Hc as [Hc|Hc]; [left; by exists c|right].
  destruct (st_communities st !! conv_id c) as [community|] eqn:E; [|done]. simpl in Hc.
  destruct (cs_public_username community) as [name|] eqn:En; [|done]. exists community, name. by split; [eexists|].
Qed.

(** ** Indexing a list adds the list *)

Lemma index_actors_fold l : forall i, index_wf i ->
  let i' := foldl (fun i a => index_actor a i) i l in
  index_wf i' /\ ix_conversations i' = ix_conversations i /\ ix_messages i' = ix_messages i
  /\ (forall k a, ix_actors i' !! k = Some a -> a ∈ l \/ ix_actors i !! k = Some a).
Proof.
  induction l as [|x l IH]; intros i Hi; simpl; [by split_and!; auto|].
  destruct (IH (index_actor x i) (index_actor_wf x i Hi)) as (H1 & H2 & H3 & H4).
  split_and!; [done|by rewrite H2; unfold index_actor; fields|by rewrite H3; unfold index_actor; fields|].
  intros k a Ha. apply H4 in Ha as [Ha|Ha]; [left; by right|]. unfold index_actor in Ha. revert Ha. fields.
  intros [[_ ->]|[_ Ha]]%lookup_insert_Some; [left; by left|by right].
Qed.

Lemma index_conversations_fold l : forall i, index_wf i ->
  let i' := foldl (fun i c => index_conversation c i) i l in
  index_wf i' /\ ix_actors i' = ix_actors i /\ ix_messages i' = ix_messages i
  /\ (forall k c, ix_conversations i' !! k = Some c -> c ∈ l \/ ix_conversations i !! k = Some c).
Proof.
  induction l as [|x l IH]; intros i Hi; simpl; [by split_and!; auto|].
  destruct (IH (index_conversation x i) (index_conversation_wf x i Hi)) as (H1 & H2 & H3 & H4).
  split_and!; [done|by rewrite H2; unfold index_conversation; fields|by rewrite H3; unfold index_conversation; fields|].
  intros k a Ha. apply H4 in Ha as [Ha|Ha]; [left; by right|]. unfold index_conversation in Ha. revert Ha. fields.
  intros [[_ ->]|[_ Ha]]%lookup_insert_Some; [left; by left|by right].
Qed.

Lemma index_messages_fold l : forall i, index_wf i ->
  let i' := foldl (fun i m => index_message m i) i l in
  index_wf i' /\ ix_actors i' = ix_actors i /\ ix_conversations i' = ix_conversations i
  /\ (forall k m, ix_messages i' !! k = Some m -> m ∈ l \/ ix_messages i !! k = Some m).
Proof.
  induction l as [|x l IH]; intros i Hi; simpl; [by split_and!; auto|].
  destruct (IH (index_message x i) (index_message_wf x i Hi)) as (H1 & H2 & H3 & H4).
  split_and!; [done|by rewrite H2; unfold index_message; fields|by rewrite H3; unfold index_message; fields|].
  intros k a Ha. apply H4 in Ha as [Ha|Ha]; [left; by right|]. unfold index_message in Ha. revert Ha. fields.
  intros [[_ ->]|[_ Ha]]%lookup_insert_Some; [left; by left|by right].
Qed.

(** The index of an actor holds the known actors, and the conversations and
    messages that are searchable. *)
Lemma search_index_holds :
  let i := search_index_for st actor in
  index_wf i
  /\ (forall k a, ix_actors i !! k = Some a -> a ∈ btree_values (st_actors st))
  /\ (forall k c, ix_conversations i !! k = Some c ->
        c ∈ btree_values (st_conversations st) /\ conv_id c ∈ searchable_conversations st actor)
  /\ (forall k m, ix_messages i !! k = Some m ->
        msg_deleted m = false /\ m ∈ flat_map btree_values (lookup_each (st_messages st) (searchable_conversations st actor))).
Proof.
  unfold search_index_for.
  destruct (index_actors_fold (btree_values (st_actors st)) empty_index empty_index_wf) as (W1 & C1 & M1 & A1).
  match goal with |- context [foldl _ (foldl _ ?i1 ?lc) ?lm] =>
    destruct (index_conversations_fold lc i1 W1) as (W2 & A2 & M2 & C2);
    destruct (index_messages_fold lm _ W2) as (W3 & A3 & C3 & M3)
  end.
  split_and!; [exact W3| | |].
  - intros k a. rewrite A3, A2. intros [H|H]%A1; [done|]. simpl in H. by rewrite lookup_empty in H.
  - intros k c. rewrite C3. intros [H|H]%C2; [by apply list_elem_of_filter in H as [? ?]|].
    rewrite C1 in H. simpl in H. by rewrite lookup_empty in H.
  - intros k m [H|H]%M3; [by apply list_elem_of_filter in H as [? ?]|].
    rewrite M2, M1 in H. simpl in H. by rewrite lookup_empty in H.
Qed.

Lemma searchable_message m : m ∈ flat_map btree_values (lookup_each (st_messages st) (searchable_conversations st actor)) ->
  find_message st (msg_conversation_id m) (msg_id m) = Some m /\ searchable st actor (msg_conversation_id m).
Proof.
  intros Hm. apply list_elem_of_In, in_flat_map in Hm as (ms & Hms%list_elem_of_In & Hin%list_elem_of_In).
  apply elem_of_lookup_each in Hms as (k & Hk%elem_of_searchable & Hms). apply elem_of_btree_values in Hin as [mid Hin].
  destruct (sw_messages _ Hwf k ms Hms) as [_ Hall]. destruct (Hall mid m Hin) as [<- <-]. split; [|done].
  apply find_message_get. by exists ms.
Qed.
End search_privacy.

(** What a result may reveal to the actor. *)
Definition result_reveals (st : MessagingState) (actor : ActorId) (q : SearchQuery) (r : SearchResult) : Prop :=
  match sr_kind r with
  | FoundActor => exists a, st_actors st !! actor_id a = Some a /\ sr_id r = actor_id_0 (actor_id a)
  | FoundConversation => exists c, st_conversations st !! conv_id c = Some c /\ searchable st actor (conv_id c)
      /\ sr_conversation_id r = Some (conv_id c)
  | FoundMessage => exists m, find_message st (msg_conversation_id m) (msg_id m) = Some m
      /\ searchable st actor (msg_conversation_id m) /\ msg_deleted m = false
      /\ message_skipped q (msg_conversation_id m) m = false
      /\ sr_conversation_id r = Some (msg_conversation_id m) /\ sr_id r = message_id_0 (msg_id m)
  end.

(** C24: A search reveals only what the actor may search: every result is a known
    actor, or a conversation the actor can see or that is public, or a message of
    such a conversation that is there, is not deleted and passes the filters of
    the query; and it matches a term of the query. *)
Theorem search_reveals_only_searchable `{UT : UnicodeText} (st : MessagingState) (actor : ActorId) (q : SearchQuery) :
  state_wf st ->
  forall r, r ∈ search (search_index_for st actor) q -> result_reveals st actor q r /\ 0 < sr_score r.
Proof.
  intros Hwf r Hr. destruct (search_index_holds st actor) as (Hi & Ha & Hc & Hm).
  apply hits_ranked, hits_explained in Hr as [He Hpos]; [|done]. split; [|done].
  unfold result_explained, result_reveals in *. destruct (sr_kind r).
  - destruct He as (a & Hin & Hid & _). exists a. split; [|done]. apply Ha, elem_of_btree_values in Hin as [k Hk].
    destruct (sw_actors _ Hwf k a Hk) as [<- _]. done.
  - destruct He as (c & Hin & Hid & _). exists c. apply Hc in Hin as [(k & Hk)%elem_of_btree_values Hs].
    destruct (sw_conversations _ Hwf k c Hk) as [<- _]. split_and!; [done|by apply elem_of_searchable|done].
  - destruct He as (m & Hin & Hid & Hid2 & Hskip & _). exists m. apply Hm in Hin as [Hd Hin].
    apply searchable_message in Hin as [Hf Hs]; done.
Qed.
