(* ===== verification/ServiceDelivery.v ===== *)
(** * What a request announces reaches those it concerns *)

From S2P Require Import Prelude Text Maps Conversation Message Payment Wallet Apps Community EngineTypes EngineCore Engine EngineInvariant EngineMoney StateError Settlement Search BlobStore Protocol Store ServiceView ServiceJournal ServiceCommand MessagingService ServicePersistence ServiceSync ServiceExpiry ServiceIntegrity ServicePrivacy.

(** A send that repeats no earlier one; every other command. *)
Definition fresh_command `{ServiceCrypto} (st : MessagingState) (actor : ActorId) (command : ClientCommand) : Prop :=
  match command with
  | CC_SendMessage id client_id _ _ _ _ _ _ => existing_send st actor id client_id = None
  | _ => True
  end.

(** The entry of a response in the journal. *)
Definition entry_of_response (st : MessagingState) (initiator : ActorId) (r : ServerEnvelope) : JournalEntry :=
  {| je_envelope := journal_envelope_of st r; je_audience := event_audience st initiator (env_event r) |}.

(** A participant or the owner of a conversation as it is given. *)
Definition takes_part (c : Conversation) (actor : ActorId) : Prop :=
  is_participant c actor = true \/ is_conversation_owner c actor = true.

(** The two meet in a conversation that [who] is a participant of. *)
Definition meets (st : MessagingState) (who actor : ActorId) : Prop :=
  exists id c, st_conversations st !! id = Some c /\ is_participant c who = true /\ takes_part c actor.

(** Whom a server event concerns.  A message, and what happens in a conversation
    to its messages, its members or its invoices: those who see the conversation;
    a conversation that is changed: its participants and its owner as the event
    has them, and who was removed; an actor that is changed: it and those it
    meets; an order, a story, a bot, an app: its parties; what is an actor's own:
    that actor alone.  Who asked is concerned by all but the last and deletions. *)
Definition concerns (st : MessagingState) (initiator actor : ActorId) (event : ServerEvent) : Prop :=
  match event with
  | SE_ActorChanged a => actor = initiator \/ actor = actor_id a \/ meets st (actor_id a) actor
  | SE_PresenceChanged who _ => actor = initiator \/ actor = who \/ meets st who actor
  | SE_ConversationChanged c => actor = initiator \/ takes_part c actor
  | SE_ConversationParticipantChanged c removed => actor = initiator \/ takes_part c actor \/ removed = Some actor
  | SE_MessageAdded m | SE_MessageChanged m => actor = initiator \/ sees st actor (msg_conversation_id m)
  | SE_MessagesDeleted id _ => sees st actor id
  | SE_ConversationMessageRetentionChanged id _ _ | SE_ReadChanged id _ _ | SE_TypingChanged id _ _ _ =>
      actor = initiator \/ sees st actor id
  | SE_InvoiceChanged invoice => actor = initiator \/ sees st actor (inv_conversation_id invoice)
  | SE_CommunityChanged community => actor = initiator \/ sees st actor (cs_conversation_id community)
  | SE_BotInvocationRequested invocation =>
      actor = initiator \/ actor = binv_sender_id invocation \/ actor = binv_bot_id invocation
      \/ sees st actor (binv_conversation_id invocation)
  | SE_MarkedUnreadChanged _ who _ | SE_TopicReadChanged _ _ who _ => actor = who
  | SE_DraftChanged draft => actor = draft_actor_id draft
  | SE_TopicDraftChanged draft => actor = tdraft_actor_id draft
  | SE_OrderChanged order => actor = initiator \/ actor = order_buyer_id order
      \/ exists i, st_invoices st !! order_invoice_id order = Some i /\ actor = inv_seller_id i
  | SE_StoryChanged story => actor = initiator \/ actor = story_owner_id story
  | SE_BotChanged profile execution => actor = initiator \/ bot_actor_id <$> profile = Some actor
      \/ exec_bot_id <$> execution = Some actor
  | SE_MiniAppOpened session => actor = initiator \/ actor = session_actor_id session
  | SE_MiniAppResult session_id _ _ => actor = initiator
      \/ session_actor_id <$> st_mini_app_sessions st !! session_id = Some actor
  | SE_SyncBatch _ | SE_SearchResults _ _ | SE_FolderChanged _ | SE_FolderDeleted _ | SE_BlobUploadChanged _
  | SE_BlobReady _ | SE_BlobDeleted _ | SE_WalletStatus _ _ | SE_StoryDeleted _ | SE_MiniAppChanged _
  | SE_CommunityMembersPage _ _ _ | SE_CommunityAuditLogPage _ _ _ | SE_Error _ _ _ _ => actor = initiator
  end.

(** Who sees a conversation is in the audience of what happens in it. *)
Lemma sees_in_audience st actor id : state_wf st -> sees st actor id -> actor ∈ conversation_id_audience st id.
Proof.
  intros Hwf (c & Hc & Hs). unfold conversation_id_audience. rewrite Hc.
  destruct (sw_conversations _ Hwf id c Hc) as [Hid _]. unfold actor_can_see_conversation in Hs. rewrite Hid in Hs.
  assert (Howner : is_conversation_owner c actor = true -> actor ∈ owner_of c).
  { unfold is_conversation_owner, owner_of. intros ->%eqb_true. set_solver. }
  destruct (st_communities st !! id) as [community|] eqn:Ec.
  - destruct (sw_communities _ Hwf id community Ec) as (_ & [Hk _] & _).
    apply orb_true_iff in Hs as [[Hs|Hs]%orb_true_iff|[Hk1 Hs]%andb_true_iff].
    + apply Howner in Hs. set_solver.
    + unfold member_is in Hs. destruct (cs_members community !! actor) as [member|] eqn:Em; [|done]. simpl in Hs.
      pose proof (ck_members _ Hk actor member Em) as Hm.
      assert (actor ∈ cm_actor_id <$> filter (fun m => is_current_member m = true) (btree_values (cs_members community))).
      { apply list_elem_of_fmap. exists member. split; [done|]. apply list_elem_of_filter. split; [done|].
        apply elem_of_btree_values. by exists actor. }
      set_solver.
    + rewrite Hk1. apply contains_key_spec, elem_of_dom in Hs. set_solver.
  - apply orb_true_iff in Hs as [Hs|Hs]; [apply Howner in Hs; set_solver|].
    unfold is_participant in Hs. apply existsb_exists in Hs as (p & Hp%list_elem_of_In & <-%eqb_true).
    unfold conversation_audience. apply elem_of_union_l, elem_of_list_to_set, list_elem_of_fmap. by exists p.
Qed.

Lemma audience_sees st actor id : state_wf st -> actor ∈ conversation_id_audience st id -> sees st actor id.
Proof.
  intros Hwf. unfold conversation_id_audience. destruct (st_conversations st !! id) as [c|] eqn:Hc; [|set_solver].
  destruct (sw_conversations _ Hwf id c Hc) as [Hid _]. intros Ha. exists c. split; [done|].
  unfold actor_can_see_conversation. rewrite Hid.
  assert (Howner : actor ∈ owner_of c -> is_conversation_owner c actor = true).
  { unfold is_conversation_owner, owner_of. destruct (conv_owner_id c) as [o|]; [|set_solver].
    intros ->%elem_of_singleton. by apply bool_decide_eq_true. }
  destruct (st_communities st !! id) as [community|] eqn:Ec.
  - destruct (sw_communities _ Hwf id community Ec) as (_ & [Hk _] & _).
    rewrite !elem_of_union, !elem_of_list_to_set in Ha. destruct Ha as [[[Ha|Ha]|Ha]|Ha].
    + by apply list_elem_of_filter in Ha as [Ha _].
    + apply list_elem_of_fmap in Ha as (member & -> & Hm). apply list_elem_of_filter in Hm as [Hcur Hm].
      apply elem_of_btree_values in Hm as [k Hm]. pose proof (ck_members _ Hk k member Hm) as Heq. subst k.
      unfold member_is. rewrite Hm. simpl. by rewrite Hcur, orb_true_r.
    + destruct (eqb (conv_kind c) Channel); [|set_solver]. unfold is_subscriber.
      apply elem_of_dom, contains_key_spec in Ha. rewrite Ha. by rewrite orb_true_r.
    + by rewrite (Howner Ha).
  - unfold conversation_audience in Ha. rewrite elem_of_union, elem_of_list_to_set in Ha. destruct Ha as [Ha|Ha].
    + apply list_elem_of_fmap in Ha as (p & -> & Hp). apply orb_true_iff. right. unfold is_participant.
      apply existsb_exists. exists p. split; [by apply list_elem_of_In|by apply bool_decide_eq_true].
    + by rewrite (Howner Ha).
Qed.

Lemma audience_takes_part c actor : actor ∈ conversation_audience c <-> takes_part c actor.
Proof.
  unfold conversation_audience, takes_part, is_participant, is_conversation_owner, owner_of.
  rewrite elem_of_union, elem_of_list_to_set, list_elem_of_fmap, existsb_exists. setoid_rewrite <- list_elem_of_In.
  split; (intros [H|H]; [left|right]).
  - destruct H as (p & -> & Hp). exists p. split; [done|by apply bool_decide_eq_true].
  - destruct (conv_owner_id c); [|set_solver]. apply elem_of_singleton in H as ->. by apply bool_decide_eq_true.
  - destruct H as (p & Hp & <-%eqb_true). by exists p.
  - apply eqb_true in H as ->. set_solver.
Qed.

Lemma contacts_meet st who actor : actor ∈ contacts_of st who <-> meets st who actor.
Proof.
  unfold contacts_of, meets. rewrite elem_of_union_list. setoid_rewrite list_elem_of_fmap. setoid_rewrite list_elem_of_filter.
  setoid_rewrite elem_of_btree_values. setoid_rewrite <- audience_takes_part. naive_solver.
Qed.

Lemma optional_member {A} (f : A -> ActorId) (o : option A) actor :
  actor ∈ (match o with Some x => {[ f x ]} | None => ∅ end : gset ActorId) <-> f <$> o = Some actor.
Proof. destruct o; simpl; [rewrite elem_of_singleton|]; naive_solver set_solver. Qed.

(** The audience of an event is exactly whom it concerns. *)
Lemma audience_concerned st initiator actor event : state_wf st ->
  actor ∈ audience_of st initiator event <-> concerns st initiator actor event.
Proof.
  intros Hwf.
  assert (Hsees : forall id, actor ∈ conversation_id_audience st id <-> sees st actor id)
    by (intros id; split; [by apply audience_sees|by apply sees_in_audience]).
  destruct event; cbn [audience_of concerns];
    rewrite ?elem_of_union, ?elem_of_singleton, ?Hsees, ?audience_takes_part, ?contacts_meet, ?optional_member; try tauto.
  - destruct removed_actor_id; rewrite ?elem_of_singleton; naive_solver set_solver.
  - destruct (st_invoices st !! _) as [i|]; rewrite ?elem_of_singleton; naive_solver set_solver.
Qed.

(** A channel's subscribers and the members of a community who do not take part in
    its conversation see it, and are not told when it is changed. *)
Lemma subscribers_miss_conversation_changes st initiator actor c :
  state_wf st -> actor <> initiator -> ~ takes_part c actor ->
  actor ∉ audience_of st initiator (SE_ConversationChanged c).
Proof. intros Hwf Ha Hc. rewrite audience_concerned by done. simpl. tauto. Qed.

Section delivery.
Context {S : Type} `{MSS : MessagingStateStore S, RM : !RefinesMemory S}.
Context `{U : UnicodeCase, D : StrDebug, UT : UnicodeText, BC : BlobCodec, SVC : ServiceCrypto, HMAC : SettlementCrypto}.

Lemma existing_send_find st actor id client :
  existing_send st actor id client = None <->
  find_message st id (stable_message_id actor client) = None /\ find_message st id (local_message_id client) = None.
Proof.
  unfold existing_send, find_message. destruct (st_messages st !! id) as [ms|]; simpl; [|done].
  destruct (ms !! stable_message_id actor client); naive_solver.
Qed.

(** A fresh command is still fresh once expired messages are settled. *)
Lemma fresh_after_settling st st' now actor command cursor :
  (forall c mid, find_message st' c mid = settled_at now <$> find_message st c mid) ->
  fresh_command st actor command -> idempotent_send_replay st' cursor actor command now = Ok None.
Proof.
  intros Hfind. destruct command; try done. simpl. intros [H1 H2]%existing_send_find.
  enough (existing_send st' actor conversation_id client_message_id = None) as -> by done.
  apply existing_send_find. by rewrite !Hfind, H1, H2.
Qed.

(** No response that is announced is a snapshot. *)
Definition no_batch (r : ServerEnvelope) : Prop := is_sync_batch (env_event r) = false.

Lemma projected_no_batch st cursor actor events now :
  Forall no_batch (omap (fun e => project_event st cursor actor e now) events).
Proof.
  apply list.Forall_forall. intros r (e & _ & He)%list_elem_of_omap. unfold project_event in He.
  apply fmap_Some in He as (event & He & ->). unfold no_batch. simpl.
  destruct e; simpl in He; unfold conversation_event, message_event in *;
    repeat match goal with H : _ <$> ?o = Some _ |- _ => apply fmap_Some in H as (? & _ & ->) end;
    by simplify_eq.
Qed.

Lemma single_no_batch actor event now (s s' : MessagingService S) responses :
  is_sync_batch event = false -> single_service_event actor event now s = (s', Ok responses) -> Forall no_batch responses.
Proof. intros He E. unfold single_service_event in E. repeat state_step. by apply list.Forall_cons. Qed.

Lemma announced_no_batch actor command now (s s' : MessagingService S) responses :
  handle_command actor command now s = (s', Ok responses) -> announces command = true -> Forall no_batch responses.
Proof.
  intros E Ha.
  assert (Hcommands : execute_commands actor command now s = (s', Ok responses) -> Forall no_batch responses).
  { unfold execute_commands. intros E'. repeat state_step. destruct a0 as [replay|]; repeat state_step.
    - unfold idempotent_send_replay in Hrun0. destruct command; try done. repeat case_match; simplify_eq;
        by apply list.Forall_cons.
    - case_bool_decide; repeat state_step; [constructor|]. match goal with H : project_events _ _ _ _ = _ |- _ => apply project_events_ok in H as [-> ->] end.
      apply Forall_app. split; [apply projected_no_batch|]. by apply Forall_fmap, list.Forall_true. }
  destruct command; try done; try (by apply Hcommands); simpl in E; unfold typing_event in E;
    repeat state_step; repeat case_match; repeat state_step; try done; (eapply single_no_batch; [|eassumption]; done).
Qed.

(** What is journalled for a response. *)
Lemma response_journalled st initiator responses r :
  r ∈ responses -> is_sync_batch (env_event r) = false ->
  entry_of_response st initiator r ∈ journal_entries st initiator responses.
Proof.
  intros Hr Hb. apply list_elem_of_fmap. exists r. split; [done|]. apply list_elem_of_filter. by rewrite Hb.
Qed.

Lemma delivered_in st actor now entries e :
  e ∈ entries -> addressed_to actor e = true -> still_typing now e = true ->
  project_journal_envelope_for_actor st actor (je_envelope e) now ∈ deliver_entries st actor now entries.
Proof.
  intros He Ha Ht. unfold deliver_entries. apply list_elem_of_fmap. exists e. split; [done|]. apply list_elem_of_filter. split; [done|].
  by apply list_elem_of_filter.
Qed.

Lemma addressed_audience st initiator event envelope actor :
  addressed_to actor {| je_envelope := envelope; je_audience := event_audience st initiator event |} = true
  <-> actor ∈ audience_of st initiator event.
Proof.
  unfold addressed_to. rewrite existsb_exists. setoid_rewrite <- list_elem_of_In. unfold event_audience. cbn [je_audience].
  setoid_rewrite elem_of_btree_elements. split; [by intros (x & Hx & <-%eqb_true)|].
  intros Ha. exists actor. split; [done|by apply bool_decide_eq_true].
Qed.

End delivery.
