(* ===== verification/ServiceReplay.v ===== *)
(** * A send that is repeated is answered from the store *)

From S2P Require Import Prelude Text Maps Conversation SecretChat Message Payment Wallet Apps Community EngineTypes EngineCore EngineMessage EngineApply Engine EngineInvariant EngineMoney EngineMessaging StateError Settlement Search BlobStore Protocol Store ServiceView ServiceJournal ServiceCommand MessagingService ServicePersistence ServiceSync ServiceExpiry ServiceDelivery ServiceIntegrity.

(** The message is as a send of this sender and content has it. *)
Record as_sent (m : Message) (sender : ActorId) (content : MessageContent) (reply thread : option MessageId)
    (scheduled : option Z) (silent protected : bool) : Prop := {
  snd_sender : msg_sender_id m = sender;
  snd_content : msg_content m = content;
  snd_reply : msg_reply_to_message_id m = reply;
  snd_thread : msg_thread_root_message_id m = thread;
  snd_scheduled : msg_scheduled_at_ms m = scheduled;
  snd_silent : msg_silent m = silent;
  snd_protected : msg_protected_content m = protected || is_secret_content content;
}.

Section replay.
Context {S : Type} `{MSS : MessagingStateStore S, RM : !RefinesMemory S}.
Context `{U : UnicodeCase, D : StrDebug, UT : UnicodeText, BC : BlobCodec, SVC : ServiceCrypto, HMAC : SettlementCrypto}.

Lemma find_acknowledged id mid at_ms m st :
  find_message st id mid = Some m ->
  find_message (apply_message_acknowledged id mid mid at_ms st) id mid
  = Some (m ⟪ msg_id := mid ⟫ ⟪ msg_delivery_state := Sent ⟫ ⟪ msg_created_at_ms := at_ms ⟫).
Proof.
  intros (ms & Hms & Hm)%find_message_get. unfold apply_message_acknowledged, with_conversation, find_message. fields.
  rewrite lookup_alter_eq, Hms. simpl. unfold rename_message. rewrite Hm. by rewrite lookup_insert_eq.
Qed.

(** What the two commands of a send leave in the engine. *)
Lemma send_stores (s s' : MessagingService S) events id mid client sender content reply thread now scheduled silent protected :
  collect_each engine_execute
    [QueueMessage id mid client sender content reply thread now scheduled silent protected;
     AcknowledgeMessage id mid mid now] s = (s', Ok events) ->
  events <> []
  /\ exists m, find_message (svc_engine s') id mid = Some m
       /\ as_sent m sender content reply thread scheduled silent protected.
Proof.
  cbn [collect_each]. intros E. repeat state_step.
  unfold engine_execute in Hrun, Hrun1.
  destruct (execute (svc_engine s) _) as [st1 [evs1|]] eqn:E1; simpl in Hrun; [|done].
  injection Hrun as <- <-. revert Hrun1. fields.
  destruct (execute st1 _) as [st2 [evs2|]] eqn:E2; simpl; [|done]. intros [= <- <-].
  apply execute_decided in E1 as [Hd ->]. simpl in Hd. unfold decide_queue_message in Hd. oks. subst evs1.
  split; [done|]. apply execute_decided in E2 as [Hd2 ->]. simpl in Hd2.
  unfold decide_acknowledge_message in Hd2. oks. subst evs2. fields.
  cbn [apply_events foldl apply_event].
  eexists. split; [apply find_acknowledged; rewrite find_queued; simpl; by rewrite decide_True|].
  by split.
Qed.
(** A command that is executed afresh, step by step. *)
Lemma execute_commands_fresh (s s' : MessagingService S) actor command now responses :
  idempotent_send_replay (svc_engine s) (svc_cursor s) actor command now = Ok None ->
  execute_commands actor command now s = (s', Ok responses) ->
  exists s1 events, collect_each engine_execute (project_command (svc_engine s) actor command now) s = (s1, Ok events)
    /\ svc_engine s' = svc_engine s1.
Proof.
  unfold execute_commands. rewrite (bind_run _ _ s s s eq_refl). intros Hfresh E. repeat state_step.
  rewrite Hfresh in Hrun. injection Hrun as <-. repeat state_step. eexists _, _. split; [exact Hrun|].
  case_bool_decide; repeat state_step; [done|].
  match goal with H : advance_cursor _ _ = _ |- _ => apply advance_cursor_ok in H as -> end.
  match goal with H : project_events _ _ _ _ = _ |- _ => apply project_events_ok in H as [-> _] end.
  match goal with H : record_responses _ _ _ _ = _ |- _ => rename H into Hrec end.
  unfold record_responses, persist_with_events, mbind, state_bind, get_state in Hrec. simpl in Hrec.
  destruct (store_save_with_events _ _ _). injection Hrec as <- _. by fields.
Qed.

(** The answer to a repeated send. *)
Definition replay_event (id : ConversationId) (now : Z) (m : Message) : ServerEvent :=
  if msg_deleted m && is_expired m now then SE_MessagesDeleted id [msg_id m] else SE_MessageChanged m.

Lemma settled_as_sent now m actor content reply thread scheduled silent protected :
  as_sent m actor content reply thread scheduled silent protected ->
  as_sent (settled_at now m) actor content reply thread scheduled silent protected.
Proof. intros []. rewrite settled_at_spec. case_match; [split; by fields|done]. Qed.

Lemma replay_answers st cursor actor id client content reply thread scheduled silent protected m now :
  find_message st id (stable_message_id actor client) = Some m ->
  as_sent m actor content reply thread scheduled silent protected ->
  content_eq content content = true -> protected || is_secret_content content = protected ->
  idempotent_send_replay st cursor actor (CC_SendMessage id client content reply thread scheduled silent protected) now
  = Ok (Some [envelope_at cursor now (replay_event id now m)]).
Proof.
  intros (ms & Hms & Hm)%find_message_get [] Hc Hp. simpl. unfold existing_send. rewrite Hms. simpl. rewrite Hm.
  unfold replay_event. destruct (msg_deleted m && is_expired m now); [done|].
  subst. rewrite Hc, snd_protected0, Hp. unfold eqb. by rewrite !bool_decide_eq_true_2.
Qed.

(** A secret message that was not sent as protected is stored as protected, and
    its repetition is refused as a different message. *)
Lemma secret_send_cannot_repeat st cursor actor id client content reply thread scheduled silent m now :
  find_message st id (stable_message_id actor client) = Some m ->
  as_sent m actor content reply thread scheduled silent false -> msg_deleted m = false -> is_secret_content content = true ->
  idempotent_send_replay st cursor actor (CC_SendMessage id client content reply thread scheduled silent false) now
  = Err (IdempotencyConflict (client_message_id_0 client)).
Proof.
  intros (ms & Hms & Hm)%find_message_get [] Hd Hs. simpl. unfold existing_send. rewrite Hms. simpl. rewrite Hm, Hd.
  simpl. rewrite snd_protected0, Hs. simpl. by rewrite !orb_true_r.
Qed.

(** The identifier a forwarded message is kept under does not name the actor:
    whoever forwards under a client identifier keeps others from sending under it. *)
Lemma forwarded_identifier_blocks_send st cursor actor id client content reply thread scheduled silent protected m now :
  find_message st id (stable_message_id actor client) = None ->
  find_message st id (local_message_id client) = Some m -> msg_deleted m = false -> msg_sender_id m <> actor ->
  idempotent_send_replay st cursor actor (CC_SendMessage id client content reply thread scheduled silent protected) now
  = Err (IdempotencyConflict (client_message_id_0 client)).
Proof.
  intros Hnone (ms & Hms & Hm)%find_message_get Hd Hsender. simpl. unfold existing_send.
  unfold find_message in Hnone. rewrite Hms in *. simpl in *. rewrite Hnone, Hm, Hd. simpl.
  unfold eqb at 1. by rewrite bool_decide_eq_false_2.
Qed.

(** What a repetition does in a service that keeps the message as it was sent. *)
Lemma repetition_answered (t : MessagingService S) m envelope later id client content reply thread scheduled silent protected y :
  trails entry_clean t m -> state_wf (svc_engine t) -> svc_cursor t <= u64_max ->
  ce_protocol_version envelope = FABUSHI_MESSAGING_PROTOCOL_VERSION ->
  ce_command envelope = CC_SendMessage id client content reply thread scheduled silent protected ->
  let actor := ctx_actor_id (ce_context envelope) in
  find_message (svc_engine t) id (stable_message_id actor client) = Some y ->
  as_sent y actor content reply thread scheduled silent protected ->
  content_eq content content = true -> protected || is_secret_content content = protected ->
  svc_cursor (fst (handle envelope later t)) < u64_max ->
  exists s2, (forall c mid, find_message (svc_engine s2) c mid = settled_at later <$> find_message (svc_engine t) c mid)
    /\ (handle envelope later t
          = (s2, Ok [envelope_at (svc_cursor s2) later (replay_event id later (settled_at later y))])
        \/ exists e, handle envelope later t = (s2, Err e) /\ refusal_error (S := S) e).
Proof.
  intros Ht Hwf Hc Hversion Hcmd actor Hy Hsent Hself Hprot Hmax. pose proof (trails_room _ _ _ Ht) as H0.
  destruct (handle envelope later t) as [s2 r] eqn:E. simpl in Hmax. unfold handle in E.
  rewrite Hversion, Z.eqb_refl in E. cbn [negb] in E. fold actor in E. rewrite Hcmd in E.
  unfold mbind at 1, state_bind at 1, try_with in E. simpl in E. unfold mbind, state_bind in E.
  destruct (settle_expired_messages actor later t) as [sc rc] eqn:Ec.
  assert (Hmaxc : svc_cursor sc < u64_max).
  { destruct rc; [|by injection E as <- _]. pose proof (grows_settle actor later t ltac:(lia)) as Ga. rewrite Ec in Ga. simpl in Ga.
    pose proof (grows_commands actor (CC_SendMessage id client content reply thread scheduled silent protected) later sc ltac:(lia)) as Gb.
    rewrite E in Gb. simpl in Gb. lia. }
  destruct (settle_outcome t m actor later sc rc Ht Hwf Ec Hmaxc) as (_ & Hfind & Hrc).
  exists sc. split; [exact Hfind|]. destruct rc as [u|e]; [|injection E as <- <-; right; exists e; tauto]. left.
  unfold execute_commands in E. rewrite (bind_run _ _ sc sc sc eq_refl) in E. unfold mbind, state_bind, try_with in E.
  erewrite replay_answers in E; [by injection E as <- <-|by rewrite Hfind, Hy|by apply settled_as_sent|done|done].
Qed.

(** C21: A repeated send is answered from the store.  A message the service
    accepted is kept as it was sent.  When the client sends it again, word for
    word, at any later time and after any requests of anyone, and the message
    is still kept as it was sent (it may have been deleted; after an edit the
    repetition would be refused), the answer is that very message, or the
    notice of its deletion if it expired; nothing is posted a second time, and
    no message changes but those that expired.  Only a store that refuses to
    save the settlement of these makes the answer its error.  (A secret message
    must have been sent as protected, and the content equal itself.) *)
Theorem repeated_send_is_answered_from_store (s s1 : MessagingService S) (m : MemoryStateStore) (envelope : ClientEnvelope)
    (now : Z) (responses : list ServerEnvelope) (id : ConversationId) (client : ClientMessageId)
    (content : MessageContent) (reply thread : option MessageId) (scheduled : option Z) (silent protected : bool)
    (between : list (ClientEnvelope * Z)) (later : Z) :
  service_ok s m -> state_wf (svc_engine s) -> svc_cursor s <= u64_max ->
  entries_count (svc_engine s) + 2 * (1 + Z.of_nat (length between)) <= u64_max ->
  ce_command envelope = CC_SendMessage id client content reply thread scheduled silent protected ->
  let actor := ctx_actor_id (ce_context envelope) in
  existing_send (svc_engine s) actor id client = None ->
  content_eq content content = true -> protected || is_secret_content content = protected ->
  handle envelope now s = (s1, Ok responses) ->
  let t := serve_all between s1 in
  svc_cursor (fst (handle envelope later t)) < u64_max ->
  (exists x, find_message (svc_engine s1) id (stable_message_id actor client) = Some x
     /\ as_sent x actor content reply thread scheduled silent protected)
  /\ forall y, find_message (svc_engine t) id (stable_message_id actor client) = Some y ->
     as_sent y actor content reply thread scheduled silent protected ->
     exists s2, (forall c mid, find_message (svc_engine s2) c mid = settled_at later <$> find_message (svc_engine t) c mid)
       /\ (handle envelope later t
             = (s2, Ok [envelope_at (svc_cursor s2) later (replay_event id later (settled_at later y))])
           \/ exists e, handle envelope later t = (s2, Err e) /\ refusal_error (S := S) e).
Proof.
  intros Hs Hwf Hc Hroom Hcmd actor Hfresh Hself Hprot E t Hmax.
  assert (Hsound : sound s m) by (by apply service_sound).
  pose proof (sound_room _ _ Hsound) as H0.
  pose proof (grows_handle envelope now s H0) as G1. rewrite E in G1. simpl in G1.
  pose proof (serve_all_grows between s1 ltac:(lia)) as G2. fold t in G2.
  pose proof (grows_handle envelope later t ltac:(lia)) as G3.
  split.
  - destruct (handle_run _ _ _ _ _ E) as (_ & sa & Ea & Eb). fold actor in Ea, Eb. rewrite Hcmd in Eb. simpl in Eb.
    pose proof (grows_settle actor now s H0) as Ga. rewrite Ea in Ga. simpl in Ga.
    pose proof (grows_commands actor (CC_SendMessage id client content reply thread scheduled silent protected) now sa ltac:(lia)) as Gb.
    rewrite Eb in Gb. simpl in Gb.
    destruct (settle_outcome s m actor now sa _ (so_trails _ _ Hsound) Hwf Ea ltac:(lia)) as (_ & Hfinda & _).
    apply execute_commands_fresh in Eb as (sb & events & Eloop & ->); [|by eapply fresh_after_settling].
    by apply send_stores in Eloop as [_ Hx].
  - intros y Hy Hsent.
    assert (Hversion : ce_protocol_version envelope = FABUSHI_MESSAGING_PROTOCOL_VERSION).
    { unfold handle in E. destruct (ce_protocol_version envelope =? FABUSHI_MESSAGING_PROTOCOL_VERSION) eqn:Ev; [by apply Z.eqb_eq|done]. }
    destruct (serve_all_kept ((envelope, now) :: between) s m Hsound) as (mt & l & [Ht _ Hwft Hct] & _).
    + cbn [length]. lia.
    + cbn [serve_all foldl fst snd]. rewrite E. change (svc_cursor t < u64_max). lia.
    + revert Ht Hwft Hct. cbn [serve_all foldl fst snd]. rewrite E. cbn [fst].
      change (foldl _ s1 between) with t. intros Ht Hwft Hct. by eapply repetition_answered.
Qed.
End replay.
