(* ===== verification/Server.v ===== *)
(** * The TCP server and the WebSocket gateway ([server.rs], [gateway.rs])

    A connection is what arrives on it, in order: lines on a socket, messages on
    a web socket, each with the time it is read at and the access registry as
    the file then holds it.  Connections share the service behind a lock, so a
    run of the server is the frames of all of them in the order they take it.
    The text of an error is kept as the error it renders. *)

From S2P Require Import Prelude Text Maps Bytes Conversation Message Payment Wallet Apps Community EngineTypes EngineCore Engine Access Settlement StateError Search BlobStore Protocol Store SqliteStore JsonStore ServiceView ServiceJournal ServiceCommand MessagingService ServicePersistence ServiceIntegrity.

Definition MAX_SERVER_FRAME_BYTES : Z := 8 * 1024 * 1024.

Record AuthenticatedClientFrame := {
  frame_access_token : string;
  frame_envelope : ClientEnvelope;
}.

(** What the message of an error frame says. *)
Inductive FrameCause :=
| AccessDenied (e : AccessError)
| AccessUnreadable (reason : string)
| ServiceFailed (e : MessagingServiceError)
| FrameExceeds (limit : Z)
| JsonInvalid (reason : string)
| BinaryUnsupported.

Inductive ServerFrame :=
| FrameEvents (events : list ServerEnvelope)
| FrameError (code : string) (cause : FrameCause).

(** ** Configuration *)

Record MessagingServerConfig := {
  cfg_bind_address : string;
  cfg_database_path : string;
  cfg_legacy_snapshot_path : option string;
  cfg_access_registry_path : string;
  cfg_max_frame_bytes : Z;
}.
#[export] Instance eta_MessagingServerConfig : Eta MessagingServerConfig := fun c =>
  Build_MessagingServerConfig (cfg_bind_address c) (cfg_database_path c) (cfg_legacy_snapshot_path c)
    (cfg_access_registry_path c) (cfg_max_frame_bytes c).

(** [MessagingServerConfig::new] *)
Definition server_config_new (bind_address database_path access_registry_path : string) : MessagingServerConfig := {|
  cfg_bind_address := bind_address; cfg_database_path := database_path; cfg_legacy_snapshot_path := None;
  cfg_access_registry_path := access_registry_path; cfg_max_frame_bytes := MAX_SERVER_FRAME_BYTES |}.

Definition with_legacy_snapshot (path : string) (c : MessagingServerConfig) : MessagingServerConfig :=
  c ⟪ cfg_legacy_snapshot_path := Some path ⟫.

Inductive MessagingServerError :=
| InvalidConfig (reason : string)
| ServerStore (e : StoreError)
| ServerService (e : MessagingServiceError).

(** [MessagingServerConfig::validate] *)
Definition validate_server_config (c : MessagingServerConfig) : result MessagingServerError unit :=
  reject_if (blank (cfg_bind_address c)) (InvalidConfig "bind address is empty") ;;
  reject_if (is_empty (cfg_database_path c)) (InvalidConfig "database path is empty") ;;
  reject_if (is_empty (cfg_access_registry_path c)) (InvalidConfig "access registry path is empty") ;;
  reject_if (cfg_max_frame_bytes c <? 1024) (InvalidConfig "maximum frame size is too small").

Definition DEFAULT_GATEWAY_HEARTBEAT_INTERVAL_MS : Z := 30000.
Definition DEFAULT_GATEWAY_HEARTBEAT_TIMEOUT_MS : Z := 90000.

Record MessagingWebSocketGatewayConfig := {
  gw_server : MessagingServerConfig;
  gw_heartbeat_interval_ms : Z;
  gw_heartbeat_timeout_ms : Z;
}.
#[export] Instance eta_MessagingWebSocketGatewayConfig : Eta MessagingWebSocketGatewayConfig := fun c =>
  Build_MessagingWebSocketGatewayConfig (gw_server c) (gw_heartbeat_interval_ms c) (gw_heartbeat_timeout_ms c).

(** [MessagingWebSocketGatewayConfig::new] *)
Definition gateway_config_new (server : MessagingServerConfig) : MessagingWebSocketGatewayConfig := {|
  gw_server := server; gw_heartbeat_interval_ms := DEFAULT_GATEWAY_HEARTBEAT_INTERVAL_MS;
  gw_heartbeat_timeout_ms := DEFAULT_GATEWAY_HEARTBEAT_TIMEOUT_MS |}.

Definition with_heartbeat (interval_ms timeout_ms : Z) (c : MessagingWebSocketGatewayConfig) :
    MessagingWebSocketGatewayConfig :=
  c ⟪ gw_heartbeat_interval_ms := interval_ms ⟫ ⟪ gw_heartbeat_timeout_ms := timeout_ms ⟫.

Inductive MessagingGatewayError :=
| GatewayInvalidConfig (reason : string)
| GatewayServer (e : MessagingServerError)
| GatewaySocket (reason : string)
| HeartbeatTimeout.

(** [MessagingWebSocketGatewayConfig::validate] *)
Definition validate_gateway_config (c : MessagingWebSocketGatewayConfig) : result MessagingGatewayError unit :=
  map_err GatewayServer (validate_server_config (gw_server c)) ;;
  reject_if (gw_heartbeat_interval_ms c =? 0)
    (GatewayInvalidConfig "heartbeat interval must be greater than zero") ;;
  reject_if (gw_heartbeat_timeout_ms c <? gw_heartbeat_interval_ms c)
    (GatewayInvalidConfig "heartbeat timeout must be greater than or equal to heartbeat interval").

(** ** Frames *)

Definition required_scope (command : ClientCommand) : AccessScope :=
  match command with
  | CC_BeginBlobUpload _ | CC_AppendBlobChunk _ _ _ | CC_FinishBlobUpload _ | CC_DeleteBlob _ => BlobsWrite
  | CC_CreateInvoice _ | CC_CheckoutInvoice _ _ _ | CC_RefundOrder _ _ | CC_WalletStatus => Payments
  | CC_InstallMiniApp _ | CC_GrantMiniApp _ | CC_OpenMiniApp _ | CC_MiniAppCall _ _ _ => MiniApps
  | _ => Messaging
  end.

(** [serde_json] on frames. *)
Class FrameCodec := {
  frame_of_json : list ascii -> result string AuthenticatedClientFrame;
}.

Section server.
Context {S : Type} `{MSS : MessagingStateStore S}.
Context `{U : UnicodeCase, D : StrDebug, UT : UnicodeText, BC : BlobCodec, SVC : ServiceCrypto, HMAC : SettlementCrypto}.
Context `{TC : TokenCrypto, FC : FrameCodec}.

(** [FileAccessTokenStore::authorize] on the registry its file holds. *)
Definition authorize_frame (registry : result string AccessTokenRegistry) (request : AuthenticatedClientFrame)
    (now_ms : Z) : result FrameCause AuthorizedAccess :=
  let context := ce_context (frame_envelope request) in
  registry ← map_err AccessUnreadable registry;
  map_err AccessDenied (authorize registry (bytes_of (frame_access_token request)) (ctx_actor_id context)
    (ctx_device_id context) (ctx_session_id context) (required_scope (ce_command (frame_envelope request))) now_ms).

Definition execute_authenticated_frame (registry : result string AccessTokenRegistry)
    (request : AuthenticatedClientFrame) (now_ms : Z) (s : MessagingService S) : MessagingService S * ServerFrame :=
  match authorize_frame registry request now_ms with
  | Err cause => (s, FrameError "unauthorized" cause)
  | Ok _ =>
      match handle (frame_envelope request) now_ms s with
      | (s', Ok events) => (s', FrameEvents events)
      | (s', Err e) => (s', FrameError "messaging_error" (ServiceFailed e))
      end
  end.

(** ** A TCP connection *)

(** A line as it is read, with its end if it has one. *)
Record Arrival := {
  ar_line : list ascii;
  ar_now : Z;
  ar_registry : result string AccessTokenRegistry;
}.

Definition LF : ascii := "010"%char.
Definition CR : ascii := "013"%char.

(** [reader.read_until(b'\n', &mut line)] until the end of the stream *)
Fixpoint read_lines (stream : list ascii) : list (list ascii) :=
  match stream with
  | [] => []
  | a :: rest =>
      if eqb a LF then [a] :: read_lines rest
      else match read_lines rest with
           | [] => [[a]]
           | line :: lines => (a :: line) :: lines
           end
  end.

(** [while matches!(line.last(), Some(b'\n' | b'\r')) { line.pop(); }] *)
Fixpoint drop_ends (reversed : list ascii) : list ascii :=
  match reversed with
  | a :: rest => if eqb a LF || eqb a CR then drop_ends rest else reversed
  | [] => []
  end.

Definition trim_line (line : list ascii) : list ascii := rev (drop_ends (rev line)).

(** The loop of [handle_connection]; the frames written. *)
Fixpoint handle_connection (max_frame_bytes : Z) (arrivals : list Arrival) (s : MessagingService S) :
    MessagingService S * list ServerFrame :=
  match arrivals with
  | [] => (s, [])
  | a :: rest =>
      if max_frame_bytes <? file_len (ar_line a) then
        (s, [FrameError "frame_too_large" (FrameExceeds max_frame_bytes)])
      else
        let line := trim_line (ar_line a) in
        if bool_decide (line = []) then handle_connection max_frame_bytes rest s
        else
          let (s1, frame) :=
            match frame_of_json line with
            | Err reason => (s, FrameError "invalid_json" (JsonInvalid reason))
            | Ok request => execute_authenticated_frame (ar_registry a) request (ar_now a) s
            end in
          let (s2, frames) := handle_connection max_frame_bytes rest s1 in
          (s2, frame :: frames)
  end.

(** ** A WebSocket connection *)

(** What [websocket.read()] returns; [WsSilent] is the end of a read timeout. *)
Inductive GatewayInput :=
| WsText (text : list ascii)
| WsBinary (data : list ascii)
| WsPing
| WsPong
| WsClose
| WsFrame
| WsSilent
| WsClosed
| WsFailed (reason : string).

Record GatewayArrival := {
  ga_input : GatewayInput;
  ga_instant : Z;
  ga_now : Z;
  ga_registry : result string AccessTokenRegistry;
}.

Inductive GatewayOutput :=
| OutFrame (frame : ServerFrame)
| OutPing (sequence : Z).

(** The loop of [handle_websocket_connection], from the last activity of the
    peer and the heartbeats sent so far. *)
Fixpoint gateway_loop (config : MessagingWebSocketGatewayConfig) (last_peer_activity heartbeat_sequence : Z)
    (arrivals : list GatewayArrival) (s : MessagingService S) :
    MessagingService S * list GatewayOutput * result MessagingGatewayError unit :=
  match arrivals with
  | [] => (s, [], Ok tt)
  | a :: rest =>
      let continue_with (s1 : MessagingService S) (out : list GatewayOutput) (activity sequence : Z) :=
        let r := gateway_loop config activity sequence rest s1 in
        (fst (fst r), (out ++ snd (fst r))%list, snd r) in
      match ga_input a with
      | WsText text =>
          if cfg_max_frame_bytes (gw_server config) <? file_len text then
            continue_with s
              [OutFrame (FrameError "frame_too_large" (FrameExceeds (cfg_max_frame_bytes (gw_server config))))]
              (ga_instant a) heartbeat_sequence
          else
            match frame_of_json text with
            | Err reason =>
                continue_with s [OutFrame (FrameError "invalid_json" (JsonInvalid reason))] (ga_instant a)
                  heartbeat_sequence
            | Ok request =>
                let r := execute_authenticated_frame (ga_registry a) request (ga_now a) s in
                continue_with (fst r) [OutFrame (snd r)] (ga_instant a) heartbeat_sequence
            end
      | WsBinary _ =>
          continue_with s [OutFrame (FrameError "unsupported_binary" BinaryUnsupported)] (ga_instant a)
            heartbeat_sequence
      | WsPing | WsPong => continue_with s [] (ga_instant a) heartbeat_sequence
      | WsClose | WsClosed => (s, [], Ok tt)
      | WsFrame => continue_with s [] last_peer_activity heartbeat_sequence
      | WsSilent =>
          if gw_heartbeat_timeout_ms config <=? ga_instant a - last_peer_activity then (s, [], Err HeartbeatTimeout)
          else
            let sequence := (heartbeat_sequence + 1) mod 2 ^ 64 in
            continue_with s [OutPing sequence] last_peer_activity sequence
      | WsFailed reason => (s, [], Err (GatewaySocket reason))
      end
  end.

Definition handle_websocket_connection (config : MessagingWebSocketGatewayConfig) (accepted_at : Z)
    (arrivals : list GatewayArrival) (s : MessagingService S) :
    MessagingService S * list GatewayOutput * result MessagingGatewayError unit :=
  gateway_loop config accepted_at 0 arrivals s.
End server.

(** ** Start *)

(** [load_shared_messaging_service]; the files are those of the paths of the
    configuration, the blobs those of the directory beside the database. *)
Definition load_shared_messaging_service `{SC : StoreCodec, JC : SnapshotCodec} (config : MessagingServerConfig)
    (database : SqliteStateStore) (legacy : string -> JsonFileStateStore) (blobs : FileBlobStore) :
    result MessagingServerError (MessagingService SqliteStateStore) :=
  let (store, imported) :=
    match cfg_legacy_snapshot_path config with
    | Some path => import_json_if_empty database (legacy path)
    | None => (database, Ok false)
    end in
  map_err ServerStore imported ;;
  map_err ServerService (load_with_blob_store store blobs).

(** [MessagingTcpServer::load] *)
Definition tcp_server_load `{SC : StoreCodec, JC : SnapshotCodec} (config : MessagingServerConfig)
    (database : SqliteStateStore) (legacy : string -> JsonFileStateStore) (blobs : FileBlobStore) :
    result MessagingServerError (MessagingServerConfig * MessagingService SqliteStateStore) :=
  validate_server_config config ;;
  service ← load_shared_messaging_service config database legacy blobs;
  Ok (config, service).

(** [MessagingWebSocketGateway::load] *)
Definition gateway_load `{SC : StoreCodec, JC : SnapshotCodec} (config : MessagingWebSocketGatewayConfig)
    (database : SqliteStateStore) (legacy : string -> JsonFileStateStore) (blobs : FileBlobStore) :
    result MessagingGatewayError (MessagingWebSocketGatewayConfig * MessagingService SqliteStateStore) :=
  validate_gateway_config config ;;
  service ← map_err GatewayServer (load_shared_messaging_service (gw_server config) database legacy blobs);
  Ok (config, service).

(** ** Who can make the server do what *)

(** ** Commands act as an actor *)

(** The actor a command of the engine is executed for is [a]; crediting a
    wallet and rewriting an order are for no actor. *)
Definition acts_as (a : ActorId) (c : Command) : Prop :=
  match c with
  | UpsertActor actor => actor_id actor = a
  | SetPresence id _ | SetMarkedUnread _ id _ | QueueMessage _ _ _ id _ _ _ _ _ _ _ | ForwardMessage _ _ _ _ _ id _
  | MarkRead _ id _ | MarkTopicRead _ _ id _ | VotePoll _ _ id _ | CheckoutInvoice _ _ id _ _ | RefundOrder _ id _ _
  | PublishStory id _ | DeleteStory id _ | ViewStory id _ _ | ReactStory id _ _ | UpdateCommunity id _
  | SubscribeChannel id _ _ | UnsubscribeChannel id _ _ | SetCommunitySlowMode id _ _ _
  | ModerateCommunityMember id _ _ _ _ | SetCommunityMember id _ _ | CreateInviteLink id _ | RevokeInviteLink id _ _ _
  | RequestCommunityJoin id _ | RespondCommunityJoin id _ _ _ _ | UpsertForumTopic id _ | DeleteForumTopic id _ _
  | RegisterBot id _ | BeginBotInvocation id _ _ | FinishBotExecution id _ _ _ _ => id = a
  | SetDraft draft => draft_actor_id draft = a
  | SetTopicDraft draft => tdraft_actor_id draft = a
  | CreateInvoice invoice => inv_seller_id invoice = a
  | GrantMiniApp grant => grant_actor_id grant = a
  | OpenMiniApp session => session_actor_id session = a
  | UpsertOrder _ | CreditWalletSettlement _ _ _ _ _ => False
  | _ => True
  end.

Lemma deny_same (x y : ActorId) reason u : deny_if (negb (eqb x y)) reason = Ok u -> x = y.
Proof. unfold deny_if, reject_if. destruct (eqb x y) eqn:E; [|done]. intros _. by apply eqb_true. Qed.

Lemma commands_act_as `{ServiceCrypto} st actor command now c :
  validate_command_authorization st actor command = Ok tt -> c ∈ project_command st actor command now -> acts_as actor c.
Proof.
  destruct command; simpl; intros Hv Hc; repeat case_match; set_unfold in Hc;
    repeat match goal with H : _ \/ _ |- _ => destruct H end; subst; simpl; try done; by eapply deny_same.
Qed.

(** ** Requests that reach the service *)

Section safety.
Context {S : Type} `{MSS : MessagingStateStore S}.
Context `{U : UnicodeCase, D : StrDebug, UT : UnicodeText, BC : BlobCodec, SVC : ServiceCrypto, HMAC : SettlementCrypto}.
Context `{TC : TokenCrypto, FC : FrameCodec}.

(** The request in a text, if it is one that is authorised. *)
Definition authorised_request (text : list ascii) (registry : result string AccessTokenRegistry) (now : Z) :
    option (ClientEnvelope * Z) :=
  match frame_of_json text with
  | Err _ => None
  | Ok request => if is_ok (authorize_frame registry request now) then Some (frame_envelope request, now) else None
  end.

Definition line_request (a : Arrival) : option (ClientEnvelope * Z) :=
  authorised_request (trim_line (ar_line a)) (ar_registry a) (ar_now a).

Definition socket_request (a : GatewayArrival) : option (ClientEnvelope * Z) :=
  match ga_input a with WsText text => authorised_request text (ga_registry a) (ga_now a) | _ => None end.

Lemma frame_served registry request now (s : MessagingService S) :
  fst (execute_authenticated_frame registry request now s)
  = serve_all (if is_ok (authorize_frame registry request now) then [(frame_envelope request, now)] else []) s.
Proof.
  unfold execute_authenticated_frame. destruct (authorize_frame registry request now); simpl; [|done].
  by destruct (handle (frame_envelope request) now s) as [s' [evs|e]].
Qed.

Lemma serve_all_app l1 l2 (s : MessagingService S) : serve_all (l1 ++ l2) s = serve_all l2 (serve_all l1 s).
Proof. apply foldl_app. Qed.

Lemma connection_served max arrivals : forall (s : MessagingService S),
  exists requests, requests `sublist_of` omap line_request arrivals
    /\ fst (handle_connection max arrivals s) = serve_all requests s.
Proof.
  induction arrivals as [|a rest IH]; intros s; [by exists []|]. simpl.
  destruct (_ <? _); [exists []; split; [apply sublist_nil_l|done]|].
  case_bool_decide as Hnil.
  { destruct (IH s) as (l & Hl & E). exists l. split; [|done]. destruct (line_request a); [by apply sublist_cons|done]. }
  unfold line_request, authorised_request at 1. destruct (frame_of_json (trim_line (ar_line a))) as [request|reason].
  - pose proof (frame_served (ar_registry a) request (ar_now a) s) as Hf.
    destruct (execute_authenticated_frame _ _ _ s) as [s1 frame]. simpl in Hf.
    destruct (IH s1) as (l & Hl & E). destruct (handle_connection max rest s1) as [s2 frames]. simpl in *.
    destruct (is_ok _); simpl in *.
    + exists ((frame_envelope request, ar_now a) :: l). split; [by apply sublist_skip|]. by rewrite E, Hf.
    + exists l. split; [done|]. by rewrite E, Hf.
  - destruct (IH s) as (l & Hl & E). destruct (handle_connection max rest s) as [s2 frames]. by exists l.
Qed.

Lemma gateway_served config arrivals : forall activity sequence (s : MessagingService S),
  exists requests, requests `sublist_of` omap socket_request arrivals
    /\ fst (fst (gateway_loop config activity sequence arrivals s)) = serve_all requests s.
Proof.
  induction arrivals as [|a rest IH]; intros activity sequence s; [by exists []|]. simpl.
  unfold socket_request at 1. destruct (ga_input a); simpl; try (apply IH);
    try (exists []; split; [apply sublist_nil_l|done]).
  - unfold authorised_request. destruct (_ <? _); simpl.
    { destruct (IH (ga_instant a) sequence s) as (l & Hl & E). exists l. split; [|done].
      destruct (frame_of_json text); [|done]. destruct (is_ok _); [by apply sublist_cons|done]. }
    destruct (frame_of_json text) as [request|reason]; simpl; [|apply IH].
    rewrite frame_served. destruct (IH (ga_instant a) sequence
      (serve_all (if is_ok (authorize_frame (ga_registry a) request (ga_now a)) then [(frame_envelope request, ga_now a)] else []) s))
      as (l & Hl & E). rewrite E, <- serve_all_app. eexists. split; [|reflexivity].
    destruct (is_ok _); simpl; [by apply sublist_skip|done].
  - destruct (_ <=? _); simpl; [exists []; split; [apply sublist_nil_l|done]|]. apply IH.
Qed.

(** C8: Only authorised requests reach the service.  Whatever arrives on a TCP or
    a WebSocket connection, in whatever sizes, malformed or not, the service
    becomes what it is after handling, in their order, some of the requests that
    arrived in well-formed frames and were authorised when they arrived; a frame
    that is not changes nothing. *)
Theorem connections_serve_authorised_requests (max_frame_bytes : Z) (lines : list Arrival)
    (config : MessagingWebSocketGatewayConfig) (accepted_at : Z) (messages : list GatewayArrival) (s : MessagingService S) :
  (exists requests, requests `sublist_of` omap line_request lines
     /\ fst (handle_connection max_frame_bytes lines s) = serve_all requests s)
  /\ (exists requests, requests `sublist_of` omap socket_request messages
     /\ fst (fst (handle_websocket_connection config accepted_at messages s)) = serve_all requests s)
  /\ forall registry request now, is_ok (authorize_frame registry request now) = false ->
       exists cause, execute_authenticated_frame registry request now s = (s, FrameError "unauthorized" cause).
Proof.
  split_and!; [apply connection_served|apply gateway_served|].
  intros registry request now. unfold execute_authenticated_frame.
  destruct (authorize_frame registry request now) as [acc|cause]; [done|]. by exists cause.
Qed.

(** C7: A frame acts only for the holder of its token.  A frame is authorised only
    if its token hashes to a grant of the registry that is in force, has the
    scope its command needs and names its actor, device and session; and every
    command of the engine it leads to is then executed for the actor of that
    grant, if it names an actor at all; none credits a wallet or rewrites an
    order. *)
Theorem frames_act_for_their_grant (registry : AccessTokenRegistry) (request : AuthenticatedClientFrame) (now : Z)
    (access : AuthorizedAccess) :
  authorize_frame (Ok registry) request now = Ok access ->
  let context := ce_context (frame_envelope request) in
  let command := ce_command (frame_envelope request) in
  exists e, e ∈ grants registry
    /\ sg_token_sha256 e = sha256 (bytes_of (frame_access_token request))
    /\ entitled (sg_grant e) (ctx_actor_id context) (ctx_device_id context) (ctx_session_id context)
         (required_scope command) now
    /\ forall st c, validate_command_authorization st (ctx_actor_id context) command = Ok tt ->
         c ∈ project_command st (ctx_actor_id context) command now -> acts_as (grant_actor (sg_grant e)) c.
Proof.
  intros Hauth context command. unfold authorize_frame in Hauth. simpl in Hauth.
  destruct (authorize registry _ _ _ _ _ _) as [acc|e] eqn:E; [|done]. apply authorize_ok in E as (_ & e & Hfind & Hent & _).
  apply find_some in Hfind as [Hin Hhash]. exists e. split_and!; [by apply list_elem_of_In|by apply has_hash_spec|done|].
  intros st c Hv Hc. destruct (ent_identity _ _ _ _ _ _ Hent) as [-> _]. by eapply commands_act_as.
Qed.
End safety.
