(* ===== verification/ServiceDemo.v ===== *)
(** * A small concrete service, for the witnesses *)

From S2P Require Import Prelude Text Maps Bytes Conversation Message Payment Wallet Apps Community EngineTypes EngineCore Engine EngineInvariant EngineMoney EngineDemo EngineMessaging StateError Settlement Search BlobStore Access Protocol Store ServiceView ServiceJournal ServiceCommand MessagingService ServicePersistence ServiceSync ServiceExpiry ServiceDelivery ServiceIntegrity ServicePrivacy ServiceReplay Server.

#[export] Existing Instance toy_blob_codec.
#[export] Existing Instance toy_settlement_crypto.
#[export] Existing Instance toy_token_crypto.

#[export] Instance ascii_text : UnicodeText := {
  str_to_lowercase := map_bytes ascii_lower;
  char_is_alphanumeric c := match c with [a] => is_ascii_alphanumeric a | _ => false end;
}.

#[export] Instance toy_service_crypto : ServiceCrypto := {
  svc_sha256 b := b;
  svc_base64_decode s := Ok (bytes_of s);
}.

(** The lobby with a retention of one minute and a message of [ben]. *)
Definition retained_lobby : MessagingState :=
  run [SetConversationMessageRetention lobby (Some 60) 0; greet "m1" ben 1000] demo.

Lemma retained_lobby_wf : state_wf retained_lobby.
Proof. apply run_wf; [apply demo_wf|]. vm_compute. discriminate. Qed.

(** A store that holds it, with the cursor at 7 and an empty journal. *)
Definition demo_store : MemoryStateStore := {|
  mem_snapshot := Some (snapshot_new retained_lobby 7 1000); mem_journal := []; mem_journal_floor_cursor := 7 |}.

Lemma demo_store_wf : store_wf demo_store.
Proof. split; simpl; try constructor; unfold mem_current; simpl; lia. Qed.

Definition demo_service : MessagingService MemoryStateStore := {|
  svc_engine := retained_lobby; svc_store := demo_store; svc_blob_store := None; svc_cursor := 7 |}.

Lemma demo_loads : service_load demo_store = Ok demo_service.
Proof. reflexivity. Qed.

Lemma demo_ok : service_ok demo_service demo_store.
Proof.
  apply (load_synced entry_clean demo_store demo_store demo_service);
    [reflexivity|exact demo_store_wf|constructor|exact I|exact demo_loads].
Qed.

Definition from (actor : ActorId) (command : ClientCommand) : ClientEnvelope :=
  client_envelope_new {| ctx_request_id := "r"; ctx_device_id := "d"; ctx_actor_id := actor; ctx_session_id := "s";
                         ctx_sent_at_ms := 0 |} command.

Definition hello_lobby : ClientEnvelope :=
  from ann (CC_SendMessage lobby (MkClientMessageId "c1") (ContentText (plain "hello")) None None None false false).

(** What a request is answered and what it leaves. *)
Definition answers (envelope : ClientEnvelope) (now : Z) (s : MessagingService MemoryStateStore) : list ServerEnvelope :=
  match snd (handle envelope now s) with Ok responses => responses | Err _ => [] end.
Definition after (envelope : ClientEnvelope) (now : Z) (s : MessagingService MemoryStateStore) :
    MessagingService MemoryStateStore := fst (handle envelope now s).

Lemma answered envelope now s : is_ok (snd (handle envelope now s)) = true ->
  handle envelope now s = (after envelope now s, Ok (answers envelope now s)).
Proof. unfold after, answers. by destruct (handle envelope now s) as [s' [rs|e]]. Qed.

Lemma expired_messages_are_settled_witness :
  exists s' m', settle_expired_messages ann 90000 demo_service = (s', Ok tt) /\ service_ok s' m'
    /\ (forall c mid, find_message (svc_engine s') c mid = settled_at 90000 <$> find_message (svc_engine demo_service) c mid)
    /\ forall c mid x, find_message (svc_engine s') c mid = Some x -> ~ overdue 90000 x.
Proof.
  refine (expired_messages_are_settled demo_service demo_store ann 90000 demo_ok retained_lobby_wf _).
  vm_compute. reflexivity.
Defined.

(** The settlement of the witness is not empty. *)
Example one_message_is_due : expired_messages retained_lobby 90000 = [(lobby, [MkMessageId "m1"])].
Proof. vm_compute. reflexivity. Qed.

Definition demo_requests : list (ClientEnvelope * Z) :=
  [(hello_lobby, 2000); (from cam (CC_MarkRead lobby (MkMessageId "no")), 2001)].

Lemma service_survives_restart_witness :
  let s' := serve_all demo_requests demo_service in
  state_wf (svc_engine s')
  /\ service_load (svc_store s')
     = Ok {| svc_engine := svc_engine s'; svc_store := svc_store s'; svc_blob_store := None; svc_cursor := svc_cursor s' |}.
Proof.
  destruct (service_survives_restart (RM := memory_refines) demo_store demo_store demo_service demo_requests
    eq_refl demo_store_wf (list.Forall_nil_2 _) I demo_loads retained_lobby_wf)
    as (Hwf & m' & entries & _ & _ & _ & _ & _ & _ & _ & Hload).
  - vm_compute. discriminate.
  - vm_compute. discriminate.
  - vm_compute. reflexivity.
  - split; [exact Hwf|]. apply (proj2 (Hload I)).
    assert (Hall : forallb (fun r => negb (store_failed r)) (answers_of demo_requests demo_service) = true) by (vm_compute; reflexivity).
    apply list.Forall_forall. intros r Hr%list_elem_of_In. apply negb_true_iff.
    exact (proj1 (forallb_forall _ _) Hall r Hr).
Defined.

(** The service after [ann] said hello. *)
Definition greeted : MessagingService MemoryStateStore := after hello_lobby 2000 demo_service.

Lemma greeted_handled : handle hello_lobby 2000 demo_service = (greeted, Ok (answers hello_lobby 2000 demo_service)).
Proof. apply answered. vm_compute. reflexivity. Qed.

Lemma greeted_ok : service_ok greeted (svc_store greeted) /\ state_wf (svc_engine greeted).
Proof.
  destruct (handle_kept hello_lobby 2000 demo_service greeted demo_store _ demo_ok retained_lobby_wf ltac:(vm_compute; discriminate)
    ltac:(vm_compute; discriminate) greeted_handled ltac:(vm_compute; reflexivity)) as (m' & _ & Hm' & _ & Hwf).
  assert (Heq : svc_store greeted = m') by exact (sy_store _ _ _ Hm'). subst m'. split; [exact Hm'|exact Hwf].
Qed.

Lemma journal_sync_delivers_everything_witness :
  let entries := entries_after 7 (mem_journal (svc_store greeted)) in
  length entries = 2%nat
  /\ follow_journal (Datatypes.S (length entries)) greeted ben 7 1 3000
     = Some (deliver_entries (svc_engine greeted) ben 3000 entries).
Proof.
  split; [vm_compute; reflexivity|].
  apply (journal_sync_delivers_everything greeted (svc_store greeted) ben 7 1 3000 (proj1 greeted_ok) I).
  - vm_compute. discriminate.
  - vm_compute. split; discriminate.
Defined.

(** The announcement of the message. *)
Definition first_answer : ServerEnvelope :=
  default (sync_checkpoint_envelope 0 0) (head (answers hello_lobby 2000 demo_service)).

Lemma first_answer_given : first_answer ∈ answers hello_lobby 2000 demo_service.
Proof.
  assert (Hl : length (answers hello_lobby 2000 demo_service) <> 0%nat) by (vm_compute; discriminate).
  unfold first_answer. revert Hl. generalize (answers hello_lobby 2000 demo_service).
  intros [|r l] Hl; [done|]. simpl. left.
Qed.

Lemma ben_sees_lobby : sees (svc_engine greeted) ben lobby.
Proof. eexists. split; [vm_compute; reflexivity|]. vm_compute. reflexivity. Qed.

Definition concerns_lobby (event : ServerEvent) : bool :=
  match event with SE_MessageAdded m => eqb (msg_conversation_id m) lobby | _ => false end.

Lemma first_answer_concerns_ben : concerns (svc_engine greeted) ann ben (env_event first_answer).
Proof.
  assert (He : concerns_lobby (env_event first_answer) = true) by (vm_compute; reflexivity).
  revert He. generalize (env_event first_answer). intros event He. destruct event; try discriminate He.
  apply eqb_true in He. unfold concerns. rewrite He. right. exact ben_sees_lobby.
Qed.


Lemma snapshot_index_is_complete_witness :
  lobby ∈ conv_id <$> sb_conversations (sync_batch retained_lobby 7 ben 1 2000).
Proof.
  refine (proj2 (proj1 (snapshot_index_is_complete retained_lobby ben 7 1 2000 retained_lobby_wf) lobby) _).
  eexists. split; vm_compute; reflexivity.
Defined.

Lemma sync_hides_private_data_witness :
  Forall (response_discreet (svc_engine greeted) ben 3000)
    match sync_response greeted ben None 10 3000 with Ok responses => responses | Err _ => [] end.
Proof.
  apply (sync_hides_private_data greeted (svc_store greeted) ben None 10 3000);
    [exact (proj1 greeted_ok)|exact I|exact (proj2 greeted_ok)|vm_compute; reflexivity].
Defined.

(** Between the two sends [ben] writes, and a request of [cam] is refused. *)
Definition in_between : list (ClientEnvelope * Z) :=
  [(from ben (CC_SendMessage lobby (MkClientMessageId "c2") (ContentText (plain "hi ann")) None None None false false), 2500);
   (from cam (CC_MarkRead lobby (MkMessageId "no")), 2600)].

Definition later_on : MessagingService MemoryStateStore := serve_all in_between greeted.

Definition hello_kept : option Message :=
  find_message (svc_engine later_on) lobby (stable_message_id ann (MkClientMessageId "c1")).

Lemma hello_kept_as_sent :
  (fun m => (msg_sender_id m, msg_content m, msg_reply_to_message_id m, msg_thread_root_message_id m, msg_scheduled_at_ms m,
             msg_silent m, msg_protected_content m)) <$> hello_kept
  = Some (ann, ContentText (plain "hello"), None, None, None, false, false).
Proof. vm_compute. reflexivity. Qed.

Lemma repeated_send_is_answered_from_store_witness :
  exists y s2, hello_kept = Some y
    /\ (forall c mid, find_message (svc_engine s2) c mid = settled_at 5000 <$> find_message (svc_engine later_on) c mid)
    /\ handle hello_lobby 5000 later_on
       = (s2, Ok [envelope_at (svc_cursor s2) 5000 (replay_event lobby 5000 (settled_at 5000 y))]).
Proof.
  pose proof hello_kept_as_sent as Hsent. destruct hello_kept as [y|] eqn:Hy; [|discriminate Hsent].
  injection Hsent as H1 H2 H3 H4 H5 H6 H7.
  destruct (repeated_send_is_answered_from_store demo_service greeted demo_store hello_lobby 2000
    (answers hello_lobby 2000 demo_service) lobby (MkClientMessageId "c1") (ContentText (plain "hello")) None None None false false
    in_between 5000 demo_ok retained_lobby_wf ltac:(vm_compute; discriminate) ltac:(vm_compute; discriminate) eq_refl
    ltac:(vm_compute; reflexivity) ltac:(vm_compute; reflexivity) eq_refl greeted_handled ltac:(vm_compute; reflexivity))
    as [_ Hlater].
  destruct (Hlater y Hy) as (s2 & Hfind & [Ok2|(e & _ & snapshot & events & x & Hx & _)]).
  - split; assumption.
  - exists y, s2. split; [reflexivity|]. split; assumption.
  - discriminate Hx.
Defined.

Definition hi_query : SearchQuery := {|
  sq_text := "Hi"; sq_scope := InGlobal; sq_conversation_id := None; sq_sender_id := None; sq_from_ms := None;
  sq_to_ms := None; sq_limit := 5 |}.

Definition hi_results : list SearchResult := search (search_index_for retained_lobby ann) hi_query.

Example hi_is_found : (fun r => (sr_kind r, sr_id r, sr_score r)) <$> hi_results = [(FoundMessage, "m1", 10)].
Proof. vm_compute. reflexivity. Qed.

Lemma search_reveals_only_searchable_witness :
  Forall (fun r => result_reveals retained_lobby ann hi_query r /\ 0 < sr_score r) hi_results.
Proof.
  apply list.Forall_forall. exact (search_reveals_only_searchable retained_lobby ann hi_query retained_lobby_wf).
Defined.

Lemma search_returns_best_matches_witness :
  exists rest, (search (search_index_for retained_lobby ann) hi_query ++ rest)%list
    ≡ₚ search_hits (search_index_for retained_lobby ann) hi_query.
Proof.
  destruct (search_returns_best_matches (search_index_for retained_lobby ann) hi_query) as (rest & Hp & _);
    [exact (proj1 (search_index_holds retained_lobby ann))| |by exists rest].
  intros H. apply (f_equal (fun s => bool_decide (s = (∅ : gset string)))) in H. vm_compute in H. discriminate H.
Defined.

(** ** At the server *)

Definition demo_grant : AccessGrant := {|
  grant_id := "g"; grant_actor := ann; grant_device_id := "d"; grant_session_id := "s"; grant_scopes := [Messaging];
  grant_issued_at_ms := 1; grant_expires_at_ms := None; grant_revoked_at_ms := None |}.

Definition demo_registry : AccessTokenRegistry := fst (issue (toy_token "a") demo_grant {| grants := [] |}).

Definition demo_frame : AuthenticatedClientFrame := {|
  frame_access_token := string_of (toy_token "a"); frame_envelope := hello_lobby |}.

Lemma frames_act_for_their_grant_witness :
  exists e, e ∈ grants demo_registry
    /\ forall st c, validate_command_authorization st ann (ce_command hello_lobby) = Ok tt ->
         c ∈ project_command st ann (ce_command hello_lobby) 2000 -> acts_as (grant_actor (sg_grant e)) c.
Proof.
  destruct (frames_act_for_their_grant demo_registry demo_frame 2000 (access_of demo_grant)) as (e & H1 & _ & _ & H2);
    [vm_compute; reflexivity|]. exists e. split; [exact H1|exact H2].
Defined.

(** ** A stranger

    [cam] takes no part in the lobby, is answered and rewrites the message of
    [ben], or deletes it. *)
Definition stranger_edits : ClientEnvelope :=
  from cam (CC_EditMessage lobby (MkMessageId "m1") (ContentText (plain "forged"))).

Lemma stranger_edits_message :
  actor_can_see_conversation retained_lobby cam (default (room_of "room" Group) (st_conversations retained_lobby !! lobby)) = false
  /\ is_ok (snd (handle stranger_edits 2000 demo_service)) = true
  /\ msg_content <$> find_message (svc_engine (after stranger_edits 2000 demo_service)) lobby (MkMessageId "m1")
     = Some (ContentText (plain "forged")).
Proof. vm_compute. split_and!; reflexivity. Qed.

Definition stranger_deletes : ClientEnvelope := from cam (CC_DeleteMessages lobby [MkMessageId "m1"] true).

Lemma stranger_deletes_message :
  is_ok (snd (handle stranger_deletes 2000 demo_service)) = true
  /\ msg_deleted <$> find_message (svc_engine (after stranger_deletes 2000 demo_service)) lobby (MkMessageId "m1") = Some true.
Proof. vm_compute. split_and!; reflexivity. Qed.

(** ** Whose unread count

    [ann] archives the lobby: the change that [ben] receives from the journal
    counts the messages [ann] has not read. *)
Definition archive_lobby : ClientEnvelope := from ann (CC_ArchiveConversation lobby true).

Definition unread_received (responses : option (list ServerEnvelope)) : list Z :=
  omap (fun r => match env_event r with SE_ConversationChanged c => Some (conv_unread_count c) | _ => None end)
    (default [] responses).

Lemma journal_carries_initiators_unread :
  let s := after archive_lobby 2000 demo_service in
  unread_received (follow_journal 9 s ben 7 9 3000) = [1]
  /\ (conv_unread_count <$> sb_conversations (sync_batch (svc_engine s) (svc_cursor s) ben 9 3000)) = [0; 0].
Proof. vm_compute. split; reflexivity. Qed.
