(* ===== verification/TgEngine.v ===== *)
(** * The Telegram client: its data and its engine ([telegram-core/src/domain.rs], [engine.rs]) *)

From S2P Require Import Prelude Text Maps Message.

(** ** The data of the Telegram client ([telegram-core/src/domain.rs])

    The identifiers are newtypes over [i64] (folders: [i32]).  The names that the
    messaging service also uses for its own data carry the prefix [Tg]. *)

Notation UserId := Z (only parsing).
Notation ChatId := Z (only parsing).
Notation TgMessageId := Z (only parsing).
Notation TgStoryId := Z (only parsing).
Notation ChatFolderId := Z (only parsing).

Record ClientRequestId := MkClientRequestId { client_request_id_0 : string }.
#[export] Instance ClientRequestId_eq_dec : EqDecision ClientRequestId.
Proof. solve_decision. Defined.
#[export] Program Instance ClientRequestId_countable : Countable ClientRequestId :=
  inj_countable' client_request_id_0 MkClientRequestId _.
Next Obligation. by intros []. Qed.

Definition client_request_id_is_valid (id : ClientRequestId) : bool :=
  negb (blank (client_request_id_0 id)) && (len (client_request_id_0 id) <=? 128).

Inductive ChatKind := ChatPrivate | BasicGroup | Supergroup | ChatChannel | ChatSecret | SavedMessages.
#[export] Instance ChatKind_eq_dec : EqDecision ChatKind.
Proof. solve_decision. Defined.

Record TgNotificationSettings := {
  tn_mute_until_unix_ms : option Z;
  tn_sound_id : option string;
  tn_show_preview : bool;
}.
#[export] Instance TgNotificationSettings_eq_dec : EqDecision TgNotificationSettings.
Proof. solve_decision. Defined.

Definition tg_default_notification_settings : TgNotificationSettings :=
  {| tn_mute_until_unix_ms := None; tn_sound_id := None; tn_show_preview := true |}.

(** ** Texts *)

Inductive TgTextEntityKind :=
| TgMention | TgHashtag | TgCashtag | TgBotCommand | TgUrl | TgEmail | TgPhoneNumber
| TgBold | TgItalic | TgUnderline | TgStrikethrough | TgSpoiler | TgCode
| TgPre (language : option string)
| TgTextUrl (url : string)
| TgMentionUser (user_id : UserId)
| TgCustomEmoji (id : string).
#[export] Instance TgTextEntityKind_eq_dec : EqDecision TgTextEntityKind.
Proof. solve_decision. Defined.

Record TgTextEntity := {
  te_offset_utf16 : Z;
  te_length_utf16 : Z;
  te_kind : TgTextEntityKind;
}.
#[export] Instance TgTextEntity_eq_dec : EqDecision TgTextEntity.
Proof. solve_decision. Defined.

Record TgFormattedText := { tft_text : string; tft_entities : list TgTextEntity }.
#[export] Instance TgFormattedText_eq_dec : EqDecision TgFormattedText.
Proof. solve_decision. Defined.

Definition tg_plain (text : string) : TgFormattedText := {| tft_text := text; tft_entities := [] |}.

(** ** Chats *)

Record ChatDraft := {
  cd_content : TgFormattedText;
  cd_reply_to_message_id : option TgMessageId;
  cd_updated_at_unix_ms : Z;
}.
#[export] Instance ChatDraft_eq_dec : EqDecision ChatDraft.
Proof. solve_decision. Defined.

Record Chat := {
  chat_id : ChatId;
  chat_kind : ChatKind;
  chat_title : string;
  chat_last_message_id : option TgMessageId;
  chat_last_read_inbox_message_id : option TgMessageId;
  chat_last_read_outbox_message_id : option TgMessageId;
  chat_unread_count : Z;
  chat_pinned_message_id : option TgMessageId;
  chat_notification_settings : TgNotificationSettings;
  chat_is_archived : bool;
  chat_is_marked_unread : bool;
  chat_draft : option ChatDraft;
  chat_folder_ids : list ChatFolderId;
}.
#[export] Instance Chat_eq_dec : EqDecision Chat.
Proof. solve_decision. Defined.
#[export] Instance eta_Chat : Eta Chat := fun c =>
  Build_Chat (chat_id c) (chat_kind c) (chat_title c) (chat_last_message_id c) (chat_last_read_inbox_message_id c)
    (chat_last_read_outbox_message_id c) (chat_unread_count c) (chat_pinned_message_id c)
    (chat_notification_settings c) (chat_is_archived c) (chat_is_marked_unread c) (chat_draft c) (chat_folder_ids c).

Definition chat_new (id : ChatId) (kind : ChatKind) (title : string) : Chat := {|
  chat_id := id;
  chat_kind := kind;
  chat_title := title;
  chat_last_message_id := None;
  chat_last_read_inbox_message_id := None;
  chat_last_read_outbox_message_id := None;
  chat_unread_count := 0;
  chat_pinned_message_id := None;
  chat_notification_settings := tg_default_notification_settings;
  chat_is_archived := false;
  chat_is_marked_unread := false;
  chat_draft := None;
  chat_folder_ids := [];
|}.

Record ChatFolder := {
  cf_id : ChatFolderId;
  cf_title : string;
  cf_icon_name : option string;
  cf_included_chat_ids : list ChatId;
  cf_excluded_chat_ids : list ChatId;
  cf_include_contacts : bool;
  cf_include_non_contacts : bool;
  cf_include_groups : bool;
  cf_include_channels : bool;
  cf_include_bots : bool;
  cf_exclude_muted : bool;
  cf_exclude_read : bool;
  cf_exclude_archived : bool;
}.

Inductive TypingActionKind :=
| Typing | RecordingVoice | RecordingVideoNote | UploadingPhoto | UploadingVideo | UploadingDocument
| ChoosingSticker | ChoosingLocation | WatchingAnimation | SpeakingInGroupCall.

Record TypingAction := {
  ta_user_id : UserId;
  ta_kind : TypingActionKind;
  ta_progress_percent : option Z;
  ta_expires_at_unix_ms : Z;
}.

(** ** Messages *)

Record FileRef := {
  fr_id : string;
  fr_file_name : option string;
  fr_mime_type : option string;
  fr_size_bytes : option Z;
  fr_local_path : option string;
  fr_remote_id : option string;
}.

Record TgPollOption := {
  tpo_text : string;
  tpo_voter_count : Z;
  tpo_is_chosen : bool;
  tpo_is_correct : option bool;
}.

(** [MessageContent]; coordinates are [f64]s, kept as their bits. *)
Inductive TgContent :=
| TgText (text : TgFormattedText)
| TgPhoto (file : FileRef) (caption : TgFormattedText) (width height : Z) (has_spoiler : bool)
| TgVideo (file : FileRef) (caption : TgFormattedText) (duration_seconds width height : Z) (has_spoiler : bool)
| TgAnimation (file : FileRef) (caption : TgFormattedText) (duration_seconds : Z)
| TgAudio (file : FileRef) (caption : TgFormattedText) (duration_seconds : Z) (title performer : option string)
| TgVoiceNote (file : FileRef) (duration_seconds : Z) (waveform : list Z) (caption : TgFormattedText)
| TgVideoNote (file : FileRef) (duration_seconds length : Z)
| TgDocument (file : FileRef) (caption : TgFormattedText)
| TgSticker (file : FileRef) (emoji : string) (set_id : option string) (is_animated is_video : bool)
| TgPoll (question : TgFormattedText) (options : list TgPollOption) (is_anonymous allows_multiple_answers : bool)
    (quiz_explanation : option TgFormattedText)
| TgContact (phone_number first_name last_name : string) (user_id : option UserId)
| TgLocation (latitude longitude : f64) (live_period_seconds : option Z)
| TgVenue (latitude longitude : f64) (title address : string) (provider venue_id : option string)
| TgDice (emoji : string) (value : Z)
| TgStory (story_id : TgStoryId) (via_mention : bool)
| TgInvoice (title description currency : string) (total_amount_minor : Z)
| TgService (action : string)
| TgUnsupported (constructor : string).

Inductive TgDelivery :=
| TgPending (client_request_id : ClientRequestId)
| TgSent
| TgFailed (code : string) (retryable : bool).
#[export] Instance TgDelivery_eq_dec : EqDecision TgDelivery.
Proof. solve_decision. Defined.

Record ReactionCount := {
  rc_reaction : string;
  rc_total_count : Z;
  rc_chosen_by_me : bool;
}.
#[export] Instance ReactionCount_eq_dec : EqDecision ReactionCount.
Proof. solve_decision. Defined.

Record TgMessage := {
  tm_id : TgMessageId;
  tm_chat_id : ChatId;
  tm_sender_user_id : UserId;
  tm_date_unix_ms : Z;
  tm_edit_date_unix_ms : option Z;
  tm_content : TgContent;
  tm_reply_to_message_id : option TgMessageId;
  tm_message_thread_id : option TgMessageId;
  tm_delivery_state : TgDelivery;
  tm_reactions : list ReactionCount;
  tm_is_outgoing : bool;
  tm_is_pinned : bool;
  tm_is_deleted : bool;
}.
#[export] Instance eta_TgMessage : Eta TgMessage := fun m =>
  Build_TgMessage (tm_id m) (tm_chat_id m) (tm_sender_user_id m) (tm_date_unix_ms m) (tm_edit_date_unix_ms m)
    (tm_content m) (tm_reply_to_message_id m) (tm_message_thread_id m) (tm_delivery_state m) (tm_reactions m)
    (tm_is_outgoing m) (tm_is_pinned m) (tm_is_deleted m).

(** The request a message waits for the answer to. *)
Definition pending_request (m : TgMessage) : option ClientRequestId :=
  match tm_delivery_state m with TgPending id => Some id | _ => None end.

(** ** The Telegram client's engine ([telegram-core/src/engine.rs])

    A command is decided against the state, which yields events or refuses it;
    the events are then applied.  [tg_execute] is the composition. *)

Inductive TgCommand :=
| UpsertChat (chat : Chat)
| UpsertChatFolder (folder : ChatFolder)
| DeleteChatFolder (folder_id : ChatFolderId)
| SetChatDraft (chat_id : ChatId) (draft : option ChatDraft)
| SetChatMarkedUnread (chat_id : ChatId) (marked_unread : bool)
| SetTypingActions (chat_id : ChatId) (actions : list TypingAction)
| UpsertRemoteMessage (message : TgMessage)
| SetMessageReaction (chat_id : ChatId) (message_id : TgMessageId) (reaction : ReactionCount)
| QueueMessage (chat_id : ChatId) (local_message_id : TgMessageId) (sender_user_id : UserId)
    (client_request_id : ClientRequestId) (date_unix_ms : Z) (content : TgContent)
    (reply_to_message_id message_thread_id : option TgMessageId)
| AcknowledgeMessage (client_request_id : ClientRequestId) (server_message_id : TgMessageId) (date_unix_ms : Z)
| FailMessage (client_request_id : ClientRequestId) (code : string) (retryable : bool)
| EditTgMessage (chat_id : ChatId) (message_id : TgMessageId) (content : TgContent) (edit_date_unix_ms : Z)
| DeleteTgMessages (chat_id : ChatId) (message_ids : list TgMessageId)
| SetChatRead (chat_id : ChatId) (last_read_inbox_message_id : TgMessageId) (unread_count : Z)
| SetPinnedMessage (chat_id : ChatId) (message_id : option TgMessageId).

Inductive TgEvent :=
| ChatUpserted (chat : Chat)
| ChatFolderUpserted (folder : ChatFolder)
| ChatFolderDeleted (folder_id : ChatFolderId)
| ChatDraftUpdated (chat_id : ChatId) (draft : option ChatDraft)
| ChatMarkedUnreadUpdated (chat_id : ChatId) (marked_unread : bool)
| TypingActionsUpdated (chat_id : ChatId) (actions : list TypingAction)
| RemoteMessageUpserted (message : TgMessage)
| MessageReactionUpdated (chat_id : ChatId) (message_id : TgMessageId) (reaction : ReactionCount)
| MessageQueued (message : TgMessage)
| MessageAcknowledged (chat_id : ChatId) (local_message_id server_message_id : TgMessageId) (date_unix_ms : Z)
| MessageFailed (chat_id : ChatId) (message_id : TgMessageId) (code : string) (retryable : bool)
| TgMessageEdited (chat_id : ChatId) (message_id : TgMessageId) (content : TgContent) (edit_date_unix_ms : Z)
| TgMessagesDeleted (chat_id : ChatId) (message_ids : list TgMessageId)
| ChatReadUpdated (chat_id : ChatId) (last_read_inbox_message_id : TgMessageId) (unread_count : Z)
| PinnedMessageUpdated (chat_id : ChatId) (message_id : option TgMessageId).

(** The key of a message: its chat and its identifier. *)
Notation TgKey := (Z * Z)%type (only parsing).

Record TelegramState := {
  ts_chats : gmap Z Chat;
  ts_chat_folders : gmap Z ChatFolder;
  ts_messages : gmap TgKey TgMessage;
  ts_pending_requests : gmap ClientRequestId TgKey;
  ts_typing_actions : gmap Z (list TypingAction);
}.
#[export] Instance eta_TelegramState : Eta TelegramState := fun s =>
  Build_TelegramState (ts_chats s) (ts_chat_folders s) (ts_messages s) (ts_pending_requests s) (ts_typing_actions s).

Definition empty_telegram : TelegramState := {|
  ts_chats := ∅; ts_chat_folders := ∅; ts_messages := ∅; ts_pending_requests := ∅; ts_typing_actions := ∅ |}.

Inductive TgError :=
| ChatNotFound (chat_id : ChatId)
| TgMessageNotFound (chat_id : ChatId) (message_id : TgMessageId)
| DuplicateTgMessage (chat_id : ChatId) (message_id : TgMessageId)
| InvalidClientRequestId
| DuplicateClientRequest (id : ClientRequestId)
| PendingRequestNotFound (id : ClientRequestId)
| DuplicateServerMessage (chat_id : ChatId) (message_id : TgMessageId)
| EmptyMessageList
| ChatFolderNotFound (folder_id : ChatFolderId)
| InvalidRemoteMessageState
| InvalidTgReaction.

(** ** Deciding *)

Definition tg_require_chat (s : TelegramState) (chat_id : ChatId) : result TgError Chat :=
  ok_or (ts_chats s !! chat_id) (ChatNotFound chat_id).

Definition tg_require_message (s : TelegramState) (chat_id : ChatId) (message_id : TgMessageId) :
    result TgError TgMessage :=
  ok_or (ts_messages s !! (chat_id, message_id)) (TgMessageNotFound chat_id message_id).

Definition tg_require_request (s : TelegramState) (id : ClientRequestId) : result TgError TgKey :=
  ok_or (ts_pending_requests s !! id) (PendingRequestNotFound id).

Fixpoint tg_require_messages (s : TelegramState) (chat_id : ChatId) (ids : list TgMessageId) : result TgError unit :=
  match ids with
  | [] => Ok tt
  | id :: rest => tg_require_message s chat_id id ;; tg_require_messages s chat_id rest
  end.

(** [ids.into_iter().collect::<BTreeSet<_>>()], in its order *)
Definition unique_ids (ids : list TgMessageId) : list TgMessageId :=
  merge_sort Z.le (elements (list_to_set ids : gset Z)).

(** The message a [QueueMessage] puts in the chat. *)
Definition queued_message (chat_id : ChatId) (local_message_id : TgMessageId) (sender_user_id : UserId)
    (client_request_id : ClientRequestId) (date_unix_ms : Z) (content : TgContent)
    (reply_to_message_id message_thread_id : option TgMessageId) : TgMessage := {|
  tm_id := local_message_id;
  tm_chat_id := chat_id;
  tm_sender_user_id := sender_user_id;
  tm_date_unix_ms := date_unix_ms;
  tm_edit_date_unix_ms := None;
  tm_content := content;
  tm_reply_to_message_id := reply_to_message_id;
  tm_message_thread_id := message_thread_id;
  tm_delivery_state := TgPending client_request_id;
  tm_reactions := [];
  tm_is_outgoing := true;
  tm_is_pinned := false;
  tm_is_deleted := false;
|}.

Definition tg_decide (command : TgCommand) (s : TelegramState) : result TgError (list TgEvent) :=
  match command with
  | UpsertChat chat => Ok [ChatUpserted chat]
  | UpsertChatFolder folder => Ok [ChatFolderUpserted folder]
  | DeleteChatFolder folder_id =>
      reject_if (negb (contains_key folder_id (ts_chat_folders s))) (ChatFolderNotFound folder_id) ;;
      Ok [ChatFolderDeleted folder_id]
  | SetChatDraft chat_id draft =>
      tg_require_chat s chat_id ;; Ok [ChatDraftUpdated chat_id draft]
  | SetChatMarkedUnread chat_id marked_unread =>
      tg_require_chat s chat_id ;; Ok [ChatMarkedUnreadUpdated chat_id marked_unread]
  | SetTypingActions chat_id actions =>
      tg_require_chat s chat_id ;; Ok [TypingActionsUpdated chat_id actions]
  | UpsertRemoteMessage message =>
      tg_require_chat s (tm_chat_id message) ;;
      reject_if (negb (eqb (tm_delivery_state message) TgSent)) InvalidRemoteMessageState ;;
      Ok [RemoteMessageUpserted message]
  | SetMessageReaction chat_id message_id reaction =>
      tg_require_message s chat_id message_id ;;
      reject_if (blank (rc_reaction reaction)) InvalidTgReaction ;;
      Ok [MessageReactionUpdated chat_id message_id reaction]
  | QueueMessage chat_id local_message_id sender_user_id client_request_id date_unix_ms content reply_to thread =>
      tg_require_chat s chat_id ;;
      reject_if (contains_key (chat_id, local_message_id) (ts_messages s))
        (DuplicateTgMessage chat_id local_message_id) ;;
      reject_if (negb (client_request_id_is_valid client_request_id)) InvalidClientRequestId ;;
      reject_if (contains_key client_request_id (ts_pending_requests s)) (DuplicateClientRequest client_request_id) ;;
      Ok [MessageQueued (queued_message chat_id local_message_id sender_user_id client_request_id date_unix_ms content
                           reply_to thread)]
  | AcknowledgeMessage client_request_id server_message_id date_unix_ms =>
      '(chat_id, local_message_id) ← tg_require_request s client_request_id;
      reject_if (negb (server_message_id =? local_message_id)
                 && contains_key (chat_id, server_message_id) (ts_messages s))
        (DuplicateServerMessage chat_id server_message_id) ;;
      Ok [MessageAcknowledged chat_id local_message_id server_message_id date_unix_ms]
  | FailMessage client_request_id code retryable =>
      '(chat_id, message_id) ← tg_require_request s client_request_id;
      Ok [MessageFailed chat_id message_id code retryable]
  | EditTgMessage chat_id message_id content edit_date_unix_ms =>
      tg_require_message s chat_id message_id ;;
      Ok [TgMessageEdited chat_id message_id content edit_date_unix_ms]
  | DeleteTgMessages chat_id message_ids =>
      tg_require_chat s chat_id ;;
      let unique := unique_ids message_ids in
      reject_if (eqb unique []) EmptyMessageList ;;
      tg_require_messages s chat_id unique ;;
      Ok [TgMessagesDeleted chat_id unique]
  | SetChatRead chat_id last_read_inbox_message_id unread_count =>
      chat ← tg_require_chat s chat_id;
      if is_some_and (chat_last_read_inbox_message_id chat) (fun current => last_read_inbox_message_id <=? current)
         && (chat_unread_count chat =? unread_count)
      then Ok []
      else Ok [ChatReadUpdated chat_id last_read_inbox_message_id unread_count]
  | SetPinnedMessage chat_id message_id =>
      chat ← tg_require_chat s chat_id;
      (match message_id with
       | Some id => tg_require_message s chat_id id ;; Ok tt
       | None => Ok tt
       end) ;;
      if eqb (chat_pinned_message_id chat) message_id then Ok []
      else Ok [PinnedMessageUpdated chat_id message_id]
  end.

(** ** Applying *)

Definition in_chat (chat_id : ChatId) (f : Chat -> Chat) (s : TelegramState) : TelegramState :=
  s ⟪ ts_chats ::= alter f chat_id ⟫.

Definition in_message (chat_id : ChatId) (message_id : TgMessageId) (f : TgMessage -> TgMessage) (s : TelegramState) :
    TelegramState :=
  s ⟪ ts_messages ::= alter f (chat_id, message_id) ⟫.

(** [if let Pending { client_request_id } = &message.delivery_state { pending_requests.remove(..) }] *)
Definition forget_request (m : TgMessage) (s : TelegramState) : TelegramState :=
  match pending_request m with
  | Some id => s ⟪ ts_pending_requests ::= delete id ⟫
  | None => s
  end.

(** Adds a message and makes it the last one of its chat. *)
Definition put_message (m : TgMessage) (s : TelegramState) : TelegramState :=
  (in_chat (tm_chat_id m) (fun chat => chat ⟪ chat_last_message_id := Some (tm_id m) ⟫) s)
    ⟪ ts_messages ::= <[(tm_chat_id m, tm_id m) := m]> ⟫.

Definition delete_message (chat_id : ChatId) (s : TelegramState) (message_id : TgMessageId) : TelegramState :=
  match ts_messages s !! (chat_id, message_id) with
  | None => s
  | Some m => forget_request m (in_message chat_id message_id (fun m => m ⟪ tm_is_deleted := true ⟫) s)
  end.

Definition update_reactions (reaction : ReactionCount) (reactions : list ReactionCount) : list ReactionCount :=
  let others := filter (fun existing => rc_reaction existing <> rc_reaction reaction) reactions in
  if 0 <? rc_total_count reaction then (others ++ [reaction])%list else others.

Definition tg_apply (event : TgEvent) (s : TelegramState) : TelegramState :=
  match event with
  | ChatUpserted chat => s ⟪ ts_chats ::= <[chat_id chat := chat]> ⟫
  | ChatFolderUpserted folder => s ⟪ ts_chat_folders ::= <[cf_id folder := folder]> ⟫
  | ChatFolderDeleted folder_id =>
      s ⟪ ts_chat_folders ::= delete folder_id ⟫
        ⟪ ts_chats ::= fmap (fun chat => chat ⟪ chat_folder_ids ::= filter (fun id => id <> folder_id) ⟫) ⟫
  | ChatDraftUpdated chat_id draft => in_chat chat_id (fun chat => chat ⟪ chat_draft := draft ⟫) s
  | ChatMarkedUnreadUpdated chat_id marked_unread =>
      in_chat chat_id (fun chat => chat ⟪ chat_is_marked_unread := marked_unread ⟫) s
  | TypingActionsUpdated chat_id actions =>
      s ⟪ ts_typing_actions ::= match actions with [] => delete chat_id | _ => <[chat_id := actions]> end ⟫
  | RemoteMessageUpserted message => put_message message s
  | MessageReactionUpdated chat_id message_id reaction =>
      in_message chat_id message_id (fun m => m ⟪ tm_reactions ::= update_reactions reaction ⟫) s
  | MessageQueued message =>
      put_message message
        (match pending_request message with
         | Some id => s ⟪ ts_pending_requests ::= <[id := (tm_chat_id message, tm_id message)]> ⟫
         | None => s
         end)
  | MessageAcknowledged chat_id local_message_id server_message_id date_unix_ms =>
      match ts_messages s !! (chat_id, local_message_id) with
      | None => s
      | Some m =>
          let s := forget_request m (s ⟪ ts_messages ::= delete (chat_id, local_message_id) ⟫) in
          let m := m ⟪ tm_id := server_message_id ⟫ ⟪ tm_date_unix_ms := date_unix_ms ⟫
                     ⟪ tm_delivery_state := TgSent ⟫ in
          in_chat chat_id (fun chat =>
              if eqb (chat_last_message_id chat) (Some local_message_id)
              then chat ⟪ chat_last_message_id := Some server_message_id ⟫ else chat)
            (s ⟪ ts_messages ::= <[(chat_id, server_message_id) := m]> ⟫)
      end
  | MessageFailed chat_id message_id code retryable =>
      match ts_messages s !! (chat_id, message_id) with
      | None => s
      | Some m =>
          in_message chat_id message_id (fun m => m ⟪ tm_delivery_state := TgFailed code retryable ⟫)
            (forget_request m s)
      end
  | TgMessageEdited chat_id message_id content edit_date_unix_ms =>
      in_message chat_id message_id
        (fun m => m ⟪ tm_content := content ⟫ ⟪ tm_edit_date_unix_ms := Some edit_date_unix_ms ⟫) s
  | TgMessagesDeleted chat_id message_ids => foldl (delete_message chat_id) s message_ids
  | ChatReadUpdated chat_id last_read_inbox_message_id unread_count =>
      in_chat chat_id (fun chat =>
        (if is_none_or (chat_last_read_inbox_message_id chat) (fun current => current <=? last_read_inbox_message_id)
         then chat ⟪ chat_last_read_inbox_message_id := Some last_read_inbox_message_id ⟫ else chat)
          ⟪ chat_unread_count := unread_count ⟫) s
  | PinnedMessageUpdated chat_id message_id =>
      match ts_chats s !! chat_id with
      | None => s
      | Some chat =>
          let pin (id : option TgMessageId) (flag : bool) s :=
            match id with
            | Some id => in_message chat_id id (fun m => m ⟪ tm_is_pinned := flag ⟫) s
            | None => s
            end in
          let s := pin (chat_pinned_message_id chat) false s in
          let s := in_chat chat_id (fun chat => chat ⟪ chat_pinned_message_id := message_id ⟫) s in
          pin message_id true s
      end
  end.

Definition apply_all (events : list TgEvent) (s : TelegramState) : TelegramState :=
  foldl (fun s event => tg_apply event s) s events.

Definition tg_execute (command : TgCommand) (s : TelegramState) : TelegramState * result TgError (list TgEvent) :=
  match tg_decide command s with
  | Ok events => (apply_all events s, Ok events)
  | Err e => (s, Err e)
  end.

Definition tg_run (commands : list TgCommand) (s : TelegramState) : TelegramState :=
  foldl (fun s command => fst (tg_execute command s)) s commands.

(** ** Serialisation of the messages

    [message_map_serde] writes the values of the map in the order of their keys
    and rebuilds the keys from the values. *)

Definition tg_key_le (a b : TgKey) : Prop := a.1 < b.1 \/ (a.1 = b.1 /\ a.2 <= b.2).
#[export] Instance tg_key_le_dec : RelDecision tg_key_le.
Proof. intros a b. unfold tg_key_le. apply _. Defined.

Definition key_of (m : TgMessage) : TgKey := (tm_chat_id m, tm_id m).

Definition serialize_messages (messages : gmap TgKey TgMessage) : list TgMessage :=
  (merge_sort (fun p q => tg_key_le p.1 q.1) (map_to_list messages)).*2.

Definition deserialize_messages (messages : list TgMessage) : gmap TgKey TgMessage :=
  foldl (fun messages m => <[key_of m := m]> messages) ∅ messages.
