(* ===== verification/TgInvariant.v ===== *)
(** * What the Telegram engine keeps true ([telegram-core/src/engine.rs])

    The maps of a reachable state agree with the data in them and with each
    other; the requests that wait for an answer are exactly carried by unsent
    messages; an acknowledgement turns the local message into the sent one. *)

From S2P Require Import Prelude Text Maps TgEngine.

(** ** Consistency of the maps *)

Record tg_wf (s : TelegramState) : Prop := {
  wf_chats : map_Forall (fun c chat => chat_id chat = c) (ts_chats s);
  wf_folders : map_Forall (fun f folder => cf_id folder = f) (ts_chat_folders s);
  wf_messages : map_Forall (fun k m => key_of m = k /\ is_Some (ts_chats s !! k.1)) (ts_messages s);
  wf_typing : map_Forall (fun c actions => actions <> [] /\ is_Some (ts_chats s !! c)) (ts_typing_actions s);
}.

Lemma empty_wf : tg_wf empty_telegram.
Proof. split; apply map_Forall_empty. Qed.

Lemma in_chat_wf (c : ChatId) (f : Chat -> Chat) (s : TelegramState) :
  (forall chat, chat_id (f chat) = chat_id chat) -> tg_wf s -> tg_wf (in_chat c f s).
Proof.
  intros Hf [Hc Hfo Hm Ht]. unfold in_chat. split; fields; [|done| |].
  - apply map_Forall_alter; [|done]. intros chat _ <-. apply Hf.
  - eapply map_Forall_impl; [exact Hm|]. intros k m [? Hk]. split; [done|]. by rewrite lookup_alter_is_Some.
  - eapply map_Forall_impl; [exact Ht|]. intros k m [? Hk]. split; [done|]. by rewrite lookup_alter_is_Some.
Qed.

Lemma in_message_wf (c : ChatId) (id : TgMessageId) (f : TgMessage -> TgMessage) (s : TelegramState) :
  (forall m, key_of (f m) = key_of m) -> tg_wf s -> tg_wf (in_message c id f s).
Proof.
  intros Hf [Hc Hfo Hm Ht]. unfold in_message. split; fields; [done|done| |done].
  apply map_Forall_alter; [|done]. intros m _ [Hk Hin]. by rewrite Hf.
Qed.

Lemma forget_request_messages (m : TgMessage) (s : TelegramState) : ts_messages (forget_request m s) = ts_messages s.
Proof. unfold forget_request. by destruct (pending_request m). Qed.

Lemma forget_request_chats (m : TgMessage) (s : TelegramState) : ts_chats (forget_request m s) = ts_chats s.
Proof. unfold forget_request. by destruct (pending_request m). Qed.

Lemma forget_request_wf (m : TgMessage) (s : TelegramState) : tg_wf s -> tg_wf (forget_request m s).
Proof. unfold forget_request. by destruct (pending_request m) as [r|]; [intros []; split|]. Qed.

Lemma set_requests_wf (f : gmap ClientRequestId TgKey -> gmap ClientRequestId TgKey) (s : TelegramState) :
  tg_wf s -> tg_wf (s ⟪ ts_pending_requests ::= f ⟫).
Proof. by intros []; split. Qed.

Lemma put_message_wf (m : TgMessage) (s : TelegramState) :
  is_Some (ts_chats s !! tm_chat_id m) -> tg_wf s -> tg_wf (put_message m s).
Proof.
  intros Hchat Hwf. unfold put_message.
  destruct (in_chat_wf (tm_chat_id m) (fun chat => chat ⟪ chat_last_message_id := Some (tm_id m) ⟫) s) as [Hc Hfo Hm Ht];
    [done|done|].
  split; fields; [done|done| |done].
  apply map_Forall_insert_2; [|done]. split; [done|]. unfold in_chat. fields. by rewrite lookup_alter_is_Some.
Qed.

Lemma delete_message_wf (c : ChatId) (s : TelegramState) (id : TgMessageId) :
  tg_wf s -> tg_wf (delete_message c s id).
Proof.
  unfold delete_message. intros Hwf. destruct (ts_messages s !! (c, id)) as [m|]; [|done].
  by apply forget_request_wf, in_message_wf.
Qed.

(** The chat and the message an event names. *)
Definition event_chat (event : TgEvent) : option ChatId :=
  match event with
  | TypingActionsUpdated c _ => Some c
  | RemoteMessageUpserted m | MessageQueued m => Some (tm_chat_id m)
  | _ => None
  end.

Definition event_applies (event : TgEvent) (s : TelegramState) : Prop :=
  forall c, event_chat event = Some c -> is_Some (ts_chats s !! c).

Lemma acknowledged_wf (c : ChatId) (l id : TgMessageId) (date : Z) (s : TelegramState) :
  tg_wf s -> tg_wf (tg_apply (MessageAcknowledged c l id date) s).
Proof.
  intros Hwf. simpl. destruct (ts_messages s !! (c, l)) as [m|] eqn:Hl; [|done].
  destruct (wf_messages s Hwf _ _ Hl) as [Hkey Hchat]. simpl in Hchat.
  apply in_chat_wf; [intros chat; by destruct (eqb _ _)|].
  assert (Hwf' : tg_wf (forget_request m (s ⟪ ts_messages ::= delete (c, l) ⟫))).
  { apply forget_request_wf. destruct Hwf as [Hc Hfo Hm Ht]. split; fields; [done|done| |done].
    by apply map_Forall_delete. }
  destruct Hwf' as [Hc Hfo Hm Ht]. split; fields; [done|done| |done].
  apply map_Forall_insert_2; [|done]. rewrite forget_request_chats. split; [|done].
  unfold key_of in *. fields. by injection Hkey as -> _.
Qed.

Lemma folder_deleted_wf (f : ChatFolderId) (s : TelegramState) : tg_wf s -> tg_wf (tg_apply (ChatFolderDeleted f) s).
Proof.
  intros [Hc Hfo Hm Ht]. simpl. split; fields.
  - by apply map_Forall_fmap.
  - by apply map_Forall_delete.
  - eapply map_Forall_impl; [exact Hm|]. intros k m [? ?]. split; [done|]. by rewrite lookup_fmap, fmap_is_Some.
  - eapply map_Forall_impl; [exact Ht|]. intros k m [? ?]. split; [done|]. by rewrite lookup_fmap, fmap_is_Some.
Qed.

Lemma chat_upserted_wf (chat : Chat) (s : TelegramState) : tg_wf s -> tg_wf (tg_apply (ChatUpserted chat) s).
Proof.
  intros [Hc Hfo Hm Ht]. simpl. split; fields; [by apply map_Forall_insert_2|done| |].
  - eapply map_Forall_impl; [exact Hm|]. intros k m [? ?]. split; [done|]. rewrite lookup_insert_is_Some'. tauto.
  - eapply map_Forall_impl; [exact Ht|]. intros k m [? ?]. split; [done|]. rewrite lookup_insert_is_Some'. tauto.
Qed.

Lemma pinned_wf (c : ChatId) (id : option TgMessageId) (s : TelegramState) :
  tg_wf s -> tg_wf (tg_apply (PinnedMessageUpdated c id) s).
Proof.
  intros Hwf. simpl. destruct (ts_chats s !! c) as [chat|]; [|done].
  destruct id, (chat_pinned_message_id chat); repeat (apply in_message_wf; [done|]);
    apply in_chat_wf; try done; repeat (apply in_message_wf; [done|]); done.
Qed.

Lemma apply_wf (event : TgEvent) (s : TelegramState) : event_applies event s -> tg_wf s -> tg_wf (tg_apply event s).
Proof.
  intros Happ Hwf. unfold event_applies in Happ.
  destruct event; try (by apply in_chat_wf); try (by apply in_message_wf);
    try (by auto using chat_upserted_wf, folder_deleted_wf, acknowledged_wf, pinned_wf).
  - destruct Hwf. split; fields; [done| |done|done]. by apply map_Forall_insert_2.
  - destruct Hwf. simpl. split; fields; [done|done|done|].
    destruct actions; [by apply map_Forall_delete|]. apply map_Forall_insert_2; [|done]. split; [done|by apply Happ].
  - apply put_message_wf; [by apply Happ|done].
  - simpl. apply put_message_wf; destruct (pending_request message); auto using set_requests_wf; by apply Happ.
  - simpl. destruct (ts_messages s !! _); [|done]. apply in_message_wf; [done|]. by apply forget_request_wf.
  - simpl. clear Happ. revert s Hwf. induction message_ids as [|id ids IH]; intros s Hwf; [done|].
    by apply IH, delete_message_wf.
  - apply in_chat_wf; [|done]. intros chat. by destruct (is_none_or _ _).
Qed.

(** Every decision is at most one event, and it applies. *)
Lemma decide_applies (command : TgCommand) (s : TelegramState) (events : list TgEvent) :
  tg_decide command s = Ok events ->
  events = [] \/ exists event, events = [event] /\ event_applies event s.
Proof.
  unfold event_applies. intros Hd.
  destruct command; simpl in Hd; okps;
    repeat match goal with H : (if ?b then _ else _) = Ok _ |- _ => destruct b end; okps; subst;
    try (by left); right; (eexists; split; [reflexivity|]); intros ? [=]; subst; simpl;
    unfold tg_require_chat in *; okps; eauto.
Qed.

Lemma execute_cases (command : TgCommand) (s : TelegramState) :
  fst (tg_execute command s) = s
  \/ exists event, tg_decide command s = Ok [event] /\ event_applies event s
                   /\ fst (tg_execute command s) = tg_apply event s.
Proof.
  unfold tg_execute. destruct (tg_decide command s) as [events|e] eqn:Hd; [|by left].
  destruct (decide_applies _ _ _ Hd) as [->|(event & -> & Happ)]; [by left|]. right. by exists event.
Qed.

Lemma tg_execute_wf (command : TgCommand) (s : TelegramState) : tg_wf s -> tg_wf (fst (tg_execute command s)).
Proof.
  intros Hwf. destruct (execute_cases command s) as [->|(event & _ & Happ & ->)]; [done|]. by apply apply_wf.
Qed.

Lemma tg_run_wf (commands : list TgCommand) (s : TelegramState) : tg_wf s -> tg_wf (tg_run commands s).
Proof.
  revert s. induction commands as [|command commands IH]; intros s Hwf; [done|]. by apply IH, tg_execute_wf.
Qed.

(** ** Requests *)

(** A request waits for the answer to a local message, not yet sent or deleted. *)
Definition requests_ok (s : TelegramState) : Prop :=
  map_Forall (fun r k => k.2 < 0 /\ exists m, ts_messages s !! k = Some m /\ pending_request m = Some r
                                              /\ tm_is_deleted m = false) (ts_pending_requests s).

(** The client numbers its unsent messages below zero; the server's
    identifiers are positive. *)
Definition proper_ids (command : TgCommand) : bool :=
  match command with
  | QueueMessage _ local_message_id _ _ _ _ _ _ => local_message_id <? 0
  | UpsertRemoteMessage m => 0 <? tm_id m
  | AcknowledgeMessage _ server_message_id _ => 0 <? server_message_id
  | _ => true
  end.

(** No request was added, and the messages of those left did not change for them. *)
Lemma requests_shrink (s s' : TelegramState) :
  ts_pending_requests s' ⊆ ts_pending_requests s ->
  (forall r k m, ts_pending_requests s' !! r = Some k -> ts_messages s !! k = Some m ->
     k.2 < 0 -> pending_request m = Some r -> tm_is_deleted m = false ->
     exists m', ts_messages s' !! k = Some m' /\ pending_request m' = Some r /\ tm_is_deleted m' = false) ->
  requests_ok s -> requests_ok s'.
Proof.
  intros Hsub Hmsg Hok r k Hk. destruct (Hok r k) as (Hneg & m & Hm & Hr & Hdel); [by eapply lookup_weaken|].
  eauto.
Qed.

Lemma in_message_requests (c : ChatId) (id : TgMessageId) (f : TgMessage -> TgMessage) (s : TelegramState) :
  (forall m, pending_request (f m) = pending_request m /\ tm_is_deleted (f m) = tm_is_deleted m) ->
  requests_ok s -> requests_ok (in_message c id f s).
Proof.
  intros Hf. apply requests_shrink; [done|]. unfold in_message. fields. intros r k m _ Hm _ Hr Hdel.
  destruct (decide ((c, id) = k)) as [<-|Hne].
  - exists (f m). rewrite alter_same, Hm. destruct (Hf m) as [-> ->]. done.
  - exists m. by rewrite alter_other.
Qed.

(** Changing a message and forgetting its request. *)
Lemma settle_requests (m : TgMessage) (s s' : TelegramState) :
  ts_messages s !! key_of m = Some m ->
  ts_pending_requests s' = ts_pending_requests (forget_request m s) ->
  (forall k x, k <> key_of m -> k.2 < 0 -> ts_messages s !! k = Some x -> ts_messages s' !! k = Some x) ->
  requests_ok s -> requests_ok s'.
Proof.
  intros Hm Hp Hother. unfold forget_request in Hp. apply requests_shrink.
  - rewrite Hp. destruct (pending_request m); [apply delete_subseteq|done].
  - intros r k x Hk Hx Hneg Hr Hdel. destruct (decide (k = key_of m)) as [->|Hne]; [|eauto].
    replace x with m in * by congruence. rewrite Hp, Hr in Hk. fields. by rewrite lookup_delete_eq in Hk.
Qed.

Lemma delete_message_requests (c : ChatId) (s : TelegramState) (id : TgMessageId) :
  tg_wf s -> requests_ok s -> requests_ok (delete_message c s id).
Proof.
  unfold delete_message. intros Hwf. destruct (ts_messages s !! (c, id)) as [m|] eqn:Hm; [|done].
  destruct (wf_messages s Hwf _ _ Hm) as [Hkey _]. apply (settle_requests m).
  - by rewrite Hkey.
  - unfold forget_request. by destruct (pending_request m).
  - intros k x Hne _ Hx. rewrite forget_request_messages. unfold in_message. fields.
    by rewrite alter_other by congruence.
Qed.

(** What the decision checked, and the discipline of identifiers. *)
Definition event_proper (event : TgEvent) (s : TelegramState) : Prop :=
  match event with
  | RemoteMessageUpserted m => 0 < tm_id m
  | MessageQueued m =>
      tm_id m < 0 /\ ts_messages s !! key_of m = None /\ tm_is_deleted m = false
  | MessageAcknowledged _ _ id _ => 0 < id
  | _ => True
  end.

Lemma decide_proper (command : TgCommand) (s : TelegramState) (event : TgEvent) :
  proper_ids command = true -> tg_decide command s = Ok [event] -> event_proper event s.
Proof.
  intros Hp Hd.
  destruct command; simpl in Hp, Hd; okps;
    repeat match goal with H : (if ?b then _ else _) = Ok _ |- _ => destruct b end; okps; simplify_eq; simpl;
    rewrite ?contains_key_false in *; try lia; done || (split_and!; [lia|done|done]).
Qed.

Lemma put_message_requests (m : TgMessage) (s : TelegramState) :
  0 < tm_id m -> requests_ok s -> requests_ok (put_message m s).
Proof.
  intros Hpos. apply requests_shrink; [done|]. unfold put_message. fields. intros r k x _ Hx Hneg ? ?.
  exists x. rewrite lookup_insert_ne; [done|]. intros <-. simpl in Hneg. lia.
Qed.

Lemma queue_message_requests (m : TgMessage) (s : TelegramState) :
  event_proper (MessageQueued m) s -> requests_ok s -> requests_ok (tg_apply (MessageQueued m) s).
Proof.
  intros (Hneg & Hnew & Hdel) Hok r k. simpl. unfold put_message, in_chat.
  destruct (pending_request m) as [id|] eqn:Hid; fields; [rewrite lookup_insert_Some|]; intros Hk.
  - destruct Hk as [[-> <-]|[Hr Hk]].
    + split; [done|]. exists m. by rewrite lookup_insert_eq.
    + destruct (Hok r k Hk) as (? & x & Hx & ?). split; [done|]. exists x.
      rewrite lookup_insert_ne; [done|]. intros <-. unfold key_of in Hnew. congruence.
  - destruct (Hok r k Hk) as (? & x & Hx & ?). split; [done|]. exists x.
    rewrite lookup_insert_ne; [done|]. intros <-. unfold key_of in Hnew. congruence.
Qed.

Lemma acknowledged_requests (c : ChatId) (l id : TgMessageId) (date : Z) (s : TelegramState) :
  tg_wf s -> 0 < id -> requests_ok s -> requests_ok (tg_apply (MessageAcknowledged c l id date) s).
Proof.
  intros Hwf Hpos. simpl. destruct (ts_messages s !! (c, l)) as [m|] eqn:Hl; [|done].
  destruct (wf_messages s Hwf _ _ Hl) as [Hkey _]. apply (settle_requests m).
  - by rewrite Hkey.
  - unfold in_chat, forget_request. fields. by destruct (pending_request m).
  - intros k x Hne Hneg Hx. unfold in_chat. fields. rewrite forget_request_messages. fields.
    rewrite lookup_insert_ne, lookup_delete_ne; [done|congruence|]. intros <-. simpl in Hneg. lia.
Qed.

Lemma failed_requests (c : ChatId) (id : TgMessageId) (code : string) (retryable : bool) (s : TelegramState) :
  tg_wf s -> requests_ok s -> requests_ok (tg_apply (MessageFailed c id code retryable) s).
Proof.
  intros Hwf. simpl. destruct (ts_messages s !! (c, id)) as [m|] eqn:Hl; [|done].
  destruct (wf_messages s Hwf _ _ Hl) as [Hkey _]. apply (settle_requests m).
  - by rewrite Hkey.
  - unfold in_message. fields. done.
  - intros k x Hne _ Hx. unfold in_message. fields. rewrite forget_request_messages.
    by rewrite alter_other by congruence.
Qed.

Lemma pinned_requests (c : ChatId) (id : option TgMessageId) (s : TelegramState) :
  requests_ok s -> requests_ok (tg_apply (PinnedMessageUpdated c id) s).
Proof.
  intros Hok. simpl. destruct (ts_chats s !! c) as [chat|]; [|done].
  destruct id, (chat_pinned_message_id chat); repeat (apply in_message_requests; [done|]);
    repeat apply (in_message_requests _ _ _ s); try done.
Qed.

Lemma apply_requests (event : TgEvent) (s : TelegramState) :
  tg_wf s -> event_proper event s -> requests_ok s -> requests_ok (tg_apply event s).
Proof.
  intros Hwf Hp Hok.
  destruct event; try done; try (by apply in_message_requests);
    try (by auto using queue_message_requests, acknowledged_requests, failed_requests,
           pinned_requests).
  - by apply put_message_requests.
  - simpl. clear Hp. revert s Hwf Hok. induction message_ids as [|id ids IH]; intros s Hwf Hok; [done|].
    apply IH; [by apply delete_message_wf|by apply delete_message_requests].
Qed.

Lemma run_requests (commands : list TgCommand) (s : TelegramState) :
  forallb proper_ids commands = true -> tg_wf s -> requests_ok s -> requests_ok (tg_run commands s).
Proof.
  revert s. induction commands as [|command commands IH]; intros s Hp Hwf Hok; [done|].
  simpl in Hp. apply andb_true_iff in Hp as [Hc Hp]. apply IH; [done|by apply tg_execute_wf|].
  destruct (execute_cases command s) as [->|(event & Hd & _ & ->)]; [done|].
  eapply apply_requests; eauto using decide_proper.
Qed.

Lemma empty_requests : requests_ok empty_telegram.
Proof. apply map_Forall_empty. Qed.

(** ** Settling a request *)

(** The message as the server has it. *)
Definition sent_as (id : TgMessageId) (date : Z) (m : TgMessage) : TgMessage :=
  m ⟪ tm_id := id ⟫ ⟪ tm_date_unix_ms := date ⟫ ⟪ tm_delivery_state := TgSent ⟫.

Lemma acknowledged_state (c : ChatId) (l id : TgMessageId) (date : Z) (m : TgMessage) (r : ClientRequestId)
    (s : TelegramState) :
  ts_messages s !! (c, l) = Some m -> pending_request m = Some r ->
  let s' := tg_apply (MessageAcknowledged c l id date) s in
  ts_messages s' = <[(c, id) := sent_as id date m]> (delete (c, l) (ts_messages s))
  /\ ts_pending_requests s' = delete r (ts_pending_requests s)
  /\ ts_chats s' = alter (fun chat => if eqb (chat_last_message_id chat) (Some l)
                                      then chat ⟪ chat_last_message_id := Some id ⟫ else chat) c (ts_chats s).
Proof.
  intros Hm Hr. simpl. rewrite Hm. unfold in_chat. fields.
  rewrite forget_request_messages, forget_request_chats. fields.
  unfold forget_request. rewrite Hr. fields. done.
Qed.

(** Whatever the client executed, with identifiers below zero for what it has not
    sent: a request that waits for an answer is carried by one unsent message;
    acknowledging it under an identifier the chat does not use succeeds and
    replaces exactly that message, under the new identifier; no request refers
    to the old one any more, and no answer to the request is accepted twice. *)
Theorem acknowledgement_delivers_the_message (commands : list TgCommand) (r : ClientRequestId) (c : ChatId)
    (l id : TgMessageId) (date : Z) :
  let s := tg_run commands empty_telegram in
  forallb proper_ids commands = true ->
  ts_pending_requests s !! r = Some (c, l) ->
  ts_messages s !! (c, id) = None -> 0 < id ->
  exists m s',
    ts_messages s !! (c, l) = Some m /\ pending_request m = Some r /\ tm_is_deleted m = false
    /\ tg_execute (AcknowledgeMessage r id date) s = (s', Ok [MessageAcknowledged c l id date])
    /\ ts_messages s' = <[(c, id) := sent_as id date m]> (delete (c, l) (ts_messages s))
    /\ (forall r' k, ts_pending_requests s' !! r' = Some k <-> r' <> r /\ ts_pending_requests s !! r' = Some k)
    /\ (forall r' k, ts_pending_requests s' !! r' = Some k -> k <> (c, l) /\ is_Some (ts_messages s' !! k))
    /\ (forall id' date', snd (tg_execute (AcknowledgeMessage r id' date') s') = Err (PendingRequestNotFound r)).
Proof.
  intros s Hp Hr Hfree Hpos.
  assert (Hwf : tg_wf s) by apply tg_run_wf, empty_wf.
  assert (Hok : requests_ok s) by (apply run_requests; auto using empty_wf, empty_requests).
  destruct (Hok _ _ Hr) as (Hneg & m & Hm & Hmr & Hdel).
  destruct (acknowledged_state c l id date m r s Hm Hmr) as (Hms & Hps & _).
  assert (Hok' : requests_ok (tg_apply (MessageAcknowledged c l id date) s)) by (by apply acknowledged_requests).
  assert (Hex : tg_execute (AcknowledgeMessage r id date) s
                = (tg_apply (MessageAcknowledged c l id date) s, Ok [MessageAcknowledged c l id date])).
  { unfold tg_execute. simpl. unfold tg_require_request. rewrite Hr. simpl.
    by rewrite (proj2 (contains_key_false _ _) Hfree), andb_false_r. }
  revert Hms Hps Hok' Hex. generalize (tg_apply (MessageAcknowledged c l id date) s) as s'. intros s' Hms Hps Hok' Hex.
  exists m, s'. split_and!; try done.
  - intros r' k. rewrite Hps, lookup_delete_Some. naive_solver.
  - intros r' k Hk. destruct (Hok' _ _ Hk) as (_ & m' & Hm' & Hr' & _). split; [|by eexists]. intros ->.
    rewrite Hms, lookup_insert_ne, lookup_delete_eq in Hm'; [done|]. intros [=]. simpl in Hneg. lia.
  - intros id' date'. unfold tg_execute. simpl. unfold tg_require_request. by rewrite Hps, lookup_delete_eq.
Qed.

(** ** Serialisation *)

(** [into_iter().collect::<BTreeMap<_, _>>()] of distinct keys *)
Lemma collect_distinct {K V : Type} `{Countable K} (l : list (K * V)) (m : gmap K V) :
  NoDup l.*1 -> foldl (fun m p => <[p.1 := p.2]> m) m l = list_to_map l ∪ m.
Proof.
  revert m. induction l as [|[k v] l IH]; intros m; csimpl; [by rewrite (left_id_L ∅ (∪))|].
  intros [Hk Hnd]%list.NoDup_cons. rewrite IH by done.
  rewrite <- insert_union_r by (by apply not_elem_of_list_to_map_1). by rewrite insert_union_l.
Qed.

Lemma deserialize_collect (l : list TgMessage) (m : gmap TgKey TgMessage) :
  foldl (fun messages x => <[key_of x := x]> messages) m l
  = foldl (fun m p => <[p.1 := p.2]> m) m ((fun x => (key_of x, x)) <$> l).
Proof. revert m. induction l as [|x l IH]; intros m; csimpl; [done|]. apply IH. Qed.

Lemma deserialize_serialize (messages : gmap TgKey TgMessage) :
  map_Forall (fun k m => key_of m = k) messages ->
  deserialize_messages (serialize_messages messages) = messages.
Proof.
  intros Hkeys. unfold deserialize_messages, serialize_messages. rewrite deserialize_collect.
  set (items := merge_sort _ _).
  assert (Hitems : items ≡ₚ map_to_list messages) by apply merge_sort_Permutation.
  assert (Hback : (fun x => (key_of x, x)) <$> items.*2 = items).
  { rewrite <- list_fmap_compose. rewrite <- (list_fmap_id items) at 2. apply list_fmap_ext.
    intros i [k v] Hi. simpl. f_equal. apply (Hkeys k v). apply elem_of_map_to_list.
    rewrite <- Hitems. by apply list_elem_of_lookup_2 in Hi. }
  assert (Hnd : NoDup items.*1) by (rewrite Hitems; apply NoDup_fst_map_to_list).
  rewrite Hback, collect_distinct, (right_id_L ∅ (∪)) by done.
  symmetry. by apply list_to_map_flip.
Qed.

Lemma messages_keyed (s : TelegramState) : tg_wf s -> map_Forall (fun k m => key_of m = k) (ts_messages s).
Proof. intros Hwf. eapply map_Forall_impl; [apply (wf_messages s Hwf)|]. by intros k m [? _]. Qed.

(** C40: Every state the client can reach is consistent (each chat, folder and message
    sits under its own identifier, each message and each list of typing actions
    belongs to a chat), and its messages, written without their keys, read back
    as the same map. *)
Theorem client_state_survives_serialisation (commands : list TgCommand) :
  let s := tg_run commands empty_telegram in
  tg_wf s /\ deserialize_messages (serialize_messages (ts_messages s)) = ts_messages s.
Proof.
  assert (Hwf : tg_wf (tg_run commands empty_telegram)) by apply tg_run_wf, empty_wf.
  split; [done|]. by apply deserialize_serialize, messages_keyed.
Qed.

(** ** Demonstration *)

Definition demo_request (name : string) (local : TgMessageId) : TgCommand :=
  QueueMessage 7 local 1 (MkClientRequestId name) 1000 (TgText (tg_plain "hello")) None None.

Definition demo_chat : list TgCommand := [UpsertChat (chat_new 7 ChatPrivate "General"); demo_request "first" (-1)].

Lemma acknowledgement_delivers_the_message_witness :
  let s := tg_run demo_chat empty_telegram in
  exists m s',
    ts_messages s !! (7, -1) = Some m /\ pending_request m = Some (MkClientRequestId "first") /\ tm_is_deleted m = false
    /\ tg_execute (AcknowledgeMessage (MkClientRequestId "first") 42 2000) s
       = (s', Ok [MessageAcknowledged 7 (-1) 42 2000])
    /\ ts_messages s' = <[(7, 42) := sent_as 42 2000 m]> (delete (7, -1) (ts_messages s))
    /\ (forall r' k, ts_pending_requests s' !! r' = Some k
                     <-> r' <> MkClientRequestId "first" /\ ts_pending_requests s !! r' = Some k)
    /\ (forall r' k, ts_pending_requests s' !! r' = Some k -> k <> (7, -1) /\ is_Some (ts_messages s' !! k))
    /\ (forall id' date', snd (tg_execute (AcknowledgeMessage (MkClientRequestId "first") id' date') s')
                          = Err (PendingRequestNotFound (MkClientRequestId "first"))).
Proof.
  refine (acknowledgement_delivers_the_message demo_chat (MkClientRequestId "first") 7 (-1) 42 2000 _ _ _ _);
    [by vm_compute..|lia].
Defined.

(** An acknowledgement renames the message but not the chat's pin: the pin is left
    naming a message that is gone, and the message keeps its flag when another
    one is pinned. *)
Lemma acknowledged_message_keeps_stale_pin :
  let s := tg_run (demo_chat ++ [SetPinnedMessage 7 (Some (-1)); AcknowledgeMessage (MkClientRequestId "first") 42 2000])
             empty_telegram in
  (chat_pinned_message_id <$> ts_chats s !! 7) = Some (Some (-1))
  /\ ts_messages s !! (7, -1) = None
  /\ let s' := tg_run [demo_request "second" (-2); SetPinnedMessage 7 (Some (-2))] s in
     (tm_is_pinned <$> ts_messages s' !! (7, 42)) = Some true
     /\ (tm_is_pinned <$> ts_messages s' !! (7, -2)) = Some true.
Proof. by vm_compute. Qed.

(** Deleting an unsent message frees its request; deleting it once more takes the
    request away from the message that uses it by then, which can no longer be
    acknowledged. *)
Lemma deleting_twice_cancels_another_message :
  let s := tg_run (demo_chat ++ [DeleteTgMessages 7 [-1]; demo_request "first" (-2)]) empty_telegram in
  ts_pending_requests s !! MkClientRequestId "first" = Some (7, -2)
  /\ let s' := tg_run [DeleteTgMessages 7 [-1]] s in
     (tm_delivery_state <$> ts_messages s' !! (7, -2)) = Some (TgPending (MkClientRequestId "first"))
     /\ snd (tg_execute (AcknowledgeMessage (MkClientRequestId "first") 42 2000) s')
        = Err (PendingRequestNotFound (MkClientRequestId "first")).
Proof. by vm_compute. Qed.
