(* ===== verification/TgStorage.v ===== *)
(** * The encrypted store of the Telegram client ([telegram-storage])

    [cipher.rs] seals every payload with the storage key; [sqlite.rs] keeps the
    last state, the log of events and an index of messages by blinded words.  A
    database is its rows and a statement an operation on them; a transaction
    that fails is rolled back, also when it cannot begin ([busy]).  The cipher,
    the keyed hash, the JSON of the values and the Unicode tables are other
    people's code: the classes below. *)

From S2P Require Import Prelude Text Maps Bytes Message Search TgEngine.

(** ** The cipher ([cipher.rs]) *)

Definition PAYLOAD_VERSION : Z := 1.
Definition NONCE_LENGTH : nat := 24.

Inductive TgStorageError :=
| InvalidKeyLength
| DecryptionFailed
| UnsupportedPayloadVersion (version : Z)
| UnsupportedSchemaVersion (version : Z)
| RevisionConflict (expected current : Z)
| IntegerOutOfRange
| TgSqlite
| TgSerialization.
#[export] Instance TgStorageError_eq_dec : EqDecision TgStorageError.
Proof. solve_decision. Defined.

(** XChaCha20-Poly1305 and HMAC-SHA256. *)
Class StorageCrypto := {
  seal_bytes : list ascii -> list ascii -> list ascii -> list ascii -> option (list ascii);
  open_bytes : list ascii -> list ascii -> list ascii -> list ascii -> option (list ascii);
  hmac_sha256 : list ascii -> list ascii -> list ascii;
}.

(** What was sealed opens again under the same key, nonce and associated data,
    and the sealed bytes carry a tag. *)
Class StorageCryptoLaws `{StorageCrypto} : Prop := {
  seal_opens : forall key nonce aad msg sealed,
    seal_bytes key nonce aad msg = Some sealed -> open_bytes key nonce aad sealed = Some msg;
  sealed_nonempty : forall key nonce aad msg sealed, seal_bytes key nonce aad msg = Some sealed -> sealed <> [];
}.

Record StorageKey := MkStorageKey { storage_key_bytes : list ascii }.

Definition storage_key_from_slice (value : list ascii) : result TgStorageError StorageKey :=
  if Nat.eqb (length value) 32 then Ok (MkStorageKey value) else Err InvalidKeyLength.

Section cipher.
Context `{SC : StorageCrypto}.

(** [StorageCipher::encrypt], with the nonce that was drawn *)
Definition cipher_encrypt (key : StorageKey) (nonce plaintext associated_data : list ascii) :
    result TgStorageError (list ascii) :=
  ciphertext ← ok_or (seal_bytes (storage_key_bytes key) nonce associated_data plaintext) DecryptionFailed;
  Ok (byte_of PAYLOAD_VERSION :: nonce ++ ciphertext)%list.

Definition cipher_decrypt (key : StorageKey) (payload associated_data : list ascii) :
    result TgStorageError (list ascii) :=
  match payload with
  | [] => Err DecryptionFailed
  | version :: rest =>
      reject_if (negb (byte_at version =? PAYLOAD_VERSION)) (UnsupportedPayloadVersion (byte_at version)) ;;
      reject_if (length rest <=? NONCE_LENGTH)%nat DecryptionFailed ;;
      ok_or (open_bytes (storage_key_bytes key) (take NONCE_LENGTH rest) associated_data (drop NONCE_LENGTH rest))
        DecryptionFailed
  end.

Definition blind_index_token (key : StorageKey) (namespace token : list ascii) : list ascii :=
  hmac_sha256 (storage_key_bytes key) (namespace ++ byte_of 0 :: token)%list.

End cipher.

(** ** Rows *)

Definition TG_SCHEMA_VERSION : Z := 2.

(** [serde_json]; the state as [TelegramState] is serialised, its messages
    without their keys. *)
Record TelegramWire := {
  tw_chats : gmap Z Chat;
  tw_chat_folders : gmap Z ChatFolder;
  tw_messages : list TgMessage;
  tw_pending_requests : gmap ClientRequestId TgKey;
  tw_typing_actions : gmap Z (list TypingAction);
}.

Definition wire_of (s : TelegramState) : TelegramWire := {|
  tw_chats := ts_chats s;
  tw_chat_folders := ts_chat_folders s;
  tw_messages := serialize_messages (ts_messages s);
  tw_pending_requests := ts_pending_requests s;
  tw_typing_actions := ts_typing_actions s;
|}.

Definition state_of_wire (w : TelegramWire) : TelegramState := {|
  ts_chats := tw_chats w;
  ts_chat_folders := tw_chat_folders w;
  ts_messages := deserialize_messages (tw_messages w);
  ts_pending_requests := tw_pending_requests w;
  ts_typing_actions := tw_typing_actions w;
|}.

Class TgJson := {
  wire_to_json : TelegramWire -> list ascii;
  wire_of_json : list ascii -> option TelegramWire;
  tg_event_to_json : TgEvent -> list ascii;
  tg_event_of_json : list ascii -> option TgEvent;
  tg_message_to_json : TgMessage -> list ascii;
  tg_message_of_json : list ascii -> option TgMessage;
  (** Whether a number reads back as it was written: a number that is not finite
      is written as null, and without its feature [float_roundtrip] the parser
      may miss the last bit of one that is. *)
  f64_reads_back : f64 -> bool;
}.

Record StateSnapshot := {
  ss_revision : Z;
  ss_state : TelegramState;
  ss_updated_at_unix_ms : Z;
}.

Record StoredEvent := {
  se_sequence : Z;
  se_event : TgEvent;
  se_created_at_unix_ms : Z;
}.

Record PersistedTransition := {
  pt_snapshot : StateSnapshot;
  pt_events : list StoredEvent;
}.

(** The row of [state_snapshot]. *)
Record TgSnapshotRow := {
  tsr_revision : Z;
  tsr_payload : list ascii;
  tsr_updated_at_unix_ms : Z;
}.

(** A row of [event_log]. *)
Record TgEventRow := {
  ter_sequence : Z;
  ter_payload : list ascii;
  ter_created_at_unix_ms : Z;
}.

(** A row of [message_index], under its primary key. *)
Record TgIndexRow := {
  tir_date_unix_ms : Z;
  tir_payload : list ascii;
}.

(** The database: [user_version], the tables, and the counter of [AUTOINCREMENT]. *)
Record TgDatabase := {
  td_user_version : Z;
  td_snapshot : option TgSnapshotRow;
  td_events : list TgEventRow;
  td_last_sequence : Z;
  td_index : gmap TgKey TgIndexRow;
  td_tokens : gset (list ascii * TgKey);
}.
#[export] Instance eta_TgDatabase : Eta TgDatabase := fun d =>
  Build_TgDatabase (td_user_version d) (td_snapshot d) (td_events d) (td_last_sequence d) (td_index d) (td_tokens d).

Definition empty_database : TgDatabase := {|
  td_user_version := 0; td_snapshot := None; td_events := []; td_last_sequence := 0; td_index := ∅; td_tokens := ∅ |}.

(** [u64::try_into::<i64>] and back *)
Definition to_i64 (value : Z) : result TgStorageError Z := ok_or (checked in_i64 value) IntegerOutOfRange.
Definition to_u64 (value : Z) : result TgStorageError Z := ok_or (checked in_u64 value) IntegerOutOfRange.

Definition snapshot_associated_data (revision : Z) : list ascii :=
  bytes_of ("fabushi.telegram.snapshot.v1:" +:+ display revision).
Definition event_associated_data (sequence : Z) : list ascii :=
  bytes_of ("fabushi.telegram.event.v1:" +:+ display sequence).
Definition message_associated_data (key : TgKey) : list ascii :=
  bytes_of ("fabushi.telegram.message-index.v1:" +:+ display key.1 +:+ ":" +:+ display key.2).

(** [migrate]: the tables a version lacks are created, empty. *)
Definition tg_migrate (d : TgDatabase) : TgDatabase * result TgStorageError unit :=
  if TG_SCHEMA_VERSION <? td_user_version d then (d, Err (UnsupportedSchemaVersion (td_user_version d)))
  else if td_user_version d =? 0 then (empty_database ⟪ td_user_version := 2 ⟫, Ok tt)
  else if td_user_version d =? 1 then
    (d ⟪ td_index := ∅ ⟫ ⟪ td_tokens := ∅ ⟫ ⟪ td_user_version := 2 ⟫, Ok tt)
  else (d, Ok tt).

(** A transaction with [TransactionBehavior::Immediate] *)
Definition tg_transaction {A : Type} (busy : bool) (body : TgDatabase -> result TgStorageError (TgDatabase * A))
    (d : TgDatabase) : TgDatabase * result TgStorageError A :=
  if busy then (d, Err TgSqlite)
  else match body d with
       | Ok (d', a) => (d', Ok a)
       | Err e => (d, Err e)
       end.

Section store.
Context `{SC : StorageCrypto} `{TJ : TgJson}.
Variable key : StorageKey.

(** ** Snapshots and events *)

Definition tg_load_snapshot (d : TgDatabase) : result TgStorageError (option StateSnapshot) :=
  match td_snapshot d with
  | None => Ok None
  | Some row =>
      revision ← to_u64 (tsr_revision row);
      plaintext ← cipher_decrypt key (tsr_payload row) (snapshot_associated_data revision);
      wire ← ok_or (wire_of_json plaintext) TgSerialization;
      Ok (Some {| ss_revision := revision; ss_state := state_of_wire wire;
                  ss_updated_at_unix_ms := tsr_updated_at_unix_ms row |})
  end.

(** [SELECT revision FROM state_snapshot], [0] when there is none *)
Definition current_revision (d : TgDatabase) : result TgStorageError Z :=
  match td_snapshot d with
  | None => Ok 0
  | Some row => to_u64 (tsr_revision row)
  end.

Definition check_revision (expected : Z) (d : TgDatabase) : result TgStorageError Z :=
  current ← current_revision d;
  reject_if (negb (current =? expected)) (RevisionConflict expected current) ;;
  Ok current.

(** The snapshot row of the next revision, sealed. *)
Definition write_state (nonce : list ascii) (s : TelegramState) (current now : Z) (d : TgDatabase) :
    result TgStorageError (TgDatabase * StateSnapshot) :=
  revision ← ok_or (checked in_u64 (current + 1)) IntegerOutOfRange;
  payload ← cipher_encrypt key nonce (wire_to_json (wire_of s)) (snapshot_associated_data revision);
  stored ← to_i64 revision;
  Ok (d ⟪ td_snapshot := Some {| tsr_revision := stored; tsr_payload := payload; tsr_updated_at_unix_ms := now |} ⟫,
      {| ss_revision := revision; ss_state := s; ss_updated_at_unix_ms := now |}).

Definition tg_save_snapshot (busy : bool) (nonce : list ascii) (s : TelegramState) (expected now : Z) (d : TgDatabase) :
    TgDatabase * result TgStorageError StateSnapshot :=
  tg_transaction busy (fun d =>
    current ← check_revision expected d;
    write_state nonce s current now d) d.

(** [INSERT INTO event_log], then the [UPDATE] of its payload once the sequence is
    known; at the greatest sequence SQLite has no next one. *)
Definition insert_event_row (nonce : list ascii) (event : TgEvent) (now : Z) (d : TgDatabase) :
    result TgStorageError (TgDatabase * StoredEvent) :=
  rowid ← ok_or (checked in_i64 (td_last_sequence d + 1)) TgSqlite;
  sequence ← to_u64 rowid;
  payload ← cipher_encrypt key nonce (tg_event_to_json event) (event_associated_data sequence);
  stored ← to_i64 sequence;
  Ok (d ⟪ td_last_sequence := stored ⟫
        ⟪ td_events ::= fun rows => (rows ++ [{| ter_sequence := stored; ter_payload := payload;
                                                 ter_created_at_unix_ms := now |}])%list ⟫,
      {| se_sequence := sequence; se_event := event; se_created_at_unix_ms := now |}).

(** The events of a transition, each with the nonce drawn for it. *)
Fixpoint insert_event_rows (nonces : nat -> list ascii) (events : list TgEvent) (now : Z) (d : TgDatabase) :
    result TgStorageError (TgDatabase * list StoredEvent) :=
  match events with
  | [] => Ok (d, [])
  | event :: rest =>
      '(d, stored) ← insert_event_row (nonces 0%nat) event now d;
      '(d, others) ← insert_event_rows (fun i => nonces (S i)) rest now d;
      Ok (d, stored :: others)
  end.

Definition commit_transition (busy : bool) (nonces : nat -> list ascii) (s : TelegramState) (events : list TgEvent)
    (expected now : Z) (d : TgDatabase) : TgDatabase * result TgStorageError PersistedTransition :=
  tg_transaction busy (fun d =>
    current ← check_revision expected d;
    '(d, stored) ← insert_event_rows nonces events now d;
    '(d, snapshot) ← write_state (nonces (length events)) s current now d;
    Ok (d, {| pt_snapshot := snapshot; pt_events := stored |})) d.

Definition append_event (busy : bool) (nonce : list ascii) (event : TgEvent) (now : Z) (d : TgDatabase) :
    TgDatabase * result TgStorageError StoredEvent :=
  tg_transaction busy (insert_event_row nonce event now) d.

Definition read_event_row (row : TgEventRow) : result TgStorageError StoredEvent :=
  sequence ← to_u64 (ter_sequence row);
  plaintext ← cipher_decrypt key (ter_payload row) (event_associated_data sequence);
  event ← ok_or (tg_event_of_json plaintext) TgSerialization;
  Ok {| se_sequence := sequence; se_event := event; se_created_at_unix_ms := ter_created_at_unix_ms row |}.

Fixpoint read_rows {A B : Type} (read : A -> result TgStorageError B) (rows : list A) : result TgStorageError (list B) :=
  match rows with
  | [] => Ok []
  | row :: rest => b ← read row; others ← read_rows read rest; Ok (b :: others)
  end.

Definition load_events_after (sequence : Z) (d : TgDatabase) : result TgStorageError (list StoredEvent) :=
  bound ← to_i64 sequence;
  read_rows read_event_row (filter (fun row => bound < ter_sequence row) (td_events d)).

Definition prune_events_through (sequence : Z) (d : TgDatabase) : TgDatabase * result TgStorageError Z :=
  match to_i64 sequence with
  | Err e => (d, Err e)
  | Ok bound =>
      (d ⟪ td_events ::= filter (fun row => ~ ter_sequence row <= bound) ⟫,
       Ok (Z.of_nat (length (filter (fun row => ter_sequence row <= bound) (td_events d)))))
  end.

End store.

(** ** Sealing *)

Lemma cipher_opens `{StorageCryptoLaws} (key : StorageKey) (nonce msg aad payload : list ascii) :
  length nonce = NONCE_LENGTH ->
  cipher_encrypt key nonce msg aad = Ok payload -> cipher_decrypt key payload aad = Ok msg.
Proof.
  intros Hn He. unfold cipher_encrypt in He. oks. subst payload.
  match goal with Hs : seal_bytes _ _ _ _ = Some _ |- _ =>
    pose proof (sealed_nonempty _ _ _ _ _ Hs) as Hne; pose proof (seal_opens _ _ _ _ _ Hs) as Hopen end.
  unfold cipher_decrypt. cbv beta iota.
  rewrite byte_at_byte_of, Z.eqb_refl by (unfold PAYLOAD_VERSION; lia).
  rewrite length_app, Hn, (proj2 (Nat.leb_gt _ _)) by (destruct a; [done|rewrite length_cons; lia]).
  rewrite <- Hn, take_app_length, drop_app_length, Hopen. done.
Qed.

Lemma read_rows_ok {A B : Type} (read : A -> result TgStorageError B) (rows : list A) (bs : list B) :
  Forall2 (fun a b => read a = Ok b) rows bs <-> read_rows read rows = Ok bs.
Proof.
  split.
  - induction 1 as [|a b rows bs Hab _ IH]; simpl; [done|]. by rewrite Hab, IH.
  - revert bs. induction rows as [|a rows IH]; intros bs; simpl; intros Hr; oks; subst; constructor; auto.
Qed.

(** ** The searchable index of the Telegram client ([telegram-storage/src/sqlite.rs])

    Messages are sealed under their keys; their words are kept only as keyed
    hashes, and a query finds the messages that have the hashes of all its words. *)

(** [char::to_lowercase]: the characters it yields. *)
Class CharLowercase := char_to_lowercase : list ascii -> list (list ascii).

(** ** Words of a text *)

(** The code point of a character in UTF-8. *)
Definition code_point (c : list ascii) : Z :=
  match byte_at <$> c with
  | [a] => a
  | [a; b] => Z.land a 0x1f * 64 + Z.land b 0x3f
  | [a; b; c] => Z.land a 0x0f * 4096 + Z.land b 0x3f * 64 + Z.land c 0x3f
  | [a; b; c; d] => Z.land a 0x07 * 262144 + Z.land b 0x3f * 4096 + Z.land c 0x3f * 64 + Z.land d 0x3f
  | _ => 0
  end.

Definition in_range (lo hi z : Z) : bool := (lo <=? z) && (z <=? hi).

Definition is_cjk (c : list ascii) : bool :=
  let z := code_point c in
  in_range 0x3400 0x4dbf z || in_range 0x4e00 0x9fff z || in_range 0xf900 0xfaff z || in_range 0x20000 0x2fa1f z.

Definition text_of_chars (cs : list (list ascii)) : string := string_of (concat cs).

Definition flush_word (word : list (list ascii)) (tokens : gset string) : gset string :=
  match word with
  | [] => tokens
  | _ => {[text_of_chars (take 128 word)]} ∪ tokens
  end.

(** [run.windows(2)] *)
Fixpoint pairs_of (run : list (list ascii)) : list string :=
  match run with
  | a :: (b :: _) as rest => text_of_chars [a; b] :: pairs_of rest
  | _ => []
  end.

Definition flush_cjk (run : list (list ascii)) (tokens : gset string) : gset string :=
  list_to_set ((fun c => text_of_chars [c]) <$> run) ∪ list_to_set (pairs_of run) ∪ tokens.

Section words.
Context `{UT : UnicodeText} `{CL : CharLowercase}.

(** One round of the loop over the characters: the word, the run of ideographs
    and the words so far. *)
Definition token_step (acc : list (list ascii) * list (list ascii) * gset string) (c : list ascii) :
    list (list ascii) * list (list ascii) * gset string :=
  let '(word, run, tokens) := acc in
  if is_cjk c then ([], (run ++ [c])%list, flush_word word tokens)
  else if char_is_alphanumeric c then ((word ++ char_to_lowercase c)%list, [], flush_cjk run tokens)
  else ([], [], flush_cjk run (flush_word word tokens)).

Definition all_tokens (input : string) : gset string :=
  let '(word, run, tokens) := foldl token_step ([], [], ∅) (chars input) in
  flush_cjk run (flush_word word tokens).

Definition search_tokens (input : string) (maximum : nat) : list string :=
  take maximum (btree_elements (all_tokens input)).

(** ** The text of a message *)

Definition push_formatted_text (text : TgFormattedText) : list string :=
  if is_empty (tft_text text) then [] else [tft_text text].

Definition push_optional (value : option string) : list string :=
  match value with Some value => [value] | None => [] end.

Definition search_parts (content : TgContent) : list string :=
  match content with
  | TgText text => push_formatted_text text
  | TgPhoto _ caption _ _ _ | TgVideo _ caption _ _ _ _ | TgAnimation _ caption _ | TgVoiceNote _ _ _ caption
  | TgDocument _ caption => push_formatted_text caption
  | TgAudio _ caption _ title performer =>
      (push_formatted_text caption ++ push_optional title ++ push_optional performer)%list
  | TgVideoNote _ _ _ | TgLocation _ _ _ | TgStory _ _ => []
  | TgSticker _ emoji _ _ _ | TgDice emoji _ => [emoji]
  | TgPoll question options _ _ quiz_explanation =>
      (push_formatted_text question ++ (tpo_text <$> options)
       ++ match quiz_explanation with Some text => push_formatted_text text | None => [] end)%list
  | TgContact phone_number first_name last_name _ => [phone_number; first_name; last_name]
  | TgVenue _ _ title address _ _ => [title; address]
  | TgInvoice title description currency _ => [title; description; currency]
  | TgService action => [action]
  | TgUnsupported constructor => [constructor]
  end.

Definition tg_message_search_text (m : TgMessage) : string := String.concat " " (search_parts (tm_content m)).

End words.

(** ** The index *)

Definition SEARCH_NAMESPACE : list ascii := bytes_of "fabushi.telegram.message-search.v1".

Section index.
Context `{SC : StorageCrypto} `{TJ : TgJson} `{UT : UnicodeText} `{CL : CharLowercase}.
Variable key : StorageKey.

Definition blind (token : string) : list ascii := blind_index_token key SEARCH_NAMESPACE (bytes_of token).

(** [DELETE FROM message_index]: the words of the row go with it. *)
Definition delete_index_row (k : TgKey) (d : TgDatabase) : TgDatabase :=
  d ⟪ td_index ::= delete k ⟫ ⟪ td_tokens ::= filter (fun t => t.2 <> k) ⟫.

Definition index_row (k : TgKey) (row : TgIndexRow) (tokens : list string) (d : TgDatabase) : TgDatabase :=
  d ⟪ td_index ::= <[k := row]> ⟫
    ⟪ td_tokens ::= fun old => filter (fun t => t.2 <> k) old ∪ list_to_set ((fun token => (blind token, k)) <$> tokens) ⟫.

Definition upsert_message_index (busy : bool) (nonce : list ascii) (m : TgMessage) (d : TgDatabase) :
    TgDatabase * result TgStorageError unit :=
  tg_transaction busy (fun d =>
    if tm_is_deleted m then Ok (delete_index_row (key_of m) d, tt)
    else
      payload ← cipher_encrypt key nonce (tg_message_to_json m) (message_associated_data (key_of m));
      Ok (index_row (key_of m) {| tir_date_unix_ms := tm_date_unix_ms m; tir_payload := payload |}
            (search_tokens (tg_message_search_text m) 512) d, tt)) d.

Definition remove_message_index (chat_id : ChatId) (message_id : TgMessageId) (d : TgDatabase) :
    TgDatabase * result TgStorageError bool :=
  (delete_index_row (chat_id, message_id) d, Ok (contains_key (chat_id, message_id) (td_index d))).

Definition decrypt_indexed_message (k : TgKey) (payload : list ascii) : result TgStorageError TgMessage :=
  plaintext ← cipher_decrypt key payload (message_associated_data k);
  ok_or (tg_message_of_json plaintext) TgSerialization.

Definition load_indexed_message (chat_id : ChatId) (message_id : TgMessageId) (d : TgDatabase) :
    result TgStorageError (option TgMessage) :=
  match td_index d !! (chat_id, message_id) with
  | None => Ok None
  | Some row => m ← decrypt_indexed_message (chat_id, message_id) (tir_payload row); Ok (Some m)
  end.

(** [ORDER BY date_unix_ms DESC, message_id DESC]; SQL leaves the order of equals
    open, here they come as the map lists them. *)
Definition newest_first (p q : TgKey * TgIndexRow) : Prop :=
  tir_date_unix_ms q.2 < tir_date_unix_ms p.2
  \/ (tir_date_unix_ms q.2 = tir_date_unix_ms p.2 /\ q.1.2 <= p.1.2).
#[export] Instance newest_first_dec : RelDecision newest_first.
Proof. intros p q. unfold newest_first. apply _. Defined.

(** [COUNT(DISTINCT mt.token)] of the joined rows of one message *)
Definition matched_tokens (digests : list (list ascii)) (k : TgKey) (d : TgDatabase) : Z :=
  Z.of_nat (size (set_map fst (filter (fun t => t.2 = k /\ t.1 ∈ digests) (td_tokens d)) : gset (list ascii))).

(** [AND mi.chat_id = ?] *)
Definition in_chat_filter (chat_id : option ChatId) (k : TgKey) : bool :=
  match chat_id with Some c => k.1 =? c | None => true end.

Definition matching_rows (digests : list (list ascii)) (chat_id : option ChatId) (d : TgDatabase) :
    list (TgKey * TgIndexRow) :=
  merge_sort newest_first
    (filter (fun p => matched_tokens digests p.1 d <> 0
                      /\ matched_tokens digests p.1 d = Z.of_nat (length digests)
                      /\ in_chat_filter chat_id p.1 = true)
       (map_to_list (td_index d))).

Definition search_messages (query : string) (chat_id : option ChatId) (limit : nat) (d : TgDatabase) :
    result TgStorageError (list TgMessage) :=
  if Nat.eqb limit 0 then Ok []
  else
    let tokens := search_tokens query 64 in
    match tokens with
    | [] => Ok []
    | _ =>
        let digests := blind <$> tokens in
        read_rows (fun p => decrypt_indexed_message p.1 (tir_payload p.2))
          (take (Nat.min limit 100) (matching_rows digests chat_id d))
    end.

End index.

(** ** What a word is

    Said of the text itself, without the loop that collects the words. *)

Section runs.
Context {A : Type} (P : A -> bool).

(** A longest stretch of [l] of elements that satisfy [P], between [pre] and [post]. *)
Definition stretch (l pre run post : list A) : Prop :=
  l = (pre ++ run ++ post)%list /\ run <> []
  /\ Forall (fun c => P c = true) run
  /\ (forall c, list.last pre = Some c -> P c = false)
  /\ (forall c, head post = Some c -> P c = false).

(** The elements at the end that satisfy [P]. *)
Fixpoint trailing_of (rev : list A) : list A :=
  match rev with
  | c :: rest => if P c then (trailing_of rest ++ [c])%list else []
  | [] => []
  end.
Definition trailing (l : list A) : list A := trailing_of (reverse l).

Lemma trailing_snoc (l : list A) (c : A) : trailing (l ++ [c]) = if P c then (trailing l ++ [c])%list else [].
Proof. unfold trailing. by rewrite reverse_snoc. Qed.

Lemma trailing_stretch (l : list A) : exists pre, l = (pre ++ trailing l)%list
  /\ Forall (fun c => P c = true) (trailing l) /\ (forall c, list.last pre = Some c -> P c = false).
Proof.
  induction l as [|c l IH] using rev_ind; [by exists []|]. rewrite trailing_snoc. destruct (P c) eqn:Hc.
  - destruct IH as (pre & Hl & Hall & Hlast). exists pre. split_and!; [|by apply Forall_app; auto|done].
    by rewrite app_assoc, <- Hl.
  - exists (l ++ [c])%list. split_and!; [by rewrite app_nil_r|done|]. intros d. rewrite last_snoc. by intros [= <-].
Qed.

Lemma trailing_unique (pre w : list A) : Forall (fun c => P c = true) w ->
  (forall c, list.last pre = Some c -> P c = false) -> trailing (pre ++ w) = w.
Proof.
  intros Hw Hlast. induction w as [|c w IH] using rev_ind.
  - rewrite app_nil_r. destruct pre as [|c pre _] using rev_ind; [done|]. rewrite trailing_snoc.
    by rewrite (Hlast c) by apply last_snoc.
  - apply Forall_app in Hw as [Hw Hc]. apply list.Forall_cons in Hc as [Hc _].
    rewrite app_assoc, trailing_snoc, Hc. by rewrite IH.
Qed.

(** The stretches that something follows. *)
Definition closed_run (l run : list A) : Prop := exists pre c post, stretch l pre run (c :: post).

Lemma stretch_closed_or_last (l run : list A) :
  (exists pre post, stretch l pre run post) <-> closed_run l run \/ (run = trailing l /\ run <> []).
Proof.
  split.
  - intros (pre & [|c post] & H); [|left; by exists pre, c, post]. right.
    destruct H as (-> & Hne & Hall & Hpre & _). rewrite app_nil_r. by rewrite trailing_unique.
  - intros [(pre & c & post & H)|[-> Hne]]; [by exists pre, (c :: post)|].
    destruct (trailing_stretch l) as (pre & Hl & Hall & Hpre). exists pre, []. split_and!; try done.
    by rewrite app_nil_r.
Qed.

Lemma closed_run_snoc (l run : list A) (c : A) :
  closed_run (l ++ [c]) run <-> closed_run l run \/ (P c = false /\ run = trailing l /\ run <> []).
Proof.
  split.
  - intros (pre & d & post & Hl & Hne & Hall & Hpre & Hpost).
    destruct post as [|e post _] using rev_ind.
    + right. rewrite app_assoc in Hl. apply app_inj_tail in Hl as [-> ->].
      split_and!; [by apply Hpost|by rewrite trailing_unique|done].
    + left. exists pre, d, post. rewrite app_comm_cons, !app_assoc in Hl. apply app_inj_tail in Hl as [-> _].
      split_and!; try done. by rewrite app_assoc.
  - intros [(pre & d & post & -> & Hne & Hall & Hpre & Hpost)|(Hc & -> & Hne)].
    + exists pre, d, (post ++ [c])%list. split_and!; try done. by rewrite <- !app_assoc.
    + destruct (trailing_stretch l) as (pre & Hl & Hall & Hpre). exists pre, c, []. split_and!; try done.
      * by rewrite app_assoc, <- Hl.
      * by intros d [= <-].
Qed.
End runs.

(** ** The words of a text *)

Section spec.
Context `{UT : UnicodeText} `{CL : CharLowercase}.

Definition is_word_char (c : list ascii) : bool := negb (is_cjk c) && char_is_alphanumeric c.

Definition lower_word (run : list (list ascii)) : string :=
  text_of_chars (take 128 (concat (char_to_lowercase <$> run))).

Definition beside (cs : list (list ascii)) (a b : list ascii) : Prop :=
  exists pre post, cs = (pre ++ a :: b :: post)%list.

(** A word of a text: a longest stretch of letters and digits that are not
    ideographs, in lower case and cut after 128 characters; an ideograph; or two
    ideographs that stand side by side. *)
Inductive word_of (cs : list (list ascii)) : string -> Prop :=
| word_letters pre run post : stretch is_word_char cs pre run post ->
    concat (char_to_lowercase <$> run) <> [] -> word_of cs (lower_word run)
| word_ideograph c : c ∈ cs -> is_cjk c = true -> word_of cs (text_of_chars [c])
| word_ideographs a b : beside cs a b -> is_cjk a = true -> is_cjk b = true -> word_of cs (text_of_chars [a; b]).

Lemma beside_snoc (cs : list (list ascii)) (c a b : list ascii) :
  beside (cs ++ [c]) a b <-> beside cs a b \/ (list.last cs = Some a /\ b = c).
Proof.
  split.
  - intros (pre & post & Hl). destruct post as [|e post _] using rev_ind.
    + right. change (a :: [b]) with ([a] ++ [b])%list in Hl. rewrite app_assoc in Hl.
      apply app_inj_tail in Hl as [-> ->]. by rewrite last_snoc.
    + left. exists pre, post. rewrite !app_comm_cons, app_assoc in Hl. by apply app_inj_tail in Hl as [-> _].
  - intros [(pre & post & ->)|[Hlast ->]].
    + exists pre, (post ++ [c])%list. by rewrite <- app_assoc.
    + apply last_Some in Hlast as [pre ->]. exists pre, []. by rewrite <- app_assoc.
Qed.

Lemma pairs_of_snoc (run : list (list ascii)) (c : list ascii) :
  pairs_of (run ++ [c]) = (pairs_of run ++ match list.last run with Some a => [text_of_chars [a; c]] | None => [] end)%list.
Proof.
  induction run as [|a [|b run] IH]; [done..|].
  change ((a :: b :: run) ++ [c])%list with (a :: b :: (run ++ [c]))%list.
  change (pairs_of (a :: b :: (run ++ [c]))%list) with (text_of_chars [a; b] :: pairs_of ((b :: run) ++ [c])).
  rewrite IH. rewrite last_cons_cons. done.
Qed.

Lemma flush_cjk_elem (run : list (list ascii)) (tokens : gset string) (t : string) :
  t ∈ flush_cjk run tokens <-> (exists c, c ∈ run /\ t = text_of_chars [c]) \/ t ∈ pairs_of run \/ t ∈ tokens.
Proof.
  unfold flush_cjk. rewrite !elem_of_union, !elem_of_list_to_set, list_elem_of_fmap. naive_solver.
Qed.

Lemma flush_word_elem (word : list (list ascii)) (tokens : gset string) (t : string) :
  t ∈ flush_word word tokens <-> (word <> [] /\ t = text_of_chars (take 128 word)) \/ t ∈ tokens.
Proof. unfold flush_word. destruct word; [naive_solver|]. rewrite elem_of_union, elem_of_singleton. naive_solver. Qed.

(** Words that no further character can change. *)
Definition settled (cs : list (list ascii)) (t : string) : Prop :=
  (exists run, closed_run is_word_char cs run /\ concat (char_to_lowercase <$> run) <> [] /\ t = lower_word run)
  \/ (exists c, c ∈ cs /\ is_cjk c = true /\ t = text_of_chars [c])
  \/ (exists a b, beside cs a b /\ is_cjk a = true /\ is_cjk b = true /\ t = text_of_chars [a; b]).

Lemma word_of_settled (cs : list (list ascii)) (t : string) :
  word_of cs t <-> settled cs t \/ (let run := trailing is_word_char cs in
                                    concat (char_to_lowercase <$> run) <> [] /\ t = lower_word run).
Proof.
  split.
  - destruct 1 as [pre run post Hs Hne|c Hc Hk|a b Hab Ha Hb].
    + destruct (proj1 (stretch_closed_or_last is_word_char cs run)) as [Hcl|[-> _]]; [by exists pre, post| |].
      * left. left. by exists run.
      * by right.
    + left. right. left. by exists c.
    + left. right. right. by exists a, b.
  - intros [[(run & Hcl & Hne & ->)|[(c & Hc & Hk & ->)|(a & b & Hab & Ha & Hb & ->)]]|[Hne ->]].
    + destruct Hcl as (pre & c & post & Hs). by eapply word_letters.
    + by apply word_ideograph.
    + by apply word_ideographs.
    + destruct (proj2 (stretch_closed_or_last is_word_char cs (trailing is_word_char cs))) as (pre & post & Hs).
      * right. split; [done|]. intros Heq. by rewrite Heq in Hne.
      * by eapply word_letters.
Qed.

(** What the loop holds after the characters [cs]. *)
Definition tokens_hold (cs : list (list ascii)) (acc : list (list ascii) * list (list ascii) * gset string) : Prop :=
  let '(word, run, tokens) := acc in
  word = concat (char_to_lowercase <$> trailing is_word_char cs) /\ run = trailing is_cjk cs
  /\ forall t, t ∈ flush_cjk run tokens <-> settled cs t.

(** The word that the characters so far end in. *)
Definition ending_word (cs : list (list ascii)) (t : string) : Prop :=
  let run := trailing is_word_char cs in concat (char_to_lowercase <$> run) <> [] /\ t = lower_word run.

Lemma settled_snoc (cs : list (list ascii)) (c : list ascii) (t : string) :
  settled (cs ++ [c]) t <->
  settled cs t \/ (is_word_char c = false /\ ending_word cs t)
  \/ (is_cjk c = true /\ (t = text_of_chars [c]
       \/ exists a, list.last cs = Some a /\ is_cjk a = true /\ t = text_of_chars [a; c])).
Proof.
  unfold settled. setoid_rewrite closed_run_snoc. setoid_rewrite beside_snoc. setoid_rewrite elem_of_app.
  setoid_rewrite list_elem_of_singleton. unfold ending_word. split.
  - intros [(run & [Hcl|(Hc & -> & _)] & Hne & ->)|[(d & [Hd| ->] & Hk & ->)|(a & b & [Hab|[Hl ->]] & Ha & Hb & ->)]]; eauto 9.
  - intros [[(run & Hcl & H)|[(d & Hd & H)|(a & b & Hab & H)]]|[(Hc & Hne & ->)|(Hc & [->|(a & Ha & Hk & ->)])]].
    + left. eauto.
    + right. left. eauto.
    + right. right. exists a, b. eauto.
    + left. eexists. split_and!; [right; split_and!; [done|reflexivity|]|done|done]. intros Heq. by rewrite Heq in Hne.
    + right. left. exists c. auto.
    + right. right. exists a, c. auto.
Qed.

Lemma last_trailing (P : list ascii -> bool) (cs : list (list ascii)) (a : list ascii) :
  list.last (trailing P cs) = Some a <-> list.last cs = Some a /\ P a = true.
Proof.
  destruct cs as [|c cs _] using rev_ind; [by split; [|intros []]|]. rewrite trailing_snoc, last_snoc.
  destruct (P c) eqn:Hc; [rewrite last_snoc; split; [intros [= ->]; auto|by intros [[= ->] _]]|].
  split; [done|intros [[= ->] Ha]; congruence].
Qed.

Lemma token_step_holds (cs : list (list ascii)) (acc : list (list ascii) * list (list ascii) * gset string) (c : list ascii) :
  tokens_hold cs acc -> tokens_hold (cs ++ [c]) (token_step acc c).
Proof.
  destruct acc as [[word run] tokens]. intros (Hw & Hr & Ht). unfold token_step.
  assert (Hend : forall t, word <> [] /\ t = text_of_chars (take 128 word) <-> ending_word cs t) by (intros t; by subst word).
  assert (Hold : forall t, settled cs t <-> (exists d, d ∈ run /\ t = text_of_chars [d]) \/ t ∈ pairs_of run \/ t ∈ tokens)
    by (intros t; by rewrite <- Ht, flush_cjk_elem).
  destruct (is_cjk c) eqn:Hk; [|destruct (char_is_alphanumeric c) eqn:Ha].
  - split_and!; [by rewrite trailing_snoc; unfold is_word_char; rewrite Hk|by rewrite trailing_snoc, Hk, Hr|].
    intros t. rewrite settled_snoc, flush_cjk_elem, flush_word_elem, Hend, Hold, pairs_of_snoc.
    setoid_rewrite elem_of_app. setoid_rewrite list_elem_of_singleton. unfold is_word_char. rewrite Hk. simpl.
    assert (Hpair : t ∈ match list.last run with Some a => [text_of_chars [a; c]] | None => [] end
                    <-> exists a, list.last cs = Some a /\ is_cjk a = true /\ t = text_of_chars [a; c]).
    { split.
      - destruct (list.last run) as [a|] eqn:El; [|by intros ?%elem_of_nil]. intros ->%list_elem_of_singleton.
        rewrite Hr in El. apply last_trailing in El as [? ?]. by exists a.
      - intros (a & Hl & Hka & ->). replace (list.last run) with (Some a); [by left|]. symmetry. rewrite Hr.
        by apply last_trailing. }
    rewrite Hpair. naive_solver.
  - split_and!; [|by rewrite trailing_snoc, Hk|].
    { rewrite trailing_snoc. unfold is_word_char. rewrite Hk, Ha. cbn [negb andb]. rewrite fmap_app, concat_app, Hw. csimpl. by rewrite app_nil_r. }
    intros t. rewrite settled_snoc, flush_cjk_elem, Ht. unfold is_word_char. rewrite Hk, Ha. simpl.
    setoid_rewrite elem_of_nil. naive_solver.
  - split_and!; [by rewrite trailing_snoc; unfold is_word_char; rewrite Hk, Ha|by rewrite trailing_snoc, Hk|].
    intros t. rewrite settled_snoc, !flush_cjk_elem, flush_word_elem, Hend, Hold. unfold is_word_char. rewrite Hk, Ha. simpl.
    setoid_rewrite elem_of_nil. naive_solver.
Qed.

(** The loop collects exactly the words of the text. *)
Lemma all_tokens_words (input : string) (t : string) : t ∈ all_tokens input <-> word_of (chars input) t.
Proof.
  unfold all_tokens. assert (Hholds : tokens_hold (chars input) (foldl token_step ([], [], ∅) (chars input))).
  { generalize (chars input). intros cs. induction cs as [|c cs IH] using rev_ind.
    - split_and!; [done|done|]. intros t'. rewrite flush_cjk_elem. unfold settled. split.
      + intros [(c & Hc & _)|[H|H]]; [by apply elem_of_nil in Hc|by apply elem_of_nil in H|set_solver].
      + intros [(run & (pre & c & post & Hl & _) & _)|[(c & Hc & _)|(a & b & (pre & post & Hl) & _)]];
          [by destruct pre, run|by apply elem_of_nil in Hc|by destruct pre].
    - rewrite foldl_snoc. by apply token_step_holds. }
  destruct (foldl _ _ _) as [[word run] tokens]. destruct Hholds as (Hw & Hr & Ht).
  rewrite word_of_settled, <- Ht, !flush_cjk_elem, flush_word_elem. subst word. unfold lower_word. tauto.
Qed.

Lemma length_btree_elements (s : gset string) : length (btree_elements s) = size s.
Proof. unfold btree_elements. by rewrite merge_sort_Permutation. Qed.

(** Within the bound, the words asked for are all the words of the text. *)
Lemma search_tokens_words (input : string) (maximum : nat) (t : string) :
  t ∈ search_tokens input maximum -> word_of (chars input) t.
Proof.
  unfold search_tokens. intros Ht. apply all_tokens_words. rewrite <- elem_of_btree_elements.
  eapply elem_of_sublist; [exact Ht|apply sublist_take].
Qed.

Lemma search_tokens_all (input : string) (maximum : nat) (t : string) :
  (size (all_tokens input) <= maximum)%nat -> word_of (chars input) t -> t ∈ search_tokens input maximum.
Proof.
  intros Hsize Ht%all_tokens_words. unfold search_tokens. rewrite take_ge; [by rewrite elem_of_btree_elements|].
  rewrite length_btree_elements. done.
Qed.
End spec.

(** ** What a search finds *)

(** An operation on the index. *)
Inductive index_op :=
| IndexMessage (busy : bool) (nonce : list ascii) (m : TgMessage)
| UnindexMessage (chat_id : ChatId) (message_id : TgMessageId).

Section facts.
Context `{SL : StorageCryptoLaws} `{TJ : TgJson} `{UT : UnicodeText} `{CL : CharLowercase}.
Variable key : StorageKey.

Definition run_index_op (op : index_op) (d : TgDatabase) : TgDatabase * bool :=
  match op with
  | IndexMessage busy nonce m => let '(d, r) := upsert_message_index key busy nonce m d in (d, is_ok r)
  | UnindexMessage c id => let '(d, r) := remove_message_index c id d in (d, is_ok r)
  end.

(** The messages that are indexed: those of the operations that succeeded. *)
Definition indexed_after (op : index_op) (done : bool) (ms : gmap TgKey TgMessage) : gmap TgKey TgMessage :=
  match op with
  | IndexMessage _ _ m =>
      if done then if tm_is_deleted m then delete (key_of m) ms else <[key_of m := m]> ms else ms
  | UnindexMessage c id => delete (c, id) ms
  end.

Fixpoint run_index (ops : list index_op) (d : TgDatabase) (ms : gmap TgKey TgMessage) :
    TgDatabase * gmap TgKey TgMessage :=
  match ops with
  | [] => (d, ms)
  | op :: rest => let '(d', ok) := run_index_op op d in run_index rest d' (indexed_after op ok ms)
  end.

Definition message_tokens (m : TgMessage) : list string := search_tokens (tg_message_search_text m) 512.

Definition row_holds (k : TgKey) (row : TgIndexRow) (m : TgMessage) : Prop :=
  key_of m = k /\ tir_date_unix_ms row = tm_date_unix_ms m
  /\ decrypt_indexed_message key k (tir_payload row) = Ok m.

(** The tables hold the messages [ms]. *)
Record index_holds (d : TgDatabase) (ms : gmap TgKey TgMessage) : Prop := {
  ih_rows : forall k m, ms !! k = Some m -> exists row, td_index d !! k = Some row /\ row_holds k row m;
  ih_only : forall k, ms !! k = None -> td_index d !! k = None;
  ih_tokens : forall h k, (h, k) ∈ td_tokens d <->
                          exists m t, ms !! k = Some m /\ t ∈ message_tokens m /\ h = blind key t;
}.

Lemma empty_index_holds (d : TgDatabase) : td_index d = ∅ -> td_tokens d = ∅ -> index_holds d ∅.
Proof.
  intros Hi Ht. split.
  - intros k m. by rewrite lookup_empty.
  - intros k _. by rewrite Hi.
  - intros h k. rewrite Ht. split; [set_solver|]. intros (m & t & Hm & _). by rewrite lookup_empty in Hm.
Qed.

Lemma delete_index_holds (k : TgKey) (d : TgDatabase) (ms : gmap TgKey TgMessage) :
  index_holds d ms -> index_holds (delete_index_row k d) (delete k ms).
Proof.
  intros [Hrows Honly Htok]. unfold delete_index_row. split; fields.
  - intros j m [Hne Hj]%lookup_delete_Some. rewrite lookup_delete_ne by done. by apply Hrows.
  - intros j. rewrite !lookup_delete_None. intros [->|Hj]; [by left|right; by apply Honly].
  - intros h j. rewrite elem_of_filter, Htok. simpl. setoid_rewrite lookup_delete_Some. naive_solver.
Qed.

Lemma index_row_holds (k : TgKey) (row : TgIndexRow) (m : TgMessage) (d : TgDatabase) (ms : gmap TgKey TgMessage) :
  row_holds k row m -> index_holds d ms ->
  index_holds (index_row key k row (message_tokens m) d) (<[k := m]> ms).
Proof.
  intros Hrow [Hrows Honly Htok]. unfold index_row. split; fields.
  - intros j x [[<- <-]|[Hne Hj]]%lookup_insert_Some.
    + exists row. by rewrite lookup_insert_eq.
    + rewrite lookup_insert_ne by done. by apply Hrows.
  - intros j [Hj Hne]%lookup_insert_None. rewrite lookup_insert_ne by done. by apply Honly.
  - intros h j. rewrite elem_of_union, elem_of_filter, elem_of_list_to_set, list_elem_of_fmap, Htok. simpl.
    setoid_rewrite lookup_insert_Some. naive_solver.
Qed.

(** The nonces have their length, and the messages survive JSON (in which not
    every coordinate does). *)
Definition op_sound (op : index_op) : Prop :=
  match op with
  | IndexMessage _ nonce m =>
      length nonce = NONCE_LENGTH /\ tg_message_of_json (tg_message_to_json m) = Some m
  | UnindexMessage _ _ => True
  end.

Lemma index_op_holds (op : index_op) (d : TgDatabase) (ms : gmap TgKey TgMessage) :
  op_sound op -> index_holds d ms ->
  let '(d', ok) := run_index_op op d in index_holds d' (indexed_after op ok ms).
Proof.
  intros Hop Hd. destruct op as [busy nonce m|c id]; [|by apply delete_index_holds].
  destruct Hop as [Hn Hjson]. unfold run_index_op, upsert_message_index, tg_transaction.
  destruct busy; [done|]. destruct (tm_is_deleted m) eqn:Hdel; simpl.
  { rewrite Hdel. by apply delete_index_holds. }
  destruct (cipher_encrypt _ _ _ _) as [payload|e] eqn:He; simpl; [|done].
  rewrite Hdel. apply index_row_holds; [|done].
  split; [done|]. split; [done|]. unfold decrypt_indexed_message. simpl.
  rewrite (cipher_opens _ _ _ _ _ Hn He). simpl. by rewrite Hjson.
Qed.

Lemma run_index_holds (ops : list index_op) (d : TgDatabase) (ms : gmap TgKey TgMessage) :
  Forall op_sound ops -> index_holds d ms ->
  let '(d', ms') := run_index ops d ms in index_holds d' ms'.
Proof.
  revert d ms. induction ops as [|op ops IH]; intros d ms Hops Hd; [done|].
  apply list.Forall_cons in Hops as [Hop Hops]. simpl. pose proof (index_op_holds op d ms Hop Hd) as Hstep.
  destruct (run_index_op op d) as [d' ok]. by apply IH.
Qed.

(** Distinct words of [tokens] have distinct hashes. *)
Definition no_collision (tokens : list string) : Prop :=
  forall s t, s ∈ tokens -> t ∈ tokens -> blind key s = blind key t -> s = t.

(** The message is of the chat, and has the tokens of the query. *)
Definition has_tokens (query : string) (chat_id : option ChatId) (m : TgMessage) : Prop :=
  in_chat_filter chat_id (key_of m) = true
  /\ forall t, t ∈ search_tokens query 64 -> t ∈ message_tokens m.

Definition newer (m m' : TgMessage) : Prop :=
  tm_date_unix_ms m' < tm_date_unix_ms m
  \/ (tm_date_unix_ms m' = tm_date_unix_ms m /\ tm_id m' <= tm_id m).

Lemma search_tokens_nodup (input : string) (n : nat) : NoDup (search_tokens input n).
Proof.
  unfold search_tokens. eapply sublist_NoDup; [apply btree_elements_nodup|apply sublist_take].
Qed.

Lemma matched_tokens_all (tokens : list string) (k : TgKey) (m : TgMessage) (d : TgDatabase)
    (ms : gmap TgKey TgMessage) :
  index_holds d ms -> ms !! k = Some m -> NoDup tokens -> no_collision (tokens ++ message_tokens m) ->
  matched_tokens (blind key <$> tokens) k d = Z.of_nat (length (blind key <$> tokens))
  <-> forall t, t ∈ tokens -> t ∈ message_tokens m.
Proof.
  intros Hd Hm Hnd Hinj. unfold matched_tokens.
  set (found := set_map fst _ : gset (list ascii)).
  set (asked := list_to_set (blind key <$> tokens) : gset (list ascii)).
  assert (Hfound : forall t, t ∈ tokens -> blind key t ∈ found <-> t ∈ message_tokens m).
  { intros t Ht. unfold found. rewrite elem_of_map. setoid_rewrite elem_of_filter. split.
    - intros ([h j] & Heq & [Hj _] & Hin). simpl in Heq, Hj. subst h j.
      apply (ih_tokens _ _ Hd) in Hin as (m' & t' & Hm' & Ht' & Hb). replace m' with m in * by congruence.
      rewrite (Hinj t t'); [done| | |done]; apply elem_of_app; auto.
    - intros Hin. exists (blind key t, k). simpl. split_and!; [done|done|by apply list_elem_of_fmap_2|].
      apply (ih_tokens _ _ Hd). eauto. }
  assert (Hsub : found ⊆ asked).
  { intros h. unfold found, asked. rewrite elem_of_map, elem_of_list_to_set. setoid_rewrite elem_of_filter.
    intros ([h' j] & -> & [_ Hin] & _). done. }
  assert (Hlen : length (blind key <$> tokens) = size asked).
  { unfold asked. rewrite size_list_to_set; [done|]. apply NoDup_fmap_2_strong; [|done].
    intros x y Hx Hy. apply Hinj; apply elem_of_app; auto. }
  rewrite Hlen. split.
  - intros Hsize t Ht. apply Hfound; [done|]. assert (Heq : found = asked).
    { apply leibniz_equiv, set_subseteq_size_equiv; [done|lia]. }
    rewrite Heq. unfold asked. apply elem_of_list_to_set. by apply list_elem_of_fmap_2.
  - intros Hall. f_equal. f_equal. apply set_eq. intros h. split; [apply Hsub|].
    unfold asked. rewrite elem_of_list_to_set, list_elem_of_fmap. intros (t & -> & Ht). apply Hfound; auto.
Qed.

#[export] Instance newest_first_trans : Transitive newest_first.
Proof. intros a b c. unfold newest_first. lia. Qed.
#[export] Instance newest_first_total : Total newest_first.
Proof. intros a b. unfold newest_first. lia. Qed.

Lemma sorted_through {A B : Type} (R : A -> A -> Prop) (S : B -> B -> Prop) (Q : A -> B -> Prop) (l : list A)
    (k : list B) :
  (forall a b a' b', Q a b -> Q a' b' -> R a a' -> S b b') ->
  Forall2 Q l k -> StronglySorted R l -> StronglySorted S k.
Proof.
  intros HQ. induction 1 as [|a b l k Hab Hlk IH]; intros Hs; [constructor|].
  apply StronglySorted_inv in Hs as [Hs Hall]. constructor; [by apply IH|]. clear IH Hs.
  induction Hlk as [|a' b' l k Hab' _ IH]; constructor; apply list.Forall_cons in Hall as [? ?]; eauto.
Qed.

(** The rows that match are those of the messages that answer the query. *)
Lemma matching_rows_answer (query : string) (chat_id : option ChatId) (d : TgDatabase) (ms : gmap TgKey TgMessage)
    (p : TgKey * TgIndexRow) :
  index_holds d ms -> search_tokens query 64 <> [] ->
  (forall k m, ms !! k = Some m -> no_collision (search_tokens query 64 ++ message_tokens m)) ->
  p ∈ matching_rows (blind key <$> search_tokens query 64) chat_id d
  <-> exists m, ms !! p.1 = Some m /\ td_index d !! p.1 = Some p.2 /\ row_holds p.1 p.2 m
                /\ has_tokens query chat_id m.
Proof.
  intros Hd Hne Hinj. unfold matching_rows. rewrite merge_sort_Permutation, list_elem_of_filter, elem_of_map_to_list'.
  assert (Hpos : (0 < length (blind key <$> search_tokens query 64))%nat).
  { rewrite length_fmap. destruct (search_tokens query 64); [done|simpl; lia]. }
  unfold has_tokens. split.
  - intros ((_ & Hall & Hchat) & Hrow). destruct (ms !! p.1) as [m|] eqn:Hm.
    2: { by rewrite (ih_only _ _ Hd _ Hm) in Hrow. }
    destruct (ih_rows _ _ Hd _ _ Hm) as (row & Hr & Hholds). replace row with p.2 in * by congruence.
    exists m. destruct Hholds as (Hkey & Hrest). rewrite Hkey. split_and!; try done.
    apply (matched_tokens_all _ _ _ _ _ Hd Hm); [apply search_tokens_nodup|by eapply Hinj|done].
  - intros (m & Hm & Hrow & Hholds & Hchat & Hall).
    apply (matched_tokens_all _ _ _ _ _ Hd Hm) in Hall; [|apply search_tokens_nodup|by eapply Hinj].
    destruct Hholds as (Hkey & _). rewrite Hkey in Hchat. split_and!; [lia|done|done|done].
Qed.

End facts.

Section search_theorem.
Context `{SL : StorageCryptoLaws} `{TJ : TgJson} `{UT : UnicodeText} `{CL : CharLowercase}.

(** What a search answers, in the tokens that the index keeps. *)
Lemma search_answers_tokens (key : StorageKey) (ops : list index_op) (query : string)
    (chat_id : option ChatId) (limit : nat) (d : TgDatabase) :
  td_index d = ∅ -> td_tokens d = ∅ -> Forall op_sound ops ->
  let '(d', ms) := run_index key ops d ∅ in
  search_tokens query 64 <> [] ->
  (forall k m, ms !! k = Some m -> no_collision key (search_tokens query 64 ++ message_tokens m)) ->
  exists all,
    search_messages key query chat_id limit d' = Ok (take (Nat.min limit 100) all)
    /\ StronglySorted newer all
    /\ NoDup (key_of <$> all)
    /\ (forall m, m ∈ all <-> ms !! key_of m = Some m /\ has_tokens query chat_id m).
Proof.
  intros Hi Ht Hops. pose proof (run_index_holds key ops d ∅ Hops (empty_index_holds key d Hi Ht)) as Hd.
  destruct (run_index key ops d ∅) as [d' ms]. intros Hne Hinj.
  pose proof (fun p => matching_rows_answer key query chat_id d' ms p Hd Hne Hinj) as Hrows.
  set (rows := matching_rows (blind key <$> search_tokens query 64) chat_id d') in *.
  assert (Hall : exists all, Forall2 (fun p m => ms !! p.1 = Some m /\ td_index d' !! p.1 = Some p.2
                               /\ row_holds key p.1 p.2 m /\ has_tokens query chat_id m) rows all).
  { apply Forall_exists_Forall2_l, list.Forall_forall. intros p Hp. by apply Hrows. }
  destruct Hall as [all Hall]. exists all.
  assert (Hkeys : key_of <$> all = rows.*1).
  { clear -Hall. induction Hall as [|p m rows all (_ & _ & [Hk _] & _) _ IH]; csimpl; [done|]. by rewrite Hk, IH. }
  split_and!.
  - unfold search_messages. destruct limit as [|n]; [done|]. simpl Nat.eqb. cbv iota.
    assert (Htake : read_rows (fun p => decrypt_indexed_message key p.1 (tir_payload p.2)) (take (Nat.min (S n) 100) rows)
                    = Ok (take (Nat.min (S n) 100) all)).
    { apply read_rows_ok, Forall2_take. eapply Forall2_impl; [|exact Hall]. by intros p m (_ & _ & (_ & _ & Hdec) & _). }
    unfold rows in Htake. destruct (search_tokens query 64); [done|]. exact Htake.
  - eapply sorted_through; [|exact Hall|apply StronglySorted_merge_sort; apply _].
    intros p m p' m' (_ & _ & (Hk & Hdate & _) & _) (_ & _ & (Hk' & Hdate' & _) & _).
    unfold newest_first, newer, key_of in *. rewrite Hdate, Hdate', <- Hk, <- Hk'. done.
  - rewrite Hkeys. unfold rows, matching_rows. rewrite merge_sort_Permutation.
    apply (sublist_NoDup _ (map_to_list (td_index d')).*1); [apply NoDup_fst_map_to_list|].
    apply fmap_sublist, sublist_filter.
  - intros m. split.
    + intros Hm. apply list_elem_of_lookup in Hm as [i Hm].
      destruct (Forall2_lookup_r _ _ _ _ _ Hall Hm) as (p & _ & Hp & _ & (Hk & _) & Ha). by rewrite Hk.
    + intros [Hm Ha]. destruct (ih_rows _ _ _ Hd _ _ Hm) as (row & Hrow & Hholds).
      assert (Hp : (key_of m, row) ∈ rows) by (apply Hrows; eauto).
      apply list_elem_of_lookup in Hp as [i Hp].
      destruct (Forall2_lookup_l _ _ _ _ _ Hall Hp) as (m' & Hm' & Hlook & _).
      simpl in Hlook. replace m with m' by congruence. by eapply list_elem_of_lookup_2.
Qed.

(** The message is of the chat, and has every word of the query. *)
Definition answers_query (query : string) (chat_id : option ChatId) (m : TgMessage) : Prop :=
  in_chat_filter chat_id (key_of m) = true
  /\ forall t, word_of (chars query) t -> word_of (chars (tg_message_search_text m)) t.

(** A text of at most [n] different words. *)
Definition few_words (n : nat) (text : string) : Prop :=
  exists l : list string, (length l <= n)%nat /\ forall t, word_of (chars text) t -> t ∈ l.

(** The hashes under the key tell the words of two texts apart. *)
Definition hashes_differ (key : StorageKey) (text other : string) : Prop :=
  forall s t, word_of (chars text) s \/ word_of (chars other) s -> word_of (chars text) t \/ word_of (chars other) t ->
  blind key s = blind key t -> s = t.

Lemma few_words_tokens (n : nat) (text : string) : few_words n text ->
  forall t, t ∈ search_tokens text n <-> word_of (chars text) t.
Proof.
  intros (l & Hlen & Hl) t. split; [apply search_tokens_words|]. apply search_tokens_all.
  transitivity (size (list_to_set l : gset string)).
  - apply subseteq_size. intros s Hs%all_tokens_words. by apply elem_of_list_to_set, Hl.
  - etransitivity; [|exact Hlen]. clear. induction l as [|s l IH]; [done|]. cbn [list_to_set length].
    destruct (decide (s ∈ (list_to_set l : gset string))) as [Hin|Hin].
    + replace ({[s]} ∪ list_to_set l : gset string) with (list_to_set l : gset string) by set_solver. lia.
    + rewrite size_union by set_solver. rewrite size_singleton. lia.
Qed.


End search_theorem.
