(* ===== verification/TgPersistence.v ===== *)
(** * The persistent Telegram client ([telegram-runtime/src/runtime.rs])

    A client keeps the engine's state in memory and commits every transition to
    the encrypted store before it adopts it; several clients may be open on one
    database.  The theorem is that they share one history: the log of events. *)

From S2P Require Import Prelude Text Maps Bytes ServiceCommand TgEngine TgInvariant TgStorage.

(** [PersistentClientStorage]: the connection, its cipher and the revision it has seen *)
Record PersistentClientStorage := {
  ps_path : string;
  ps_key : StorageKey;
  ps_revision : Z;
}.

Inductive CoreFailure := CoreRefused (e : TgError) | CoreNotSaved (e : TgStorageError).

Section client.
Context `{SC : StorageCrypto} `{TJ : TgJson}.

(** "telegram.executeCoreCommand": decide, apply to a copy, commit, adopt.  [files]
    holds the databases; [now], [busy] and [nonces] are the clock, whether the
    transaction cannot begin, and the nonces drawn. *)
Definition execute_core_command (now : Z) (busy : bool) (nonces : nat -> list ascii) (command : TgCommand)
    (core : TelegramState) (persistence : option PersistentClientStorage) (files : gmap string TgDatabase) :
    (TelegramState * option PersistentClientStorage * gmap string TgDatabase) * result CoreFailure (list TgEvent) :=
  match tg_decide command core with
  | Err e => ((core, persistence, files), Err (CoreRefused e))
  | Ok events =>
      let next_core := apply_all events core in
      match persistence with
      | None => ((next_core, None, files), Ok events)
      | Some p =>
          let d := default empty_database (files !! ps_path p) in
          let '(d', r) := commit_transition (ps_key p) busy nonces next_core events (ps_revision p) now d in
          let files' := <[ps_path p := d']> files in
          match r with
          | Err e => ((core, persistence, files'), Err (CoreNotSaved e))
          | Ok transition =>
              ((next_core, Some {| ps_path := ps_path p; ps_key := ps_key p;
                                   ps_revision := ss_revision (pt_snapshot transition) |}, files'), Ok events)
          end
      end
  end.

(** [create_persistent_client]: opens the database and resumes from its snapshot. *)
Definition open_persistent (path : string) (storage_key : list ascii) (files : gmap string TgDatabase) :
    gmap string TgDatabase * result TgStorageError (TelegramState * PersistentClientStorage) :=
  match storage_key_from_slice storage_key with
  | Err e => (files, Err e)
  | Ok key =>
      let '(d, r) := tg_migrate (default empty_database (files !! path)) in
      let files' := <[path := d]> files in
      (files', r ;;
               snapshot ← tg_load_snapshot key d;
               Ok match snapshot with
                  | None => (empty_telegram, {| ps_path := path; ps_key := key; ps_revision := 0 |})
                  | Some snapshot => (ss_state snapshot,
                                      {| ps_path := path; ps_key := key; ps_revision := ss_revision snapshot |})
                  end)
  end.

End client.

(** ** Values that JSON carries exactly *)

Section exact.
Context `{TJ : TgJson}.

Definition exact_content (content : TgContent) : bool :=
  match content with
  | TgLocation latitude longitude _ | TgVenue latitude longitude _ _ _ _ =>
      f64_reads_back latitude && f64_reads_back longitude
  | _ => true
  end.

Definition exact_event (event : TgEvent) : bool :=
  match event with
  | RemoteMessageUpserted m | MessageQueued m => exact_content (tm_content m)
  | TgMessageEdited _ _ content _ => exact_content content
  | _ => true
  end.

Definition exact_command (command : TgCommand) : bool :=
  match command with
  | UpsertRemoteMessage m => exact_content (tm_content m)
  | QueueMessage _ _ _ _ _ content _ _ | EditTgMessage _ _ content _ => exact_content content
  | _ => true
  end.

Definition exact_state (s : TelegramState) : Prop :=
  map_Forall (fun _ m => exact_content (tm_content m) = true) (ts_messages s).

End exact.

(** [serde_json] reads back what it wrote, if it does so with the numbers. *)
Class TgJsonLaws `{TgJson} : Prop := {
  wire_json : forall s, exact_state s -> wire_of_json (wire_to_json (wire_of s)) = Some (wire_of s);
  event_json : forall event, exact_event event = true -> tg_event_of_json (tg_event_to_json event) = Some event;
}.

Section preserved.
Context `{TJ : TgJson}.

Lemma in_message_exact (c : ChatId) (id : TgMessageId) (f : TgMessage -> TgMessage) (s : TelegramState) :
  (forall m, exact_content (tm_content m) = true -> exact_content (tm_content (f m)) = true) ->
  exact_state s -> exact_state (in_message c id f s).
Proof. intros Hf Hs. unfold exact_state, in_message. fields. apply map_Forall_alter; auto. Qed.

Lemma in_chat_exact (c : ChatId) (f : Chat -> Chat) (s : TelegramState) : exact_state s -> exact_state (in_chat c f s).
Proof. done. Qed.

Lemma forget_request_exact (m : TgMessage) (s : TelegramState) : exact_state s -> exact_state (forget_request m s).
Proof. unfold exact_state. by rewrite forget_request_messages. Qed.

Lemma put_message_exact (m : TgMessage) (s : TelegramState) :
  exact_content (tm_content m) = true -> exact_state s -> exact_state (put_message m s).
Proof. intros Hm Hs. unfold exact_state, put_message. fields. by apply map_Forall_insert_2. Qed.

#[local] Hint Resolve in_message_exact in_chat_exact forget_request_exact put_message_exact : exact_json.

Lemma apply_exact (event : TgEvent) (s : TelegramState) :
  exact_event event = true -> exact_state s -> exact_state (tg_apply event s).
Proof.
  intros He Hs. destruct event; try done; simpl in *; auto with exact_json.
  - destruct (pending_request message); auto with exact_json.
  - destruct (ts_messages s !! (chat_id, local_message_id)) as [m|] eqn:Hm; [|done]. apply in_chat_exact.
    unfold exact_state. fields. rewrite forget_request_messages. fields.
    apply map_Forall_insert_2; [exact (Hs _ _ Hm)|]. by apply map_Forall_delete.
  - destruct (ts_messages s !! (chat_id, message_id)); auto with exact_json.
  - clear He. revert s Hs. induction message_ids as [|id ids IH]; intros s Hs; [done|]. apply IH.
    unfold delete_message. destruct (ts_messages s !! (chat_id, id)); auto with exact_json.
  - destruct (ts_chats s !! chat_id) as [chat|]; [|done].
    destruct message_id, (chat_pinned_message_id chat); auto 6 with exact_json.
Qed.

Lemma decide_exact (command : TgCommand) (s : TelegramState) (events : list TgEvent) :
  exact_command command = true -> tg_decide command s = Ok events -> forallb exact_event events = true.
Proof.
  intros Hc Hd. destruct command; simpl in Hc, Hd; okps;
    repeat match goal with H : (if ?b then _ else _) = Ok _ |- _ => destruct b end; okps; subst;
    simpl; by rewrite ?Hc.
Qed.

Lemma apply_all_exact (events : list TgEvent) (s : TelegramState) :
  forallb exact_event events = true -> exact_state s -> exact_state (apply_all events s).
Proof.
  revert s. induction events as [|event events IH]; intros s; simpl; [done|].
  rewrite andb_true_iff. intros [He Hes] Hs. by apply IH, apply_exact.
Qed.

End preserved.

(** ** The history in a database *)

Section history.
Context `{SL : StorageCryptoLaws} `{TL : TgJsonLaws}.
Variable key : StorageKey.

(** The log reads back as [stored], numbered from one, and the snapshot is the
    state that replaying it gives. *)
Record history (d : TgDatabase) (stored : list StoredEvent) (s : TelegramState) : Prop := {
  hi_log : read_rows (read_event_row key) (td_events d) = Ok stored;
  hi_rows : Forall (fun row => 0 < ter_sequence row) (td_events d);
  hi_numbers : se_sequence <$> stored = seqZ 1 (td_last_sequence d);
  hi_last : 0 <= td_last_sequence d;
  hi_replay : s = apply_all (se_event <$> stored) empty_telegram;
  hi_exact : exact_state s;
  hi_wf : tg_wf s;
  hi_snapshot : match td_snapshot d with
                | None => stored = []
                | Some row =>
                    0 < tsr_revision row <= i64_max
                    /\ tg_load_snapshot key d
                       = Ok (Some {| ss_revision := tsr_revision row; ss_state := s;
                                     ss_updated_at_unix_ms := tsr_updated_at_unix_ms row |})
                end;
}.

Definition revision_of (d : TgDatabase) : Z :=
  match td_snapshot d with None => 0 | Some row => tsr_revision row end.

Lemma apply_all_app (es es' : list TgEvent) (s : TelegramState) :
  apply_all (es ++ es') s = apply_all es' (apply_all es s).
Proof. apply foldl_app. Qed.

Lemma read_rows_app {A B : Type} (read : A -> result TgStorageError B) (l k : list A) (bs cs : list B) :
  read_rows read l = Ok bs -> read_rows read k = Ok cs -> read_rows read (l ++ k) = Ok (bs ++ cs)%list.
Proof. rewrite <- !read_rows_ok. apply Forall2_app. Qed.

Lemma current_revision_ok (d : TgDatabase) (stored : list StoredEvent) (s : TelegramState) (z : Z) :
  history d stored s -> current_revision d = Ok z -> z = revision_of d /\ 0 <= z.
Proof.
  intros Hh. unfold current_revision, revision_of, to_u64. pose proof (hi_snapshot _ _ _ Hh) as Hs.
  destruct (td_snapshot d) as [row|]; [|naive_solver].
  intros Hz. oks. apply checked_spec in Hz as [-> _]. lia.
Qed.

Lemma to_i64_ok (z y : Z) : to_i64 z = Ok y -> y = z /\ z <= i64_max.
Proof. unfold to_i64. intros Hy. oks. apply checked_spec in Hy as [-> Hr%in_i64_spec]. lia. Qed.

(** The new row reads back as the event. *)
Lemma insert_event_row_reads (nonce : list ascii) (event : TgEvent) (now : Z) (d d' : TgDatabase) (st : StoredEvent) :
  length nonce = NONCE_LENGTH -> exact_event event = true -> 0 <= td_last_sequence d ->
  insert_event_row key nonce event now d = Ok (d', st) ->
  exists row, td_events d' = (td_events d ++ [row])%list
    /\ read_event_row key row = Ok st /\ 0 < ter_sequence row
    /\ se_event st = event /\ se_sequence st = td_last_sequence d + 1
    /\ td_last_sequence d' = td_last_sequence d + 1 /\ td_snapshot d' = td_snapshot d
    /\ td_user_version d' = td_user_version d.
Proof.
  intros Hn Hf Hlast Hi. unfold insert_event_row, to_u64 in Hi. oks.
  simplify_eq.
  repeat match goal with
  | H : checked _ _ = Some _ |- _ => apply checked_spec in H as [-> ?]
  | H : to_i64 _ = Ok _ |- _ => apply to_i64_ok in H as [-> ?]
  end.
  match goal with H : cipher_encrypt _ _ _ _ = Ok _ |- _ => pose proof (cipher_opens _ _ _ _ _ Hn H) as Hopen end.
  eexists. fields. split; [reflexivity|]. split_and!; try done; simpl; [|lia].
  unfold read_event_row, to_u64, checked. simpl.
  match goal with H : in_u64 _ = true |- _ => rewrite H end. simpl. rewrite Hopen. simpl. by rewrite event_json.
Qed.

Lemma insert_event_rows_read (nonces : nat -> list ascii) (events : list TgEvent) (now : Z) (d d' : TgDatabase)
    (sts : list StoredEvent) :
  (forall i, length (nonces i) = NONCE_LENGTH) -> forallb exact_event events = true -> 0 <= td_last_sequence d ->
  insert_event_rows key nonces events now d = Ok (d', sts) ->
  exists rows, td_events d' = (td_events d ++ rows)%list
    /\ read_rows (read_event_row key) rows = Ok sts /\ Forall (fun row => 0 < ter_sequence row) rows
    /\ se_event <$> sts = events /\ se_sequence <$> sts = seqZ (td_last_sequence d + 1) (Z.of_nat (length events))
    /\ td_last_sequence d' = td_last_sequence d + Z.of_nat (length events) /\ td_snapshot d' = td_snapshot d
    /\ td_user_version d' = td_user_version d.
Proof.
  revert nonces d sts. induction events as [|event events IH]; intros nonces d sts Hn Hf Hlast Hi; simpl in Hf, Hi.
  - simplify_eq. exists []. rewrite app_nil_r, Z.add_0_r. done.
  - apply andb_true_iff in Hf as [Hf Hfs]. okps. simplify_eq.
    destruct (insert_event_row_reads _ _ _ _ _ _ (Hn 0%nat) Hf Hlast Hok) as (row & He & Hr & Hpos & Hev & Hseq & Hl & Hs & Hv).
    edestruct IH as (rows & He' & Hr' & Hpos' & Hev' & Hseq' & Hl' & Hs' & Hv'); [|exact Hfs| |exact Hok0|].
    { intros i. apply Hn. }
    { lia. }
    exists (row :: rows). rewrite He', He, <- app_assoc. simpl. rewrite Hr, Hr'. csimpl.
    rewrite Hev, Hev', Hseq, Hseq'. split_and!; try done.
    + by constructor.
    + rewrite (seqZ_cons _ (Z.of_nat (S _))) by lia. rewrite Hl. f_equal. f_equal; lia.
    + lia.
    + congruence.
    + congruence.
Qed.

Lemma wire_round_trip (s : TelegramState) : tg_wf s -> state_of_wire (wire_of s) = s.
Proof.
  intros Hwf. unfold state_of_wire, wire_of. simpl.
  rewrite deserialize_serialize by (by apply messages_keyed). by destruct s.
Qed.

Lemma write_state_reads (nonce : list ascii) (s : TelegramState) (current now : Z) (d d' : TgDatabase)
    (snapshot : StateSnapshot) :
  length nonce = NONCE_LENGTH -> exact_state s -> tg_wf s -> 0 <= current ->
  write_state key nonce s current now d = Ok (d', snapshot) ->
  exists row, td_snapshot d' = Some row /\ tsr_revision row = current + 1 /\ current + 1 <= i64_max
    /\ ss_revision snapshot = current + 1
    /\ tg_load_snapshot key d' = Ok (Some {| ss_revision := current + 1; ss_state := s;
                                             ss_updated_at_unix_ms := tsr_updated_at_unix_ms row |})
    /\ td_events d' = td_events d /\ td_last_sequence d' = td_last_sequence d
    /\ td_user_version d' = td_user_version d.
Proof.
  intros Hn Hf Hwf Hc Hw. unfold write_state in Hw. oks.
  simplify_eq.
  match goal with H : checked _ _ = Some _ |- _ => apply checked_spec in H as [-> Hu] end.
  match goal with H : to_i64 _ = Ok _ |- _ => apply to_i64_ok in H as [-> ?] end.
  match goal with H : cipher_encrypt _ _ _ _ = Ok _ |- _ => pose proof (cipher_opens _ _ _ _ _ Hn H) as Hopen end.
  eexists. split; [reflexivity|]. split_and!; try done.
  unfold tg_load_snapshot, to_u64, checked. fields. simpl. rewrite Hu. simpl. rewrite Hopen. simpl.
  rewrite wire_json by done. simpl. by rewrite wire_round_trip.
Qed.

(** A commit extends the history by its events, or changes nothing. *)
Lemma commit_history (busy : bool) (nonces : nat -> list ascii) (s next : TelegramState) (events : list TgEvent)
    (expected now : Z) (d d' : TgDatabase) (stored : list StoredEvent) (r : result TgStorageError PersistedTransition) :
  (forall i, length (nonces i) = NONCE_LENGTH) -> forallb exact_event events = true ->
  exact_state next -> tg_wf next ->
  (expected = revision_of d -> next = apply_all events s) ->
  history d stored s ->
  commit_transition key busy nonces next events expected now d = (d', r) ->
  match r with
  | Err _ => d' = d
  | Ok t => expected = revision_of d /\ history d' (stored ++ pt_events t) next
            /\ se_event <$> pt_events t = events
            /\ ss_revision (pt_snapshot t) = revision_of d' /\ revision_of d' = expected + 1
            /\ td_user_version d' = td_user_version d
  end.
Proof.
  intros Hn Hfe Hfn Hwf Hnext Hh Hc. unfold commit_transition, tg_transaction in Hc.
  destruct busy; [by simplify_eq|].
  destruct (check_revision expected d ≫= _) as [[d2 t]|e] eqn:Hbody; simplify_eq; [|done].
  unfold check_revision in Hbody. okps. simplify_eq.
  rename select (current_revision _ = _) into Hcur. rename select ((_ =? expected) = true) into Heq.
  rename select (insert_event_rows _ _ _ _ _ = _) into Hins. rename select (write_state _ _ _ _ _ _ = _) into Hwrite.
  destruct (current_revision_ok _ _ _ _ Hh Hcur) as [-> Hpos]. apply Z.eqb_eq in Heq.
  destruct (insert_event_rows_read _ _ _ _ _ _ Hn Hfe (hi_last _ _ _ Hh) Hins)
    as (rows & He & Hr & Hrpos & Hev & Hseq & Hl & Hs & Hv).
  destruct (write_state_reads _ _ _ _ _ _ _ (Hn _) Hfn Hwf Hpos Hwrite)
    as (row & Hrow & Hrev & Hmax & Hss & Hload & He' & Hl' & Hv').
  specialize (Hnext (eq_sym Heq)). simpl.
  split; [done|]. split; [|split; [done|]].
  - destruct Hh as [Hlog Hrows Hnum Hlast Hrep Hfin Hwfs Hsnap]. split; try done.
    + rewrite He', He. by apply read_rows_app.
    + rewrite He', He. by apply Forall_app.
    + by rewrite fmap_app, Hnum, Hseq, Hl', Hl, seqZ_app, (Z.add_comm 1) by lia.
    + lia.
    + rewrite fmap_app, apply_all_app, <- Hrep, Hev. done.
    + rewrite Hrow, Hrev. split; [lia|]. done.
  - unfold revision_of at 1 2. rewrite Hrow. split_and!; [lia|lia|congruence].
Qed.

Lemma empty_history : history (empty_database ⟪ td_user_version := 2 ⟫) [] empty_telegram.
Proof. by split. Qed.

End history.

(** ** Several clients on one database *)

Section clients.
Context `{SL : StorageCryptoLaws} `{TL : TgJsonLaws}.
Variable path : string.
Variable storage_key : list ascii.

Inductive client_op :=
| OpenClient (i : nat)
| ExecuteCore (i : nat) (now : Z) (busy : bool) (nonces : nat -> list ascii) (command : TgCommand)
| CloseClient (i : nat).

(** The files, and the clients by number. *)
Record Desk := {
  dk_files : gmap string TgDatabase;
  dk_clients : gmap nat (TelegramState * option PersistentClientStorage);
}.

Definition desk_step (w : Desk) (op : client_op) : Desk :=
  match op with
  | OpenClient i =>
      match open_persistent path storage_key (dk_files w) with
      | (files, Ok (core, p)) => {| dk_files := files; dk_clients := <[i := (core, Some p)]> (dk_clients w) |}
      | (files, Err _) => {| dk_files := files; dk_clients := dk_clients w |}
      end
  | ExecuteCore i now busy nonces command =>
      match dk_clients w !! i with
      | None => w
      | Some (core, p) =>
          let '((core', p', files), _) := execute_core_command now busy nonces command core p (dk_files w) in
          {| dk_files := files; dk_clients := <[i := (core', p')]> (dk_clients w) |}
      end
  | CloseClient i => {| dk_files := dk_files w; dk_clients := delete i (dk_clients w) |}
  end.

Definition new_desk : Desk := {| dk_files := ∅; dk_clients := ∅ |}.
Definition desk_run (ops : list client_op) : Desk := foldl desk_step new_desk ops.
Definition database_of (w : Desk) : TgDatabase := default empty_database (dk_files w !! path).

(** The clock and the cipher supply nonces of their length, and commands come from JSON. *)
Definition client_op_sound (op : client_op) : Prop :=
  match op with
  | ExecuteCore _ _ _ nonces command =>
      (forall i, length (nonces i) = NONCE_LENGTH) /\ exact_command command = true
  | _ => True
  end.

(** A client holds a past or the present state of the database, as its revision says. *)
Definition client_follows (key : StorageKey) (d : TgDatabase) (s : TelegramState)
    (client : TelegramState * option PersistentClientStorage) : Prop :=
  exists p, client.2 = Some p /\ ps_path p = path /\ ps_key p = key
    /\ ps_revision p <= revision_of d /\ (ps_revision p = revision_of d -> client.1 = s)
    /\ exact_state client.1 /\ tg_wf client.1.

Record desk_ok (key : StorageKey) (w : Desk) (stored : list StoredEvent) (s : TelegramState) : Prop := {
  do_new : dk_files w !! path = None -> dk_clients w = ∅;
  do_version : forall d, dk_files w !! path = Some d -> td_user_version d = 2;
  do_history : history key (database_of w) stored s;
  do_clients : map_Forall (fun _ client => client_follows key (database_of w) s client) (dk_clients w);
}.

Hypothesis key_length : length storage_key = 32%nat.
Definition the_key : StorageKey := MkStorageKey storage_key.

Lemma key_from_slice : storage_key_from_slice storage_key = Ok the_key.
Proof. unfold storage_key_from_slice. by rewrite key_length. Qed.

Lemma new_desk_ok : desk_ok the_key new_desk [] empty_telegram.
Proof. by split. Qed.

Lemma lookup_default (w : Desk) (d : TgDatabase) : dk_files w !! path = Some d -> database_of w = d.
Proof. unfold database_of. by intros ->. Qed.

(** Opening the database gives its present state. *)
Lemma core_open_ok (w : Desk) (stored : list StoredEvent) (s : TelegramState) :
  desk_ok the_key w stored s ->
  exists files p,
    open_persistent path storage_key (dk_files w) = (files, Ok (s, p))
    /\ history the_key (default empty_database (files !! path)) stored s
    /\ (forall d, files !! path = Some d -> td_user_version d = 2)
    /\ is_Some (files !! path)
    /\ (dk_clients w <> ∅ -> default empty_database (files !! path) = database_of w)
    /\ client_follows the_key (default empty_database (files !! path)) s (s, Some p).
Proof.
  intros [Hnew Hver Hh Hcl]. unfold open_persistent. rewrite key_from_slice.
  destruct (dk_files w !! path) as [d|] eqn:Hd; simpl.
  - rewrite (lookup_default _ _ Hd) in *. unfold tg_migrate. rewrite (Hver d eq_refl). simpl.
    pose proof (hi_snapshot _ _ _ _ Hh) as Hsnap.
    destruct (td_snapshot d) as [row|] eqn:Hrow.
    + destruct Hsnap as [Hrev Hload]. rewrite Hload. simpl. eexists _, _. split; [reflexivity|].
      rewrite lookup_insert_eq. simpl. split_and!; try done.
      eexists. split; [reflexivity|]. simpl. unfold revision_of. rewrite Hrow.
      destruct Hh. split_and!; done || lia.
    + unfold tg_load_snapshot. rewrite Hrow. simpl.
      assert (Hs : s = empty_telegram) by (rewrite (hi_replay _ _ _ _ Hh), Hsnap; done). subst s.
      eexists _, _. split; [reflexivity|].
      rewrite lookup_insert_eq. simpl. split_and!; try done.
      eexists. split; [reflexivity|]. simpl. unfold revision_of. rewrite Hrow.
      destruct Hh. split_and!; done || lia.
  - assert (Hw : database_of w = empty_database) by (unfold database_of; by rewrite Hd).
    rewrite Hw in *. pose proof (hi_snapshot _ _ _ _ Hh) as Hsnap. simpl in Hsnap. subst stored.
    assert (Hs : s = empty_telegram) by (rewrite (hi_replay _ _ _ _ Hh); done). subst s.
    eexists _, _. split; [reflexivity|]. rewrite lookup_insert_eq. simpl.
    split; [apply empty_history|]. split; [by intros d [= <-]|]. split; [done|].
    split; [by rewrite (Hnew eq_refl)|].
    eexists. split; [reflexivity|]. destruct Hh. split_and!; done || lia.
Qed.

(** What executing a command does to the database, the client and the others. *)
Lemma core_execute_ok (w : Desk) (stored : list StoredEvent) (s : TelegramState) (i : nat) (now : Z) (busy : bool)
    (nonces : nat -> list ascii) (command : TgCommand) (core : TelegramState) (p : option PersistentClientStorage) :
  desk_ok the_key w stored s -> client_op_sound (ExecuteCore i now busy nonces command) ->
  dk_clients w !! i = Some (core, p) ->
  let '((core', p', files), r) := execute_core_command now busy nonces command core p (dk_files w) in
  let d' := default empty_database (files !! path) in
  is_Some (files !! path)
  /\ match r with
     | Err _ => core' = core /\ p' = p /\ d' = database_of w
     | Ok events =>
         core = s /\ tg_decide command s = Ok events /\ core' = apply_all events s
         /\ td_user_version d' = 2
         /\ revision_of d' = revision_of (database_of w) + 1
         /\ (exists new, history the_key d' (stored ++ new) core' /\ se_event <$> new = events)
         /\ client_follows the_key d' core' (core', p')
     end.
Proof.
  intros [Hnew Hver Hh Hcl] [Hn Hfin] Hi.
  destruct (Hcl _ _ Hi) as (q & Hq & Hpath & Hkey & Hrev & Hcur & Hcf & Hcw). simpl in Hq, Hcur, Hcf, Hcw. subst p.
  destruct (dk_files w !! path) as [d|] eqn:Hd; [|by rewrite (Hnew eq_refl) in Hi].
  rewrite (lookup_default _ _ Hd) in *. unfold execute_core_command.
  destruct (tg_decide command core) as [events|e] eqn:Hdec; [|by rewrite Hd].
  rewrite Hpath, Hkey, Hd. simpl.
  destruct (commit_transition _ _ _ _ _ _ _ _) as [d' r] eqn:Hc.
  pose proof (decide_exact _ _ _ Hfin Hdec) as Hfe.
  assert (Hwf' : tg_wf (apply_all events core)).
  { pose proof (tg_execute_wf command core Hcw) as Hex. unfold tg_execute in Hex. by rewrite Hdec in Hex. }
  pose proof (commit_history the_key busy nonces s (apply_all events core) events (ps_revision q) now d d' stored r Hn Hfe
    (apply_all_exact _ _ Hfe Hcf) Hwf' (fun E => f_equal _ (Hcur E)) Hh Hc) as Hr.
  destruct r as [t|e]; rewrite lookup_insert_eq; simpl; [|subst d'; done].
  destruct Hr as (Heq & Hh' & Hev & Hss & Hrev' & Hv). rewrite (Hver d eq_refl) in Hv.
  split; [done|]. rewrite (Hcur Heq) in *. split_and!; try done; [lia|eauto|].
  eexists. split; [reflexivity|]. simpl. destruct Hh'. split_and!; try done; lia.
Qed.

(** The other clients, when the database moved on. *)
Lemma follows_later (d d' : TgDatabase) (s s' : TelegramState) (client : TelegramState * option PersistentClientStorage) :
  revision_of d' = revision_of d + 1 ->
  client_follows the_key d s client -> client_follows the_key d' s' client.
Proof.
  intros Hrev (p & Hp & Hpath & Hkey & Hle & _ & Hfin & Hwf). exists p.
  split_and!; try done; [lia|intros; exfalso; lia].
Qed.

Lemma desk_step_ok (w : Desk) (op : client_op) (stored : list StoredEvent) (s : TelegramState) :
  desk_ok the_key w stored s -> client_op_sound op ->
  exists new s', desk_ok the_key (desk_step w op) (stored ++ new) s'.
Proof.
  intros Hw Hop. destruct op as [i|i now busy nonces command|i]; simpl.
  - destruct (core_open_ok w stored s Hw) as (files & p & -> & Hh & Hver & Hsome & Hsame & Hf).
    exists [], s. rewrite app_nil_r. destruct Hw as [Hnew _ _ Hcl]. split; simpl.
    + intros Hnone. rewrite Hnone in Hsome. by destruct Hsome.
    + done.
    + done.
    + apply map_Forall_insert_2; [done|]. intros j client Hj. unfold database_of. simpl.
      rewrite Hsame; [by eapply Hcl|]. intros He. rewrite He in Hj. by rewrite lookup_empty in Hj.
  - destruct (dk_clients w !! i) as [[core p]|] eqn:Hi; [|exists [], s; by rewrite app_nil_r].
    pose proof (core_execute_ok w stored s i now busy nonces command core p Hw Hop Hi) as Hx.
    destruct (execute_core_command _ _ _ _ _ _ _) as [[[core' p'] files] r].
    destruct Hx as [Hsome Hr]. destruct Hw as [Hnew Hver Hh Hcl].
    destruct r as [events|e].
    + destruct Hr as (_ & _ & _ & Hv & Hrev & (new & Hh' & _) & Hf). exists new, core'. split; simpl.
      * intros Hnone. rewrite Hnone in Hsome. by destruct Hsome.
      * intros d Hd. by rewrite Hd in Hv.
      * done.
      * apply map_Forall_insert_2; [done|]. eapply map_Forall_impl; [exact Hcl|].
        intros j client. by apply follows_later.
    + destruct Hr as (-> & -> & Hd). exists [], s. rewrite app_nil_r. split; simpl.
      * intros Hnone. rewrite Hnone in Hsome. by destruct Hsome.
      * intros d Hd'. rewrite Hd' in Hd. simpl in Hd. subst d.
        destruct (dk_files w !! path) as [d|] eqn:Hold; [|by rewrite (Hnew eq_refl) in Hi].
        rewrite (lookup_default _ _ Hold). by apply Hver.
      * unfold database_of at 1. simpl. by rewrite Hd.
      * unfold database_of at 1. simpl. rewrite Hd. apply map_Forall_insert_2; [by eapply Hcl|done].
  - exists [], s. rewrite app_nil_r. destruct Hw as [Hnew Hver Hh Hcl]. split; simpl; try done.
    + intros Hnone. by rewrite (Hnew Hnone), delete_empty.
    + by apply map_Forall_delete.
Qed.

Lemma desk_run_ok (ops : list client_op) :
  Forall client_op_sound ops -> exists stored s, desk_ok the_key (desk_run ops) stored s.
Proof.
  unfold desk_run. intros Hops.
  assert (Hgen : forall w stored s, desk_ok the_key w stored s -> Forall client_op_sound ops ->
            exists stored s, desk_ok the_key (foldl desk_step w ops) stored s).
  { clear Hops. induction ops as [|op ops IH]; intros w stored s Hw Hall; [by exists stored, s|].
    apply list.Forall_cons in Hall as [Hop Hall].
    destruct (desk_step_ok w op stored s Hw Hop) as (new & s' & Hw'). by eapply IH. }
  eapply Hgen; [exact new_desk_ok|done].
Qed.

End clients.

Section theorem.
Context `{SL : StorageCryptoLaws} `{TL : TgJsonLaws}.

(** C14: Any number of clients open a database, execute commands and close, in any
    order, transactions failing now and then.  The log then decrypts, numbered
    from one without a gap, and the snapshot is the state that replaying it from
    nothing gives; opening the database resumes from that state.  A command
    that succeeds was decided on exactly that state, whatever the client had
    seen before, and the log is extended by its events; one that fails changes
    neither the database nor the client: no update is lost.  The coordinates in
    the messages are those that the JSON of the store reads back exactly, which
    it does not promise of every number. *)
Theorem clients_share_one_history (path : string) (storage_key : list ascii) (ops : list client_op) (i : nat)
    (now : Z) (busy : bool) (nonces : nat -> list ascii) (command : TgCommand) :
  length storage_key = 32%nat -> Forall client_op_sound ops ->
  client_op_sound (ExecuteCore i now busy nonces command) ->
  let key := the_key storage_key in
  let w := desk_run path storage_key ops in
  exists stored s,
    history key (database_of path w) stored s
    /\ (exists files p, open_persistent path storage_key (dk_files w) = (files, Ok (s, p)))
    /\ forall core p, dk_clients w !! i = Some (core, p) ->
       match execute_core_command now busy nonces command core p (dk_files w) with
       | ((core', p', files), Ok events) =>
           core = s /\ tg_decide command s = Ok events /\ core' = apply_all events s
           /\ exists new, se_event <$> new = events
                          /\ history key (default empty_database (files !! path)) (stored ++ new) core'
       | ((core', p', files), Err _) =>
           core' = core /\ p' = p /\ default empty_database (files !! path) = database_of path w
       end.
Proof.
  intros Hlen Hops Hop key w. destruct (desk_run_ok path storage_key Hlen ops Hops) as (stored & s & Hw).
  exists stored, s. split; [exact (do_history _ _ _ _ _ Hw)|]. split.
  { destruct (core_open_ok path storage_key Hlen w stored s Hw) as (files & p & Hopen & _). eauto. }
  intros core p Hi.
  pose proof (core_execute_ok path storage_key Hlen w stored s i now busy nonces command core p Hw Hop Hi) as Hx.
  destruct (execute_core_command _ _ _ _ _ _ _) as [[[core' p'] files] [events|e]]; [|by destruct Hx].
  destruct Hx as (_ & Hcore & Hdec & Happ & _ & _ & (new & Hh & Hev) & _). split_and!; try done. by exists new.
Qed.

End theorem.
