(* ===== verification/TgDemo.v ===== *)
(** * A small Telegram client, for the witnesses

    A codec for the values (any injective one will do), a cipher that seals by
    adding a byte and a hash that is the identity. *)

From S2P Require Import Prelude Text Maps Bytes Message Search TgEngine TgInvariant TgStorage TgPersistence.

(** ** The values are countable

    A variant is coded as its number and the tuple of its arguments. *)

Definition tag {A : Type} `{Countable A} (n : nat) (a : A) : positive := encode (n, encode a).

Definition untag {B : Type} (cases : nat -> positive -> option B) (p : positive) : option B :=
  '(n, q) ← decode p; cases n q.

Lemma untag_tag {A B : Type} `{Countable A} (cases : nat -> positive -> option B) (n : nat) (a : A) :
  untag cases (tag n a) = cases n (encode a).
Proof. unfold untag, tag. by rewrite decode_encode. Qed.

Ltac countable_variant := intros []; cbv beta iota; rewrite untag_tag; cbv beta iota; by rewrite ?decode_encode.

#[export] Instance ChatKind_countable : Countable ChatKind.
Proof.
  refine {|
  encode r := match r with
    | ChatPrivate => tag 0 ()
    | BasicGroup => tag 1 ()
    | Supergroup => tag 2 ()
    | ChatChannel => tag 3 ()
    | ChatSecret => tag 4 ()
    | SavedMessages => tag 5 ()
    end;
  decode := untag (fun n p => match n with
    | 0%nat => Some ChatPrivate
    | 1%nat => Some BasicGroup
    | 2%nat => Some Supergroup
    | 3%nat => Some ChatChannel
    | 4%nat => Some ChatSecret
    | 5%nat => Some SavedMessages
    | _ => None
    end) |}. countable_variant.
Defined.
#[export] Program Instance TgNotificationSettings_countable : Countable TgNotificationSettings := inj_countable'
    (fun r => (tn_mute_until_unix_ms r, tn_sound_id r, tn_show_preview r)) (fun '(x0, x1, x2) =>
    Build_TgNotificationSettings x0 x1 x2) _.
Next Obligation. by intros []. Qed.
#[export] Instance TgTextEntityKind_countable : Countable TgTextEntityKind.
Proof.
  refine {|
  encode r := match r with
    | TgMention => tag 0 ()
    | TgHashtag => tag 1 ()
    | TgCashtag => tag 2 ()
    | TgBotCommand => tag 3 ()
    | TgUrl => tag 4 ()
    | TgEmail => tag 5 ()
    | TgPhoneNumber => tag 6 ()
    | TgBold => tag 7 ()
    | TgItalic => tag 8 ()
    | TgUnderline => tag 9 ()
    | TgStrikethrough => tag 10 ()
    | TgSpoiler => tag 11 ()
    | TgCode => tag 12 ()
    | TgPre a => tag 13 a
    | TgTextUrl a => tag 14 a
    | TgMentionUser a => tag 15 a
    | TgCustomEmoji a => tag 16 a
    end;
  decode := untag (fun n p => match n with
    | 0%nat => Some TgMention
    | 1%nat => Some TgHashtag
    | 2%nat => Some TgCashtag
    | 3%nat => Some TgBotCommand
    | 4%nat => Some TgUrl
    | 5%nat => Some TgEmail
    | 6%nat => Some TgPhoneNumber
    | 7%nat => Some TgBold
    | 8%nat => Some TgItalic
    | 9%nat => Some TgUnderline
    | 10%nat => Some TgStrikethrough
    | 11%nat => Some TgSpoiler
    | 12%nat => Some TgCode
    | 13%nat => TgPre <$> decode p
    | 14%nat => TgTextUrl <$> decode p
    | 15%nat => TgMentionUser <$> decode p
    | 16%nat => TgCustomEmoji <$> decode p
    | _ => None
    end) |}. countable_variant.
Defined.
#[export] Program Instance TgTextEntity_countable : Countable TgTextEntity := inj_countable' (fun r =>
    (te_offset_utf16 r, te_length_utf16 r, te_kind r)) (fun '(x0, x1, x2) => Build_TgTextEntity x0 x1 x2) _.
Next Obligation. by intros []. Qed.
#[export] Program Instance TgFormattedText_countable : Countable TgFormattedText := inj_countable' (fun r =>
    (tft_text r, tft_entities r)) (fun '(x0, x1) => Build_TgFormattedText x0 x1) _.
Next Obligation. by intros []. Qed.
#[export] Program Instance ChatDraft_countable : Countable ChatDraft := inj_countable' (fun r => (cd_content r,
    cd_reply_to_message_id r, cd_updated_at_unix_ms r)) (fun '(x0, x1, x2) => Build_ChatDraft x0 x1 x2) _.
Next Obligation. by intros []. Qed.
#[export] Program Instance Chat_countable : Countable Chat := inj_countable' (fun r => (chat_id r, chat_kind r,
    chat_title r, chat_last_message_id r, chat_last_read_inbox_message_id r, chat_last_read_outbox_message_id r,
    chat_unread_count r, chat_pinned_message_id r, chat_notification_settings r, chat_is_archived r,
    chat_is_marked_unread r, chat_draft r, chat_folder_ids r)) (fun '(x0, x1, x2, x3, x4, x5, x6, x7, x8, x9,
    x10, x11, x12) => Build_Chat x0 x1 x2 x3 x4 x5 x6 x7 x8 x9 x10 x11 x12) _.
Next Obligation. by intros []. Qed.
#[export] Instance ChatFolder_eq_dec : EqDecision ChatFolder.
Proof. solve_decision. Defined.
#[export] Program Instance ChatFolder_countable : Countable ChatFolder := inj_countable' (fun r => (cf_id r,
    cf_title r, cf_icon_name r, cf_included_chat_ids r, cf_excluded_chat_ids r, cf_include_contacts r,
    cf_include_non_contacts r, cf_include_groups r, cf_include_channels r, cf_include_bots r, cf_exclude_muted
    r, cf_exclude_read r, cf_exclude_archived r)) (fun '(x0, x1, x2, x3, x4, x5, x6, x7, x8, x9, x10, x11, x12)
    => Build_ChatFolder x0 x1 x2 x3 x4 x5 x6 x7 x8 x9 x10 x11 x12) _.
Next Obligation. by intros []. Qed.
#[export] Instance TypingActionKind_eq_dec : EqDecision TypingActionKind.
Proof. solve_decision. Defined.
#[export] Instance TypingActionKind_countable : Countable TypingActionKind.
Proof.
  refine {|
  encode r := match r with
    | Typing => tag 0 ()
    | RecordingVoice => tag 1 ()
    | RecordingVideoNote => tag 2 ()
    | UploadingPhoto => tag 3 ()
    | UploadingVideo => tag 4 ()
    | UploadingDocument => tag 5 ()
    | ChoosingSticker => tag 6 ()
    | ChoosingLocation => tag 7 ()
    | WatchingAnimation => tag 8 ()
    | SpeakingInGroupCall => tag 9 ()
    end;
  decode := untag (fun n p => match n with
    | 0%nat => Some Typing
    | 1%nat => Some RecordingVoice
    | 2%nat => Some RecordingVideoNote
    | 3%nat => Some UploadingPhoto
    | 4%nat => Some UploadingVideo
    | 5%nat => Some UploadingDocument
    | 6%nat => Some ChoosingSticker
    | 7%nat => Some ChoosingLocation
    | 8%nat => Some WatchingAnimation
    | 9%nat => Some SpeakingInGroupCall
    | _ => None
    end) |}. countable_variant.
Defined.
#[export] Instance TypingAction_eq_dec : EqDecision TypingAction.
Proof. solve_decision. Defined.
#[export] Program Instance TypingAction_countable : Countable TypingAction := inj_countable' (fun r =>
    (ta_user_id r, ta_kind r, ta_progress_percent r, ta_expires_at_unix_ms r)) (fun '(x0, x1, x2, x3) =>
    Build_TypingAction x0 x1 x2 x3) _.
Next Obligation. by intros []. Qed.
#[export] Instance FileRef_eq_dec : EqDecision FileRef.
Proof. solve_decision. Defined.
#[export] Program Instance FileRef_countable : Countable FileRef := inj_countable' (fun r => (fr_id r,
    fr_file_name r, fr_mime_type r, fr_size_bytes r, fr_local_path r, fr_remote_id r)) (fun '(x0, x1, x2, x3,
    x4, x5) => Build_FileRef x0 x1 x2 x3 x4 x5) _.
Next Obligation. by intros []. Qed.
#[export] Instance TgPollOption_eq_dec : EqDecision TgPollOption.
Proof. solve_decision. Defined.
#[export] Program Instance TgPollOption_countable : Countable TgPollOption := inj_countable' (fun r => (tpo_text
    r, tpo_voter_count r, tpo_is_chosen r, tpo_is_correct r)) (fun '(x0, x1, x2, x3) => Build_TgPollOption x0 x1
    x2 x3) _.
Next Obligation. by intros []. Qed.
#[export] Instance TgContent_eq_dec : EqDecision TgContent.
Proof. solve_decision. Defined.
#[export] Instance TgContent_countable : Countable TgContent.
Proof.
  refine {|
  encode r := match r with
    | TgText a => tag 0 a
    | TgPhoto a b c d e => tag 1 (a, b, c, d, e)
    | TgVideo a b c d e f => tag 2 (a, b, c, d, e, f)
    | TgAnimation a b c => tag 3 (a, b, c)
    | TgAudio a b c d e => tag 4 (a, b, c, d, e)
    | TgVoiceNote a b c d => tag 5 (a, b, c, d)
    | TgVideoNote a b c => tag 6 (a, b, c)
    | TgDocument a b => tag 7 (a, b)
    | TgSticker a b c d e => tag 8 (a, b, c, d, e)
    | TgPoll a b c d e => tag 9 (a, b, c, d, e)
    | TgContact a b c d => tag 10 (a, b, c, d)
    | TgLocation a b c => tag 11 (a, b, c)
    | TgVenue a b c d e f => tag 12 (a, b, c, d, e, f)
    | TgDice a b => tag 13 (a, b)
    | TgStory a b => tag 14 (a, b)
    | TgInvoice a b c d => tag 15 (a, b, c, d)
    | TgService a => tag 16 a
    | TgUnsupported a => tag 17 a
    end;
  decode := untag (fun n p => match n with
    | 0%nat => TgText <$> decode p
    | 1%nat => (fun '(a, b, c, d, e) => TgPhoto a b c d e) <$> decode p
    | 2%nat => (fun '(a, b, c, d, e, f) => TgVideo a b c d e f) <$> decode p
    | 3%nat => (fun '(a, b, c) => TgAnimation a b c) <$> decode p
    | 4%nat => (fun '(a, b, c, d, e) => TgAudio a b c d e) <$> decode p
    | 5%nat => (fun '(a, b, c, d) => TgVoiceNote a b c d) <$> decode p
    | 6%nat => (fun '(a, b, c) => TgVideoNote a b c) <$> decode p
    | 7%nat => (fun '(a, b) => TgDocument a b) <$> decode p
    | 8%nat => (fun '(a, b, c, d, e) => TgSticker a b c d e) <$> decode p
    | 9%nat => (fun '(a, b, c, d, e) => TgPoll a b c d e) <$> decode p
    | 10%nat => (fun '(a, b, c, d) => TgContact a b c d) <$> decode p
    | 11%nat => (fun '(a, b, c) => TgLocation a b c) <$> decode p
    | 12%nat => (fun '(a, b, c, d, e, f) => TgVenue a b c d e f) <$> decode p
    | 13%nat => (fun '(a, b) => TgDice a b) <$> decode p
    | 14%nat => (fun '(a, b) => TgStory a b) <$> decode p
    | 15%nat => (fun '(a, b, c, d) => TgInvoice a b c d) <$> decode p
    | 16%nat => TgService <$> decode p
    | 17%nat => TgUnsupported <$> decode p
    | _ => None
    end) |}. countable_variant.
Defined.
#[export] Instance TgDelivery_countable : Countable TgDelivery.
Proof.
  refine {|
  encode r := match r with
    | TgPending a => tag 0 a
    | TgSent => tag 1 ()
    | TgFailed a b => tag 2 (a, b)
    end;
  decode := untag (fun n p => match n with
    | 0%nat => TgPending <$> decode p
    | 1%nat => Some TgSent
    | 2%nat => (fun '(a, b) => TgFailed a b) <$> decode p
    | _ => None
    end) |}. countable_variant.
Defined.
#[export] Program Instance ReactionCount_countable : Countable ReactionCount := inj_countable' (fun r =>
    (rc_reaction r, rc_total_count r, rc_chosen_by_me r)) (fun '(x0, x1, x2) => Build_ReactionCount x0 x1 x2) _.
Next Obligation. by intros []. Qed.
#[export] Instance TgMessage_eq_dec : EqDecision TgMessage.
Proof. solve_decision. Defined.
#[export] Program Instance TgMessage_countable : Countable TgMessage := inj_countable' (fun r => (tm_id r,
    tm_chat_id r, tm_sender_user_id r, tm_date_unix_ms r, tm_edit_date_unix_ms r, tm_content r,
    tm_reply_to_message_id r, tm_message_thread_id r, tm_delivery_state r, tm_reactions r, tm_is_outgoing r,
    tm_is_pinned r, tm_is_deleted r)) (fun '(x0, x1, x2, x3, x4, x5, x6, x7, x8, x9, x10, x11, x12) =>
    Build_TgMessage x0 x1 x2 x3 x4 x5 x6 x7 x8 x9 x10 x11 x12) _.
Next Obligation. by intros []. Qed.
#[export] Instance TelegramWire_eq_dec : EqDecision TelegramWire.
Proof. solve_decision. Defined.
#[export] Program Instance TelegramWire_countable : Countable TelegramWire := inj_countable' (fun r => (tw_chats
    r, tw_chat_folders r, tw_messages r, tw_pending_requests r, tw_typing_actions r)) (fun '(x0, x1, x2, x3, x4)
    => Build_TelegramWire x0 x1 x2 x3 x4) _.
Next Obligation. by intros []. Qed.
#[export] Instance TgEvent_eq_dec : EqDecision TgEvent.
Proof. solve_decision. Defined.
#[export] Instance TgEvent_countable : Countable TgEvent.
Proof.
  refine {|
  encode r := match r with
    | ChatUpserted a => tag 0 a
    | ChatFolderUpserted a => tag 1 a
    | ChatFolderDeleted a => tag 2 a
    | ChatDraftUpdated a b => tag 3 (a, b)
    | ChatMarkedUnreadUpdated a b => tag 4 (a, b)
    | TypingActionsUpdated a b => tag 5 (a, b)
    | RemoteMessageUpserted a => tag 6 a
    | MessageReactionUpdated a b c => tag 7 (a, b, c)
    | MessageQueued a => tag 8 a
    | MessageAcknowledged a b c d => tag 9 (a, b, c, d)
    | MessageFailed a b c d => tag 10 (a, b, c, d)
    | TgMessageEdited a b c d => tag 11 (a, b, c, d)
    | TgMessagesDeleted a b => tag 12 (a, b)
    | ChatReadUpdated a b c => tag 13 (a, b, c)
    | PinnedMessageUpdated a b => tag 14 (a, b)
    end;
  decode := untag (fun n p => match n with
    | 0%nat => ChatUpserted <$> decode p
    | 1%nat => ChatFolderUpserted <$> decode p
    | 2%nat => ChatFolderDeleted <$> decode p
    | 3%nat => (fun '(a, b) => ChatDraftUpdated a b) <$> decode p
    | 4%nat => (fun '(a, b) => ChatMarkedUnreadUpdated a b) <$> decode p
    | 5%nat => (fun '(a, b) => TypingActionsUpdated a b) <$> decode p
    | 6%nat => RemoteMessageUpserted <$> decode p
    | 7%nat => (fun '(a, b, c) => MessageReactionUpdated a b c) <$> decode p
    | 8%nat => MessageQueued <$> decode p
    | 9%nat => (fun '(a, b, c, d) => MessageAcknowledged a b c d) <$> decode p
    | 10%nat => (fun '(a, b, c, d) => MessageFailed a b c d) <$> decode p
    | 11%nat => (fun '(a, b, c, d) => TgMessageEdited a b c d) <$> decode p
    | 12%nat => (fun '(a, b) => TgMessagesDeleted a b) <$> decode p
    | 13%nat => (fun '(a, b, c) => ChatReadUpdated a b c) <$> decode p
    | 14%nat => (fun '(a, b) => PinnedMessageUpdated a b) <$> decode p
    | _ => None
    end) |}. countable_variant.
Defined.

(** ** The parameters *)

Definition to_bits {A : Type} `{Countable A} (a : A) : list ascii := bits_of_positive (encode a).
Definition of_bits {A : Type} `{Countable A} (l : list ascii) : option A := decode (positive_of_bits l).

Lemma of_to_bits {A : Type} `{Countable A} (a : A) : of_bits (to_bits a) = Some a.
Proof. unfold of_bits, to_bits. by rewrite positive_bits_roundtrip, decode_encode. Qed.

#[export] Instance bits_json : TgJson := {
  wire_to_json := to_bits;
  wire_of_json := of_bits;
  tg_event_to_json := to_bits;
  tg_event_of_json := of_bits;
  tg_message_to_json := to_bits;
  tg_message_of_json := of_bits;
  f64_reads_back _ := true;
}.

#[export] Instance bits_json_laws : TgJsonLaws.
Proof. split; intros; apply of_to_bits. Qed.

#[export] Instance toy_storage_crypto : StorageCrypto := {
  seal_bytes _ _ _ msg := Some (byte_of 0 :: msg);
  open_bytes _ _ _ sealed := match sealed with [] => None | _ :: msg => Some msg end;
  hmac_sha256 _ msg := msg;
}.

#[export] Instance toy_storage_crypto_laws : StorageCryptoLaws.
Proof. split; [by intros key nonce aad msg sealed [= <-]|by intros key nonce aad msg sealed [= <-]]. Qed.

#[export] Instance tg_text : UnicodeText := {
  str_to_lowercase s := s;
  char_is_alphanumeric c := match c with [a] => is_ascii_alphanumeric a | _ => false end;
}.
#[export] Instance tg_lowercase : CharLowercase := fun c => [c].

(** ** Searching *)

Definition zero_nonce : list ascii := replicate 24 (byte_of 0).

Definition demo_text (c : ChatId) (id : TgMessageId) (date : Z) (text : string) : TgMessage := {|
  tm_id := id; tm_chat_id := c; tm_sender_user_id := 1; tm_date_unix_ms := date; tm_edit_date_unix_ms := None;
  tm_content := TgText (tg_plain text); tm_reply_to_message_id := None; tm_message_thread_id := None;
  tm_delivery_state := TgSent; tm_reactions := []; tm_is_outgoing := false; tm_is_pinned := false;
  tm_is_deleted := false |}.

Definition demo_ops : list index_op := [
  IndexMessage false zero_nonce (demo_text 7 1 1000 "green tea");
  IndexMessage false zero_nonce (demo_text 7 2 2000 "black tea");
  IndexMessage false zero_nonce (demo_text 8 3 3000 "green hill");
  UnindexMessage 8 3 ].

Definition demo_key : StorageKey := MkStorageKey (replicate 32 (byte_of 1)).

Definition demo_index : gmap TgKey TgMessage := snd (run_index demo_key demo_ops empty_database ∅).

Lemma toy_blind_inj (s t : string) : blind demo_key s = blind demo_key t -> s = t.
Proof.
  intros Heq. apply (app_inv_head SEARCH_NAMESPACE) in Heq. injection Heq as Heq.
  rewrite <- (string_of_bytes_of s), <- (string_of_bytes_of t). by rewrite Heq.
Qed.


(** The witness is not about an empty answer. *)
Example tea_is_found :
  (fmap (M := list) tm_id) <$> search_messages demo_key "tea" (Some 7) 10 (fst (run_index demo_key demo_ops empty_database ∅))
  = Ok [2; 1].
Proof. by vm_compute. Qed.

(** ** Sharing a database *)

Definition first_command : TgCommand := UpsertChat (chat_new 7 ChatPrivate "General").

Definition sharing : list client_op := [
  OpenClient 0; OpenClient 1; ExecuteCore 0 1000 false (fun _ => zero_nonce) first_command; OpenClient 2 ].

Lemma sharing_sound : Forall client_op_sound sharing.
Proof. by repeat constructor. Qed.

Lemma clients_share_one_history_witness :
  let w := desk_run "db" (replicate 32 (byte_of 1)) sharing in
  exists stored s,
    history (the_key (replicate 32 (byte_of 1))) (database_of "db" w) stored s
    /\ (exists files p, open_persistent "db" (replicate 32 (byte_of 1)) (dk_files w) = (files, Ok (s, p)))
    /\ forall core p, dk_clients w !! 2%nat = Some (core, p) ->
       match execute_core_command 2000 false (fun _ => zero_nonce) (demo_request "a" (-1)) core p (dk_files w) with
       | ((core', p', files), Ok events) =>
           core = s /\ tg_decide (demo_request "a" (-1)) s = Ok events /\ core' = apply_all events s
           /\ exists new, se_event <$> new = events
                /\ history (the_key (replicate 32 (byte_of 1))) (default empty_database (files !! "db")) (stored ++ new) core'
       | ((core', p', files), Err _) =>
           core' = core /\ p' = p /\ default empty_database (files !! "db") = database_of "db" w
       end.
Proof.
  refine (clients_share_one_history "db" (replicate 32 (byte_of 1)) sharing 2 2000 false (fun _ => zero_nonce)
            (demo_request "a" (-1)) eq_refl sharing_sound _).
  by split.
Defined.

(** The client that opened before the other's commit is refused, the one that opened after it is not. *)
Example stale_client_is_refused :
  let w := desk_run "db" (replicate 32 (byte_of 1)) sharing in
  let try i := match dk_clients w !! i with
               | Some (core, p) =>
                   Some (snd (execute_core_command 2000 false (fun _ => zero_nonce) first_command core p (dk_files w)))
               | None => None
               end in
  try 1%nat = Some (Err (CoreNotSaved (RevisionConflict 0 1)))
  /\ try 2%nat = Some (Ok [ChatUpserted (chat_new 7 ChatPrivate "General")]).
Proof. by vm_compute. Qed.
