(* ===== verification/Numbers.v ===== *)
(** * Numbers of the key exchange: 64-bit arithmetic and big integers *)

From Stdlib Require Import Znumtheory Zmod.
From Stdlib Require Import Zpow_facts.
From S2P Require Import Prelude Text Maps Bytes.

(** ** Arithmetic of the key exchange ([telegram-protocol/src/handshake.rs])

    The server sends a product [pq] of two primes for the client to factor: the
    primality test and Pollard's rho on 64-bit integers, their loops bounded as
    in the code.  The intermediate products are 128 bits wide in the code, so
    nothing wraps. *)

(** [while b != 0 { (a, b) = (b, a % b) }] *)
Fixpoint gcd_loop (fuel : nat) (a b : Z) : Z :=
  match fuel with
  | O => a
  | S fuel => if b =? 0 then a else gcd_loop fuel b (a mod b)
  end.

(** 130 rounds are enough for 64-bit integers, [gcd_is_gcd] *)
Definition greatest_common_divisor (a b : Z) : Z := gcd_loop 130 a b.

Definition multiply_mod (a b modulus : Z) : Z := a * b mod modulus.

Definition rho_step (value constant modulus : Z) : Z := (multiply_mod value value modulus + constant) mod modulus.

Fixpoint power_loop (fuel : nat) (result base exponent modulus : Z) : Z :=
  match fuel with
  | O => result
  | S fuel =>
      if 0 <? exponent then
        power_loop fuel
          (if Z.land exponent 1 =? 1 then multiply_mod result base modulus else result)
          (multiply_mod base base modulus) (Z.shiftr exponent 1) modulus
      else result
  end.

Definition power_mod (base exponent modulus : Z) : Z := power_loop 64 1 (base mod modulus) exponent modulus.

(** ** The primality test *)

Definition SMALL_PRIMES : list Z := [2; 3; 5; 7; 11; 13; 17; 19; 23; 29; 31; 37].
Definition WITNESS_BASES : list Z := [2; 325; 9375; 28178; 450775; 9780504; 1795265022].

(** The first loop: an answer, or none. *)
Fixpoint small_prime_test (primes : list Z) (value : Z) : option bool :=
  match primes with
  | [] => None
  | prime :: rest =>
      if value =? prime then Some true
      else if value mod prime =? 0 then Some false
      else small_prime_test rest value
  end.

(** [trailing_zeros] of a positive 64-bit integer *)
Fixpoint trailing_zeros (fuel : nat) (z : Z) : nat :=
  match fuel with
  | O => 0
  | S fuel => if Z.land z 1 =? 1 then 0 else S (trailing_zeros fuel (Z.shiftr z 1))
  end.

(** The squarings: whether [value - 1] never shows up. *)
Fixpoint composite_by_squares (rounds : nat) (witness value : Z) : bool :=
  match rounds with
  | O => true
  | S rounds =>
      let witness := multiply_mod witness witness value in
      if witness =? value - 1 then false else composite_by_squares rounds witness value
  end.

(** Whether [base] shows that [value] is composite. *)
Definition shows_composite (odd : Z) (powers_of_two : nat) (value base : Z) : bool :=
  if base mod value =? 0 then false
  else
    let witness := power_mod base odd value in
    if (witness =? 1) || (witness =? value - 1) then false
    else composite_by_squares (powers_of_two - 1) witness value.

Definition is_prime (value : Z) : bool :=
  if value <? 2 then false
  else match small_prime_test SMALL_PRIMES value with
       | Some answer => answer
       | None =>
           let powers_of_two := trailing_zeros 64 (value - 1) in
           let odd := Z.shiftr (value - 1) (Z.of_nat powers_of_two) in
           forallb (fun base => negb (shows_composite odd powers_of_two value base)) WITNESS_BASES
       end.

(** ** Pollard's rho *)

Definition RHO_STEPS : nat := Z.to_nat 1000000.

(** The inner loop: a proper divisor, or none for this constant. *)
Fixpoint rho_loop (steps : nat) (x y constant value : Z) : option Z :=
  match steps with
  | O => None
  | S steps =>
      let x := rho_step x constant value in
      let y := rho_step (rho_step y constant value) constant value in
      let divisor := greatest_common_divisor (Z.abs (x - y)) value in
      if divisor =? 1 then rho_loop steps x y constant value
      else if divisor =? value then None
      else Some divisor
  end.

(** [for constant in constant..=128] *)
Fixpoint rho_constants (count : nat) (constant value : Z) : option Z :=
  match count with
  | O => None
  | S count =>
      match rho_loop RHO_STEPS 2 2 constant value with
      | Some divisor => Some divisor
      | None => rho_constants count (constant + 1) value
      end
  end.

Definition pollard_rho_factor (value : Z) : option Z :=
  if value mod 2 =? 0 then Some 2
  else if value mod 3 =? 0 then Some 3
  else rho_constants 128 1 value.

(** ** The loops compute what they are for *)

Lemma log2_halves (a b : Z) : 0 < b <= a -> 0 < a mod b -> Z.log2 b + Z.log2 (a mod b) < Z.log2 a + Z.log2 b.
Proof.
  intros Hb Hr. pose proof (Z.mod_pos_bound a b). pose proof (Z.div_mod a b). 
  assert (1 <= a / b) by (apply Z.div_le_lower_bound; lia).
  assert (Hle : 2 * (a mod b) <= a) by nia.
  apply Z.log2_le_mono in Hle. rewrite Z.log2_double in Hle; lia.
Qed.

Lemma gcd_loop_gcd (fuel : nat) (a b : Z) :
  0 < b <= a -> Z.log2 a + Z.log2 b < Z.of_nat fuel - 1 -> gcd_loop fuel a b = Z.gcd a b.
Proof.
  revert a b. induction fuel as [|fuel IH]; intros a b Hb Hf.
  { pose proof (Z.log2_nonneg a). pose proof (Z.log2_nonneg b). lia. }
  simpl. rewrite (proj2 (Z.eqb_neq b 0)) by lia.
  pose proof (Z.mod_pos_bound a b ltac:(lia)) as Hm.
  rewrite (Z.gcd_comm a b), <- (Z.gcd_mod a b), (Z.gcd_comm (a mod b)) by lia.
  destruct (decide (a mod b = 0)) as [H0|Hne].
  - rewrite H0, Z.gcd_0_r, Z.abs_eq by lia. by destruct fuel.
  - pose proof (log2_halves a b Hb ltac:(lia)). apply IH; lia.
Qed.

Lemma gcd_loop_step (fuel : nat) (a b : Z) :
  gcd_loop (S fuel) a b = if b =? 0 then a else gcd_loop fuel b (a mod b).
Proof. done. Qed.

Lemma gcd_is_gcd (a b : Z) : 0 <= a < 2 ^ 64 -> 0 <= b < 2 ^ 64 -> greatest_common_divisor a b = Z.gcd a b.
Proof.
  intros Ha Hb. assert (Hlog : forall z, 0 < z < 2 ^ 64 -> Z.log2 z < 64) by (intros; apply Z.log2_lt_pow2; lia).
  unfold greatest_common_divisor. rewrite (gcd_loop_step 129).
  destruct (Z.eqb_spec b 0) as [->|Hne]; [rewrite Z.gcd_0_r; lia|].
  pose proof (Z.mod_pos_bound a b ltac:(lia)) as Hm.
  rewrite (Z.gcd_comm a b), <- (Z.gcd_mod a b), (Z.gcd_comm (a mod b)) by lia.
  destruct (decide (a mod b = 0)) as [->|Hr].
  - by rewrite Z.gcd_0_r, Z.abs_eq by lia.
  - pose proof (Hlog b ltac:(lia)). pose proof (Hlog (a mod b) ltac:(lia)). apply gcd_loop_gcd; lia.
Qed.

Lemma land_one (z : Z) : Z.land z 1 = z mod 2.
Proof. apply (Z.land_ones z 1). lia. Qed.

Lemma power_loop_power (fuel : nat) (result base exponent modulus : Z) :
  1 < modulus -> 0 <= exponent < 2 ^ Z.of_nat fuel -> 0 <= result < modulus ->
  power_loop fuel result base exponent modulus = result * base ^ exponent mod modulus.
Proof.
  intros Hm. revert result base exponent. induction fuel as [|fuel IH]; intros result base exponent He Hr.
  { simpl in He. replace exponent with 0 by lia. simpl. rewrite Z.mul_1_r, Z.mod_small; lia. }
  simpl. destruct (Z.ltb_spec 0 exponent) as [Hpos|Hz].
  2: { replace exponent with 0 by lia. rewrite Z.mul_1_r, Z.mod_small; lia. }
  rewrite Nat2Z.inj_succ, Z.pow_succ_r in He by lia.
  assert (Hodd : exponent = 2 * Z.shiftr exponent 1 + Z.land exponent 1 /\ 0 <= Z.land exponent 1 < 2).
  { rewrite land_one, Z.shiftr_div_pow2 by lia. change (2 ^ 1) with 2. Z.div_mod_to_equations. lia. }
  destruct Hodd as [Hodd Hbit]. rewrite IH.
  - unfold multiply_mod. rewrite <- Z.mul_mod_idemp_r, Z.mod_pow_l, Z.mul_mod_idemp_r by lia.
    rewrite Hodd at 3. rewrite Z.pow_add_r, Z.pow_mul_r by lia.
    rewrite Z.pow_2_r. destruct (Z.eqb_spec (Z.land exponent 1) 1) as [->|Hne].
    + rewrite Z.mul_mod_idemp_l by lia. f_equal. rewrite Z.pow_1_r. ring.
    + replace (Z.land exponent 1) with 0 by lia. f_equal. ring.
  - lia.
  - unfold multiply_mod. destruct (_ =? 1); [apply Z.mod_pos_bound; lia|done].
Qed.

Lemma power_mod_power (base exponent modulus : Z) :
  1 < modulus -> 0 <= exponent < 2 ^ 64 -> power_mod base exponent modulus = base ^ exponent mod modulus.
Proof.
  intros Hm He. unfold power_mod. rewrite power_loop_power by (done || lia). by rewrite Z.mul_1_l, Z.mod_pow_l.
Qed.

(** ** No prime is refused *)

Lemma prime_no_divisor (p n : Z) : Z.prime p -> 1 < n < p -> p mod n <> 0.
Proof.
  intros [_ Hp] Hn Hd. apply (Hp n Hn). by apply Z.mod_divide; [lia|].
Qed.

Lemma small_prime_test_prime (primes : list Z) (p : Z) :
  Z.prime p -> Forall (fun q => 1 < q) primes -> small_prime_test primes p <> Some false.
Proof.
  intros Hp. induction primes as [|q primes IH]; intros Hall; simpl; [done|].
  apply list.Forall_cons in Hall as [Hq Hall]. destruct (Z.eqb_spec p q) as [->|Hne]; [done|].
  destruct (Z.eqb_spec (p mod q) 0) as [H0|_]; [|by apply IH].
  destruct (decide (q < p)); [by apply prime_no_divisor in H0|].
  rewrite Z.mod_small in H0; destruct Hp; lia.
Qed.

(** The square roots of one modulo a prime. *)
Lemma root_of_one (p x : Z) : Z.prime p -> 0 <= x < p -> x * x mod p = 1 -> x = 1 \/ x = p - 1.
Proof.
  intros Hp Hx Hsq. pose proof (proj1 Hp) as Hp1.
  assert (Hdiv : (p | (x - 1) * (x + 1))).
  { apply Z.mod_divide; [lia|]. replace ((x - 1) * (x + 1)) with (x * x - 1) by ring.
    rewrite Zminus_mod, Hsq, (Z.mod_small 1 p), Z.sub_diag, Z.mod_0_l by lia. done. }
  apply prime_alt in Hp. apply prime_mult in Hdiv as [[k Hk]|[k Hk]]; [..|done].
  - left. assert (k = 0) by nia. lia.
  - right. assert (k = 1) by nia. lia.
Qed.

(** From a root that is neither one nor minus one, squaring it to one passes minus one. *)
Lemma squares_meet_minus_one (rounds : nat) (p x : Z) :
  Z.prime p -> 0 <= x < p -> x <> 1 -> x <> p - 1 -> x ^ (2 ^ Z.of_nat (S rounds)) mod p = 1 ->
  composite_by_squares rounds x p = false.
Proof.
  intros Hp. pose proof (proj1 Hp) as Hp1. revert x. induction rounds as [|rounds IH]; intros x Hx H1 Hm Hpow.
  - simpl Z.of_nat in Hpow. rewrite Z.pow_1_r, Z.pow_2_r in Hpow. by apply root_of_one in Hpow as [?|?].
  - simpl. unfold multiply_mod. destruct (Z.eqb_spec (x * x mod p) (p - 1)) as [|Hne]; [done|].
    apply IH; [by apply Z.mod_pos_bound; lia| |done|].
    + intros Hsq. by apply root_of_one in Hsq as [?|?].
    + rewrite Z.mod_pow_l, <- Z.pow_2_r, <- Z.pow_mul_r, <- Z.pow_succ_r by lia.
      by rewrite <- Nat2Z.inj_succ.
Qed.

Lemma trailing_zeros_spec (fuel : nat) (z : Z) :
  0 < z < 2 ^ Z.of_nat fuel ->
  let k := Z.of_nat (trailing_zeros fuel z) in z = 2 ^ k * Z.shiftr z k /\ (z mod 2 = 0 -> 1 <= k) /\ 0 < Z.shiftr z k.
Proof.
  revert z. induction fuel as [|fuel IH]; intros z Hz; [simpl in Hz; lia|].
  simpl trailing_zeros. rewrite land_one. destruct (Z.eqb_spec (z mod 2) 1) as [H1|H1].
  - simpl. rewrite Z.shiftr_0_r. lia.
  - assert (Hhalf : z = 2 * Z.shiftr z 1).
    { rewrite Z.shiftr_div_pow2 by lia. change (2 ^ 1) with 2. Z.div_mod_to_equations. lia. }
    rewrite Nat2Z.inj_succ, Z.pow_succ_r in Hz by lia.
    destruct (IH (Z.shiftr z 1)) as (Heq & _ & Hpos); [lia|].
    rewrite Z.shiftr_shiftr, Z.add_1_l in Heq, Hpos by lia. simpl. rewrite Nat2Z.inj_succ.
    split_and!; [|lia|done]. rewrite Z.pow_succ_r by lia. rewrite Hhalf at 1. rewrite Heq at 1. ring.
Qed.

Lemma prime_not_shown_composite (p base : Z) :
  Z.prime p -> p < 2 ^ 64 -> p mod 2 = 1 -> 0 <= base ->
  let k := trailing_zeros 64 (p - 1) in shows_composite (Z.shiftr (p - 1) (Z.of_nat k)) k p base = false.
Proof.
  intros Hp Hmax Hodd Hbase k. pose proof (proj1 Hp) as Hp1.
  assert (Hspec := trailing_zeros_spec 64 (p - 1)). fold k in Hspec. cbv zeta in Hspec.
  destruct Hspec as (Heq & Hk & Hpos); [change (Z.of_nat 64) with 64; lia|].
  specialize (Hk ltac:(Z.div_mod_to_equations; lia)).
  set (odd := Z.shiftr (p - 1) (Z.of_nat k)) in *. unfold shows_composite.
  destruct (Z.eqb_spec (base mod p) 0) as [|Hnz]; [done|].
  assert (Hle : odd <= p - 1) by nia.
  rewrite power_mod_power by lia.
  destruct (Z.eqb_spec (base ^ odd mod p) 1) as [|H1]; [done|].
  destruct (Z.eqb_spec (base ^ odd mod p) (p - 1)) as [|Hm]; [done|]. simpl.
  apply squares_meet_minus_one; try done; [apply Z.mod_pos_bound; lia|].
  rewrite Z.mod_pow_l, <- Z.pow_mul_r by lia. replace (S (k - 1)) with k by lia.
  rewrite Z.mul_comm, <- Heq. by apply Z.fermat_nz.
Qed.

(** The test accepts every prime below [2^64]. *)
Lemma is_prime_complete (p : Z) : Z.prime p -> p < 2 ^ 64 -> is_prime p = true.
Proof.
  intros Hp Hmax. pose proof (proj1 Hp) as Hp1. unfold is_prime.
  destruct (Z.ltb_spec p 2) as [|_]; [lia|].
  pose proof (small_prime_test_prime SMALL_PRIMES p Hp) as Hsmall.
  destruct (small_prime_test SMALL_PRIMES p) as [[|]|] eqn:Hs; [done| |].
  - exfalso. apply Hsmall; [|done]. repeat constructor; lia.
  - assert (Hodd : p mod 2 = 1).
    { assert (Hne : p mod 2 <> 0).
      { simpl in Hs. destruct (p =? 2); [done|]. by destruct (Z.eqb_spec (p mod 2) 0). }
      pose proof (Z.mod_pos_bound p 2). lia. }
    apply forallb_forall. intros base Hin. apply negb_true_iff. apply prime_not_shown_composite; try done.
    assert (Hall : Forall (fun b => 0 <= b) WITNESS_BASES) by (repeat constructor; lia).
    rewrite list.Forall_forall in Hall. apply Hall. by apply list_elem_of_In.
Qed.

(** ** What rho finds divides *)

Lemma rho_step_range (v c n : Z) : 0 < n -> 0 <= rho_step v c n < n.
Proof. intros. by apply Z.mod_pos_bound. Qed.

Lemma rho_loop_divides (steps : nat) (x y c n d : Z) :
  0 < n < 2 ^ 64 -> rho_loop steps x y c n = Some d -> (d | n) /\ 1 < d < n.
Proof.
  intros Hn. revert x y. induction steps as [|steps IH]; intros x y; simpl; [done|].
  pose proof (rho_step_range x c n ltac:(lia)) as Hx.
  pose proof (rho_step_range (rho_step y c n) c n ltac:(lia)) as Hy.
  rewrite gcd_is_gcd by lia. set (g := Z.gcd _ _).
  assert (Hg : (g | n)) by apply Z.gcd_divide_r.
  assert (0 < g) by (pose proof (Z.gcd_nonneg (Z.abs (rho_step x c n - rho_step (rho_step y c n) c n)) n) as Hg0;
    fold g in Hg0; destruct (decide (g = 0)) as [E|]; [apply Z.gcd_eq_0_r in E|]; lia).
  pose proof (Z.divide_pos_le g n ltac:(lia) Hg).
  destruct (Z.eqb_spec g 1); [apply IH|]. destruct (Z.eqb_spec g n); [done|]. intros [= <-]. split; [done|lia].
Qed.

Lemma rho_constants_step (count : nat) (c n : Z) :
  rho_constants (S count) c n
  = match rho_loop RHO_STEPS 2 2 c n with Some d => Some d | None => rho_constants count (c + 1) n end.
Proof. reflexivity. Qed.

Lemma rho_constants_divides (count : nat) (c n d : Z) :
  0 < n < 2 ^ 64 -> rho_constants count c n = Some d -> (d | n) /\ 1 < d < n.
Proof.
  intros Hn. revert c. induction count as [|count IH]; intros c; [done|]. rewrite rho_constants_step.
  destruct (rho_loop _ _ _ _ _) as [d'|] eqn:Hr; [|apply IH]. intros [= <-]. by eapply rho_loop_divides.
Qed.

Lemma pollard_divides (n d : Z) :
  3 < n < 2 ^ 64 -> pollard_rho_factor n = Some d -> (d | n) /\ 1 < d < n.
Proof.
  intros Hn. unfold pollard_rho_factor.
  destruct (Z.eqb_spec (n mod 2) 0); [intros [= <-]; split; [by apply Z.mod_divide|lia]|].
  destruct (Z.eqb_spec (n mod 3) 0); [intros [= <-]; split; [by apply Z.mod_divide|lia]|].
  apply rho_constants_divides. lia.
Qed.

(** The proper divisors of a product of two primes. *)
Lemma semiprime_divisor (p q d : Z) :
  Z.prime p -> Z.prime q -> (d | p * q) -> 1 < d < p * q -> d = p \/ d = q.
Proof.
  intros Hp Hq [k Hk] Hd. pose proof (proj1 Hp). pose proof (proj1 Hq).
  assert (Hkpos : 0 < k) by nia.
  assert (Hpd : (p | d * k)) by (exists q; lia). apply prime_alt in Hp as Hp'. apply prime_alt in Hq as Hq'.
  apply prime_mult in Hpd as [[j Hj]|[j Hj]]; [| |done].
  - assert (Hq1 : q = j * k) by nia. assert (Hjq : (j | q)) by (exists k; lia).
    destruct (decide (j = 1)) as [->|]; [left; lia|]. right.
    destruct (decide (j = q)) as [->|]; [exfalso; nia|]. exfalso.
    assert (0 < j) by nia. pose proof (Z.divide_pos_le j q ltac:(lia) Hjq). apply (proj2 Hq j); [lia|done].
  - assert (Hq1 : q = d * j) by nia. assert (Hdq : (d | q)) by (exists j; lia).
    right. destruct (decide (d = q)); [done|]. exfalso.
    pose proof (Z.divide_pos_le d q ltac:(lia) Hdq). apply (proj2 Hq d); [lia|done].
Qed.

(** ** Big unsigned integers (what [telegram-protocol] uses of [num_bigint_dig::BigUint])

    A [BigUint] is a non-negative [Z]. *)

(** [BigUint::bits] *)
Definition big_bits (z : Z) : Z := if z =? 0 then 0 else Z.log2 z + 1.

(** [BigUint::to_bytes_be]: without leading zeros, one byte for zero. *)
Definition to_bytes_be (z : Z) : list ascii := rev (le_bytes (Z.to_nat (Z.log2 z / 8 + 1)) z).

(** [BigUint::modpow] *)
Definition modpow (base exponent modulus : Z) : Z := Zpow_mod base exponent modulus.

Lemma modpow_power (base exponent modulus : Z) :
  modulus <> 0 -> modpow base exponent modulus = base ^ exponent mod modulus.
Proof. apply Zpow_mod_correct. Qed.

(** ** Bytes, the most significant first *)

Lemma of_le_bytes_app (l k : list ascii) :
  of_le_bytes (l ++ k) = of_le_bytes l + 256 ^ Z.of_nat (length l) * of_le_bytes k.
Proof.
  induction l as [|a l IH]; [simpl; lia|].
  simpl of_le_bytes. simpl length. rewrite IH, Nat2Z.inj_succ, Z.pow_succ_r by lia. ring.
Qed.

Lemma be_value_rev (l : list ascii) : be_value l = of_le_bytes (rev l).
Proof.
  unfold be_value. induction l as [|a l IH] using rev_ind; [done|].
  rewrite foldl_app, rev_app_distr, IH. simpl. ring.
Qed.

Lemma be_value_range (l : list ascii) : 0 <= be_value l < 256 ^ Z.of_nat (length l).
Proof. rewrite be_value_rev, <- (length_rev l). apply of_le_bytes_range. Qed.

Lemma be_value_app (l k : list ascii) :
  be_value (l ++ k) = be_value l * 256 ^ Z.of_nat (length k) + be_value k.
Proof. rewrite !be_value_rev, rev_app_distr, of_le_bytes_app, length_rev. ring. Qed.

Lemma be_value_zeros (n : nat) (l : list ascii) : be_value (replicate n (byte_of 0) ++ l) = be_value l.
Proof.
  rewrite be_value_app. replace (be_value (replicate n (byte_of 0))) with 0; [lia|].
  unfold be_value. induction n as [|n IH]; [done|]. done.
Qed.

Lemma be_value_inj (l k : list ascii) : length l = length k -> be_value l = be_value k -> l = k.
Proof.
  rewrite !be_value_rev. intros Hlen Hv. rewrite <- (rev_involutive l), <- (rev_involutive k). f_equal.
  rewrite <- (le_bytes_of (rev l)), <- (le_bytes_of (rev k)), Hv, !length_rev. by rewrite Hlen.
Qed.

Lemma log2_bytes (z : Z) : 0 <= z -> z < 256 ^ (Z.log2 z / 8 + 1).
Proof.
  intros Hz. destruct (decide (z = 0)) as [->|]; [done|].
  pose proof (Z.log2_spec z ltac:(lia)) as Hlog. pose proof (Z.log2_nonneg z).
  replace (256 ^ (Z.log2 z / 8 + 1)) with (2 ^ (8 * (Z.log2 z / 8 + 1))) by (rewrite Z.pow_mul_r by (Z.div_mod_to_equations; lia); done).
  eapply Z.lt_le_trans; [apply Hlog|]. apply Z.pow_le_mono_r; [lia|]. Z.div_mod_to_equations. lia.
Qed.

Lemma be_value_to_bytes (z : Z) : 0 <= z -> be_value (to_bytes_be z) = z.
Proof.
  intros Hz. unfold to_bytes_be. rewrite be_value_rev, rev_involutive. apply of_le_bytes_unsigned.
  pose proof (Z.log2_nonneg z). rewrite Z2Nat.id by (Z.div_mod_to_equations; lia). split; [done|]. by apply log2_bytes.
Qed.

Lemma to_bytes_length (z : Z) (n : nat) :
  0 <= z < 256 ^ Z.of_nat n -> (0 < n)%nat -> (length (to_bytes_be z) <= n)%nat.
Proof.
  intros Hz Hn. unfold to_bytes_be. rewrite length_rev, le_bytes_length.
  destruct (decide (z = 0)) as [->|]; [change (Z.to_nat (Z.log2 0 / 8 + 1)) with 1%nat; lia|].
  assert (Hlog : Z.log2 z < 8 * Z.of_nat n).
  { apply Z.log2_lt_pow2; [lia|]. rewrite Z.pow_mul_r by lia. exact (proj2 Hz). }
  pose proof (Z.log2_nonneg z). assert (Z.log2 z / 8 < Z.of_nat n) by (apply Z.div_lt_upper_bound; lia). lia.
Qed.

Lemma to_bytes_nonempty (z : Z) : to_bytes_be z <> [].
Proof.
  pose proof (le_bytes_length (Z.to_nat (Z.log2 z / 8 + 1)) z) as Hl. intros He. unfold to_bytes_be in He.
  apply (f_equal length) in He. rewrite length_rev, Hl in He. change (length []) with 0%nat in He. pose proof (Z.log2_nonneg z).
  assert (0 <= Z.log2 z / 8) by (apply Z.div_pos; lia). lia.
Qed.

(** ** Numbers of 2048 bits *)

(** The bound is kept folded: arithmetic is decided without computing it. *)
Definition bound_2048 : Z := 2 ^ 2048.

Lemma bound_2048_bytes : 256 ^ Z.of_nat 256 = bound_2048.
Proof. reflexivity. Qed.

(** Right-aligned in 256 bytes. *)
Definition fixed_256 (z : Z) : list ascii := (replicate (256 - length (to_bytes_be z)) (byte_of 0) ++ to_bytes_be z)%list.

Lemma to_bytes_256 (z : Z) : 0 <= z < bound_2048 -> (length (to_bytes_be z) <= 256)%nat.
Proof. intros Hz. rewrite <- bound_2048_bytes in Hz. apply (to_bytes_length z 256 Hz). apply Nat.lt_0_succ. Qed.

Lemma fixed_256_length (z : Z) : 0 <= z < bound_2048 -> length (fixed_256 z) = 256%nat.
Proof.
  intros Hz%to_bytes_256. unfold fixed_256. rewrite length_app, length_replicate. revert Hz.
  generalize (length (to_bytes_be z)). lia.
Qed.

Lemma fixed_256_value (z : Z) : 0 <= z -> be_value (fixed_256 z) = z.
Proof. intros Hz. unfold fixed_256. by rewrite be_value_zeros, be_value_to_bytes. Qed.

Lemma be_value_bound (l : list ascii) : length l = 256%nat -> 0 <= be_value l < bound_2048.
Proof. intros Hl. rewrite <- bound_2048_bytes, <- Hl. apply be_value_range. Qed.

Lemma fixed_256_of_value (l : list ascii) : length l = 256%nat -> fixed_256 (be_value l) = l.
Proof.
  intros Hl. pose proof (be_value_bound l Hl) as Hr.
  apply be_value_inj; [by rewrite fixed_256_length|]. apply fixed_256_value, Hr.
Qed.

Lemma modpow_bound (b e n : Z) : 0 < n <= bound_2048 -> 0 <= modpow b e n < bound_2048.
Proof.
  intros Hn. rewrite modpow_power by lia. pose proof (Z.mod_pos_bound (b ^ e) n). lia.
Qed.

Lemma big_bits_range (z bits : Z) : 0 <= z -> 0 < bits -> big_bits z = bits -> 2 ^ (bits - 1) <= z < 2 ^ bits.
Proof.
  unfold big_bits. intros Hz Hb. destruct (Z.eqb_spec z 0) as [|Hne]; [lia|]. intros <-.
  pose proof (Z.log2_spec z ltac:(lia)) as Hl. rewrite Z.add_simpl_r. exact Hl.
Qed.

Lemma big_bits_2048 (z : Z) : 0 <= z -> big_bits z = 2048 -> 0 < z < bound_2048.
Proof.
  intros Hz Hbits. destruct (big_bits_range z 2048 Hz eq_refl Hbits) as [Hlo Hhi]. split; [|exact Hhi].
  eapply Z.lt_le_trans; [|exact Hlo]. by apply Z.pow_pos_nonneg.
Qed.

Lemma big_bits_of_range (z : Z) : 2 ^ 2047 <= z < 2 ^ 2048 -> big_bits z = 2048.
Proof.
  intros Hz. unfold big_bits. rewrite (Z.log2_unique z 2047); [|done|exact Hz].
  destruct (Z.eqb_spec z 0) as [->|]; [|done]. by destruct Hz as [Hz _].
Qed.
