(* ===== verification/Handshake.v ===== *)
(** * The key exchange ([telegram-protocol/src/handshake.rs])

    The client's side of MTProto's authorization key exchange: the unencrypted
    envelopes, the messages, RSA padding, the checks of the server's
    Diffie-Hellman parameters, and the state machine that drives them.  Hashes and
    the block cipher are the fields of [MtCipher], big integers those of
    [BigInt]; the operating system's random bytes are drawn from an [Rng]. *)

From S2P Require Import Prelude Text Maps Bytes Crypto Tl Api Numbers.

Definition REQ_PQ_MULTI_CONSTRUCTOR : Z := 0xbe7e8ef1.
Definition RES_PQ_CONSTRUCTOR : Z := 0x05162463.
Definition P_Q_INNER_DATA_DC_CONSTRUCTOR : Z := 0xa9f55f95.
Definition REQ_DH_PARAMS_CONSTRUCTOR : Z := 0xd712e4be.
Definition SERVER_DH_PARAMS_OK_CONSTRUCTOR : Z := 0xd0e8075c.
Definition SERVER_DH_PARAMS_FAIL_CONSTRUCTOR : Z := 0x79cb045d.
Definition SERVER_DH_INNER_DATA_CONSTRUCTOR : Z := 0xb5890dba.
Definition CLIENT_DH_INNER_DATA_CONSTRUCTOR : Z := 0x6643b654.
Definition SET_CLIENT_DH_PARAMS_CONSTRUCTOR : Z := 0xf5045f1f.
Definition DH_GEN_OK_CONSTRUCTOR : Z := 0x3bcbf734.
Definition DH_GEN_RETRY_CONSTRUCTOR : Z := 0x46dc1fb9.
Definition DH_GEN_FAIL_CONSTRUCTOR : Z := 0xa69dae02.
Definition KNOWN_DH_PRIME : Z := 0xC71CAEB9C6B1C9048E6C522F70F13F73980D40238E3E21C14934D037563D930F48198A0AA7C14058229493D22530F4DBFA336F6E0AC925139543AED44CCE7C3720FD51F69458705AC68CD4FE6B6B13ABDC9746512969328454F18FAF8C595F642477FE96BB2A941D5BCD1D4AC8CC49880708FA9B378E3C4F3A9060BEE67CF9A4A4A695811051907E162753B56B0F6B410DBA74D8A84B2A14B3144E0EF1284754FD17ED950D5965B4B9DD46582DB1178D169C6BC465B0D6FF9CA3928FEF5B9AE4E418FC15E83EBEA0F87FA9FF5EED70050DED2849F47BF959D956850CE929851F0D8115F635B105EE2E4E15D04B2454BF6F4FADF034B10403119CD8E3B92FCC5B.
Definition TELEGRAM_MAIN_RSA_MODULUS : Z := 0xE8BB3305C0B52C6CF2AFDF7637313489E63E05268E5BADB601AF417786472E5F93B85438968E20E6729A301C0AFC121BF7151F834436F7FDA680847A66BF64ACCEC78EE21C0B316F0EDAFE2F41908DA7BD1F4A5107638EEB67040ACE472A14F90D9F7C2B7DEF99688BA3073ADB5750BB02964902A359FE745D8170E36876D4FD8A5D41B2A76CBFF9A13267EB9580B2D06D10357448D20D9DA2191CB5D8C93982961CDFDEDA629E37F1FB09A0722027696032FE61ED663DB7A37F6F263D370F69DB53A0DC0A1748BDAAFF6209D5645485E6E001D1953255757E4B8E42813347B11DA6AB500FD0ACE7E6DFA3736199CCAF9397ED0745A427DCFA6CD67BCB1ACFF3.
Definition TELEGRAM_TEST_RSA_MODULUS : Z := 0xC8C11D635691FAC091DD9489AEDCED2932AA8A0BCEFEF05FA800892D9B52ED03200865C9E97211CB2EE6C7AE96D3FB0E15AEFFD66019B44A08A240CFDD2868A85E1F54D6FA5DEAA041F6941DDF302690D61DC476385C2FA655142353CB4E4B59F6E5B6584DB76FE8B1370263246C010C93D011014113EBDF987D093F9D37C2BE48352D69A1683F8F6E6C2167983C761E3AB169FDE5DAAA12123FA1BEAB621E4DA5935E9C198F82F35EAE583A99386D8110EA6BD1ABB0F568759F62694419EA5F69847C43462ABEF858B4CB5EDC84E7B9226CD7BD7E183AA974A712C079DDE85B9DC063B8A5C08E8F859C0EE5DCD824C7807F20153361A7F63CFD2A433A1BE7F5.
Definition DEFAULT_MAX_PLAINTEXT_BODY : Z := 16 * 1024 * 1024.

(** [hex::decode] of the constants: the bytes of the number, which begins with a
    digit that is not zero. *)
Definition known_dh_prime_bytes : list ascii := to_bytes_be KNOWN_DH_PRIME.

(** The errors carry the prefix [Hs]. *)
Inductive HandshakeError :=
| HsTruncatedEnvelope (length : Z)
| HsUnexpectedAuthKeyId (id : Z)
| HsInvalidBodyLength (length : Z)
| HsBodyTooLarge (length maximum : Z)
| HsEnvelopeLengthMismatch (declared actual : Z)
| HsInvalidState (expected : string)
| HsMissingHandshakeData
| HsUnexpectedConstructor (constructor : Z)
| HsNonceMismatch
| HsServerNonceMismatch
| HsEmptyPq
| HsMissingServerKeyFingerprint
| HsInvalidPqEncoding (length : Z)
| HsPqFactorizationFailed (pq : Z)
| HsPqNotSemiprime (pq : Z)
| HsPqFactorsDoNotMatch
| HsNoTrustedServerKey
| HsEmptyEncryptedInnerData
| HsInvalidRsaModulusLength (length : Z)
| HsInvalidRsaExponent
| HsInvalidRsaKey
| HsRsaPadDataTooLong (length : Z)
| HsRandomnessUnavailable
| HsRsaPadRetryLimit
| HsInvalidRsaResult
| HsUnexpectedServerDhConstructor (constructor : Z)
| HsUnexpectedServerDhInnerConstructor (constructor : Z)
| HsInvalidServerDhCiphertext
| HsInvalidServerDhAnswer
| HsInvalidServerDhPadding (length : Z)
| HsServerDhHashMismatch
| HsServerDhRejected
| HsInvalidServerDhParameters
| HsUntrustedDhPrime
| HsInvalidDhGenerator
| HsInvalidDhPublicValue
| HsUnexpectedDhGenConstructor (constructor : Z)
| HsDhGenHashMismatch
| HsDhGenRejected
| HsTrailingBodyBytes (count : Z)
| HsTl (e : TlError)
| HsCrypto (e : CryptoError).

(** ** Random bytes

    [draw i n] is what the [i]-th request for [n] bytes obtains, if anything. *)

Record Rng := { draw : nat -> nat -> option (list ascii); drawn : nat }.

Definition Rand (A : Type) : Type := Rng -> Rng * result HandshakeError A.
#[export] Instance rand_ret : MRet Rand := fun A a g => (g, Ok a).
#[export] Instance rand_bind : MBind Rand := fun A B f m g =>
  match m g with
  | (g, Ok a) => f a g
  | (g, Err e) => (g, Err e)
  end.

(** [fill_random(&mut [0; n])] *)
Definition fill_random (n : nat) : Rand (list ascii) := fun g =>
  ({| draw := draw g; drawn := S (drawn g) |}, ok_or (draw g (drawn g) n) HsRandomnessUnavailable).

Definition rand_of {A : Type} (r : result HandshakeError A) : Rand A := fun g => (g, r).

(** ** Envelopes *)

Record PlaintextEnvelope := { pe_message_id : Z; pe_body : list ascii }.

Definition encode_plaintext (e : PlaintextEnvelope) : result HandshakeError (list ascii) :=
  let length := size_of (pe_body e) in
  reject_if (DEFAULT_MAX_PLAINTEXT_BODY <? length) (HsBodyTooLarge length DEFAULT_MAX_PLAINTEXT_BODY) ;;
  reject_if (2 ^ 31 - 1 <? length) (HsInvalidBodyLength i64_max) ;;
  Ok (le_bytes 8 0 ++ le_bytes 8 (pe_message_id e) ++ le_bytes 4 length ++ pe_body e)%list.

Definition decode_plaintext_with_limit (input : list ascii) (maximum : Z) : result HandshakeError PlaintextEnvelope :=
  reject_if (size_of input <? 20) (HsTruncatedEnvelope (size_of input)) ;;
  let auth_key_id := to_signed 64 (of_le_bytes (sub input 0 8)) in
  reject_if (negb (auth_key_id =? 0)) (HsUnexpectedAuthKeyId auth_key_id) ;;
  let message_id := to_signed 64 (of_le_bytes (sub input 8 16)) in
  let raw_length := to_signed 32 (of_le_bytes (sub input 16 20)) in
  reject_if (raw_length <? 0) (HsInvalidBodyLength raw_length) ;;
  reject_if (maximum <? raw_length) (HsBodyTooLarge raw_length maximum) ;;
  expected ← ok_or (checked in_u64 (20 + raw_length)) (HsInvalidBodyLength raw_length);
  reject_if (negb (size_of input =? expected)) (HsEnvelopeLengthMismatch raw_length (Z.max 0 (size_of input - 20))) ;;
  Ok {| pe_message_id := message_id; pe_body := drop 20 input |}.

Definition decode_plaintext (input : list ascii) : result HandshakeError PlaintextEnvelope :=
  decode_plaintext_with_limit input DEFAULT_MAX_PLAINTEXT_BODY.

(** ** Data *)

Record ResPq := {
  rp_nonce : list ascii;
  rp_server_nonce : list ascii;
  rp_pq : list ascii;
  rp_server_public_key_fingerprints : list Z;
}.

Record FactoredPq := { fp_pq : Z; fp_p : Z; fp_q : Z }.

Record RsaPublicKey := { rsa_modulus : list ascii; rsa_exponent : list ascii }.

Inductive ServerDhParams :=
| ServerDhOk (encrypted_answer : list ascii)
| ServerDhFail (new_nonce_hash : list ascii).

Record ServerDhInnerData := {
  sd_nonce : list ascii;
  sd_server_nonce : list ascii;
  sd_generator : Z;
  sd_dh_prime : list ascii;
  sd_g_a : list ascii;
  sd_server_time : Z;
}.

Record PreparedClientDh := {
  pc_request_body : list ascii;
  pc_auth_key : AuthKey;
  pc_auth_key_aux_hash : Z;
  pc_server_salt : Z;
}.

Record EstablishedAuthKey := {
  ek_auth_key : AuthKey;
  ek_server_salt : Z;
  ek_server_time : Z;
}.

Inductive DhGenAction :=
| Established (key : EstablishedAuthKey)
| RetryDh (request : PlaintextEnvelope).

Inductive DhGenResult := DhGenOk | DhGenRetry | DhGenFail.

Inductive AuthKeyHandshakeState :=
| HsReady
| AwaitingResPq
| ResPqReceived (response : ResPq)
| AwaitingServerDh
| AwaitingDhGen
| HsComplete.

Record AuthKeyHandshake := {
  hs_nonce : list ascii;
  hs_state : AuthKeyHandshakeState;
  hs_server_nonce : option (list ascii);
  hs_new_nonce : option (list ascii);
  hs_server_dh : option ServerDhInnerData;
  hs_prepared_client_dh : option PreparedClientDh;
}.
#[export] Instance eta_AuthKeyHandshake : Eta AuthKeyHandshake := fun h =>
  Build_AuthKeyHandshake (hs_nonce h) (hs_state h) (hs_server_nonce h) (hs_new_nonce h) (hs_server_dh h)
    (hs_prepared_client_dh h).

(** [AuthKeyHandshake::new] *)
Definition handshake_new (nonce : list ascii) : AuthKeyHandshake := {|
  hs_nonce := nonce; hs_state := HsReady; hs_server_nonce := None; hs_new_nonce := None; hs_server_dh := None;
  hs_prepared_client_dh := None |}.

(** ** Parsing *)

Notation HsParser := (TlParser HandshakeError).
Notation hs m := (lift_tl HsTl m).

Definition hs_run {A : Type} (m : HsParser A) (r : TlReader) : result HandshakeError A := snd (m r).

Definition hs_finished : HsParser unit :=
  with_reader (fun r => refuse_if (negb (is_finished r)) (HsTrailingBodyBytes (remaining r))).

Definition hs_result {A : Type} (a : result HandshakeError A) : HsParser A := fun r => (r, a).

Fixpoint hs_times {A : Type} (count : nat) (m : HsParser A) : HsParser (list A) :=
  match count with
  | O => mret []
  | S count => a ← m; l ← hs_times count m; mret (a :: l)
  end.

Definition parse_res_pq_body : HsParser ResPq :=
  constructor ← hs read_u32;
  refuse_if (negb (constructor =? RES_PQ_CONSTRUCTOR)) (HsUnexpectedConstructor constructor) ;;
  nonce ← hs read_i128_bytes;
  server_nonce ← hs read_i128_bytes;
  pq ← hs read_bytes;
  fingerprint_count ← hs read_vector_length;
  fingerprints ← hs_times (Z.to_nat fingerprint_count) (hs read_u64);
  hs_finished ;;
  mret {| rp_nonce := nonce; rp_server_nonce := server_nonce; rp_pq := pq;
          rp_server_public_key_fingerprints := fingerprints |}.

Definition parse_res_pq (input : list ascii) : result HandshakeError ResPq :=
  hs_run parse_res_pq_body (reader_with_limits input 1024 64).

Definition validate_nonce_pair (nonce server_nonce expected_nonce expected_server_nonce : list ascii) :
    result HandshakeError unit :=
  reject_if (negb (eqb nonce expected_nonce)) HsNonceMismatch ;;
  reject_if (negb (eqb server_nonce expected_server_nonce)) HsServerNonceMismatch ;;
  Ok tt.

Definition check_nonces (expected_nonce expected_server_nonce : list ascii) : HsParser unit :=
  nonce ← hs read_i128_bytes;
  server_nonce ← hs read_i128_bytes;
  hs_result (validate_nonce_pair nonce server_nonce expected_nonce expected_server_nonce).

Definition parse_server_dh_params_body (expected_nonce expected_server_nonce : list ascii) : HsParser ServerDhParams :=
  constructor ← hs read_u32;
  check_nonces expected_nonce expected_server_nonce ;;
  response ← (if constructor =? SERVER_DH_PARAMS_OK_CONSTRUCTOR then
                answer ← hs read_bytes; mret (ServerDhOk answer)
              else if constructor =? SERVER_DH_PARAMS_FAIL_CONSTRUCTOR then
                hash ← hs read_i128_bytes; mret (ServerDhFail hash)
              else reader_fail (HsUnexpectedServerDhConstructor constructor));
  hs_finished ;;
  mret response.

Definition parse_server_dh_params (input expected_nonce expected_server_nonce : list ascii) :
    result HandshakeError ServerDhParams :=
  hs_run (parse_server_dh_params_body expected_nonce expected_server_nonce)
    (reader_with_limits input DEFAULT_MAX_PLAINTEXT_BODY 64).

(** ** Factoring [pq] *)

Definition decode_unsigned_be (bytes : list ascii) : result HandshakeError Z :=
  reject_if ((size_of bytes =? 0) || (8 <? size_of bytes)) (HsInvalidPqEncoding (size_of bytes)) ;;
  Ok (be_value bytes).

(** [value.to_be_bytes()] from the first byte that is not zero, or the last one *)
Fixpoint strip_zeros (bytes : list ascii) : list ascii :=
  match bytes with
  | a :: (_ :: _) as rest => if byte_at a =? 0 then strip_zeros rest else bytes
  | _ => bytes
  end.

Definition unsigned_be_bytes (value : Z) : list ascii := strip_zeros (rev (le_bytes 8 value)).

Definition p_bytes (f : FactoredPq) : list ascii := unsigned_be_bytes (fp_p f).
Definition q_bytes (f : FactoredPq) : list ascii := unsigned_be_bytes (fp_q f).


Definition factor_res_pq (response : ResPq) : result HandshakeError FactoredPq :=
  pq ← decode_unsigned_be (rp_pq response);
  reject_if ((pq <? 4) || is_prime pq) (HsPqNotSemiprime pq) ;;
  factor ← ok_or (pollard_rho_factor pq) (HsPqFactorizationFailed pq);
  let other := pq / factor in
  reject_if ((factor =? 1) || (other =? 1) || negb (saturating_mul_u64 factor other =? pq))
    (HsPqFactorizationFailed pq) ;;
  reject_if (negb (is_prime factor) || negb (is_prime other)) (HsPqNotSemiprime pq) ;;
  Ok (if factor <? other then {| fp_pq := pq; fp_p := factor; fp_q := other |}
      else {| fp_pq := pq; fp_p := other; fp_q := factor |}).

Definition select_server_key_fingerprint (response : ResPq) (trusted_fingerprints : list Z) :
    result HandshakeError Z :=
  ok_or (head (filter (fun f => f ∈ trusted_fingerprints) (rp_server_public_key_fingerprints response)))
    HsNoTrustedServerKey.

(** ** Building *)

(** [writer.into_bytes()], or the first error *)
Definition hs_written (r : TlWriter * result TlError unit) : result HandshakeError (list ascii) :=
  match r with
  | (w, Ok _) => Ok (w_bytes w)
  | (_, Err e) => Err (HsTl e)
  end.

Definition contains_fingerprint (response : ResPq) (fingerprint : Z) : bool :=
  bool_decide (fingerprint ∈ rp_server_public_key_fingerprints response).

Definition build_p_q_inner_data_dc (response : ResPq) (factors : FactoredPq) (new_nonce : list ascii) (dc_id : Z) :
    result HandshakeError (list ascii) :=
  pq ← decode_unsigned_be (rp_pq response);
  reject_if (negb (pq =? fp_pq factors) || negb (saturating_mul_u64 (fp_p factors) (fp_q factors) =? fp_pq factors))
    HsPqFactorsDoNotMatch ;;
  hs_written (write_seq [
    sure (write_u32 P_Q_INNER_DATA_DC_CONSTRUCTOR); write_bytes (rp_pq response); write_bytes (p_bytes factors);
    write_bytes (q_bytes factors); sure (write_i128_bytes (rp_nonce response));
    sure (write_i128_bytes (rp_server_nonce response)); sure (write_i256_bytes new_nonce); sure (write_i32 dc_id)]).

Definition build_req_dh_params (response : ResPq) (factors : FactoredPq) (public_key_fingerprint : Z)
    (encrypted_inner_data : list ascii) : result HandshakeError (list ascii) :=
  reject_if (negb (contains_fingerprint response public_key_fingerprint)) HsNoTrustedServerKey ;;
  reject_if (size_of encrypted_inner_data =? 0) HsEmptyEncryptedInnerData ;;
  hs_written (write_seq [
    sure (write_u32 REQ_DH_PARAMS_CONSTRUCTOR); sure (write_i128_bytes (rp_nonce response));
    sure (write_i128_bytes (rp_server_nonce response)); write_bytes (p_bytes factors); write_bytes (q_bytes factors);
    sure (write_u64 public_key_fingerprint); write_bytes encrypted_inner_data]).

Section crypto.
Context `{MC : MtCipher}.

(** ** The RSA key *)

Definition rsa_from_components (modulus exponent : list ascii) : result HandshakeError RsaPublicKey :=
  reject_if (negb (size_of modulus =? 256)) (HsInvalidRsaModulusLength (size_of modulus)) ;;
  reject_if (forallb (fun b => byte_at b =? 0) exponent) HsInvalidRsaExponent ;;
  Ok {| rsa_modulus := modulus; rsa_exponent := exponent |}.

Definition rsa_fingerprint (key : RsaPublicKey) : result HandshakeError Z :=
  bytes ← hs_written (write_seq [write_bytes (rsa_modulus key); write_bytes (rsa_exponent key)]);
  Ok (of_le_bytes (sub (mt_sha1 bytes) 12 20)).

Definition telegram_server_rsa_key (test_environment : bool) : result HandshakeError RsaPublicKey :=
  rsa_from_components
    (to_bytes_be (if test_environment then TELEGRAM_TEST_RSA_MODULUS else TELEGRAM_MAIN_RSA_MODULUS))
    [byte_of 0x01; byte_of 0x00; byte_of 0x01].

(** ** RSA padding *)

Definition big_is_odd (z : Z) : bool := Z.land z 1 =? 1.

(** The data and its padding, reversed and hashed, encrypted under a key that is
    masked with the hash of the result. *)
Definition rsa_block (data padding temp_key : list ascii) : result HandshakeError (list ascii) :=
  let data_with_padding := (data ++ padding)%list in
  let digest := mt_sha256 (temp_key ++ data_with_padding) in
  aes_encrypted ← map_err HsCrypto
    (aes_ige_encrypt (rev data_with_padding ++ digest) temp_key (replicate 32 (byte_of 0)));
  Ok (xor_bytes temp_key (mt_sha256 aes_encrypted) ++ aes_encrypted)%list.

(** The rounds that are left, until a block is below the modulus. *)
Fixpoint rsa_pad_loop (rounds : nat) (data : list ascii) (exponent modulus : Z) : Rand (list ascii) :=
  match rounds with
  | O => rand_of (Err HsRsaPadRetryLimit)
  | S rounds =>
      padding ← fill_random (192 - length data);
      temp_key ← fill_random 32;
      key_aes_encrypted ← rand_of (rsa_block data padding temp_key);
      let padded := be_value key_aes_encrypted in
      if modulus <=? padded then rsa_pad_loop rounds data exponent modulus
      else
        let encoded := to_bytes_be (modpow padded exponent modulus) in
        if 256 <? size_of encoded then rand_of (Err HsInvalidRsaResult)
        else mret (replicate (256 - length encoded) (byte_of 0) ++ encoded)%list
  end.

Definition rsa_pad_with_random (data : list ascii) (key : RsaPublicKey) : Rand (list ascii) :=
  if 144 <? size_of data then rand_of (Err (HsRsaPadDataTooLong (size_of data)))
  else
    let modulus := be_value (rsa_modulus key) in
    let exponent := be_value (rsa_exponent key) in
    if (exponent <? 3) || negb (big_is_odd exponent) || negb (big_bits modulus =? 2048)
    then rand_of (Err HsInvalidRsaKey)
    else rsa_pad_loop 128 data exponent modulus.

(** ** The server's parameters *)

Definition derive_tmp_aes_key_iv (new_nonce server_nonce : list ascii) : list ascii * list ascii :=
  let new_server := mt_sha1 (new_nonce ++ server_nonce) in
  let server_new := mt_sha1 (server_nonce ++ new_nonce) in
  let new_new := mt_sha1 (new_nonce ++ new_nonce) in
  ((new_server ++ sub server_new 0 12)%list, (sub server_new 12 20 ++ new_new ++ sub new_nonce 0 4)%list).

Definition validate_dh_public_value (prime value : Z) : result HandshakeError unit :=
  let lower_bound := Z.shiftl 1 (2048 - 64) in
  let upper_bound := prime - lower_bound in
  reject_if ((value <? lower_bound) || (upper_bound <? value)) HsInvalidDhPublicValue ;;
  Ok tt.

Definition generator_is_valid (generator prime : Z) : bool :=
  if generator =? 2 then prime mod 8 =? 7
  else if generator =? 3 then prime mod 3 =? 2
  else if generator =? 4 then true
  else if generator =? 5 then bool_decide (prime mod 5 ∈ [1; 4])
  else if generator =? 6 then bool_decide (prime mod 24 ∈ [19; 23])
  else if generator =? 7 then bool_decide (prime mod 7 ∈ [3; 5; 6])
  else false.

Definition validate_server_dh_parameters (data : ServerDhInnerData) : result HandshakeError unit :=
  reject_if (negb (size_of (sd_dh_prime data) =? 256)) HsInvalidServerDhParameters ;;
  let prime := be_value (sd_dh_prime data) in
  reject_if (negb (big_bits prime =? 2048)) HsInvalidServerDhParameters ;;
  reject_if (negb (eqb (sd_dh_prime data) known_dh_prime_bytes)) HsUntrustedDhPrime ;;
  reject_if (negb (generator_is_valid (sd_generator data) prime)) HsInvalidDhGenerator ;;
  validate_dh_public_value prime (be_value (sd_g_a data)) ;;
  Ok tt.

(** The answer of the server: its data, and where it ends. *)
Definition parse_server_dh_inner (expected_nonce expected_server_nonce : list ascii) :
    HsParser (ServerDhInnerData * Z) :=
  constructor ← hs read_u32;
  refuse_if (negb (constructor =? SERVER_DH_INNER_DATA_CONSTRUCTOR))
    (HsUnexpectedServerDhInnerConstructor constructor) ;;
  nonce ← hs read_i128_bytes;
  server_nonce ← hs read_i128_bytes;
  hs_result (validate_nonce_pair nonce server_nonce expected_nonce expected_server_nonce) ;;
  generator ← hs read_i32;
  dh_prime ← hs read_bytes;
  g_a ← hs read_bytes;
  server_time ← hs read_i32;
  with_reader (fun r => mret ({| sd_nonce := nonce; sd_server_nonce := server_nonce; sd_generator := generator;
                                 sd_dh_prime := dh_prime; sd_g_a := g_a; sd_server_time := server_time |}, position r)).

Definition decrypt_server_dh_inner_data (encrypted_answer new_nonce expected_nonce expected_server_nonce : list ascii) :
    result HandshakeError ServerDhInnerData :=
  reject_if ((size_of encrypted_answer =? 0) || negb (size_of encrypted_answer mod 16 =? 0))
    HsInvalidServerDhCiphertext ;;
  let '(key, iv) := derive_tmp_aes_key_iv new_nonce expected_server_nonce in
  plaintext ← map_err HsCrypto (aes_ige_decrypt encrypted_answer key iv);
  reject_if (size_of plaintext <? 20 + 4 + 16 + 16 + 4 + 4 + 4 + 4) HsInvalidServerDhAnswer ;;
  let expected_hash := take 20 plaintext in
  let answer := drop 20 plaintext in
  '(data, answer_length) ← hs_run (parse_server_dh_inner expected_nonce expected_server_nonce)
                             (reader_with_limits answer (1024 * 1024) 64);
  let padding_length := Z.max 0 (size_of answer - answer_length) in
  reject_if (15 <? padding_length) (HsInvalidServerDhPadding padding_length) ;;
  reject_if (negb (eqb expected_hash (mt_sha1 (take (Z.to_nat answer_length) answer)))) HsServerDhHashMismatch ;;
  reject_if (negb ((2 <=? sd_generator data) && (sd_generator data <=? 7)) || negb (size_of (sd_dh_prime data) =? 256)
             || (size_of (sd_g_a data) =? 0) || (256 <? size_of (sd_g_a data))) HsInvalidServerDhParameters ;;
  validate_server_dh_parameters data ;;
  Ok data.

(** ** The client's half *)

Definition biguint_to_minimal_be (value : Z) : list ascii := to_bytes_be value.

Definition biguint_to_fixed_256 (value : Z) : result HandshakeError (list ascii) :=
  let bytes := to_bytes_be value in
  reject_if (256 <? size_of bytes) HsInvalidDhPublicValue ;;
  Ok (replicate (256 - length bytes) (byte_of 0) ++ bytes)%list.

(** [u64::from_le_bytes(digest[..8])] *)
Definition aux_hash_of (auth_key : list ascii) : Z := of_le_bytes (sub (mt_sha1 auth_key) 0 8).

Definition server_salt_of (new_nonce server_nonce : list ascii) : Z :=
  to_signed 64 (of_le_bytes (xor_bytes (sub new_nonce 0 8) (sub server_nonce 0 8))).

Definition build_client_dh_inner (data : ServerDhInnerData) (retry_id g_b : Z) : result HandshakeError (list ascii) :=
  hs_written (write_seq [
    sure (write_u32 CLIENT_DH_INNER_DATA_CONSTRUCTOR); sure (write_i128_bytes (sd_nonce data));
    sure (write_i128_bytes (sd_server_nonce data)); sure (write_u64 retry_id);
    write_bytes (biguint_to_minimal_be g_b)]).

Definition build_set_client_dh_params (data : ServerDhInnerData) (encrypted_data : list ascii) :
    result HandshakeError (list ascii) :=
  hs_written (write_seq [
    sure (write_u32 SET_CLIENT_DH_PARAMS_CONSTRUCTOR); sure (write_i128_bytes (sd_nonce data));
    sure (write_i128_bytes (sd_server_nonce data)); write_bytes encrypted_data]).

Definition prepare_client_dh (data : ServerDhInnerData) (new_nonce : list ascii) (retry_id : Z) : Rand PreparedClientDh :=
  rand_of (validate_server_dh_parameters data) ;;
  let prime := be_value (sd_dh_prime data) in
  let g_a := be_value (sd_g_a data) in
  exponent_bytes ← fill_random 256;
  let exponent := if be_value exponent_bytes =? 0 then 2 else be_value exponent_bytes in
  let g_b := modpow (sd_generator data) exponent prime in
  rand_of (validate_dh_public_value prime g_b) ;;
  auth_key_bytes ← rand_of (biguint_to_fixed_256 (modpow g_a exponent prime));
  auth_key ← rand_of (map_err HsCrypto (auth_key_from_slice auth_key_bytes));
  inner ← rand_of (build_client_dh_inner data retry_id g_b);
  let answer_with_hash := (mt_sha1 inner ++ inner)%list in
  let padding_length := ((16 - length answer_with_hash mod 16) mod 16)%nat in
  padding ← (if Nat.eqb padding_length 0 then mret [] else fill_random padding_length);
  let '(key, iv) := derive_tmp_aes_key_iv new_nonce (sd_server_nonce data) in
  encrypted_data ← rand_of (map_err HsCrypto (aes_ige_encrypt (answer_with_hash ++ padding) key iv));
  request_body ← rand_of (build_set_client_dh_params data encrypted_data);
  mret {| pc_request_body := request_body; pc_auth_key := auth_key;
          pc_auth_key_aux_hash := aux_hash_of auth_key_bytes;
          pc_server_salt := server_salt_of new_nonce (sd_server_nonce data) |}.

(** [new_nonce_hash1], [2] or [3] *)
Definition dh_gen_hash (new_nonce : list ascii) (tag auth_key_aux_hash : Z) : list ascii :=
  sub (mt_sha1 (new_nonce ++ byte_of tag :: le_bytes 8 auth_key_aux_hash)) 4 20.

Definition parse_dh_gen_body (expected_nonce expected_server_nonce : list ascii) : HsParser (Z * list ascii) :=
  constructor ← hs read_u32;
  check_nonces expected_nonce expected_server_nonce ;;
  actual_hash ← hs read_i128_bytes;
  hs_finished ;;
  mret (constructor, actual_hash).

Definition parse_dh_gen_result (input expected_nonce expected_server_nonce new_nonce : list ascii)
    (auth_key_aux_hash : Z) : result HandshakeError DhGenResult :=
  '(constructor, actual_hash) ← hs_run (parse_dh_gen_body expected_nonce expected_server_nonce) (reader_new input);
  '(res, tag) ← (if constructor =? DH_GEN_OK_CONSTRUCTOR then Ok (DhGenOk, 1)
                 else if constructor =? DH_GEN_RETRY_CONSTRUCTOR then Ok (DhGenRetry, 2)
                 else if constructor =? DH_GEN_FAIL_CONSTRUCTOR then Ok (DhGenFail, 3)
                 else Err (HsUnexpectedDhGenConstructor constructor));
  reject_if (negb (eqb actual_hash (dh_gen_hash new_nonce tag auth_key_aux_hash))) HsDhGenHashMismatch ;;
  Ok res.

(** ** The state machine *)

Definition handshake_begin (message_id : Z) (h : AuthKeyHandshake) :
    AuthKeyHandshake * result HandshakeError PlaintextEnvelope :=
  match hs_state h with
  | HsReady =>
      (h ⟪ hs_state := AwaitingResPq ⟫,
       body ← hs_written (write_seq [sure (write_u32 REQ_PQ_MULTI_CONSTRUCTOR); sure (write_i128_bytes (hs_nonce h))]);
       Ok {| pe_message_id := message_id; pe_body := body |})
  | _ => (h, Err (HsInvalidState "req_pq_multi already sent"))
  end.

Definition check_res_pq (nonce : list ascii) (body : list ascii) : result HandshakeError ResPq :=
  response ← parse_res_pq body;
  reject_if (negb (eqb (rp_nonce response) nonce)) HsNonceMismatch ;;
  reject_if (size_of (rp_pq response) =? 0) HsEmptyPq ;;
  reject_if (size_of (rp_server_public_key_fingerprints response) =? 0) HsMissingServerKeyFingerprint ;;
  Ok response.

Definition receive_res_pq (envelope : PlaintextEnvelope) (h : AuthKeyHandshake) :
    AuthKeyHandshake * result HandshakeError ResPq :=
  match hs_state h with
  | AwaitingResPq =>
      match check_res_pq (hs_nonce h) (pe_body envelope) with
      | Err e => (h, Err e)
      | Ok response =>
          (h ⟪ hs_server_nonce := Some (rp_server_nonce response) ⟫ ⟪ hs_state := ResPqReceived response ⟫, Ok response)
      end
  | _ => (h, Err (HsInvalidState "not awaiting resPQ"))
  end.

(** The new nonce drawn, and the body of the request. *)
Definition req_dh_params (response : ResPq) (dc_id : Z) (test_environment : bool) : Rand (list ascii * list ascii) :=
  factors ← rand_of (factor_res_pq response);
  key ← rand_of (telegram_server_rsa_key test_environment);
  fingerprint ← rand_of (rsa_fingerprint key);
  rand_of (reject_if (negb (contains_fingerprint response fingerprint)) HsNoTrustedServerKey) ;;
  new_nonce ← fill_random 32;
  inner ← rand_of (build_p_q_inner_data_dc response factors new_nonce dc_id);
  encrypted ← rsa_pad_with_random inner key;
  body ← rand_of (build_req_dh_params response factors fingerprint encrypted);
  mret (new_nonce, body).

Definition prepare_req_dh_params (message_id dc_id : Z) (test_environment : bool) (g : Rng) (h : AuthKeyHandshake) :
    AuthKeyHandshake * Rng * result HandshakeError PlaintextEnvelope :=
  match hs_state h with
  | ResPqReceived response =>
      match req_dh_params response dc_id test_environment g with
      | (g, Err e) => (h, g, Err e)
      | (g, Ok (new_nonce, body)) =>
          (h ⟪ hs_new_nonce := Some new_nonce ⟫ ⟪ hs_state := AwaitingServerDh ⟫, g,
           Ok {| pe_message_id := message_id; pe_body := body |})
      end
  | _ => (h, g, Err (HsInvalidState "resPQ is not available"))
  end.

(** The server's parameters and the client's answer to them. *)
Definition answer_server_dh (nonce server_nonce new_nonce body : list ascii) :
    Rand (ServerDhInnerData * PreparedClientDh) :=
  response ← rand_of (parse_server_dh_params body nonce server_nonce);
  encrypted_answer ← rand_of (match response with
                              | ServerDhOk encrypted_answer => Ok encrypted_answer
                              | ServerDhFail new_nonce_hash =>
                                  if eqb new_nonce_hash (sub (mt_sha1 new_nonce) 4 20) then Err HsServerDhRejected
                                  else Err HsServerDhHashMismatch
                              end);
  server_dh ← rand_of (decrypt_server_dh_inner_data encrypted_answer new_nonce nonce server_nonce);
  prepared ← prepare_client_dh server_dh new_nonce 0;
  mret (server_dh, prepared).

Definition receive_server_dh (envelope : PlaintextEnvelope) (client_message_id : Z) (g : Rng) (h : AuthKeyHandshake) :
    AuthKeyHandshake * Rng * result HandshakeError PlaintextEnvelope :=
  match hs_state h with
  | AwaitingServerDh =>
      match hs_new_nonce h, hs_server_nonce h with
      | Some new_nonce, Some server_nonce =>
          match answer_server_dh (hs_nonce h) server_nonce new_nonce (pe_body envelope) g with
          | (g, Err e) => (h, g, Err e)
          | (g, Ok (server_dh, prepared)) =>
              (h ⟪ hs_server_dh := Some server_dh ⟫ ⟪ hs_prepared_client_dh := Some prepared ⟫
                 ⟪ hs_state := AwaitingDhGen ⟫, g,
               Ok {| pe_message_id := client_message_id; pe_body := pc_request_body prepared |})
          end
      | _, _ => (h, g, Err HsMissingHandshakeData)
      end
  | _ => (h, g, Err (HsInvalidState "not awaiting server_DH_params"))
  end.

Definition receive_dh_gen (envelope : PlaintextEnvelope) (retry_message_id : Z) (g : Rng) (h : AuthKeyHandshake) :
    AuthKeyHandshake * Rng * result HandshakeError DhGenAction :=
  match hs_state h with
  | AwaitingDhGen =>
      match hs_new_nonce h, hs_prepared_client_dh h, hs_server_nonce h with
      | Some new_nonce, Some prepared, Some server_nonce =>
          match parse_dh_gen_result (pe_body envelope) (hs_nonce h) server_nonce new_nonce
                  (pc_auth_key_aux_hash prepared) with
          | Err e => (h, g, Err e)
          | Ok DhGenOk =>
              let h := h ⟪ hs_prepared_client_dh := None ⟫ in
              match hs_server_dh h with
              | None => (h, g, Err HsMissingHandshakeData)
              | Some server_dh =>
                  (h ⟪ hs_state := HsComplete ⟫, g,
                   Ok (Established {| ek_auth_key := pc_auth_key prepared;
                                      ek_server_salt := pc_server_salt prepared;
                                      ek_server_time := sd_server_time server_dh |}))
              end
          | Ok DhGenRetry =>
              match hs_server_dh h with
              | None => (h, g, Err HsMissingHandshakeData)
              | Some server_dh =>
                  match prepare_client_dh server_dh new_nonce (pc_auth_key_aux_hash prepared) g with
                  | (g, Err e) => (h, g, Err e)
                  | (g, Ok next) =>
                      (h ⟪ hs_prepared_client_dh := Some next ⟫, g,
                       Ok (RetryDh {| pe_message_id := retry_message_id; pe_body := pc_request_body next |}))
                  end
              end
          | Ok DhGenFail => (h, g, Err HsDhGenRejected)
          end
      | _, _, _ => (h, g, Err HsMissingHandshakeData)
      end
  | _ => (h, g, Err (HsInvalidState "not awaiting dh_gen result"))
  end.

Definition pending_auth_key_aux_hash (h : AuthKeyHandshake) : option Z :=
  pc_auth_key_aux_hash <$> hs_prepared_client_dh h.

End crypto.
