(* ===== verification/KeyTransport.v ===== *)
(** * What the client sends the server under its RSA key: the factors and the nonce *)

From Stdlib Require Import Znumtheory Zmod.
From S2P Require Import Prelude Text Maps Bytes Tl Crypto Numbers Handshake.

(** ** Factoring the server's number: what [factor_res_pq] answers *)

Lemma decode_unsigned_be_ok (bytes : list ascii) (pq : Z) :
  decode_unsigned_be bytes = Ok pq ->
  pq = be_value bytes /\ (1 <= length bytes <= 8)%nat /\ 0 <= pq < 2 ^ 64.
Proof.
  unfold decode_unsigned_be. intros H. oks.
  repeat match goal with
  | H : (_ =? _) = false |- _ => apply Z.eqb_neq in H
  | H : (_ <? _) = false |- _ => apply Z.ltb_ge in H
  end.
  split; [done|]. assert (Hl : (1 <= length bytes <= 8)%nat) by lia. split; [done|].
  subst pq. pose proof (be_value_range bytes) as Hr. split; [lia|].
  eapply Z.lt_le_trans; [apply Hr|]. change (2 ^ 64) with (256 ^ 8). apply Z.pow_le_mono_r; lia.
Qed.

Lemma saturating_mul_u64_small (a b n : Z) : 0 <= a -> 0 <= b -> n < 2 ^ 64 - 1 -> saturating_mul_u64 a b = n -> a * b = n.
Proof. unfold saturating_mul_u64, clamp, u64_max. intros. nia. Qed.

(** What the factors are, when there are any. *)
Lemma factor_res_pq_ok (response : ResPq) (f : FactoredPq) :
  factor_res_pq response = Ok f ->
  fp_pq f = be_value (rp_pq response) /\ 1 < fp_p f <= fp_q f /\ fp_p f * fp_q f = fp_pq f /\ fp_pq f < 2 ^ 64
  /\ is_prime (fp_p f) = true /\ is_prime (fp_q f) = true.
Proof.
  unfold factor_res_pq. intros H. oks.
  match goal with H : decode_unsigned_be _ = _ |- _ => apply decode_unsigned_be_ok in H as (-> & _ & Hr) end.
  set (pq := be_value (rp_pq response)) in *.
  repeat match goal with
  | H : (_ <? _) = false |- _ => apply Z.ltb_ge in H
  end.
  match goal with H : pollard_rho_factor _ = Some ?x |- _ => rename x into factor; apply pollard_divides in H as [[k Hk] Hd] end;
    [|lia].
  assert (Hdiv : pq / factor = k) by (rewrite Hk; apply Z.div_mul; lia).
  rewrite Hdiv in *. rewrite Hk in *. destruct (Z.ltb_spec factor k); subst f; simpl; split_and!; try done; try lia; nia.
Qed.

Lemma saturating_mul_exact (a b : Z) : 0 <= a * b < 2 ^ 64 -> saturating_mul_u64 a b = a * b.
Proof. unfold saturating_mul_u64, clamp, u64_max. lia. Qed.

(** What the code does with a product of two primes. *)
Lemma factor_res_pq_semiprime (response : ResPq) (p q : Z) :
  Z.prime p -> Z.prime q -> p <= q -> p * q < 2 ^ 64 -> (1 <= length (rp_pq response) <= 8)%nat ->
  be_value (rp_pq response) = p * q ->
  factor_res_pq response
  = if is_prime (p * q) then Err (HsPqNotSemiprime (p * q))
    else match pollard_rho_factor (p * q) with
         | Some _ => Ok {| fp_pq := p * q; fp_p := p; fp_q := q |}
         | None => Err (HsPqFactorizationFailed (p * q))
         end.
Proof.
  intros Hp Hq Hle Hmax Hlen Hv. pose proof (proj1 Hp). pose proof (proj1 Hq).
  unfold factor_res_pq, decode_unsigned_be.
  rewrite (proj2 (Z.eqb_neq _ 0)), (proj2 (Z.ltb_ge 8 _)) by lia. cbn [orb reject_if mbind result_bind]. rewrite Hv.
  rewrite (proj2 (Z.ltb_ge _ 4)) by nia. cbn [orb].
  destruct (is_prime (p * q)); [done|]. cbn [reject_if mbind result_bind].
  destruct (pollard_rho_factor (p * q)) as [d|] eqn:Hrho; [|done]. cbn [ok_or mbind result_bind].
  apply pollard_divides in Hrho as [Hd Hrange]; [|nia].
  assert (Hpp : is_prime p = true) by (apply is_prime_complete; [done|nia]).
  assert (Hqq : is_prime q = true) by (apply is_prime_complete; [done|nia]).
  assert (Hcases : (d = p /\ p * q / d = q) \/ (d = q /\ p * q / d = p)).
  { destruct (semiprime_divisor p q d Hp Hq Hd Hrange) as [->| ->]; [left|right]; split; try done.
    - rewrite Z.mul_comm. apply Z.div_mul. lia.
    - apply Z.div_mul. lia. }
  destruct Hcases as [[-> ->]|[-> ->]].
  - rewrite !(proj2 (Z.eqb_neq _ 1)), saturating_mul_exact, Z.eqb_refl, Hpp, Hqq by nia. cbn [negb orb reject_if mbind result_bind].
    destruct (Z.ltb_spec p q); [done|]. by replace q with p by lia.
  - rewrite !(proj2 (Z.eqb_neq _ 1)), saturating_mul_exact, (Z.mul_comm q p), Z.eqb_refl, Hpp, Hqq by nia.
    cbn [negb orb reject_if mbind result_bind].
    by rewrite (proj2 (Z.ltb_ge q p)) by lia.
Qed.

(** The client factors the server's number, and answers only with factors.
    Whatever the server sends, factors that are returned are in order, at least
    two, multiply to the number and pass the primality test.  For the product of
    two primes, the answer is exactly its two primes: the client gives up only
    when its bounded search ends without a divisor, and refuses only if the
    probabilistic test takes the product itself for a prime. *)
Theorem server_number_is_factored (response : ResPq) (p q : Z) :
  (forall f, factor_res_pq response = Ok f ->
     fp_pq f = be_value (rp_pq response) /\ 1 < fp_p f <= fp_q f /\ fp_p f * fp_q f = fp_pq f
     /\ is_prime (fp_p f) = true /\ is_prime (fp_q f) = true)
  /\ (Z.prime p -> Z.prime q -> p <= q -> p * q < 2 ^ 64 -> (1 <= length (rp_pq response) <= 8)%nat ->
      be_value (rp_pq response) = p * q ->
      factor_res_pq response
      = if is_prime (p * q) then Err (HsPqNotSemiprime (p * q))
        else match pollard_rho_factor (p * q) with
             | Some _ => Ok {| fp_pq := p * q; fp_p := p; fp_q := q |}
             | None => Err (HsPqFactorizationFailed (p * q))
             end).
Proof.
  split; [|apply factor_res_pq_semiprime]. intros f Hf. apply factor_res_pq_ok in Hf. naive_solver.
Qed.

(** A number that none up to its square root divides is prime. *)
Definition prime_by_trial (p : Z) : bool :=
  (1 <? p) && forallb (fun n => negb (p mod n =? 0)) (seqZ 2 (Z.sqrt p - 1)).

Lemma prime_by_trial_prime (p : Z) : prime_by_trial p = true -> Z.prime p.
Proof.
  unfold prime_by_trial. rewrite andb_true_iff, Z.ltb_lt, forallb_forall. intros [Hp Hall].
  assert (Hsmall : forall n, 1 < n -> n * n <= p -> ~ (n | p)).
  { intros n Hn Hle Hd. specialize (Hall n). rewrite negb_true_iff, Z.eqb_neq in Hall. apply Hall.
    - apply list_elem_of_In, elem_of_seqZ. apply Z.sqrt_le_square in Hle; lia.
    - by apply Z.mod_divide; [lia|]. }
  split; [done|]. intros n Hn [k Hk]. destruct (Z.le_gt_cases (n * n) p) as [Hle|Hgt].
  - apply (Hsmall n); [lia|done|by exists k].
  - apply (Hsmall k); [nia|nia|exists n; lia].
Qed.

Definition sample_pq (bytes : list ascii) : ResPq := {|
  rp_nonce := replicate 16 (byte_of 1); rp_server_nonce := replicate 16 (byte_of 2);
  rp_pq := bytes; rp_server_public_key_fingerprints := [7] |}.

Lemma server_number_is_factored_witness :
  factor_res_pq (sample_pq [byte_of 6; byte_of 227]) = Ok {| fp_pq := 1763; fp_p := 41; fp_q := 43 |}.
Proof.
  assert (H : be_value [byte_of 6; byte_of 227] = 41 * 43) by reflexivity.
  rewrite (proj2 (server_number_is_factored (sample_pq [byte_of 6; byte_of 227]) 41 43)).
  - vm_compute. reflexivity.
  - apply prime_by_trial_prime. reflexivity.
  - apply prime_by_trial_prime. reflexivity.
  - lia.
  - lia.
  - simpl. lia.
  - exact H.
Defined.

Example sample_factors :
  factor_res_pq (sample_pq (rev (le_bytes 8 (1000003 * 1000033))))
  = Ok {| fp_pq := 1000003 * 1000033; fp_p := 1000003; fp_q := 1000033 |}.
Proof. vm_compute. reflexivity. Qed.

(** ** RSA padding: the holder of the private key recovers the data

    The other end of [rsa_pad_with_random], as the protocol prescribes it for the
    server, and that it undoes what the client sends. *)

(** The exponent is inverse to the public one. *)
Definition rsa_inverse (d exponent modulus : Z) : Prop :=
  forall m, 0 <= m < modulus -> modpow (modpow m exponent modulus) d modulus = m.

(** A source that gives as many bytes as it is asked for. *)
Definition source_exact (g : Rng) : Prop := forall i n l, draw g i n = Some l -> length l = n.

Lemma fill_random_exact (n : nat) (g g' : Rng) (res : result HandshakeError (list ascii)) :
  source_exact g -> fill_random n g = (g', res) ->
  source_exact g' /\ match res with Ok l => length l = n | Err e => e = HsRandomnessUnavailable end.
Proof.
  unfold fill_random. intros Hg [= <- <-]. split; [exact Hg|].
  destruct (draw g (drawn g) n) as [l|] eqn:Hd; [|done]. by apply Hg in Hd.
Qed.

(** The size of what IGE makes of whole blocks. *)
Lemma ige_encrypt_blocks_length `{MtCipher} (k c p : list ascii) (bs : list (list ascii)) :
  length (ige_encrypt_blocks k c p bs) = length bs.
Proof. revert c p. induction bs as [|b bs IH]; intros c p; simpl; [done|]. by rewrite IH. Qed.

Section padding.
Context `{MC : MtCipher, !MtCipherLaws MC}.

Lemma aes_ige_encrypt_length (x key iv y : list ascii) :
  length key = 32%nat -> length iv = 32%nat -> aes_ige_encrypt x key iv = Ok y -> length y = length x.
Proof.
  intros Hk Hiv H. unfold aes_ige_encrypt in H. oks. subst y.
  destruct (blocks_of_whole x) as (Hcat & Hall & _); [done|].
  assert (is_block (sub iv 0 16) /\ is_block (sub iv 16 32)) as [Hc Hp]
    by (unfold is_block; rewrite !sub_length by lia; done).
  destruct (ige_encrypt_decrypt key _ _ _ Hk Hc Hp Hall) as [Hall' _].
  rewrite concat_length, ige_encrypt_blocks_length, <- concat_length, Hcat by done. done.
Qed.

Lemma aes_ige_encrypt_total (x key iv : list ascii) :
  whole_blocks x = true -> exists y, aes_ige_encrypt x key iv = Ok y.
Proof. intros Hx. unfold aes_ige_encrypt. rewrite Hx. by eexists. Qed.

(** What the server does with the block it receives. *)
Definition rsa_unpad (d modulus : Z) (block : list ascii) : option (list ascii) :=
  let padded := fixed_256 (modpow (be_value block) d modulus) in
  let aes_encrypted := drop 32 padded in
  let temp_key := xor_bytes (take 32 padded) (mt_sha256 aes_encrypted) in
  match aes_ige_decrypt aes_encrypted temp_key (replicate 32 (byte_of 0)) with
  | Ok plain =>
      let data_with_padding := rev (take 192 plain) in
      if eqb (drop 192 plain) (mt_sha256 (temp_key ++ data_with_padding)) then Some data_with_padding else None
  | Err _ => None
  end.

Lemma rsa_block_shape (data padding temp_key : list ascii) :
  (length data <= 144)%nat -> length padding = (192 - length data)%nat -> length temp_key = 32%nat ->
  exists aes, rsa_block data padding temp_key = Ok (xor_bytes temp_key (mt_sha256 aes) ++ aes)%list
    /\ length aes = 224%nat
    /\ aes_ige_decrypt aes temp_key (replicate 32 (byte_of 0))
       = Ok (rev (data ++ padding) ++ mt_sha256 (temp_key ++ data ++ padding))%list.
Proof.
  intros Hd Hp Hk. unfold rsa_block.
  set (plain := (rev (data ++ padding) ++ mt_sha256 (temp_key ++ data ++ padding))%list).
  assert (Hlen : length plain = 224%nat)
    by (unfold plain; rewrite length_app, length_rev, length_app, mt_sha256_length; lia).
  destruct (aes_ige_encrypt_total plain temp_key (replicate 32 (byte_of 0))) as [aes Haes].
  { apply whole_blocks_spec. rewrite Hlen. split; [lia|done]. }
  rewrite Haes. exists aes. split; [done|]. split.
  - rewrite <- Hlen. by apply aes_ige_encrypt_length in Haes; rewrite ?length_replicate.
  - by apply aes_ige_inverse; rewrite ?length_replicate.
Qed.

Lemma rsa_unpad_block (d exponent modulus : Z) (data padding temp_key block : list ascii) :
  rsa_inverse d exponent modulus -> 0 < modulus <= bound_2048 ->
  (length data <= 144)%nat -> length padding = (192 - length data)%nat -> length temp_key = 32%nat ->
  rsa_block data padding temp_key = Ok block -> be_value block < modulus ->
  rsa_unpad d modulus (fixed_256 (modpow (be_value block) exponent modulus)) = Some (data ++ padding)%list.
Proof.
  intros Hinv Hmod Hd Hp Hk Hblock Hlt.
  destruct (rsa_block_shape data padding temp_key Hd Hp Hk) as (aes & Hshape & Hlen & Hdec).
  rewrite Hblock in Hshape. injection Hshape as ->.
  set (block := (xor_bytes temp_key (mt_sha256 aes) ++ aes)%list) in *.
  assert (Hx : length (xor_bytes temp_key (mt_sha256 aes)) = 32%nat)
    by (rewrite xor_bytes_length, mt_sha256_length; lia).
  unfold rsa_unpad. rewrite fixed_256_value by apply (modpow_bound _ _ _ Hmod).
  rewrite Hinv by (split; [apply be_value_range|exact Hlt]). rewrite fixed_256_of_value by (unfold block; rewrite length_app, Hx, Hlen; done).
  unfold block. rewrite take_app_length', drop_app_length' by done.
  rewrite xor_bytes_cancel by (rewrite mt_sha256_length; lia). rewrite Hdec.
  rewrite take_app_length', drop_app_length' by (rewrite length_rev, length_app; lia).
  rewrite rev_involutive. by rewrite (proj2 (eqb_spec _ _)).
Qed.

(** The loop's answer is a block of the data's, under the public key. *)
Lemma rsa_pad_loop_ok (rounds : nat) (data : list ascii) (exponent modulus : Z) (g g' : Rng) (res : result HandshakeError (list ascii)) :
  source_exact g -> (length data <= 144)%nat -> 0 < modulus <= bound_2048 ->
  rsa_pad_loop rounds data exponent modulus g = (g', res) ->
  source_exact g' /\
  match res with
  | Ok encrypted => exists padding temp_key block,
      length padding = (192 - length data)%nat /\ length temp_key = 32%nat
      /\ rsa_block data padding temp_key = Ok block /\ be_value block < modulus
      /\ encrypted = fixed_256 (modpow (be_value block) exponent modulus)
  | Err e => e = HsRandomnessUnavailable \/ e = HsRsaPadRetryLimit
  end.
Proof.
  intros Hg Hd Hmod. revert g Hg. induction rounds as [|rounds IH]; intros g Hg.
  { intros [= <- <-]. split; [done|by right]. }
  cbn [rsa_pad_loop]. unfold mbind, rand_bind.
  destruct (fill_random (192 - length data) g) as [g1 [padding|e]] eqn:H1;
    destruct (fill_random_exact _ _ _ _ Hg H1) as [Hg1 Hp]; [|intros [= <- <-]; by auto].
  destruct (fill_random 32 g1) as [g2 [temp_key|e]] eqn:H2;
    destruct (fill_random_exact _ _ _ _ Hg1 H2) as [Hg2 Hk]; [|intros [= <- <-]; by auto].
  destruct (rsa_block_shape data padding temp_key Hd Hp Hk) as (aes & Hblock & Hlen & _).
  rewrite Hblock. cbn [rand_of]. set (block := (_ ++ aes)%list) in *.
  destruct (Z.leb_spec modulus (be_value block)) as [Hge|Hlt]; [by apply IH|].
  pose proof (to_bytes_256 _ (modpow_bound (be_value block) exponent modulus Hmod)) as Hbytes.
  rewrite (proj2 (Z.ltb_ge 256 _)) by lia. intros [= <- <-]. split; [done|].
  exists padding, temp_key, block. done.
Qed.

(** When the first block is below the modulus, it is encrypted. *)
Lemma rsa_pad_loop_first (rounds : nat) (data padding temp_key block : list ascii) (exponent modulus : Z) (g : Rng) :
  draw g (drawn g) (192 - length data)%nat = Some padding -> draw g (S (drawn g)) 32%nat = Some temp_key ->
  rsa_block data padding temp_key = Ok block -> be_value block < modulus <= bound_2048 ->
  snd (rsa_pad_loop (S rounds) data exponent modulus g) = Ok (fixed_256 (modpow (be_value block) exponent modulus)).
Proof.
  intros Hp Hk Hblock [Hlt Hmod]. cbn [rsa_pad_loop]. unfold mbind, rand_bind, fill_random. cbn [drawn draw].
  rewrite Hp, Hk. cbn [ok_or]. unfold rand_of. rewrite Hblock, (proj2 (Z.leb_gt _ _) Hlt).
  assert (0 < modulus) by (pose proof (be_value_range block); lia).
  pose proof (to_bytes_256 _ (modpow_bound (be_value block) exponent modulus ltac:(lia))) as Hbytes.
  by rewrite (proj2 (Z.ltb_ge 256 _)) by lia.
Qed.
End padding.

(** ** Exponents that are inverse *)

Definition product (ps : list Z) : Z := foldr Z.mul 1 ps.

Lemma prime_divides_product (p : Z) (ps : list Z) :
  Z.prime p -> Forall Z.prime ps -> (p | product ps) -> p ∈ ps.
Proof.
  intros Hp. induction 1 as [|q ps Hq _ IH]; simpl; intros Hd.
  - destruct Hp as [Hp1 _]. apply Z.divide_1_r_nonneg in Hd; lia.
  - apply prime_alt in Hp as Hp'. apply prime_mult in Hd as [Hd|Hd]; [|apply elem_of_cons; right; by apply IH|done].
    apply elem_of_cons. left. pose proof (proj1 Hp). pose proof (proj1 Hq).
    pose proof (Z.divide_pos_le p q ltac:(lia) Hd). destruct (decide (p = q)); [done|].
    exfalso. apply (proj2 Hq p); [lia|done].
Qed.

Lemma product_divides (ps : list Z) (z : Z) :
  NoDup ps -> Forall Z.prime ps -> Forall (fun p => (p | z)) ps -> (product ps | z).
Proof.
  induction 1 as [|p ps Hnotin _ IH]; [intros; apply Z.divide_1_l|]. intros Hps Hz.
  apply list.Forall_cons in Hps as [Hp Hps], Hz as [Hpz Hz].
  destruct (IH Hps Hz) as [k Hk]. rewrite Hk in Hpz. apply prime_alt in Hp as Hp'.
  apply prime_mult in Hpz as [[j Hj]|Hd]; [|by apply prime_divides_product in Hd|done].
  exists j. simpl. rewrite Hk, Hj. ring.
Qed.

Lemma product_pos (ps : list Z) : Forall Z.prime ps -> 0 < product ps.
Proof. induction 1 as [|p ps [Hp _] _ IH]; simpl; lia. Qed.

(** The exponents of a product of distinct primes (two, in practice). *)
Record rsa_exponents (ps : list Z) (exponent d : Z) : Prop := {
  re_distinct : NoDup ps;
  re_primes : Forall Z.prime ps;
  re_positive : 0 < exponent /\ 0 < d;
  re_inverse : Forall (fun p => exponent * d mod (p - 1) = 1 mod (p - 1)) ps;
}.

Lemma power_of_inverse (p k m : Z) :
  Z.prime p -> 0 < k -> k mod (p - 1) = 1 mod (p - 1) -> (p | m ^ k - m).
Proof.
  intros Hp Hk Hmod. pose proof (proj1 Hp).
  assert (exists j, 0 <= j /\ k = 1 + j * (p - 1)) as (j & Hj & ->).
  { exists ((k - 1) / (p - 1)). assert (Hd : (k - 1) mod (p - 1) = 0).
    { rewrite Zminus_mod, Hmod, Z.sub_diag. apply Z.mod_0_l. lia. }
    apply Z.div_exact in Hd; [|lia]. split; [apply Z.div_pos; lia|lia]. }
  rewrite Z.pow_add_r, Z.pow_1_r, (Z.mul_comm j), Z.pow_mul_r by nia.
  replace (m * (m ^ (p - 1)) ^ j - m) with (m * ((m ^ (p - 1)) ^ j - 1)) by ring.
  destruct (decide (m mod p = 0)) as [H0|Hne].
  - apply Z.divide_mul_l. by apply Z.mod_divide; [lia|].
  - apply Z.divide_mul_r, Z.mod_divide; [lia|]. rewrite Zminus_mod, <- Z.mod_pow_l, Z.fermat_nz, Z.pow_1_l by (done || lia).
    by rewrite Z.sub_diag, Z.mod_0_l by lia.
Qed.

Lemma rsa_exponents_inverse (ps : list Z) (exponent d : Z) :
  rsa_exponents ps exponent d -> rsa_inverse d exponent (product ps).
Proof.
  intros [Hnd Hps [He Hd] Hall] m Hm. pose proof (product_pos ps Hps).
  rewrite !modpow_power, Z.mod_pow_l, <- Z.pow_mul_r by lia.
  assert (Hdiv : (product ps | m ^ (exponent * d) - m)).
  { apply product_divides; try done. rewrite list.Forall_forall in *. intros p Hp.
    apply power_of_inverse; auto. lia. }
  destruct Hdiv as [k Hk]. replace (m ^ (exponent * d)) with (m + k * product ps) by lia.
  rewrite Z_mod_plus_full. by apply Z.mod_small.
Qed.

Section theorem.
Context `{MC : MtCipher, !MtCipherLaws MC}.

(** C33: What the client encrypts for the server, the holder of the private key
    reads.  Let the modulus be a product of distinct primes and the exponents
    inverse modulo each prime less one.  Whenever [rsa_pad] succeeds, its answer is
    256 bytes from which the private exponent recovers the data, followed by
    padding up to 192 bytes; the data is shorter than 145 bytes then.  The only
    failures are data that is too long, a key that is not a 2048-bit modulus with
    an odd exponent of at least three, a random source that fails, and 128
    blocks in a row that were not below the modulus: a result wider than the
    modulus never happens. *)
Theorem server_reads_padded_data (ps : list Z) (d : Z) (key : RsaPublicKey) (data : list ascii) (g : Rng) :
  be_value (rsa_modulus key) = product ps ->
  rsa_exponents ps (be_value (rsa_exponent key)) d ->
  source_exact g ->
  match rsa_pad_with_random data key g with
  | (_, Ok encrypted) =>
      length encrypted = 256%nat /\ (length data <= 144)%nat
      /\ exists padding, length (data ++ padding) = 192%nat
         /\ rsa_unpad d (product ps) encrypted = Some (data ++ padding)%list
  | (_, Err e) =>
      (e = HsRsaPadDataTooLong (size_of data) /\ (144 < length data)%nat)
      \/ (e = HsInvalidRsaKey /\ ~ (3 <= be_value (rsa_exponent key) /\ Z.odd (be_value (rsa_exponent key)) = true
                                    /\ 2 ^ 2047 <= product ps < 2 ^ 2048))
      \/ e = HsRandomnessUnavailable \/ e = HsRsaPadRetryLimit
  end.
Proof.
  intros Hn Hexp Hg. unfold rsa_pad_with_random. rewrite Hn. set (exponent := be_value (rsa_exponent key)) in *.
  destruct (Z.ltb_spec 144 (size_of data)) as [Hlong|Hshort]; [left; split; [done|lia]|].
  destruct ((exponent <? 3) || negb (big_is_odd exponent) || negb (big_bits (product ps) =? 2048)) eqn:Hkey.
  - right. left. split; [done|]. intros (H3 & Hodd & Hr%big_bits_of_range). revert Hkey. unfold big_is_odd.
    by rewrite (proj2 (Z.ltb_ge _ _) H3), land_one, Zmod_odd, Hodd, Hr.
  - repeat match goal with H : _ || _ = false |- _ => apply orb_false_iff in H as [H ?] end.
    rename select (negb (_ =? 2048) = false) into Hbits. apply negb_false_iff, Z.eqb_eq, big_bits_2048 in Hbits;
      [|rewrite <- Hn; apply be_value_range].
    destruct (rsa_pad_loop 128 data exponent (product ps) g) as [g' res] eqn:Hloop.
    apply rsa_pad_loop_ok in Hloop as [_ Hres]; [|done|lia|split; [apply Hbits|apply Z.lt_le_incl, Hbits]].
    destruct res as [encrypted|e]; [|by auto].
    destruct Hres as (padding & temp_key & block & Hp & Hk & Hblock & Hlt & ->).
    split; [|split; [lia|]].
    + apply fixed_256_length, modpow_bound. split; [apply Hbits|apply Z.lt_le_incl, Hbits].
    + exists padding. split; [rewrite length_app; lia|].
      eapply rsa_unpad_block; try done; [by apply rsa_exponents_inverse| |lia].
      split; [apply Hbits|apply Z.lt_le_incl, Hbits].
Qed.
End theorem.

(** ** A key for the concrete instance: a product of 183 small primes *)

Definition toy_primes : list Z :=
  [173; 1151; 1163; 1181; 1187; 1193; 1217; 1223; 1229; 1259; 1277; 1283; 1289; 1301; 1307; 1319; 1361; 1367;
   1373; 1409; 1427; 1433; 1439; 1451; 1481; 1487; 1493; 1499; 1511; 1523; 1553; 1559; 1571; 1583; 1601; 1607;
   1613; 1619; 1637; 1667; 1697; 1709; 1721; 1733; 1787; 1811; 1823; 1847; 1871; 1877; 1889; 1901; 1907; 1913;
   1931; 1949; 1973; 1979; 1997; 2003; 2027; 2039; 2063; 2069; 2081; 2087; 2099; 2111; 2129; 2141; 2153; 2207;
   2213; 2237; 2243; 2267; 2273; 2297; 2309; 2333; 2339; 2351; 2357; 2381; 2393; 2399; 2411; 2417; 2423; 2441;
   2447; 2459; 2477; 2531; 2543; 2549; 2579; 2591; 2609; 2621; 2633; 2657; 2663; 2687; 2693; 2699; 2711; 2729;
   2741; 2753; 2777; 2789; 2801; 2819; 2837; 2843; 2861; 2879; 2897; 2903; 2909; 2927; 2939; 2957; 2963; 2969;
   2999; 3011; 3023; 3041; 3083; 3089; 3119; 3137; 3167; 3191; 3203; 3209; 3221; 3251; 3257; 3299; 3323; 3329;
   3347; 3359; 3371; 3389; 3407; 3413; 3449; 3461; 3467; 3491; 3527; 3533; 3539; 3557; 3581; 3593; 3617; 3623;
   3659; 3671; 3677; 3701; 3719; 3761; 3767; 3779; 3797; 3803; 3821; 3833; 3851; 3863; 3881; 3911; 3917; 3923;
   3929; 3947; 3989].
Definition toy_private_exponent : Z :=
  0x7686ff042590add78163d65dcc0e084eec06b90ccb3eccf129063c0ace46c1a2bd61cf72e50b47505ba3168bc8b7bfe9701fb159f0366dbc71feba7d0252ce9f986a0c46c70d1d2f5a18dbc18edfa1b879491a737a4e484bcd65cb362da87c38f5782f85401f787c4fbe42b551ab.
Definition toy_rsa_key : RsaPublicKey := {|
  rsa_modulus := fixed_256 (product toy_primes); rsa_exponent := [byte_of 3] |}.
Definition toy_source : Rng := {| draw := fun i n => Some (replicate n (byte_of (Z.of_nat i + 1))); drawn := 0 |}.

Fixpoint increasing (l : list Z) : bool :=
  match l with
  | a :: (b :: _) as rest => (a <? b) && increasing rest
  | _ => true
  end.

Lemma increasing_above (a b : Z) (l : list Z) : increasing (a :: l) = true -> b ∈ l -> a < b.
Proof.
  revert a. induction l as [|c l IH]; intros a Hl Hb; [by apply not_elem_of_nil in Hb|].
  simpl in Hl. apply andb_true_iff in Hl as [Hac%Z.ltb_lt Hl]. apply elem_of_cons in Hb as [->|Hb]; [done|].
  specialize (IH c Hl Hb). lia.
Qed.

Lemma increasing_nodup (l : list Z) : increasing l = true -> NoDup l.
Proof.
  induction l as [|a l IH]; intros Hl; constructor.
  - intros Ha. pose proof (increasing_above a a l Hl Ha). lia.
  - apply IH. destruct l; [done|]. simpl in Hl. by apply andb_true_iff in Hl as [_ Hl].
Qed.

Lemma toy_rsa_exponents : rsa_exponents toy_primes 3 toy_private_exponent.
Proof.
  split.
  - apply increasing_nodup. reflexivity.
  - assert (H : forallb prime_by_trial toy_primes = true) by (vm_compute; reflexivity).
    apply list.Forall_forall. intros p Hp. rewrite forallb_forall in H.
    apply prime_by_trial_prime, H, list_elem_of_In, Hp.
  - split; reflexivity.
  - assert (H : forallb (fun p => 3 * toy_private_exponent mod (p - 1) =? 1 mod (p - 1)) toy_primes = true)
      by (vm_compute; reflexivity).
    apply list.Forall_forall. intros p Hp. rewrite forallb_forall in H. apply list_elem_of_In, H, Z.eqb_eq in Hp. exact Hp.
Qed.

Lemma server_reads_padded_data_witness :
  exists encrypted padding,
    snd (rsa_pad_with_random (bytes_of "inner data") toy_rsa_key toy_source) = Ok encrypted
    /\ rsa_unpad toy_private_exponent (product toy_primes) encrypted = Some (bytes_of "inner data" ++ padding)%list.
Proof.
  assert (Hn : be_value (rsa_modulus toy_rsa_key) = product toy_primes).
  { apply fixed_256_value, Z.lt_le_incl, product_pos. apply (re_primes _ _ _ toy_rsa_exponents). }
  assert (Hg : source_exact toy_source) by (intros i n l [= <-]; apply length_replicate).
  pose proof (server_reads_padded_data toy_primes toy_private_exponent toy_rsa_key (bytes_of "inner data") toy_source Hn
    toy_rsa_exponents Hg) as H.
  assert (Hblock : exists block,
    rsa_block (bytes_of "inner data") (replicate 182 (byte_of 1)) (replicate 32 (byte_of 2)) = Ok block
    /\ be_value block < product toy_primes).
  { eexists. split; [vm_compute; reflexivity|]. apply Z.ltb_lt. vm_compute. reflexivity. }
  destruct Hblock as (block & Hblock & Hlt).
  assert (Hbits : big_bits (product toy_primes) = 2048) by (vm_compute; reflexivity).
  assert (Hok : is_ok (snd (rsa_pad_with_random (bytes_of "inner data") toy_rsa_key toy_source)) = true).
  { unfold rsa_pad_with_random. rewrite Hn, Hbits. cbn [Z.ltb Z.compare].
    change (is_ok (snd (rsa_pad_loop 128 (bytes_of "inner data") 3 (product toy_primes) toy_source)) = true).
    rewrite (rsa_pad_loop_first 127 _ _ _ block 3 (product toy_primes) toy_source eq_refl eq_refl Hblock); [reflexivity|].
    split; [exact Hlt|]. apply Z.lt_le_incl, big_bits_2048; [|exact Hbits]. apply Z.lt_le_incl, product_pos.
    apply (re_primes _ _ _ toy_rsa_exponents). }
  destruct (rsa_pad_with_random (bytes_of "inner data") toy_rsa_key toy_source) as [g' [encrypted|e]]; [|discriminate Hok].
  destruct H as (_ & _ & padding & _ & H). exists encrypted, padding. split; [reflexivity|exact H].
Defined.
