(* ===== verification/KeyAgreement.v ===== *)
(** * The key exchange with an honest server: both ends compute the same key *)

From S2P Require Import Prelude Text Maps Bytes Tl Crypto Api Numbers Handshake KeyTransport.

(** ** The key exchange with an honest server

    The server's half of the Diffie-Hellman exchange, as the protocol prescribes
    it, and that the client reads its answer as it was meant. *)

(** ** Parsers at the end of their input *)

(** The size of a byte string on the wire. *)
Lemma packed_length (l : list ascii) :
  size_of l <= 0xffff -> size_of l + 1 <= size_of (packed l) <= size_of l + 8.
Proof.
  intros Hl. unfold packed. rewrite !length_app, length_replicate. unfold header_of.
  assert (Hpad : forall z, 0 <= padding_length z < 4) by (intros z; apply Z.mod_pos_bound; lia).
  destruct (_ <? _); simpl length.
  - pose proof (Hpad (Z.of_nat 1 + size_of l)). lia.
  - pose proof (Hpad (Z.of_nat 4 + size_of l)). lia.
Qed.

Lemma eqb_refl (l : list ascii) : eqb l l = true.
Proof. by apply eqb_spec. Qed.

Section ends.
Variables max_bytes max_vector_length : Z.

Definition reader_at (input : list ascii) (offset : Z) : TlReader := {|
  r_input := input; r_offset := offset; r_max_bytes := max_bytes; r_max_vector_length := max_vector_length |}.

(** Standing before [l] at the end of the input, the parser reads all of it. *)
Definition ends {E A : Type} (m : TlParser E A) (l : list ascii) (a : A) : Prop :=
  forall pre, size_of (pre ++ l) <= u64_max ->
    m (reader_at (pre ++ l) (size_of pre)) = (reader_at (pre ++ l) (size_of (pre ++ l)), Ok a).

Lemma ends_bind {E A B : Type} (m : TlParser E A) (f : A -> TlParser E B) l k a b :
  reads max_bytes max_vector_length m l a -> ends (f a) k b -> ends (m ≫= f) (l ++ k) b.
Proof.
  intros Hm Hf pre Hlen. unfold mbind, parser_bind, reader_at. rewrite Hm by done.
  rewrite app_assoc in Hlen |- *. by apply Hf.
Qed.

Lemma ends_pure {E A B : Type} (m : TlParser E A) (f : A -> TlParser E B) k a b :
  reads max_bytes max_vector_length m [] a -> ends (f a) k b -> ends (m ≫= f) k b.
Proof. intros Hm Hf. exact (ends_bind m f [] k a b Hm Hf). Qed.

Lemma ends_finished {A : Type} (a : A) : ends (hs_finished ;; mret a) [] a.
Proof.
  intros pre Hlen. rewrite app_nil_r. unfold hs_finished, with_reader, mbind, parser_bind, refuse_if, is_finished, remaining.
  cbn [r_input r_offset reader_at]. by rewrite Z.sub_diag.
Qed.

Lemma ends_run {A : Type} (m : TlParser HandshakeError A) (l : list ascii) (a : A) :
  ends m l a -> size_of l <= u64_max -> hs_run m (reader_at l 0) = Ok a.
Proof. intros Hm Hl. unfold hs_run. specialize (Hm [] Hl). change (size_of []) with 0 in Hm. cbn [app] in Hm. by rewrite Hm. Qed.

(** A parser whose answer ends with its position. *)
Definition reads_to {E A : Type} (m : TlParser E A) (l : list ascii) (f : Z -> A) : Prop :=
  forall pre rest, size_of (pre ++ l ++ rest) <= u64_max ->
    m (reader_at (pre ++ l ++ rest) (size_of pre)) = (reader_at (pre ++ l ++ rest) (size_of (pre ++ l)), Ok (f (size_of (pre ++ l)))).

Lemma reads_to_bind {E A B : Type} (m : TlParser E A) (f : A -> TlParser E B) l k a b :
  reads max_bytes max_vector_length m l a -> reads_to (f a) k b -> reads_to (m ≫= f) (l ++ k) b.
Proof.
  intros Hm Hf pre rest Hlen. unfold mbind, parser_bind, reader_at. rewrite <- app_assoc in Hlen |- *.
  rewrite Hm by done. rewrite app_assoc in Hlen |- *. unfold reads_to, reader_at in Hf. rewrite Hf by done. by rewrite <- !app_assoc.
Qed.

Lemma reads_to_last {E A B : Type} (m : TlParser E A) (f : A -> TlParser E B) l a b :
  reads max_bytes max_vector_length m l a -> reads_to (f a) [] b -> reads_to (m ≫= f) l b.
Proof. intros Hm Hf. rewrite <- (app_nil_r l). by eapply reads_to_bind. Qed.

Lemma reads_to_pure {E A B : Type} (m : TlParser E A) (f : A -> TlParser E B) k a b :
  reads max_bytes max_vector_length m [] a -> reads_to (f a) k b -> reads_to (m ≫= f) k b.
Proof. intros Hm Hf. exact (reads_to_bind m f [] k a b Hm Hf). Qed.

(** Run from the start, it answers with the size of what it read. *)
Lemma reads_to_run {A : Type} (m : TlParser HandshakeError A) (l rest : list ascii) (f : Z -> A) :
  reads_to m l f -> size_of (l ++ rest) <= u64_max -> hs_run m (reader_at (l ++ rest) 0) = Ok (f (size_of l)).
Proof.
  intros Hm Hl. unfold hs_run. specialize (Hm [] rest Hl). change (size_of []) with 0 in Hm. cbn [app] in Hm.
  by rewrite Hm.
Qed.

Lemma reads_passes {E : Type} (bad : bool) (e : E) :
  bad = false -> reads max_bytes max_vector_length (refuse_if bad e) [] tt.
Proof. intros ->. apply reads_ret. Qed.

Lemma reads_result {A : Type} (r : result HandshakeError A) (a : A) :
  r = Ok a -> reads max_bytes max_vector_length (hs_result r) [] a.
Proof. intros -> pre rest _. unfold hs_result. by rewrite app_nil_r. Qed.

Lemma validate_nonce_pair_same (nonce server_nonce : list ascii) :
  validate_nonce_pair nonce server_nonce nonce server_nonce = Ok tt.
Proof. unfold validate_nonce_pair. by rewrite !(proj2 (eqb_spec _ _)). Qed.

Lemma reads_to_position {E A : Type} (f : Z -> A) :
  reads_to (E := E) (with_reader (fun r => mret (f (position r)))) [] f.
Proof. intros pre rest _. unfold with_reader, position, mret, parser_ret, reader_at. simpl. by rewrite app_nil_r. Qed.

(** The last step that reads. *)
Lemma reads_last {E A B : Type} (m : TlParser E A) (f : A -> TlParser E B) l a b :
  reads max_bytes max_vector_length m l a -> reads max_bytes max_vector_length (f a) [] b ->
  reads max_bytes max_vector_length (m ≫= f) l b.
Proof. intros Hm Hf. rewrite <- (app_nil_r l). by eapply reads_bind. Qed.

Lemma reads_nonces (nonce server_nonce : list ascii) :
  length nonce = 16%nat -> length server_nonce = 16%nat ->
  reads max_bytes max_vector_length (check_nonces nonce server_nonce) (nonce ++ server_nonce) tt.
Proof.
  intros Hn Hs. unfold check_nonces. eapply reads_bind; [apply reads_lift, reads_take; lia|].
  eapply reads_last; [apply reads_lift, reads_take; lia|].
  apply reads_result, validate_nonce_pair_same.
Qed.

Lemma reads_hs_u32 (z : Z) : 0 <= z < 2 ^ 32 -> reads max_bytes max_vector_length (hs read_u32) (le_bytes 4 z) z.
Proof. intros Hz. by apply reads_lift, reads_u32. Qed.
End ends.

(** ** The server *)

Definition dh_prime : Z := KNOWN_DH_PRIME.

Record DhServer := {
  sv_generator : Z;
  sv_exponent : Z;
  sv_time : Z;
}.

Definition server_public (s : DhServer) : Z := modpow (sv_generator s) (sv_exponent s) dh_prime.

(** Parameters that the client is meant to accept. *)
Record server_ok (s : DhServer) : Prop := {
  so_generator : generator_is_valid (sv_generator s) dh_prime = true;
  so_exponent : 0 <= sv_exponent s;
  so_public : validate_dh_public_value dh_prime (server_public s) = Ok tt;
  so_time : - 2 ^ 31 <= sv_time s < 2 ^ 31;
}.

Section server.
Context `{MC : MtCipher}.

Definition server_dh_inner (s : DhServer) (nonce server_nonce : list ascii) : list ascii :=
  (le_bytes 4 SERVER_DH_INNER_DATA_CONSTRUCTOR ++ nonce ++ server_nonce ++ le_bytes 4 (sv_generator s)
   ++ packed known_dh_prime_bytes ++ packed (to_bytes_be (server_public s)) ++ le_bytes 4 (sv_time s))%list.

Definition padding_to_block (n : nat) : nat := ((16 - n mod 16) mod 16)%nat.

(** The body of the server's answer, padded with [filler]. *)
Definition server_dh_answer (s : DhServer) (filler : ascii) (nonce server_nonce new_nonce : list ascii) :
    result CryptoError (list ascii) :=
  let inner := server_dh_inner s nonce server_nonce in
  let plain := (mt_sha1 inner ++ inner ++ replicate (padding_to_block (20 + length inner)) filler)%list in
  let '(key, iv) := derive_tmp_aes_key_iv new_nonce server_nonce in
  encrypted ← aes_ige_encrypt plain key iv;
  Ok (le_bytes 4 SERVER_DH_PARAMS_OK_CONSTRUCTOR ++ nonce ++ server_nonce ++ packed encrypted)%list.

(** What the server makes of the client's request: the retry identifier and the
    client's public value. *)
Definition parse_set_client (nonce server_nonce : list ascii) : HsParser (list ascii) :=
  constructor ← hs read_u32;
  refuse_if (negb (constructor =? SET_CLIENT_DH_PARAMS_CONSTRUCTOR)) (HsUnexpectedConstructor constructor) ;;
  check_nonces nonce server_nonce ;;
  encrypted ← hs read_bytes;
  hs_finished ;;
  mret encrypted.

Definition parse_client_inner (nonce server_nonce : list ascii) : HsParser (Z * list ascii * Z) :=
  constructor ← hs read_u32;
  refuse_if (negb (constructor =? CLIENT_DH_INNER_DATA_CONSTRUCTOR)) (HsUnexpectedConstructor constructor) ;;
  check_nonces nonce server_nonce ;;
  retry_id ← hs read_u64;
  g_b ← hs read_bytes;
  with_reader (fun r => mret ((retry_id, g_b), position r)).

Definition server_open (nonce server_nonce new_nonce body : list ascii) : result HandshakeError (Z * Z) :=
  encrypted ← hs_run (parse_set_client nonce server_nonce) (reader_new body);
  let '(key, iv) := derive_tmp_aes_key_iv new_nonce server_nonce in
  plain ← map_err HsCrypto (aes_ige_decrypt encrypted key iv);
  let answer := drop 20 plain in
  '(retry_id, g_b, stop) ← hs_run (parse_client_inner nonce server_nonce) (reader_new answer);
  reject_if (negb (eqb (take 20 plain) (mt_sha1 (take (Z.to_nat stop) answer)))) HsServerDhHashMismatch ;;
  reject_if (15 <? size_of answer - stop) (HsInvalidServerDhPadding (size_of answer - stop)) ;;
  Ok (retry_id, be_value g_b).

(** The key the server computes, and its confirmation. *)
Definition server_key (s : DhServer) (g_b : Z) : list ascii := fixed_256 (modpow g_b (sv_exponent s) dh_prime).

Definition dh_gen_ok_body (nonce server_nonce new_nonce key : list ascii) : list ascii :=
  (le_bytes 4 DH_GEN_OK_CONSTRUCTOR ++ nonce ++ server_nonce ++ dh_gen_hash new_nonce 1 (aux_hash_of key))%list.

Context `{!MtCipherLaws MC}.

(** ** The numbers *)

Lemma known_prime_bytes : length known_dh_prime_bytes = 256%nat /\ be_value known_dh_prime_bytes = dh_prime.
Proof.
  split; [|by apply be_value_to_bytes].
  unfold known_dh_prime_bytes, to_bytes_be. rewrite length_rev, le_bytes_length. vm_compute. reflexivity.
Qed.

Lemma dh_prime_bound : 0 < dh_prime <= bound_2048.
Proof. split; [reflexivity|]. apply Z.leb_le. vm_compute. reflexivity. Qed.

Lemma dh_prime_bits : big_bits dh_prime = 2048.
Proof. vm_compute. reflexivity. Qed.

Opaque dh_prime known_dh_prime_bytes modpow to_bytes_be.

Lemma modpow_range (b e : Z) : 0 <= modpow b e dh_prime < bound_2048.
Proof. apply modpow_bound, dh_prime_bound. Qed.

Lemma modpow_bytes (b e : Z) : (0 < length (to_bytes_be (modpow b e dh_prime)) <= 256)%nat.
Proof.
  split; [|apply to_bytes_256, modpow_range]. pose proof (to_bytes_nonempty (modpow b e dh_prime)).
  destruct (to_bytes_be _); [done|]. apply Nat.lt_0_succ.
Qed.

Lemma modpow_fixed (b e : Z) : biguint_to_fixed_256 (modpow b e dh_prime) = Ok (fixed_256 (modpow b e dh_prime)).
Proof.
  unfold biguint_to_fixed_256. pose proof (modpow_bytes b e) as Hl. by rewrite (proj2 (Z.ltb_ge _ _)) by lia.
Qed.

Lemma modpow_agree (g a b : Z) : 0 <= a -> 0 <= b ->
  modpow (modpow g a dh_prime) b dh_prime = modpow (modpow g b dh_prime) a dh_prime.
Proof.
  intros Ha Hb. pose proof dh_prime_bound. rewrite !modpow_power, !Z.mod_pow_l, <- !Z.pow_mul_r by lia.
  by rewrite Z.mul_comm.
Qed.

Lemma generator_small (g p : Z) : generator_is_valid g p = true -> 2 <= g <= 7.
Proof.
  unfold generator_is_valid. intros H.
  repeat match type of H with context [if ?c then _ else _] => destruct c eqn:? end; lia.
Qed.

Lemma dh_sizes_accepted (g n : Z) :
  2 <= g <= 7 -> 0 < n <= 256 ->
  negb ((2 <=? g) && (g <=? 7)) || negb (Z.of_nat 256 =? 256) || (n =? 0) || (256 <? n) = false.
Proof.
  intros Hg Hn. rewrite (proj2 (Z.leb_le 2 g)), (proj2 (Z.leb_le g 7)), (proj2 (Z.eqb_neq n 0)), (proj2 (Z.ltb_ge 256 n)) by lia.
  done.
Qed.

(** The temporary key and vector have the sizes the cipher wants. *)
Lemma tmp_key_lengths (new_nonce server_nonce : list ascii) :
  length new_nonce = 32%nat ->
  length (derive_tmp_aes_key_iv new_nonce server_nonce).1 = 32%nat
  /\ length (derive_tmp_aes_key_iv new_nonce server_nonce).2 = 32%nat.
Proof.
  intros Hn. unfold derive_tmp_aes_key_iv. cbn [fst snd].
  rewrite !length_app, !sub_length, !mt_sha1_length by (rewrite ?mt_sha1_length; lia). done.
Qed.

Lemma padding_to_block_whole (n : nat) : ((n + padding_to_block n) mod 16 = 0)%nat /\ (padding_to_block n < 16)%nat.
Proof.
  unfold padding_to_block. pose proof (Nat.mod_upper_bound n 16). pose proof (Nat.div_mod_eq n 16) as Hn.
  split; [|by apply Nat.mod_upper_bound]. destruct (decide (n mod 16 = 0)%nat) as [H0|H0].
  - rewrite H0. change ((16 - 0) mod 16)%nat with 0%nat. by rewrite Nat.add_0_r.
  - rewrite (Nat.mod_small (16 - n mod 16)) by lia.
    replace (n + (16 - n mod 16))%nat with ((n / 16 + 1) * 16)%nat by lia. by apply Nat.Div0.mod_mul.
Qed.

Lemma whole_blocks_padded (l pad : list ascii) :
  l <> [] -> length pad = padding_to_block (length l) -> whole_blocks (l ++ pad) = true.
Proof.
  intros Hl Hp. destruct (padding_to_block_whole (length l)) as [Hmod _]. apply whole_blocks_spec.
  rewrite length_app, Hp. pose proof (Nat.div_mod_eq (length l + padding_to_block (length l)) 16).
  destruct l; [done|]. simpl in *. lia.
Qed.

(** ** The client reads the server's answer *)

Section exchange.
Context (nonce server_nonce new_nonce : list ascii).
Hypothesis nonce_length : length nonce = 16%nat.
Hypothesis server_nonce_length : length server_nonce = 16%nat.
Hypothesis new_nonce_length : length new_nonce = 32%nat.

Lemma parse_server_dh_params_answer (encrypted : list ascii) :
  size_of encrypted <= 0xffff ->
  parse_server_dh_params (le_bytes 4 SERVER_DH_PARAMS_OK_CONSTRUCTOR ++ nonce ++ server_nonce ++ packed encrypted)
    nonce server_nonce = Ok (ServerDhOk encrypted).
Proof.
  intros Hl. unfold parse_server_dh_params. apply (ends_run DEFAULT_MAX_PLAINTEXT_BODY 64).
  - unfold parse_server_dh_params_body. eapply ends_bind; [apply reads_hs_u32; unfold SERVER_DH_PARAMS_OK_CONSTRUCTOR; lia|].
    rewrite app_assoc. eapply ends_bind; [by apply reads_nonces|].
    rewrite Z.eqb_refl, <- (app_nil_r (packed encrypted)). eapply ends_bind; [|apply ends_finished].
    apply (reads_then_ret _ _ (hs read_bytes) ServerDhOk). apply reads_lift, reads_bytes.
    unfold DEFAULT_MAX_PLAINTEXT_BODY. lia.
  - pose proof (packed_length encrypted Hl). rewrite !length_app, le_bytes_length. unfold u64_max. lia.
Qed.

Definition client_view (s : DhServer) : ServerDhInnerData := {|
  sd_nonce := nonce; sd_server_nonce := server_nonce; sd_generator := sv_generator s;
  sd_dh_prime := known_dh_prime_bytes; sd_g_a := to_bytes_be (server_public s); sd_server_time := sv_time s |}.

Lemma parse_server_dh_inner_answer (s : DhServer) (pad : list ascii) :
  server_ok s -> (length pad < 16)%nat ->
  hs_run (parse_server_dh_inner nonce server_nonce)
    (reader_with_limits (server_dh_inner s nonce server_nonce ++ pad) (1024 * 1024) 64)
  = Ok (client_view s, size_of (server_dh_inner s nonce server_nonce)).
Proof.
  intros [Hgen Hexp Hpub Htime] Hpad. destruct known_prime_bytes as [Hprime _].
  assert (Hga : (0 < length (to_bytes_be (server_public s)) <= 256)%nat) by apply modpow_bytes.
  pose proof (generator_small _ _ Hgen).
  apply (reads_to_run (1024 * 1024) 64 (parse_server_dh_inner nonce server_nonce) _ pad (fun n => (client_view s, n))).
  - unfold parse_server_dh_inner, server_dh_inner.
    eapply reads_to_bind; [apply reads_hs_u32; unfold SERVER_DH_INNER_DATA_CONSTRUCTOR; lia|].
    eapply reads_to_pure; [apply reads_passes; by rewrite Z.eqb_refl|].
    eapply reads_to_bind; [apply reads_lift, reads_take; lia|].
    eapply reads_to_bind; [apply reads_lift, reads_take; lia|].
    eapply reads_to_pure; [apply reads_result, validate_nonce_pair_same|].
    eapply reads_to_bind; [apply reads_lift, reads_i32; lia|].
    eapply reads_to_bind; [apply reads_lift, reads_bytes; lia|].
    eapply reads_to_bind; [apply reads_lift, reads_bytes; lia|].
    eapply reads_to_last; [apply reads_lift, reads_i32; lia|].
    apply (reads_to_position _ _ (fun n => (client_view s, n))).
  - unfold server_dh_inner. rewrite !length_app, !le_bytes_length.
    pose proof (packed_length known_dh_prime_bytes ltac:(lia)). pose proof (packed_length (to_bytes_be (server_public s)) ltac:(lia)).
    unfold u64_max. lia.
Qed.

Lemma server_dh_inner_length (s : DhServer) :
  server_ok s -> (length known_dh_prime_bytes <= length (server_dh_inner s nonce server_nonce) <= 1000)%nat.
Proof.
  intros Hs. destruct known_prime_bytes as [Hprime _].
  assert (Hga : (0 < length (to_bytes_be (server_public s)) <= 256)%nat) by apply modpow_bytes.
  unfold server_dh_inner. rewrite !length_app, !le_bytes_length.
  pose proof (packed_length known_dh_prime_bytes ltac:(lia)). pose proof (packed_length (to_bytes_be (server_public s)) ltac:(lia)).
  lia.
Qed.

Lemma client_view_valid (s : DhServer) : server_ok s -> validate_server_dh_parameters (client_view s) = Ok tt.
Proof.
  intros [Hgen Hexp Hpub Htime]. destruct known_prime_bytes as [Hlen Hval].
  pose proof (modpow_range (sv_generator s) (sv_exponent s)) as Hrange.
  unfold validate_server_dh_parameters, client_view. cbn [sd_dh_prime sd_generator sd_g_a].
  rewrite Hlen, Hval. change (Z.of_nat 256 =? 256) with true.
  rewrite dh_prime_bits. rewrite Hgen. rewrite be_value_to_bytes by apply Hrange.
  rewrite eqb_refl.
  cbn [Z.eqb Pos.eqb negb reject_if mbind result_bind]. by rewrite Hpub.
Qed.

(** What is sealed under the nonces decrypts to what its parser reads, when that
    passes the checks. *)
Lemma decrypt_sealed (inner pad encrypted : list ascii) (data : ServerDhInnerData) :
  (60 < length inner <= 1000)%nat -> length pad = padding_to_block (length (mt_sha1 inner ++ inner)) ->
  aes_ige_encrypt (mt_sha1 inner ++ inner ++ pad) (derive_tmp_aes_key_iv new_nonce server_nonce).1
    (derive_tmp_aes_key_iv new_nonce server_nonce).2 = Ok encrypted ->
  hs_run (parse_server_dh_inner nonce server_nonce) (reader_with_limits (inner ++ pad) (1024 * 1024) 64)
  = Ok (data, size_of inner) ->
  2 <= sd_generator data <= 7 -> length (sd_dh_prime data) = 256%nat -> (0 < length (sd_g_a data) <= 256)%nat ->
  validate_server_dh_parameters data = Ok tt ->
  size_of encrypted <= 0xffff /\ decrypt_server_dh_inner_data encrypted new_nonce nonce server_nonce = Ok data.
Proof.
  intros Hinner Hpad Henc Hparse Hg Hprime Hga Hvalid.
  destruct (tmp_key_lengths new_nonce server_nonce new_nonce_length) as [Hk Hiv].
  destruct (padding_to_block_whole (length (mt_sha1 inner ++ inner))) as [_ Hpad16].
  unfold decrypt_server_dh_inner_data.
  destruct (derive_tmp_aes_key_iv new_nonce server_nonce) as [key iv]. cbn [fst snd] in Hk, Hiv, Henc.
  assert (Hlen : length encrypted = (20 + length inner + length pad)%nat).
  { apply aes_ige_encrypt_length in Henc; [|done..]. rewrite Henc, !length_app, mt_sha1_length. lia. }
  split; [lia|].
  apply aes_ige_inverse in Henc; [|done..]. rewrite Henc.
  assert (Hw : whole_blocks encrypted = true) by (unfold aes_ige_decrypt in Henc; by destruct (whole_blocks encrypted)).
  apply whole_blocks_spec in Hw as [Hpos Hblocks].
  rewrite (proj2 (Z.eqb_neq (size_of encrypted) 0)) by lia.
  replace (size_of encrypted mod 16) with 0 by (rewrite Hblocks, Nat2Z.inj_mul, Z.mul_comm; symmetry; apply Z.mod_mul; lia).
  cbn [Z.eqb negb orb reject_if mbind result_bind map_err].
  rewrite (proj2 (Z.ltb_ge (size_of (mt_sha1 inner ++ inner ++ pad)) _)) by (rewrite !length_app, mt_sha1_length; lia).
  cbn [reject_if mbind result_bind].
  rewrite take_app_length', drop_app_length' by (by rewrite mt_sha1_length).
  rewrite Hparse. cbn [mbind result_bind].
  rewrite length_app. replace (Z.max 0 (Z.of_nat (length inner + length pad) - size_of inner)) with (size_of pad) by lia.
  rewrite (proj2 (Z.ltb_ge 15 (size_of pad))) by lia. cbn [reject_if mbind result_bind].
  rewrite Nat2Z.id, (take_app_length inner pad), eqb_refl. cbn [negb reject_if mbind result_bind].
  rewrite Hprime, (dh_sizes_accepted (sd_generator data) (size_of (sd_g_a data)) Hg) by lia.
  cbn [reject_if mbind result_bind]. by rewrite Hvalid.
Qed.

(** The encrypted part of the server's answer is read back as what the server meant. *)
Lemma server_dh_answer_read (s : DhServer) (filler : ascii) :
  server_ok s -> exists encrypted,
    server_dh_answer s filler nonce server_nonce new_nonce
    = Ok (le_bytes 4 SERVER_DH_PARAMS_OK_CONSTRUCTOR ++ nonce ++ server_nonce ++ packed encrypted)%list
    /\ size_of encrypted <= 0xffff
    /\ decrypt_server_dh_inner_data encrypted new_nonce nonce server_nonce = Ok (client_view s).
Proof.
  intros Hs. pose proof (server_dh_inner_length s Hs) as Hinner. destruct known_prime_bytes as [Hprime _].
  rewrite Hprime in Hinner. pose proof (parse_server_dh_inner_answer s) as Hparse.
  unfold server_dh_answer. set (inner := server_dh_inner s nonce server_nonce) in *. clearbody inner.
  set (pad := replicate (padding_to_block (20 + length inner)) filler).
  assert (Hpad : length pad = padding_to_block (length (mt_sha1 inner ++ inner)))
    by (unfold pad; by rewrite length_replicate, length_app, mt_sha1_length).
  clearbody pad. destruct (padding_to_block_whole (length (mt_sha1 inner ++ inner))) as [_ Hpad16].
  assert (Hwhole : whole_blocks (mt_sha1 inner ++ inner ++ pad) = true).
  { rewrite app_assoc. apply whole_blocks_padded; [|done]. intros He. apply (f_equal length) in He.
    rewrite length_app, mt_sha1_length in He. simpl in He. lia. }
  destruct (aes_ige_encrypt_total _ (derive_tmp_aes_key_iv new_nonce server_nonce).1
    (derive_tmp_aes_key_iv new_nonce server_nonce).2 Hwhole) as [encrypted Henc].
  exists encrypted. split.
  { destruct (derive_tmp_aes_key_iv new_nonce server_nonce) as [key iv]. cbn [fst snd] in Henc. by rewrite Henc. }
  apply (decrypt_sealed inner pad encrypted (client_view s)).
  - lia.
  - exact Hpad.
  - exact Henc.
  - apply Hparse; [exact Hs|lia].
  - exact (generator_small _ _ (so_generator _ Hs)).
  - exact Hprime.
  - apply modpow_bytes.
  - exact (client_view_valid s Hs).
Qed.
End exchange.
End server.

(** ** Both ends of the key exchange compute the same key *)

Section agreement.
Context `{MC : MtCipher, !MtCipherLaws MC}.
Context (nonce server_nonce new_nonce : list ascii).
Hypothesis nonce_length : length nonce = 16%nat.
Hypothesis server_nonce_length : length server_nonce = 16%nat.
Hypothesis new_nonce_length : length new_nonce = 32%nat.

Notation the_view := (client_view nonce server_nonce).

(** ** The client's answer *)

(** A source that never fails. *)
Definition source_works (g : Rng) : Prop := forall i n, exists l, draw g i n = Some l /\ length l = n.

Lemma fill_random_works (n : nat) (g : Rng) :
  source_works g -> exists l g', fill_random n g = (g', Ok l) /\ length l = n /\ source_works g'.
Proof.
  intros Hg. destruct (Hg (drawn g) n) as (l & Hl & Hn). unfold fill_random. rewrite Hl.
  exists l. eexists. split; [reflexivity|]. split; [done|exact Hg].
Qed.

Definition client_inner (retry_id g_b : Z) : list ascii :=
  (le_bytes 4 CLIENT_DH_INNER_DATA_CONSTRUCTOR ++ nonce ++ server_nonce ++ le_bytes 8 retry_id
   ++ packed (to_bytes_be g_b))%list.

Lemma build_client_dh_inner_ok (s : DhServer) (retry_id b : Z) :
  let g_b := modpow (sv_generator s) b dh_prime in
  build_client_dh_inner (the_view s) retry_id g_b = Ok (client_inner retry_id g_b).
Proof.
  intros g_b. pose proof (modpow_bytes (sv_generator s) b) as Hl. fold g_b in Hl.
  unfold build_client_dh_inner, biguint_to_minimal_be, write_seq, sure. cbn [foldl and_write].
  rewrite write_bytes_packed by lia. cbn [hs_written put w_bytes write_u32 write_i128_bytes write_u64 writer_new].
  unfold client_inner. by rewrite <- !app_assoc.
Qed.

Lemma build_set_client_dh_params_ok (s : DhServer) (encrypted : list ascii) :
  size_of encrypted <= 0xffff ->
  build_set_client_dh_params (the_view s) encrypted
  = Ok (le_bytes 4 SET_CLIENT_DH_PARAMS_CONSTRUCTOR ++ nonce ++ server_nonce ++ packed encrypted)%list.
Proof.
  intros Hl. unfold build_set_client_dh_params, write_seq, sure. cbn [foldl and_write].
  rewrite write_bytes_packed by lia. cbn [hs_written put w_bytes write_u32 write_i128_bytes writer_new].
  by rewrite <- !app_assoc.
Qed.

Lemma client_inner_length (retry_id g_b : Z) :
  (length (to_bytes_be g_b) <= 256)%nat -> (20 < length (client_inner retry_id g_b) <= 400)%nat.
Proof.
  intros Hl. unfold client_inner. pose proof (packed_length (to_bytes_be g_b) ltac:(lia)).
  rewrite !length_app, !le_bytes_length. lia.
Qed.

Lemma fixed_256_key (z : Z) : 0 <= z < bound_2048 -> auth_key_from_slice (fixed_256 z) = Ok (MkAuthKey (fixed_256 z)).
Proof. intros Hz. unfold auth_key_from_slice. by rewrite fixed_256_length. Qed.

(** The exponent that [prepare_client_dh] draws. *)
Definition drawn_exponent (g : Rng) : Z :=
  match draw g (drawn g) 256%nat with
  | Some bytes => if be_value bytes =? 0 then 2 else be_value bytes
  | None => 0
  end.

(** The end of [prepare_client_dh], once the key is known. *)
Definition seal_client_dh (s : DhServer) (key_bytes inner : list ascii) : Rand PreparedClientDh :=
  let answer_with_hash := (mt_sha1 inner ++ inner)%list in
  let padding_length := ((16 - length answer_with_hash mod 16) mod 16)%nat in
  padding ← (if Nat.eqb padding_length 0 then mret [] else fill_random padding_length);
  let '(key, iv) := derive_tmp_aes_key_iv new_nonce server_nonce in
  encrypted_data ← rand_of (map_err HsCrypto (aes_ige_encrypt (answer_with_hash ++ padding) key iv));
  request_body ← rand_of (build_set_client_dh_params (the_view s) encrypted_data);
  mret {| pc_request_body := request_body; pc_auth_key := MkAuthKey key_bytes;
          pc_auth_key_aux_hash := aux_hash_of key_bytes;
          pc_server_salt := server_salt_of new_nonce server_nonce |}.

Definition sealed (key_bytes inner : list ascii) (prepared : PreparedClientDh) : Prop :=
  exists encrypted pad,
    prepared = {|
      pc_request_body :=
        (le_bytes 4 SET_CLIENT_DH_PARAMS_CONSTRUCTOR ++ nonce ++ server_nonce ++ packed encrypted)%list;
      pc_auth_key := MkAuthKey key_bytes; pc_auth_key_aux_hash := aux_hash_of key_bytes;
      pc_server_salt := server_salt_of new_nonce server_nonce |}
    /\ size_of encrypted <= 0xffff /\ (length pad < 16)%nat
    /\ aes_ige_decrypt encrypted (derive_tmp_aes_key_iv new_nonce server_nonce).1
         (derive_tmp_aes_key_iv new_nonce server_nonce).2 = Ok (mt_sha1 inner ++ inner ++ pad)%list.

Lemma seal_client_dh_result (s : DhServer) (key_bytes inner : list ascii) (g : Rng) :
  source_works g -> (20 < length inner <= 400)%nat ->
  exists g' prepared, source_works g' /\ seal_client_dh s key_bytes inner g = (g', Ok prepared)
    /\ sealed key_bytes inner prepared.
Proof.
  intros Hg Hinner. destruct (tmp_key_lengths new_nonce server_nonce new_nonce_length) as [Hk Hiv].
  unfold sealed, seal_client_dh.
  destruct (derive_tmp_aes_key_iv new_nonce server_nonce) as [key iv] eqn:Hkeys. cbn [fst snd] in *.
  set (n := length (mt_sha1 inner ++ inner)). change ((16 - n mod 16) mod 16)%nat with (padding_to_block n).
  destruct (padding_to_block_whole n) as [_ Hn].
  assert (Hpad : exists pad g', source_works g' /\ length pad = padding_to_block n
    /\ (if Nat.eqb (padding_to_block n) 0 then mret [] else fill_random (padding_to_block n)) g = (g', Ok pad)).
  { destruct (Nat.eqb_spec (padding_to_block n) 0) as [->|_]; [by exists [], g|].
    destruct (fill_random_works (padding_to_block n) g Hg) as (pad & g' & Hf & Hl & Hg'). by exists pad, g'. }
  destruct Hpad as (pad & g' & Hg' & Hlen & Hfill).
  destruct (aes_ige_encrypt_total ((mt_sha1 inner ++ inner) ++ pad) key iv) as [encrypted Henc].
  { apply whole_blocks_padded; [|done]. intros He. apply (f_equal length) in He. rewrite length_app, mt_sha1_length in He.
    simpl in He. lia. }
  assert (Hsize : length encrypted = (20 + length inner + length pad)%nat).
  { apply aes_ige_encrypt_length in Henc; [|done..]. rewrite Henc, !length_app, mt_sha1_length. lia. }
  exists g', {|
      pc_request_body :=
        (le_bytes 4 SET_CLIENT_DH_PARAMS_CONSTRUCTOR ++ nonce ++ server_nonce ++ packed encrypted)%list;
      pc_auth_key := MkAuthKey key_bytes; pc_auth_key_aux_hash := aux_hash_of key_bytes;
      pc_server_salt := server_salt_of new_nonce server_nonce |}.
  split; [done|]. split.
  - unfold mbind, rand_bind, rand_of. rewrite Hfill, Henc. cbn [map_err].
    by rewrite build_set_client_dh_params_ok by lia.
  - exists encrypted, pad. split; [done|]. split; [lia|]. split; [lia|].
    apply aes_ige_inverse in Henc; [|done..]. by rewrite <- app_assoc in Henc.
Qed.

Lemma prepare_client_dh_result (s : DhServer) (retry_id : Z) (g : Rng) :
  server_ok s -> source_works g ->
  let b := drawn_exponent g in
  0 < b /\ exists g', source_works g' /\
    (validate_dh_public_value dh_prime (modpow (sv_generator s) b dh_prime) = Ok tt ->
       exists prepared, prepare_client_dh (the_view s) new_nonce retry_id g = (g', Ok prepared)
         /\ sealed (fixed_256 (modpow (server_public s) b dh_prime))
              (client_inner retry_id (modpow (sv_generator s) b dh_prime)) prepared)
    /\ (forall e, validate_dh_public_value dh_prime (modpow (sv_generator s) b dh_prime) = Err e ->
         prepare_client_dh (the_view s) new_nonce retry_id g = (g', Err e)).
Proof.
  intros Hs Hg. cbv zeta. destruct (Hg (drawn g) 256%nat) as (eb & Heb & _). unfold drawn_exponent. rewrite Heb.
  set (b := if be_value eb =? 0 then 2 else be_value eb). set (g1 := {| draw := draw g; drawn := S (drawn g) |}).
  assert (Hg1 : source_works g1) by exact Hg.
  assert (Hfill : fill_random 256 g = (g1, Ok eb)) by (unfold fill_random; by rewrite Heb).
  clearbody g1. destruct known_prime_bytes as [_ Hprime].
  assert (Hb : 0 < b) by (unfold b; destruct (Z.eqb_spec (be_value eb) 0); [lia|pose proof (be_value_range eb); lia]).
  set (g_b := modpow (sv_generator s) b dh_prime). set (key_bytes := fixed_256 (modpow (server_public s) b dh_prime)).
  set (inner := client_inner retry_id g_b).
  assert (Hprep : prepare_client_dh (the_view s) new_nonce retry_id g
    = match validate_dh_public_value dh_prime g_b with
      | Err e => (g1, Err e)
      | Ok _ => seal_client_dh s key_bytes inner g1
      end).
  { unfold prepare_client_dh, mbind, rand_bind, rand_of. rewrite (client_view_valid nonce server_nonce s Hs), Hfill.
    fold b. cbn [sd_dh_prime sd_generator sd_g_a client_view]. rewrite Hprime. fold g_b.
    destruct (validate_dh_public_value dh_prime g_b); [|done].
    rewrite be_value_to_bytes by apply modpow_range. rewrite modpow_fixed. fold key_bytes.
    unfold key_bytes. rewrite fixed_256_key by apply modpow_range. fold key_bytes. cbn [map_err].
    unfold g_b. rewrite build_client_dh_inner_ok. fold g_b. fold inner. reflexivity. }
  rewrite Hprep. destruct (seal_client_dh_result s key_bytes inner g1 Hg1) as (g2 & prepared & Hg2 & Hseal & Hshape).
  { apply client_inner_length, modpow_bytes. }
  destruct (validate_dh_public_value dh_prime g_b) as [u|e] eqn:Hval.
  - split; [exact Hb|]. exists g2. split; [exact Hg2|]. split.
    + intros _. exists prepared. split; [exact Hseal|exact Hshape].
    + intros e He. discriminate He.
  - split; [exact Hb|]. exists g1. split; [exact Hg1|]. split.
    + intros He. discriminate He.
    + intros e' He. injection He as <-. exact eq_refl.
Qed.

(** ** The server reads the client's answer *)

Lemma reader_new_at (input : list ascii) :
  reader_new input = reader_at DEFAULT_MAX_BYTES DEFAULT_MAX_VECTOR_LENGTH input 0.
Proof. done. Qed.

Lemma parse_set_client_answer (encrypted : list ascii) :
  size_of encrypted <= 0xffff ->
  hs_run (parse_set_client nonce server_nonce)
    (reader_new (le_bytes 4 SET_CLIENT_DH_PARAMS_CONSTRUCTOR ++ nonce ++ server_nonce ++ packed encrypted)) = Ok encrypted.
Proof.
  intros Hl. rewrite reader_new_at. apply ends_run.
  - unfold parse_set_client. eapply ends_bind; [apply reads_hs_u32; unfold SET_CLIENT_DH_PARAMS_CONSTRUCTOR; lia|].
    eapply ends_pure; [apply reads_passes; by rewrite Z.eqb_refl|].
    rewrite app_assoc. eapply ends_bind; [by apply reads_nonces|].
    rewrite <- (app_nil_r (packed encrypted)). eapply ends_bind; [|apply ends_finished].
    apply reads_lift, reads_bytes. unfold DEFAULT_MAX_BYTES. lia.
  - pose proof (packed_length encrypted Hl). rewrite !length_app, le_bytes_length. unfold u64_max. lia.
Qed.

Lemma parse_client_inner_answer (retry_id g_b : Z) (pad : list ascii) :
  0 <= retry_id < 2 ^ 64 -> (length (to_bytes_be g_b) <= 256)%nat -> (length pad < 16)%nat ->
  hs_run (parse_client_inner nonce server_nonce) (reader_new (client_inner retry_id g_b ++ pad))
  = Ok ((retry_id, to_bytes_be g_b), size_of (client_inner retry_id g_b)).
Proof.
  intros Hretry Hl Hpad. rewrite reader_new_at.
  apply (reads_to_run _ _ (parse_client_inner nonce server_nonce) _ pad (fun n => ((retry_id, to_bytes_be g_b), n))).
  - unfold parse_client_inner, client_inner.
    eapply reads_to_bind; [apply reads_hs_u32; unfold CLIENT_DH_INNER_DATA_CONSTRUCTOR; lia|].
    eapply reads_to_pure; [apply reads_passes; by rewrite Z.eqb_refl|].
    rewrite app_assoc. eapply reads_to_bind; [by apply reads_nonces|].
    eapply reads_to_bind; [by apply reads_lift, reads_u64|].
    eapply reads_to_last; [apply reads_lift, reads_bytes; unfold DEFAULT_MAX_BYTES; lia|].
    apply (reads_to_position _ _ (fun n => ((retry_id, to_bytes_be g_b), n))).
  - pose proof (client_inner_length retry_id g_b Hl). rewrite length_app. unfold u64_max. lia.
Qed.

Lemma server_open_sealed (retry_id g_b : Z) (key_bytes : list ascii) (prepared : PreparedClientDh) :
  0 <= retry_id < 2 ^ 64 -> 0 <= g_b -> (length (to_bytes_be g_b) <= 256)%nat ->
  sealed key_bytes (client_inner retry_id g_b) prepared ->
  server_open nonce server_nonce new_nonce (pc_request_body prepared) = Ok (retry_id, g_b).
Proof.
  intros Hretry Hgb Hl (encrypted & pad & -> & Hsize & Hpad & Hdec). cbn [pc_request_body].
  unfold server_open. rewrite parse_set_client_answer by done. cbn [mbind result_bind].
  destruct (derive_tmp_aes_key_iv new_nonce server_nonce) as [key iv]. cbn [fst snd] in Hdec. rewrite Hdec.
  set (inner := client_inner retry_id g_b). cbn [map_err mbind result_bind].
  rewrite take_app_length', drop_app_length' by (by rewrite mt_sha1_length).
  pose proof (parse_client_inner_answer retry_id g_b pad Hretry Hl Hpad) as Hparse. fold inner in Hparse. rewrite Hparse.
  cbn [mbind result_bind]. rewrite Nat2Z.id, (take_app_length inner pad), eqb_refl. cbn [negb reject_if mbind result_bind].
  rewrite length_app. replace (Z.of_nat (length inner + length pad) - size_of inner) with (size_of pad) by lia.
  rewrite (proj2 (Z.ltb_ge 15 (size_of pad))) by lia. cbn [reject_if mbind result_bind].
  by rewrite be_value_to_bytes.
Qed.

(** ** The confirmation *)

Lemma dh_gen_hash_length (tag aux : Z) : length (dh_gen_hash new_nonce tag aux) = 16%nat.
Proof. unfold dh_gen_hash. by rewrite sub_length by (rewrite mt_sha1_length; lia). Qed.

Lemma parse_dh_gen_ok (key : list ascii) :
  parse_dh_gen_result (dh_gen_ok_body nonce server_nonce new_nonce key) nonce server_nonce new_nonce (aux_hash_of key)
  = Ok DhGenOk.
Proof.
  unfold parse_dh_gen_result.
  assert (Hparse : hs_run (parse_dh_gen_body nonce server_nonce) (reader_new (dh_gen_ok_body nonce server_nonce new_nonce key))
    = Ok (DH_GEN_OK_CONSTRUCTOR, dh_gen_hash new_nonce 1 (aux_hash_of key))).
  { rewrite reader_new_at. apply ends_run.
    - unfold parse_dh_gen_body, dh_gen_ok_body.
      eapply ends_bind; [apply reads_hs_u32; unfold DH_GEN_OK_CONSTRUCTOR; lia|].
      rewrite app_assoc. eapply ends_bind; [by apply reads_nonces|].
      rewrite <- (app_nil_r (dh_gen_hash _ _ _)) at 1. eapply ends_bind; [|apply ends_finished].
      apply reads_lift, reads_take. by rewrite dh_gen_hash_length.
    - unfold dh_gen_ok_body. rewrite !length_app, le_bytes_length, dh_gen_hash_length. unfold u64_max. lia. }
  rewrite Hparse. cbn [mbind result_bind]. rewrite Z.eqb_refl. cbn [mbind result_bind].
  by rewrite eqb_refl.
Qed.

Lemma agreement (s : DhServer) (filler : ascii) (h : AuthKeyHandshake) (g : Rng) (sent received : Z) :
  hs_state h = AwaitingServerDh -> hs_nonce h = nonce -> hs_server_nonce h = Some server_nonce ->
  hs_new_nonce h = Some new_nonce -> server_ok s -> source_works g ->
  let g_b := modpow (sv_generator s) (drawn_exponent g) dh_prime in
  exists body g', server_dh_answer s filler nonce server_nonce new_nonce = Ok body /\
  match validate_dh_public_value dh_prime g_b with
  | Err e => receive_server_dh {| pe_message_id := received; pe_body := body |} sent g h = (h, g', Err e)
  | Ok _ => exists h' request,
      receive_server_dh {| pe_message_id := received; pe_body := body |} sent g h = (h', g', Ok request)
      /\ pe_message_id request = sent
      /\ server_open nonce server_nonce new_nonce (pe_body request) = Ok (0, g_b)
      /\ forall received' retry g'',
        receive_dh_gen {| pe_message_id := received';
                          pe_body := dh_gen_ok_body nonce server_nonce new_nonce (server_key s g_b) |} retry g'' h'
        = (h' ⟪ hs_prepared_client_dh := None ⟫ ⟪ hs_state := HsComplete ⟫, g'',
           Ok (Established {| ek_auth_key := MkAuthKey (server_key s g_b);
                              ek_server_salt := server_salt_of new_nonce server_nonce;
                              ek_server_time := sv_time s |}))
  end.
Proof.
  intros Hstate Hnonce Hsn Hnn Hs Hg g_b.
  destruct (server_dh_answer_read nonce server_nonce new_nonce nonce_length server_nonce_length new_nonce_length s filler Hs)
    as (encrypted & Hbody & Hsize & Hread).
  destruct (prepare_client_dh_result s 0 g Hs Hg) as (Hb & g' & _ & Hok & Herr). fold g_b in Hok, Herr.
  eexists. exists g'. split; [exact Hbody|]. unfold receive_server_dh. rewrite Hstate, Hnn, Hsn, Hnonce. cbn [pe_body].
  unfold answer_server_dh, mbind, rand_bind, rand_of.
  rewrite (parse_server_dh_params_answer _ _ new_nonce) by done. rewrite Hread.
  destruct (validate_dh_public_value dh_prime g_b) as [u|e] eqn:Hval; [|by rewrite (Herr e eq_refl)].
  destruct u. destruct (Hok eq_refl) as (prepared & Hprep & Hsealed). rewrite Hprep. cbn [mret rand_ret].
  do 2 eexists. split; [reflexivity|]. split; [reflexivity|]. split.
  { apply (server_open_sealed 0 _ _ prepared) in Hsealed; [exact Hsealed|lia|apply modpow_range|apply modpow_bytes]. }
  intros received' retry g''. unfold server_key, g_b.
  rewrite (modpow_agree _ (drawn_exponent g) (sv_exponent s)) by (lia || apply Hs). fold (server_public s).
  destruct Hsealed as (enc & pad & -> & _). set (key := fixed_256 _).
  unfold receive_dh_gen. fields. rewrite Hnn, Hsn, Hnonce. cbn [pe_body pc_auth_key_aux_hash].
  rewrite parse_dh_gen_ok. reflexivity.
Qed.

(** C15: The client and an honest server agree on the authorization key.  Let the
    client, whose random source works, be waiting for the server's parameters,
    and the server answer with a
    generator and a public value that the protocol admits, encrypted under both
    nonces.  If the public value of the exponent that the client draws is outside
    the admitted range, the client refuses and stays as it was.  Otherwise it
    sends a request from which the server reads that public value, and the key
    that the server computes from it is the key that the client establishes, with
    the salt and the time they share, when the server confirms it. *)
Theorem client_and_server_agree (s : DhServer) (filler : ascii) (h : AuthKeyHandshake) (g : Rng) (sent received : Z) :
  hs_state h = AwaitingServerDh -> hs_nonce h = nonce -> hs_server_nonce h = Some server_nonce ->
  hs_new_nonce h = Some new_nonce -> server_ok s -> source_works g ->
  let g_b := modpow (sv_generator s) (drawn_exponent g) dh_prime in
  exists body g', server_dh_answer s filler nonce server_nonce new_nonce = Ok body /\
  match validate_dh_public_value dh_prime g_b with
  | Err e => receive_server_dh {| pe_message_id := received; pe_body := body |} sent g h = (h, g', Err e)
  | Ok _ => exists h' request,
      receive_server_dh {| pe_message_id := received; pe_body := body |} sent g h = (h', g', Ok request)
      /\ pe_message_id request = sent
      /\ server_open nonce server_nonce new_nonce (pe_body request) = Ok (0, g_b)
      /\ forall received' retry g'',
        receive_dh_gen {| pe_message_id := received';
                          pe_body := dh_gen_ok_body nonce server_nonce new_nonce (server_key s g_b) |} retry g'' h'
        = (h' ⟪ hs_prepared_client_dh := None ⟫ ⟪ hs_state := HsComplete ⟫, g'',
           Ok (Established {| ek_auth_key := MkAuthKey (server_key s g_b);
                              ek_server_salt := server_salt_of new_nonce server_nonce;
                              ek_server_time := sv_time s |}))
  end.
Proof. apply agreement. Qed.
End agreement.

(** ** A concrete exchange *)

(** Powers of four that the prime does not reduce. *)
Lemma power_of_four_public (e : Z) :
  4 ^ e <? dh_prime = true ->
  (4 ^ e <? Z.shiftl 1 (2048 - 64)) || (dh_prime - Z.shiftl 1 (2048 - 64) <? 4 ^ e) = false ->
  validate_dh_public_value dh_prime (modpow 4 e dh_prime) = Ok tt.
Proof.
  intros Hlt Hrange. rewrite modpow_power, Z.mod_small.
  - unfold validate_dh_public_value. by rewrite Hrange.
  - split; [by apply Z.pow_nonneg|by apply Z.ltb_lt].
  - pose proof dh_prime_bound. lia.
Qed.

Definition toy_server : DhServer := {| sv_generator := 4; sv_exponent := 1000; sv_time := 1700000000 |}.
(** It answers any request with the bytes of one number. *)
Definition steady_source : Rng := {| draw := fun i n => Some (rev (le_bytes n 999)); drawn := 0 |}.
Definition toy_nonce : list ascii := replicate 16 (byte_of 1).
Definition toy_server_nonce : list ascii := replicate 16 (byte_of 2).
Definition toy_new_nonce : list ascii := rev (le_bytes 32 999).
Definition toy_waiting : AuthKeyHandshake := {|
  hs_nonce := toy_nonce; hs_state := AwaitingServerDh; hs_server_nonce := Some toy_server_nonce;
  hs_new_nonce := Some toy_new_nonce; hs_server_dh := None; hs_prepared_client_dh := None |}.

Lemma toy_server_ok : server_ok toy_server.
Proof.
  split; [reflexivity|cbn; lia|apply power_of_four_public; vm_compute; reflexivity|cbn; lia].
Qed.

Lemma steady_source_works : source_works steady_source.
Proof. intros i n. eexists. split; [reflexivity|]. by rewrite length_rev, le_bytes_length. Qed.

Lemma steady_public (g : Rng) :
  draw g = draw steady_source ->
  validate_dh_public_value dh_prime (modpow (sv_generator toy_server) (drawn_exponent g) dh_prime) = Ok tt.
Proof.
  intros Hg. assert (Hexp : drawn_exponent g = 999) by (unfold drawn_exponent; rewrite Hg; vm_compute; reflexivity).
  rewrite Hexp. apply power_of_four_public; vm_compute; reflexivity.
Qed.

Lemma client_and_server_agree_witness :
  exists body h' g' request g_b,
    server_dh_answer toy_server zero toy_nonce toy_server_nonce toy_new_nonce = Ok body
    /\ receive_server_dh {| pe_message_id := 4; pe_body := body |} 8 steady_source toy_waiting = (h', g', Ok request)
    /\ server_open toy_nonce toy_server_nonce toy_new_nonce (pe_body request) = Ok (0, g_b).
Proof.
  destruct (client_and_server_agree toy_nonce toy_server_nonce toy_new_nonce eq_refl eq_refl eq_refl toy_server zero
    toy_waiting steady_source 8 4 eq_refl eq_refl eq_refl eq_refl toy_server_ok steady_source_works)
    as (body & g' & Hbody & H).
  rewrite (steady_public steady_source eq_refl) in H. destruct H as (h' & request & Hrecv & _ & Hopen & _).
  exists body, h', g', request. eexists. split; [exact Hbody|]. split; [exact Hrecv|exact Hopen].
Defined.
