(* ===== verification/HandshakeSafety.v ===== *)
(** * What the state machine of the key exchange guarantees *)

From stdpp Require Import relations.
From S2P Require Import Prelude Text Maps Bytes Crypto Tl Api Numbers Handshake KeyTransport KeyAgreement.

(** ** What a parser that succeeds has read *)

Lemma parser_bind_ok {E A B : Type} (m : TlParser E A) (f : A -> TlParser E B) (r r' : TlReader) (b : B) :
  (m ≫= f) r = (r', Ok b) <-> exists r1 a, m r = (r1, Ok a) /\ f a r1 = (r', Ok b).
Proof.
  unfold mbind, parser_bind. destruct (m r) as [r1 [a|e]]; [|naive_solver]. split; [by exists r1, a|].
  by intros (? & ? & [= <- <-] & ?).
Qed.

Lemma lift_ok {E A : Type} (f : TlError -> E) (m : Reader A) (r r' : TlReader) (a : A) :
  lift_tl f m r = (r', Ok a) <-> m r = (r', Ok a).
Proof. unfold lift_tl. destruct (m r) as [r1 [a'|e]]; simpl; naive_solver. Qed.

Lemma refuse_ok {E : Type} (bad : bool) (e : E) (r r' : TlReader) (u : unit) :
  refuse_if bad e r = (r', Ok u) <-> bad = false /\ r' = r.
Proof. destruct u, bad; simpl; unfold reader_fail, mret, parser_ret; naive_solver. Qed.

Lemma take_bytes_ok (n : Z) (r r' : TlReader) (l : list ascii) :
  take_bytes n r = (r', Ok l) ->
  r_input r' = r_input r /\ r_offset r' = r_offset r + n /\ slice (r_input r) (r_offset r) (r_offset r') = Some l.
Proof.
  unfold take_bytes, checked_add_u64. intros H.
  destruct (checked in_u64 (r_offset r + n)) as [stop|] eqn:Hc; [|done]. apply checked_spec in Hc as [-> _].
  destruct (slice _ _ _) as [v|] eqn:Hs; [|done]. injection H as <- <-. done.
Qed.

Lemma read_u32_ok (r r' : TlReader) (z : Z) :
  read_u32 r = (r', Ok z) -> 0 <= r_offset r ->
  r_input r' = r_input r /\ r_offset r' = r_offset r + 4 /\ slice (r_input r) (r_offset r) (r_offset r') = Some (le_bytes 4 z).
Proof.
  unfold read_u32. intros H Ho. apply parser_bind_ok in H as (r1 & b & Ht & [= <- <-]).
  apply take_bytes_ok in Ht as (Hi & Hoff & Hs). split_and!; [done|done|].
  apply slice_some in Hs as Hlen; [|done]. destruct Hlen as (_ & Hlen & _).
  replace 4%nat with (length b) by lia. by rewrite le_bytes_of.
Qed.

(** A confirmation is exactly its fields. *)
Lemma parse_dh_gen_body_ok (nonce server_nonce input hash : list ascii) (constructor : Z) :
  hs_run (parse_dh_gen_body nonce server_nonce) (reader_new input) = Ok (constructor, hash) ->
  input = (le_bytes 4 constructor ++ nonce ++ server_nonce ++ hash)%list.
Proof.
  unfold hs_run. destruct (parse_dh_gen_body nonce server_nonce (reader_new input)) as [r [p|e]] eqn:H; [|done].
  intros [= ->]. unfold parse_dh_gen_body, check_nonces in H.
  apply parser_bind_ok in H as (r1 & c & H1 & H). apply lift_ok, read_u32_ok in H1 as (I1 & O1 & S1); [|done].
  apply parser_bind_ok in H as (r4 & u & H2 & H).
  apply parser_bind_ok in H2 as (r2 & n & H2 & H3). apply lift_ok, take_bytes_ok in H2 as (I2 & O2 & S2).
  apply parser_bind_ok in H3 as (r3 & sn & H3 & H4). apply lift_ok, take_bytes_ok in H3 as (I3 & O3 & S3).
  unfold hs_result in H4. injection H4 as <- Hv. destruct u.
  unfold validate_nonce_pair in Hv. oks. rename select (eqb n _ = true) into En. rename select (eqb sn _ = true) into Es.
  apply eqb_true in En as ->, Es as ->.
  apply parser_bind_ok in H as (r5 & h & H5 & H). apply lift_ok, take_bytes_ok in H5 as (I5 & O5 & S5).
  apply parser_bind_ok in H as (r6 & u & H6 & [= <- <- <-]).
  unfold hs_finished, with_reader in H6. apply refuse_ok in H6 as [Hfin ->].
  apply negb_false_iff in Hfin. unfold is_finished, remaining in Hfin. apply Z.eqb_eq in Hfin.
  change (r_input (reader_new input)) with input in *. change (r_offset (reader_new input)) with 0 in *.
  rewrite I5, I3, I2, I1, ?O5, ?O3, ?O2, ?O1 in *.
  pose proof (slice_join _ _ _ _ _ _ (Z.le_refl 0) S1 S2) as J1.
  pose proof (slice_join _ _ _ _ _ _ (Z.le_refl 0) J1 S3) as J2.
  pose proof (slice_join _ _ _ _ _ _ (Z.le_refl 0) J2 S5) as J3.
  apply slice_some in J3 as J4; [|lia]. destruct J4 as (Hb & _ & _).
  pose proof (slice_all input) as Hall. replace (size_of input) with (0 + 4 + 16 + 16 + 16) in Hall by lia.
  rewrite J3 in Hall. injection Hall as <-. by rewrite <- !app_assoc.
Qed.

(** ** The machine *)

Lemma rand_bind_ok {A B : Type} (m : Rand A) (f : A -> Rand B) (g g' : Rng) (b : B) :
  (m ≫= f) g = (g', Ok b) <-> exists g1 a, m g = (g1, Ok a) /\ f a g1 = (g', Ok b).
Proof.
  unfold mbind, rand_bind. destruct (m g) as [g1 [a|e]]; [|naive_solver]. split; [by exists g1, a|].
  by intros (? & ? & [= <- <-] & ?).
Qed.

Lemma rand_of_ok {A : Type} (r : result HandshakeError A) (g g' : Rng) (a : A) :
  rand_of r g = (g', Ok a) <-> r = Ok a /\ g' = g.
Proof. unfold rand_of. naive_solver. Qed.

Ltac rand_step :=
  match goal with
  | H : (_ ≫= _) _ = (_, Ok _) |- _ =>
      let g := fresh "g" in let a := fresh "a" in let Ha := fresh "Hrand" in
      apply rand_bind_ok in H as (g & a & Ha & H); cbv beta in H
  | H : rand_of _ _ = (_, Ok _) |- _ => apply rand_of_ok in H as [H ->]
  end.

Section machine.
Context `{MC : MtCipher}.

(** Any method, whatever it is given. *)
Inductive handshake_step (h : AuthKeyHandshake) : AuthKeyHandshake -> Prop :=
| step_begin id : handshake_step h (handshake_begin id h).1
| step_res_pq envelope : handshake_step h (receive_res_pq envelope h).1
| step_req_dh id dc test g : handshake_step h (prepare_req_dh_params id dc test g h).1.1
| step_server_dh envelope id g : handshake_step h (receive_server_dh envelope id g h).1.1
| step_dh_gen envelope id g : handshake_step h (receive_dh_gen envelope id g h).1.1.

(** What the client has prepared for the parameters it accepted. *)
Record prepared_from (sd : ServerDhInnerData) (new_nonce : list ascii) (b : Z) (p : PreparedClientDh) : Prop := {
  pf_valid : validate_server_dh_parameters sd = Ok tt;
  pf_exponent : 0 < b;
  pf_public : validate_dh_public_value dh_prime (modpow (sd_generator sd) b dh_prime) = Ok tt;
  pf_key : pc_auth_key p = MkAuthKey (fixed_256 (modpow (be_value (sd_g_a sd)) b dh_prime));
  pf_aux : pc_auth_key_aux_hash p = aux_hash_of (auth_key_bytes (pc_auth_key p));
  pf_salt : pc_server_salt p = server_salt_of new_nonce (sd_server_nonce sd);
}.

Record awaiting_confirmation (nonce : list ascii) (h : AuthKeyHandshake) (sd : ServerDhInnerData)
    (new_nonce server_nonce : list ascii) (b : Z) (p : PreparedClientDh) : Prop := {
  ac_server_dh : hs_server_dh h = Some sd;
  ac_new_nonce : hs_new_nonce h = Some new_nonce;
  ac_server_nonce : hs_server_nonce h = Some server_nonce;
  ac_prepared : hs_prepared_client_dh h = Some p;
  ac_nonces : sd_nonce sd = nonce /\ sd_server_nonce sd = server_nonce;
  ac_from : prepared_from sd new_nonce b p;
}.

Definition handshake_ok (nonce : list ascii) (h : AuthKeyHandshake) : Prop :=
  hs_nonce h = nonce /\
  match hs_state h with
  | HsReady | AwaitingResPq | HsComplete => True
  | ResPqReceived response => hs_server_nonce h = Some (rp_server_nonce response)
  | AwaitingServerDh => is_Some (hs_new_nonce h) /\ is_Some (hs_server_nonce h)
  | AwaitingDhGen => exists sd nn sn b p, awaiting_confirmation nonce h sd nn sn b p
  end.

Lemma validated_prime (sd : ServerDhInnerData) :
  validate_server_dh_parameters sd = Ok tt -> be_value (sd_dh_prime sd) = dh_prime.
Proof.
  unfold validate_server_dh_parameters. intros H. oks.
  rename select (eqb (sd_dh_prime sd) _ = true) into He. apply eqb_true in He as ->. apply known_prime_bytes.
Qed.

Lemma prepare_client_dh_from (sd : ServerDhInnerData) (new_nonce : list ascii) (retry_id : Z) (g g' : Rng)
    (p : PreparedClientDh) :
  prepare_client_dh sd new_nonce retry_id g = (g', Ok p) -> exists b, prepared_from sd new_nonce b p.
Proof.
  unfold prepare_client_dh. intros H.
  apply rand_bind_ok in H as (g1 & u & Hvalid & H). apply rand_of_ok in Hvalid as [Hvalid ->]. destruct u.
  rewrite (validated_prime sd Hvalid) in H.
  apply rand_bind_ok in H as (g1 & eb & _ & H). set (b := if be_value eb =? 0 then 2 else be_value eb) in H.
  exists b. repeat rand_step. destruct (derive_tmp_aes_key_iv _ _). repeat rand_step.
  injection H as _ <-. rename select (biguint_to_fixed_256 _ = _) into Hfixed. unfold biguint_to_fixed_256 in Hfixed. oks.
  rename select (auth_key_from_slice _ = _) into Hkey. unfold auth_key_from_slice in Hkey.
  destruct (_ =? AUTH_KEY_LENGTH) in Hkey; [|discriminate Hkey]. injection Hkey as <-.
  split; cbn [pc_auth_key pc_auth_key_aux_hash pc_server_salt auth_key_bytes]; try done.
  - unfold b. destruct (Z.eqb_spec (be_value eb) 0); [lia|]. pose proof (be_value_range eb). lia.
  - subst. done.
Qed.

Lemma decrypted_nonces (encrypted new_nonce nonce server_nonce : list ascii) (sd : ServerDhInnerData) :
  decrypt_server_dh_inner_data encrypted new_nonce nonce server_nonce = Ok sd ->
  sd_nonce sd = nonce /\ sd_server_nonce sd = server_nonce.
Proof.
  unfold decrypt_server_dh_inner_data. intros H. ok_step. destruct (derive_tmp_aes_key_iv _ _). okps.
  rename select (hs_run _ _ = Ok _) into Hparse. subst sd. unfold hs_run in Hparse.
  destruct (parse_server_dh_inner _ _ _) as [r [p|e]] eqn:Hp; [|discriminate Hparse].
  cbn [snd] in Hparse. injection Hparse as ->. unfold parse_server_dh_inner in Hp.
  apply parser_bind_ok in Hp as (r1 & c & _ & Hp). apply parser_bind_ok in Hp as (r2 & u & _ & Hp).
  apply parser_bind_ok in Hp as (r3 & n & _ & Hp). apply parser_bind_ok in Hp as (r4 & sn & _ & Hp).
  apply parser_bind_ok in Hp as (r5 & u' & Hv & Hp). unfold hs_result in Hv. injection Hv as <- Hv.
  unfold validate_nonce_pair in Hv. oks. rename select (eqb n _ = true) into En. rename select (eqb sn _ = true) into Es.
  apply eqb_true in En as ->, Es as ->.
  do 4 apply parser_bind_ok in Hp as (? & ? & _ & Hp). unfold with_reader in Hp. by injection Hp as _ <- _.
Qed.

(** ** Every method keeps the machine in order, and an error changes nothing *)

Lemma handshake_new_ok (nonce : list ascii) : handshake_ok nonce (handshake_new nonce).
Proof. done. Qed.

Lemma begin_ok (nonce : list ascii) (id : Z) (h : AuthKeyHandshake) :
  handshake_ok nonce h ->
  handshake_ok nonce (handshake_begin id h).1 /\ (is_ok (handshake_begin id h).2 = false -> (handshake_begin id h).1 = h).
Proof.
  intros Hok. unfold handshake_begin. destruct (hs_state h) eqn:Hst; try by split. destruct Hok as [Hn _]. by split.
Qed.

Lemma receive_res_pq_ok (nonce : list ascii) (envelope : PlaintextEnvelope) (h : AuthKeyHandshake) :
  handshake_ok nonce h ->
  handshake_ok nonce (receive_res_pq envelope h).1
  /\ (is_ok (receive_res_pq envelope h).2 = false -> (receive_res_pq envelope h).1 = h).
Proof.
  intros Hok. unfold receive_res_pq. destruct (hs_state h) eqn:Hst; try by split.
  pose proof Hok as [Hn Hs]. rewrite Hst in Hs.
  destruct (check_res_pq _ _); cbn [fst snd]; by split.
Qed.

Lemma prepare_req_dh_params_ok (nonce : list ascii) (id dc : Z) (test : bool) (g : Rng) (h : AuthKeyHandshake) :
  handshake_ok nonce h ->
  handshake_ok nonce (prepare_req_dh_params id dc test g h).1.1
  /\ (is_ok (prepare_req_dh_params id dc test g h).2 = false -> (prepare_req_dh_params id dc test g h).1.1 = h).
Proof.
  intros Hok. unfold prepare_req_dh_params.
  destruct (hs_state h) as [| |response| | |] eqn:Hst; try by split.
  pose proof Hok as [Hn Hs]. rewrite Hst in Hs.
  destruct (req_dh_params response dc test g) as [g' [[nn body]|e]]; cbn [fst snd].
  - split; [|done]. split; [done|]. fields. split; [by eexists|]. rewrite Hs. by eexists.
  - by split.
Qed.

Lemma answer_server_dh_from (nonce server_nonce new_nonce body : list ascii) (g g' : Rng) (sd : ServerDhInnerData)
    (p : PreparedClientDh) :
  answer_server_dh nonce server_nonce new_nonce body g = (g', Ok (sd, p)) ->
  (sd_nonce sd = nonce /\ sd_server_nonce sd = server_nonce) /\ exists b, prepared_from sd new_nonce b p.
Proof.
  unfold answer_server_dh. intros H. repeat rand_step. injection H as _ <- <-.
  split; [by eapply decrypted_nonces|by eapply prepare_client_dh_from].
Qed.

Lemma receive_server_dh_ok (nonce : list ascii) (envelope : PlaintextEnvelope) (id : Z) (g : Rng) (h : AuthKeyHandshake) :
  handshake_ok nonce h ->
  handshake_ok nonce (receive_server_dh envelope id g h).1.1
  /\ (is_ok (receive_server_dh envelope id g h).2 = false -> (receive_server_dh envelope id g h).1.1 = h).
Proof.
  intros Hok. unfold receive_server_dh. destruct (hs_state h) eqn:Hst; try by split.
  pose proof Hok as [Hn Hs]. rewrite Hst in Hs.
  destruct Hs as [[nn Hnn] [sn Hsn]]. rewrite Hnn, Hsn.
  destruct (answer_server_dh _ _ _ _ _) as [g' [[sd p]|e]] eqn:Ha; cbn [fst snd].
  - apply answer_server_dh_from in Ha as [Hnonces [b Hfrom]]. rewrite Hn in Hnonces.
    split; [|done]. split; [done|]. fields. exists sd, nn, sn, b, p. by split.
  - by split.
Qed.

Lemma receive_dh_gen_ok (nonce : list ascii) (envelope : PlaintextEnvelope) (id : Z) (g : Rng) (h : AuthKeyHandshake) :
  handshake_ok nonce h ->
  handshake_ok nonce (receive_dh_gen envelope id g h).1.1
  /\ (is_ok (receive_dh_gen envelope id g h).2 = false -> (receive_dh_gen envelope id g h).1.1 = h).
Proof.
  intros Hok. unfold receive_dh_gen. destruct (hs_state h) eqn:Hst; try by split.
  pose proof Hok as [Hn Hs]. rewrite Hst in Hs.
  destruct Hs as (sd & nn & sn & b & p & [Hsd Hnn Hsn Hp Hnonces Hfrom]). rewrite Hnn, Hp, Hsn.
  destruct (parse_dh_gen_result _ _ _ _ _) as [[| |]|e]; cbn [fst snd]; [..|done|done].
  - fields. rewrite Hsd. cbn [fst snd]. by split.
  - rewrite Hsd. destruct (prepare_client_dh _ _ _ _) as [g' [next|e]] eqn:Hnext; cbn [fst snd]; [|done].
    apply prepare_client_dh_from in Hnext as [b' Hfrom']. split; [|done]. split; [done|]. fields. rewrite Hst.
    exists sd, nn, sn, b', next. by split.
Qed.

Lemma handshake_step_ok (nonce : list ascii) (h h' : AuthKeyHandshake) :
  handshake_ok nonce h -> handshake_step h h' -> handshake_ok nonce h'.
Proof.
  intros Hok. destruct 1;
    [by apply begin_ok|by apply receive_res_pq_ok|by apply prepare_req_dh_params_ok|by apply receive_server_dh_ok
    |by apply receive_dh_gen_ok].
Qed.

Lemma reachable_ok (nonce : list ascii) (h : AuthKeyHandshake) :
  rtc handshake_step (handshake_new nonce) h -> handshake_ok nonce h.
Proof.
  pose proof (handshake_new_ok nonce) as Hok. revert Hok. generalize (handshake_new nonce). intros h0 Hok Hsteps.
  induction Hsteps as [|h0 h1 h2 Hstep _ IH]; [done|]. apply IH. by eapply handshake_step_ok.
Qed.

(** Nothing moves a machine that is done. *)
Lemma complete_stays (h h' : AuthKeyHandshake) : hs_state h = HsComplete -> rtc handshake_step h h' -> h' = h.
Proof.
  intros Hst Hsteps. revert Hst. induction Hsteps as [|h h1 h2 Hstep _ IH]; [done|]. intros Hst.
  assert (h1 = h) as ->; [|by apply IH].
  destruct Hstep; unfold handshake_begin, receive_res_pq, prepare_req_dh_params, receive_server_dh, receive_dh_gen;
    by rewrite Hst.
Qed.

Lemma dh_gen_ok_exact (nonce server_nonce new_nonce body : list ascii) (aux : Z) :
  parse_dh_gen_result body nonce server_nonce new_nonce aux = Ok DhGenOk ->
  body = (le_bytes 4 DH_GEN_OK_CONSTRUCTOR ++ nonce ++ server_nonce ++ dh_gen_hash new_nonce 1 aux)%list.
Proof.
  unfold parse_dh_gen_result. intros H. ok_step. destruct a as [c hash]. rename select (hs_run _ _ = _) into Hrun.
  ok_step. destruct a as [res tag]. match goal with H : _ = Ok (res, tag) |- _ => rename H into Hres end. oks. subst res.
  apply parse_dh_gen_body_ok in Hrun as ->. rename select (eqb hash _ = true) into Eh. apply eqb_true in Eh as ->.
  destruct (Z.eqb_spec c DH_GEN_OK_CONSTRUCTOR) as [->|_]; [by injection Hres as <-|].
  destruct (c =? DH_GEN_RETRY_CONSTRUCTOR); [discriminate Hres|]. destruct (c =? DH_GEN_FAIL_CONSTRUCTOR); discriminate Hres.
Qed.

(** C16: A key is established only when the server has confirmed it.  Start from a
    new handshake and call its methods in any order with any messages.  A method
    that answers with an error leaves the handshake as it was.  If a message
    establishes a key, then the client had accepted parameters that carry both
    nonces and pass every check (the known prime, an admitted generator, a public
    value in range); the key is the server's public value raised to an exponent of
    the client's, its own public value being in range too; the message is, byte
    for byte, the confirmation of this key under the secret nonce; and the
    handshake is complete: nothing changes it any more. *)
Theorem established_key_is_confirmed (nonce : list ascii) (h : AuthKeyHandshake) (envelope : PlaintextEnvelope)
    (id : Z) (g : Rng) :
  rtc handshake_step (handshake_new nonce) h ->
  (is_ok (handshake_begin id h).2 = false -> (handshake_begin id h).1 = h)
  /\ (is_ok (receive_res_pq envelope h).2 = false -> (receive_res_pq envelope h).1 = h)
  /\ (forall (dc : Z) (test : bool), is_ok (prepare_req_dh_params id dc test g h).2 = false ->
       (prepare_req_dh_params id dc test g h).1.1 = h)
  /\ (is_ok (receive_server_dh envelope id g h).2 = false -> (receive_server_dh envelope id g h).1.1 = h)
  /\ (is_ok (receive_dh_gen envelope id g h).2 = false -> (receive_dh_gen envelope id g h).1.1 = h)
  /\ forall h' g' k, receive_dh_gen envelope id g h = (h', g', Ok (Established k)) ->
      exists sd new_nonce server_nonce b,
        hs_server_dh h = Some sd /\ hs_new_nonce h = Some new_nonce /\ hs_server_nonce h = Some server_nonce
        /\ sd_nonce sd = nonce /\ sd_server_nonce sd = server_nonce
        /\ validate_server_dh_parameters sd = Ok tt
        /\ 0 < b /\ validate_dh_public_value dh_prime (modpow (sd_generator sd) b dh_prime) = Ok tt
        /\ ek_auth_key k = MkAuthKey (fixed_256 (modpow (be_value (sd_g_a sd)) b dh_prime))
        /\ ek_server_salt k = server_salt_of new_nonce server_nonce /\ ek_server_time k = sd_server_time sd
        /\ pe_body envelope = (le_bytes 4 DH_GEN_OK_CONSTRUCTOR ++ nonce ++ server_nonce
                               ++ dh_gen_hash new_nonce 1 (aux_hash_of (auth_key_bytes (ek_auth_key k))))%list
        /\ hs_state h' = HsComplete
        /\ forall h'', rtc handshake_step h' h'' -> h'' = h'.
Proof.
  intros Hreach. apply reachable_ok in Hreach as Hok.
  split; [by apply (begin_ok nonce)|]. split; [by apply (receive_res_pq_ok nonce)|].
  split; [intros dc test; by apply (prepare_req_dh_params_ok nonce)|].
  split; [by apply (receive_server_dh_ok nonce)|]. split; [by apply (receive_dh_gen_ok nonce)|].
  intros h' g' k H. unfold receive_dh_gen in H. pose proof Hok as [Hn Hs].
  destruct (hs_state h) eqn:Hst; try discriminate H.
  destruct Hs as (sd & nn & sn & b & p & [Hsd Hnn Hsn Hp [Hn1 Hn2] Hfrom]). rewrite Hnn, Hp, Hsn in H.
  destruct (parse_dh_gen_result _ _ _ _ _) as [[| |]|e] eqn:Hparse; try discriminate H.
  2: { rewrite Hsd in H. destruct (prepare_client_dh _ _ _ _) as [g1 [next|e]]; discriminate H. }
  revert H. fields. rewrite Hsd. intros [= <- <- <-]. rewrite Hn in Hparse. apply dh_gen_ok_exact in Hparse.
  destruct Hfrom as [Hvalid Hb Hpub Hkey Haux Hsalt].
  exists sd, nn, sn, b. cbn [ek_auth_key ek_server_salt ek_server_time]. split_and!; try done.
  - by rewrite Hsalt, Hn2.
  - by rewrite <- Haux.
  - intros h''. by apply complete_stays.
Qed.
End machine.

(** ** A whole exchange *)

(** The request of the parameters succeeds, once its parts do. *)
Lemma req_dh_params_ok `{MC : MtCipher, !MtCipherLaws MC} (response : ResPq) (dc_id : Z) (test : bool) (g : Rng) (factors : FactoredPq)
    (key : RsaPublicKey) (fingerprint : Z) (new_nonce inner padding temp_key block : list ascii) :
  factor_res_pq response = Ok factors -> telegram_server_rsa_key test = Ok key ->
  rsa_fingerprint key = Ok fingerprint -> contains_fingerprint response fingerprint = true ->
  draw g (drawn g) 32%nat = Some new_nonce ->
  build_p_q_inner_data_dc response factors new_nonce dc_id = Ok inner -> (length inner <= 144)%nat ->
  draw g (S (drawn g)) (192 - length inner)%nat = Some padding -> draw g (S (S (drawn g))) 32%nat = Some temp_key ->
  rsa_block inner padding temp_key = Ok block ->
  3 <= be_value (rsa_exponent key) -> big_is_odd (be_value (rsa_exponent key)) = true ->
  big_bits (be_value (rsa_modulus key)) = 2048 -> be_value block < be_value (rsa_modulus key) ->
  (forall encrypted, length encrypted = 256%nat ->
     is_ok (build_req_dh_params response factors fingerprint encrypted) = true) ->
  exists body, snd (req_dh_params response dc_id test g) = Ok (new_nonce, body).
Proof.
  intros Hf Hkey Hfp Hin Hn Hinner Hlen Hp Ht Hblock He Hodd Hbits Hlt Hbuild.
  unfold req_dh_params, mbind, rand_bind, rand_of. rewrite Hf, Hkey, Hfp, Hin. cbn [negb reject_if].
  unfold fill_random at 1. rewrite Hn. cbn [ok_or]. rewrite Hinner.
  unfold rsa_pad_with_random. rewrite (proj2 (Z.ltb_ge 144 _)) by lia.
  rewrite (proj2 (Z.ltb_ge _ 3)), Hodd, Hbits by done. cbn [negb orb Z.eqb Pos.eqb].
  destruct (big_bits_2048 _ (proj1 (be_value_range _)) Hbits) as [Hpos Hbound].
  pose proof (rsa_pad_loop_first 127 inner padding temp_key block (be_value (rsa_exponent key)) (be_value (rsa_modulus key))
    {| draw := draw g; drawn := S (drawn g) |} Hp Ht Hblock (conj Hlt (Z.lt_le_incl _ _ Hbound))) as Hpad.
  destruct (rsa_pad_loop 128 _ _ _ _) as [g' res]. cbn [snd] in Hpad. rewrite Hpad.
  specialize (Hbuild (fixed_256 (modpow (be_value block) (be_value (rsa_exponent key)) (be_value (rsa_modulus key))))).
  destruct (build_req_dh_params _ _ _ _) as [body|e].
  - by exists body.
  - discriminate Hbuild. apply fixed_256_length, modpow_bound. split; [done|by apply Z.lt_le_incl].
Qed.

Definition run_fingerprint : Z :=
  match key ← telegram_server_rsa_key false; rsa_fingerprint key with Ok f => f | Err _ => 0 end.
Definition run_response : ResPq := {|
  rp_nonce := toy_nonce; rp_server_nonce := toy_server_nonce; rp_pq := [byte_of 6; byte_of 227];
  rp_server_public_key_fingerprints := [run_fingerprint] |}.
Definition run_res_pq : list ascii :=
  (le_bytes 4 RES_PQ_CONSTRUCTOR ++ toy_nonce ++ toy_server_nonce ++ packed [byte_of 6; byte_of 227]
   ++ le_bytes 4 VECTOR_CONSTRUCTOR ++ le_bytes 4 1 ++ le_bytes 8 run_fingerprint)%list.

Definition run_1 : AuthKeyHandshake := (handshake_begin 4 (handshake_new toy_nonce)).1.
Definition run_2 : AuthKeyHandshake := (receive_res_pq {| pe_message_id := 1; pe_body := run_res_pq |} run_1).1.
Definition run_3 : AuthKeyHandshake := (prepare_req_dh_params 8 2 false steady_source run_2).1.1.

Lemma run_2_received :
  run_2 = {| hs_nonce := toy_nonce; hs_state := ResPqReceived run_response; hs_server_nonce := Some toy_server_nonce;
             hs_new_nonce := None; hs_server_dh := None; hs_prepared_client_dh := None |}.
Proof. vm_compute. reflexivity. Qed.

Lemma run_request (encrypted : list ascii) :
  length encrypted = 256%nat ->
  is_ok (build_req_dh_params run_response {| fp_pq := 1763; fp_p := 41; fp_q := 43 |} run_fingerprint encrypted) = true.
Proof.
  intros Hl. unfold build_req_dh_params.
  assert (Hin : contains_fingerprint run_response run_fingerprint = true)
    by (apply bool_decide_eq_true, list_elem_of_singleton; reflexivity).
  rewrite Hin, (proj2 (Z.eqb_neq (size_of encrypted) 0)) by lia. cbn [negb reject_if mbind result_bind].
  unfold write_seq, sure. cbn [foldl and_write].
  rewrite write_bytes_packed by (vm_compute; discriminate). cbn [and_write].
  rewrite write_bytes_packed by (vm_compute; discriminate). cbn [and_write].
  rewrite write_bytes_packed; [exact eq_refl|lia].
Qed.

Lemma run_3_waiting : run_3 = toy_waiting.
Proof.
  assert (Hreq : exists body, snd (req_dh_params run_response 2 false steady_source) = Ok (toy_new_nonce, body)).
  { assert (Hkey : exists key fingerprint inner block,
      telegram_server_rsa_key false = Ok key /\ rsa_fingerprint key = Ok run_fingerprint
      /\ build_p_q_inner_data_dc run_response {| fp_pq := 1763; fp_p := 41; fp_q := 43 |} toy_new_nonce 2 = Ok inner
      /\ fingerprint = length inner
      /\ (length inner <= 144)%nat
      /\ rsa_block inner (rev (le_bytes (192 - fingerprint) 999)) toy_new_nonce = Ok block
      /\ 3 <= be_value (rsa_exponent key) /\ big_is_odd (be_value (rsa_exponent key)) = true
      /\ big_bits (be_value (rsa_modulus key)) = 2048 /\ be_value block <? be_value (rsa_modulus key) = true).
    { do 4 eexists. split; [vm_compute; reflexivity|]. split; [vm_compute; reflexivity|].
      split; [vm_compute; reflexivity|]. split; [reflexivity|]. split; [vm_compute; lia|].
      split; [vm_compute; reflexivity|]. split; [vm_compute; discriminate|]. split; [reflexivity|].
      split; vm_compute; reflexivity. }
    destruct Hkey as (key & n & inner & block & Hkey & Hfp & Hinner & -> & Hlen & Hblock & He & Hodd & Hbits & Hlt).
    assert (Hf : factor_res_pq run_response = Ok {| fp_pq := 1763; fp_p := 41; fp_q := 43 |}) by (vm_compute; reflexivity).
    assert (Hin : contains_fingerprint run_response run_fingerprint = true)
      by (apply bool_decide_eq_true, list_elem_of_singleton; reflexivity).
    exact (req_dh_params_ok run_response 2 false steady_source _ key run_fingerprint toy_new_nonce inner
      (rev (le_bytes (192 - length inner) 999)) toy_new_nonce block Hf Hkey Hfp Hin eq_refl Hinner Hlen eq_refl eq_refl
      Hblock He Hodd Hbits (proj1 (Z.ltb_lt _ _) Hlt) run_request). }
  destruct Hreq as [body Hreq]. unfold run_3, prepare_req_dh_params. rewrite run_2_received. cbn [hs_state].
  destruct (req_dh_params run_response 2 false steady_source) as [g' res]. cbn [snd] in Hreq. by rewrite Hreq.
Qed.

Lemma established_key_is_confirmed_witness :
  exists h h' g' k body,
    rtc handshake_step (handshake_new toy_nonce) h
    /\ receive_dh_gen {| pe_message_id := 9; pe_body := body |} 16 steady_source h = (h', g', Ok (Established k))
    /\ hs_state h' = HsComplete /\ forall h'', rtc handshake_step h' h'' -> h'' = h'.
Proof.
  destruct (agreement toy_nonce toy_server_nonce toy_new_nonce eq_refl eq_refl eq_refl toy_server zero toy_waiting
    steady_source 12 5 eq_refl eq_refl eq_refl eq_refl toy_server_ok steady_source_works) as (body & g1 & Hbody & H).
  rewrite (steady_public steady_source eq_refl) in H. destruct H as (h & request & Hrecv & _ & _ & Hgen).
  set (confirmation := dh_gen_ok_body _ _ _ _) in Hgen. specialize (Hgen 9 16 steady_source).
  assert (Hreach : rtc handshake_step (handshake_new toy_nonce) h).
  { apply (rtc_l _ _ run_1 _ (step_begin (handshake_new toy_nonce) 4)).
    apply (rtc_l _ _ run_2 _ (step_res_pq run_1 {| pe_message_id := 1; pe_body := run_res_pq |})).
    apply (rtc_l _ _ run_3 _ (step_req_dh run_2 8 2 false steady_source)). rewrite run_3_waiting.
    pose proof (step_server_dh toy_waiting {| pe_message_id := 5; pe_body := body |} 12 steady_source) as Hstep.
    rewrite Hrecv in Hstep. exact (rtc_l _ _ h _ Hstep (rtc_refl _ _)). }
  destruct (established_key_is_confirmed toy_nonce h {| pe_message_id := 9; pe_body := confirmation |} 16 steady_source
    Hreach) as (_ & _ & _ & _ & _ & Hconf).
  destruct (Hconf _ _ _ Hgen) as (sd & nn & sn & b & _ & _ & _ & _ & _ & _ & _ & _ & _ & _ & _ & _ & Hst & Hstay).
  do 5 eexists. split; [exact Hreach|]. split; [exact Hgen|]. split; [exact Hst|exact Hstay].
Defined.
