(* ===== verification/Srp.v ===== *)
(** * Signing in with a password ([srp.rs])

    The client's half of the password check of the Secure Remote Password
    protocol, and the server's half as the protocol prescribes it.  SHA-256 is the
    one of [MtCipher]; PBKDF2 is a parameter, [PasswordKdf], of which nothing is
    asked.  The random exponent is an argument, as in the source. *)

From S2P Require Import Prelude Text Maps Bytes Tl Crypto Api Numbers Handshake KeyTransport KeyAgreement.

Class PasswordKdf := {
  (** Password, salt, rounds, length. *)
  pbkdf2_hmac_sha512 : list ascii -> list ascii -> Z -> nat -> list ascii;
}.

Inductive SrpError :=
| EmptyPassword
| InvalidPrimeOrGenerator
| InvalidServerB
| InvalidRandomExponent
| SrpRandomnessUnavailable
| SrpTl (error : TlError).

Definition padded_256 (value : Z) : list ascii :=
  let bytes := to_bytes_be value in
  (replicate (256 - length bytes) (byte_of 0) ++ drop (length bytes - 256) bytes)%list.

(** The closure [residue] of [validate_prime_generator]. *)
Definition residue (prime modulus : Z) : Z := default 0 (byte_at <$> list.last (to_bytes_be (prime mod modulus))).

Definition validate_prime_generator (prime : list ascii) (generator : Z) : result SrpError unit :=
  reject_if (negb (eqb prime known_dh_prime_bytes)) InvalidPrimeOrGenerator ;;
  let prime := be_value prime in
  let valid :=
    if generator =? 2 then residue prime 8 =? 7
    else if generator =? 3 then residue prime 3 =? 2
    else if generator =? 4 then true
    else if generator =? 5 then bool_decide (residue prime 5 ∈ [1; 4])
    else if generator =? 6 then bool_decide (residue prime 24 ∈ [19; 23])
    else if generator =? 7 then bool_decide (residue prime 7 ∈ [3; 5; 6])
    else false in
  reject_if (negb valid) InvalidPrimeOrGenerator.

Section client.
Context `{MC : MtCipher, KDF : PasswordKdf}.

Definition sha256_parts (parts : list (list ascii)) : list ascii := mt_sha256 (concat parts).

Definition password_hash (password salt1 salt2 : list ascii) : list ascii :=
  let first := sha256_parts [salt1; password; salt1] in
  let second := sha256_parts [salt2; first; salt2] in
  let pbkdf := pbkdf2_hmac_sha512 second salt1 100000 64 in
  sha256_parts [salt2; pbkdf; salt2].

(** The proof that both ends compute from the session key. *)
Definition srp_m1 (prime generator_padded salt1 salt2 client_a server_b session_key : list ascii) : list ascii :=
  sha256_parts [xor_bytes (sha256_parts [prime]) (sha256_parts [generator_padded]); sha256_parts [salt1];
                sha256_parts [salt2]; client_a; server_b; session_key].

(** [compute_password_srp_proof_with_random]: what [fill_random] answers is [random]. *)
Definition compute_password_srp_proof (password : string) (parameters : PasswordSrpParameters)
    (random : result SrpError (list ascii)) : result SrpError PasswordSrpProof :=
  reject_if (is_empty password) EmptyPassword ;;
  validate_prime_generator (srp_prime parameters) (srp_generator parameters) ;;
  let size := size_of (srp_server_b parameters) in
  reject_if (negb ((248 <=? size) && (size <=? 256))) InvalidServerB ;;
  let prime := be_value (srp_prime parameters) in
  let server_b := be_value (srp_server_b parameters) in
  reject_if ((server_b =? 0) || (prime <=? server_b)) InvalidServerB ;;
  let generator := srp_generator parameters mod 2 ^ 32 in
  let generator_padded := padded_256 generator in
  let server_b_padded := padded_256 server_b in
  let x := be_value (password_hash (bytes_of password) (srp_salt1 parameters) (srp_salt2 parameters)) in
  exponent_bytes ← random;
  let exponent := be_value exponent_bytes in
  reject_if (exponent =? 0) InvalidRandomExponent ;;
  let client_a := modpow generator exponent prime in
  let client_a_padded := padded_256 client_a in
  let u := be_value (sha256_parts [client_a_padded; server_b_padded]) in
  let k := be_value (sha256_parts [srp_prime parameters; generator_padded]) in
  let verifier := modpow generator x prime in
  let kv := k * verifier mod prime in
  let base := (server_b + prime - kv) mod prime in
  let power := exponent + u * x in
  let shared_secret := modpow base power prime in
  let session_key := sha256_parts [padded_256 shared_secret] in
  Ok {| proof_srp_id := srp_parameters_id parameters; proof_a := client_a_padded;
        proof_m1 := srp_m1 (srp_prime parameters) generator_padded (srp_salt1 parameters) (srp_salt2 parameters)
                      client_a_padded server_b_padded session_key |}.

(** ** The server's half *)

(** What the server keeps of an account, and the secret it draws for one check. *)
Record SrpServer := {
  sps_id : Z;
  sps_salt1 : list ascii;
  sps_salt2 : list ascii;
  sps_generator : Z;
  sps_verifier : Z;
  sps_secret : Z;
}.

Definition srp_multiplier (s : SrpServer) : Z :=
  be_value (sha256_parts [known_dh_prime_bytes; padded_256 (sps_generator s)]).

(** [B = k v + g^b] *)
Definition srp_public (s : SrpServer) : Z :=
  (srp_multiplier s * sps_verifier s + modpow (sps_generator s) (sps_secret s) dh_prime) mod dh_prime.

Definition srp_offer (s : SrpServer) : PasswordSrpParameters := {|
  srp_parameters_id := sps_id s; srp_salt1 := sps_salt1 s; srp_salt2 := sps_salt2 s; srp_generator := sps_generator s;
  srp_prime := known_dh_prime_bytes; srp_server_b := padded_256 (srp_public s) |}.

(** [S = (A v^u)^b], and the proof the server expects for it. *)
Definition srp_expected (s : SrpServer) (client_a : list ascii) : list ascii :=
  let u := be_value (sha256_parts [client_a; padded_256 (srp_public s)]) in
  let secret := modpow (be_value client_a * modpow (sps_verifier s) u dh_prime) (sps_secret s) dh_prime in
  srp_m1 known_dh_prime_bytes (padded_256 (sps_generator s)) (sps_salt1 s) (sps_salt2 s) client_a (padded_256 (srp_public s))
    (sha256_parts [padded_256 secret]).

Definition srp_accepts (s : SrpServer) (proof : PasswordSrpProof) : bool :=
  (proof_srp_id proof =? sps_id s) && eqb (proof_m1 proof) (srp_expected s (proof_a proof)).

(** The server's verifier is that of the password. *)
Definition registered (s : SrpServer) (password : string) : Prop :=
  sps_verifier s
  = modpow (sps_generator s) (be_value (password_hash (bytes_of password) (sps_salt1 s) (sps_salt2 s))) dh_prime.

(** ** Padding and residues *)

Opaque dh_prime known_dh_prime_bytes modpow to_bytes_be.

Lemma padded_256_small (z : Z) : 0 <= z < bound_2048 -> padded_256 z = fixed_256 z.
Proof.
  intros Hz%to_bytes_256. unfold padded_256, fixed_256.
  by replace (length (to_bytes_be z) - 256)%nat with 0%nat by lia.
Qed.

Lemma padded_256_length (z : Z) : length (padded_256 z) = 256%nat.
Proof. unfold padded_256. rewrite length_app, length_replicate, length_drop. lia. Qed.

Lemma residue_mod (prime modulus : Z) : 0 < modulus <= 256 -> residue prime modulus = prime mod modulus.
Proof.
  intros Hm. pose proof (Z.mod_pos_bound prime modulus ltac:(lia)) as Hr. unfold residue.
  pose proof (be_value_to_bytes (prime mod modulus) ltac:(lia)) as Hv.
  pose proof (to_bytes_length (prime mod modulus) 1 ltac:(change (256 ^ Z.of_nat 1) with 256; lia) ltac:(lia)) as Hl.
  pose proof (to_bytes_nonempty (prime mod modulus)) as Hne.
  destruct (to_bytes_be (prime mod modulus)) as [|b [|c l]]; [done| |simpl in Hl; lia].
  rewrite <- Hv. reflexivity.
Qed.

Lemma validate_known (generator : Z) :
  generator_is_valid generator dh_prime = true -> validate_prime_generator known_dh_prime_bytes generator = Ok tt.
Proof.
  intros Hg. unfold validate_prime_generator. destruct known_prime_bytes as [_ Hv].
  rewrite eqb_refl. cbn [negb reject_if mbind result_bind]. rewrite Hv, !residue_mod by lia.
  unfold generator_is_valid in Hg. by rewrite Hg.
Qed.
(** ** Both ends compute the same secret *)

Lemma unmask (p kv gb : Z) : 0 < p -> ((kv + gb) mod p + p - kv mod p) mod p = gb mod p.
Proof.
  intros Hp. pose proof (Z.div_mod (kv + gb) p ltac:(lia)). pose proof (Z.div_mod kv p ltac:(lia)).
  replace ((kv + gb) mod p + p - kv mod p) with (gb + (1 - (kv + gb) / p + kv / p) * p) by lia.
  apply Z_mod_plus_full.
Qed.

Lemma same_secret (p g a b u x : Z) : 0 < p -> 0 <= a -> 0 <= b -> 0 <= u -> 0 <= x ->
  (g ^ b mod p) ^ (a + u * x) mod p = (g ^ a mod p * ((g ^ x mod p) ^ u mod p)) ^ b mod p.
Proof.
  intros. rewrite !Z.mod_pow_l by lia. rewrite <- (Z.mod_pow_l (g ^ a mod p * _)), <- Z.mul_mod, Z.mod_pow_l by lia.
  rewrite <- !Z.pow_mul_r, <- Z.pow_add_r by nia. rewrite <- Z.pow_mul_r by nia. do 2 f_equal. ring.
Qed.

(** What the client makes of the offer and a random exponent, when the server holds
    the verifier of the password. *)
Lemma client_secret (s : SrpServer) (password : string) (a u : Z) :
  registered s password -> 0 <= sps_secret s -> 0 <= a -> 0 <= u ->
  let x := be_value (password_hash (bytes_of password) (sps_salt1 s) (sps_salt2 s)) in
  let kv := srp_multiplier s * modpow (sps_generator s) x dh_prime mod dh_prime in
  modpow ((srp_public s + dh_prime - kv) mod dh_prime) (a + u * x) dh_prime
  = modpow (modpow (sps_generator s) a dh_prime * modpow (sps_verifier s) u dh_prime) (sps_secret s) dh_prime.
Proof.
  intros Hreg Hb Ha Hu x kv. pose proof (proj1 dh_prime_bound) as Hp.
  assert (Hx : 0 <= x) by apply be_value_range.
  unfold srp_public, kv. unfold registered in Hreg. fold x in Hreg. rewrite Hreg.
  rewrite unmask, !modpow_power, Z.mod_mod by lia. by apply same_secret.
Qed.

Lemma srp_public_range (s : SrpServer) : 0 <= srp_public s < dh_prime.
Proof. apply Z.mod_pos_bound, dh_prime_bound. Qed.

Lemma padded_value (z : Z) : 0 <= z < bound_2048 -> be_value (padded_256 z) = z.
Proof. intros Hz. rewrite padded_256_small by done. apply fixed_256_value, Hz. Qed.

(** C37: A server that holds the verifier of the password accepts the client's proof of
    it, whatever the salts, the secret and the random exponent; the client makes
    none only for an offer of zero or an exponent of zero, and says so.  The
    password is not empty, which the client refuses, and the server offers the
    known prime with a generator that is admitted for it. *)
Theorem password_proof_is_accepted (s : SrpServer) (password : string) (random : list ascii) :
  is_empty password = false -> generator_is_valid (sps_generator s) dh_prime = true ->
  registered s password -> 0 <= sps_secret s -> length random = 256%nat ->
  match compute_password_srp_proof password (srp_offer s) (Ok random) with
  | Ok proof => srp_public s <> 0 /\ be_value random <> 0 /\ length (proof_a proof) = 256%nat /\ srp_accepts s proof = true
  | Err e => e = InvalidServerB /\ srp_public s = 0 \/ e = InvalidRandomExponent /\ be_value random = 0
  end.
Proof.
  intros Hpw Hg Hreg Hb Hr. destruct known_prime_bytes as [Hlen Hval]. pose proof (srp_public_range s) as Hpub.
  pose proof dh_prime_bound as Hp. pose proof (generator_small _ _ Hg) as Hsmall.
  assert (Hsp : be_value (padded_256 (srp_public s)) = srp_public s) by (apply padded_value; lia).
  unfold compute_password_srp_proof, srp_offer.
  cbn [srp_prime srp_generator srp_server_b srp_salt1 srp_salt2 srp_parameters_id].
  rewrite Hpw, (validate_known _ Hg), padded_256_length, Hsp, Hval. cbn [reject_if mbind result_bind].
  rewrite (eq_refl : (248 <=? Z.of_nat 256) && (Z.of_nat 256 <=? 256) = true). cbn [negb reject_if mbind result_bind].
  rewrite (proj2 (Z.leb_gt dh_prime _)), orb_false_r by lia.
  destruct (Z.eqb_spec (srp_public s) 0) as [H0|H0]; cbn [reject_if mbind result_bind]; [left; split; [reflexivity|exact H0]|].
  destruct (Z.eqb_spec (be_value random) 0) as [Hr0|Hr0]; cbn [reject_if mbind result_bind]; [right; split; [reflexivity|exact Hr0]|].
  rewrite (Z.mod_small (sps_generator s)) by lia.
  split; [exact H0|]. split; [exact Hr0|]. split; [apply padded_256_length|].
  unfold srp_accepts, srp_expected. cbn [proof_srp_id proof_a proof_m1]. rewrite Z.eqb_refl. apply eqb_spec.
  rewrite padded_value by apply modpow_range.
  set (a := modpow (sps_generator s) (be_value random) dh_prime).
  set (u := be_value (sha256_parts [padded_256 a; padded_256 (srp_public s)])).
  pose proof (client_secret s password (be_value random) u Hreg Hb (proj1 (be_value_range random))
    (proj1 (be_value_range _))) as Hs.
  unfold srp_multiplier in Hs. cbv zeta in Hs. fold a in Hs. by rewrite Hs.
Qed.
End client.


(** ** A check with small numbers *)

Definition toy_kdf : PasswordKdf := {| pbkdf2_hmac_sha512 := fun _ _ _ n => replicate n (byte_of 1) |}.

(** With the toy digest, this second salt makes the password's number 1. *)
Definition demo_salt : list ascii := (replicate 31 (byte_of 0) ++ [byte_of 1])%list.
Definition demo_exponent : list ascii := (replicate 255 (byte_of 0) ++ [byte_of 3])%list.

Definition demo_srp_server : SrpServer := {|
  sps_id := 7; sps_salt1 := bytes_of "salt"; sps_salt2 := demo_salt; sps_generator := 4; sps_verifier := 4; sps_secret := 2 |}.

Lemma demo_registered : registered (KDF := toy_kdf) demo_srp_server "hunter2".
Proof. unfold registered. vm_compute. reflexivity. Qed.

Lemma password_proof_is_accepted_witness :
  exists proof, compute_password_srp_proof (KDF := toy_kdf) "hunter2" (srp_offer demo_srp_server) (Ok demo_exponent) = Ok proof
    /\ srp_accepts demo_srp_server proof = true.
Proof.
  pose proof (password_proof_is_accepted (KDF := toy_kdf) demo_srp_server "hunter2" demo_exponent
    eq_refl eq_refl demo_registered ltac:(discriminate) eq_refl) as H.
  destruct (compute_password_srp_proof (KDF := toy_kdf) "hunter2" (srp_offer demo_srp_server) (Ok demo_exponent)) as [proof|e].
  - exists proof. split; [reflexivity|]. exact (proj2 (proj2 (proj2 H))).
  - exfalso. destruct H as [[_ H]|[_ H]]; vm_compute in H; discriminate H.
Defined.
