(* ===== verification/Network.v ===== *)
(** * The network transport of the Telegram client ([telegram-network/src/lib.rs])

    Sockets, the clock and the source of randomness are an [Outside] that the
    operations thread: what the next reads of the stream answer, what was written,
    which writes fail, what the clock shows at each reading.  [TcpStream::flush]
    does nothing, and [write_all] of nothing does not write.  Errors that arise on
    the way keep the state as it then is. *)

From S2P Require Import Prelude Text Maps Bytes Tl Transport MtSession Crypto Dc Api Numbers Handshake.

Definition DEFAULT_MAX_DH_RETRIES : nat := 3.
Definition DEFAULT_MAX_SERVICE_MESSAGES : nat := 8.
Definition PING_CONSTRUCTOR : Z := 0x7abe77ec.
Definition PONG_CONSTRUCTOR : Z := 0x347773c5.
Definition NEW_SESSION_CREATED_CONSTRUCTOR : Z := 0x9ec20908.
Definition MESSAGE_CONTAINER_CONSTRUCTOR : Z := 0x73f1f8dc.
Definition BAD_SERVER_SALT_CONSTRUCTOR : Z := 0xedab447b.
Definition BAD_MSG_NOTIFICATION_CONSTRUCTOR : Z := 0xa7eff811.
Definition NET_MSGS_ACK_CONSTRUCTOR : Z := 0x62d6b459.
Definition NET_RPC_RESULT_CONSTRUCTOR : Z := 0xf35c6d01.
Definition FUTURE_SALTS_CONSTRUCTOR : Z := 0xae500895.
Definition DEFAULT_MAX_RPC_MESSAGES : nat := 64.

Inductive NetworkError :=
| NetDirectory (error : DcError)
| ConnectFailed (attempts : list (DcEndpoint * string))
| NetIo (error : string)
| NetTransport (error : TransportError)
| NetHandshake (error : HandshakeError)
| NetMessageId (error : MessageIdError)
| NetSequence (error : SequenceError)
| NetCrypto (error : CryptoError)
| InvalidSystemClock
| ConnectionClosed
| DhRetryLimit
| NetRandomnessUnavailable
| InvalidServiceMessage
| PingMismatch
| PongTimeout
| BadServerMessage (message_id code : Z)
| RpcTimeout.

(** ** The outside *)

Record Outside := {
  (** What the reads of the stream answer, in order: bytes or an error.  After the
      last of them, or after an empty one, the peer has closed the stream. *)
  ou_reads : list (result string (list ascii));
  ou_written : list ascii;
  (** The error of the [n]-th write, if it fails. *)
  ou_write_faults : nat -> option string;
  ou_writes : nat;
  (** Seconds and nanoseconds at the [n]-th reading; none before the epoch. *)
  ou_clock : nat -> option (Z * Z);
  ou_ticks : nat;
  ou_rng : Rng;
}.
#[export] Instance eta_Outside : Eta Outside := fun o =>
  Build_Outside (ou_reads o) (ou_written o) (ou_write_faults o) (ou_writes o) (ou_clock o) (ou_ticks o) (ou_rng o).

(** Operations that change a state of type [S] and may fail. *)
Definition Net (S A : Type) : Type := S -> S * result NetworkError A.
#[export] Instance net_ret (S : Type) : MRet (Net S) := fun A a s => (s, Ok a).
#[export] Instance net_bind (S : Type) : MBind (Net S) := fun A B f m s =>
  match m s with
  | (s, Ok a) => f a s
  | (s, Err e) => (s, Err e)
  end.

Definition net_of {S A : Type} (r : result NetworkError A) : Net S A := fun s => (s, r).
Definition net_fail {S A : Type} (e : NetworkError) : Net S A := fun s => (s, Err e).
Definition net_get {S A : Type} (f : S -> A) : Net S A := fun s => (s, Ok (f s)).
Definition net_put {S : Type} (f : S -> S) : Net S unit := fun s => (f s, Ok tt).

(** An operation on a part of the state. *)
Definition on_part {S T A : Type} (get : S -> T) (put : T -> S -> S) (m : Net T A) : Net S A := fun s =>
  let '(t, r) := m (get s) in (put t s, r).

(** A stateful operation of another component, its error converted. *)
Definition net_step {S E A : Type} (convert : E -> NetworkError) (m : S -> S * result E A) : Net S A := fun s =>
  let '(s, r) := m s in (s, map_err convert r).

(** [unix_time] *)
Definition unix_time : Net Outside (Z * Z) := fun o =>
  (o ⟪ ou_ticks ::= S ⟫, ok_or (ou_clock o (ou_ticks o)) InvalidSystemClock).

(** [secure_random] *)
Definition secure_random (n : nat) : Net Outside (list ascii) :=
  on_part ou_rng (fun g o => o ⟪ ou_rng := g ⟫) (net_step (fun _ => NetRandomnessUnavailable) (fill_random n)).

Definition random_i64 : Net Outside Z :=
  bytes ← secure_random 8;
  mret (to_signed 64 (of_le_bytes bytes)).

(** [TcpStream::write_all] *)
Definition write_all (bytes : list ascii) : Net Outside unit := fun o =>
  match bytes with
  | [] => (o, Ok tt)
  | _ =>
      let o' := o ⟪ ou_writes ::= S ⟫ in
      match ou_write_faults o (ou_writes o) with
      | Some e => (o', Err (NetIo e))
      | None => (o' ⟪ ou_written ::= fun l => (l ++ bytes)%list ⟫, Ok tt)
      end
  end.

(** ** The transport *)

Record TcpTransport := {
  tt_codec : TransportFrameCodec;
  tt_read_buffer : list ascii;
  tt_initialized : bool;
}.
#[export] Instance eta_TcpTransport : Eta TcpTransport := fun t =>
  Build_TcpTransport (tt_codec t) (tt_read_buffer t) (tt_initialized t).

(** [TcpTransport::from_stream] *)
Definition from_stream (mode : TransportMode) : TcpTransport :=
  {| tt_codec := codec_new mode; tt_read_buffer := []; tt_initialized := false |}.

Record Wire := { wr_transport : TcpTransport; wr_outside : Outside }.
#[export] Instance eta_Wire : Eta Wire := fun w => Build_Wire (wr_transport w) (wr_outside w).

Definition wire_outside {A : Type} (m : Net Outside A) : Net Wire A :=
  on_part wr_outside (fun o w => w ⟪ wr_outside := o ⟫) m.

Section network.
Context `{MC : MtCipher, R : Crc32}.

(** [TcpTransport::send_payload] *)
Definition send_payload (payload : list ascii) : Net Wire unit :=
  initialized ← net_get (fun w => tt_initialized (wr_transport w));
  (if initialized : bool then mret tt
   else
     mode ← net_get (fun w => tc_mode (tt_codec (wr_transport w)));
     wire_outside (write_all (initial_header mode)) ;;
     net_put (fun w => w ⟪ wr_transport ::= fun t => t ⟪ tt_initialized := true ⟫ ⟫)) ;;
  frame ← on_part (fun w => tt_codec (wr_transport w)) (fun c w => w ⟪ wr_transport ::= fun t => t ⟪ tt_codec := c ⟫ ⟫)
            (net_step NetTransport (encode_internal payload [] false));
  wire_outside (write_all frame).

(** The part of the loop of [receive_payload] that takes frames off the buffer:
    quick acknowledgements are skipped until a payload is found or the rest of the
    buffer holds no whole frame.  Every frame takes bytes, so the length of the
    buffer is enough rounds ([take_frame_step]). *)
Fixpoint take_frame_rounds (rounds : nat) (codec : TransportFrameCodec) (buffer : list ascii) :
    list ascii * result TransportError (option (list ascii)) :=
  match decode_frame codec buffer with
  | Err e => (buffer, Err e)
  | Ok None => (buffer, Ok None)
  | Ok (Some frame) =>
      let buffer := drop (Z.to_nat (df_consumed_bytes frame)) buffer in
      match df_quick_ack_token frame with
      | None => (buffer, Ok (Some (df_payload frame)))
      | Some _ =>
          match rounds with
          | O => (buffer, Ok None)
          | S rounds => take_frame_rounds rounds codec buffer
          end
      end
  end.

Definition take_frame (codec : TransportFrameCodec) (buffer : list ascii) :
    list ascii * result TransportError (option (list ascii)) :=
  take_frame_rounds (length buffer) codec buffer.

(** The loop of [receive_payload], by recursion on what the reads answer. *)
Fixpoint receive_loop (codec : TransportFrameCodec) (buffer : list ascii) (reads : list (result string (list ascii))) :
    list ascii * list (result string (list ascii)) * result NetworkError (list ascii) :=
  match take_frame codec buffer with
  | (buffer, Err e) => (buffer, reads, Err (NetTransport e))
  | (buffer, Ok (Some payload)) => (buffer, reads, Ok payload)
  | (buffer, Ok None) =>
      match reads with
      | [] => (buffer, [], Err ConnectionClosed)
      | Err e :: reads => (buffer, reads, Err (NetIo e))
      | Ok [] :: reads => (buffer, reads, Err ConnectionClosed)
      | Ok chunk :: reads => receive_loop codec (buffer ++ chunk) reads
      end
  end.

(** [TcpTransport::receive_payload] *)
Definition receive_payload : Net Wire (list ascii) := fun w =>
  let t := wr_transport w in
  let '(buffer, reads, r) := receive_loop (tt_codec t) (tt_read_buffer t) (ou_reads (wr_outside w)) in
  (w ⟪ wr_transport := t ⟪ tt_read_buffer := buffer ⟫ ⟫ ⟪ wr_outside ::= fun o => o ⟪ ou_reads := reads ⟫ ⟫, r).

(** [TcpTransport::exchange_plaintext] *)
Definition exchange_plaintext (request : PlaintextEnvelope) : Net Wire PlaintextEnvelope :=
  bytes ← net_of (map_err NetHandshake (encode_plaintext request));
  send_payload bytes ;;
  payload ← receive_payload;
  net_of (map_err NetHandshake (decode_plaintext payload)).

(** ** Fields of service messages *)

Definition read_at (size : Z) (input : list ascii) (offset : Z) : result NetworkError Z :=
  bytes ← ok_or (slice input offset (offset + size)) InvalidServiceMessage;
  Ok (of_le_bytes bytes).

Definition read_u32_at (input : list ascii) (offset : Z) : result NetworkError Z := read_at 4 input offset.
Definition read_i32_at (input : list ascii) (offset : Z) : result NetworkError Z :=
  value ← read_at 4 input offset; Ok (to_signed 32 value).
Definition read_i64_at (input : list ascii) (offset : Z) : result NetworkError Z :=
  value ← read_at 8 input offset; Ok (to_signed 64 value).

(** ** The session *)

Record ConnectedEndpoint := { ce_dc_id : Z; ce_address : DcEndpoint }.

Record EstablishedSession := {
  es_endpoint : ConnectedEndpoint;
  es_transport : TcpTransport;
  es_auth_key : AuthKey;
  es_server_salt : Z;
  es_server_time : Z;
  es_message_ids : MessageIdGuard;
  es_sequence : SessionSequence;
  es_session_id : Z;
}.
#[export] Instance eta_EstablishedSession : Eta EstablishedSession := fun s =>
  Build_EstablishedSession (es_endpoint s) (es_transport s) (es_auth_key s) (es_server_salt s) (es_server_time s)
    (es_message_ids s) (es_sequence s) (es_session_id s).

Record PingResult := { pr_ping_id : Z; pr_response_message_id : Z; pr_server_salt : Z }.
Record NetRpcResult := { nr_request_message_id : Z; nr_response_message_id : Z; nr_body : list ascii }.

Inductive ServiceOutcome := ServicePong (response_message_id : Z) | ServiceNewSalt | ServiceContinue.
Inductive RpcOutcome := RpcAnswered (result : NetRpcResult) | RpcNewSalt | RpcContinue.

(** A session and the outside it runs in. *)
Record Client := { cl_session : EstablishedSession; cl_outside : Outside }.
#[export] Instance eta_Client : Eta Client := fun c => Build_Client (cl_session c) (cl_outside c).

Definition client_wire {A : Type} (m : Net Wire A) : Net Client A :=
  on_part (fun c => {| wr_transport := es_transport (cl_session c); wr_outside := cl_outside c |})
    (fun w c => c ⟪ cl_session ::= fun s => s ⟪ es_transport := wr_transport w ⟫ ⟫ ⟪ cl_outside := wr_outside w ⟫) m.

Definition client_outside {A : Type} (m : Net Outside A) : Net Client A :=
  on_part cl_outside (fun o c => c ⟪ cl_outside := o ⟫) m.

Definition client_ids {A : Type} (m : MessageIdGuard -> MessageIdGuard * result MessageIdError A) : Net Client A :=
  on_part (fun c => es_message_ids (cl_session c))
    (fun g c => c ⟪ cl_session ::= fun s => s ⟪ es_message_ids := g ⟫ ⟫) (net_step NetMessageId m).

Definition client_sequence (content_related : bool) : Net Client Z :=
  on_part (fun c => es_sequence (cl_session c)) (fun q c => c ⟪ cl_session ::= fun s => s ⟪ es_sequence := q ⟫ ⟫)
    (net_step NetSequence (next_sequence content_related)).

Definition set_salt (salt : Z) : Net Client unit :=
  net_put (fun c => c ⟪ cl_session ::= fun s => s ⟪ es_server_salt := salt ⟫ ⟫).

(** [next_message_id] *)
Definition next_message_id : Net Client Z :=
  now ← client_outside unix_time;
  client_ids (generate_client_message_id now.1 now.2).

(** The clock is read, and the identifier of a message of the server checked. *)
Definition check_server_id (message_id : Z) : Net Client unit :=
  now ← client_outside unix_time;
  client_ids (validate_server_message_id message_id now.1).

Definition next_multiple_of (n k : Z) : Z := (n + k - 1) / k * k.

(** [encrypted_padding_length] *)
Definition encrypted_padding_length (body_length : Z) : Z :=
  let unpadded := 32 + body_length in
  let minimum := unpadded + 12 in
  next_multiple_of minimum 16 - unpadded.

(** [send_encrypted_message] *)
Definition send_encrypted_message (body : list ascii) (content_related : bool) : Net Client Z :=
  message_id ← next_message_id;
  padding ← client_outside (secure_random (Z.to_nat (encrypted_padding_length (size_of body))));
  session ← net_get cl_session;
  sequence_number ← client_sequence content_related;
  envelope ← net_of (map_err NetCrypto (encrypt_message (es_auth_key session) ClientToServer {|
    pm_server_salt := es_server_salt session; pm_session_id := es_session_id session; pm_message_id := message_id;
    pm_sequence_number := sequence_number; pm_body := body; pm_padding := padding |}));
  client_wire (send_payload (envelope_to_bytes envelope)) ;;
  mret message_id.

(** [send_acknowledgements] *)
Definition send_acknowledgements (message_ids : list Z) : Net Client unit :=
  body ← net_of (map_err (fun _ => InvalidServiceMessage) (build_msgs_ack message_ids));
  send_encrypted_message body false ;;
  mret tt.

(** The reception of one message: the next payload, opened, its identifier checked. *)
Definition receive_message : Net Client PlainMessage :=
  payload ← client_wire receive_payload;
  envelope ← net_of (map_err NetCrypto (envelope_from_bytes payload));
  session ← net_get cl_session;
  response ← net_of (map_err NetCrypto
    (decrypt_message (es_auth_key session) ServerToClient envelope (es_session_id session)));
  check_server_id (pm_message_id response) ;;
  mret response.

Definition acknowledge (sequence_number message_id : Z) (acks : list Z) : list Z :=
  if sequence_number mod 2 =? 1 then (acks ++ [message_id])%list else acks.

Definition continues (o : RpcOutcome) : bool := match o with RpcContinue => true | _ => false end.

(** The header and the body of the part of a container at [offset]: its identifier,
    sequence number and body, and where it ends. *)
Definition container_part (body : list ascii) (offset : Z) : result NetworkError (Z * Z * list ascii * Z) :=
  message_id ← read_i64_at body offset;
  sequence_number ← read_i32_at body (offset + 8);
  body_length ← read_i32_at body (offset + 12);
  reject_if (body_length <? 0) InvalidServiceMessage ;;
  body_start ← ok_or (checked_add_u64 offset 16) InvalidServiceMessage;
  body_end ← ok_or (checked_add_u64 body_start body_length) InvalidServiceMessage;
  inner ← ok_or (slice body body_start body_end) InvalidServiceMessage;
  Ok (message_id, sequence_number, inner, body_end).

(** The loop of [scan_rpc_body] over the parts of a container. *)
Fixpoint scan_container (scan : list ascii -> Z -> list Z -> Net Client (RpcOutcome * list Z)) (count : nat)
    (body : list ascii) (offset : Z) (outcome : RpcOutcome) (acks : list Z) : Net Client (Z * RpcOutcome * list Z) :=
  match count with
  | O => mret (offset, outcome, acks)
  | S count =>
      '(message_id, sequence_number, inner, body_end) ← net_of (container_part body offset);
      check_server_id message_id ;;
      '(inner_outcome, acks) ← scan inner message_id (acknowledge sequence_number message_id acks);
      scan_container scan count body body_end (if continues inner_outcome then outcome else inner_outcome) acks
  end.

(** [scan_rpc_body].  A part of a container is shorter than the container, so the
    length of the body is enough [depth]; with none left the body is empty and has
    no constructor. *)
Fixpoint scan_rpc_body (depth : nat) (request_message_id : Z) (body : list ascii) (response_message_id : Z)
    (acks : list Z) : Net Client (RpcOutcome * list Z) :=
  match depth with
  | O => net_fail InvalidServiceMessage
  | S depth =>
      constructor ← net_of (read_u32_at body 0);
      if constructor =? NET_RPC_RESULT_CONSTRUCTOR then
        request_id ← net_of (read_i64_at body 4);
        if negb (request_id =? request_message_id) then mret (RpcContinue, acks)
        else
          result_body ← net_of (ok_or (match drop 12 body with [] => None | l => Some l end) InvalidServiceMessage);
          mret (RpcAnswered {| nr_request_message_id := request_message_id;
                  nr_response_message_id := response_message_id; nr_body := result_body |}, acks)
      else if constructor =? FUTURE_SALTS_CONSTRUCTOR then
        request_id ← net_of (read_i64_at body 4);
        if negb (request_id =? request_message_id) then mret (RpcContinue, acks)
        else
          mret (RpcAnswered {| nr_request_message_id := request_message_id;
                  nr_response_message_id := response_message_id; nr_body := body |}, acks)
      else if constructor =? NEW_SESSION_CREATED_CONSTRUCTOR then
        salt ← net_of (read_i64_at body 20);
        set_salt salt ;;
        mret (RpcContinue, acks)
      else if constructor =? BAD_SERVER_SALT_CONSTRUCTOR then
        message_id ← net_of (read_i64_at body 4);
        error_code ← net_of (read_i32_at body 16);
        if negb (message_id =? request_message_id) then net_fail (BadServerMessage message_id error_code)
        else
          salt ← net_of (read_i64_at body 20);
          set_salt salt ;;
          mret (RpcNewSalt, acks)
      else if constructor =? BAD_MSG_NOTIFICATION_CONSTRUCTOR then
        message_id ← net_of (read_i64_at body 4);
        code ← net_of (read_i32_at body 16);
        net_fail (BadServerMessage message_id code)
      else if constructor =? MESSAGE_CONTAINER_CONSTRUCTOR then
        count ← net_of (read_i32_at body 4);
        if negb ((0 <=? count) && (count <=? 1024)) then net_fail InvalidServiceMessage
        else
          '(offset, outcome, acks) ← scan_container (scan_rpc_body depth request_message_id) (Z.to_nat count) body 8
                                       RpcContinue acks;
          if negb (offset =? size_of body) then net_fail InvalidServiceMessage else mret (outcome, acks)
      else mret (RpcContinue, acks)
  end.

(** ** Requests *)

Inductive RoundsOutcome := Answered (result : NetRpcResult) | SaltChanged | Exhausted.

(** The inner loop of [invoke_raw]: at most [rounds] messages are read. *)
Fixpoint rpc_rounds (rounds : nat) (request_message_id : Z) : Net Client RoundsOutcome :=
  match rounds with
  | O => mret Exhausted
  | S rounds =>
      response ← receive_message;
      let acks := acknowledge (pm_sequence_number response) (pm_message_id response) [] in
      '(outcome, acks) ← scan_rpc_body (length (pm_body response)) request_message_id (pm_body response)
                           (pm_message_id response) acks;
      (match acks with [] => mret tt | _ => send_acknowledgements acks end) ;;
      match outcome with
      | RpcAnswered result => mret (Answered result)
      | RpcNewSalt => mret SaltChanged
      | RpcContinue => rpc_rounds rounds request_message_id
      end
  end.

(** The outer loop: [attempts] more, the number of this one being [attempt]. *)
Fixpoint rpc_attempts (attempts attempt : nat) (body : list ascii) : Net Client NetRpcResult :=
  match attempts with
  | O => net_fail RpcTimeout
  | S attempts =>
      request_message_id ← send_encrypted_message body true;
      outcome ← rpc_rounds DEFAULT_MAX_RPC_MESSAGES request_message_id;
      match outcome with
      | Answered result => mret result
      | SaltChanged => if (attempt =? 0)%nat then rpc_attempts attempts (S attempt) body else net_fail RpcTimeout
      | Exhausted => net_fail RpcTimeout
      end
  end.

(** [EstablishedSession::invoke_raw] *)
Definition invoke_raw (body : list ascii) : Net Client NetRpcResult :=
  if (size_of body =? 0) || negb (size_of body mod 4 =? 0) then net_fail InvalidServiceMessage
  else rpc_attempts 2 0 body.
(** ** Pings *)

Definition service_continues (o : ServiceOutcome) : bool := match o with ServiceContinue => true | _ => false end.

(** The loop of [process_service_body] over the parts of a container; it does not
    read their sequence numbers. *)
Fixpoint process_container (process : list ascii -> Net Client ServiceOutcome) (count : nat) (body : list ascii)
    (offset : Z) (outcome : ServiceOutcome) : Net Client (Z * ServiceOutcome) :=
  match count with
  | O => mret (offset, outcome)
  | S count =>
      message_id ← net_of (read_i64_at body offset);
      body_length ← net_of (read_i32_at body (offset + 12));
      net_of (reject_if (body_length <? 0) InvalidServiceMessage) ;;
      body_start ← net_of (ok_or (checked_add_u64 offset 16) InvalidServiceMessage);
      body_end ← net_of (ok_or (checked_add_u64 body_start body_length) InvalidServiceMessage);
      inner ← net_of (ok_or (slice body body_start body_end) InvalidServiceMessage);
      check_server_id message_id ;;
      inner_outcome ← process inner;
      process_container process count body body_end (if service_continues inner_outcome then outcome else inner_outcome)
  end.

(** [process_service_body] *)
Fixpoint process_service_body (depth : nat) (ping_id request_message_id : Z) (body : list ascii) : Net Client ServiceOutcome :=
  match depth with
  | O => net_fail InvalidServiceMessage
  | S depth =>
      constructor ← net_of (read_u32_at body 0);
      if constructor =? PONG_CONSTRUCTOR then
        response_message_id ← net_of (read_i64_at body 4);
        response_ping_id ← net_of (read_i64_at body 12);
        if negb (response_message_id =? request_message_id) || negb (response_ping_id =? ping_id) then net_fail PingMismatch
        else mret (ServicePong response_message_id)
      else if constructor =? NEW_SESSION_CREATED_CONSTRUCTOR then
        salt ← net_of (read_i64_at body 20);
        set_salt salt ;;
        mret ServiceContinue
      else if constructor =? BAD_SERVER_SALT_CONSTRUCTOR then
        message_id ← net_of (read_i64_at body 4);
        error_code ← net_of (read_i32_at body 16);
        if negb (message_id =? request_message_id) then net_fail (BadServerMessage message_id error_code)
        else
          salt ← net_of (read_i64_at body 20);
          set_salt salt ;;
          mret ServiceNewSalt
      else if constructor =? MESSAGE_CONTAINER_CONSTRUCTOR then
        count ← net_of (read_i32_at body 4);
        if negb ((0 <=? count) && (count <=? 1024)) then net_fail InvalidServiceMessage
        else
          '(offset, outcome) ← process_container (process_service_body depth ping_id request_message_id) (Z.to_nat count)
                                 body 8 ServiceContinue;
          if negb (offset =? size_of body) then net_fail InvalidServiceMessage else mret outcome
      else mret ServiceContinue
  end.

(** The inner loop of [send_ping]: a new salt is noted, and the loop goes on. *)
Fixpoint ping_rounds (rounds : nat) (ping_id request_message_id : Z) (new_salt : bool) : Net Client (PingResult + bool) :=
  match rounds with
  | O => mret (inr new_salt)
  | S rounds =>
      response ← receive_message;
      outcome ← process_service_body (length (pm_body response)) ping_id request_message_id (pm_body response);
      match outcome with
      | ServicePong response_message_id =>
          salt ← net_get (fun c => es_server_salt (cl_session c));
          mret (inl {| pr_ping_id := ping_id; pr_response_message_id := response_message_id; pr_server_salt := salt |})
      | ServiceNewSalt => ping_rounds rounds ping_id request_message_id true
      | ServiceContinue => ping_rounds rounds ping_id request_message_id new_salt
      end
  end.

Definition ping_body (ping_id : Z) : list ascii := (le_bytes 4 PING_CONSTRUCTOR ++ le_bytes 8 ping_id)%list.

Fixpoint ping_attempts (attempts attempt : nat) (ping_id : Z) : Net Client PingResult :=
  match attempts with
  | O => net_fail PongTimeout
  | S attempts =>
      request_message_id ← send_encrypted_message (ping_body ping_id) false;
      outcome ← ping_rounds DEFAULT_MAX_SERVICE_MESSAGES ping_id request_message_id false;
      match outcome with
      | inl pong => mret pong
      | inr new_salt =>
          if new_salt && (attempt =? 0)%nat then ping_attempts attempts (S attempt) ping_id else net_fail PongTimeout
      end
  end.

(** [EstablishedSession::send_ping] and [ping] *)
Definition send_ping (ping_id : Z) : Net Client PingResult := ping_attempts 2 0 ping_id.

Definition net_ping : Net Client PingResult :=
  ping_id ← client_outside random_i64;
  send_ping ping_id.

(** ** Establishing a session *)

(** What happens at an address when it is dialled: an error, or a stream with what
    its reads will answer. *)
Context (dial : DcEndpoint -> result string (list (result string (list ascii)))).

Fixpoint try_candidates (mode : TransportMode) (dc_id : Z) (found : list DcEndpoint) (attempts : list (DcEndpoint * string)) :
    Net Outside (ConnectedEndpoint * TcpTransport) :=
  match found with
  | [] => net_fail (ConnectFailed attempts)
  | candidate :: found =>
      match dial candidate with
      | Ok reads =>
          net_put (fun o => o ⟪ ou_reads := reads ⟫ ⟪ ou_written := [] ⟫) ;;
          mret ({| ce_dc_id := dc_id; ce_address := candidate |}, from_stream mode)
      | Err error => try_candidates mode dc_id found (attempts ++ [(candidate, error)])
      end
  end.

(** [connect_directory] *)
Definition connect_directory (directory : DcDirectory) (dc_id : Z) (purpose : DcPurpose) (mode : TransportMode)
    (prefer_ipv6 : bool) : Net Outside (ConnectedEndpoint * TcpTransport) :=
  found ← net_of (map_err NetDirectory (candidates directory dc_id purpose prefer_ipv6));
  try_candidates mode dc_id found [].

(** The state of [establish_auth_key]: its local variables, and the outside. *)
Record Shaking := { sk_wire : Wire; sk_handshake : AuthKeyHandshake; sk_ids : MessageIdGuard }.
#[export] Instance eta_Shaking : Eta Shaking := fun s => Build_Shaking (sk_wire s) (sk_handshake s) (sk_ids s).

Definition shaking_wire {A : Type} (m : Net Wire A) : Net Shaking A := on_part sk_wire (fun w s => s ⟪ sk_wire := w ⟫) m.

Definition shaking_ids {A : Type} (m : MessageIdGuard -> MessageIdGuard * result MessageIdError A) : Net Shaking A :=
  on_part sk_ids (fun g s => s ⟪ sk_ids := g ⟫) (net_step NetMessageId m).

Definition shaking_message_id : Net Shaking Z :=
  now ← shaking_wire (wire_outside unix_time);
  shaking_ids (generate_client_message_id now.1 now.2).

(** A step of the handshake, which may draw random bytes. *)
Definition shake {A : Type} (m : Rng -> AuthKeyHandshake -> AuthKeyHandshake * Rng * result HandshakeError A) : Net Shaking A :=
  fun s =>
    let '(h, g, r) := m (ou_rng (wr_outside (sk_wire s))) (sk_handshake s) in
    (s ⟪ sk_handshake := h ⟫ ⟪ sk_wire ::= fun w => w ⟪ wr_outside ::= fun o => o ⟪ ou_rng := g ⟫ ⟫ ⟫, map_err NetHandshake r).

(** A step that draws none. *)
Definition shake_pure {A : Type} (m : AuthKeyHandshake -> AuthKeyHandshake * result HandshakeError A) : Net Shaking A :=
  shake (fun g h => let '(h, r) := m h in (h, g, r)).

(** [exchange_and_validate] *)
Definition exchange_and_validate (request : PlaintextEnvelope) : Net Shaking PlaintextEnvelope :=
  response ← shaking_wire (exchange_plaintext request);
  now ← shaking_wire (wire_outside unix_time);
  shaking_ids (validate_server_message_id (pe_message_id response) now.1) ;;
  mret response.

(** The session made of the key. *)
Definition established_session (endpoint : ConnectedEndpoint) (key : EstablishedAuthKey) : Net Shaking EstablishedSession :=
  session_id ← shaking_wire (wire_outside random_i64);
  s ← net_get id;
  mret {| es_endpoint := endpoint; es_transport := wr_transport (sk_wire s); es_auth_key := ek_auth_key key;
          es_server_salt := ek_server_salt key; es_server_time := ek_server_time key; es_message_ids := sk_ids s;
          es_sequence := {| content_related_count := 0 |}; es_session_id := session_id |}.

(** The answer to the client's half of the key exchange; a retry identifier is drawn
    before the answer is looked at. *)
Definition dh_gen_exchange (request : PlaintextEnvelope) : Net Shaking DhGenAction :=
  response ← exchange_and_validate request;
  retry_message_id ← shaking_message_id;
  shake (receive_dh_gen response retry_message_id).

(** [continue_dh_retries] *)
Fixpoint continue_dh_retries (retries : nat) (endpoint : ConnectedEndpoint) (request : PlaintextEnvelope) :
    Net Shaking EstablishedSession :=
  match retries with
  | O => net_fail DhRetryLimit
  | S retries =>
      action ← dh_gen_exchange request;
      match action with
      | Established key => established_session endpoint key
      | RetryDh retry => continue_dh_retries retries endpoint retry
      end
  end.

(** [establish_auth_key], once connected and with its nonce drawn. *)
Definition run_handshake (directory : DcDirectory) (dc_id : Z) (endpoint : ConnectedEndpoint) : Net Shaking EstablishedSession :=
  message_id ← shaking_message_id;
  request ← shake_pure (handshake_begin message_id);
  response ← exchange_and_validate request;
  shake_pure (receive_res_pq response) ;;
  message_id ← shaking_message_id;
  request ← shake (prepare_req_dh_params message_id dc_id (dir_test_mode directory));
  response ← exchange_and_validate request;
  client_message_id ← shaking_message_id;
  request ← shake (receive_server_dh response client_message_id);
  action ← dh_gen_exchange request;
  match action with
  | Established key => established_session endpoint key
  | RetryDh retry => continue_dh_retries DEFAULT_MAX_DH_RETRIES endpoint retry
  end.

(** The handshake starts from a fresh guard. *)
Definition start_handshake (directory : DcDirectory) (dc_id : Z) (endpoint : ConnectedEndpoint) (transport : TcpTransport)
    (nonce : list ascii) : Net Outside EstablishedSession := fun o =>
  let '(s, r) := run_handshake directory dc_id endpoint
                   {| sk_wire := {| wr_transport := transport; wr_outside := o |};
                      sk_handshake := handshake_new nonce; sk_ids := guard_default |} in
  (wr_outside (sk_wire s), r).

(** [establish_auth_key] *)
Definition establish_auth_key (directory : DcDirectory) (dc_id : Z) (mode : TransportMode) (prefer_ipv6 : bool) :
    Net Outside EstablishedSession :=
  '(endpoint, transport) ← connect_directory directory dc_id Main mode prefer_ipv6;
  nonce ← secure_random 16;
  start_handshake directory dc_id endpoint transport nonce.
End network.

(** ** The loop of the transport takes bytes at every round *)

Section receiving.
Context `{R : Crc32}.

Lemma wait_for_some {A B : Type} (o : option A) (k : A -> result TransportError (option B)) (b : B) :
  wait_for o k = Ok (Some b) -> exists a, o = Some a /\ k a = Ok (Some b).
Proof. destruct o as [a|]; [by exists a|done]. Qed.

Lemma slice_bounds (input l : list ascii) (from to : Z) : slice input from to = Some l -> to <= size_of input.
Proof. unfold slice. destruct (_ && _) eqn:H; [|done]. lia. Qed.

Lemma of_le_bytes_nonneg (l : list ascii) : 0 <= of_le_bytes l.
Proof. apply of_le_bytes_range. Qed.

Lemma intermediate_consumes (codec : TransportFrameCodec) (input : list ascii) (f : DecodedFrame) :
  decode_intermediate codec input = Ok (Some f) -> 0 < df_consumed_bytes f <= size_of input.
Proof.
  unfold decode_intermediate. intros (l & Hs & H)%wait_for_some. apply slice_bounds in Hs. destruct (negb _).
  { oks. subst f. cbn. lia. }
  oks. apply wait_for_some in H as (payload & Hp & H). apply slice_bounds in Hp.
  pose proof (of_le_bytes_nonneg l). destruct (_ && _ && _ && _); oks; subst f; cbn [df_consumed_bytes frame_of]; lia.
Qed.

Lemma decode_consumes (codec : TransportFrameCodec) (input : list ascii) (f : DecodedFrame) :
  decode_frame codec input = Ok (Some f) -> 0 < df_consumed_bytes f <= size_of input.
Proof.
  unfold decode_frame. destruct (tc_mode codec).
  - unfold decode_full. intros (l & _ & H)%wait_for_some. oks. apply wait_for_some in H as (fr & Hs & H). oks. subst f.
    apply slice_bounds in Hs. cbn [df_consumed_bytes frame_of]. unfold FULL_FRAME_OVERHEAD in *. lia.
  - unfold decode_abridged. intros (a & Ha & H)%wait_for_some. destruct (negb _).
    { apply wait_for_some in H as (l & Hs & H). oks. subst f. apply slice_bounds in Hs. cbn. lia. }
    assert (Hfin : forall words header_length, 0 < header_length -> 0 <= words ->
      (let payload_length := words * 4 in
       validate_frame_length codec payload_length ;;
       let consumed_bytes := header_length + payload_length in
       wait_for (slice input header_length consumed_bytes) (fun payload =>
         Ok (Some (frame_of payload None None consumed_bytes)))) = Ok (Some f) ->
      0 < df_consumed_bytes f <= size_of input).
    { intros words hl Hhl Hw Hf. cbv zeta in Hf. oks. apply wait_for_some in Hf as (l & Hs & Hf). oks. subst f.
      apply slice_bounds in Hs. cbn. lia. }
    destruct (_ <? 127); [eapply (Hfin _ 1); [lia| |exact H]; pose proof (byte_at_range a); lia|].
    apply wait_for_some in H as (l & _ & H). eapply (Hfin _ 4); [lia| |exact H].
    apply Z.lor_nonneg. split; [apply Z.lor_nonneg; split|]; try apply Z.shiftl_nonneg; apply byte_at_range.
  - by apply intermediate_consumes.
  - by apply intermediate_consumes.
Qed.

(** The loop, round by round, as it is written. *)
Lemma take_frame_rounds_enough (codec : TransportFrameCodec) (rounds more : nat) (buffer : list ascii) :
  (length buffer <= rounds)%nat -> (rounds <= more)%nat ->
  take_frame_rounds more codec buffer = take_frame_rounds rounds codec buffer.
Proof.
  revert more buffer. induction rounds as [|rounds IH]; intros [|more] buffer Hb Hm; try done; try lia; cbn [take_frame_rounds].
  - destruct (decode_frame codec buffer) as [[f|]|e] eqn:Hd; try done. apply decode_consumes in Hd. lia.
  - destruct (decode_frame codec buffer) as [[f|]|e] eqn:Hd; try done. apply decode_consumes in Hd.
    destruct (df_quick_ack_token f); [|done]. apply IH; [|lia]. rewrite length_drop. lia.
Qed.

Lemma take_frame_step (codec : TransportFrameCodec) (buffer : list ascii) :
  take_frame codec buffer =
  match decode_frame codec buffer with
  | Err e => (buffer, Err e)
  | Ok None => (buffer, Ok None)
  | Ok (Some frame) =>
      let buffer := drop (Z.to_nat (df_consumed_bytes frame)) buffer in
      match df_quick_ack_token frame with
      | None => (buffer, Ok (Some (df_payload frame)))
      | Some _ => take_frame codec buffer
      end
  end.
Proof.
  unfold take_frame at 1. destruct (length buffer) as [|n] eqn:Hn; cbn [take_frame_rounds];
    destruct (decode_frame codec buffer) as [[f|]|e] eqn:Hd; try done; apply decode_consumes in Hd; [lia|].
  destruct (df_quick_ack_token f); [|done]. unfold take_frame.
  apply take_frame_rounds_enough; [done|]. rewrite length_drop. lia.
Qed.

Lemma take_frame_shorter (codec : TransportFrameCodec) (buffer rest : list ascii) (r : result TransportError (option (list ascii))) :
  take_frame codec buffer = (rest, r) -> (length rest <= length buffer)%nat.
Proof.
  unfold take_frame. generalize (length buffer) at 1 as rounds. intros rounds. revert buffer.
  induction rounds as [|rounds IH]; intros buffer; cbn [take_frame_rounds];
    destruct (decode_frame codec buffer) as [[f|]|e]; try (intros [= <- _]; done);
    destruct (df_quick_ack_token f); try (intros [= <- _]; rewrite length_drop; lia).
  intros Hr%IH. rewrite length_drop in Hr. lia.
Qed.

(** ** Frames arrive whatever the chunks *)

(** A frame that is only an acknowledgement, or that carries a payload. *)
Definition delivers (codec : TransportFrameCodec) (frame : list ascii) (payload : option (list ascii)) : Prop :=
  exists f, frames_as codec frame f /\ df_consumed_bytes f = size_of frame
    /\ match payload with
       | Some l => df_quick_ack_token f = None /\ df_payload f = l
       | None => is_Some (df_quick_ack_token f)
       end.

Lemma delivered_nonempty (codec : TransportFrameCodec) (frame : list ascii) (payload : option (list ascii)) :
  delivers codec frame payload -> (0 < length frame)%nat.
Proof.
  intros (f & [Hall _] & Hlen & _). specialize (Hall []). rewrite app_nil_r in Hall. apply decode_consumes in Hall. lia.
Qed.

(** A buffer that starts a frame, with what the next reads bring, is a stream. *)
Lemma take_frame_whole (codec : TransportFrameCodec) (frame rest payload : list ascii) :
  delivers codec frame (Some payload) -> take_frame codec (frame ++ rest) = (rest, Ok (Some payload)).
Proof.
  intros (f & [Hall _] & Hlen & Hack & Hp). rewrite take_frame_step, Hall. cbv zeta.
  by rewrite Hack, Hlen, Nat2Z.id, drop_app_length, Hp.
Qed.

Lemma take_frame_ack (codec : TransportFrameCodec) (frame rest : list ascii) :
  delivers codec frame None -> take_frame codec (frame ++ rest) = take_frame codec rest.
Proof.
  intros (f & [Hall _] & Hlen & [token Hack]). rewrite take_frame_step, Hall. cbv zeta.
  by rewrite Hack, Hlen, Nat2Z.id, drop_app_length.
Qed.

Lemma take_frame_short (codec : TransportFrameCodec) (frame : list ascii) (payload : option (list ascii)) (k : nat) :
  delivers codec frame payload -> (k < length frame)%nat -> take_frame codec (take k frame) = (take k frame, Ok None).
Proof. intros (f & [_ Hcut] & _) Hk. by rewrite take_frame_step, Hcut. Qed.

Definition bytes_read (chunks : list (list ascii)) : list (result string (list ascii)) := Ok <$> chunks.

Lemma app_splits (buffer tail frame rest : list ascii) :
  (buffer ++ tail = frame ++ rest)%list -> (length frame <= length buffer)%nat ->
  exists left, (buffer = frame ++ left)%list /\ (left ++ tail = rest)%list.
Proof.
  intros He Hl. exists (drop (length frame) buffer).
  assert (Hf : take (length frame) buffer = frame).
  { apply (f_equal (take (length frame))) in He. by rewrite take_app_le, take_app_length in He by done. }
  split; [by rewrite <- Hf at 1; rewrite take_drop|].
  apply (f_equal (drop (length frame))) in He. by rewrite drop_app_le, drop_app_length in He by done.
Qed.

(** The buffer gives the payload, or keeps less than what comes before its end. *)
Lemma take_frame_stream (codec : TransportFrameCodec) (acks : list (list ascii)) (frame payload rest buffer tail : list ascii) :
  Forall (fun ack => delivers codec ack None) acks -> delivers codec frame (Some payload) ->
  (buffer ++ tail = concat acks ++ frame ++ rest)%list ->
  (exists left, take_frame codec buffer = (left, Ok (Some payload)) /\ (left ++ tail = rest)%list)
  \/ exists left acks', take_frame codec buffer = (left, Ok None) /\ Forall (fun ack => delivers codec ack None) acks'
       /\ (left ++ tail = concat acks' ++ frame ++ rest)%list /\ (length left < length (concat acks' ++ frame))%nat.
Proof.
  intros Hacks Hf. revert buffer. induction Hacks as [|ack acks Hack Hacks IH]; intros buffer He; cbn [concat app] in He.
  - destruct (decide (length frame <= length buffer)%nat) as [Hl|Hl].
    + left. destruct (app_splits _ _ _ _ He Hl) as (left & -> & Hr). exists left. split; [by apply take_frame_whole|done].
    + right. exists buffer, []. assert (Hb : buffer = take (length buffer) frame).
      { apply (f_equal (take (length buffer))) in He. rewrite take_app_length, take_app_le in He by lia. done. }
      split; [rewrite Hb at 1 2; eapply take_frame_short; eauto; lia|].
      split; [done|]. split; [done|]. cbn. lia.
  - rewrite <- app_assoc in He. destruct (decide (length ack <= length buffer)%nat) as [Hl|Hl].
    + destruct (app_splits _ _ _ _ He Hl) as (left & -> & Hr). rewrite take_frame_ack by done. by apply IH.
    + right. exists buffer, (ack :: acks). assert (Hb : buffer = take (length buffer) ack).
      { apply (f_equal (take (length buffer))) in He. rewrite take_app_length, take_app_le in He by lia. done. }
      split; [rewrite Hb at 1 2; eapply take_frame_short; eauto; lia|].
      split; [by constructor|]. cbn [concat]. rewrite <- app_assoc. split; [done|]. rewrite !length_app. lia.
Qed.

(** The next payload, when acknowledgements may come before it. *)
Lemma receive_next (codec : TransportFrameCodec) (acks : list (list ascii)) (frame payload rest buffer : list ascii)
    (chunks : list (list ascii)) (more : list (result string (list ascii))) :
  Forall (fun ack => delivers codec ack None) acks -> delivers codec frame (Some payload) ->
  Forall (fun chunk => chunk <> []) chunks -> (buffer ++ concat chunks = concat acks ++ frame ++ rest)%list ->
  exists buffer' chunks', receive_loop codec buffer (bytes_read chunks ++ more) = (buffer', bytes_read chunks' ++ more, Ok payload)%list
    /\ (buffer' ++ concat chunks' = rest)%list /\ Forall (fun chunk => chunk <> []) chunks'.
Proof.
  intros Hacks Hf Hchunks. revert acks buffer Hacks.
  induction Hchunks as [|chunk chunks Hne Hchunks IH]; intros acks buffer Hacks He;
    destruct (take_frame_stream codec acks frame payload rest buffer _ Hacks Hf He)
      as [(left & Ht & Hr)|(left & acks' & Ht & Hacks' & Hr & Hl)].
  - exists left, []. split; [|done]. cbn [bytes_read fmap list_fmap app]. destruct more; cbn [receive_loop]; by rewrite Ht.
  - cbn [concat] in Hr. rewrite app_nil_r in Hr. subst left. rewrite app_assoc, length_app in Hl. lia.
  - exists left, (chunk :: chunks). split; [|by split; [|constructor]].
    cbn [bytes_read fmap list_fmap app receive_loop]. by rewrite Ht.
  - cbn [concat] in Hr. rewrite app_assoc in Hr. destruct (IH acks' (left ++ chunk)%list Hacks' Hr) as (b & cs & Hloop & Hrest).
    exists b, cs. split; [|done]. cbn [bytes_read fmap list_fmap app receive_loop]. rewrite Ht.
    destruct chunk; [done|]. exact Hloop.
Qed.
End receiving.
