(* ===== verification/NetworkAnswers.v ===== *)
(** * The answers the Telegram client returns ([telegram-network/src/lib.rs])

    What every operation of a session keeps, however it ends: the key, the identity
    of the session and what was written.  From it, that a request is answered by the
    answer to it and no other; and what a refused salt does to a ping. *)

From S2P Require Import Prelude Text Maps Bytes Tl Transport MtSession Crypto Dc Api Numbers Handshake Network.

(** ** What an operation keeps, however it ends *)

Section keeps.
Context {S : Type} (P : S -> S -> Prop) `{!Reflexive P, !Transitive P}.

Definition keeps {A : Type} (m : Net S A) : Prop := forall s, P s (fst (m s)).

Lemma keeps_ret {A : Type} (a : A) : keeps (mret a).
Proof. intros s. reflexivity. Qed.

Lemma keeps_of {A : Type} (r : result NetworkError A) : keeps (net_of r).
Proof. intros s. reflexivity. Qed.

Lemma keeps_fail {A : Type} (e : NetworkError) : keeps (A := A) (net_fail e).
Proof. intros s. reflexivity. Qed.

Lemma keeps_get {A : Type} (f : S -> A) : keeps (net_get f).
Proof. intros s. reflexivity. Qed.

Lemma keeps_bind {A B : Type} (m : Net S A) (f : A -> Net S B) : keeps m -> (forall a, keeps (f a)) -> keeps (m ≫= f).
Proof.
  intros Hm Hf s. unfold mbind, net_bind. specialize (Hm s). destruct (m s) as [s' [a|e]]; [|exact Hm].
  etransitivity; [exact Hm|apply Hf].
Qed.
End keeps.

#[export] Hint Resolve keeps_ret keeps_of keeps_fail keeps_get keeps_bind : network.

Lemma net_bind_ok {S A B : Type} (m : Net S A) (f : A -> Net S B) (s s' : S) (b : B) :
  (m ≫= f) s = (s', Ok b) <-> exists s1 a, m s = (s1, Ok a) /\ f a s1 = (s', Ok b).
Proof.
  unfold mbind, net_bind. split.
  - destruct (m s) as [s1 [a|e]]; [by exists s1, a|done].
  - by intros (s1 & a & -> & ->).
Qed.

Lemma net_ret_ok {S A : Type} (a b : A) (s s' : S) : mret (M := Net S) a s = (s', Ok b) <-> s' = s /\ b = a.
Proof. split; [by intros [= <- <-]|by intros [-> ->]]. Qed.

Lemma net_of_ok {S A : Type} (r : result NetworkError A) (s s' : S) (a : A) : net_of r s = (s', Ok a) <-> s' = s /\ r = Ok a.
Proof. split; [by intros [= <- ->]|by intros [-> ->]]. Qed.

Lemma net_get_ok {S A : Type} (f : S -> A) (s s' : S) (a : A) : net_get f s = (s', Ok a) <-> s' = s /\ a = f s.
Proof. split; [by intros [= <- <-]|by intros [-> ->]]. Qed.

Lemma net_put_ok {S : Type} (f : S -> S) (s s' : S) (u : unit) : net_put f s = (s', Ok u) <-> s' = f s.
Proof. destruct u. split; [by intros [= <-]|by intros ->]. Qed.

Lemma net_fail_ok {S A : Type} (e : NetworkError) (s s' : S) (a : A) : net_fail e s = (s', Ok a) <-> False.
Proof. by split. Qed.

Lemma on_part_ok {S T A : Type} (get : S -> T) (put : T -> S -> S) (m : Net T A) (s s' : S) (a : A) :
  on_part get put m s = (s', Ok a) <-> exists t, m (get s) = (t, Ok a) /\ s' = put t s.
Proof.
  unfold on_part. destruct (m (get s)) as [t r]. split; [intros [= <- ->]; by exists t|by intros (t' & [= <- ->] & ->)].
Qed.

Lemma net_step_ok {S E A : Type} (convert : E -> NetworkError) (m : S -> S * result E A) (s s' : S) (a : A) :
  net_step convert m s = (s', Ok a) <-> m s = (s', Ok a).
Proof.
  unfold net_step. destruct (m s) as [s1 [b|e]]; cbn; split; congruence || by intros [= <- <-].
Qed.

(** Take apart an operation that succeeded. *)
Ltac net_ok_step :=
  match goal with
  | H : (_ ≫= _) _ = (_, Ok _) |- _ =>
      let s := fresh "s" in let a := fresh "a" in let Ha := fresh "Hok" in
      apply net_bind_ok in H as (s & a & Ha & H); cbv beta in H
  | H : mret _ _ = (_, Ok _) |- _ => apply net_ret_ok in H as [-> H]
  | H : net_of _ _ = (_, Ok _) |- _ => apply net_of_ok in H as [-> H]
  | H : net_get _ _ = (_, Ok _) |- _ => apply net_get_ok in H as [-> H]
  | H : net_put _ _ = (_, Ok _) |- _ => apply net_put_ok in H
  | H : net_fail _ _ = (_, Ok _) |- _ => by apply net_fail_ok in H
  | H : on_part _ _ _ _ = (_, Ok _) |- _ =>
      let t := fresh "t" in let Ht := fresh "Hpart" in apply on_part_ok in H as (t & Ht & H)
  | H : net_step _ _ _ = (_, Ok _) |- _ => apply net_step_ok in H
  | p : (_ * _)%type |- _ => destruct p
  end.
Ltac net_oks := repeat net_ok_step.

(** The keys and the identity of a session stay; what was written stays written. *)
Record grows (c c' : Client) : Prop := {
  gr_key : es_auth_key (cl_session c') = es_auth_key (cl_session c);
  gr_session : es_session_id (cl_session c') = es_session_id (cl_session c);
  gr_endpoint : es_endpoint (cl_session c') = es_endpoint (cl_session c);
  gr_written : exists l, ou_written (cl_outside c') = (ou_written (cl_outside c) ++ l)%list;
}.

#[export] Instance grows_refl : Reflexive grows.
Proof. intros c. split; try done. exists []. by rewrite app_nil_r. Qed.

#[export] Instance grows_trans : Transitive grows.
Proof.
  intros a b c [? ? ? [l Hl]] [? ? ? [k Hk]]. split; try congruence. exists (l ++ k)%list. by rewrite Hk, Hl, app_assoc.
Qed.

Definition wire_grows (w w' : Wire) : Prop :=
  exists l, ou_written (wr_outside w') = (ou_written (wr_outside w) ++ l)%list.

#[export] Instance wire_grows_refl : Reflexive wire_grows.
Proof. intros w. exists []. by rewrite app_nil_r. Qed.
#[export] Instance wire_grows_trans : Transitive wire_grows.
Proof. intros a b c [l Hl] [k Hk]. exists (l ++ k)%list. by rewrite Hk, Hl, app_assoc. Qed.

Section safety.
Context `{MC : MtCipher, R : Crc32}.

Lemma write_all_grows (bytes : list ascii) : keeps wire_grows (wire_outside (write_all bytes)).
Proof.
  intros w. unfold wire_outside, on_part, write_all, wire_grows.
  destruct bytes as [|b bytes]; [|destruct (ou_write_faults _ _)]; cbn [fst]; fields; eauto; exists []; by rewrite app_nil_r.
Qed.

Lemma codec_step_grows {A : Type} (m : Net TransportFrameCodec A) :
  keeps wire_grows (on_part (fun w => tt_codec (wr_transport w)) (fun c w => w ⟪ wr_transport ::= fun t => t ⟪ tt_codec := c ⟫ ⟫) m).
Proof. intros w. unfold on_part. destruct (m _) as [c r]. exists []. cbn [fst]. fields. by rewrite app_nil_r. Qed.

Lemma initialised_grows : keeps wire_grows (net_put (fun w => w ⟪ wr_transport ::= fun t => t ⟪ tt_initialized := true ⟫ ⟫)).
Proof. intros w. exists []. cbn [fst net_put]. fields. by rewrite app_nil_r. Qed.

#[local] Hint Resolve write_all_grows codec_step_grows initialised_grows : network.

(** Through the steps of an operation. *)
Ltac through := repeat match goal with
  | |- keeps _ (_ ≫= _) => apply keeps_bind; [typeclasses eauto| |intros ?]
  | |- keeps _ (if ?b then _ else _) => destruct b
  | |- keeps _ (let '(_, _) := ?p in _) => destruct p
  | |- keeps _ (match ?x with _ => _ end) => destruct x
  | |- _ => solve [auto with network typeclass_instances]
  end.

Lemma send_payload_grows (payload : list ascii) : keeps wire_grows (send_payload payload).
Proof. unfold send_payload. through. Qed.

Lemma receive_payload_grows : keeps wire_grows receive_payload.
Proof.
  intros w. unfold receive_payload. destruct (receive_loop _ _ _) as [[b reads] r]. exists []. cbn [fst]. fields.
  by rewrite app_nil_r.
Qed.

Lemma client_wire_grows {A : Type} (m : Net Wire A) : keeps wire_grows m -> keeps grows (client_wire m).
Proof.
  intros Hm c. unfold client_wire, on_part. specialize (Hm {| wr_transport := es_transport (cl_session c); wr_outside := cl_outside c |}).
  destruct (m _) as [w r]. cbn [fst] in *. split; fields; done.
Qed.

(** An operation that writes nothing and leaves the session's identity. *)
Lemma quiet_grows {A : Type} (m : Net Client A) :
  (forall c, let c' := fst (m c) in
     es_auth_key (cl_session c') = es_auth_key (cl_session c) /\ es_session_id (cl_session c') = es_session_id (cl_session c)
     /\ es_endpoint (cl_session c') = es_endpoint (cl_session c) /\ ou_written (cl_outside c') = ou_written (cl_outside c)) ->
  keeps grows m.
Proof. intros Hm c. destruct (Hm c) as (? & ? & ? & Hw). split; try done. exists []. by rewrite app_nil_r. Qed.

Lemma unix_time_grows : keeps grows (client_outside unix_time).
Proof. by apply quiet_grows. Qed.

Lemma secure_random_grows (n : nat) : keeps grows (client_outside (secure_random n)).
Proof. apply quiet_grows. intros c. unfold client_outside, secure_random, on_part, net_step, fill_random. by destruct (draw _ _ _). Qed.

Lemma client_ids_grows {A : Type} (m : MessageIdGuard -> MessageIdGuard * result MessageIdError A) : keeps grows (client_ids m).
Proof. apply quiet_grows. intros c. unfold client_ids, on_part, net_step. by destruct (m _) as [g r]. Qed.

Lemma client_sequence_grows (content_related : bool) : keeps grows (client_sequence content_related).
Proof. apply quiet_grows. intros c. unfold client_sequence, on_part, net_step. by destruct (next_sequence _ _) as [g r]. Qed.

Lemma set_salt_grows (salt : Z) : keeps grows (set_salt salt).
Proof. by apply quiet_grows. Qed.

Lemma check_server_id_grows (id : Z) : keeps grows (check_server_id id).
Proof. unfold check_server_id. apply keeps_bind; [typeclasses eauto|apply unix_time_grows|intros ?; apply client_ids_grows]. Qed.

#[local] Hint Resolve send_payload_grows receive_payload_grows client_wire_grows unix_time_grows secure_random_grows client_ids_grows
  client_sequence_grows set_salt_grows check_server_id_grows : network.

Lemma send_grows (body : list ascii) (content_related : bool) : keeps grows (send_encrypted_message body content_related).
Proof. unfold send_encrypted_message, next_message_id. through. Qed.

Lemma receive_message_grows : keeps grows receive_message.
Proof. unfold receive_message. through. Qed.

Lemma scan_container_grows scan (count : nat) (body : list ascii) (offset : Z) (outcome : RpcOutcome) (acks : list Z) :
  (forall inner id acks, keeps grows (scan inner id acks)) -> keeps grows (scan_container scan count body offset outcome acks).
Proof.
  intros Hscan. revert offset outcome acks. induction count as [|count IH]; intros offset outcome acks; cbn [scan_container]; through.
Qed.

Lemma scan_grows (depth : nat) (request : Z) (body : list ascii) (id : Z) (acks : list Z) :
  keeps grows (scan_rpc_body depth request body id acks).
Proof.
  revert body id acks. induction depth as [|depth IH]; intros body id acks; cbn [scan_rpc_body]; through.
  apply scan_container_grows. auto.
Qed.

Lemma send_acknowledgements_grows (ids : list Z) : keeps grows (send_acknowledgements ids).
Proof. unfold send_acknowledgements. pose proof send_grows. through. Qed.

#[local] Hint Resolve send_grows receive_message_grows scan_grows send_acknowledgements_grows : network.

Lemma acknowledged_grows (acks : list Z) : keeps grows (match acks with [] => mret tt | _ => send_acknowledgements acks end).
Proof. destruct acks; through. Qed.

Lemma rpc_rounds_grows (rounds : nat) (request : Z) : keeps grows (rpc_rounds rounds request).
Proof. induction rounds as [|rounds IH]; cbn [rpc_rounds]; through. Qed.

Lemma rpc_attempts_grows (attempts attempt : nat) (body : list ascii) : keeps grows (rpc_attempts attempts attempt body).
Proof. pose proof rpc_rounds_grows. revert attempt. induction attempts as [|attempts IH]; intros attempt; cbn [rpc_attempts]; through. Qed.

(** ** Whose answer a request returns *)

(** The body holds, itself or in a part of it, the answer to the request: in the
    message of that identifier. *)
Inductive answers (request : Z) : list ascii -> Z -> NetRpcResult -> Prop :=
| answers_result body id l :
    read_u32_at body 0 = Ok NET_RPC_RESULT_CONSTRUCTOR -> read_i64_at body 4 = Ok request -> drop 12 body = l -> l <> [] ->
    answers request body id {| nr_request_message_id := request; nr_response_message_id := id; nr_body := l |}
| answers_salts body id :
    read_u32_at body 0 = Ok FUTURE_SALTS_CONSTRUCTOR -> read_i64_at body 4 = Ok request ->
    answers request body id {| nr_request_message_id := request; nr_response_message_id := id; nr_body := body |}
| answers_part body id offset part_id sequence inner stop r :
    read_u32_at body 0 = Ok MESSAGE_CONTAINER_CONSTRUCTOR ->
    container_part body offset = Ok (part_id, sequence, inner, stop) ->
    answers request inner part_id r -> answers request body id r.

Lemma answers_request (request : Z) (body : list ascii) (id : Z) (r : NetRpcResult) :
  answers request body id r -> nr_request_message_id r = request.
Proof. by induction 1. Qed.

Lemma scan_container_answers scan (request : Z) (body : list ascii) (count : nat) (offset stop : Z) (outcome : RpcOutcome)
    (acks acks' : list Z) (c c' : Client) (r : NetRpcResult) :
  (forall inner id acks acks' c c' r, scan inner id acks c = (c', Ok (RpcAnswered r, acks')) -> answers request inner id r) ->
  scan_container scan count body offset outcome acks c = (c', Ok (stop, RpcAnswered r, acks')) ->
  outcome = RpcAnswered r
  \/ exists offset part_id sequence inner stop, container_part body offset = Ok (part_id, sequence, inner, stop)
      /\ answers request inner part_id r.
Proof.
  intros Hscan. revert offset outcome acks c. induction count as [|count IH]; intros offset outcome acks c H; cbn [scan_container] in H.
  { net_oks. left. congruence. }
  net_oks. apply IH in H as [H|H]; [|by right].
  destruct (continues r0) eqn:Hc; [by left|]. subst r0. right. do 5 eexists. split; [eassumption|]. eapply Hscan. eassumption.
Qed.

Lemma scan_answers (depth : nat) (request : Z) (body : list ascii) (id : Z) (acks acks' : list Z) (c c' : Client) (r : NetRpcResult) :
  scan_rpc_body depth request body id acks c = (c', Ok (RpcAnswered r, acks')) -> answers request body id r.
Proof.
  revert body id acks acks' c c' r. induction depth as [|depth IH]; intros body id acks acks' c c' r H; cbn [scan_rpc_body] in H;
    net_oks.
  repeat (match type of H with (if ?b then _ else _) _ = _ => destruct b eqn:? end; net_oks; try discriminate);
    rewrite ?negb_false_iff, ?Z.eqb_eq in *; subst.
  - injection H as -> ->. destruct (drop 12 body) as [|b l] eqn:Hd; [done|]. injection Hok1 as <-. by apply answers_result.
  - injection H as -> ->. by apply answers_salts.
  - simplify_eq. eapply (scan_container_answers (scan_rpc_body depth request)) in Hok1 as [?|(o & pid & sq & inner & stop & Hp & Ha)];
      [done| |exact IH]. by eapply answers_part.
Qed.

Lemma receive_message_ok (c c' : Client) (m : PlainMessage) :
  receive_message c = (c', Ok m) ->
  exists e, decrypt_message (es_auth_key (cl_session c)) ServerToClient e (es_session_id (cl_session c)) = Ok m.
Proof.
  unfold receive_message. intros H. net_oks. rename select (client_wire _ _ = _) into Hw.
  pose proof (client_wire_grows receive_payload receive_payload_grows c) as [Hk Hs _ _]. rewrite Hw in Hk, Hs. cbn [fst] in Hk, Hs.
  exists a0. apply map_err_ok in Hok2. by rewrite <- Hk, <- Hs, H, <- Hok1.
Qed.

(** The client's state after an operation that succeeded. *)
Lemma grown {A : Type} (m : Net Client A) (c c' : Client) (a : A) : keeps grows m -> m c = (c', Ok a) -> grows c c'.
Proof. intros Hm H. specialize (Hm c). by rewrite H in Hm. Qed.

(** A frame of the payload is among what was written in between. *)
Definition frame_written (payload : list ascii) (before after : list ascii) : Prop :=
  exists codec codec' frame l k,
    encode_internal payload [] false codec = (codec', Ok frame) /\ after = (before ++ l ++ frame ++ k)%list.

Lemma write_all_ok (bytes : list ascii) (o o' : Outside) (u : unit) :
  write_all bytes o = (o', Ok u) -> ou_written o' = (ou_written o ++ bytes)%list.
Proof.
  unfold write_all. destruct bytes; [intros [= <- _]; by rewrite app_nil_r|].
  destruct (ou_write_faults _ _); [done|]. intros [= <- _]. by fields.
Qed.

Lemma send_payload_ok (payload : list ascii) (w w' : Wire) (u : unit) :
  send_payload payload w = (w', Ok u) -> frame_written payload (ou_written (wr_outside w)) (ou_written (wr_outside w')).
Proof.
  unfold send_payload, wire_outside. intros H. net_oks. rename select (write_all _ _ = _) into Hw.
  rename select (encode_internal _ _ _ _ = _) into He. apply write_all_ok in Hw. subst w' s1. clear Hok. fields.
  destruct a; net_oks.
  - exists (tt_codec (wr_transport w)), t0, a1, [], []. by rewrite Hw, app_nil_r.
  - rename select (write_all _ _ = _) into Hh. apply write_all_ok in Hh. subst.
    eexists _, t0, a1, _, []. split; [exact He|]. rewrite Hw. fields. by rewrite Hh, app_nil_r, <- app_assoc.
Qed.

Lemma frame_written_earlier (payload before between after : list ascii) :
  (exists l, after = (between ++ l)%list) -> frame_written payload before between -> frame_written payload before after.
Proof.
  intros [l ->] (codec & codec' & frame & l' & k & He & ->). exists codec, codec', frame, l', (k ++ l)%list.
  by rewrite !app_assoc.
Qed.

Lemma frame_written_later (payload before between after : list ascii) :
  (exists l, between = (before ++ l)%list) -> frame_written payload between after -> frame_written payload before after.
Proof.
  intros [l ->] (codec & codec' & frame & l' & k & He & ->). exists codec, codec', frame, (l ++ l')%list, k.
  by rewrite <- !app_assoc.
Qed.

(** The request was sealed under the key for the session and its frame written. *)
Definition request_sent (key : AuthKey) (session : Z) (body : list ascii) (id : Z) (before after : list ascii) : Prop :=
  exists m e, pm_body m = body /\ pm_message_id m = id /\ pm_session_id m = session
    /\ encrypt_message key ClientToServer m = Ok e /\ frame_written (envelope_to_bytes e) before after.

Lemma request_sent_earlier (key : AuthKey) (session : Z) (body : list ascii) (id : Z) (before between after : list ascii) :
  request_sent key session body id before between -> (exists l, after = (between ++ l)%list) ->
  request_sent key session body id before after.
Proof. intros (m & e & ? & ? & ? & ? & Hf) Hl. exists m, e. repeat split; try done. by eapply frame_written_earlier. Qed.

Lemma request_sent_later (key : AuthKey) (session : Z) (body : list ascii) (id : Z) (before between after : list ascii) :
  (exists l, between = (before ++ l)%list) -> request_sent key session body id between after ->
  request_sent key session body id before after.
Proof. intros Hl (m & e & ? & ? & ? & ? & Hf). exists m, e. repeat split; try done. by eapply frame_written_later. Qed.

Lemma send_ok (body : list ascii) (content_related : bool) (c c' : Client) (id : Z) :
  send_encrypted_message body content_related c = (c', Ok id) ->
  request_sent (es_auth_key (cl_session c)) (es_session_id (cl_session c)) body id (ou_written (cl_outside c)) (ou_written (cl_outside c')).
Proof.
  unfold send_encrypted_message, client_wire. intros H. net_oks. subst.
  assert (G : grows c s0).
  { transitivity s; [eapply grown; [|eassumption]; unfold next_message_id; through|].
    eapply grown; [apply secure_random_grows|eassumption]. }
  assert (G' : grows s0 s2) by (eapply grown; [apply client_sequence_grows|eassumption]).
  rename select (send_payload _ _ = _) into Hp. apply send_payload_ok in Hp. fields.
  eexists _, a3. split; [|split; [|split; [|split]]]; cycle 3.
  { apply map_err_ok in Hok3. rewrite <- (gr_key _ _ G). exact Hok3. }
  { eapply frame_written_later; [|exact Hp]. exact (gr_written _ _ (transitivity G G')). }
  all: done || exact (gr_session _ _ G).
Qed.

(** What [invoke_raw] returns was asked for by it, and answered by the server. *)
Definition answered (key : AuthKey) (session : Z) (body : list ascii) (before after : list ascii) (r : NetRpcResult) : Prop :=
  request_sent key session body (nr_request_message_id r) before after
  /\ exists e m, decrypt_message key ServerToClient e session = Ok m
       /\ answers (nr_request_message_id r) (pm_body m) (pm_message_id m) r.

Lemma rpc_rounds_answered (rounds : nat) (request : Z) (c c' : Client) (r : NetRpcResult) :
  rpc_rounds rounds request c = (c', Ok (Answered r)) ->
  exists e m, decrypt_message (es_auth_key (cl_session c)) ServerToClient e (es_session_id (cl_session c)) = Ok m
    /\ answers request (pm_body m) (pm_message_id m) r.
Proof.
  revert c. induction rounds as [|rounds IH]; intros c H; cbn [rpc_rounds] in H; net_oks; [done|].
  rename select (receive_message _ = _) into Hm. rename select (scan_rpc_body _ _ _ _ _ _ = _) into Hs.
  destruct r0 as [r0| |]; net_oks; [|done|].
  { injection H as <-. apply scan_answers in Hs. apply receive_message_ok in Hm as [e He]. by exists e, a. }
  assert (G : grows c s1).
  { transitivity s; [eapply grown; [apply receive_message_grows|exact Hm]|]. transitivity s0.
    - eapply grown; [apply scan_grows|exact Hs].
    - eapply (grown _ _ _ _ (acknowledged_grows l)). eassumption. }
  rewrite <- (gr_key _ _ G), <- (gr_session _ _ G). by apply IH.
Qed.

Lemma rpc_attempts_answered (attempts attempt : nat) (body : list ascii) (c c' : Client) (r : NetRpcResult) :
  rpc_attempts attempts attempt body c = (c', Ok r) ->
  answered (es_auth_key (cl_session c)) (es_session_id (cl_session c)) body (ou_written (cl_outside c)) (ou_written (cl_outside c')) r.
Proof.
  revert attempt c. induction attempts as [|attempts IH]; intros attempt c H; cbn [rpc_attempts] in H; net_oks.
  rename select (send_encrypted_message _ _ _ = _) into Hs. rename select (rpc_rounds _ _ _ = _) into Hr.
  pose proof (grown _ _ _ _ (send_grows _ _) Hs) as Gs. pose proof (grown _ _ _ _ (rpc_rounds_grows _ _) Hr) as Gr.
  destruct a0 as [r0| |]; net_oks.
  - subst. apply rpc_rounds_answered in Hr as (e & m & Hd & Ha). split.
    + rewrite (answers_request _ _ _ _ Ha). eapply request_sent_earlier; [by eapply send_ok|apply Gr].
    + exists e, m. rewrite (answers_request _ _ _ _ Ha), <- (gr_key _ _ Gs), <- (gr_session _ _ Gs). done.
  - destruct (attempt =? 0)%nat; net_oks. pose proof (transitivity Gs Gr) as G. apply IH in H as [Hsent Hrest].
    rewrite (gr_key _ _ G), (gr_session _ _ G) in *. split; [|done].
    eapply request_sent_later; [apply G|exact Hsent].
Qed.

Lemma invoke_raw_grows (body : list ascii) : keeps grows (invoke_raw body).
Proof. unfold invoke_raw. destruct (_ || _); [apply keeps_fail; typeclasses eauto|apply rpc_attempts_grows]. Qed.

Lemma invoke_raw_answered (body : list ascii) (c c' : Client) (r : NetRpcResult) :
  invoke_raw body c = (c', Ok r) ->
  answered (es_auth_key (cl_session c)) (es_session_id (cl_session c)) body (ou_written (cl_outside c)) (ou_written (cl_outside c')) r.
Proof. unfold invoke_raw. intros H. destruct (_ || _); net_oks. by apply rpc_attempts_answered in H. Qed.

(** C10: a request is never answered by the answer to another one: what [invoke_raw]
    returns was found - in a message or in a part of a container, at any depth - in
    something the server sealed for this session, names the identifier under which
    this very body was sealed for the session and written by this call, and is not
    empty.  So it is after a changed salt too, when the body goes out twice. *)
Theorem invoke_answers_its_request (body : list ascii) (c c' : Client) (r : NetRpcResult) :
  invoke_raw body c = (c', Ok r) ->
  grows c c'
  /\ (exists plain envelope, pm_body plain = body /\ pm_message_id plain = nr_request_message_id r
       /\ pm_session_id plain = es_session_id (cl_session c)
       /\ encrypt_message (es_auth_key (cl_session c)) ClientToServer plain = Ok envelope
       /\ frame_written (envelope_to_bytes envelope) (ou_written (cl_outside c)) (ou_written (cl_outside c')))
  /\ exists envelope answer,
       decrypt_message (es_auth_key (cl_session c)) ServerToClient envelope (es_session_id (cl_session c)) = Ok answer
       /\ answers (nr_request_message_id r) (pm_body answer) (pm_message_id answer) r.
Proof.
  intros H. split; [exact (grown _ _ _ _ (invoke_raw_grows body) H)|]. by apply invoke_raw_answered in H as [Hsent Hanswer].
Qed.
End safety.

(** ** A session with a toy server *)

#[local] Existing Instance toy_crc.

(** Two seconds on the clock, the bytes of the generator all one. *)
Definition toy_outside (reads : list (result string (list ascii))) : Outside := {|
  ou_reads := reads; ou_written := []; ou_write_faults := fun _ => None; ou_writes := 0;
  ou_clock := fun _ => Some (2, 0); ou_ticks := 0;
  ou_rng := {| draw := fun _ n => Some (replicate n (byte_of 1)); drawn := 0 |} |}.

Definition toy_client (reads : list (result string (list ascii))) : Client := {|
  cl_session := {|
    es_endpoint := {| ce_dc_id := 2; ce_address := {|
      ep_dc_id := 2; ep_ip_address := V4 16909060; ep_port := 443; ep_media_only := false; ep_tcpo_only := false;
      ep_cdn := false; ep_is_static := false; ep_this_port_only := false; ep_secret := None |} |};
    es_transport := from_stream Intermediate; es_auth_key := toy_key; es_server_salt := 5; es_server_time := 2;
    es_message_ids := guard_default; es_sequence := {| content_related_count := 0 |}; es_session_id := 77 |};
  cl_outside := toy_outside reads |}.

(** What the server sends to carry a message. *)
Definition toy_frame (id sequence : Z) (body : list ascii) : list ascii :=
  match (e ← encrypt_message toy_key ServerToClient {|
           pm_server_salt := 5; pm_session_id := 77; pm_message_id := id; pm_sequence_number := sequence;
           pm_body := body; pm_padding := replicate (Z.to_nat (encrypted_padding_length (size_of body))) (byte_of 1) |};
         Ok (envelope_to_bytes e)) with
  | Ok payload => (le_bytes 4 (size_of payload) ++ payload)%list
  | Err _ => []
  end.

Definition new_salt_body (request salt : Z) : list ascii :=
  (le_bytes 4 BAD_SERVER_SALT_CONSTRUCTOR ++ le_bytes 8 request ++ le_bytes 4 0 ++ le_bytes 4 48 ++ le_bytes 8 salt)%list.
Definition result_body (request : Z) (l : list ascii) : list ascii :=
  (le_bytes 4 NET_RPC_RESULT_CONSTRUCTOR ++ le_bytes 8 request ++ l)%list.
Definition container_body (parts : list (Z * Z * list ascii)) : list ascii :=
  (le_bytes 4 MESSAGE_CONTAINER_CONSTRUCTOR ++ le_bytes 4 (size_of parts)
   ++ concat (map (fun '(id, sequence, l) => le_bytes 8 id ++ le_bytes 4 sequence ++ le_bytes 4 (size_of l) ++ l) parts))%list.

(** The salt is out of date; the second attempt is answered in a container, after the
    answer to a request of another session, the bytes arriving in two reads. *)
Definition toy_reads : list (result string (list ascii)) :=
  let stream := (toy_frame 8589934601 0 (new_salt_body 8589934596 9)
    ++ toy_frame 8589934605 2 (container_body [(8589934609, 1, result_body 8589934596 (bytes_of "late"));
                                               (8589934613, 3, result_body 8589934600 (bytes_of "here"))]))%list in
  [Ok (take 50 stream); Ok (drop 50 stream)].

Lemma invoke_answers_its_request_witness :
  exists c' r, invoke_raw (bytes_of "help") (toy_client toy_reads) = (c', Ok r)
    /\ nr_request_message_id r = 8589934600 /\ nr_response_message_id r = 8589934613 /\ nr_body r = bytes_of "here"
    /\ exists plain, pm_body plain = bytes_of "help" /\ pm_message_id plain = 8589934600.
Proof.
  destruct (invoke_raw (bytes_of "help") (toy_client toy_reads)) as [c' [r|e]] eqn:H; [|exfalso; vm_compute in H; discriminate H].
  assert (Hr : r = {| nr_request_message_id := 8589934600; nr_response_message_id := 8589934613; nr_body := bytes_of "here" |})
    by (apply (f_equal snd) in H; vm_compute in H; injection H as <-; reflexivity).
  exists c', r. split; [reflexivity|]. split_and!; [subst r; reflexivity..|].
  destruct (invoke_answers_its_request (bytes_of "help") (toy_client toy_reads) c' r H) as (_ & (plain & _ & Hbody & Hid & _) & _).
  exists plain. split; [exact Hbody|]. rewrite Hid, Hr. reflexivity.
Defined.

(** A ping that is refused for its salt is not sent again when the server says so:
    the loop goes on reading, and fails with the read that follows, although the
    salt is known.  [invoke_raw] sends its request again. *)
Lemma ping_waits_after_new_salt :
  let refusal := [Ok (toy_frame 8589934601 0 (new_salt_body 8589934596 9)); Err "timed out"] in
  let '(pinged, r) := send_ping 1 (toy_client refusal) in
  let '(invoked, _) := invoke_raw (bytes_of "help") (toy_client refusal) in
  r = Err (NetIo "timed out") /\ es_server_salt (cl_session pinged) = 9
  /\ ou_writes (cl_outside pinged) = 2%nat /\ ou_writes (cl_outside invoked) = 3%nat.
Proof. vm_compute. split_and!; reflexivity. Qed.

(** ** A message from end to end

    The layers under a session put together: the identifier, the sealing and the
    framing. *)

Section channel.
Context `{C : MtCipher, !MtCipherLaws C, R : Crc32, !Crc32Laws R}.

(** What the peer does with the bytes it received: take a frame off the stream, read
    the envelope, open it. *)
Definition receive (d : TransportFrameCodec) (k : AuthKey) (direction : CryptoDirection) (session : Z)
    (stream : list ascii) : option (PlainMessage * list ascii) :=
  match decode_frame d stream with
  | Ok (Some f) =>
      match (e ← envelope_from_bytes (df_payload f); decrypt_message k direction e session) with
      | Ok m => Some (m, drop (Z.to_nat (df_consumed_bytes f)) stream)
      | Err _ => None
      end
  | _ => None
  end.

(** A client's message reaches its peer.  A message whose identifier the client's
    guard handed out, at any point of any sequence of calls and clock readings,
    sealed under the shared key, and framed by a codec, is what a peer with the
    same key, the same session and a codec of the same mode takes off the stream,
    in all four transports; what follows the frame is left for the next one, and
    of a frame that has not arrived completely the peer sees nothing. *)
Theorem client_message_arrives (window : Z) (calls : list (Z * Z)) (k : AuthKey) (m : PlainMessage)
    (e : EncryptedEnvelope) (c c' d : TransportFrameCodec) (frame : list ascii) :
  pm_message_id m ∈ generated calls (guard_new window) -> message_typed m ->
  encrypt_message k ClientToServer m = Ok e ->
  encode_internal (envelope_to_bytes e) [] false c = (c', Ok frame) ->
  tc_mode d = tc_mode c -> 0 <= tc_next_sequence_number c ->
  size_of (envelope_to_bytes e) <= tc_max_frame_bytes d -> size_of (envelope_to_bytes e) < 2 ^ 31 ->
  (forall rest, receive d k ClientToServer (pm_session_id m) (frame ++ rest) = Some (m, rest))
  /\ (forall n, (n < length frame)%nat -> decode_frame d (take n frame) = Ok None).
Proof.
  intros Hid Htyped Hseal Hframe Hmode Hseq Hmax Hsmall.
  destruct (generated_facts calls (guard_new window)) as (_ & Hall & _); [done|].
  rewrite list.Forall_forall in Hall. destruct (Hall _ Hid) as [Hparity _].
  destruct (envelope_bytes _ _ _ _ Hseal) as (Hbytes & _ & Hlong).
  destruct (encoded_frames c c' d (envelope_to_bytes e) [] frame Hframe) as [Hwhole Hcut];
    rewrite ?app_nil_r in *; [done..|lia|].
  split; [|done]. intros rest. unfold receive. rewrite Hwhole. cbn [df_payload df_consumed_bytes frame_of].
  rewrite Hbytes. cbn [mbind result_bind].
  rewrite (proj2 (opens_iff_sealed k ClientToServer e (pm_session_id m) m)) by done.
  by rewrite Nat2Z.id, drop_app_length.
Qed.
End channel.

(** *** One message *)

#[local] Existing Instance toy_crc_laws.

(** The identifier a clock at two seconds gives. *)
Definition hello_message : PlainMessage := {|
  pm_server_salt := -5; pm_session_id := 77; pm_message_id := 8589934596; pm_sequence_number := 1;
  pm_body := bytes_of "ping"; pm_padding := replicate 12 (byte_of 1) |}.

Lemma client_message_arrives_witness :
  exists e c' frame, encrypt_message toy_key ClientToServer hello_message = Ok e
    /\ encode_internal (envelope_to_bytes e) [] false (codec_new Intermediate) = (c', Ok frame)
    /\ receive (codec_new Intermediate) toy_key ClientToServer 77 (frame ++ bytes_of "next")
       = Some (hello_message, bytes_of "next").
Proof.
  destruct (encrypt_message toy_key ClientToServer hello_message) as [e|err] eqn:He;
    [|vm_compute in He; discriminate He].
  destruct (encode_internal (envelope_to_bytes e) [] false (codec_new Intermediate)) as [c' [frame|err]] eqn:Hf;
    [|vm_compute in He; injection He as <-; vm_compute in Hf; discriminate Hf].
  exists e, c', frame. split; [reflexivity|]. split; [exact Hf|].
  destruct (client_message_arrives 300 [(2, 0)] toy_key hello_message e (codec_new Intermediate) c'
    (codec_new Intermediate) frame) as [Hall _];
    [apply (bool_decide_unpack _); vm_compute; exact I|split; simpl; lia|exact He|exact Hf|reflexivity
    |vm_compute; discriminate|vm_compute in He; injection He as <-; vm_compute; discriminate
    |vm_compute in He; injection He as <-; vm_compute; reflexivity|].
  apply Hall.
Defined.



(** ** The search of a container is deep enough *)

Lemma net_bind_cong {S A B : Type} (m m' : Net S A) (f g : A -> Net S B) (s : S) :
  m s = m' s -> (forall s' a, m s = (s', Ok a) -> f a s' = g a s') -> (m ≫= f) s = (m' ≫= g) s.
Proof. unfold mbind, net_bind. intros <-. destruct (m s) as [s' [a|e]]; [|done]. intros Hf. by apply Hf. Qed.

Lemma net_bind_ext {S A B : Type} (m : Net S A) (f g : A -> Net S B) (s : S) :
  (forall s' a, m s = (s', Ok a) -> f a s' = g a s') -> (m ≫= f) s = (m ≫= g) s.
Proof. by apply net_bind_cong. Qed.

Lemma net_bind_run {S A B : Type} (m : Net S A) (f : A -> Net S B) (s s' : S) (a : A) :
  m s = (s', Ok a) -> (m ≫= f) s = f a s'.
Proof. unfold mbind, net_bind. by intros ->. Qed.

(** What lies in a body behind a header of sixteen bytes is shorter. *)
Lemma slice_shorter (body inner : list ascii) (offset start stop : Z) :
  0 <= offset -> checked_add_u64 offset 16 = Some start -> slice body start stop = Some inner ->
  (length inner < length body)%nat /\ start <= stop.
Proof.
  unfold checked_add_u64, checked, slice. intros Ho Hstart Hs. destruct (in_u64 _); [|done]. injection Hstart as <-.
  destruct ((offset + 16 <=? stop) && (stop <=? Z.of_nat (length body))) eqn:Hb; [|done]. injection Hs as <-.
  rewrite length_take, length_drop. lia.
Qed.

Lemma part_shorter (body inner : list ascii) (offset id sequence stop : Z) :
  0 <= offset -> container_part body offset = Ok (id, sequence, inner, stop) -> (length inner < length body)%nat /\ 0 <= stop.
Proof.
  intros Ho. unfold container_part. intros H. oks. rename select (slice _ _ _ = _) into Hs.
  rename select (checked_add_u64 offset 16 = _) into Hstart. simplify_eq.
  pose proof (slice_shorter _ _ _ _ _ Ho Hstart Hs). unfold checked_add_u64, checked in Hstart. case_match; [|done]. simplify_eq. lia.
Qed.

Section depth.
Context `{MC : MtCipher, R : Crc32}.

Lemma scan_container_ext scan scan' (body : list ascii) (count : nat) (offset : Z) (outcome : RpcOutcome) (acks : list Z) (c : Client) :
  0 <= offset ->
  (forall inner id acks c, (length inner < length body)%nat -> scan inner id acks c = scan' inner id acks c) ->
  scan_container scan count body offset outcome acks c = scan_container scan' count body offset outcome acks c.
Proof.
  intros Ho Hscan. revert offset outcome acks c Ho. induction count as [|count IH]; intros offset outcome acks c Ho; [done|].
  cbn [scan_container]. apply net_bind_ext. intros c1 [[[id sequence] inner] stop] [-> Hpart]%net_of_ok.
  apply part_shorter in Hpart as [Hshort Hstop]; [|done]. apply net_bind_ext. intros c2 _ _.
  apply net_bind_cong; [by apply Hscan|]. intros c3 [o acks'] _. by apply IH.
Qed.

(** The length of the body is depth enough for the search of it: more changes nothing. *)
Lemma scan_depth_enough (request : Z) (depth : nat) (body : list ascii) (id : Z) (acks : list Z) (c : Client) :
  (length body <= depth)%nat -> scan_rpc_body depth request body id acks c = scan_rpc_body (length body) request body id acks c.
Proof.
  enough (Hboth : forall n m body id acks c, (length body <= n)%nat -> (length body <= m)%nat ->
    scan_rpc_body n request body id acks c = scan_rpc_body m request body id acks c) by (intros; by apply Hboth).
  clear. induction n as [|n IH]; intros [|m] body id acks c Hn Hm; [done|destruct body; [done|cbn in *; lia]..|].
  cbn [scan_rpc_body]. apply net_bind_ext. intros c1 constructor _.
  repeat (case_match; [done|]). case_match; [|done]. apply net_bind_ext. intros c2 count _. case_match; [done|].
  apply net_bind_cong; [|done]. apply scan_container_ext; [lia|]. intros inner id' acks' c' Hi. apply IH; lia.
Qed.

Lemma process_container_ext process process' (body : list ascii) (count : nat) (offset : Z) (outcome : ServiceOutcome) (c : Client) :
  0 <= offset ->
  (forall inner c, (length inner < length body)%nat -> process inner c = process' inner c) ->
  process_container process count body offset outcome c = process_container process' count body offset outcome c.
Proof.
  intros Ho Hp. revert offset outcome c Ho. induction count as [|count IH]; intros offset outcome c Ho; [done|].
  cbn [process_container]. do 3 (apply net_bind_ext; intros ? ? _).
  apply net_bind_ext. intros c4 start [-> Hstart]%net_of_ok. apply net_bind_ext. intros c5 stop [-> Hstop]%net_of_ok.
  apply net_bind_ext. intros c6 inner [-> Hin]%net_of_ok. apply net_bind_ext. intros c7 _ _.
  destruct (checked_add_u64 offset 16) as [start'|] eqn:Hs; [|done]. injection Hstart as ->.
  destruct (slice body start stop) as [inner'|] eqn:Hi; [|done]. injection Hin as ->.
  destruct (slice_shorter _ _ _ _ _ Ho Hs Hi) as [Hshort Hle].
  apply net_bind_cong; [by apply Hp|]. intros c8 o _. apply IH.
  unfold checked_add_u64, checked in Hs. case_match; [|done]. simplify_eq. lia.
Qed.

Lemma ping_depth_enough (ping request : Z) (depth : nat) (body : list ascii) (c : Client) :
  (length body <= depth)%nat -> process_service_body depth ping request body c = process_service_body (length body) ping request body c.
Proof.
  enough (Hboth : forall n m body c, (length body <= n)%nat -> (length body <= m)%nat ->
    process_service_body n ping request body c = process_service_body m ping request body c) by (intros; by apply Hboth).
  clear. induction n as [|n IH]; intros [|m] body c Hn Hm; [done|destruct body; [done|cbn in *; lia]..|].
  cbn [process_service_body]. apply net_bind_ext. intros c1 constructor _.
  repeat (case_match; [done|]). case_match; [|done]. apply net_bind_ext. intros c2 count _. case_match; [done|].
  apply net_bind_cong; [|done]. apply process_container_ext; [lia|]. intros inner c' Hi. apply IH; lia.
Qed.
End depth.

(** ** A request is answered *)

Section answer.
Context `{MC : MtCipher, !MtCipherLaws MC, R : Crc32}.

(** What the server puts in the client's way: after quick acknowledgements, a message
    sealed for the session, framed, in chunks that may hold the start of what follows. *)
Record sent_to (c : Client) (m : PlainMessage) : Prop := {
  sent_sealed : exists e acks frame rest chunks more,
    encrypt_message (es_auth_key (cl_session c)) ServerToClient m = Ok e
    /\ Forall (fun ack => delivers (tt_codec (es_transport (cl_session c))) ack None) acks
    /\ delivers (tt_codec (es_transport (cl_session c))) frame (Some (envelope_to_bytes e))
    /\ ou_reads (cl_outside c) = (bytes_read chunks ++ more)%list /\ Forall (fun chunk => chunk <> []) chunks
    /\ (tt_read_buffer (es_transport (cl_session c)) ++ concat chunks = concat acks ++ frame ++ rest)%list;
  sent_message : message_typed m /\ pm_session_id m = es_session_id (cl_session c) /\ pm_message_id m mod 2 = 1;
  sent_in_time : exists now g, ou_clock (cl_outside c) (ou_ticks (cl_outside c)) = Some now
    /\ validate_server_message_id (pm_message_id m) now.1 (es_message_ids (cl_session c)) = (g, Ok tt);
}.

Lemma message_received (c : Client) (m : PlainMessage) : sent_to c m -> exists c', receive_message c = (c', Ok m).
Proof.
  intros [(e & acks & frame & rest & chunks & more & He & Hacks & Hframe & Hreads & Hne & Hall) (Hty & Hs & Hid) (now & g & Hnow & Hg)].
  destruct (receive_next _ acks frame _ rest _ chunks more Hacks Hframe Hne Hall) as (buffer & chunks' & Hloop & _).
  destruct (envelope_bytes _ _ _ _ He) as (Hbytes & _).
  eexists. unfold receive_message, mbind, net_bind, client_wire, on_part, receive_payload. cbn [wr_transport wr_outside].
  rewrite Hreads, Hloop. unfold net_of at 1. rewrite Hbytes. cbn [map_err]. unfold net_get, net_of. fields.
  rewrite (proj2 (opens_iff_sealed _ ServerToClient e _ m)) by done. cbn [map_err].
  unfold check_server_id, mbind, net_bind, client_outside, on_part, unix_time. fields. cbn [wr_outside]. rewrite Hnow. cbn [ok_or].
  unfold client_ids, on_part, net_step. fields. rewrite Hg. reflexivity.
Qed.

(** A request is answered.  Once the request is out, if what reaches the client
    next - whatever quick acknowledgements come before it and whatever the chunks - is
    the server's answer to it, sealed for the session, in time and not seen before,
    then [invoke_raw] returns that answer.  Only the acknowledgement it owes the server
    for the message can still keep it from the caller: when sending that fails. *)
Theorem request_is_answered (body l : list ascii) (c c1 : Client) (id : Z) (m : PlainMessage) :
  body <> [] -> Z.of_nat (length body) mod 4 = 0 -> send_encrypted_message body true c = (c1, Ok id) ->
  sent_to c1 m ->
  read_u32_at (pm_body m) 0 = Ok NET_RPC_RESULT_CONSTRUCTOR -> read_i64_at (pm_body m) 4 = Ok id ->
  drop 12 (pm_body m) = l -> l <> [] ->
  exists c',
    invoke_raw body c = (c', Ok {| nr_request_message_id := id; nr_response_message_id := pm_message_id m; nr_body := l |})
    \/ exists e c2, invoke_raw body c = (c', Err e) /\ pm_sequence_number m mod 2 = 1
         /\ send_acknowledgements [pm_message_id m] c2 = (c', Err e).
Proof.
  intros Hne H4 Hsend Hsent Hc Hid Hl Hlne. unfold invoke_raw.
  destruct ((Z.of_nat (length body) =? 0) || negb (Z.of_nat (length body) mod 4 =? 0)) eqn:Hsize.
  { rewrite H4 in Hsize. by destruct body. }
  destruct (message_received c1 m Hsent) as [c2 Hm]. rename l into answer.
  assert (Hscan : scan_rpc_body (length (pm_body m)) id (pm_body m) (pm_message_id m)
      (acknowledge (pm_sequence_number m) (pm_message_id m) []) c2
    = (c2, Ok (RpcAnswered {| nr_request_message_id := id; nr_response_message_id := pm_message_id m; nr_body := answer |},
               acknowledge (pm_sequence_number m) (pm_message_id m) []))).
  { assert (Hb : exists k, length (pm_body m) = S k).
    { destruct (pm_body m) as [|a b]; [by rewrite drop_nil in Hl; subst answer|by exists (length b)]. }
    destruct Hb as [k ->]. cbn [scan_rpc_body]. rewrite Hc, Hid. unfold mbind, net_bind, net_of.
    rewrite !Z.eqb_refl. cbn [negb]. rewrite Hl. by destruct answer. }
  cbn [rpc_attempts]. rewrite (net_bind_run _ _ _ _ _ Hsend). change DEFAULT_MAX_RPC_MESSAGES with (S 63). cbn [rpc_rounds].
  unfold acknowledge in *. destruct (pm_sequence_number m mod 2 =? 1) eqn:Hodd; cbn [app] in *.
  - destruct (send_acknowledgements [pm_message_id m] c2) as [c3 [u|e]] eqn:Hack; exists c3.
    + left. unfold mbind, net_bind. by rewrite Hm, Hodd, Hscan, Hack.
    + right. exists e, c2. split; [|split; [lia|done]]. unfold mbind, net_bind. by rewrite Hm, Hodd, Hscan, Hack.
  - exists c2. left. unfold mbind, net_bind. by rewrite Hm, Hodd, Hscan.
Qed.
End answer.
