(* ===== verification/Runtime.v ===== *)
(** * The Telegram runtime ([telegram-runtime/src/runtime.rs])

    The registry of clients, the requests on a client, and the requests to the
    server it makes of them.  A request is a [Job]: sections that each hold the lock
    of the registry, one after the other; what it does between two of them - the
    network - touches only what it has taken out of the registry.  So the jobs of
    several threads interleave by sections. *)

From S2P Require Import Prelude Text Maps Bytes Tl Transport MtSession Crypto Dc Api Auth Numbers Handshake HandshakeSafety Srp Network NetworkAnswers TgEngine TgStorage TgPersistence.

(** The values of [serde_json] that a request is made of, as the runtime reads them. *)
Class RequestJson (Value : Type) := {
  json_from_str : string -> option Value;
  json_get : Value -> string -> option Value;
  json_as_str : Value -> option string;
  json_as_i64 : Value -> option Z;
  json_as_bool : Value -> option bool;
  json_core_command : Value -> option TgCommand;
  json_auth_command : Value -> option AuthCommand;
}.

(** ** Errors *)

(** The reasons of [RuntimeError::Protocol]. *)
Inductive ProtocolFailure :=
| PfApi (error : ApiRequestError)
| PfSrp (error : SrpError)
| PfUpdate (error : UpdateError)
| PfTruncated
| PfUnexpected (constructor : Z)
| PfNoSrp.

(** [RuntimeError]; the texts are the errors that they display.  The last one is the
    panic that the C interface of [lib.rs] catches. *)
Inductive RuntimeError :=
| RtNullRequestPointer
| RtInvalidUtf8
| RtInvalidJson
| RtMissingRequestType
| RtUnsupportedRequestType (request_type : string)
| RtClientNotFound (client_id : Z)
| RtRegistryUnavailable
| RtCore (error : TgError)
| RtAuthorization (error : option AuthError)
| RtStorage (error : TgStorageError)
| RtNetwork (error : NetworkError)
| RtInvalidParameter (field : string)
| RtTransportNotConnected
| RtProtocol (failure : ProtocolFailure)
| RtAuthContextMissing
| RtRemoteRpc (code : Z) (message : string)
| RtPanic.

(** [RuntimeError::code] *)
Definition runtime_error_code (e : RuntimeError) : string :=
  match e with
  | RtNullRequestPointer => "null_request_pointer"
  | RtInvalidUtf8 => "invalid_utf8"
  | RtInvalidJson => "invalid_json"
  | RtMissingRequestType => "missing_request_type"
  | RtUnsupportedRequestType _ => "unsupported_request_type"
  | RtClientNotFound _ => "client_not_found"
  | RtRegistryUnavailable => "registry_unavailable"
  | RtCore _ => "core_command_failed"
  | RtAuthorization _ => "authorization_command_failed"
  | RtStorage _ => "storage_failed"
  | RtNetwork _ => "network_failed"
  | RtInvalidParameter _ => "invalid_parameter"
  | RtTransportNotConnected => "transport_not_connected"
  | RtProtocol _ => "protocol_failed"
  | RtAuthContextMissing => "auth_context_missing"
  | RtRemoteRpc _ _ => "telegram_rpc_error"
  | RtPanic => "rust_panic"
  end.

(** ** The registry *)

Record AuthContext := {
  ac_phone_number : string;
  ac_phone_code_hash : string;
  ac_password_srp : option PasswordSrpParameters;
}.
#[export] Instance eta_AuthContext : Eta AuthContext := fun c =>
  Build_AuthContext (ac_phone_number c) (ac_phone_code_hash c) (ac_password_srp c).

Record RuntimeClient := {
  rc_core : TelegramState;
  rc_authorization : AuthorizationState;
  rc_persistence : option PersistentClientStorage;
  (** The session, with the stream it runs on. *)
  rc_transport : option Client;
  rc_server_directory : option DcDirectory;
  rc_auth_context : option AuthContext;
  rc_update_state : option UpdateState;
}.
#[export] Instance eta_RuntimeClient : Eta RuntimeClient := fun c =>
  Build_RuntimeClient (rc_core c) (rc_authorization c) (rc_persistence c) (rc_transport c) (rc_server_directory c)
    (rc_auth_context c) (rc_update_state c).

Definition client_default : RuntimeClient := {|
  rc_core := empty_telegram; rc_authorization := machine_new; rc_persistence := None; rc_transport := None;
  rc_server_directory := None; rc_auth_context := None; rc_update_state := None |}.

(** [NEXT_CLIENT_ID] and [CLIENTS], whose lock a panic may have poisoned, and the
    files of the databases. *)
Record Runtime := {
  rt_next : Z;
  rt_clients : gmap Z RuntimeClient;
  rt_poisoned : bool;
  rt_files : gmap string TgDatabase;
}.
#[export] Instance eta_Runtime : Eta Runtime := fun r =>
  Build_Runtime (rt_next r) (rt_clients r) (rt_poisoned r) (rt_files r).

Definition runtime_new : Runtime := {| rt_next := 1; rt_clients := ∅; rt_poisoned := false; rt_files := ∅ |}.

Definition put_client (client_id : Z) (client : RuntimeClient) (rt : Runtime) : Runtime :=
  rt ⟪ rt_clients ::= <[client_id := client]> ⟫.

Definition insert_client (client : RuntimeClient) (rt : Runtime) : Runtime * Z :=
  let client_id := rt_next rt in
  let rt := rt ⟪ rt_next := (client_id + 1) mod 2 ^ 64 ⟫ in
  (if rt_poisoned rt then rt else put_client client_id client rt, client_id).

(** [create_client] *)
Definition create_client (rt : Runtime) : Runtime * Z := insert_client client_default rt.

(** [close_client] *)
Definition close_client (client_id : Z) (rt : Runtime) : Runtime * result RuntimeError unit :=
  if rt_poisoned rt then (rt, Err RtRegistryUnavailable)
  else
    match rt_clients rt !! client_id with
    | None => (rt, Err (RtClientNotFound client_id))
    | Some _ => (rt ⟪ rt_clients ::= delete client_id ⟫, Ok tt)
    end.

(** ** Answers *)

Inductive RuntimeData :=
| DataStatus (client_id : Z) (persistent_storage transport_connected : bool) (dc_id : option Z) (endpoint : option DcEndpoint)
    (auth_key_id server_time server_dc_options : option Z) (update_state : option UpdateState)
| DataState (state : TelegramState)
| DataAuthorizationState (state : AuthorizationState)
| DataCoreResult (events : list TgEvent) (state : TelegramState)
| DataAuthorizationResult (events : list AuthEvent) (state : AuthorizationState)
| DataTransportReady (dc_id : Z) (endpoint : DcEndpoint) (auth_key_id server_time pong_message_id : Z)
| DataConnectionInitialized (this_dc : Z) (test_mode : bool) (dc_option_count config_date config_expires : Z)
| DataCodeSent (events : list AuthEvent) (state : AuthorizationState) (delivery : SentCodeDelivery) (next_type : option NextCodeType)
| DataPaymentRequired (details : SentCodeResult) (state : AuthorizationState)
| DataAuthorization (response_type : string) (events : list AuthEvent) (state : AuthorizationState)
| DataUpdateSyncStarted (state : UpdateState).

(** ** Jobs *)

(** What is left of a request: its answer, or the next section under the lock, before
    which it holds the session it has taken, if any. *)
Inductive Job :=
| JobDone (answer : result RuntimeError RuntimeData)
| JobSection (holds : option Client) (section : Runtime -> Runtime * Job).

Notation job_fails e := (JobDone (Err e)).

(** The [?] of a request. *)
Definition job_try {A : Type} (r : result RuntimeError A) (k : A -> Job) : Job :=
  match r with Ok a => k a | Err e => job_fails e end.
Notation "'let?' x := r 'in' k" := (job_try r (fun x => k)) (at level 200, x pattern, right associativity).

(** A section on the client. *)
Definition with_client (client_id : Z) (f : RuntimeClient -> RuntimeClient * Job) (rt : Runtime) : Runtime * Job :=
  if rt_poisoned rt then (rt, job_fails RtRegistryUnavailable)
  else
    match rt_clients rt !! client_id with
    | None => (rt, job_fails (RtClientNotFound client_id))
    | Some client =>
        let '(client, job) := f client in
        (put_client client_id client rt, job)
    end.

(** A section that reads the client. *)
Definition reading (client_id : Z) (f : RuntimeClient -> Job) : Job :=
  JobSection None (with_client client_id (fun client => (client, f client))).

(** [take_transport] *)
Definition take_transport (client_id : Z) (k : Client -> Job) : Job :=
  JobSection None (with_client client_id (fun client =>
    match rc_transport client with
    | None => (client, job_fails RtTransportNotConnected)
    | Some session => (client ⟪ rc_transport := None ⟫, k session)
    end)).

(** The session goes back before the outcome is looked at. *)
Definition restore_transport {A : Type} (client_id : Z) (session : Client) (operation : result RuntimeError A)
    (k : A -> RuntimeClient -> RuntimeClient * Job) : Job :=
  JobSection (Some session) (with_client client_id (fun client =>
    let client := client ⟪ rc_transport := Some session ⟫ in
    match operation with
    | Err e => (client, job_fails e)
    | Ok a => k a client
    end)).

(** The job on its own. *)
Fixpoint run_job (job : Job) (rt : Runtime) : Runtime * result RuntimeError RuntimeData :=
  match job with
  | JobDone answer => (rt, answer)
  | JobSection _ section => let '(rt, job) := section rt in run_job job rt
  end.

(** ** Operations on a session *)

Definition Remote (A : Type) : Type := Client -> Client * result RuntimeError A.
#[export] Instance remote_ret : MRet Remote := fun A a s => (s, Ok a).
#[export] Instance remote_bind : MBind Remote := fun A B f m s =>
  match m s with
  | (s, Ok a) => f a s
  | (s, Err e) => (s, Err e)
  end.
Definition remote_of {A : Type} (r : result RuntimeError A) : Remote A := fun s => (s, r).

Definition protocol {A : Type} (r : result ApiRequestError A) : result RuntimeError A := map_err (fun e => RtProtocol (PfApi e)) r.

Definition AUTHORIZATION_CONSTRUCTOR : Z := 0x2ea2c0d4.
Definition AUTHORIZATION_SIGN_UP_REQUIRED_CONSTRUCTOR : Z := 0x44747e9a.

(** The constructor of an answer. *)
Definition response_constructor (body : list ascii) : result RuntimeError Z :=
  bytes ← ok_or (slice body 0 4) (RtProtocol PfTruncated);
  Ok (of_le_bytes bytes).

Inductive SubmitCodeOutcome :=
| OutcomeReady
| OutcomeRegistration
| OutcomePassword (password : AccountPasswordState)
| OutcomeRemoteError (code : Z) (message : string).

Section runtime.
Context `{MC : MtCipher, R : Crc32, K : PasswordKdf, SC : StorageCrypto, TJ : TgJson}.
Context {Value : Type} `{RJ : RequestJson Value}.

Definition remote_invoke (body : list ascii) : Remote NetRpcResult := fun s =>
  let '(s, r) := invoke_raw body s in (s, map_err RtNetwork r).

(** The answer to a request that authorises: an error of the server, or the
    authorisation itself. *)
Definition authorization_answer (body : list ascii) : Remote unit :=
  result ← remote_invoke body;
  error ← remote_of (protocol (try_parse_rpc_error (nr_body result)));
  match error with
  | Some error => remote_of (Err (RtRemoteRpc (rpc_code error) (rpc_message error)))
  | None =>
      constructor ← remote_of (response_constructor (nr_body result));
      remote_of (reject_if (negb (constructor =? AUTHORIZATION_CONSTRUCTOR)) (RtProtocol (PfUnexpected constructor)))
  end.

(** The answer to a code: the password may be asked for. *)
Definition sign_in_answer (body : list ascii) : Remote SubmitCodeOutcome :=
  result ← remote_invoke body;
  error ← remote_of (protocol (try_parse_rpc_error (nr_body result)));
  match error with
  | Some error =>
      if String.eqb (rpc_message error) "SESSION_PASSWORD_NEEDED" then
        password ← remote_invoke build_account_get_password;
        state ← remote_of (protocol (parse_account_password_prefix (nr_body password)));
        mret (OutcomePassword state)
      else mret (OutcomeRemoteError (rpc_code error) (rpc_message error))
  | None =>
      constructor ← remote_of (response_constructor (nr_body result));
      if constructor =? AUTHORIZATION_CONSTRUCTOR then mret OutcomeReady
      else if constructor =? AUTHORIZATION_SIGN_UP_REQUIRED_CONSTRUCTOR then mret OutcomeRegistration
      else remote_of (Err (RtProtocol (PfUnexpected constructor)))
  end.

(** ** Requests to the server *)

(** What a request finds outside: for a new session, what happens when an address is
    dialled and the stream, clock and randomness it will have; the random exponent of
    a password; the clock, the lock and the nonces of a database. *)
Record Surroundings := {
  su_dial : DcEndpoint -> result string (list (result string (list ascii)));
  su_outside : Outside;
  su_exponent : result SrpError (list ascii);
  su_now : Z;
  su_busy : bool;
  su_nonces : nat -> list ascii;
}.

(** [required_string] *)
Definition required_string (request : Value) (field : string) : result RuntimeError string :=
  match json_get request field ≫= json_as_str with
  | Some value => if blank value then Err (RtInvalidParameter field) else Ok value
  | None => Err (RtInvalidParameter field)
  end.

Definition optional_string (request : Value) (field : string) : string :=
  default "" (json_get request field ≫= json_as_str).

(** A positive 32-bit number. *)
Definition positive_i32 (value : option Z) (field : string) : result RuntimeError Z :=
  ok_or (value ← value; value ← checked in_i32 value; if 0 <? value then Some value else None) (RtInvalidParameter field).

Definition required_api_id (request : Value) : result RuntimeError Z :=
  positive_i32 (json_get request "apiId" ≫= json_as_i64) "apiId".

(** [authorization.execute(AuthCommand::ApplyRemoteState)]: what follows takes its events. *)
Definition apply_remote (state : AuthorizationState) (client : RuntimeClient)
    (k : list AuthEvent -> RuntimeClient -> RuntimeClient * Job) : RuntimeClient * Job :=
  let '(authorization, r) := execute_auth (ApplyRemoteState state) (rc_authorization client) in
  let client := client ⟪ rc_authorization := authorization ⟫ in
  match r with
  | Err e => (client, job_fails (RtAuthorization (Some e)))
  | Ok events => k events client
  end.

(** Being authorised, told to the caller. *)
Definition authorization_ready (client : RuntimeClient) : RuntimeClient * Job :=
  apply_remote AuthReady client (fun events client =>
    (client ⟪ rc_auth_context := None ⟫, JobDone (Ok (DataAuthorization "telegram.authorizationReady" events AuthReady)))).

(** [bootstrap_transport]: a new session replaces the one there was. *)
Definition bootstrap_transport (su : Surroundings) (client_id : Z) (request : Value) : Job :=
  reading client_id (fun _ =>
    let? dc_id := positive_i32 (Some (default 2 (json_get request "dcId" ≫= json_as_i64))) "dcId" in
    let? test_mode := ok_or (match json_get request "testMode" with Some v => json_as_bool v | None => Some false end)
                        (RtInvalidParameter "testMode") in
    let? directory := match telegram_defaults test_mode dc_id with
                      | Some r => map_err (fun e => RtNetwork (NetDirectory e)) r
                      | None => Err RtPanic
                      end in
    let '(outside, r) := establish_auth_key (su_dial su) directory dc_id Abridged false (su_outside su) in
    let? session := map_err RtNetwork r in
    let '(session, r) := net_ping {| cl_session := session; cl_outside := outside |} in
    let? pong := map_err RtNetwork r in
    let ready := DataTransportReady (ce_dc_id (es_endpoint (cl_session session))) (ce_address (es_endpoint (cl_session session)))
                   (auth_key_id (es_auth_key (cl_session session))) (es_server_time (cl_session session))
                   (pr_response_message_id pong) in
    JobSection (Some session) (with_client client_id (fun client =>
      (client ⟪ rc_transport := Some session ⟫ ⟪ rc_server_directory := None ⟫, JobDone (Ok ready))))).

(** [initialize_connection] *)
Definition initialize_connection (client_id : Z) (request : Value) : Job :=
  let? api_id := required_api_id request in
  let? device_model := required_string request "deviceModel" in
  let? system_version := required_string request "systemVersion" in
  let? app_version := required_string request "appVersion" in
  let? system_lang_code := required_string request "systemLangCode" in
  let lang_pack := optional_string request "langPack" in
  let? lang_code := required_string request "langCode" in
  let? body := protocol (build_init_connection_get_config {|
    init_api_id := api_id; init_device_model := device_model; init_system_version := system_version;
    init_app_version := app_version; init_system_lang_code := system_lang_code; init_lang_pack := lang_pack;
    init_lang_code := lang_code |}) in
  take_transport client_id (fun session =>
    let '(session, operation) :=
      (result ← remote_invoke body; remote_of (protocol (parse_config_dc_directory_prefix (nr_body result)))) session in
    restore_transport client_id session operation (fun config client =>
      let directory := config_directory config in
      (client ⟪ rc_server_directory := Some directory ⟫,
       JobDone (Ok (DataConnectionInitialized (dir_this_dc directory) (dir_test_mode directory)
                      (size_of (dir_endpoints directory)) (config_date config) (config_expires config)))))).

(** [delivery_state] *)
Definition delivery_state (delivery : SentCodeDelivery) : CodeDeliveryType * Z :=
  let '(delivery_type, length) := match delivery with
    | SentApp length => (DeliverTelegramMessage, length)
    | SentSms length => (DeliverSms, length)
    | SentSmsWord _ | SentSmsPhrase _ => (DeliverSms, 0)
    | SentCall length => (DeliverCall, length)
    | SentFlashCall _ => (DeliverFlashCall, 0)
    | SentMissedCall _ length => (DeliverMissedCall, length)
    | SentEmail _ length => (DeliverEmail, length)
    | SentSetUpEmailRequired => (DeliverEmail, 0)
    | SentFragmentSms _ length => (DeliverFragment, length)
    | SentFirebaseSms length => (DeliverFirebaseAndroid, length)
    end in
  (delivery_type, if (0 <=? length) && (length <=? 255) then length else 0).

(** [send_authentication_code] *)
Definition send_authentication_code (client_id : Z) (request : Value) : Job :=
  let? phone_number := required_string request "phoneNumber" in
  let? api_id := required_api_id request in
  let? api_hash := required_string request "apiHash" in
  let? body := protocol (build_auth_send_code phone_number api_id api_hash) in
  take_transport client_id (fun session =>
    let '(session, operation) :=
      (result ← remote_invoke body; remote_of (protocol (parse_auth_sent_code (nr_body result)))) session in
    restore_transport client_id session operation (fun result client =>
      match result with
      | SentCodeCode code =>
          let '(delivery_type, code_length) := delivery_state (sent_delivery code) in
          let state := WaitCode phone_number delivery_type code_length (sent_timeout_seconds code ≫= checked in_u32) in
          apply_remote state client (fun events client =>
            (client ⟪ rc_auth_context := Some {| ac_phone_number := phone_number;
                        ac_phone_code_hash := sent_phone_code_hash code; ac_password_srp := None |} ⟫,
             JobDone (Ok (DataCodeSent events state (sent_delivery code) (sent_next_type code)))))
      | SentCodeSuccess => authorization_ready client
      | payment => (client, JobDone (Ok (DataPaymentRequired payment (rc_authorization client))))
      end)).

(** [submit_authentication_code] *)
Definition submit_authentication_code (client_id : Z) (request : Value) : Job :=
  let? phone_code := required_string request "code" in
  reading client_id (fun client =>
    let? context := ok_or (rc_auth_context client) RtAuthContextMissing in
    let? body := protocol (build_auth_sign_in (ac_phone_number context) (ac_phone_code_hash context) phone_code) in
    take_transport client_id (fun session =>
      let '(session, operation) := sign_in_answer body session in
      restore_transport client_id session operation (fun outcome client =>
        match outcome with
        | OutcomePassword password =>
            match pw_srp password with
            | None => (client, job_fails (RtProtocol PfNoSrp))
            | Some srp =>
                let state := WaitPassword (default "" (pw_hint password)) (pw_has_recovery password)
                               (pw_email_unconfirmed_pattern password) in
                match rc_auth_context client with
                | None => (client, job_fails RtAuthContextMissing)
                | Some context =>
                    apply_remote state (client ⟪ rc_auth_context := Some (context ⟪ ac_password_srp := Some srp ⟫) ⟫)
                      (fun events client =>
                         (client, JobDone (Ok (DataAuthorization "telegram.authenticationPasswordRequired" events state))))
                end
            end
        | OutcomeReady => authorization_ready client
        | OutcomeRegistration =>
            let state := WaitRegistration None in
            apply_remote state client (fun events client =>
              (client, JobDone (Ok (DataAuthorization "telegram.authenticationRegistrationRequired" events state))))
        | OutcomeRemoteError code message => (client, job_fails (RtRemoteRpc code message))
        end))).

(** [submit_authentication_password] *)
Definition submit_authentication_password (su : Surroundings) (client_id : Z) (request : Value) : Job :=
  let? password := required_string request "password" in
  reading client_id (fun client =>
    let? parameters := ok_or (rc_auth_context client ≫= ac_password_srp) RtAuthContextMissing in
    let? proof := map_err (fun e => RtProtocol (PfSrp e)) (compute_password_srp_proof password parameters (su_exponent su)) in
    let? body := protocol (build_auth_check_password proof) in
    take_transport client_id (fun session =>
      let '(session, operation) := authorization_answer body session in
      restore_transport client_id session operation (fun _ => authorization_ready))).

(** [submit_registration] *)
Definition submit_registration (client_id : Z) (request : Value) : Job :=
  let? first_name := required_string request "firstName" in
  let last_name := optional_string request "lastName" in
  reading client_id (fun client =>
    let? context := ok_or (rc_auth_context client) RtAuthContextMissing in
    let? body := protocol (build_auth_sign_up (ac_phone_number context) (ac_phone_code_hash context) first_name last_name) in
    take_transport client_id (fun session =>
      let '(session, operation) := authorization_answer body session in
      restore_transport client_id session operation (fun _ => authorization_ready))).

Definition is_ready (state : AuthorizationState) : bool := match state with AuthReady => true | _ => false end.

(** [begin_update_sync] *)
Definition begin_update_sync (client_id : Z) : Job :=
  reading client_id (fun client =>
    let? _ := reject_if (negb (is_ready (rc_authorization client))) (RtAuthorization None) in
    take_transport client_id (fun session =>
      let '(session, operation) :=
        (result ← remote_invoke build_updates_get_state;
         remote_of (map_err (fun e => RtProtocol (PfUpdate e)) (parse_update_state (nr_body result)))) session in
      restore_transport client_id session operation (fun state client =>
        (client ⟪ rc_update_state := Some state ⟫, JobDone (Ok (DataUpdateSyncStarted state)))))).

(** ** Requests on the client *)

(** [create_persistent_client] *)
Definition create_persistent_client (path : string) (storage_key : list ascii) (rt : Runtime) : Runtime * result RuntimeError Z :=
  let '(files, r) := open_persistent path storage_key (rt_files rt) in
  let rt := rt ⟪ rt_files := files ⟫ in
  match r with
  | Err e => (rt, Err (RtStorage e))
  | Ok (core, persistence) =>
      let '(rt, client_id) := insert_client (client_default ⟪ rc_core := core ⟫ ⟪ rc_persistence := Some persistence ⟫) rt in
      (rt, Ok client_id)
  end.

Definition core_failure (e : CoreFailure) : RuntimeError :=
  match e with CoreRefused e => RtCore e | CoreNotSaved e => RtStorage e end.

(** "telegram.getStatus" *)
Definition client_status (client_id : Z) (client : RuntimeClient) : RuntimeData :=
  let session := cl_session <$> rc_transport client in
  DataStatus client_id (bool_decide (is_Some (rc_persistence client))) (bool_decide (is_Some (rc_transport client)))
    ((fun s => ce_dc_id (es_endpoint s)) <$> session) ((fun s => ce_address (es_endpoint s)) <$> session)
    ((fun s => auth_key_id (es_auth_key s)) <$> session) (es_server_time <$> session)
    ((fun d => size_of (dir_endpoints d)) <$> rc_server_directory client) (rc_update_state client).

(** The part of [execute_value] under the lock, on a client. *)
Definition local_request (su : Surroundings) (client_id : Z) (request_type : string) (request : Value) (client : RuntimeClient)
    (files : gmap string TgDatabase) : RuntimeClient * gmap string TgDatabase * result RuntimeError RuntimeData :=
  if String.eqb request_type "telegram.getStatus" then (client, files, Ok (client_status client_id client))
  else if String.eqb request_type "telegram.getState" then (client, files, Ok (DataState (rc_core client)))
  else if String.eqb request_type "telegram.getAuthorizationState" then
    (client, files, Ok (DataAuthorizationState (rc_authorization client)))
  else if String.eqb request_type "telegram.executeCoreCommand" then
    match (command ← ok_or (json_get request "command") RtMissingRequestType; ok_or (json_core_command command) RtInvalidJson) with
    | Err e => (client, files, Err e)
    | Ok command =>
        let '((core, persistence, files), r) :=
          execute_core_command (su_now su) (su_busy su) (su_nonces su) command (rc_core client) (rc_persistence client) files in
        (client ⟪ rc_core := core ⟫ ⟪ rc_persistence := persistence ⟫, files,
         events ← map_err core_failure r; Ok (DataCoreResult events core))
    end
  else if String.eqb request_type "telegram.executeAuthorizationCommand" then
    match (command ← ok_or (json_get request "command") RtMissingRequestType; ok_or (json_auth_command command) RtInvalidJson) with
    | Err e => (client, files, Err e)
    | Ok command =>
        let '(authorization, r) := execute_auth command (rc_authorization client) in
        (client ⟪ rc_authorization := authorization ⟫, files,
         events ← map_err (fun e => RtAuthorization (Some e)) r; Ok (DataAuthorizationResult events authorization))
    end
  else (client, files, Err (RtUnsupportedRequestType request_type)).

Definition execute_locally (su : Surroundings) (client_id : Z) (request_type : string) (request : Value) : Job :=
  JobSection None (fun rt =>
    if rt_poisoned rt then (rt, job_fails RtRegistryUnavailable)
    else
      match rt_clients rt !! client_id with
      | None => (rt, job_fails (RtClientNotFound client_id))
      | Some client =>
          let '(client, files, r) := local_request su client_id request_type request client (rt_files rt) in
          (put_client client_id client rt ⟪ rt_files := files ⟫, JobDone r)
      end).

(** [execute_value] *)
Definition execute_value (su : Surroundings) (client_id : Z) (request : Value) : Job :=
  match (request_type ← json_get request "@type" ≫= json_as_str; if blank request_type then None else Some request_type) with
  | None => job_fails RtMissingRequestType
  | Some request_type =>
      if String.eqb request_type "telegram.bootstrapTransport" then bootstrap_transport su client_id request
      else if String.eqb request_type "telegram.initializeConnection" then initialize_connection client_id request
      else if String.eqb request_type "telegram.sendAuthenticationCode" then send_authentication_code client_id request
      else if String.eqb request_type "telegram.submitAuthenticationCode" then submit_authentication_code client_id request
      else if String.eqb request_type "telegram.submitAuthenticationPassword" then
        submit_authentication_password su client_id request
      else if String.eqb request_type "telegram.submitRegistration" then submit_registration client_id request
      else if String.eqb request_type "telegram.beginUpdateSync" then begin_update_sync client_id
      else execute_locally su client_id request_type request
  end.

(** ** The interface *)

(** What the caller is told, with the "@extra" of the request. *)
Inductive RuntimeReply :=
| ReplyOk (data : RuntimeData) (extra : option Value)
| ReplyError (error : RuntimeError) (extra : option Value).

(** [execute_json] *)
Definition execute_json (su : Surroundings) (client_id : Z) (request_json : string) (rt : Runtime) : Runtime * RuntimeReply :=
  match json_from_str request_json with
  | None => (rt, ReplyError RtInvalidJson None)
  | Some request =>
      let extra := json_get request "@extra" in
      let '(rt, r) := run_job (execute_value su client_id request) rt in
      (rt, match r with Ok data => ReplyOk data extra | Err e => ReplyError e extra end)
  end.

(** [fabushi_telegram_execute]: a pointer to bytes, or none. *)
Definition read_utf8 (pointer : option (list ascii)) : result RuntimeError string :=
  bytes ← ok_or pointer RtNullRequestPointer;
  if utf8_valid bytes then Ok (string_of bytes) else Err RtInvalidUtf8.

(** [inl]: the request could not be read. *)
Definition ffi_execute (su : Surroundings) (client_id : Z) (request_json : option (list ascii)) (rt : Runtime) :
    Runtime * (RuntimeError + RuntimeReply) :=
  match read_utf8 request_json with
  | Err e => (rt, inl e)
  | Ok request => let '(rt, reply) := execute_json su client_id request rt in (rt, inr reply)
  end.

(** [fabushi_telegram_create_persistent_client] *)
Definition ffi_create_persistent_client (database_path storage_key : option (list ascii)) (rt : Runtime) :
    Runtime * result RuntimeError Z :=
  match (path ← read_utf8 database_path; key ← ok_or storage_key RtNullRequestPointer; Ok (path, key)) with
  | Err e => (rt, Err e)
  | Ok (path, key) => create_persistent_client path key rt
  end.
End runtime.

(** The addresses that come with the program are addresses: no default directory panics. *)
Lemma defaults_never_panic (test_mode : bool) (this_dc : Z) : telegram_defaults test_mode this_dc <> None.
Proof.
  unfold telegram_defaults. destruct (foldr _ (Some []) _) as [all|] eqn:H; [discriminate|exfalso].
  destruct test_mode; vm_compute in H; discriminate H.
Qed.

(** ** What a request does to the registry *)

(** Nothing but the client [id] changes in the registry. *)
Record only_client (id : Z) (rt rt' : Runtime) : Prop := {
  oc_next : rt_next rt' = rt_next rt;
  oc_poisoned : rt_poisoned rt' = rt_poisoned rt;
  oc_others : forall other, other <> id -> rt_clients rt' !! other = rt_clients rt !! other;
}.

#[export] Instance only_client_refl (id : Z) : Reflexive (only_client id).
Proof. by split. Qed.
#[export] Instance only_client_trans (id : Z) : Transitive (only_client id).
Proof. intros a b c [? ? H] [? ? H']. split; try congruence. intros other Hne. by rewrite H', H. Qed.

Lemma only_client_put (id : Z) (client : RuntimeClient) (rt : Runtime) :
  only_client id rt (put_client id client rt).
Proof. unfold put_client. split; fields; try done. intros other Hne. by rewrite lookup_insert_ne. Qed.

Lemma lookup_put (id : Z) (client : RuntimeClient) (rt : Runtime) :
  rt_clients (put_client id client rt) !! id = Some client.
Proof. unfold put_client. fields. apply lookup_insert_eq. Qed.

(** The job, started on its own when the registry holds [client], leaves a client
    that [P] relates to it and to the answer; without a client it fails. *)
Definition runs (P : RuntimeClient -> RuntimeClient -> result RuntimeError RuntimeData -> Prop) (id : Z)
    (client : option RuntimeClient) (job : Job) : Prop :=
  forall rt rt' r, rt_clients rt !! id = client -> run_job job rt = (rt', r) ->
    only_client id rt rt'
    /\ match client with
       | Some c => exists c', rt_clients rt' !! id = Some c' /\ P c c' r
       | None => rt_clients rt' !! id = None /\ is_ok r = false
       end.

Section runs.
Context (P : RuntimeClient -> RuntimeClient -> result RuntimeError RuntimeData -> Prop).
Context (P_fails : forall c e, P c c (Err e)).
Context (id : Z) (client : option RuntimeClient).

Lemma runs_fails (e : RuntimeError) : runs P id client (job_fails e).
Proof. intros rt rt' r Hc [= <- <-]. split; [done|]. destruct client as [c|]; [exists c; auto|done]. Qed.

Lemma runs_try {A : Type} (a : result RuntimeError A) (k : A -> Job) :
  (forall x, a = Ok x -> runs P id client (k x)) -> runs P id client (job_try a k).
Proof. intros Hk. destruct a as [x|e]; [by apply Hk|apply runs_fails]. Qed.

(** A section on the client: what is left of the job starts from what it leaves. *)
Lemma runs_section (holds : option Client) (f : RuntimeClient -> RuntimeClient * Job) :
  (forall c rt rt' r, client = Some c -> rt_poisoned rt = false -> rt_clients rt !! id = Some (fst (f c)) -> run_job (snd (f c)) rt = (rt', r) ->
     only_client id rt rt' /\ exists c', rt_clients rt' !! id = Some c' /\ P c c' r) ->
  runs P id client (JobSection holds (with_client id f)).
Proof.
  intros Hf rt rt' r Hc H. cbn [run_job] in H. unfold with_client in H. destruct (rt_poisoned rt) eqn:Hpoisoned.
  { apply (runs_fails RtRegistryUnavailable rt rt' r Hc H). }
  destruct (rt_clients rt !! id) as [c|] eqn:Hl.
  - specialize (Hf c). destruct (f c) as [c1 job] eqn:Hfc. cbn [fst snd] in Hf.
    specialize (Hf (put_client id c1 rt) rt' r (eq_sym Hc) Hpoisoned). destruct Hf as [Hframe Hp].
    { apply lookup_put. }
    { exact H. }
    subst client. split; [|exact Hp]. etransitivity; [apply only_client_put|exact Hframe].
  - rewrite <- Hl in Hc. apply (runs_fails (RtClientNotFound id) rt rt' r Hc H).
Qed.

Lemma runs_reading (f : RuntimeClient -> Job) :
  (forall c, client = Some c -> runs P id (Some c) (f c)) -> runs P id client (reading id f).
Proof.
  intros Hf. apply runs_section. intros c rt rt' r Hc _ Hl H. cbn [fst snd] in *. exact (Hf c Hc rt rt' r Hl H).
Qed.

(** A section that answers. *)
Lemma runs_last (holds : option Client) (f : RuntimeClient -> RuntimeClient * Job) :
  (forall c, client = Some c -> exists c' r, f c = (c', JobDone r) /\ P c c' r) ->
  runs P id client (JobSection holds (with_client id f)).
Proof.
  intros Hf. apply runs_section. intros c rt rt' r Hc _ Hl H. destruct (Hf c Hc) as (c' & r' & Hfc & Hp). rewrite Hfc in *.
  cbn [fst snd run_job] in *. injection H as <- <-. split; [done|]. by exists c'.
Qed.

(** A request to the server: taken, used, put back. *)
Lemma runs_remote {A : Type} (m : Client -> Client * result RuntimeError A) (k : A -> RuntimeClient -> RuntimeClient * Job) :
  (forall c s s' operation, client = Some c -> rc_transport c = Some s -> m s = (s', operation) ->
     let restored := c ⟪ rc_transport := Some s' ⟫ in
     match operation with
     | Err e => P c restored (Err e)
     | Ok a => exists c' r, k a restored = (c', JobDone r) /\ P c c' r
     end) ->
  runs P id client (take_transport id (fun s => let '(s', operation) := m s in restore_transport id s' operation k)).
Proof.
  intros Hm. apply runs_section. intros c rt rt' r Hc Hpoisoned Hl H. specialize (Hm c).
  destruct (rc_transport c) as [s|] eqn:Ht; cbn [fst snd] in *.
  2: { injection H as <- <-. split; [done|]. exists c. auto. }
  specialize (Hm s). destruct (m s) as [s' operation]. specialize (Hm s' operation Hc eq_refl eq_refl).
  unfold restore_transport in H. cbn [run_job] in H. unfold with_client in H. rewrite Hpoisoned, Hl in H.
  change (c ⟪ rc_transport := None ⟫ ⟪ rc_transport := Some s' ⟫) with (c ⟪ rc_transport := Some s' ⟫) in H.
  cbv zeta in Hm. destruct operation as [a|e].
  - destruct Hm as (c' & r' & Hk & Hp). rewrite Hk in H. cbn [run_job] in H. injection H as <- <-.
    split; [apply only_client_put|]. exists c'. split; [apply lookup_put|done].
  - cbn [run_job] in H. injection H as <- <-. split; [apply only_client_put|].
    eexists. split; [apply lookup_put|exact Hm].
Qed.
End runs.

(** ** Requests that fail *)

(** The session is there or not, as before; it is the same one. *)
Definition session_kept (c c' : RuntimeClient) : Prop := option_Forall2 grows (rc_transport c) (rc_transport c').

Record client_kept (c c' : RuntimeClient) : Prop := {
  ck_core : rc_core c' = rc_core c;
  ck_authorization : rc_authorization c' = rc_authorization c;
  ck_persistence : rc_persistence c' = rc_persistence c;
  ck_directory : rc_server_directory c' = rc_server_directory c;
  ck_context : rc_auth_context c' = rc_auth_context c;
  ck_updates : rc_update_state c' = rc_update_state c;
}.

Section requests.
Context `{MC : MtCipher, R : Crc32, K : PasswordKdf, SC : StorageCrypto, TJ : TgJson}.
Context {Value : Type} `{RJ : RequestJson Value}.

Definition remote_keeps {A : Type} (m : Remote A) : Prop := forall s, grows s (fst (m s)).

Lemma remote_invoke_keeps (body : list ascii) : remote_keeps (remote_invoke body).
Proof.
  intros s. unfold remote_invoke. pose proof (invoke_raw_grows body s) as H. by destruct (invoke_raw body s).
Qed.

Lemma remote_bind_keeps {A B : Type} (m : Remote A) (f : A -> Remote B) :
  remote_keeps m -> (forall a, remote_keeps (f a)) -> remote_keeps (m ≫= f).
Proof.
  intros Hm Hf s. unfold mbind, remote_bind. specialize (Hm s). destruct (m s) as [s' [a|e]]; [|exact Hm].
  etransitivity; [exact Hm|apply Hf].
Qed.

Lemma remote_of_keeps {A : Type} (x : result RuntimeError A) : remote_keeps (remote_of x).
Proof. intros s. reflexivity. Qed.

Lemma remote_ret_keeps {A : Type} (x : A) : remote_keeps (mret x).
Proof. intros s. reflexivity. Qed.

Create HintDb runtime.
#[local] Hint Resolve remote_invoke_keeps remote_bind_keeps remote_of_keeps remote_ret_keeps : runtime.

Lemma authorization_answer_keeps (body : list ascii) : remote_keeps (authorization_answer body).
Proof. unfold authorization_answer. apply remote_bind_keeps; [auto with runtime|]. intros x. apply remote_bind_keeps; [auto with runtime|]. intros [|]; auto with runtime. Qed.

Lemma sign_in_answer_keeps (body : list ascii) : remote_keeps (sign_in_answer body).
Proof.
  unfold sign_in_answer. apply remote_bind_keeps; [auto with runtime|]. intros x. apply remote_bind_keeps; [auto with runtime|].
  intros [error|]; [destruct (String.eqb _ _); auto with runtime|].
  apply remote_bind_keeps; [auto with runtime|]. intros constructor. destruct (_ =? _); [auto with runtime|].
  destruct (_ =? _); auto with runtime.
Qed.
#[local] Hint Resolve authorization_answer_keeps sign_in_answer_keeps : runtime.

(** A request to the server keeps the session, if its end does not touch it. *)
Lemma runs_request {A : Type} (P : RuntimeClient -> RuntimeClient -> result RuntimeError RuntimeData -> Prop) (id : Z)
    (client : option RuntimeClient) (m : Remote A) (k : A -> RuntimeClient -> RuntimeClient * Job) :
  (forall c e, P c c (Err e)) -> remote_keeps m ->
  (forall c s s' operation, client = Some c -> rc_transport c = Some s -> m s = (s', operation) -> grows s s' ->
     let restored := c ⟪ rc_transport := Some s' ⟫ in
     match operation with
     | Err e => P c restored (Err e)
     | Ok a => exists c' answer, k a restored = (c', JobDone answer) /\ P c c' answer
     end) ->
  runs P id client (take_transport id (fun s => let '(s', operation) := m s in restore_transport id s' operation k)).
Proof.
  intros HP Hm Hk. apply runs_remote; [exact HP|]. intros c s s' operation Hc Ht H. apply (Hk c s s' operation Hc Ht H).
  specialize (Hm s). by rewrite H in Hm.
Qed.

Lemma apply_remote_always (state : AuthorizationState) (client : RuntimeClient)
    (k : list AuthEvent -> RuntimeClient -> RuntimeClient * Job) :
  apply_remote state client k = k [StateChanged state] (client ⟪ rc_authorization := state ⟫).
Proof. done. Qed.

(** *** Answers that authorise *)

Lemma remote_bind_ok {A B : Type} (m : Remote A) (f : A -> Remote B) (s s' : Client) (b : B) :
  (m ≫= f) s = (s', Ok b) <-> exists s1 a, m s = (s1, Ok a) /\ f a s1 = (s', Ok b).
Proof.
  unfold mbind, remote_bind. split.
  - destruct (m s) as [s1 [a|e]]; [by exists s1, a|done].
  - by intros (s1 & a & -> & ->).
Qed.

Lemma remote_of_ok {A : Type} (x : result RuntimeError A) (s s' : Client) (a : A) : remote_of x s = (s', Ok a) <-> s' = s /\ x = Ok a.
Proof. split; [by intros [= <- ->]|by intros [-> ->]]. Qed.

Lemma remote_ret_ok {A : Type} (a b : A) (s s' : Client) : mret (M := Remote) a s = (s', Ok b) <-> s' = s /\ b = a.
Proof. split; [by intros [= <- <-]|by intros [-> ->]]. Qed.

Lemma remote_invoke_ok (body : list ascii) (s s' : Client) (x : NetRpcResult) :
  remote_invoke body s = (s', Ok x) -> invoke_raw body s = (s', Ok x).
Proof. unfold remote_invoke. destruct (invoke_raw body s) as [s1 [y|e]]; [by intros [= <- <-]|done]. Qed.

(** An authorisation of the account. *)
Definition authorizes (body : list ascii) : Prop :=
  exists constructor, response_constructor body = Ok constructor
    /\ (constructor = AUTHORIZATION_CONSTRUCTOR \/ constructor = AUTH_SENT_CODE_SUCCESS_CONSTRUCTOR).

(** The server authorised in answer to a request of the session. *)
Definition confirmed (s s' : Client) : Prop :=
  exists body x,
    answered (es_auth_key (cl_session s)) (es_session_id (cl_session s)) body (ou_written (cl_outside s)) (ou_written (cl_outside s')) x
    /\ authorizes (nr_body x).

Lemma invoked_confirms (body : list ascii) (s s' : Client) (x : NetRpcResult) :
  remote_invoke body s = (s', Ok x) -> authorizes (nr_body x) -> confirmed s s'.
Proof. intros H%remote_invoke_ok%invoke_raw_answered Ha. by exists body, x. Qed.

Ltac remote_oks := repeat match goal with
  | H : (_ ≫= _) _ = (_, Ok _) |- _ =>
      let s := fresh "s" in let a := fresh "a" in let Ha := fresh "Hok" in apply remote_bind_ok in H as (s & a & Ha & H); cbv beta in H
  | H : remote_of _ _ = (_, Ok _) |- _ => apply remote_of_ok in H as [-> H]
  | H : mret _ _ = (_, Ok _) |- _ => apply remote_ret_ok in H as [-> H]
  end.

Lemma authorization_answer_confirms (body : list ascii) (s s' : Client) (u : unit) :
  authorization_answer body s = (s', Ok u) -> confirmed s s'.
Proof.
  unfold authorization_answer. intros H. remote_oks. destruct a0 as [error|]; remote_oks; [done|].
  apply reject_if_ok in H. rewrite negb_false_iff, Z.eqb_eq in H. eapply invoked_confirms; [eassumption|]. exists a0. auto.
Qed.

Lemma sign_in_answer_confirms (body : list ascii) (s s' : Client) :
  sign_in_answer body s = (s', Ok OutcomeReady) -> confirmed s s'.
Proof.
  unfold sign_in_answer. intros H. remote_oks. destruct a0 as [error|].
  { destruct (String.eqb _ _); remote_oks; discriminate. }
  remote_oks. destruct (Z.eqb_spec a0 AUTHORIZATION_CONSTRUCTOR) as [Ha|_].
  - remote_oks. eapply invoked_confirms; [eassumption|]. exists a0. auto.
  - destruct (_ =? _); remote_oks; discriminate.
Qed.

(** What a parser reads first is the constructor. *)
Lemma first_read (body : list ascii) (t : TlReader) (z : Z) :
  lift_tl ApiTl read_u32 (reader_new body) = (t, Ok z) -> response_constructor body = Ok z.
Proof.
  intros H%lift_ok. unfold read_u32 in H. apply parser_bind_ok in H as (t' & l & Ht & [= <- <-]).
  apply take_bytes_ok in Ht as (_ & Hoff & Hs). unfold response_constructor. rewrite Hoff in Hs. change (slice body 0 4 = Some l) in Hs. by rewrite Hs.
Qed.

Lemma sent_code_constructor (body : list ascii) (code : SentCodeResult) :
  parse_auth_sent_code body = Ok code ->
  exists z, response_constructor body = Ok z
    /\ (z = AUTH_SENT_CODE_CONSTRUCTOR /\ (exists sent, code = SentCodeCode sent)
        \/ z = AUTH_SENT_CODE_SUCCESS_CONSTRUCTOR /\ code = SentCodeSuccess
        \/ z = AUTH_SENT_CODE_PAYMENT_REQUIRED_CONSTRUCTOR /\ code <> SentCodeSuccess).
Proof.
  unfold parse_auth_sent_code, run_parser. intros H.
  match type of H with (?p).2 = _ => destruct p as [t x] eqn:Hp; cbn [snd] in H; subst x; rename Hp into H end.
  apply parser_bind_ok in H as (t1 & z & Hz%first_read & H). exists z. split; [exact Hz|].
  destruct (Z.eqb_spec z AUTH_SENT_CODE_CONSTRUCTOR) as [->|_].
  { left. split; [done|]. do 6 apply parser_bind_ok in H as (? & ? & _ & H). injection H as _ <-. by eexists. }
  destruct (Z.eqb_spec z AUTH_SENT_CODE_SUCCESS_CONSTRUCTOR) as [->|_]; [injection H as _ <-; auto|].
  destruct (Z.eqb_spec z AUTH_SENT_CODE_PAYMENT_REQUIRED_CONSTRUCTOR) as [->|_]; [|discriminate H].
  right; right. split; [done|]. do 8 apply parser_bind_ok in H as (? & ? & _ & H). injection H as _ <-. discriminate.
Qed.

Lemma sent_code_success_authorizes (body : list ascii) : parse_auth_sent_code body = Ok SentCodeSuccess -> authorizes body.
Proof.
  intros (z & Hz & [[_ [sent H]]|[[-> _]|[_ H]]])%sent_code_constructor; [discriminate H|exists AUTH_SENT_CODE_SUCCESS_CONSTRUCTOR; auto|done].
Qed.

(** An error of the server in answer to the request of a code is not told as such. *)
Lemma send_code_hides_errors (body : list ascii) (error : RpcErrorResponse) :
  try_parse_rpc_error body = Ok (Some error) -> is_ok (parse_auth_sent_code body) = false.
Proof.
  intros H. destruct (parse_auth_sent_code body) as [code|e] eqn:Hp; [exfalso|done].
  apply sent_code_constructor in Hp as (z & Hz & Hcases). unfold response_constructor in Hz. oks. unfold slice in Hok.
  destruct (_ && _); [|discriminate]. injection Hok as Ha. rewrite drop_0 in Ha. change (take 4 body = a) in Ha.
  unfold try_parse_rpc_error in H. destruct (_ <? 4); [discriminate|]. rewrite Ha, Hz in H.
  destruct (Z.eqb_spec z RPC_ERROR_CONSTRUCTOR) as [Hr|]; [rewrite Hr in Hcases|discriminate].
  by destruct Hcases as [[Hc _]|[[Hc _]|[Hc _]]].
Qed.

(** *** What a request leaves *)

(** A request that fails gives the session back and changes nothing else; one that
    succeeds makes the client ready only if it was, or with the server's word - or on
    the caller's, if he gives the command ([own]). *)
Definition served (own : bool) (c c' : RuntimeClient) (answer : result RuntimeError RuntimeData) : Prop :=
  if is_ok answer then
    own = true \/ (rc_authorization c' = AuthReady -> rc_authorization c = AuthReady
      \/ exists s s', rc_transport c = Some s /\ rc_transport c' = Some s' /\ confirmed s s')
  else session_kept c c' /\ client_kept c c'.

Lemma session_kept_refl (c : RuntimeClient) : session_kept c c.
Proof. unfold session_kept. destruct (rc_transport c); by constructor. Qed.

Lemma served_same (own : bool) (c : RuntimeClient) (e : RuntimeError) : served own c c (Err e).
Proof. split; [apply session_kept_refl|by split]. Qed.

Lemma served_failing (own : bool) (c c' : RuntimeClient) (e : RuntimeError) :
  rc_transport c' = rc_transport c -> client_kept c c' -> served own c c' (Err e).
Proof. intros Ht Hc. split; [|exact Hc]. unfold session_kept. rewrite Ht. apply session_kept_refl. Qed.

Lemma served_restored (own : bool) (c : RuntimeClient) (s s' : Client) (e : RuntimeError) :
  rc_transport c = Some s -> grows s s' -> served own c (c ⟪ rc_transport := Some s' ⟫) (Err e).
Proof. intros Ht Hg. split; [unfold session_kept; fields; rewrite Ht; by constructor|by split]. Qed.

Lemma served_quietly (own : bool) (c c' : RuntimeClient) (data : RuntimeData) :
  rc_authorization c' = rc_authorization c -> served own c c' (Ok data).
Proof. intros H. right. rewrite H. auto. Qed.

Lemma served_otherwise (own : bool) (c c' : RuntimeClient) (data : RuntimeData) :
  rc_authorization c' <> AuthReady -> served own c c' (Ok data).
Proof. intros H. right. done. Qed.

Lemma served_confirmed (own : bool) (c c' : RuntimeClient) (s s' : Client) (data : RuntimeData) :
  rc_transport c = Some s -> rc_transport c' = Some s' -> confirmed s s' -> served own c c' (Ok data).
Proof. intros Ht Ht' Hs. right. right. by exists s, s'. Qed.

#[local] Hint Resolve served_same served_restored : runtime.

(** Through a handler. *)
Ltac handler :=
  repeat match goal with
  | |- runs _ _ _ (job_try _ _) => apply runs_try; [auto with runtime|intros ? ?]
  | |- runs _ _ _ (JobDone (Err _)) => apply runs_fails; auto with runtime
  | |- runs _ _ _ (reading _ _) => apply runs_reading; [auto with runtime|intros ? ?]
  | |- runs _ _ _ (take_transport _ _) =>
      apply runs_request; [auto with runtime|auto 6 with runtime|intros ? ? ? [?|?] ? ? ? ?; cbv beta zeta; [|eauto with runtime]]
  | |- runs _ _ _ (let '(_, _) := ?p in _) => destruct p
  end.
Ltac answers_with := eexists _, _; split; [reflexivity|].

(** The end of a request that the server confirmed. *)
Lemma ready_served (own : bool) (c : RuntimeClient) (s s' : Client) :
  rc_transport c = Some s -> confirmed s s' ->
  exists c' answer, authorization_ready (c ⟪ rc_transport := Some s' ⟫) = (c', JobDone answer) /\ served own c c' answer.
Proof. intros Ht Hs. answers_with. by apply (served_confirmed own c _ s s'). Qed.

Lemma begin_update_sync_served (own : bool) (id : Z) (client : option RuntimeClient) :
  runs (served own) id client (begin_update_sync id).
Proof. unfold begin_update_sync. handler. answers_with. by apply served_quietly. Qed.

Lemma initialize_connection_served (own : bool) (id : Z) (request : Value) (client : option RuntimeClient) :
  runs (served own) id client (initialize_connection id request).
Proof. unfold initialize_connection. cbv zeta. handler. answers_with. by apply served_quietly. Qed.

Lemma send_authentication_code_served (own : bool) (id : Z) (request : Value) (client : option RuntimeClient) :
  runs (served own) id client (send_authentication_code id request).
Proof.
  unfold send_authentication_code. handler. destruct a as [code| |].
  - destruct (delivery_state _) as [kind len]. answers_with. by apply served_otherwise.
  - eapply ready_served; [eassumption|]. remote_oks. eapply invoked_confirms; [eassumption|].
    apply sent_code_success_authorizes. match goal with H : protocol (parse_auth_sent_code _) = Ok _ |- _ => by apply map_err_ok in H end.
  - answers_with. by apply served_quietly.
Qed.

Lemma submit_authentication_code_served (own : bool) (id : Z) (request : Value) (client : option RuntimeClient) :
  runs (served own) id client (submit_authentication_code id request).
Proof.
  unfold submit_authentication_code. handler. destruct a as [| |password|code message].
  - eapply ready_served; [eassumption|]. by eapply sign_in_answer_confirms.
  - answers_with. by apply served_otherwise.
  - destruct (pw_srp password) as [srp|]; [|answers_with; eauto with runtime].
    destruct (rc_auth_context (c0 ⟪ rc_transport := Some s' ⟫)) as [context|]; [|answers_with; eauto with runtime].
    answers_with. by apply served_otherwise.
  - answers_with. eauto with runtime.
Qed.

Lemma submit_authentication_password_served (own : bool) (su : Surroundings) (id : Z) (request : Value)
    (client : option RuntimeClient) :
  runs (served own) id client (submit_authentication_password su id request).
Proof.
  unfold submit_authentication_password. handler. eapply ready_served; [eassumption|]. by eapply authorization_answer_confirms.
Qed.

Lemma submit_registration_served (own : bool) (id : Z) (request : Value) (client : option RuntimeClient) :
  runs (served own) id client (submit_registration id request).
Proof.
  unfold submit_registration. cbv zeta. handler. eapply ready_served; [eassumption|]. by eapply authorization_answer_confirms.
Qed.

Lemma bootstrap_transport_served (own : bool) (su : Surroundings) (id : Z) (request : Value) (client : option RuntimeClient) :
  runs (served own) id client (bootstrap_transport su id request).
Proof.
  unfold bootstrap_transport. handler. cbv zeta. apply runs_last; [auto with runtime|]. intros kept Hkept. answers_with.
  by apply served_quietly.
Qed.

(** A command that is refused or not saved leaves the core. *)
Lemma core_command_unchanged (su : Surroundings) (command : TgCommand) (core : TelegramState)
    (persistence : option PersistentClientStorage) (files : gmap string TgDatabase) :
  match execute_core_command (su_now su) (su_busy su) (su_nonces su) command core persistence files with
  | ((core', persistence', _), Err _) => core' = core /\ persistence' = persistence
  | _ => True
  end.
Proof.
  unfold execute_core_command. destruct (tg_decide command core) as [events|e]; [|done].
  destruct persistence as [p|]; [|done]. by destruct (commit_transition _ _ _ _ _ _ _ _) as [d [transition|e]].
Qed.

(** A request on the client only. *)
Lemma local_request_served (su : Surroundings) (id : Z) (request_type : string) (request : Value) (c c' : RuntimeClient)
    (files files' : gmap string TgDatabase) (answer : result RuntimeError RuntimeData) :
  local_request su id request_type request c files = (c', files', answer) ->
  served (String.eqb request_type "telegram.executeAuthorizationCommand") c c' answer.
Proof.
  unfold local_request.
  destruct (String.eqb request_type "telegram.getStatus"); [intros [= <- _ <-]; by apply served_quietly|].
  destruct (String.eqb request_type "telegram.getState"); [intros [= <- _ <-]; by apply served_quietly|].
  destruct (String.eqb request_type "telegram.getAuthorizationState"); [intros [= <- _ <-]; by apply served_quietly|].
  destruct (String.eqb request_type "telegram.executeCoreCommand").
  - destruct (ok_or (json_get request "command") _ ≫= _) as [command|e]; [|intros [= <- _ <-]; apply served_same].
    pose proof (core_command_unchanged su command (rc_core c) (rc_persistence c) files) as Hkept.
    destruct (execute_core_command _ _ _ _ _ _ _) as [[[core persistence] files1] [events|e]]; cbn [map_err mbind result_bind];
      intros [= <- _ <-]; [by apply served_quietly|].
    destruct Hkept as [-> ->]. apply served_failing; [done|by split].
  - destruct (String.eqb request_type "telegram.executeAuthorizationCommand").
    + destruct (ok_or (json_get request "command") _ ≫= _) as [command|e]; [|intros [= <- _ <-]; apply served_same].
      unfold execute_auth. destruct (decide_auth _ _) as [events|e]; cbn [map_err mbind result_bind]; intros [= <- _ <-];
        [by left|]. apply served_failing; [done|by split].
    + intros [= <- _ <-]. apply served_same.
Qed.

Lemma execute_locally_served (su : Surroundings) (id : Z) (request_type : string) (request : Value) (client : option RuntimeClient) :
  runs (served (String.eqb request_type "telegram.executeAuthorizationCommand")) id client
    (execute_locally su id request_type request).
Proof.
  intros rt rt' answer Hc H. unfold execute_locally in H. cbn [run_job] in H. destruct (rt_poisoned rt).
  { apply (runs_fails _ (served_same _) id client RtRegistryUnavailable rt rt' answer Hc H). }
  destruct (rt_clients rt !! id) as [c|] eqn:Hl.
  2: { rewrite <- Hl in Hc. apply (runs_fails _ (served_same _) id client (RtClientNotFound id) rt rt' answer); [congruence|exact H]. }
  destruct (local_request _ _ _ _ _ _) as [[c' files] x] eqn:Hr. injection H as <- <-. subst client.
  split; [destruct (only_client_put id c' rt) as [? ? ?]; by split|]. exists c'. split; [exact (lookup_put id c' rt)|].
  by eapply local_request_served.
Qed.

Definition request_type_of (request : Value) : option string := json_get request "@type" ≫= json_as_str.

(** A caller's own word on the state. *)
Definition own_word (request : Value) : bool :=
  is_some_and (request_type_of request) (fun t => String.eqb t "telegram.executeAuthorizationCommand").

Lemma execute_value_served (su : Surroundings) (id : Z) (request : Value) (client : option RuntimeClient) :
  runs (served (own_word request)) id client (execute_value su id request).
Proof.
  unfold execute_value, own_word, request_type_of. destruct (json_get request "@type" ≫= json_as_str) as [t|]; [|apply runs_fails, served_same].
  cbn [mbind option_bind is_some_and]. destruct (blank t); [apply runs_fails, served_same|].
  destruct (String.eqb t "telegram.bootstrapTransport"); [apply bootstrap_transport_served|].
  destruct (String.eqb t "telegram.initializeConnection"); [apply initialize_connection_served|].
  destruct (String.eqb t "telegram.sendAuthenticationCode"); [apply send_authentication_code_served|].
  destruct (String.eqb t "telegram.submitAuthenticationCode"); [apply submit_authentication_code_served|].
  destruct (String.eqb t "telegram.submitAuthenticationPassword"); [apply submit_authentication_password_served|].
  destruct (String.eqb t "telegram.submitRegistration"); [apply submit_registration_served|].
  destruct (String.eqb t "telegram.beginUpdateSync"); [apply begin_update_sync_served|]. apply execute_locally_served.
Qed.

(** C12: A request that fails - wherever it fails: in its parameters, on the network,
    in the answer of the server, in the database - changes nothing in the registry
    but the session's own counters: the client keeps its state, what it knew of the
    account and its session, the same one, if it had one; other clients are as they
    were. *)
Theorem failed_requests_change_nothing (su : Surroundings) (id : Z) (request : Value) (rt rt' : Runtime) (e : RuntimeError) :
  run_job (execute_value su id request) rt = (rt', Err e) ->
  only_client id rt rt'
  /\ match rt_clients rt !! id with
     | None => rt_clients rt' !! id = None
     | Some c => exists c', rt_clients rt' !! id = Some c' /\ client_kept c c'
                   /\ option_Forall2 grows (rc_transport c) (rc_transport c')
     end.
Proof.
  intros H. destruct (execute_value_served su id request _ rt rt' (Err e) eq_refl H) as [Hframe Hclient].
  split; [exact Hframe|]. destruct (rt_clients rt !! id) as [c|]; [|apply Hclient].
  destruct Hclient as (c' & Hl & Hs & Hk). by exists c'.
Qed.

(** C11: A client becomes ready - authorised - only if its caller says so himself, or
    if the server, under the key of the client's session, answered a request of this
    session with an authorisation. *)
Theorem ready_on_the_servers_word (su : Surroundings) (id : Z) (request : Value) (rt rt' : Runtime) (data : RuntimeData)
    (c c' : RuntimeClient) :
  run_job (execute_value su id request) rt = (rt', Ok data) -> own_word request = false ->
  rt_clients rt !! id = Some c -> rt_clients rt' !! id = Some c' ->
  rc_authorization c <> AuthReady -> rc_authorization c' = AuthReady ->
  exists s s' body plain sealed envelope answer x constructor,
    rc_transport c = Some s /\ rc_transport c' = Some s'
    /\ (pm_body plain = body /\ pm_message_id plain = nr_request_message_id x /\ pm_session_id plain = es_session_id (cl_session s)
        /\ encrypt_message (es_auth_key (cl_session s)) ClientToServer plain = Ok sealed
        /\ frame_written (envelope_to_bytes sealed) (ou_written (cl_outside s)) (ou_written (cl_outside s')))
    /\ decrypt_message (es_auth_key (cl_session s)) ServerToClient envelope (es_session_id (cl_session s)) = Ok answer
    /\ answers (nr_request_message_id x) (pm_body answer) (pm_message_id answer) x
    /\ response_constructor (nr_body x) = Ok constructor
    /\ (constructor = AUTHORIZATION_CONSTRUCTOR \/ constructor = AUTH_SENT_CODE_SUCCESS_CONSTRUCTOR).
Proof.
  intros H Hown Hc Hc' Hnot Hready. destruct (execute_value_served su id request _ rt rt' (Ok data) Hc H) as [_ (d & Hd & Hs)].
  rewrite Hc' in Hd. injection Hd as <-. rewrite Hown in Hs. destruct Hs as [Hs|Hs]; [discriminate Hs|].
  destruct (Hs Hready) as [Hs'|(s & s' & Ht & Ht' & body & x & [(plain & sealed & Hsent) (envelope & answer & Hd & Ha)] & z & Hz & Hor)];
    [contradiction|].
  by exists s, s', body, plain, sealed, envelope, answer, x, z.
Qed.
End requests.

(** A request that comes to its end after a new connection puts the old session in
    its place, even when the request failed. *)
Lemma late_request_replaces_the_session {A : Type} (id : Z) (old new : Client) (e : RuntimeError)
    (k : A -> RuntimeClient -> RuntimeClient * Job) (c : RuntimeClient) (rt : Runtime) :
  rt_poisoned rt = false -> rt_clients rt !! id = Some c -> rc_transport c = Some new ->
  run_job (restore_transport id old (Err e) k) rt = (put_client id (c ⟪ rc_transport := Some old ⟫) rt, Err e).
Proof. intros Hp Hc _. unfold restore_transport. cbn [run_job]. unfold with_client. by rewrite Hp, Hc. Qed.

(** ** Requests from several threads *)

(** The runtime and the requests in flight, each on its client. *)
Record World := { wd_runtime : Runtime; wd_jobs : list (Z * Job) }.

Definition holding (job : Job) : nat := match job with JobSection (Some _) _ => 1 | _ => 0 end.

Definition slot (id : Z) (rt : Runtime) : nat :=
  match rt_clients rt !! id ≫= rc_transport with Some _ => 1 | None => 0 end.

Section threads.
Context `{MC : MtCipher, R : Crc32, K : PasswordKdf, SC : StorageCrypto, TJ : TgJson}.
Context {Value : Type} `{RJ : RequestJson Value}.

Inductive Move :=
| MoveCreate
| MoveOpen (path : string) (storage_key : list ascii)
| MoveClose (id : Z)
| MoveRequest (su : Surroundings) (id : Z) (request : Value)
| MoveSection (thread : nat).

(** A thread starts a request, or goes through the next section of its own. *)
Definition move (w : World) (m : Move) : World :=
  match m with
  | MoveCreate => {| wd_runtime := (create_client (wd_runtime w)).1; wd_jobs := wd_jobs w |}
  | MoveOpen path key => {| wd_runtime := (create_persistent_client path key (wd_runtime w)).1; wd_jobs := wd_jobs w |}
  | MoveClose id => {| wd_runtime := (close_client id (wd_runtime w)).1; wd_jobs := wd_jobs w |}
  | MoveRequest su id request =>
      {| wd_runtime := wd_runtime w; wd_jobs := (wd_jobs w ++ [(id, execute_value su id request)])%list |}
  | MoveSection thread =>
      match wd_jobs w !! thread with
      | Some (id, JobSection _ section) =>
          let '(rt, job) := section (wd_runtime w) in
          {| wd_runtime := rt; wd_jobs := <[thread := (id, job)]> (wd_jobs w) |}
      | _ => w
      end
  end.

Definition world_new : World := {| wd_runtime := runtime_new; wd_jobs := [] |}.
Definition world_run (moves : list Move) : World := foldl move world_new moves.

(** The sessions of a client that are in its slot or in a request in flight. *)
Definition sessions_in_use (id : Z) (w : World) : nat :=
  slot id (wd_runtime w) + sum_list_with (fun j => if decide (j.1 = id) then holding j.2 else 0%nat) (wd_jobs w).

Definition bootstraps (id : Z) (m : Move) : nat :=
  match m with
  | MoveRequest _ id' request =>
      if bool_decide (id' = id) && is_some_and (request_type_of request) (fun t => String.eqb t "telegram.bootstrapTransport")
      then 1 else 0
  | _ => 0
  end.

(** A job may bring [n] more sessions to its client, and touches no other client:
    each of its sections leaves at most those there were. *)
Inductive brings (id : Z) : nat -> Job -> Prop :=
| brings_done n answer : brings id n (JobDone answer)
| brings_section n holds section :
    (forall rt rt' job, section rt = (rt', job) ->
       only_client id rt rt'
       /\ exists n', brings id n' job
            /\ (slot id rt' + holding job + n' <= slot id rt + holding (JobSection holds section) + n)%nat) ->
    brings id n (JobSection holds section).

(** The sessions it holds and may still bring are [n] at most. *)
Definition fits (id : Z) (n : nat) (job : Job) : Prop := exists n', brings id n' job /\ (holding job + n' <= n)%nat.

Lemma fits_done (id : Z) (n : nat) (answer : result RuntimeError RuntimeData) : fits id n (JobDone answer).
Proof. exists 0%nat. split; [apply brings_done|cbn; lia]. Qed.

Lemma fits_try {A : Type} (id : Z) (n : nat) (a : result RuntimeError A) (k : A -> Job) :
  (forall x, fits id n (k x)) -> fits id n (job_try a k).
Proof. intros Hk. destruct a; [apply Hk|apply fits_done]. Qed.

Definition has_session (c : RuntimeClient) : nat := match rc_transport c with Some _ => 1 | None => 0 end.

Lemma brings_with_client (id : Z) (n : nat) (holds : option Client) (f : RuntimeClient -> RuntimeClient * Job) :
  (forall c, exists n', brings id n' (f c).2
     /\ (has_session (f c).1 + holding (f c).2 + n' <= has_session c + holding (JobSection holds (with_client id f)) + n)%nat) ->
  brings id n (JobSection holds (with_client id f)).
Proof.
  intros Hf. apply brings_section. intros rt rt' job H. unfold with_client in H.
  destruct (rt_poisoned rt); [injection H as <- <-; split; [done|]; exists 0%nat; split; [apply brings_done|cbn [holding]; lia]|].
  destruct (rt_clients rt !! id) as [c|] eqn:Hc.
  2: { injection H as <- <-; split; [done|]; exists 0%nat; split; [apply brings_done|cbn [holding]; lia]. }
  destruct (Hf c) as (n' & Hb & Hle). destruct (f c) as [c' job']. injection H as <- <-. cbn [fst snd] in *.
  split; [apply only_client_put|]. exists n'. split; [exact Hb|]. unfold slot. rewrite lookup_put, Hc. cbn [mbind option_bind].
  unfold has_session in Hle. by fields.
Qed.

Lemma fits_reading (id : Z) (n : nat) (f : RuntimeClient -> Job) : (forall c, fits id n (f c)) -> fits id n (reading id f).
Proof.
  intros Hf. exists n. split; [|done]. apply brings_with_client. intros c. destruct (Hf c) as (n' & Hb & Hle). exists n'.
  split; [exact Hb|]. cbn [fst snd]. change (holding (JobSection None _)) with 0%nat. lia.
Qed.

(** A request takes the session out of the slot and puts it back. *)
Lemma fits_request {A : Type} (id : Z) (n : nat) (m : Client -> Client * result RuntimeError A)
    (k : A -> RuntimeClient -> RuntimeClient * Job) :
  (forall a c, exists c' answer, k a c = (c', JobDone answer)) ->
  fits id n (take_transport id (fun s => let '(s', operation) := m s in restore_transport id s' operation k)).
Proof.
  intros Hk. exists 0%nat. split; [|cbn [holding take_transport]; lia]. apply brings_with_client. intros c. exists 0%nat. destruct (rc_transport c) as [s|] eqn:Ht; cbn [fst snd].
  2: { split; [apply brings_done|cbn [holding]; unfold has_session; rewrite Ht; lia]. }
  destruct (m s) as [s' operation]. split.
  - apply brings_with_client. intros d. exists 0%nat. cbv zeta. destruct operation as [a|e].
    + destruct (Hk a (d ⟪ rc_transport := Some s' ⟫)) as (d' & answer & ->). split; [apply brings_done|].
      cbn [fst snd holding]. unfold has_session. destruct (rc_transport d'); lia.
    + split; [apply brings_done|]. cbn [fst snd holding]. unfold has_session. fields. destruct (rc_transport d); lia.
  - unfold has_session. rewrite Ht. fields. cbn [holding restore_transport]. lia.
Qed.
Lemma ready_answers (c : RuntimeClient) : exists c' answer, authorization_ready c = (c', JobDone answer).
Proof. by eexists _, _. Qed.

(** Through a handler. *)
Ltac fits_in :=
  repeat match goal with
  | |- fits _ _ (job_try _ _) => apply fits_try; intros ?
  | |- fits _ _ (JobDone _) => apply fits_done
  | |- fits _ _ (reading _ _) => apply fits_reading; intros ?
  | |- fits _ _ (take_transport _ _) => apply fits_request; intros ? ?
  | |- fits _ _ (let '(_, _) := ?p in _) => destruct p
  | |- exists _ _, authorization_ready _ = _ => apply ready_answers
  | |- exists _ _, (_, JobDone _) = _ => by eexists _, _
  | |- exists _ _, apply_remote _ _ _ = _ => rewrite apply_remote_always
  | |- exists _ _, (match ?x with _ => _ end) = _ => destruct x
  end.

Lemma local_request_transport (su : Surroundings) (id : Z) (t : string) (request : Value) (c c' : RuntimeClient)
    (files files' : gmap string TgDatabase) (answer : result RuntimeError RuntimeData) :
  local_request su id t request c files = (c', files', answer) -> rc_transport c' = rc_transport c.
Proof.
  unfold local_request. intros H. repeat match type of H with (if ?b then _ else _) = _ => destruct b end;
    try (destruct (_ ≫= _) as [command|e]);
    try (destruct (execute_core_command _ _ _ _ _ _ _) as [[[core persistence] files1] x]);
    try (destruct (execute_auth _ _) as [authorization x]); by injection H as <- _ _.
Qed.

Lemma local_section_fits (su : Surroundings) (id : Z) (n : nat) (t : string) (request : Value) : fits id n (execute_locally su id t request).
Proof.
  exists 0%nat. split; [|cbn; lia]. apply brings_section. intros rt rt' job H. change (holding (JobSection None _)) with 0%nat.
  destruct (rt_poisoned rt); [injection H as <- <-; split; [done|]; exists 0%nat; split; [apply brings_done|cbn; lia]|].
  destruct (rt_clients rt !! id) as [c|] eqn:Hc; [|injection H as <- <-; split; [done|]; exists 0%nat; split; [apply brings_done|cbn; lia]].
  destruct (local_request _ _ _ _ _ _) as [[c' files] answer] eqn:Hr. injection H as <- <-. apply local_request_transport in Hr.
  split; [destruct (only_client_put id c' rt) as [? ? ?]; by split|]. exists 0%nat. split; [apply brings_done|].
  assert (Hs : slot id (put_client id c' rt ⟪ rt_files := files ⟫) = slot id rt).
  { unfold slot. rewrite Hc. change (rt_clients (put_client id c' rt ⟪ rt_files := files ⟫)) with (rt_clients (put_client id c' rt)).
    rewrite lookup_put. cbn. by rewrite Hr. }
  rewrite Hs. cbn. lia.
Qed.

Lemma bootstrap_fits (su : Surroundings) (id : Z) (request : Value) : fits id 1 (bootstrap_transport su id request).
Proof.
  unfold bootstrap_transport. fits_in. cbv zeta. exists 0%nat. split; [|cbn; lia]. apply brings_with_client. intros d.
  exists 0%nat. split; [apply brings_done|]. cbn [fst snd holding]. unfold has_session. fields. destruct (rc_transport d); lia.
Qed.

Lemma execute_value_fits (su : Surroundings) (id : Z) (request : Value) :
  fits id (bootstraps id (MoveRequest su id request)) (execute_value su id request).
Proof.
  unfold execute_value, bootstraps, request_type_of. rewrite bool_decide_true by done.
  destruct (json_get request "@type" ≫= json_as_str) as [t|]; [|apply fits_done].
  cbn [mbind option_bind is_some_and andb]. destruct (blank t); [apply fits_done|].
  destruct (String.eqb t "telegram.bootstrapTransport"); [apply bootstrap_fits|].
  destruct (String.eqb t "telegram.initializeConnection"); [unfold initialize_connection; cbv zeta; fits_in|].
  destruct (String.eqb t "telegram.sendAuthenticationCode"); [unfold send_authentication_code; fits_in|].
  destruct (String.eqb t "telegram.submitAuthenticationCode"); [unfold submit_authentication_code; fits_in|].
  destruct (String.eqb t "telegram.submitAuthenticationPassword"); [unfold submit_authentication_password; fits_in|].
  destruct (String.eqb t "telegram.submitRegistration"); [unfold submit_registration; cbv zeta; fits_in|].
  destruct (String.eqb t "telegram.beginUpdateSync"); [unfold begin_update_sync; fits_in|]. apply local_section_fits.
Qed.

(** *** The account of a client's sessions *)

(** What a job and its budget weigh for the client. *)
Definition weight (id : Z) (x : Z * Job * nat) : nat := if decide (x.1.1 = id) then (holding x.1.2 + x.2)%nat else 0%nat.

Definition accounted (id : Z) (n : nat) (w : World) : Prop :=
  exists g : list (Z * Job * nat), wd_jobs w = fst <$> g /\ Forall (fun x => brings x.1.1 x.2 x.1.2) g
    /\ (slot id (wd_runtime w) + sum_list_with (weight id) g <= n)%nat.

Lemma sum_list_with_update {A : Type} (f : A -> nat) (l : list A) (i : nat) (x y : A) :
  l !! i = Some x -> (sum_list_with f (<[i := y]> l) + f x = sum_list_with f l + f y)%nat.
Proof.
  revert i. induction l as [|z l IH]; intros [|i] H; try discriminate; cbn in *; [injection H as ->; lia|].
  specialize (IH i H). change (f z + sum_list_with f (<[i:=y]> l) + f x = f z + sum_list_with f l + f y)%nat. lia.
Qed.

(** A client without a session in its place, or no client. *)
Lemma slot_insert_client (id : Z) (client : RuntimeClient) (rt : Runtime) :
  rc_transport client = None -> (slot id (insert_client client rt).1 <= slot id rt)%nat.
Proof.
  intros Hc. unfold insert_client. cbn [fst]. fields. destruct (rt_poisoned rt); [by unfold slot; fields|].
  unfold slot, put_client. fields. destruct (decide (rt_next rt = id)) as [->|Hne].
  - rewrite lookup_insert_eq. cbn [mbind option_bind]. rewrite Hc. apply Nat.le_0_l.
  - by rewrite lookup_insert_ne.
Qed.

Lemma slot_only_client (id other : Z) (rt rt' : Runtime) : only_client other rt rt' -> other <> id -> slot id rt' = slot id rt.
Proof. intros [_ _ H] Hne. unfold slot. by rewrite H. Qed.

Lemma accounted_quiet (id : Z) (n : nat) (w : World) (rt : Runtime) :
  (slot id rt <= slot id (wd_runtime w))%nat -> accounted id n w -> accounted id n {| wd_runtime := rt; wd_jobs := wd_jobs w |}.
Proof. intros Hle (g & Hg & Hall & Hn). exists g. split; [done|]. split; [done|]. cbn [wd_runtime]. lia. Qed.

Lemma section_accounted (id : Z) (n : nat) (w : World) (thread : nat) (owner : Z) (holds : option Client)
    (section : Runtime -> Runtime * Job) (rt : Runtime) (job : Job) :
  wd_jobs w !! thread = Some (owner, JobSection holds section) -> section (wd_runtime w) = (rt, job) ->
  accounted id n w -> accounted id n {| wd_runtime := rt; wd_jobs := <[thread := (owner, job)]> (wd_jobs w) |}.
Proof.
  intros Hjob Hsection (g & Hg & Hall & Hn). rewrite Hg in Hjob. apply list_lookup_fmap_Some in Hjob as ([owned p] & He & Hx).
  cbn [fst] in He. subst owned. pose proof (Forall_lookup_1 _ _ _ _ Hall Hx) as Hb. cbn [fst snd] in Hb.
  inversion Hb as [|? ? ? Hstep]; subst. destruct (Hstep _ _ _ Hsection) as (Hframe & p' & Hb' & Hle).
  exists (<[thread := ((owner, job), p')]> g). cbn [wd_runtime wd_jobs]. split; [by rewrite Hg, list_fmap_insert|].
  split; [by apply Forall_insert|].
  pose proof (sum_list_with_update (weight id) g thread _ ((owner, job), p') Hx) as Hsum. unfold weight at 2 4 in Hsum.
  cbn [fst snd] in Hsum. destruct (decide (owner = id)) as [->|Hne]; [lia|]. rewrite (slot_only_client id owner _ _ Hframe Hne). lia.
Qed.

Lemma move_accounted (id : Z) (n : nat) (w : World) (m : Move) :
  accounted id n w -> accounted id (n + bootstraps id m) (move w m).
Proof.
  intros Hw. destruct m as [|path key|other|su other request|thread]; cbn [move bootstraps]; rewrite ?Nat.add_0_r.
  - apply accounted_quiet; [|exact Hw]. by apply slot_insert_client.
  - apply accounted_quiet; [|exact Hw]. unfold create_persistent_client.
    destruct (open_persistent _ _ _) as [files [[core p]|e]]; [|done].
    match goal with |- context [insert_client ?c ?rt] => pose proof (slot_insert_client id c rt eq_refl) as Hle; destruct (insert_client c rt) end.
    exact Hle.
  - apply accounted_quiet; [|exact Hw]. unfold close_client. destruct (rt_poisoned _); [done|].
    destruct (rt_clients _ !! other); [|done]. cbn [fst]. unfold slot. fields.
    destruct (decide (other = id)) as [->|Hne]; [rewrite lookup_delete_eq; apply Nat.le_0_l|by rewrite lookup_delete_ne].
  - destruct Hw as (g & Hg & Hall & Hn). destruct (execute_value_fits su other request) as (p & Hb & Hle).
    exists (g ++ [((other, execute_value su other request), p)])%list. cbn [wd_jobs wd_runtime]. split; [by rewrite Hg, fmap_app|].
    split; [apply Forall_app; split; [done|by repeat constructor]|].
    rewrite sum_list_with_app. cbn [sum_list_with]. unfold weight at 2. cbn [fst snd]. unfold bootstraps in Hle.
    rewrite bool_decide_true in Hle by done. destruct (decide (other = id)) as [->|Hne].
    + rewrite bool_decide_true by done. lia.
    + rewrite bool_decide_false by done. cbn [andb]. lia.
  - destruct (wd_jobs w !! thread) as [[owner [answer|holds section]]|] eqn:Hjob; [exact Hw| |exact Hw].
    destruct (section (wd_runtime w)) as [rt job] eqn:Hs. by eapply section_accounted.
Qed.

Lemma run_accounted (id : Z) (moves : list Move) (n : nat) (w : World) :
  accounted id n w -> accounted id (n + sum_list_with (bootstraps id) moves) (foldl move w moves).
Proof.
  revert n w. induction moves as [|m moves IH]; intros n w Hw; cbn [foldl sum_list_with]; [by rewrite Nat.add_0_r|].
  rewrite Nat.add_assoc. by apply IH, move_accounted.
Qed.

(** C9: Sessions are not multiplied.  However the sections of the requests in flight
    interleave with each other and with clients being opened and closed, a client's
    sessions - the one in its slot and those that requests have taken out to use -
    are no more than the connections that were asked for.  So on one connection a
    request excludes every other until it has put the session back. *)
Theorem sessions_are_not_multiplied (id : Z) (moves : list Move) :
  (sessions_in_use id (world_run moves) <= sum_list_with (bootstraps id) moves)%nat.
Proof.
  destruct (run_accounted id moves 0 world_new) as (g & Hg & _ & Hn).
  { exists []. split; [done|]. split; [done|]. done. }
  unfold sessions_in_use, world_run. rewrite Hg. cbn [Nat.add] in Hn. etransitivity; [|exact Hn]. apply Nat.add_le_mono_l.
  clear. induction g as [|[[owner job] p] g IH]; [done|]. cbn [fmap list_fmap sum_list_with fst snd]. unfold weight at 1.
  cbn [fst snd]. destruct (decide (owner = id)); [|exact IH]. change (fst <$> g) with (fst <$> g) in *. lia.
Qed.
End threads.

(** ** A client and a toy server *)

Inductive ToyValue := ToyText (s : string) | ToyFields (fields : list (string * string)).

#[local] Instance toy_request_json : RequestJson ToyValue := {
  json_from_str := fun s => Some (ToyText s);
  json_get := fun v field => match v with
    | ToyFields fields => (fun p => ToyText p.2) <$> List.find (fun p => String.eqb p.1 field) fields
    | _ => None
    end;
  json_as_str := fun v => match v with ToyText s => Some s | _ => None end;
  json_as_i64 := fun _ => None;
  json_as_bool := fun _ => None;
  json_core_command := fun _ => None;
  json_auth_command := fun _ => None;
}.

#[local] Instance no_storage : StorageCrypto := {
  seal_bytes := fun _ _ _ _ => None; open_bytes := fun _ _ _ _ => None; hmac_sha256 := fun _ _ => [] }.
#[local] Instance no_json : TgJson := {
  wire_to_json := fun _ => []; wire_of_json := fun _ => None; tg_event_to_json := fun _ => []; tg_event_of_json := fun _ => None;
  tg_message_to_json := fun _ => []; tg_message_of_json := fun _ => None; f64_reads_back := fun _ => true }.
#[local] Existing Instance toy_kdf.
#[local] Existing Instance toy_crc.

Definition toy_surroundings : Surroundings := {|
  su_dial := fun _ => Err "unreachable"; su_outside := toy_outside []; su_exponent := Err SrpRandomnessUnavailable;
  su_now := 0; su_busy := false; su_nonces := fun _ => [] |}.

(** A client that was asked to register. *)
Definition registering_client (reads : list (result string (list ascii))) : RuntimeClient :=
  client_default ⟪ rc_authorization := WaitRegistration None ⟫ ⟪ rc_transport := Some (toy_client reads) ⟫
    ⟪ rc_auth_context := Some {| ac_phone_number := "+123456789"; ac_phone_code_hash := "hash"; ac_password_srp := None |} ⟫.

Definition registering_runtime (reads : list (result string (list ascii))) : Runtime :=
  runtime_new ⟪ rt_clients := {[7 := registering_client reads]} ⟫.

Definition registration : ToyValue := ToyFields [("@type", "telegram.submitRegistration"); ("firstName", "Ann")].

(** The server answers the first request of the session with an authorisation. *)
Definition authorizing_reads : list (result string (list ascii)) :=
  [Ok (toy_frame 8589934601 0 (result_body 8589934596 (le_bytes 4 AUTHORIZATION_CONSTRUCTOR)))].

Lemma ready_on_the_servers_word_witness :
  exists rt' data c' s,
    run_job (execute_value toy_surroundings 7 registration) (registering_runtime authorizing_reads) = (rt', Ok data)
    /\ rt_clients rt' !! 7 = Some c' /\ rc_authorization c' = AuthReady /\ rc_transport (registering_client authorizing_reads) = Some s
    /\ exists sealed plain, encrypt_message (es_auth_key (cl_session s)) ClientToServer plain = Ok sealed.
Proof.
  destruct (run_job (execute_value toy_surroundings 7 registration) (registering_runtime authorizing_reads))
    as [rt' [data|e]] eqn:H; [|exfalso; vm_compute in H; discriminate H].
  destruct (rt_clients rt' !! 7) as [c'|] eqn:Hc'; [|exfalso; vm_compute in H; injection H as <- _; vm_compute in Hc'; discriminate Hc'].
  assert (Hready : rc_authorization c' = AuthReady)
    by (vm_compute in H; injection H as <- _; vm_compute in Hc'; injection Hc' as <-; reflexivity).
  exists rt', data, c', (toy_client authorizing_reads). split; [reflexivity|]. split; [exact Hc'|]. split; [exact Hready|].
  split; [reflexivity|].
  destruct (ready_on_the_servers_word toy_surroundings 7 registration (registering_runtime authorizing_reads) rt' data
    (registering_client authorizing_reads) c' H eq_refl eq_refl Hc' ltac:(discriminate) Hready)
    as (s & s' & body & plain & sealed & envelope & answer & x & z & Hs & _ & (_ & _ & _ & He & _) & _).
  injection Hs as <-. by exists sealed, plain.
Defined.

(** The peer closes the stream instead. *)
Lemma failed_requests_change_nothing_witness :
  exists rt' e c', run_job (execute_value toy_surroundings 7 registration) (registering_runtime []) = (rt', Err e)
    /\ rt_clients rt' !! 7 = Some c' /\ client_kept (registering_client []) c'.
Proof.
  destruct (run_job (execute_value toy_surroundings 7 registration) (registering_runtime [])) as [rt' [data|e]] eqn:H;
    [exfalso; vm_compute in H; discriminate H|].
  destruct (failed_requests_change_nothing toy_surroundings 7 registration (registering_runtime []) rt' e H) as (_ & c' & Hc & Hk & _).
  exists rt', e, c'. split; [reflexivity|]. by split.
Defined.
