(* ===== verification/GlobalDharma.v ===== *)
(** * The Global Dharma daemon ([global-dharma-core], [global-dharma-daemon])

    Its configuration and the nodes it may send to, its rate limiter, the reading of
    requests from a stream, and the sending of a content to the nodes, with the
    requests of several threads interleaved.  Addresses (the [url] crate), TOML, JSON,
    SHA-256 and the answers of the nodes are parameters. *)

From S2P Require Import Prelude Text Maps Bytes Tl Dc.

(** ** The configuration *)

(** What the source asks of [url::Url]. *)
Class UrlApi (Url : Type) := {
  url_scheme : Url -> string;
  url_username : Url -> string;
  url_password : Url -> option string;
  url_host_str : Url -> option string;
}.

Record DaemonConfig := {
  dm_bind : string;
  dm_max_content_bytes : Z;
  dm_max_requests_per_minute : Z;
}.

Definition default_bind : string := "127.0.0.1:18888".
Definition default_max_bytes : Z := 1024 * 1024.
Definition default_rate : Z := 30.
Definition daemon_config_default : DaemonConfig := {|
  dm_bind := default_bind; dm_max_content_bytes := default_max_bytes; dm_max_requests_per_minute := default_rate |}.

Record AuthorizedNode (Url : Type) := {
  nd_id : string;
  nd_endpoint : Url;
  nd_public_key_sha256 : string;
  nd_regions : list string;
}.
Arguments nd_id {Url}. Arguments nd_endpoint {Url}. Arguments nd_public_key_sha256 {Url}. Arguments nd_regions {Url}.

Record DharmaConfig (Url : Type) := { dc_daemon : DaemonConfig; dc_nodes : list (AuthorizedNode Url) }.
Arguments dc_daemon {Url}. Arguments dc_nodes {Url}.

Definition eq_ignore_ascii_case (a b : string) : bool := eqb (to_ascii_lowercase a) (to_ascii_lowercase b).
Definition is_ascii_hexdigit (a : ascii) : bool := bool_decide (is_Some (hex_digit_value a)).
Definition starts_with (prefix s : string) : bool := bool_decide (is_Some (strip_prefix prefix s)).

(** The bits of an address that its range fixes: [width] bits in all, the first
    [bits] of them those of [range]. *)
Definition in_range (width bits range address : Z) : bool := Z.shiftr address (width - bits) =? Z.shiftr range (width - bits).

(** [is_private_or_local], with the ranges of the standard library's predicates. *)
Definition is_private_or_local (ip : IpAddr) : bool :=
  match ip with
  | V4 v =>
      (in_range 32 8 0x0a000000 v || in_range 32 12 0xac100000 v || in_range 32 16 0xc0a80000 v)
      || in_range 32 8 0x7f000000 v
      || in_range 32 16 0xa9fe0000 v
      || (v =? 0xffffffff)
      || (v =? 0)
  | V6 v => (v =? 1) || (v =? 0) || in_range 128 7 (Z.shiftl 0xfc 120) v || in_range 128 10 (Z.shiftl 0xfe8 116) v
  end.

(** ** Requests and receipts *)

Record DeliveryRequest := { rq_task_id : string; rq_content : string; rq_region : option string }.

Record Receipt := {
  rc_task_id : string;
  rc_node_id : string;
  rc_content_sha256 : string;
  rc_delivered_at_unix_ms : Z;
  rc_status : string;
}.

(** ** The rate limiter *)

(** Moments are nanoseconds of the monotonic clock. *)
Record RateLimiter := { rl_limit : Z; rl_window : Z; rl_started : Z; rl_used : Z }.
#[export] Instance eta_RateLimiter : Eta RateLimiter := fun l =>
  Build_RateLimiter (rl_limit l) (rl_window l) (rl_started l) (rl_used l).

Definition ONE_MINUTE : Z := 60 * 1000000000.

Definition limiter_new (limit now : Z) : RateLimiter :=
  {| rl_limit := limit; rl_window := ONE_MINUTE; rl_started := now; rl_used := 0 |}.

(** [RateLimiter::acquire]: the clock is read for [elapsed], and again when the window
    starts over.  The counter is below the limit, an [u32], when it is increased. *)
Definition acquire (now again : Z) (l : RateLimiter) : RateLimiter * result string unit :=
  let l :=
    if rl_window l <=? Z.max 0 (now - rl_started l) then l ⟪ rl_started := again ⟫ ⟪ rl_used := 0 ⟫ else l in
  if rl_limit l <=? rl_used l then (l, Err "rate limit reached") else (l ⟪ rl_used ::= Z.succ ⟫, Ok tt).

(** ** Text from bytes *)

(** U+FFFD *)
Definition REPLACEMENT : list ascii := [byte_of 0xef; byte_of 0xbf; byte_of 0xbd].

(** The bytes that may follow the first one of a sequence of three or four. *)
Definition second3 (a : ascii) : ascii -> bool :=
  cont (if byte_at a =? 0xe0 then 0xa0 else 0x80) (if byte_at a =? 0xed then 0x9f else 0xbf).
Definition second4 (a : ascii) : ascii -> bool :=
  cont (if byte_at a =? 0xf0 then 0x90 else 0x80) (if byte_at a =? 0xf4 then 0x8f else 0xbf).

(** [String::from_utf8_lossy]: the longest start of a sequence that cannot be completed
    becomes one replacement. *)
Fixpoint utf8_lossy (l : list ascii) : list ascii :=
  match l with
  | [] => []
  | a :: l1 =>
      if byte_at a <? 128 then a :: utf8_lossy l1
      else if cont 0xc2 0xdf a then
        match l1 with
        | b :: l2 => if cont 0x80 0xbf b then a :: b :: utf8_lossy l2 else REPLACEMENT ++ utf8_lossy l1
        | [] => REPLACEMENT
        end
      else if cont 0xe0 0xef a then
        match l1 with
        | b :: l2 =>
            if second3 a b then
              match l2 with
              | c :: l3 => if cont 0x80 0xbf c then a :: b :: c :: utf8_lossy l3 else REPLACEMENT ++ utf8_lossy l2
              | [] => REPLACEMENT
              end
            else REPLACEMENT ++ utf8_lossy l1
        | [] => REPLACEMENT
        end
      else if cont 0xf0 0xf4 a then
        match l1 with
        | b :: l2 =>
            if second4 a b then
              match l2 with
              | c :: l3 =>
                  if cont 0x80 0xbf c then
                    match l3 with
                    | d :: l4 =>
                        if cont 0x80 0xbf d then a :: b :: c :: d :: utf8_lossy l4 else REPLACEMENT ++ utf8_lossy l3
                    | [] => REPLACEMENT
                    end
                  else REPLACEMENT ++ utf8_lossy l2
              | [] => REPLACEMENT
              end
            else REPLACEMENT ++ utf8_lossy l1
        | [] => REPLACEMENT
        end
      else REPLACEMENT ++ utf8_lossy l1
  end%list.

Lemma utf8_lossy_valid (l : list ascii) : utf8_valid l = true -> utf8_lossy l = l.
Proof.
  remember (length l) as n eqn:Hn. revert l Hn. induction n as [n IH] using lt_wf_ind. intros l -> Hv.
  assert (Hrec : forall k, (length k < length l)%nat -> utf8_valid k = true -> utf8_lossy k = k) by (intros k Hk; by apply (IH _ Hk)).
  clear IH. destruct l as [|a l1]; [done|]. cbn [utf8_valid utf8_lossy] in *. unfold second3, second4.
  destruct (byte_at a <? 128); [f_equal; apply Hrec; [cbn; lia|done]|]. destruct l1 as [|b l2]; [done|].
  destruct (cont 0xc2 0xdf a).
  { apply andb_true_iff in Hv as [-> Hv]. do 2 f_equal. apply Hrec; [cbn; lia|done]. }
  destruct l2 as [|c l3]; [done|]. destruct (cont 0xe0 0xef a).
  { apply andb_true_iff in Hv as [[-> ->]%andb_true_iff Hv]. do 3 f_equal. apply Hrec; [cbn; lia|done]. }
  destruct l3 as [|d l4]; [done|]. rewrite !andb_true_iff in Hv. destruct Hv as [[[[-> ->] ->] ->] Hv].
  do 4 f_equal. apply Hrec; [cbn; lia|done].
Qed.

(** ** Requests on a stream *)

#[local] Notation size_of l := (Z.of_nat (length l)).

Definition HEADER_END : list ascii := [byte_of 13; byte_of 10; byte_of 13; byte_of 10].
Definition MAX_HEADER_BYTES : Z := 16 * 1024.
Definition MAX_BODY_BYTES : Z := 16 * 1024 * 1024.

(** Where the first blank line ends. *)
Fixpoint header_end (l : list ascii) : option nat :=
  match l with
  | [] => None
  | _ :: rest => if bool_decide (take 4 l = HEADER_END) then Some 4%nat else S <$> header_end rest
  end.

(** The first loop of [read_request]: what was read, and the end of the headers. *)
Fixpoint read_head (bytes : list ascii) (reads : list (result string (list ascii))) :
    list (result string (list ascii)) * result string (list ascii * nat) :=
  match reads with
  | [] => ([], Err "incomplete request")
  | Err e :: reads => (reads, Err e)
  | Ok [] :: reads => (reads, Err "incomplete request")
  | Ok chunk :: reads =>
      let bytes := (bytes ++ chunk)%list in
      match header_end bytes with
      | Some stop => (reads, Ok (bytes, stop))
      | None => if MAX_HEADER_BYTES <? size_of bytes then (reads, Err "request headers too large") else read_head bytes reads
      end
  end.

(** The second loop: until the body is as long as the headers say. *)
Fixpoint read_body (stop : nat) (length : Z) (bytes : list ascii) (reads : list (result string (list ascii))) :
    list (result string (list ascii)) * result string (list ascii) :=
  if size_of bytes - Z.of_nat stop <? length then
    match reads with
    | [] => ([], Err "truncated request body")
    | Err e :: reads => (reads, Err e)
    | Ok [] :: reads => (reads, Err "truncated request body")
    | Ok chunk :: reads => read_body stop length (bytes ++ chunk) reads
    end
  else (reads, Ok bytes).

(** [str::lines]; the carriage return at the end of a line is white space to its
    readers. *)
Fixpoint text_lines (l : list ascii) : list (list ascii) :=
  match l with
  | [] => []
  | a :: rest =>
      if eqb a "010"%char then [] :: text_lines rest
      else match text_lines rest with [] => [[a]] | line :: lines => (a :: line) :: lines end
  end.

(** The length in a header line, if it is one and can be read. *)
Definition header_length (line : list ascii) : option Z :=
  let line := string_of line in
  n ← match strip_prefix "Content-Length:" line with Some n => Some n | None => strip_prefix "content-length:" line end;
  parse_usize (trim n).

(** [head.lines().find_map(..).unwrap_or(0)] *)
Definition content_length (head : list ascii) : Z := default 0 (find_map header_length (text_lines head)).

Definition read_request (reads : list (result string (list ascii))) :
    list (result string (list ascii)) * result string (list ascii * list ascii) :=
  match read_head [] reads with
  | (reads, Err e) => (reads, Err e)
  | (reads, Ok (bytes, stop)) =>
      let head := utf8_lossy (take stop bytes) in
      let length := content_length head in
      if MAX_BODY_BYTES <? length then (reads, Err "request body too large")
      else
        match read_body stop length bytes reads with
        | (reads, Err e) => (reads, Err e)
        | (reads, Ok bytes) => (reads, Ok (head, utf8_lossy (take (Z.to_nat length) (drop stop bytes))))
        end
  end.

(** The second word of the first line. *)
Definition request_target (head : list ascii) : string :=
  match (line ← List.hd_error (text_lines head); nth_word 1 line) with Some w => string_of w | None => "/" end.

(** ** The daemon *)

(** What a handler answers. *)
Inductive DharmaResponse :=
| StatusResponse (nodes : list string) (receipts : Z)
| LogsResponse (logs : list string)
| LoopResponse
| SentResponse (receipts : list Receipt)
| SendFailed (error : string)
| NotFound.

Section daemon.
Context {Url : Type} `{UrlApi Url} (sha256 : list ascii -> list ascii) (request_of_json : list ascii -> result string DeliveryRequest).

Definition validate_node (node : AuthorizedNode Url) : result string unit :=
  let says text := "node " +:+ nd_id node +:+ text in
  reject_if (blank (nd_id node)) "node id is required" ;;
  reject_if (negb (String.eqb (url_scheme (nd_endpoint node)) "https")) (says " must use https") ;;
  reject_if (negb (is_empty (url_username (nd_endpoint node))) || bool_decide (is_Some (url_password (nd_endpoint node))))
    (says " must not embed credentials") ;;
  host ← ok_or (url_host_str (nd_endpoint node)) (says " has no host");
  reject_if (eq_ignore_ascii_case host "localhost") (says " cannot target localhost") ;;
  reject_if (match parse_ip host with Some ip => is_private_or_local ip | None => false end)
    (says " cannot target private/local address") ;;
  reject_if (negb (len (nd_public_key_sha256 node) =? 64) || negb (all_bytes is_ascii_hexdigit (nd_public_key_sha256 node)))
    (says " has invalid public_key_sha256").

(** [for node in &self.nodes { validate_node(node)?; }] *)
Fixpoint validate_nodes (nodes : list (AuthorizedNode Url)) : result string unit :=
  match nodes with [] => Ok tt | node :: nodes => validate_node node ;; validate_nodes nodes end.

(** [Config::validate] *)
Definition validate_config (c : DharmaConfig Url) : result string unit :=
  let daemon := dc_daemon c in
  reject_if (negb (starts_with "127.0.0.1:" (dm_bind daemon)) && negb (starts_with "[::1]:" (dm_bind daemon)))
    "daemon.bind must be loopback only" ;;
  reject_if ((dm_max_content_bytes daemon =? 0) || (16 * 1024 * 1024 <? dm_max_content_bytes daemon))
    "daemon.max_content_bytes must be 1..=16777216" ;;
  reject_if ((dm_max_requests_per_minute daemon =? 0) || (600 <? dm_max_requests_per_minute daemon))
    "daemon.max_requests_per_minute must be 1..=600" ;;
  validate_nodes (dc_nodes c).

(** [Config::load] on Unix: the mode of the file, its text, and the TOML in it. *)
Definition load_config (mode : result string Z) (text : result string string)
    (toml : string -> result string (DharmaConfig Url)) : result string (DharmaConfig Url) :=
  mode ← map_err (fun e => "stat config: " +:+ e) mode;
  reject_if (negb (Z.land mode 0x12 =? 0)) "config must not be group/world writable" ;;
  raw ← map_err (fun e => "read config: " +:+ e) text;
  config ← map_err (fun e => "parse config: " +:+ e) (toml raw);
  validate_config config ;;
  Ok config.

Definition content_hash (content : string) : string := encode_hex (sha256 (bytes_of content)).

Definition validate_request (c : DharmaConfig Url) (request : DeliveryRequest) : result string unit :=
  reject_if (blank (rq_task_id request) || (128 <? len (rq_task_id request))) "task_id must be 1..=128 characters" ;;
  reject_if (blank (rq_content request)) "content is required" ;;
  reject_if (dm_max_content_bytes (dc_daemon c) <? len (rq_content request)) "content exceeds configured maximum".

(** The state behind the mutex.  Nothing panics while it is held. *)
Record DharmaState := {
  ds_config : DharmaConfig Url;
  ds_limiter : RateLimiter;
  ds_receipts : list Receipt;
  ds_logs : list string;
}.
#[export] Instance eta_DharmaState : Eta DharmaState := fun s =>
  Build_DharmaState (ds_config s) (ds_limiter s) (ds_receipts s) (ds_logs s).

(** The state [main] starts with. *)
Definition dharma_new (config : DharmaConfig Url) (now : Z) : DharmaState := {|
  ds_config := config; ds_limiter := limiter_new (dm_max_requests_per_minute (dc_daemon config)) now;
  ds_receipts := []; ds_logs := ["started " +:+ dm_bind (dc_daemon config)] |}.

(** *** Sending *)

(** [send] while it first holds the lock: the nodes and the digest of the content. *)
Definition send_admit (request : DeliveryRequest) (now again : Z) (s : DharmaState) :
    DharmaState * result string (list (AuthorizedNode Url) * string) :=
  match validate_request (ds_config s) request with
  | Err e => (s, Err e)
  | Ok _ =>
      let '(limiter, acquired) := acquire now again (ds_limiter s) in
      (s ⟪ ds_limiter := limiter ⟫,
       match acquired with
       | Err e => Err e
       | Ok _ => Ok (dc_nodes (ds_config s), content_hash (rq_content request))
       end)
  end.

(** A node that serves other regions than the one asked for. *)
Definition skips_region (request : DeliveryRequest) (node : AuthorizedNode Url) : bool :=
  match rq_region request with
  | Some r => negb (bool_decide (nd_regions node = [])) && negb (bool_decide (r ∈ nd_regions node))
  | None => false
  end.

(** What a node answers when a content is posted to it: the value of its identity
    header, if it sent one. *)
Definition NodeAnswer : Type := result string (option string).

(** A content posted to a node, and the answer. *)
Record Posted := { po_node : AuthorizedNode Url; po_request : DeliveryRequest; po_hash : string; po_answer : NodeAnswer }.

(** Who answered is the node that was asked. *)
Definition check_identity (node : AuthorizedNode Url) (answer : NodeAnswer) : result string unit :=
  answer ← map_err (fun e => "node " +:+ nd_id node +:+ ": " +:+ e) answer;
  key ← ok_or answer ("node " +:+ nd_id node +:+ " omitted identity header");
  reject_if (negb (eq_ignore_ascii_case key (nd_public_key_sha256 node))) ("node " +:+ nd_id node +:+ " identity mismatch").

(** The loop of [send] over the nodes, the [n]-th post being answered by [answers n]
    and stamped with [moments n]: what was posted, and the receipts. *)
Fixpoint deliver (answers : nat -> NodeAnswer) (moments : nat -> Z) (request : DeliveryRequest) (hash : string)
    (nodes : list (AuthorizedNode Url)) (posted : list Posted) (receipts : list Receipt) :
    list Posted * result string (list Receipt) :=
  match nodes with
  | [] => (posted, Ok receipts)
  | node :: nodes =>
      if skips_region request node then deliver answers moments request hash nodes posted receipts
      else
        let n := length posted in
        let posted := (posted ++ [{| po_node := node; po_request := request; po_hash := hash; po_answer := answers n |}])%list in
        match check_identity node (answers n) with
        | Err e => (posted, Err e)
        | Ok _ =>
            let receipt := {| rc_task_id := rq_task_id request; rc_node_id := nd_id node; rc_content_sha256 := hash;
                              rc_delivered_at_unix_ms := moments n; rc_status := "delivered" |} in
            deliver answers moments request hash nodes posted (receipts ++ [receipt])
        end
  end.

(** [send] while it holds the lock again. *)
Definition record_receipts (request : DeliveryRequest) (receipts : list Receipt) (s : DharmaState) : DharmaState :=
  s ⟪ ds_receipts ::= fun l => (l ++ receipts)%list ⟫
    ⟪ ds_logs ::= fun l =>
        let l := (l ++ ["delivered task " +:+ rq_task_id request +:+ " to " +:+ display (Z.of_nat (length receipts)) +:+ " node(s)"])%list in
        drop (length l - 200) l ⟫.

(** *** Handlers in their threads *)

(** A thread that sends is between its two sections; one that is done has answered,
    or dropped the connection. *)
Inductive Handler :=
| Sending (request : DeliveryRequest) (nodes : list (AuthorizedNode Url)) (hash : string)
| Recording (request : DeliveryRequest) (receipts : list Receipt)
| Answered (response : result string DharmaResponse).

(** [handle] up to the end of its first section. *)
Definition handle_request (reads : list (result string (list ascii))) (now again : Z) (s : DharmaState) : DharmaState * Handler :=
  match snd (read_request reads) with
  | Err e => (s, Answered (Err e))
  | Ok (head, body) =>
      let target := request_target head in
      if String.eqb target "/health" || String.eqb target "/status" then
        (s, Answered (Ok (StatusResponse (nd_id <$> dc_nodes (ds_config s)) (Z.of_nat (length (ds_receipts s))))))
      else if String.eqb target "/logs" then (s, Answered (Ok (LogsResponse (ds_logs s))))
      else if String.eqb target "/loop" then
        (s ⟪ ds_logs ::= fun l => (l ++ ["manual scheduler loop completed"])%list ⟫, Answered (Ok LoopResponse))
      else if String.eqb target "/send" then
        match request_of_json body with
        | Err e => (s, Answered (Ok (SendFailed e)))
        | Ok request =>
            match send_admit request now again s with
            | (s, Err e) => (s, Answered (Ok (SendFailed e)))
            | (s, Ok (nodes, hash)) => (s, Sending request nodes hash)
            end
        end
      else (s, Answered (Ok NotFound))
  end.

(** The posts of a handler; no lock is held. *)
Definition handler_delivers (answers : nat -> NodeAnswer) (moments : nat -> Z) (h : Handler) : list Posted * Handler :=
  match h with
  | Sending request nodes hash =>
      let '(posted, outcome) := deliver answers moments request hash nodes [] [] in
      (posted, match outcome with
               | Err e => Answered (Ok (SendFailed e))
               | Ok [] => Answered (Ok (SendFailed "no authorized node matched this request"))
               | Ok receipts => Recording request receipts
               end)
  | h => ([], h)
  end.

Definition handler_records (h : Handler) (s : DharmaState) : DharmaState * Handler :=
  match h with
  | Recording request receipts => (record_receipts request receipts s, Answered (Ok (SentResponse receipts)))
  | h => (s, h)
  end.

(** The daemon, its handlers, and everything that was posted. *)
Record DharmaWorld := { dw_state : DharmaState; dw_handlers : list Handler; dw_posted : list Posted }.

Inductive DharmaMove :=
| Accepts (reads : list (result string (list ascii))) (now again : Z)
| Delivers (i : nat) (answers : nat -> NodeAnswer) (moments : nat -> Z)
| Records (i : nat).

Definition dharma_move (w : DharmaWorld) (m : DharmaMove) : DharmaWorld :=
  match m with
  | Accepts reads now again =>
      let '(s, h) := handle_request reads now again (dw_state w) in
      {| dw_state := s; dw_handlers := (dw_handlers w ++ [h])%list; dw_posted := dw_posted w |}
  | Delivers i answers moments =>
      match dw_handlers w !! i with
      | None => w
      | Some h =>
          let '(posted, h) := handler_delivers answers moments h in
          {| dw_state := dw_state w; dw_handlers := <[i := h]> (dw_handlers w); dw_posted := (dw_posted w ++ posted)%list |}
      end
  | Records i =>
      match dw_handlers w !! i with
      | None => w
      | Some h =>
          let '(s, h) := handler_records h (dw_state w) in
          {| dw_state := s; dw_handlers := <[i := h]> (dw_handlers w); dw_posted := dw_posted w |}
      end
  end.

Definition dharma_run (config : DharmaConfig Url) (started : Z) (moves : list DharmaMove) : DharmaWorld :=
  foldl dharma_move {| dw_state := dharma_new config started; dw_handlers := []; dw_posted := [] |} moves.
End daemon.

(** ** Nodes, posts and receipts *)

Section receipts.
Context {Url : Type} `{UrlApi Url} (sha256 : list ascii -> list ascii) (request_of_json : list ascii -> result string DeliveryRequest).
Implicit Types (config : DharmaConfig Url) (node : AuthorizedNode Url).

(** What is checked of the address content is posted to: the scheme, that there are no
    credentials, and the host as it is written.  A name is not resolved, and an IPv6
    host, in brackets, is not read as an address. *)
Record node_allowed node : Prop := {
  allowed_scheme : url_scheme (nd_endpoint node) = "https";
  allowed_credentials : url_username (nd_endpoint node) = "" /\ url_password (nd_endpoint node) = None;
  allowed_host : exists host, url_host_str (nd_endpoint node) = Some host
    /\ eq_ignore_ascii_case host "localhost" = false
    /\ forall ip, parse_ip host = Some ip -> is_private_or_local ip = false;
  allowed_key : len (nd_public_key_sha256 node) = 64 /\ all_bytes is_ascii_hexdigit (nd_public_key_sha256 node) = true;
}.

Lemma valid_node_allowed node : validate_node node = Ok tt -> node_allowed node.
Proof.
  unfold validate_node. intros Hv. oks. constructor.
  - by apply String.eqb_eq.
  - destruct (url_username _); [|done]. split; [done|]. apply eq_None_not_Some. by eapply bool_decide_eq_false_1.
  - exists a2. split; [done|]. split; [done|]. intros ip Hip. by rewrite Hip in Hok4.
  - split; [lia|done].
Qed.

Lemma valid_nodes_allowed nodes : validate_nodes nodes = Ok tt -> forall node, node ∈ nodes -> node_allowed node.
Proof.
  induction nodes as [|x nodes IH]; cbn [validate_nodes]; intros Hv node Hin; [by apply elem_of_nil in Hin|].
  oks. apply elem_of_cons in Hin as [->|Hin]; [by apply valid_node_allowed|by apply IH].
Qed.

(** A post the configuration allows: to one of its nodes, of a request it admits, in
    the region asked for. *)
Record proper_post config (p : Posted) : Prop := {
  proper_node : po_node p ∈ dc_nodes config;
  proper_request : validate_request config (po_request p) = Ok tt;
  proper_region : skips_region (po_request p) (po_node p) = false;
  proper_hash : po_hash p = content_hash sha256 (rq_content (po_request p));
}.

(** The receipt of a post that the node itself answered. *)
Record receipt_for (p : Posted (Url := Url)) (r : Receipt) : Prop := {
  receipt_task : rc_task_id r = rq_task_id (po_request p);
  receipt_node : rc_node_id r = nd_id (po_node p);
  receipt_hash : rc_content_sha256 r = po_hash p;
  receipt_status : rc_status r = "delivered";
  receipt_key : exists key, po_answer p = Ok (Some key) /\ eq_ignore_ascii_case key (nd_public_key_sha256 (po_node p)) = true;
}.

Definition backed (posted : list (Posted (Url := Url))) (receipts : list Receipt) : Prop :=
  forall r, r ∈ receipts -> exists p, p ∈ posted /\ receipt_for p r.

Lemma backed_app posted l k : backed posted l -> backed posted k -> backed posted (l ++ k).
Proof. intros Hl Hk r [Hr|Hr]%elem_of_app; [by apply Hl|by apply Hk]. Qed.

Lemma backed_more posted more l : backed posted l -> backed (posted ++ more) l.
Proof. intros Hl r Hr. destruct (Hl r Hr) as (p & Hp & Hf). exists p. split; [apply elem_of_app; by left|done]. Qed.

Lemma identity_checked node (answer : NodeAnswer) :
  check_identity node answer = Ok tt -> exists key, answer = Ok (Some key) /\ eq_ignore_ascii_case key (nd_public_key_sha256 node) = true.
Proof.
  unfold check_identity. intros Hv. oks. exists a0. split; [congruence|done].
Qed.

Lemma deliver_proper answers moments config request hash nodes posted receipts posted' outcome :
  (forall node, node ∈ nodes -> node ∈ dc_nodes config) -> validate_request config request = Ok tt ->
  hash = content_hash sha256 (rq_content request) ->
  Forall (proper_post config) posted -> backed posted receipts ->
  deliver answers moments request hash nodes posted receipts = (posted', outcome) ->
  Forall (proper_post config) posted' /\ (forall l, outcome = Ok l -> backed posted' l).
Proof.
  intros Hnodes Hreq Hhash. revert posted receipts. induction nodes as [|node nodes IH]; intros posted receipts Hp Hb Hd; cbn [deliver] in Hd.
  { injection Hd as <- <-. split; [done|]. by intros l [= <-]. }
  specialize (IH (fun x Hx => Hnodes x (list_elem_of_further _ _ _ Hx))).
  destruct (skips_region request node) eqn:Hskip; [by eapply IH|].
  set (p := {| po_node := node; po_request := request; po_hash := hash; po_answer := answers (length posted) |}) in *.
  assert (Hp' : Forall (proper_post config) (posted ++ [p])).
  { apply Forall_app. split; [done|]. apply list.Forall_singleton. constructor; [by apply Hnodes; left|done..]. }
  destruct (check_identity node _) as [[]|e] eqn:Hc; [|injection Hd as <- <-; by split].
  eapply IH; [exact Hp'| |exact Hd]. apply backed_app; [by apply backed_more|].
  intros r ->%list_elem_of_singleton. exists p. split; [apply elem_of_app; right; by left|].
  apply identity_checked in Hc. by constructor.
Qed.

(** What every state of the daemon satisfies. *)
Definition handler_sound config (posted : list (Posted (Url := Url))) (receipts : list Receipt) (h : Handler) : Prop :=
  match h with
  | Sending request nodes hash =>
      nodes = dc_nodes config /\ validate_request config request = Ok tt /\ hash = content_hash sha256 (rq_content request)
  | Recording request l => backed posted l
  | Answered (Ok (SentResponse l)) => forall r, r ∈ l -> r ∈ receipts
  | Answered _ => True
  end.

Record world_sound config (w : DharmaWorld (Url := Url)) : Prop := {
  sound_config : ds_config (dw_state w) = config;
  sound_posted : Forall (proper_post config) (dw_posted w);
  sound_receipts : backed (dw_posted w) (ds_receipts (dw_state w));
  sound_handlers : Forall (handler_sound config (dw_posted w) (ds_receipts (dw_state w))) (dw_handlers w);
}.

Lemma handler_sound_more config posted more receipts further h :
  handler_sound config posted receipts h -> handler_sound config (posted ++ more) (receipts ++ further) h.
Proof.
  destruct h as [request nodes hash|request l|[[]|]]; cbn; try done; [apply backed_more|].
  intros Hl r Hr. apply elem_of_app. left. by apply Hl.
Qed.

Lemma handlers_sound_more config posted more receipts further l :
  Forall (handler_sound config posted receipts) l -> Forall (handler_sound config (posted ++ more) (receipts ++ further)) l.
Proof. intros Hl. eapply list.Forall_impl; [exact Hl|]. intros h. apply handler_sound_more. Qed.

Lemma request_sound reads now again s s' h posted :
  handle_request sha256 request_of_json reads now again s = (s', h) ->
  ds_config s' = ds_config s /\ ds_receipts s' = ds_receipts s /\ handler_sound (ds_config s) posted (ds_receipts s) h.
Proof.
  unfold handle_request. destruct (snd (read_request reads)) as [[head body]|e]; [|intros [= <- <-]; done].
  repeat (case_match; [intros [= <- <-]; by fields|]). destruct (String.eqb _ "/send"); [|intros [= <- <-]; done].
  destruct (request_of_json body) as [request|e]; [|intros [= <- <-]; done].
  unfold send_admit. destruct (validate_request _ request) as [[]|e] eqn:Hv; [|intros [= <- <-]; done].
  destruct (acquire now again (ds_limiter s)) as [limiter [[]|e]]; intros [= <- <-]; by fields.
Qed.

Lemma move_sound config w m : world_sound config w -> world_sound config (dharma_move sha256 request_of_json w m).
Proof.
  intros [Hc Hp Hr Hh]. destruct m as [reads now again|i answers moments|i]; cbn [dharma_move].
  - destruct (handle_request _ _ _ _ _ _) as [s' h] eqn:He. apply (request_sound _ _ _ _ _ _ (dw_posted w)) in He as (Hc' & Hr' & Hh').
    constructor; cbn [dw_state dw_handlers dw_posted]; rewrite ?Hr'; [congruence|done..|].
    apply Forall_app. split; [done|]. apply list.Forall_singleton. by rewrite Hc in Hh'.
  - destruct (dw_handlers w !! i) as [h|] eqn:Hi; [|by constructor]. pose proof (Forall_lookup_1 _ _ _ _ Hh Hi) as Hs.
    destruct h as [request nodes hash|request l|r]; cbn [handler_delivers].
    2,3: rewrite list_insert_id by done; constructor; cbn; rewrite ?app_nil_r; done.
    destruct Hs as (-> & Hv & ->). destruct (deliver _ _ _ _ _ _ _) as [posted outcome] eqn:Hd.
    eapply deliver_proper in Hd as [Hp' Ho]; [|done|exact Hv|done|constructor|by intros r Hin%elem_of_nil].
    constructor; cbn [dw_state dw_handlers dw_posted]; [done|by apply Forall_app|by apply backed_more|].
    apply Forall_insert.
    + rewrite <- (app_nil_r (ds_receipts _)). by apply handlers_sound_more.
    + destruct outcome as [[|r l]|e]; [done| |done]. intros x Hx. destruct (Ho _ eq_refl x Hx) as (p & Hin & Hf).
      exists p. split; [apply elem_of_app; by right|done].
  - destruct (dw_handlers w !! i) as [h|] eqn:Hi; [|by constructor]. pose proof (Forall_lookup_1 _ _ _ _ Hh Hi) as Hs.
    destruct h as [request nodes hash|request l|r]; cbn [handler_records].
    1,3: rewrite list_insert_id by done; by constructor.
    constructor; cbn [dw_state dw_handlers dw_posted]; unfold record_receipts; fields; [done..|by apply backed_app|].
    apply Forall_insert; [rewrite <- (app_nil_r (dw_posted w)); by apply handlers_sound_more|].
    intros x Hx. apply elem_of_app. by right.
Qed.

Lemma run_sound config started moves : world_sound config (dharma_run sha256 request_of_json config started moves).
Proof.
  unfold dharma_run. assert (H0 : world_sound config {| dw_state := dharma_new config started; dw_handlers := []; dw_posted := [] |}).
  { constructor; cbn; [done|constructor|by intros r Hr%elem_of_nil|constructor]. }
  revert H0. generalize {| dw_state := dharma_new config started; dw_handlers := []; dw_posted := [] |} as w.
  induction moves as [|m moves IH]; intros w Hw; [done|]. by apply IH, move_sound.
Qed.

(** C34: Content goes only where the administrator allows it, and a receipt is never
    invented.  Under a configuration that was accepted, however the requests of the
    daemon's threads interleave and whatever arrives: everything posted goes to a node
    of the configuration, over https, without credentials, to a host that is not
    written localhost and, when it is written as an address that the parser of
    addresses reads, not as a private or local one (an IPv6 host stands in brackets,
    which that parser does not read: such a host is not checked), for a request that
    was admitted, in the region it asked for, under the digest of its content; and
    every receipt, kept or answered, is of a post that the node itself answered, with
    the key it is known by. *)
Theorem receipts_are_confirmed config (started : Z) (moves : list DharmaMove) :
  validate_config config = Ok tt ->
  let w := dharma_run sha256 request_of_json config started moves in
  (forall p, p ∈ dw_posted w -> proper_post config p /\ node_allowed (po_node p))
  /\ (forall r, r ∈ ds_receipts (dw_state w) -> exists p, p ∈ dw_posted w /\ receipt_for p r)
  /\ forall i l r, dw_handlers w !! i = Some (Answered (Ok (SentResponse l))) -> r ∈ l -> r ∈ ds_receipts (dw_state w).
Proof.
  intros Hv w. destruct (run_sound config started moves) as [_ Hp Hr Hh]. unfold validate_config in Hv. oks.
  rewrite list.Forall_forall in Hp. split; [|split; [exact Hr|]].
  - intros p Hin. split; [by apply Hp|]. eapply valid_nodes_allowed; [exact Hv|]. apply (Hp p Hin).
  - intros i l r Hi Hin. exact (Forall_lookup_1 _ _ _ _ Hh Hi r Hin).
Qed.
End receipts.

(** ** The rate of sends *)

(** The clock readings of calls, in order, none before [t]. *)
Fixpoint in_order (t : Z) (calls : list (Z * Z)) : Prop :=
  match calls with
  | [] => True
  | (now, again) :: calls => t <= now /\ now <= again /\ in_order again calls
  end.

(** When the calls of [acquire] were admitted. *)
Fixpoint admitted (calls : list (Z * Z)) (l : RateLimiter) : list Z :=
  match calls with
  | [] => []
  | (now, again) :: calls =>
      let '(l, r) := acquire now again l in
      if is_ok r then now :: admitted calls l else admitted calls l
  end.

(** How many of the moments are in the span of [width] from [t] on. *)
Definition within (t width : Z) (moments : list Z) : Z := Z.of_nat (length (filter (fun x => t <= x < t + width) moments)).

Lemma within_nil t width : within t width [] = 0.
Proof. done. Qed.

Lemma within_cons t width x l : within t width (x :: l) = (if decide (t <= x < t + width) then 1 else 0) + within t width l.
Proof. unfold within. rewrite filter_cons. destruct (decide _); cbn [length]; lia. Qed.

Lemma in_order_later t t' calls : t' <= t -> in_order t calls -> in_order t' calls.
Proof. destruct calls as [|[n a] calls]; cbn; [done|]. intros. destruct_and?. split_and!; [lia|lia|done]. Qed.

(** What a call does to a limiter whose count is in order. *)
Lemma acquire_cases now again (l : RateLimiter) :
  0 <= rl_used l <= rl_limit l -> rl_started l <= now -> 0 < rl_window l ->
  let '(l', r) := acquire now again l in
  rl_limit l' = rl_limit l /\ rl_window l' = rl_window l /\ 0 <= rl_used l' <= rl_limit l
  /\ if is_ok r then
       (rl_started l' = rl_started l /\ now < rl_started l + rl_window l /\ rl_used l' = rl_used l + 1)
       \/ (rl_started l' = again /\ rl_started l + rl_window l <= now /\ rl_used l' = 1)
     else
       (rl_started l' = rl_started l /\ rl_used l' = rl_used l) \/ (rl_started l' = again /\ rl_started l + rl_window l <= now /\ rl_used l' = 0).
Proof.
  intros Hu Hs Hw. unfold acquire. destruct (Z.leb_spec (rl_window l) (Z.max 0 (now - rl_started l))) as [Hr|Hr]; fields.
  - destruct (Z.leb_spec (rl_limit l) 0); cbn [is_ok]; fields; split_and!; try lia; right; split_and!; lia.
  - destruct (Z.leb_spec (rl_limit l) (rl_used l)); cbn [is_ok]; fields; split_and!; try lia; left; split_and!; lia.
Qed.

Section rate.
Context (limit window : Z) (Hwindow : 0 < window).

(** A limiter in use since [t]. *)
Definition limiter_ok (t : Z) (l : RateLimiter) : Prop :=
  rl_limit l = limit /\ rl_window l = window /\ 0 <= rl_used l <= limit /\ rl_started l <= t.

Ltac step_of l t Hl now again :=
  let Hc := fresh "Hc" in
  pose proof (acquire_cases now again l ltac:(unfold limiter_ok in Hl; lia) ltac:(unfold limiter_ok in Hl; lia)
    ltac:(unfold limiter_ok in Hl; lia)) as Hc;
  destruct (acquire now again l) as [l' [u|e]]; cbn [is_ok] in *; destruct Hc as (? & ? & ? & Hc).

Lemma admitted_after calls l t x : in_order t calls -> x ∈ admitted calls l -> t <= x.
Proof.
  revert l t. induction calls as [|[now again] calls IH]; intros l t Ho Hx; [by apply elem_of_nil in Hx|].
  cbn [in_order admitted] in *. destruct (acquire now again l) as [l' r]. destruct_and?.
  assert (Hlater : x ∈ admitted calls l' -> t <= x) by (intros Hin; specialize (IH l' again ltac:(done) Hin); lia).
  destruct (is_ok r); [|by apply Hlater]. apply elem_of_cons in Hx as [->|Hx]; [lia|by apply Hlater].
Qed.

Lemma none_before calls l t s width : in_order t calls -> s + width <= t -> within s width (admitted calls l) = 0.
Proof.
  intros Ho Hs. unfold within. destruct (filter _ _) as [|x k] eqn:Hf; [done|].
  assert (Hx : x ∈ filter (fun x => s <= x < s + width) (admitted calls l)) by (rewrite Hf; left).
  apply list_elem_of_filter in Hx as [Hx Hin]. pose proof (admitted_after _ _ _ _ Ho Hin). lia.
Qed.

(** In the window that is open, no more are admitted than are left. *)
Lemma rest_of_window calls l t s : limiter_ok t l -> in_order t calls ->
  within s (rl_started l + window - s) (admitted calls l) <= limit - rl_used l.
Proof.
  revert l t. induction calls as [|[now again] calls IH]; intros l t Hl Ho; [cbn [admitted]; rewrite within_nil; unfold limiter_ok in Hl; lia|].
  cbn [in_order admitted] in *. destruct Ho as (Ht & Hn & Ho). step_of l t Hl now again; unfold limiter_ok in Hl.
  - rewrite within_cons. destruct Hc as [(Hs & Hin & Hu)|(Hs & Hout & Hu)].
    + specialize (IH l' again ltac:(unfold limiter_ok; lia) Ho). rewrite Hs in IH. case_decide; lia.
    + rewrite decide_False by lia. rewrite (none_before calls l' again) by (try done; lia). lia.
  - destruct Hc as [(Hs & Hu)|(Hs & Hout & Hu)].
    + specialize (IH l' again ltac:(unfold limiter_ok; lia) Ho). rewrite Hs in IH. lia.
    + rewrite (none_before calls l' again) by (try done; lia). lia.
Qed.

Lemma within_shrinks s width width' l : width <= width' -> within s width l <= within s width' l.
Proof.
  intros Hw. unfold within. induction l as [|x l IH]; [done|]. rewrite !filter_cons. repeat case_decide; cbn [length]; lia.
Qed.

Lemma rate_bound calls l t s : limiter_ok t l -> in_order t calls ->
  within s window (admitted calls l) <= limit + (if s <? rl_started l + window then limit - rl_used l else limit).
Proof.
  revert l t. induction calls as [|[now again] calls IH]; intros l t Hl Ho; [cbn [admitted]; rewrite within_nil; unfold limiter_ok in Hl; case_match; lia|].
  cbn [in_order admitted] in *. destruct Ho as (Ht & Hn & Ho). pose proof Hl as (Hll & Hlw & Hlu & Hls).
  step_of l t Hl now again.
  all: assert (Hl' : limiter_ok again l') by (unfold limiter_ok; destruct Hc as [Hc|Hc]; destruct_and?; lia).
  all: specialize (IH l' again Hl' Ho).
  all: pose proof (rest_of_window calls l' again s Hl' Ho) as Hrest.
  all: rewrite ?within_cons; destruct Hc as [Hc|Hc]; destruct_and?.
  all: try match goal with E : rl_started ?x = _, _ : limiter_ok _ ?x |- _ => rewrite E in IH, Hrest end.
  - case_decide; repeat case_match; lia.
  - pose proof (within_shrinks s window (again + window - s) (admitted calls l')) as Hshrink.
    case_decide; repeat case_match; lia.
  - repeat case_match; lia.
  - pose proof (within_shrinks s window (again + window - s) (admitted calls l')) as Hshrink. repeat case_match; lia.
Qed.
End rate.

Lemma in_order_sublist t calls all : calls `sublist_of` all -> in_order t all -> in_order t calls.
Proof.
  intros Hsub. revert t. induction Hsub as [|[n a] calls all Hsub IH|[n a] calls all Hsub IH]; intros t Ho; [done|..];
    cbn [in_order] in *; destruct_and?.
  - split_and!; [done|done|by apply IH].
  - apply (in_order_later a); [lia|]. by apply IH.
Qed.

Section sends.
Context {Url : Type} `{UrlApi Url} (sha256 : list ascii -> list ascii) (request_of_json : list ascii -> result string DeliveryRequest).
Implicit Types (config : DharmaConfig Url) (w : DharmaWorld (Url := Url)).

Definition clock_reading (m : DharmaMove) : option (Z * Z) :=
  match m with Accepts _ now again => Some (now, again) | _ => None end.

Definition is_sending (h : Handler (Url := Url)) : bool := match h with Sending _ _ _ => true | _ => false end.

(** When the sends of a run were admitted: when a handler began to send. *)
Fixpoint sends w (moves : list DharmaMove) : list Z :=
  match moves with
  | [] => []
  | m :: moves =>
      let w' := dharma_move sha256 request_of_json w m in
      match clock_reading m with
      | Some (now, _) => if from_option is_sending false (list.last (dw_handlers w')) then now :: sends w' moves else sends w' moves
      | None => sends w' moves
      end
  end.

Lemma request_limiter reads now again s s' h :
  handle_request sha256 request_of_json reads now again s = (s', h) ->
  (ds_limiter s' = ds_limiter s /\ is_sending h = false)
  \/ (ds_limiter s' = fst (acquire now again (ds_limiter s)) /\ is_sending h = is_ok (snd (acquire now again (ds_limiter s)))).
Proof.
  unfold handle_request. destruct (snd (read_request reads)) as [[head body]|e]; [|intros [= <- <-]; by left].
  repeat (case_match; [intros [= <- <-]; by left; fields|]). destruct (String.eqb _ "/send"); [|intros [= <- <-]; by left].
  destruct (request_of_json body) as [request|e]; [|intros [= <- <-]; by left].
  unfold send_admit. destruct (validate_request _ request) as [[]|e] eqn:Hv; [|intros [= <- <-]; by left].
  destruct (acquire now again (ds_limiter s)) as [limiter [[]|e]]; intros [= <- <-]; right; by fields.
Qed.

Lemma sends_admitted w moves :
  exists calls, calls `sublist_of` omap clock_reading moves /\ sends w moves = admitted calls (ds_limiter (dw_state w)).
Proof.
  revert w. induction moves as [|m moves IH]; intros w; [by exists []|].
  destruct (IH (dharma_move sha256 request_of_json w m)) as (calls & Hsub & Hs).
  destruct m as [reads now again|i answers moments|i]; cbn [sends clock_reading omap list_omap]; rewrite Hs; cbn [dharma_move].
  - destruct (handle_request _ _ _ _ _ _) as [s' h] eqn:He. cbn [dw_state dw_handlers]. rewrite last_snoc. cbn [from_option].
    apply request_limiter in He as [[Hl Hh]|[Hl Hh]]; rewrite Hh, Hl.
    + exists calls. split; [by apply sublist_cons|done].
    + exists ((now, again) :: calls). split; [by apply sublist_skip|]. cbn [admitted].
      by destruct (acquire now again _) as [l' r].
  - exists calls. split; [done|]. destruct (dw_handlers w !! i) as [h|]; [|done]. by destruct (handler_delivers answers moments h).
  - exists calls. split; [done|]. destruct (dw_handlers w !! i) as [h|]; [|done]. by destruct h.
Qed.

(** C35: The daemon sends no more than twice its limit in any minute, wherever the
    minute begins: however its threads interleave and whatever arrives, at most twice
    [max_requests_per_minute] requests, so at most 1200, begin to be sent within sixty
    seconds of the monotonic clock. *)
Theorem sends_are_rate_limited config (started t : Z) (moves : list DharmaMove) :
  validate_config config = Ok tt -> 0 <= dm_max_requests_per_minute (dc_daemon config) ->
  in_order started (omap clock_reading moves) ->
  within t ONE_MINUTE (sends {| dw_state := dharma_new config started; dw_handlers := []; dw_posted := [] |} moves)
  <= Z.min 1200 (2 * dm_max_requests_per_minute (dc_daemon config)).
Proof.
  intros Hv Hmax Ho. unfold validate_config in Hv. oks. destruct (sends_admitted {| dw_state := dharma_new config started; dw_handlers := []; dw_posted := [] |} moves)
    as (calls & Hsub & ->). cbn [dw_state dharma_new ds_limiter].
  pose proof (rate_bound (dm_max_requests_per_minute (dc_daemon config)) ONE_MINUTE eq_refl calls
    (limiter_new (dm_max_requests_per_minute (dc_daemon config)) started) started t) as Hb.
  specialize (Hb ltac:(unfold limiter_ok, limiter_new; cbn; lia) (in_order_sublist _ _ _ Hsub Ho)).
  cbn [limiter_new rl_started rl_used] in Hb. case_match; lia.
Qed.
End sends.

(** A limit of one a minute lets two through in a tenth of a second. *)
Lemma window_edge_admits_twice :
  let moments := admitted [(59950000000, 59950000000); (60000000000, 60000000000)] (limiter_new 1 0) in
  within 59950000000 100000000 moments = 2.
Proof. vm_compute. reflexivity. Qed.

(** ** Requests are read whatever the chunks *)

Lemma header_end_bounds (l : list ascii) (n : nat) : header_end l = Some n -> (4 <= n <= length l)%nat.
Proof.
  revert n. induction l as [|a l IH]; intros n; cbn [header_end]; [done|]. case_bool_decide as Ht.
  - intros [= <-]. apply (f_equal length) in Ht. rewrite length_take in Ht. cbn [length HEADER_END] in *. lia.
  - destruct (header_end l) as [m|]; [|done]. intros [= <-]. specialize (IH m eq_refl). cbn [length]. lia.
Qed.

Lemma header_end_app (l k : list ascii) (n : nat) : header_end l = Some n -> header_end (l ++ k) = Some n.
Proof.
  revert n. induction l as [|a l IH]; intros n Hn; [done|]. pose proof (header_end_bounds _ _ Hn) as Hb.
  cbn [header_end app] in *. change (a :: l ++ k)%list with ((a :: l) ++ k)%list. rewrite (take_app_le (a :: l) k 4) by lia.
  case_bool_decide; [done|].
  destruct (header_end l) as [m|]; [|done]. by rewrite (IH m eq_refl).
Qed.

(** Before its end, a head shows no end. *)
Lemma header_end_cut (head l : list ascii) : header_end head = Some (length head) -> (length l < length head)%nat ->
  l `prefix_of` head -> header_end l = None.
Proof.
  intros Hh Hl [k ->]. destruct (header_end l) as [n|] eqn:Hn; [|done]. pose proof (header_end_bounds _ _ Hn).
  apply (header_end_app _ k) in Hn. rewrite Hh in Hn. injection Hn as <-. lia.
Qed.

Section reading.
Context (head tail : list ascii) (Hend : header_end head = Some (length head)).

Lemma prefix_of_whole (l k : list ascii) : (l ++ k = head ++ tail)%list ->
  ((length l < length head)%nat /\ l `prefix_of` head) \/ (exists more, l = (head ++ more)%list /\ (more ++ k = tail)%list).
Proof.
  intros He. destruct (decide (length l < length head)%nat) as [Hl|Hl].
  - left. split; [done|]. apply (f_equal (take (length l))) in He. rewrite take_app_length, take_app_le in He by lia.
    rewrite He. apply prefix_take.
  - right. exists (drop (length head) l). assert (Ht : take (length head) l = head).
    { apply (f_equal (take (length head))) in He. by rewrite take_app_le, take_app_length in He by lia. }
    split; [by rewrite <- Ht at 1; rewrite take_drop|].
    apply (f_equal (drop (length head))) in He. by rewrite drop_app_le, drop_app_length in He by lia.
Qed.

Lemma head_read (bytes : list ascii) (chunks : list (list ascii)) :
  Z.of_nat (length head) <= MAX_HEADER_BYTES -> (length bytes < length head)%nat ->
  Forall (fun chunk => chunk <> []) chunks -> (bytes ++ concat chunks = head ++ tail)%list ->
  exists more chunks', read_head bytes (Ok <$> chunks) = (Ok <$> chunks', Ok (head ++ more, length head)%list)
    /\ (more ++ concat chunks' = tail)%list /\ Forall (fun chunk => chunk <> []) chunks'.
Proof.
  intros Hmax Hl Hchunks. revert bytes Hl. induction Hchunks as [|chunk chunks Hne Hchunks IH]; intros bytes Hl He.
  { cbn [concat] in He. rewrite app_nil_r in He. subst bytes. rewrite length_app in Hl. lia. }
  cbn [fmap list_fmap read_head concat] in *. destruct chunk as [|a chunk]; [done|].
  rewrite app_assoc in He. destruct (prefix_of_whole _ _ He) as [[Hshort Hpre]|(more & Hb & Htail)].
  - rewrite (header_end_cut head) by done. destruct (Z.ltb_spec MAX_HEADER_BYTES (Z.of_nat (length (bytes ++ a :: chunk)))); [lia|].
    by apply IH.
  - rewrite Hb, (header_end_app head more _ Hend). by exists more, chunks.
Qed.

Lemma body_read (stop : nat) (length_ : Z) (more : list ascii) (chunks : list (list ascii)) :
  stop = length head -> length_ <= Z.of_nat (length tail) -> Forall (fun chunk => chunk <> []) chunks ->
  (more ++ concat chunks = tail)%list ->
  exists more' rest chunks', read_body stop length_ (head ++ more) (Ok <$> chunks) = (Ok <$> chunks', Ok (head ++ more')%list)
    /\ (more' ++ rest = tail)%list /\ length_ <= Z.of_nat (length more').
Proof.
  intros -> Hlen Hchunks. revert more. induction Hchunks as [|chunk chunks Hne Hchunks IH]; intros more He; cbn [fmap list_fmap read_body].
  - cbn [concat] in He. destruct (Z.ltb_spec (Z.of_nat (length (head ++ more)) - Z.of_nat (length head)) length_) as [Hlt|Hge].
    + rewrite app_nil_r in He. subst more. rewrite length_app in Hlt. lia.
    + rewrite length_app in Hge. exists more, [], []. split; [done|]. split; [done|]. lia.
  - destruct (Z.ltb_spec (Z.of_nat (length (head ++ more)) - Z.of_nat (length head)) length_) as [Hlt|Hge].
    + destruct chunk as [|a chunk]; [done|]. rewrite <- app_assoc. apply IH. cbn [concat] in He. by rewrite <- app_assoc.
    + rewrite length_app in Hge. exists more, (concat (chunk :: chunks)), (chunk :: chunks). split; [done|]. split; [done|]. lia.
Qed.
End reading.

(** A request is read whatever the chunks its bytes arrive in: when its head is
    within the limit, ends at its first blank line and names the length of its body,
    and both are text, the daemon reads that head and that body, and what may follow
    is left out. *)
Theorem requests_are_read_whatever_the_chunks (head body rest : list ascii) (chunks : list (list ascii)) :
  header_end head = Some (length head) -> Z.of_nat (length head) <= MAX_HEADER_BYTES ->
  utf8_valid head = true -> utf8_valid body = true ->
  content_length head = Z.of_nat (length body) -> Z.of_nat (length body) <= MAX_BODY_BYTES ->
  Forall (fun chunk => chunk <> []) chunks -> concat chunks = (head ++ body ++ rest)%list ->
  snd (read_request (Ok <$> chunks)) = Ok (head, body).
Proof.
  intros Hend Hmax Hvh Hvb Hlen Hbody Hchunks Hall. unfold read_request.
  pose proof (header_end_bounds _ _ Hend) as Hb.
  destruct (head_read head (body ++ rest) Hend [] chunks) as (more & chunks' & -> & Htail & Hchunks'); [done|cbn; lia|done|done|].
  rewrite take_app_length, utf8_lossy_valid, Hlen by done.
  destruct (Z.ltb_spec MAX_BODY_BYTES (Z.of_nat (length body))); [lia|].
  destruct (body_read head (body ++ rest) (length head) (Z.of_nat (length body)) more chunks') as (more' & rest' & chunks'' & -> & Htail' & Hlong);
    [done|rewrite length_app; lia|done|done|].
  cbn [snd]. rewrite drop_app_length, Nat2Z.id.
  apply (f_equal (take (length body))) in Htail'. rewrite take_app_length, take_app_le in Htail' by lia.
  by rewrite Htail', utf8_lossy_valid.
Qed.

(** ** A small daemon *)

Record ToyUrl := { tu_scheme : string; tu_host : string }.
#[local] Instance toy_url : UrlApi ToyUrl := {|
  url_scheme := tu_scheme; url_username := fun _ => ""; url_password := fun _ => None; url_host_str := fun u => Some (tu_host u) |}.

Definition demo_node (id host : string) : AuthorizedNode ToyUrl := {|
  nd_id := id; nd_endpoint := {| tu_scheme := "https"; tu_host := host |};
  nd_public_key_sha256 := encode_hex (replicate 32 (byte_of 171)); nd_regions := [] |}.

Definition demo_config : DharmaConfig ToyUrl := {|
  dc_daemon := {| dm_bind := default_bind; dm_max_content_bytes := 100; dm_max_requests_per_minute := 1 |};
  dc_nodes := [demo_node "east" "east.example.org"; demo_node "west" "9.9.9.9"] |}.

(** The whole body is the content. *)
Definition toy_request_of_json (body : list ascii) : result string DeliveryRequest :=
  Ok {| rq_task_id := "task"; rq_content := string_of body; rq_region := None |}.

Definition crlf (s : string) : list ascii := (bytes_of s ++ [byte_of 13; byte_of 10])%list.
Definition demo_head : list ascii := (crlf "POST /send HTTP/1.1" ++ crlf "content-length: 5" ++ crlf "")%list.
Definition demo_reads : list (list ascii) :=
  let stream := (demo_head ++ bytes_of "hello" ++ bytes_of "more")%list in [take 20 stream; take 23 (drop 20 stream); drop 43 stream].

(** The key in capitals, from every node. *)
Definition known_key : nat -> NodeAnswer := fun _ => Ok (Some (to_ascii_uppercase (encode_hex (replicate 32 (byte_of 171))))).

Definition demo_moves : list DharmaMove :=
  [Accepts (Ok <$> demo_reads) 5 5; Accepts (Ok <$> demo_reads) 6 6; Delivers 0 known_key (fun _ => 7); Records 0].

Notation toy_sha := (fun l => rev (take 4 l)).
Notation demo_world := (dharma_run toy_sha toy_request_of_json demo_config 0 demo_moves).

Lemma receipts_are_confirmed_witness :
  length (ds_receipts (dw_state demo_world)) = 2%nat
  /\ (forall r, r ∈ ds_receipts (dw_state demo_world) -> exists p, p ∈ dw_posted demo_world /\ receipt_for p r)
  /\ dw_handlers demo_world !! 1%nat = Some (Answered (Ok (SendFailed "rate limit reached"))).
Proof.
  split; [vm_compute; reflexivity|]. split; [|vm_compute; reflexivity].
  assert (Hv : validate_config demo_config = Ok tt) by (vm_compute; reflexivity).
  exact (proj1 (proj2 (receipts_are_confirmed toy_sha toy_request_of_json demo_config 0 demo_moves Hv))).
Defined.

Lemma sends_are_rate_limited_witness :
  sends toy_sha toy_request_of_json {| dw_state := dharma_new demo_config 0; dw_handlers := []; dw_posted := [] |} demo_moves = [5]
  /\ within 0 ONE_MINUTE (sends toy_sha toy_request_of_json
       {| dw_state := dharma_new demo_config 0; dw_handlers := []; dw_posted := [] |} demo_moves) <= 2.
Proof.
  split; [vm_compute; reflexivity|]. etransitivity.
  - apply (sends_are_rate_limited toy_sha toy_request_of_json demo_config 0 0 demo_moves); [vm_compute; reflexivity|vm_compute; discriminate|].
    cbn. split_and!; lia.
  - cbn. lia.
Defined.

Lemma requests_are_read_whatever_the_chunks_witness :
  snd (read_request (Ok <$> demo_reads)) = Ok (demo_head, bytes_of "hello") /\ request_target demo_head = "/send".
Proof.
  split; [|vm_compute; reflexivity].
  apply (requests_are_read_whatever_the_chunks demo_head (bytes_of "hello") (bytes_of "more") demo_reads);
    [vm_compute; reflexivity|vm_compute; discriminate|vm_compute; reflexivity..|vm_compute; discriminate| |vm_compute; reflexivity].
  repeat constructor; vm_compute; discriminate.
Defined.

(** A node that fails loses the receipts of the nodes before it: they have the
    content, and the daemon keeps and answers nothing of it. *)
Definition second_fails (n : nat) : NodeAnswer := match n with O => known_key O | _ => Err "timed out" end.

Lemma failed_node_loses_receipts :
  let w := dharma_run toy_sha toy_request_of_json demo_config 0
             [Accepts (Ok <$> demo_reads) 5 5; Delivers 0 second_fails (fun _ => 7); Records 0] in
  (nd_id ∘ po_node) <$> dw_posted w = ["east"; "west"] /\ po_answer <$> head (dw_posted w) = Some (known_key O)
  /\ ds_receipts (dw_state w) = [] /\ dw_handlers w = [Answered (Ok (SendFailed "node west: timed out"))].
Proof. vm_compute. split_and!; reflexivity. Qed.

(** The host of an IPv6 address is written in brackets, which the parser of addresses
    does not take: the loopback address is let through as a name. *)
Lemma bracketed_loopback_is_allowed :
  validate_node (demo_node "self" "[::1]") = Ok tt /\ parse_ip "::1" = Some (V6 1) /\ is_private_or_local (V6 1) = true.
Proof. vm_compute. split_and!; reflexivity. Qed.

(** Only [send] trims the log; running the loop adds a line every time. *)
Lemma loops_grow_the_log :
  let loop := (crlf "POST /loop HTTP/1.1" ++ crlf "")%list in
  length (ds_logs (dw_state (dharma_run toy_sha toy_request_of_json demo_config 0 (replicate 300 (Accepts [Ok loop] 5 5))))) = 301%nat.
Proof. vm_compute. reflexivity. Qed.

(** The name of a header is read in two spellings only. *)
Lemma other_spellings_have_no_length :
  content_length (crlf "POST /send HTTP/1.1" ++ crlf "Content-length: 5" ++ crlf "")%list = 0
  /\ content_length (crlf "POST /send HTTP/1.1" ++ crlf "Content-Length: 5" ++ crlf "")%list = 5.
Proof. vm_compute. split; reflexivity. Qed.
